(* ===== verification/_CoqProject ===== *)
-Q . S2P
Prelude.v
GoText.v
GoTime.v
Suggestions.v
FloatRound.v
GoFloat.v
FloatBounds.v
Event.v
Fingerprint.v
Baseline.v
Anomaly.v
Trust.v
Policy.v
Store.v
Engine.v
DecisionRecord.v
Domain.v
Paging.v
Counters.v
Recency.v
Environment.v
Operational.v
Fidelity.v
Aggregate.v
Observation.v
Counting.v
Behavior.v
Scorecard.v
Gate.v
Promotion.v
RunStore.v
EvidenceStore.v
Ingest.v
Provenance.v
Cost.v
Frequency.v
Preview.v
FrequencyGate.v
Repeated.v
GateRecord.v
Scenario.v
Catalog.v
ControlPlane.v
Status.v
Traces.v
ScenarioService.v
RunServer.v
IngestApi.v
Semconv.v
Spans.v
Delivery.v
