(* ===== verification/Prelude.v ===== *)
(** * Trustvian: a verification library

    Trustvian scores the actions of software agents against what each agent has been seen
    to do before, decides what may proceed, and learns only from what did.  Beside the
    engine, its platform collects the decisions of whole evaluation runs, compares two runs,
    and gates the promotion of a candidate from one environment to the next.  This library
    models both, file by file, and proves what makes them correct.

    ** Parts and files

    Foundations.  [Prelude] holds the error monad (a Go [(value, error)] pair is [res]; an
    error is the list of sentinels it wraps, so [errors.Is] is membership; message text is
    not modelled), machine-width integers (a Go integer is a [Z] with [i64]/[u64] written
    where the code can wrap), stores of keyed values and shared tactics.  [GoText] is the
    text handling the code calls (decimal formatting and parsing, trimming, printability),
    [GoTime] is package time's instants and offsets, [GoFloat] binary64 arithmetic on
    Rocq's primitive floats, [FloatRound] and [FloatBounds] what is proved of rounding, so
    that bounds on scores hold of the floating-point code and not of real numbers.

    The engine (package trustvian and internal/).  [Event] is event/ and the vocabularies of
    internal/semconv; [Fingerprint] is internal/features and internal/fingerprint; [Baseline]
    internal/baseline (per-fingerprint statistics, transitions, trigrams, delegators,
    admission); [Anomaly] internal/anomaly; [Trust] internal/trust; [Policy] internal/policy;
    [Store] internal/store, both the in-memory store and the file store, behind the class
    [StoreLaws]; [Engine] is engine.go, options.go and result.go against any store of that
    class; [DecisionRecord] is decision_record.go.

    The platform (platform/).  [Domain] is domain.go and the run state machine; [Counters]
    and [Operational] the checked counters of operational.go and behavior_operational.go with
    their column text and comparison; [Fidelity] is behavior_fidelity.go; [Aggregate]
    aggregate.go; [Observation] observation.go, observation_store.go and the page walk of
    controlplane.go; [Counting] counting.go; [Behavior] behavior.go; [Scorecard]
    scorecard.go; [Gate] gate.go; [Paging] the keyset pages of collection_store.go;
    [Environment] environment.go and environment_store.go; [Promotion] promotion.go and
    promotion_store.go; [Recency] recency.go.  Repeated comparison: [Frequency] is the call
    statistics of frequency.go, [FrequencyGate] frequency_gate.go, [Repeated] repeated.go's
    reduction of repetitions to rows, checks and a verdict with the suggestions of
    comparison_rules.go, [Cost] cost.go; scenarios: [Provenance] is scenario_provenance.go
    and sameness.go, [GateRecord] scenario_gate_record.go, [Scenario] the executions of
    scenario_execution.go with the tables of scenario_execution_store.go; [Preview] is aggregate.go's bounded
    quoting, which the evidence of a deferred check uses.  [RunStore] is the runs table of sqlite.go,
    [EvidenceStore] its evidence tables, the ingest cursor and the commit transaction,
    [Ingest] the control plane's ingestion of records over both, [Catalog] the tables of
    projects, agents, candidates, environments and promotions with their listings, and
    [ControlPlane] the calls of controlplane.go and repeated.go that compose all of them.
    On top of it, [ScenarioService] is scenario_execution_service.go and the service part of
    scenario_execution_list.go, [Traces] trace_summary.go, and [Status] status.go and
    status_rules.go; [Suggestions] is the rule table both kinds of suggestion are made by.

    The interleavings are step relations that grow: [Catalog.edit_step] is the catalogue's
    reads and writes, [Ingest.ingest_step] the parts of an ingestion and the run updates, and
    [ControlPlane.control_step] both beside the scenario store's calls.  Each system's
    invariant is proved on its own relation and used through a projection.

    ** How state and operations correspond

    A Go struct is a Record with the source's field names (a prefix where two structs share
    one), a method is a function of its receiver, and a method that mutates its receiver
    returns the new value; where a method can fail after a partial mutation the result is the
    pair of the new value and the error ([Behavior.ObserveOperational],
    [Store.FileStore_Observe]).  Maps are [gmap]s; iteration that the code sorts is sorted
    here, and theorems show order independence where the code does not sort.  A row of a
    table is a record of the columns as stored, counters as their decimal text, booleans
    as 0 or 1; a time column is held as the time it denotes.

    ** What the theorems show

    - Engine: every score and risk is a number of the unit interval, a non-finite input
      denies; analysis uses only the baseline of its scope, actor and environment; learning
      happens exactly when the decision allows and the store admits, and a denying policy
      leaves the store alone; the first matching rule decides; the baseline's counters stay
      consistent and bounded over every history; a file store restarts to the state it had.
    - Evidence: what any run's records fold to is well formed, is refused atomically when it
      would overflow, and restores from its stored columns exactly; the retained history is
      truthful about what it dropped.
    - Comparison and counting: the comparison of two snapshots is exactly the difference of
      their behaviors; added behaviors fold to changes by reachability, independent of
      order, and the graph walks terminate with exact answers.
    - Scorecard, gate, promotion: the scorecard is built from the two runs' counters and
      refuses evidence of different comparisons; the verdict is exactly the conjunction of
      the limits; a promotion is exactly a gate verdict for an ordered pair of environments,
      and no row of the promotion table reads back as a promotion that was not decided.
    - Repeated comparison: rows, call statistics, cost and verdict of N repetitions a side
      are exactly those of the runs, whatever order they are listed in and Go ranges over its
      maps in; the gate can be recorded for plain run identifiers, and its text is one-to-one
      with valid records; warnings are exactly the recorded differences.
    - Scenario executions: the tables implement a map of executions and a log of completions,
      call by call and error by error; completion numbers are gapless, terminal executions
      final, and the latest of a scope is the last completed in it.
    - Store and ingestion: a run's update is a compare-and-set along its lifecycle, so one of
      two writers wins; a record is counted exactly once however often it is sent; and in
      every interleaving of concurrent ingestions, lifecycle updates and failures, what is
      stored for a run is what one pass over one log of requests makes of it.
    - Control plane: edits of an environment are serial whatever interleaves with them, and a
      promotion commits only over the revisions it was decided on; a comparison of one run a
      side or of several is of what the runs' logs of requests make, and never changes once
      the runs have finished; a promotion commits exactly when the whole call, made at that
      moment, would.
    - Scenario service: a completion commits exactly what the whole call, made at that moment,
      would, in one step of the system, and reads back; a reference that may be reused stays
      so, with the same runs.
    - Progress: an edit in flight is accepted or finds that another was acknowledged, and an
      edit read now is accepted now.
    - Views: the traces and sessions of a run are exactly the groups of its retained
      observations; of a collector's reports the newest is held, however they are reordered
      or repeated; the pipeline document and its suggestions are exactly the held reports'.
    - Ordering: promotability is acyclic; every listing of the catalogue is complete; keyset pages walk every row once; recency keys
      order as times do.

    ** Fuel and bounds

    Go's loops over collections are structural folds here.  Fuel appears in [hasCycle]'s
    topological removal ([S] of the number of nodes: each step removes one),
    [reachableFrom] ([S] of the number of nodes: each step visits a new one), the page
    walks (more steps than rows) and decimal formatting (64 digits for a 64-bit number);
    theorems show each amount enough.

    Three parameters stand for the runtime: [MapOrder] is the order in which a Go map is
    ranged over (any enumeration of its entries), [Unicode] the printability of runes above
    ASCII in strconv.Quote, and [GateJSON] encoding/json on the gate record's struct, which
    reads back the valid UTF-8 it wrote.  Each has an instance the witnesses compute with.

    [Ingest] takes the digest of a record (SHA-256 of its JSON) as a parameter that answers
    64 lowercase hexadecimal digits, and a transaction of the store as one atomic step.  Its
    theorems are for requests whose times are after year 1 (an earlier one makes an aggregate
    that cannot be read back, a finding) and for fewer than 2^53 records of a run.

    ** Not modelled

    Mutexes (each operation runs under one), monotonic clock readings, error text, I/O failures of files and
    databases beyond those the stores report, other JSON, HTTP, process and terminal handling,
    OpenTelemetry interfaces.  Floating-point expressions are evaluated as written, without
    the fused multiply-add Go may use on some architectures. *)

From stdpp Require Export base gmap strings list fin_maps sorting.
From Stdlib Require Export ZArith Lia Bool.

Open Scope Z_scope.

(** ** Errors

    Go reports a failure by an [error] value that wraps package sentinels
    ([fmt.Errorf("%w: ...", ErrX)]); callers discriminate with [errors.Is].  An
    error is modelled by the chain of sentinels it wraps, outermost first; the
    message text is not modelled.  An error that wraps no sentinel is []. *)
Inductive sentinel : Type :=
(* package event *)
| ErrMissingID | ErrMissingTimestamp | ErrMissingActorID | ErrInvalidActorType
| ErrInvalidIdentityConfidence | ErrMissingOperationName
| ErrInvalidOperationCategory | ErrInvalidOperationDirection
| ErrEventInvalidTimestamp | ErrInvalidDuration
(* package platform *)
| ErrInvalidID | ErrInvalidName | ErrInvalidMetadata | ErrInvalidTransition
| ErrInvalidTimestamp
| ErrInvalidDecisionRecord | ErrEnvironmentMismatch | ErrAggregateOverflow
| ErrUnboundAggregate
| ErrInvalidFidelityPair | ErrStoreCorrupt
| ErrInvalidBehaviorRecord | ErrBehaviorEnvironmentMismatch
| ErrFingerprintConflict | ErrBehaviorCapacity | ErrIncompleteSnapshot
| ErrUnboundCollector | ErrBehaviorOverflow
| ErrInvalidScorecardEvidence | ErrScorecardEvidenceMismatch
| ErrInvalidGatePolicy | ErrInvalidGateEvidence
| ErrEnvironmentLimit | ErrEnvironmentUnavailable
| ErrPromotionScope | ErrPromotionOrder
| ErrFrequencyOverflow | ErrInvalidRepeatedRequest | ErrRepeatedIsolation
| ErrInvalidObservation | ErrObservationCursor | ErrRunScope
| ErrStoreNotFound | ErrStoreAlreadyExists | ErrStoreConflict
| ErrIngestSequence | ErrEvaluationState | ErrComparisonScope | ErrCostOverflow
| ErrScenarioReference | ErrScenarioExecutionState | ErrScenarioExecutionsUnsupported
| ErrScenarioScope
| ErrInvalidStatusReport | ErrStatusCollectorLimit | ErrRealtimeClosed | ErrRealtimeCapacity
| ErrInvalidFinding | ErrInvalidOperationalRequest | ErrStoreSchemaVersion
(* package evaluation of the collector; the first is its error type for an unknown outcome *)
| ErrOutcomeUnknown | ErrRefusedRedirect | ErrUnresolved | ErrLearningIndeterminate
(* package config; its ErrInvalidActorType is not package event's *)
| ErrUnsupportedVersion | ErrMissingDefault | ErrInvalidDecision | ErrConfigActorType | ErrInvalidCategory
| ErrInvalidRiskLevel | ErrEmptyRuleName | ErrDuplicateRuleName | ErrMissingReason | ErrTooManyRules
| ErrNameTooLong | ErrInvalidSeverity | ErrInvalidTargetCategory | ErrInvalidThreshold
| ErrUnsupportedAlertVersion | ErrInvalidApprovalStatus | ErrUnsupportedStorageVersion | ErrInvalidStorageType
| ErrMissingStoragePath | ErrMissingStorageDSN | ErrUnsupportedAnomalyVersion | ErrInvalidZThreshold
| ErrUnsupportedTrustVersion | ErrNonAscendingThresholds | ErrInvalidPricing | ErrInvalidScenario.

#[export] Instance sentinel_eq_dec : EqDecision sentinel.
Proof. solve_decision. Defined.

Definition error : Type := list sentinel.

(** [errors.Is e s]. *)
Definition errors_is (e : error) (s : sentinel) : bool := bool_decide (s ∈ e).

(** The result of a fallible call: Go's [(value, error)] pair, of which a caller
    reads the value only when the error is nil. *)
Inductive res (A : Type) : Type :=
| Ok (a : A)
| Err (e : error).
Arguments Ok {A} a.
Arguments Err {A} e.

#[export] Instance res_ret : MRet res := fun A a => Ok a.
#[export] Instance res_bind : MBind res := fun A B f m =>
  match m with Ok a => f a | Err e => Err e end.
#[export] Instance res_fmap : FMap res := fun A B f m =>
  match m with Ok a => Ok (f a) | Err e => Err e end.

(** [if cond { return err }] in front of the rest of a function body. *)
Definition fail_if (cond : bool) (e : error) : res unit :=
  if cond then Err e else Ok tt.

(** [if err := f(); err != nil { return wrap(err) }]. *)
Definition map_err {A} (wrap : error -> error) (m : res A) : res A :=
  match m with Ok a => Ok a | Err e => Err (wrap e) end.

Definition is_ok {A} (m : res A) : bool :=
  match m with Ok _ => true | Err _ => false end.

(** [for _, x := range xs { if err := f(&acc, x); err != nil { return err } }]. *)
Fixpoint foldM {A B} (f : B -> A -> res B) (b : B) (l : list A) : res B :=
  match l with
  | [] => Ok b
  | x :: l => b' ← f b x; foldM f b' l
  end.

Section res_lemmas.
Context {A B : Type}.

Lemma bind_Ok (m : res A) (k : A -> res B) (b : B) :
  (x ← m; k x) = Ok b <-> exists a, m = Ok a /\ k a = Ok b.
Proof. destruct m; split; [eauto|naive_solver|done|naive_solver]. Qed.

Lemma bind_Err (m : res A) (k : A -> res B) (e : error) :
  (x ← m; k x) = Err e <-> m = Err e \/ exists a, m = Ok a /\ k a = Err e.
Proof. destruct m; cbn; naive_solver. Qed.

Lemma fmap_Ok (m : res A) (f : A -> B) (b : B) :
  f <$> m = Ok b <-> exists a, m = Ok a /\ f a = b.
Proof. destruct m; cbn; naive_solver. Qed.

Lemma map_err_Ok (w : error -> error) (m : res A) (a : A) :
  map_err w m = Ok a <-> m = Ok a.
Proof. destruct m; cbn; naive_solver. Qed.

Lemma is_ok_spec (m : res A) : is_ok m = true <-> exists a, m = Ok a.
Proof. destruct m; cbn; naive_solver. Qed.

End res_lemmas.

Section fold_lemmas.
Context {A B : Type}.

(** An invariant every step keeps is kept by the whole loop. *)
Lemma foldM_ind (P : B -> Prop) (f : B -> A -> res B) (l : list A) :
  (forall b x b', x ∈ l -> P b -> f b x = Ok b' -> P b') ->
  forall b b', P b -> foldM f b l = Ok b' -> P b'.
Proof.
  induction l as [|x l IH]; intros Hf b b' Hb; cbn; [naive_solver|].
  intros (b1 & H1 & H2)%bind_Ok.
  refine (IH _ b1 b' _ H2); [|eapply Hf; [|done|done]; set_solver].
  intros ??? Hin; apply Hf; set_solver.
Qed.

Lemma foldM_app (f : B -> A -> res B) (l1 l2 : list A) (b : B) :
  foldM f b (l1 ++ l2) = (b' ← foldM f b l1; foldM f b' l2).
Proof.
  revert b; induction l1 as [|x l1 IH]; intros b; [done|].
  cbn. destruct (f b x); cbn; auto.
Qed.
End fold_lemmas.

Lemma fail_if_Ok (c : bool) (e : error) (u : unit) :
  fail_if c e = Ok u <-> c = false.
Proof. destruct c, u; cbn; naive_solver. Qed.

Lemma fail_if_Err (c : bool) (e e' : error) :
  fail_if c e = Err e' <-> c = true /\ e = e'.
Proof. destruct c; cbn; naive_solver. Qed.

Lemma fail_if_iff (c : bool) e : fail_if c e = Ok tt <-> c = false.
Proof. destruct c; cbn; naive_solver. Qed.

Lemma bind_unit_iff {B} (m : res unit) (k : res B) v : (m;; k) = Ok v <-> m = Ok tt /\ k = Ok v.
Proof. destruct m as [[]|]; cbn; naive_solver. Qed.

(** [res_inv] opens every successful bind, guard and return of the context. *)
Ltac res_inv :=
  repeat match goal with
  | H : (mbind _ _) = Ok _ |- _ =>
      let a := fresh "a" in let H1 := fresh "Hok" in
      apply bind_Ok in H; destruct H as (a & H1 & H)
  | H : fail_if _ _ = Ok _ |- _ => apply fail_if_Ok in H
  | H : map_err _ _ = Ok _ |- _ => apply map_err_Ok in H
  | H : fmap _ _ = Ok _ |- _ => 
      let a := fresh "a" in let H1 := fresh "Hok" in
      apply fmap_Ok in H; destruct H as (a & H1 & H)
  | H : Ok _ = Ok _ |- _ => injection H as H
  | H : mret _ = Ok _ |- _ => injection H as H
  | H : Err _ = Ok _ |- _ => discriminate H
  | u : unit |- _ => destruct u
  end.

(** ** Which errors a computation can report

    [never s m]: no error of [m] is [s] in the sense of [errors.Is]. *)
Definition never {A} (s : sentinel) (m : res A) : Prop := forall e, m = Err e -> errors_is e s = false.

Section never_lemmas.
Context (s : sentinel).

Lemma never_Ok {A} (a : A) : never s (Ok a).
Proof. by intros e. Qed.
Lemma never_Err {A} (e : error) : errors_is e s = false -> never s (Err e : res A).
Proof. by intros H e' [= <-]. Qed.
Lemma never_fail_if (c : bool) (e : error) : errors_is e s = false -> never s (fail_if c e).
Proof. intros H e'. destruct c; [by intros [= <-]|done]. Qed.
Lemma never_bind {A B} (m : res A) (k : A -> res B) : never s m -> (forall a, never s (k a)) -> never s (m ≫= k).
Proof. intros H1 H2 e. destruct m as [a|e']; [apply H2|]. cbn. intros [= <-]. by apply H1. Qed.
Lemma never_map_err {A} (w : error -> error) (m : res A) :
  (forall e, errors_is e s = false -> errors_is (w e) s = false) -> never s m -> never s (map_err w m).
Proof. intros Hw H e. destruct m as [a|e']; cbn; [done|]. intros [= <-]. by apply Hw, H. Qed.
Lemma never_foldM {A B} (f : B -> A -> res B) l b : (forall b a, never s (f b a)) -> never s (foldM f b l).
Proof. intros Hf. revert b. induction l as [|x l IH]; intros b; cbn; [apply never_Ok|]. apply never_bind; [apply Hf|done]. Qed.
Lemma errors_is_cons x e : errors_is (x :: e) s = bool_decide (x = s) || errors_is e s.
Proof.
  unfold errors_is. apply Bool.eq_iff_eq_true. rewrite orb_true_iff, !bool_decide_eq_true, elem_of_cons. intuition congruence.
Qed.
End never_lemmas.

(** Splits a goal [never s m] along the structure of [m]. *)
Ltac never_step :=
  match goal with
  | |- never _ (Ok _) => apply never_Ok
  | |- never _ (Err _) => apply never_Err; reflexivity
  | |- never _ (fail_if _ _) => apply never_fail_if; reflexivity
  | |- never _ (mbind _ _) => apply never_bind; [|intros ?]
  | |- never _ (map_err _ _) =>
      apply never_map_err; [let e := fresh in let H := fresh in
        intros e H; try exact H;
        repeat match goal with |- context [if ?c then _ else _] => destruct c end;
        rewrite ?errors_is_cons, ?H; reflexivity|]
  | |- never _ (foldM _ _ _) => apply never_foldM; intros ? ?
  | |- never _ (if ?c then _ else _) => destruct c
  | |- never _ (match ?x with _ => _ end) => destruct x
  | H : never ?s ?m |- never ?s ?m => exact H
  | |- _ => progress cbv beta zeta
  end.
Ltac nevers := repeat (never_step; eauto with never).
Create HintDb never discriminated.

(** String comparison, in a scope of its own ([=?] is the integer one). *)
Declare Scope go_scope.
Delimit Scope go_scope with go.
Notation "a =s b" := (String.eqb a b) (at level 70, no associativity) : go_scope.
Notation "a <>s b" := (negb (String.eqb a b)) (at level 70, no associativity) : go_scope.
Open Scope go_scope.

(** ** Unsigned 64-bit integers

    A uint64 is a [Z]; arithmetic that may wrap is written with [u64]. *)
Definition max_u64 : Z := 18446744073709551615.
Definition u64 (z : Z) : Z := z mod 18446744073709551616.
Definition is_u64 (z : Z) : Prop := 0 <= z <= max_u64.

Lemma u64_small z : is_u64 z -> u64 z = z.
Proof. unfold is_u64, u64, max_u64. intros ?. apply Z.mod_small. lia. Qed.

Lemma u64_range z : is_u64 (u64 z).
Proof. unfold is_u64, u64, max_u64. pose proof (Z.mod_pos_bound z 18446744073709551616). lia. Qed.

Lemma u64_add_wrap a b : u64 (u64 a + b) = u64 (a + b).
Proof. unfold u64. apply Zplus_mod_idemp_l. Qed.

(** Signed 64-bit wrap-around (Go's [int64], [int] and [time.Duration]). *)
Definition min_i64 : Z := -9223372036854775808.
Definition max_i64 : Z := 9223372036854775807.
Definition i64 (z : Z) : Z :=
  (z + 9223372036854775808) mod 18446744073709551616 - 9223372036854775808.
Definition is_i64 (z : Z) : Prop := min_i64 <= z <= max_i64.

Lemma i64_small z : is_i64 z -> i64 z = z.
Proof. unfold is_i64, i64, min_i64, max_i64. intros ?. rewrite Z.mod_small; lia. Qed.

Lemma i64_range z : is_i64 (i64 z).
Proof.
  unfold is_i64, i64, min_i64, max_i64.
  pose proof (Z.mod_pos_bound (z + 9223372036854775808) 18446744073709551616). lia.
Qed.

Create HintDb go discriminated.
#[export] Hint Resolve u64_range i64_range : go.
#[export] Hint Rewrite u64_small using (unfold is_u64, max_u64 in *; lia) : go.

(** Unfolds the machine-integer ranges and decides with [lia]. *)
Ltac ulia := unfold is_u64, is_i64, max_u64, min_i64, max_i64 in *; lia.

(** Turns the boolean guards of the code into propositions. *)
Ltac bool_prop :=
  repeat match goal with
  | H : _ && _ = true |- _ => apply andb_true_iff in H; destruct H
  | H : _ || _ = false |- _ => apply orb_false_iff in H; destruct H
  | H : negb _ = true |- _ => apply negb_true_iff in H
  | H : negb _ = false |- _ => apply negb_false_iff in H
  | H : bool_decide _ = true |- _ => apply bool_decide_eq_true in H
  | H : bool_decide _ = false |- _ => apply bool_decide_eq_false in H
  | H : (_ =? _)%Z = true |- _ => apply Z.eqb_eq in H
  | H : (_ =? _)%Z = false |- _ => apply Z.eqb_neq in H
  | H : (_ <? _)%Z = true |- _ => apply Z.ltb_lt in H
  | H : (_ <? _)%Z = false |- _ => apply Z.ltb_ge in H
  | H : (_ <=? _)%Z = true |- _ => apply Z.leb_le in H
  | H : (_ <=? _)%Z = false |- _ => apply Z.leb_gt in H
  | H : (_ >? _)%Z = _ |- _ => rewrite Z.gtb_ltb in H
  | H : (_ >=? _)%Z = _ |- _ => rewrite Z.geb_leb in H
  | H : (_ =? _)%string = true |- _ => apply String.eqb_eq in H
  | H : (_ =? _)%string = false |- _ => apply String.eqb_neq in H
  end.

(** ** Lists and sums *)
Definition sumZ (l : list Z) : Z := foldr Z.add 0 l.

Lemma sumZ_cons x l : sumZ (x :: l) = x + sumZ l.
Proof. done. Qed.

Lemma sumZ_app l1 l2 : sumZ (l1 ++ l2) = sumZ l1 + sumZ l2.
Proof. induction l1 as [|x l1 IH]; [done|]. cbn [app]. rewrite !sumZ_cons. lia. Qed.

Lemma sumZ_nonneg l : Forall (fun x => 0 <= x) l -> 0 <= sumZ l.
Proof. induction 1; [done|]. rewrite sumZ_cons. lia. Qed.

Lemma sumZ_elem l x : Forall (fun x => 0 <= x) l -> x ∈ l -> x <= sumZ l.
Proof.
  induction 1 as [|y l Hy Hl IH]; [set_solver|].
  rewrite sumZ_cons. pose proof (sumZ_nonneg l Hl).
  intros [->|Hx%IH]%elem_of_cons; lia.
Qed.

Lemma sumZ_perm l1 l2 : l1 ≡ₚ l2 -> sumZ l1 = sumZ l2.
Proof. induction 1; rewrite ?sumZ_cons; lia. Qed.

(** ** Sorting

    [slices.Sort] on strings orders bytes lexicographically, as [String.le]
    does; the sorted sequence of a multiset of strings is unique. *)
Definition sort_strings (l : list string) : list string := merge_sort String.le l.

Lemma sort_strings_perm l : sort_strings l ≡ₚ l.
Proof. apply merge_sort_Permutation. Qed.

Lemma sort_strings_sorted l : StronglySorted String.le (sort_strings l).
Proof. apply (StronglySorted_merge_sort _). Qed.

(** Sorting records by a string key ([slices.SortFunc] with [cmp.Compare] on the
    key; the keys are distinct where the code sorts, so the order is unique). *)
Section sort_by.
Context {A : Type} (key : A -> string).
Definition key_le (a b : A) : Prop := String.le (key a) (key b).
#[export] Instance key_le_dec : RelDecision key_le.
Proof. intros a b. unfold key_le. apply _. Defined.
#[export] Instance key_le_total : Total key_le.
Proof. intros a b. unfold key_le. apply (total String.le). Qed.
#[export] Instance key_le_trans : Transitive key_le.
Proof. intros a b c. unfold key_le. apply transitivity. Qed.
Definition sort_by (l : list A) : list A := merge_sort key_le l.
Lemma sort_by_perm l : sort_by l ≡ₚ l.
Proof. apply merge_sort_Permutation. Qed.
Lemma sort_by_sorted l : StronglySorted key_le (sort_by l).
Proof. apply (StronglySorted_merge_sort _). Qed.
Lemma sort_by_length l : length (sort_by l) = length l.
Proof. by rewrite sort_by_perm. Qed.
Lemma elem_of_sort_by l x : x ∈ sort_by l <-> x ∈ l.
Proof. by rewrite sort_by_perm. Qed.
End sort_by.

(** ** Ranging over a map

    Go visits the keys of a map in an order it does not specify.  Code that ranges over a
    map is modelled against any order; where a definition is evaluated, [key_order]. *)
Class MapOrder : Type := {
  range {K V : Type} `{Countable K} : gmap K V -> list (K * V);
  range_perm {K V : Type} `{Countable K} (m : gmap K V) : range m ≡ₚ map_to_list m;
}.
Definition key_order : MapOrder :=
  {| range K V _ _ m := map_to_list m; range_perm K V _ _ m := reflexivity (map_to_list m) |}.

Section range.
Context `{order : MapOrder} {K V : Type} `{Countable K}.
Implicit Types m : gmap K V.

Lemma elem_of_range m k v : (k, v) ∈ range m <-> m !! k = Some v.
Proof. rewrite range_perm. apply elem_of_map_to_list. Qed.
Lemma NoDup_range m : NoDup (range m).*1.
Proof. rewrite range_perm. apply NoDup_fst_map_to_list. Qed.
Lemma elem_of_range_keys m k : k ∈ (range m).*1 <-> is_Some (m !! k).
Proof.
  rewrite list_elem_of_fmap. split.
  - intros ([k' v] & -> & Hin%elem_of_range). by exists v.
  - intros [v Hv]. exists (k, v). split; [done|]. by apply elem_of_range.
Qed.
End range.
