(* ===== verification/GoText.v ===== *)
(** * Go strings

    A Go string is a byte sequence; [string] (a list of 8-bit [ascii]) is the same
    thing.  This file gives the functions of packages [strings], [unicode/utf8],
    [unicode] and [strconv] that the modelled code calls: length in bytes, [Cut],
    UTF-8 decoding ([range] over a string, [utf8.ValidString]), [TrimSpace], and
    the unsigned formatting and parsing of [strconv] with their round trip. *)
From Stdlib Require Import Ascii.
From S2P Require Import Prelude.

Open Scope Z_scope.
#[local] Arguments Ascii.eqb : simpl never.
#[local] Arguments String.append : simpl nomatch.

(** [len(s)], in bytes. *)
Definition len (s : string) : Z := Z.of_nat (String.length s).

Definition byte_of (a : ascii) : Z := Z.of_N (N_of_ascii a).

(** ** [strings.Cut] on a one-byte separator *)
Fixpoint cut (s : string) (sep : ascii) : string * string * bool :=
  match s with
  | EmptyString => (EmptyString, EmptyString, false)
  | String a s' =>
      if Ascii.eqb a sep then (EmptyString, s', true)
      else let '(before, after, found) := cut s' sep in (String a before, after, found)
  end.

Fixpoint has_byte (sep : ascii) (s : string) : bool :=
  match s with
  | EmptyString => false
  | String a s' => Ascii.eqb a sep || has_byte sep s'
  end.

(** Cutting at the first separator undoes appending one after a part free of it. *)
Lemma cut_append a sep b :
  has_byte sep a = false ->
  cut (String.append a (String sep b)) sep = (a, b, true).
Proof.
  induction a as [|x a IH]; cbn; intros H.
  - by rewrite Ascii.eqb_refl.
  - apply orb_false_iff in H as [-> H]. by rewrite (IH H).
Qed.

Lemma cut_none a sep :
  has_byte sep a = false -> cut a sep = (a, EmptyString, false).
Proof.
  induction a as [|x a IH]; cbn; intros H; [done|].
  apply orb_false_iff in H as [-> H]. by rewrite (IH H).
Qed.

(** ** UTF-8

    [chunks s] is the sequence of runes a [range] over [s] visits, each with the
    bytes it was decoded from.  An undecodable byte is the rune U+FFFD of width
    one, flagged invalid. *)
Record chunk : Type := { rune : Z; raw : string; valid_rune : bool }.

Definition in_range (lo hi : Z) (a : ascii) : bool := (lo <=? byte_of a) && (byte_of a <=? hi).
Definition is_cont (a : ascii) : bool := in_range 128 191 a.

Definition bad_byte (a : ascii) : chunk :=
  {| rune := 65533; raw := String a EmptyString; valid_rune := false |}.

Definition low6 (a : ascii) : Z := Z.land (byte_of a) 63.

Definition rune1 (a : ascii) : chunk :=
  {| rune := byte_of a; raw := String a EmptyString; valid_rune := true |}.
Definition rune2 (a b : ascii) : chunk :=
  {| rune := Z.lor (Z.shiftl (Z.land (byte_of a) 31) 6) (low6 b);
     raw := String a (String b EmptyString); valid_rune := true |}.
Definition rune3 (a b c : ascii) : chunk :=
  {| rune := Z.lor (Z.shiftl (Z.land (byte_of a) 15) 12)
               (Z.lor (Z.shiftl (low6 b) 6) (low6 c));
     raw := String a (String b (String c EmptyString)); valid_rune := true |}.
Definition rune4 (a b c d : ascii) : chunk :=
  {| rune := Z.lor (Z.shiftl (Z.land (byte_of a) 7) 18)
               (Z.lor (Z.shiftl (low6 b) 12) (Z.lor (Z.shiftl (low6 c) 6) (low6 d)));
     raw := String a (String b (String c (String d EmptyString))); valid_rune := true |}.

(** The second byte a three- or four-byte lead admits (no overlong form, no
    surrogate, nothing above U+10FFFF). *)
Definition second3_ok (a b : ascii) : bool :=
  if byte_of a =? 224 then in_range 160 191 b
  else if byte_of a =? 237 then in_range 128 159 b
  else is_cont b.
Definition second4_ok (a b : ascii) : bool :=
  if byte_of a =? 240 then in_range 144 191 b
  else if byte_of a =? 244 then in_range 128 143 b
  else is_cont b.

Fixpoint chunks (s : string) : list chunk :=
  match s with
  | EmptyString => []
  | String a s1 =>
      if byte_of a <? 128 then rune1 a :: chunks s1
      else if in_range 194 223 a then
        match s1 with
        | String b s2 => if is_cont b then rune2 a b :: chunks s2 else bad_byte a :: chunks s1
        | _ => bad_byte a :: chunks s1
        end
      else if in_range 224 239 a then
        match s1 with
        | String b (String c s3) =>
            if second3_ok a b && is_cont c then rune3 a b c :: chunks s3
            else bad_byte a :: chunks s1
        | _ => bad_byte a :: chunks s1
        end
      else if in_range 240 244 a then
        match s1 with
        | String b (String c (String d s4)) =>
            if second4_ok a b && is_cont c && is_cont d then rune4 a b c d :: chunks s4
            else bad_byte a :: chunks s1
        | _ => bad_byte a :: chunks s1
        end
      else bad_byte a :: chunks s1
  end.

(** [utf8.ValidString]. *)
Definition valid_string (s : string) : bool := forallb valid_rune (chunks s).

(** [unicode.IsSpace]: the White_Space property. *)
Definition is_space (r : Z) : bool :=
  ((9 <=? r) && (r <=? 13)) || (r =? 32) || (r =? 133) || (r =? 160) || (r =? 5760)
  || ((8192 <=? r) && (r <=? 8202)) || (r =? 8232) || (r =? 8233) || (r =? 8239)
  || (r =? 8287) || (r =? 12288).

Definition concat_raw (l : list chunk) : string :=
  foldr (fun c acc => String.append (raw c) acc) EmptyString l.

Fixpoint drop_spaces (l : list chunk) : list chunk :=
  match l with
  | c :: l' => if valid_rune c && is_space (rune c) then drop_spaces l' else l
  | [] => []
  end.

(** [strings.TrimSpace]. *)
Definition trim_space (s : string) : string :=
  concat_raw (rev (drop_spaces (rev (drop_spaces (chunks s))))).

(** [utf8.RuneStart]: the byte is not a continuation byte. *)
Definition rune_start (a : ascii) : bool := negb (is_cont a).

Example trim_ex : trim_space " a b  " = "a b"%string.
Proof. reflexivity. Qed.
Example valid_ex : valid_string "caf√©" = true.
Proof. reflexivity. Qed.

(** ** [strconv.FormatUint] and [strconv.ParseUint]

    [format_uint base v] for base 10 and 16 and any uint64 (64 digits of fuel
    suffice: each division by a base at least 2 drops a bit). *)
Definition digit_char (d : Z) : ascii :=
  ascii_of_N (Z.to_N (if d <? 10 then 48 + d else 87 + d)).

Fixpoint format_digits (fuel : nat) (base v : Z) (acc : string) : string :=
  match fuel with
  | O => acc
  | S fuel =>
      let acc := String (digit_char (v mod base)) acc in
      if v / base =? 0 then acc else format_digits fuel base (v / base) acc
  end.

Definition format_uint (base v : Z) : string := format_digits 64 base v EmptyString.

Definition digit_value (a : ascii) : option Z :=
  let b := byte_of a in
  if (48 <=? b) && (b <=? 57) then Some (b - 48) else None.

(** The digits of a base-10 text, refused beyond the uint64 range at the digit
    that overflows, as [strconv.ParseUint(s, 10, 64)] does. *)
Fixpoint parse_digits (s : string) (acc : Z) : option Z :=
  match s with
  | EmptyString => Some acc
  | String a s' =>
      match digit_value a with
      | None => None
      | Some d =>
          let v := acc * 10 + d in
          if v <=? max_u64 then parse_digits s' v else None
      end
  end.

Definition parse_uint (s : string) : option Z :=
  match s with
  | EmptyString => None
  | _ => parse_digits s 0
  end.

Lemma append_cons x a b : String.append (String x a) b = String x (String.append a b).
Proof. done. Qed.
Lemma append_assoc a b c : String.append (String.append a b) c = String.append a (String.append b c).
Proof. induction a as [|x a IH]; [done|by rewrite !append_cons, IH]. Qed.

Lemma digit_value_char d : 0 <= d < 10 -> digit_value (digit_char d) = Some d.
Proof.
  intros H.
  assert (d = 0 \/ d = 1 \/ d = 2 \/ d = 3 \/ d = 4 \/ d = 5 \/ d = 6 \/ d = 7 \/ d = 8 \/ d = 9)
    as Hd by lia.
  by repeat destruct Hd as [->|Hd]; [..|subst].
Qed.

Lemma format_digits_app fuel base v acc :
  format_digits fuel base v acc = String.append (format_digits fuel base v EmptyString) acc.
Proof.
  revert v acc. induction fuel as [|fuel IH]; intros v acc; [done|]. cbn.
  destruct (v / base =? 0); [done|].
  rewrite IH, (IH _ (String _ EmptyString)).
  generalize (format_digits fuel base (v / base) EmptyString) as p.
  induction p as [|x p IHp]; cbn; [done|]. by rewrite IHp.
Qed.

Lemma parse_digits_app s1 s2 acc v :
  parse_digits s1 acc = Some v ->
  parse_digits (String.append s1 s2) acc = parse_digits s2 v.
Proof.
  revert acc. induction s1 as [|a s1 IH]; cbn; intros acc H; [by simplify_eq|].
  destruct (digit_value a); [|done]. destruct (_ <=? _); [|done]. by apply IH.
Qed.

Lemma parse_format_digits fuel v :
  is_u64 v -> v < 2 ^ Z.of_nat fuel ->
  (0 < fuel)%nat -> parse_digits (format_digits fuel 10 v EmptyString) 0 = Some v.
Proof.
  revert v. induction fuel as [|fuel IH]; intros v Hu Hv Hf; [lia|].
  cbn [format_digits].
  pose proof (Z.mod_pos_bound v 10). pose proof (Z.div_mod v 10).
  destruct (v / 10 =? 0) eqn:E; bool_prop.
  - cbn. rewrite digit_value_char by lia. replace (0 * 10 + v mod 10) with v by lia.
    by rewrite (proj2 (Z.leb_le _ _)) by ulia.
  - rewrite format_digits_app.
    assert (Hlt : v / 10 < 2 ^ Z.of_nat fuel).
    { rewrite Nat2Z.inj_succ, Z.pow_succ_r in Hv by lia.
      apply Z.div_lt_upper_bound; lia. }
    rewrite (parse_digits_app _ _ _ (v / 10)).
    + cbn. rewrite digit_value_char by lia.
      replace (v / 10 * 10 + v mod 10) with v by lia.
      by rewrite (proj2 (Z.leb_le _ _)) by ulia.
    + apply IH; [ulia|done|]. destruct fuel; [|lia]. cbn in Hlt. ulia.
Qed.

Lemma format_digits_nonempty fuel base v acc :
  (0 < fuel)%nat -> exists a s, format_digits fuel base v acc = String a s.
Proof.
  revert v acc. induction fuel as [|fuel IH]; intros v acc H; [lia|]. cbn.
  destruct (v / base =? 0); [eauto|]. destruct fuel; [cbn; eauto|]. apply IH. lia.
Qed.

Lemma parse_format_uint v : is_u64 v -> parse_uint (format_uint 10 v) = Some v.
Proof.
  intros Hv. unfold parse_uint, format_uint.
  pose proof (parse_format_digits 64 v Hv) as H.
  destruct (format_digits_nonempty 64 10 v EmptyString ltac:(lia)) as (a & s & E).
  rewrite E in *. apply H; [|lia]. unfold is_u64, max_u64 in Hv.
  replace (2 ^ Z.of_nat 64) with 18446744073709551616 by reflexivity. lia.
Qed.

Lemma format_uint_inj v w : is_u64 v -> is_u64 w -> format_uint 10 v = format_uint 10 w -> v = w.
Proof.
  intros Hv Hw E. apply parse_format_uint in Hv, Hw. rewrite E in Hv. congruence.
Qed.

Lemma parse_digits_range s acc v :
  is_u64 acc -> parse_digits s acc = Some v -> is_u64 v.
Proof.
  revert acc. induction s as [|a s IH]; cbn; intros acc Hacc H; [by simplify_eq|].
  unfold digit_value in H.
  destruct ((48 <=? byte_of a) && (byte_of a <=? 57)) eqn:E; [|done]. bool_prop.
  destruct (_ <=? max_u64) eqn:E2; [|done]. bool_prop.
  eapply IH; [|done]. ulia.
Qed.

Lemma parse_uint_range s v : parse_uint s = Some v -> is_u64 v.
Proof.
  destruct s; [done|]. apply parse_digits_range. ulia.
Qed.

Definition is_digit (a : ascii) : bool := (48 <=? byte_of a) && (byte_of a <=? 57).

Lemma digit_char_is_digit d : 0 <= d < 10 -> is_digit (digit_char d) = true.
Proof.
  intros H. pose proof (digit_value_char d H) as E. unfold digit_value, is_digit in *.
  by destruct (_ && _).
Qed.

Fixpoint forall_bytes (p : ascii -> bool) (s : string) : bool :=
  match s with EmptyString => true | String a s => p a && forall_bytes p s end.

Lemma forall_bytes_app p s1 s2 :
  forall_bytes p (String.append s1 s2) = forall_bytes p s1 && forall_bytes p s2.
Proof. induction s1 as [|a s1 IH]; cbn; [done|]. by rewrite IH, andb_assoc. Qed.

Definition is_hex_digit (a : ascii) : bool :=
  is_digit a || ((97 <=? byte_of a) && (byte_of a <=? 102)).

Lemma digit_char_is_hex d : 0 <= d < 16 -> is_hex_digit (digit_char d) = true.
Proof.
  intros H.
  assert (d < 10 \/ d = 10 \/ d = 11 \/ d = 12 \/ d = 13 \/ d = 14 \/ d = 15) as Hd by lia.
  destruct Hd as [Hd|Hd]; [unfold is_hex_digit; by rewrite digit_char_is_digit by lia|].
  by repeat destruct Hd as [->|Hd]; [..|subst].
Qed.

Lemma format_digits_all p base fuel v acc :
  (forall d, 0 <= d < base -> p (digit_char d) = true) -> 0 < base ->
  0 <= v -> forall_bytes p acc = true -> forall_bytes p (format_digits fuel base v acc) = true.
Proof.
  intros Hp Hb. revert v acc. induction fuel as [|fuel IH]; intros v acc Hv Hacc; [done|]. cbn.
  pose proof (Z.mod_pos_bound v base).
  assert (forall_bytes p (String (digit_char (v mod base)) acc) = true) as Hd.
  { cbn. rewrite Hp by lia. done. }
  destruct (v / base =? 0); [done|]. apply IH; [|done]. by apply Z.div_pos.
Qed.

Lemma forall_bytes_no_byte p sep s : forall_bytes p s = true -> p sep = false -> has_byte sep s = false.
Proof.
  intros H Hsep. induction s as [|a s IH]; cbn in *; [done|]. bool_prop.
  apply orb_false_iff. split; [|auto]. apply Ascii.eqb_neq. intros ->. congruence.
Qed.

Lemma format_uint_no_byte sep v :
  0 <= v -> is_digit sep = false -> has_byte sep (format_uint 10 v) = false.
Proof.
  intros Hv. apply forall_bytes_no_byte.
  apply format_digits_all; [apply digit_char_is_digit|lia|done|done].
Qed.

Lemma format_hex_no_byte sep v :
  0 <= v -> is_hex_digit sep = false -> has_byte sep (format_uint 16 v) = false.
Proof.
  intros Hv. apply forall_bytes_no_byte.
  apply format_digits_all; [apply digit_char_is_hex|lia|done|done].
Qed.

Lemma length_append a b : String.length (String.append a b) = (String.length a + String.length b)%nat.
Proof. induction a as [|x a IH]; [done|]. cbn [String.append String.length]. by rewrite IH. Qed.

Lemma len_append a b : len (String.append a b) = len a + len b.
Proof. unfold len. rewrite length_append. lia. Qed.

(** A signed integer in base 10. *)
Definition format_int (v : Z) : string :=
  if v <? 0 then String "-" (format_uint 10 (- v)) else format_uint 10 v.
