(* ===== verification/GoTime.v ===== *)
(** * Go times

    A [time.Time] is an instant, in nanoseconds since the zero time
    0001-01-01T00:00:00Z, and the offset of its location.  Package time's monotonic
    reading is not modelled: the modelled code compares wall instants. *)
From S2P Require Import Prelude.

Open Scope Z_scope.

Record time : Type := Time { instant : Z; zone_offset : Z (* seconds *) }.

#[export] Instance time_eq_dec : EqDecision time.
Proof. solve_decision. Defined.

(** The zero value of [time.Time]. *)
Definition zero_time : time := Time 0 0.
Definition time_is_zero (t : time) : bool := instant t =? 0.
Definition time_after (t u : time) : bool := instant u <? instant t.
Definition time_before (t u : time) : bool := instant t <? instant u.
Definition time_utc (t : time) : time := Time (instant t) 0.

(** [t.Sub(u)]: a Duration, saturating at the int64 range. *)
Definition time_sub (t u : time) : Z :=
  Z.max min_i64 (Z.min max_i64 (instant t - instant u)).

(** [t.Add(d)]. *)
Definition time_add (t : time) (d : Z) : time := Time (instant t + d) (zone_offset t).

Lemma time_sub_range t u : is_i64 (time_sub t u).
Proof. unfold time_sub. ulia. Qed.

(** [time.Unix(0, 0)] as an instant of this model, and [t.UnixNano()]. *)
Definition unix_epoch : Z := 62135596800 * 1000000000.
Definition unix_nano (t : time) : Z := i64 (instant t - unix_epoch).

(** [t.UTC().Hour()]. *)
Definition utc_hour (t : time) : Z := (instant t / 3600000000000) mod 24.

Lemma utc_hour_range t : 0 <= utc_hour t < 24.
Proof. by apply Z.mod_pos_bound. Qed.

(** [t.Year()], in the location of [t]: the proleptic Gregorian year of its day. *)
Definition time_year (t : time) : Z :=
  let d := (instant t / 1000000000 + zone_offset t) / 86400 in
  let cycle := d / 146097 in
  let doc := d mod 146097 in
  let n100 := Z.min (doc / 36524) 3 in
  let r := doc - n100 * 36524 in
  let n4 := r / 1461 in
  let n1 := Z.min (r mod 1461 / 365) 3 in
  400 * cycle + 100 * n100 + 4 * n4 + n1 + 1.

(** The first instants of 2024, 1970 and year 10000. *)
Example year_2024 : time_year (Time (1704067200 * 10^9 + 62135596800 * 10^9) 0) = 2024.
Proof. reflexivity. Qed.
Example year_2023 : time_year (Time ((1704067200 + 62135596800) * 10^9 - 1) 0) = 2023.
Proof. reflexivity. Qed.
Example year_zone : time_year (Time ((1704067200 + 62135596800) * 10^9 - 1) 3600) = 2024.
Proof. reflexivity. Qed.
Example year_10000 : time_year (Time (315537897600 * 10^9) 0) = 10000.
Proof. reflexivity. Qed.
