(* ===== verification/Suggestions.v ===== *)
(** * Suggestions: tables of named rules over a document (platform/status_rules.go, comparison_rules.go)

    A rule reads a finished document and proposes suggestions; a table runs its rules in a
    fixed order and keeps the first 64.  The pipeline status and the repeated comparison have
    a table each, so the loop over rules is written once, over any document. *)
From S2P Require Import Prelude GoText.

Open Scope string_scope.
Open Scope Z_scope.

Record SuggestionEvidence : Type := { SE_Name : string; SE_Value : string }.
Record Suggestion : Type := {
  Rule : string; RuleVersion : Z; SG_Evidence : list SuggestionEvidence; SG_Text : string }.

Definition text (l : list string) : string := String.concat "" l.
Definition suggest (evidence : list (string * string)) (words : list string) : Suggestion :=
  {| Rule := ""; RuleVersion := 0; SG_Evidence := (fun e => {| SE_Name := e.1; SE_Value := e.2 |}) <$> evidence; SG_Text := text words |}.

Record rule_table_row (D : Type) : Type := { cr_id : string; cr_version : Z; fire : D -> list Suggestion }.
Arguments cr_id {D}.
Arguments cr_version {D}.
Arguments fire {D}.

Section table.
Context {D : Type} (bound : nat).

(** [s.Rule, s.RuleVersion = rule.id, rule.version] *)
Definition named_by (rule : rule_table_row D) (s : Suggestion) : Suggestion :=
  {| Rule := cr_id rule; RuleVersion := cr_version rule; SG_Evidence := SG_Evidence s; SG_Text := SG_Text s |}.
(** The two nested loops: the first suggestion over the bound ends them. *)
Fixpoint take_suggestions (rule : rule_table_row D) (ss out : list Suggestion) : list Suggestion * bool :=
  match ss with
  | [] => (out, false)
  | s :: ss => if (length out =? bound)%nat then (out, true) else take_suggestions rule ss (out ++ [named_by rule s])%list
  end.
Fixpoint run_rules (rules : list (rule_table_row D)) (d : D) (out : list Suggestion) : list Suggestion * bool :=
  match rules with
  | [] => (out, false)
  | rule :: rules =>
      match take_suggestions rule (fire rule d) out with
      | (out, true) => (out, true)
      | (out, false) => run_rules rules d out
      end
  end.

(** ** What the loop computes *)
Definition labelled (d : D) (rule : rule_table_row D) : list Suggestion := named_by rule <$> fire rule d.

Lemma take_suggestions_spec rule ss : forall out, (length out <= bound)%nat ->
  let all := (out ++ (named_by rule <$> ss))%list in
  take_suggestions rule ss out = (take bound all, bool_decide (bound < length all)%nat).
Proof.
  induction ss as [|s ss IH]; intros out Hl all; subst all; cbn [take_suggestions fmap list_fmap].
  - rewrite app_nil_r, take_ge by done. f_equal. symmetry. apply bool_decide_eq_false. lia.
  - destruct (Nat.eqb_spec (length out) bound) as [E|E].
    + rewrite <- E, take_app_length. f_equal. symmetry. apply bool_decide_eq_true. rewrite length_app. cbn [length]. lia.
    + rewrite IH by (rewrite length_app; cbn [length]; lia). by rewrite <- app_assoc.
Qed.

Lemma run_rules_spec rules d : forall out, (length out <= bound)%nat ->
  let all := (out ++ flat_map (labelled d) rules)%list in
  run_rules rules d out = (take bound all, bool_decide (bound < length all)%nat).
Proof.
  induction rules as [|rule rules IH]; intros out Hl all; subst all; cbn [run_rules flat_map].
  - rewrite app_nil_r, take_ge by done. f_equal. symmetry. apply bool_decide_eq_false. lia.
  - rewrite take_suggestions_spec by done. cbn zeta. fold (labelled d rule). rewrite app_assoc. case_bool_decide as Hb.
    + f_equal; [by rewrite (take_app_le (out ++ labelled d rule)) by lia|]. symmetry. apply bool_decide_eq_true. rewrite length_app. lia.
    + rewrite take_ge by lia. apply IH. lia.
Qed.
End table.
