(* ===== verification/FloatRound.v ===== *)
(** * Rounding of binary64

    The kernel's primitive floats are specified by [SpecFloat], which rounds an
    exact dyadic value to the nearest 53-bit one.  This file proves what the bounds
    on scores and rates need of that rounding: it never crosses a representable
    value.  Values are compared exactly, as integers scaled by 2^2148. *)
From Stdlib Require PrimFloat SpecFloat FloatOps FloatAxioms.
From S2P Require Import Prelude.
Import SpecFloat.

Open Scope Z_scope.

Notation fexp := (SpecFloat.fexp 53 1024).

Lemma fexp_eq e : fexp e = Z.max (e - 53) (-1074).
Proof. reflexivity. Qed.

Lemma fexp_mono a b : a <= b -> fexp a <= fexp b.
Proof. rewrite !fexp_eq. lia. Qed.

(** ** Digits *)
Lemma digits_bounds p :
  2 ^ (Zpos (digits2_pos p) - 1) <= Zpos p < 2 ^ Zpos (digits2_pos p).
Proof.
  induction p as [p IH|p IH|]; cbn [digits2_pos]; [..|lia].
  all: rewrite Pos2Z.inj_succ.
  all: replace (Z.succ (Zpos (digits2_pos p)) - 1) with (Z.succ (Zpos (digits2_pos p) - 1)) by lia.
  all: rewrite !Z.pow_succ_r by lia; lia.
Qed.

Lemma Zdigits_bounds m :
  0 < m -> 0 < Zdigits2 m /\ 2 ^ (Zdigits2 m - 1) <= m < 2 ^ Zdigits2 m.
Proof. destruct m; intros; try lia. cbn. split; [lia|]. apply digits_bounds. Qed.

Lemma Zdigits_unique m d : 0 < d -> 2 ^ (d - 1) <= m < 2 ^ d -> Zdigits2 m = d.
Proof.
  intros Hd [H1 H2]. assert (0 < m) by (pose proof (Z.pow_pos_nonneg 2 (d - 1)); lia).
  destruct (Zdigits_bounds m) as (Hp & H3 & H4); [done|].
  destruct (Z.lt_trichotomy (Zdigits2 m) d) as [Hlt|[->|Hgt]]; [|done|].
  - assert (2 ^ Zdigits2 m <= 2 ^ (d - 1)) by (apply Z.pow_le_mono_r; lia). lia.
  - assert (2 ^ d <= 2 ^ (Zdigits2 m - 1)) by (apply Z.pow_le_mono_r; lia). lia.
Qed.

Lemma Zdigits_nonneg m : 0 <= m -> 0 <= Zdigits2 m.
Proof. destruct m; cbn; lia. Qed.

(** Powers of two, with nonnegative exponents. *)
Lemma pow2_split a b : 0 <= a <= b -> 2 ^ b = 2 ^ a * 2 ^ (b - a).
Proof. intros. rewrite <- Z.pow_add_r by lia. f_equal; lia. Qed.

Lemma pow2_pos a : 0 <= a -> 0 < 2 ^ a.
Proof. intros. by apply Z.pow_pos_nonneg. Qed.

(** ** The right shift that drops digits

    [dropped N D k rec]: [rec] holds [N / (D * 2^k)], and its two flag bits say
    whether anything of [N] lies below it. *)
Definition tail (rec : shr_record) : bool := shr_r rec || shr_s rec.

Definition dropped (N D : Z) (k : Z) (rec : shr_record) : Prop :=
  shr_m rec = N / (D * 2 ^ k) /\ (tail rec = false <-> N mod (D * 2 ^ k) = 0).

Lemma shr_1_spec q r s :
  0 <= q ->
  shr_1 (Build_shr_record q r s) = Build_shr_record (q / 2) (Z.odd q) (r || s).
Proof.
  intros Hq. rewrite <- Z.div2_div.
  destruct q as [|[p|p|]|p]; cbn; try done; lia.
Qed.

Lemma dropped_step N D k rec :
  0 <= N -> 0 < D -> 0 <= k -> dropped N D k rec ->
  dropped N D (k + 1) (shr_1 rec).
Proof.
  intros HN HD Hk [Hm Ht]. destruct rec as [q r s]. cbn in Hm, Ht.
  pose proof (pow2_pos k Hk).
  assert (0 < D * 2 ^ k) by nia.
  assert (Hpow : D * 2 ^ (k + 1) = D * 2 ^ k * 2) by (rewrite Z.pow_add_r by lia; lia).
  rewrite shr_1_spec by (subst q; by apply Z.div_pos).
  unfold dropped, tail in *. cbn. rewrite Hpow. split.
  - subst q. by rewrite Z.div_div by lia.
  - rewrite Z.rem_mul_r by lia. rewrite <- Hm.
    pose proof (Z.mod_pos_bound N (D * 2 ^ k)).
    rewrite orb_false_iff, Ht.
    rewrite <- Z.bit0_mod, Z.bit0_odd. destruct (Z.odd q); cbn; split.
    + intros [? _]; done.
    + intros ?; nia.
    + intros [_ ->]. lia.
    + intros ?. split; [done|nia].
Qed.

Lemma iter_pos_iter {A} (f : A -> A) n x : iter_pos f n x = Nat.iter (Pos.to_nat n) f x.
Proof.
  revert x. induction n as [n IH|n IH|]; intros x; cbn [iter_pos].
  - rewrite !IH. replace (Pos.to_nat n~1) with (Pos.to_nat n + (Pos.to_nat n + 1))%nat by lia.
    by rewrite !Nat.iter_add.
  - rewrite !IH. replace (Pos.to_nat n~0) with (Pos.to_nat n + Pos.to_nat n)%nat by lia.
    by rewrite Nat.iter_add.
  - done.
Qed.

Lemma dropped_iter N D rec n :
  0 <= N -> 0 < D -> dropped N D 0 rec ->
  dropped N D (Z.of_nat n) (Nat.iter n shr_1 rec).
Proof.
  intros HN HD H0. induction n as [|n IH]; [done|].
  rewrite Nat2Z.inj_succ. apply dropped_step; [done|done|lia|done].
Qed.

Lemma shr_dropped N D rec e n :
  0 <= N -> 0 < D -> 0 <= n -> dropped N D 0 rec ->
  exists rec', shr rec e n = (rec', e + n) /\ dropped N D n rec'.
Proof.
  intros HN HD Hn H0. destruct n as [|p|p]; [|..|lia]; cbn [shr].
  - eexists; split; [f_equal; lia|done].
  - eexists; split; [done|]. rewrite iter_pos_iter.
    rewrite <- (positive_nat_Z p). by apply dropped_iter.
Qed.

(** Round-to-nearest keeps or increments the kept part, and keeps an exact one. *)
Lemma round_nearest_cases m rec :
  let m' := round_nearest_even m (loc_of_shr_record rec) in
  m <= m' <= m + 1 /\ (tail rec = false -> m' = m).
Proof.
  destruct rec as [q [] []]; cbn; try (destruct (Z.even m)); split; lia || done.
Qed.

Lemma dropped_of_loc N D lx :
  0 < D -> (lx = loc_Exact <-> N mod D = 0) ->
  dropped N D 0 (shr_record_of_loc (N / D) lx).
Proof.
  intros HD Hx. unfold dropped, tail. rewrite Z.mul_1_r. split.
  - by destruct lx as [|[]].
  - rewrite <- Hx. destruct lx as [|[]]; cbn; naive_solver.
Qed.

(** ** The final rounding

    [lands E q sx r]: [r] is the float of magnitude [q * 2^E]. *)
Definition lands (E q : Z) (sx : bool) (r : spec_float) : Prop :=
  (q = 0 /\ r = S754_zero sx)
  \/ exists m e,
       Zpos m * 2 ^ (e - E) = q /\ E <= e <= E + 1 /\ (e = E + 1 -> q = 2 ^ 53)
       /\ canonical_mantissa 53 1024 m e = true
       /\ r = (if e <=? 971 then S754_finite sx m e else S754_infinity sx).

Lemma canonical_spec m e :
  canonical_mantissa 53 1024 m e = true <-> fexp (Zpos (digits2_pos m) + e) = e.
Proof. unfold canonical_mantissa. apply Z.eqb_eq. Qed.

(** The mantissa left by the first shift has the digits its exponent says. *)
Lemma shifted_digits N D ex n :
  0 < D -> 0 <= N -> 0 <= n ->
  n = fexp (Zdigits2 (N / D) + ex) - ex ->
  let q := N / (D * 2 ^ n) in let E := ex + n in
  0 <= q < 2 ^ 53 /\ (-1074 <= E) /\ (-1074 < E -> 2 ^ 52 <= q).
Proof.
  intros HD HN Hn Hne q E. subst q E.
  rewrite <- Z.div_div by (try apply pow2_pos; lia).
  assert (Hq : 0 <= N / D) by (by apply Z.div_pos).
  rewrite fexp_eq in Hne.
  destruct (Z.eq_dec (N / D) 0) as [E0|Hnz].
  { rewrite E0 in *. rewrite Z.div_0_l by (pose proof (pow2_pos n); lia). cbn in Hne. lia. }
  destruct (Zdigits_bounds (N / D)) as (Hd & Hlo & Hhi); [lia|].
  set (d := Zdigits2 (N / D)) in *.
  assert (Hpn := pow2_pos n Hn).
  split; [split; [by apply Z.div_pos|]|split; [lia|]].
  - apply Z.div_lt_upper_bound; [done|].
    assert (2 ^ d <= 2 ^ n * 2 ^ 53); [|lia].
    rewrite <- Z.pow_add_r by lia. apply Z.pow_le_mono_r; lia.
  - intros HE. assert (Hnn : n = d - 53) by lia.
    apply Z.div_le_lower_bound; [done|].
    rewrite <- Z.pow_add_r by lia. replace (n + 52) with (d - 1) by lia. done.
Qed.

(** After rounding, a carry into the 54th bit is the only shift left. *)
Definition renormalize (sx : bool) (q E : Z) : spec_float :=
  let '(rec, e) := shr_fexp 53 1024 q E loc_Exact in
  match shr_m rec with
  | Z0 => S754_zero sx
  | Zpos m => if e <=? 971 then S754_finite sx m e else S754_infinity sx
  | _ => S754_nan
  end.

Lemma renormalize_lands sx q E :
  0 <= q <= 2 ^ 53 -> -1074 <= E -> (-1074 < E -> 2 ^ 52 <= q) ->
  lands E q sx (renormalize sx q E).
Proof.
  intros Hq HE Hn. unfold renormalize, shr_fexp, lands.
  destruct (Z.eq_dec q (2 ^ 53)) as [->|Hne].
  - right. assert (Hf : fexp (Zdigits2 (2 ^ 53) + E) - E = 1).
    { rewrite fexp_eq. change (Zdigits2 (2 ^ 53)) with 54. lia. }
    rewrite Hf. exists (Z.to_pos (2 ^ 52)), (E + 1).
    split; [replace (E + 1 - E) with 1 by lia; done|].
    split; [lia|]. split; [done|]. split; [|done].
    apply canonical_spec. rewrite fexp_eq.
    change (Zpos (digits2_pos (Z.to_pos (2 ^ 52)))) with 53. lia.
  - destruct (Z.eq_dec q 0) as [->|Hnz].
    { left. split; [done|]. rewrite fexp_eq. cbn [Zdigits2].
      replace (shr _ _ _) with (shr_record_of_loc 0 loc_Exact, E); [done|].
      destruct (Z.max _ _ - _) eqn:En; [done|lia|done]. }
    right. destruct q as [|p|p]; [lia| |lia].
    destruct (Zdigits_bounds (Zpos p)) as (Hd & Hlo & Hhi); [lia|].
    assert (Zdigits2 (Zpos p) <= 53).
    { destruct (Z.le_gt_cases (Zdigits2 (Zpos p)) 53); [done|].
      assert (2 ^ 53 <= 2 ^ (Zdigits2 (Zpos p) - 1)) by (apply Z.pow_le_mono_r; lia). lia. }
    assert (Hfx : fexp (Zdigits2 (Zpos p) + E) = E).
    { rewrite fexp_eq. destruct (Z.eq_dec E (-1074)); [lia|].
      rewrite (Zdigits_unique (Zpos p) 53); lia. }
    rewrite Hfx, Z.sub_diag. exists p, E. cbn [shr shr_m shr_record_of_loc].
    rewrite Z.sub_diag. split; [lia|]. split; [lia|]. split; [lia|]. split; [|done].
    apply canonical_spec. done.
Qed.

(** Every rounding of [SpecFloat] is [binary_round_aux]; its exact argument
    [N / D * 2^ex] lands on the kept part [q] of its canonical exponent [E], or on
    [q + 1] when something was dropped. *)
Theorem binary_round_aux_lands N D ex sx lx :
  0 <= N -> 0 < D -> (lx = loc_Exact <-> N mod D = 0) ->
  let E := fexp (Zdigits2 (N / D) + ex) in
  ex <= E ->
  let q := N / (D * 2 ^ (E - ex)) in
  exists q', q <= q' <= q + 1 /\ (N mod (D * 2 ^ (E - ex)) = 0 -> q' = q)
    /\ lands E q' sx (binary_round_aux 53 1024 sx (N / D) ex lx).
Proof.
  intros HN HD Hlx E HE q.
  destruct (shr_dropped N D (shr_record_of_loc (N / D) lx) ex (E - ex)) as (rec & Hshr & Hm & Ht);
    [done|done|lia|by apply dropped_of_loc|].
  destruct (shifted_digits N D ex (E - ex)) as (Hq & HE' & Hn); [done|done|lia|done|].
  destruct (round_nearest_cases (shr_m rec) rec) as [Hr1 Hr2].
  rewrite Hm in Hr1, Hr2. fold q in Hr1, Hr2, Hq, Hn.
  replace (ex + (E - ex)) with E in * by lia.
  set (q' := round_nearest_even q (loc_of_shr_record rec)) in *.
  exists q'. split; [done|]. split; [intros H0; apply Hr2, Ht, H0|].
  replace (binary_round_aux _ _ _ _ _ _) with (renormalize sx q' E).
  - apply renormalize_lands; [lia|done|]. intros. specialize (Hn ltac:(done)). lia.
  - unfold binary_round_aux, shr_fexp at 1. fold E. rewrite Hshr.
    replace (ex + (E - ex)) with E by lia. rewrite Hm. done.
Qed.

(** ** Rounding does not cross a float

    All magnitudes of finite floats, and of their products, are integers scaled by
    [2^2148]. *)
Definition mag (m e : Z) : Z := m * 2 ^ (e + 2148).

Lemma mag_canonical m e :
  bounded 53 1024 m e = true ->
  -1074 <= e <= 971 /\ Zpos m < 2 ^ 53 /\ (-1074 < e -> 2 ^ 52 <= Zpos m).
Proof.
  unfold bounded. rewrite andb_true_iff, canonical_spec, Z.leb_le, fexp_eq.
  intros [Hc He]. destruct (digits_bounds m) as [Hlo Hhi].
  assert (Zpos (digits2_pos m) <= 53) by lia.
  split; [lia|]. split.
  - assert (2 ^ Zpos (digits2_pos m) <= 2 ^ 53) by (apply Z.pow_le_mono_r; lia). lia.
  - intros. assert (Zpos (digits2_pos m) = 53) as E by lia. rewrite E in Hlo. exact Hlo.
Qed.

Definition SFmag (r : spec_float) : Z :=
  match r with S754_finite _ m e => mag (Zpos m) e | _ => 0 end.

Definition SFfin (r : spec_float) : Prop :=
  match r with
  | S754_zero _ => True
  | S754_finite _ m e => bounded 53 1024 m e = true
  | _ => False
  end.

Lemma lands_mag E q sx r :
  -1074 <= E -> lands E q sx r -> SFfin r -> SFmag r = q * 2 ^ (E + 2148).
Proof.
  intros HE [[-> ->]|(m & e & <- & He & _ & _ & ->)] Hf; [done|].
  destruct (e <=? 971); [|done]. cbn. unfold mag.
  rewrite <- Z.mul_assoc, <- Z.pow_add_r by lia. do 2 f_equal. lia.
Qed.

(** What a float leaves of the rounding's result: its sign and its finiteness up to
    the largest exponent. *)
Lemma lands_fin E q sx r :
  lands E q sx r -> (forall e, e <= E + 1 -> (e = E + 1 -> q = 2 ^ 53) -> e <= 971) -> SFfin r.
Proof.
  intros [[-> ->]|(m & e & Hq & He & Hc & Hcan & ->)] Hb; [done|].
  assert (He' : e <= 971) by (apply Hb; [lia|done]).
  rewrite (proj2 (Z.leb_le _ _) He'). cbn. unfold bounded.
  rewrite Hcan. cbn. by apply Z.leb_le.
Qed.

Section sandwich.
Context (N D ex : Z) (sx : bool) (lx : location).
Context (HN : 0 <= N) (HD : 0 < D) (Hlx : lx = loc_Exact <-> N mod D = 0).
Context (Hex : -2148 <= ex) (HE : ex <= fexp (Zdigits2 (N / D) + ex)).
Let E := fexp (Zdigits2 (N / D) + ex).
Let M := D * 2 ^ (E - ex).
Let r := binary_round_aux 53 1024 sx (N / D) ex lx.

Lemma sandwich_M : 0 < M /\ 2 ^ (E + 2148) = 2 ^ (E - ex) * 2 ^ (ex + 2148) /\ -1074 <= E.
Proof.
  fold E in HE. split; [|split].
  - unfold M. pose proof (pow2_pos (E - ex)). nia.
  - rewrite <- Z.pow_add_r by lia. f_equal. lia.
  - unfold E. rewrite fexp_eq. lia.
Qed.

(** The exact value scaled, against [k * 2^E]. *)
Lemma sandwich_scale k :
  (N * 2 ^ (ex + 2148) <= D * (k * 2 ^ (E + 2148)) <-> N <= M * k) /\
  (D * (k * 2 ^ (E + 2148)) <= N * 2 ^ (ex + 2148) <-> M * k <= N).
Proof.
  destruct sandwich_M as (_ & -> & _). fold E in HE.
  pose proof (pow2_pos (ex + 2148) ltac:(lia)). unfold M.
  replace (D * (k * (2 ^ (E - ex) * 2 ^ (ex + 2148))))
    with (D * 2 ^ (E - ex) * k * 2 ^ (ex + 2148)) by lia.
  split; symmetry; apply Z.mul_le_mono_pos_r; done.
Qed.

Lemma exponent_below m e :
  bounded 53 1024 m e = true ->
  N * 2 ^ (ex + 2148) <= D * mag (Zpos m) e -> E <= e.
Proof.
  intros (He & Hm & _)%mag_canonical Hle. fold E in HE.
  destruct (Z.le_gt_cases E e) as [|Hgt]; [done|exfalso].
  assert (HEd : E = Zdigits2 (N / D) + ex - 53).
  { unfold E in *. rewrite fexp_eq in *. lia. }
  assert (Hq : 0 < N / D).
  { destruct (Z.eq_dec (N / D) 0) as [H0|]; [|pose proof (Z.div_pos N D); lia].
    rewrite H0 in HEd. cbn in HEd. lia. }
  destruct (Zdigits_bounds (N / D) Hq) as (Hd & Hlo & _).
  set (d := Zdigits2 (N / D)) in *.
  assert (HDq : D * 2 ^ (d - 1) <= N).
  { pose proof (Z.mul_div_le N D HD). nia. }
  pose proof (pow2_pos (ex + 2148) ltac:(lia)).
  assert (D * 2 ^ (d - 1) * 2 ^ (ex + 2148) <= D * mag (Zpos m) e) by nia.
  assert (Hp : 2 ^ (d - 1) * 2 ^ (ex + 2148) <= mag (Zpos m) e) by nia.
  rewrite <- Z.pow_add_r in Hp by lia. unfold mag in Hp.
  assert (Hm' : Zpos m * 2 ^ (e + 2148) < 2 ^ 53 * 2 ^ (e + 2148)).
  { apply Z.mul_lt_mono_pos_r; [apply pow2_pos; lia|done]. }
  rewrite <- Z.pow_add_r in Hm' by lia.
  assert (2 ^ (53 + (e + 2148)) <= 2 ^ (d - 1 + (ex + 2148))) by (apply Z.pow_le_mono_r; lia).
  lia.
Qed.

Lemma mag_at m e : E <= e -> mag (Zpos m) e = Zpos m * 2 ^ (e - E) * 2 ^ (E + 2148).
Proof.
  intros. unfold mag. destruct sandwich_M as (_ & _ & ?).
  rewrite <- Z.mul_assoc, <- Z.pow_add_r by lia. do 2 f_equal. lia.
Qed.

(** Rounding up does not cross a float above. *)
Theorem round_le m e :
  bounded 53 1024 m e = true ->
  N * 2 ^ (ex + 2148) <= D * mag (Zpos m) e ->
  SFfin r /\ SFmag r <= mag (Zpos m) e.
Proof.
  intros Hb Hle. pose proof (exponent_below m e Hb Hle) as HEe.
  destruct (mag_canonical m e Hb) as (He & Hm & _).
  destruct sandwich_M as (HM & _ & HE').
  rewrite mag_at in Hle |- * by done. set (k := Zpos m * 2 ^ (e - E)) in *.
  apply sandwich_scale in Hle.
  destruct (binary_round_aux_lands N D ex sx lx) as (q' & Hq1 & Hq2 & Hl); [done..|].
  fold E M r in Hq1, Hq2, Hl.
  assert (Hk : q' <= k).
  { pose proof (Z.div_mod N M ltac:(lia)). pose proof (Z.mod_pos_bound N M HM).
    destruct (Z.eq_dec (N mod M) 0) as [Hz|Hz].
    - rewrite (Hq2 Hz). nia.
    - assert (N / M < k) by nia. lia. }
  assert (Hfin : SFfin r).
  { apply (lands_fin E q' sx); [done|]. intros e' He1 He2.
    destruct (Z.eq_dec e' (E + 1)) as [->|]; [|lia].
    specialize (He2 eq_refl). subst k.
    destruct (Z.eq_dec e E) as [->|]; [|lia].
    rewrite Z.sub_diag in Hk. lia. }
  split; [done|]. rewrite (lands_mag E q' sx) by done.
  apply Z.mul_le_mono_nonneg_r; [apply Z.pow_nonneg; lia|done].
Qed.

(** Rounding down does not cross a float below. *)
Theorem round_ge m e :
  bounded 53 1024 m e = true ->
  D * mag (Zpos m) e <= N * 2 ^ (ex + 2148) ->
  SFfin r -> mag (Zpos m) e <= SFmag r.
Proof.
  intros Hb Hle Hfin. destruct (mag_canonical m e Hb) as (He & Hm & _).
  destruct sandwich_M as (HM & _ & HE'). fold E in HE.
  destruct (binary_round_aux_lands N D ex sx lx) as (q' & Hq1 & _ & Hl); [done..|].
  fold E M r in Hq1, Hl. rewrite (lands_mag E q' sx) by done.
  pose proof (pow2_pos (E + 2148) ltac:(lia)).
  destruct (Z.le_gt_cases E e) as [HEe|HEe].
  - rewrite mag_at in Hle |- * by done.
    apply sandwich_scale in Hle. apply Z.mul_le_mono_nonneg_r; [lia|].
    etrans; [|apply Hq1]. apply Z.div_le_lower_bound; lia.
  - destruct (shifted_digits N D ex (E - ex)) as (_ & _ & Hn); [done|done|lia|done|].
    replace (ex + (E - ex)) with E in Hn by lia. fold M in Hn.
    unfold mag. etrans; [|apply Z.mul_le_mono_nonneg_r; [lia|etrans; [apply Hn; lia|apply Hq1]]].
    etrans; [apply Z.mul_le_mono_nonneg_r with (m := 2 ^ 53); [apply Z.pow_nonneg; lia|lia]|].
    rewrite <- !Z.pow_add_r by lia. apply Z.pow_le_mono_r; lia.
Qed.
End sandwich.
