(* ===== verification/GoFloat.v ===== *)
(** * Go float64

    float64 is the kernel's primitive binary64 (round to nearest even, one rounding
    per operation, as the Go compiler emits on amd64).  The file gives the builtins
    and the functions of package math the modelled code uses, and the theorems that
    carry the bounds on scores: which operations stay in [0,1]. *)
From Stdlib Require Export PrimFloat.
From Stdlib Require SpecFloat FloatOps FloatAxioms.
From S2P Require Import Prelude FloatRound.
Import SpecFloat FloatOps FloatAxioms.

Open Scope Z_scope.

Notation is_inf := PrimFloat.is_infinity.

(** The builtins [min] and [max]: NaN is contagious, -0 is below +0. *)
Definition go_min (x y : float) : float :=
  if is_nan x || is_nan y then PrimFloat.nan
  else if (x <? y)%float then x
  else if (y <? x)%float then y
  else if PrimFloat.get_sign x then x else y.
Definition go_max (x y : float) : float :=
  if is_nan x || is_nan y then PrimFloat.nan
  else if (x <? y)%float then y
  else if (y <? x)%float then x
  else if PrimFloat.get_sign x then y else x.

(** [math.Min] and [math.Max]: an infinity of the right sign wins over NaN. *)
Definition math_min (x y : float) : float :=
  if (x =? PrimFloat.neg_infinity)%float || (y =? PrimFloat.neg_infinity)%float
  then PrimFloat.neg_infinity else go_min x y.
Definition math_max (x y : float) : float :=
  if (x =? PrimFloat.infinity)%float || (y =? PrimFloat.infinity)%float
  then PrimFloat.infinity else go_max x y.

(** [float64(n)] for an integer [n]. *)
Definition of_Z (z : Z) : float := SF2Prim (binary_normalize prec emax z 0 false).

(** [int64(x)]: truncation toward zero; out of range (where Go leaves the value to
    the implementation) the amd64 result, the least int64. *)
Definition to_i64 (x : float) : Z :=
  match Prim2SF x with
  | S754_zero _ => 0
  | S754_finite s m e =>
      let a := if 0 <=? e then Zpos m * 2 ^ e else Zpos m / 2 ^ (- e) in
      let v := if s then - a else a in
      if (min_i64 <=? v) && (v <=? max_i64) then v else min_i64
  | _ => min_i64
  end.

(** [math.Frexp] and [math.Log2] (package math's portable algorithm). *)
Definition ln2 : float := 0x1.62e42fefa39efp-1%float.
Definition math_frexp (x : float) : float * Z := FloatOps.Z.frexp x.
Definition sqrt2_2 : float := 0x1.6a09e667f3bcdp-1%float.

Definition log_reduced (f k : float) : float :=
  (let s := f / (2 + f) in
   let s2 := s * s in
   let s4 := s2 * s2 in
   let t1 := s2 * (0x1.5555555555593p-1 + s4 * (0x1.2492494229359p-2
               + s4 * (0x1.7466496cb03dep-3 + s4 * 0x1.2f112df3e5244p-3))) in
   let t2 := s4 * (0x1.999999997fa04p-2 + s4 * (0x1.c71c51d8e78afp-3
               + s4 * 0x1.39a09d078c69fp-3)) in
   let R := t1 + t2 in
   let hfsq := 0.5 * f * f in
   k * 0x1.62e42feep-1 - ((hfsq - (s * (hfsq + R) + k * 0x1.a39ef35793c76p-33)) - f))%float.

Definition math_log (x : float) : float :=
  if is_nan x || (x =? PrimFloat.infinity)%float then x
  else if (x <? 0)%float then PrimFloat.nan
  else if (x =? 0)%float then PrimFloat.neg_infinity
  else
    let '(f1, ki) := math_frexp x in
    let '(f1, ki) := if (f1 <? sqrt2_2)%float then ((f1 * 2)%float, ki - 1) else (f1, ki) in
    log_reduced (f1 - 1)%float (of_Z ki).

Definition inv_ln2 : float := 0x1.71547652b82fep+0%float.
Definition math_log2 (x : float) : float :=
  if is_nan x || is_inf x || (x =? 0)%float then math_log x
  else
    let '(frac, exp) := math_frexp x in
    if (frac =? 0.5)%float then of_Z (exp - 1)
    else (math_log frac * inv_ln2 + of_Z exp)%float.

Example log2_8 : math_log2 8%float = 3%float.
Proof. reflexivity. Qed.
Example log2_frac : math_log2 0.25%float = (-2)%float.
Proof. reflexivity. Qed.
Example log2_20 : math_log2 20%float = 0x1.149a784bcd1b9p+2%float.
Proof. vm_compute. reflexivity. Qed.
Example to_i64_ex : (to_i64 2.75%float, to_i64 (-2.75)%float, to_i64 PrimFloat.nan) = (2, -2, min_i64).
Proof. vm_compute. reflexivity. Qed.

(** ** Values *)
Definition SFval (r : spec_float) : Z :=
  match r with
  | S754_finite s m e => if s then - mag (Zpos m) e else mag (Zpos m) e
  | _ => 0
  end.

Definition V (x : float) : Z := SFval (Prim2SF x).
Definition fin (x : float) : Prop := SFfin (Prim2SF x).
Definition scale : Z := 2 ^ 2148.

Lemma scale_pos : 0 < scale.
Proof. apply pow2_pos. lia. Qed.

Lemma V_one : V 1%float = scale.
Proof. vm_compute. reflexivity. Qed.

Lemma mag_pos m e : -2148 <= e -> 0 < mag (Zpos m) e.
Proof. intros. unfold mag. pose proof (pow2_pos (e + 2148)). nia. Qed.

Lemma SFmag_val r : SFfin r -> SFmag r = Z.abs (SFval r).
Proof.
  destruct r as [| | |s m e]; cbn; try done. intros H%mag_canonical.
  pose proof (mag_pos m e). destruct s; lia.
Qed.

(** Magnitudes order as the exponents do, then as the mantissas. *)
Lemma mag_lt_exponent m1 e1 m2 e2 :
  bounded 53 1024 m1 e1 = true -> bounded 53 1024 m2 e2 = true ->
  e1 < e2 -> mag (Zpos m1) e1 < mag (Zpos m2) e2.
Proof.
  intros (H1 & H2 & _)%mag_canonical (H3 & _ & H4)%mag_canonical Hlt. unfold mag.
  specialize (H4 ltac:(lia)).
  assert (Zpos m1 * 2 ^ (e1 + 2148) < 2 ^ 53 * 2 ^ (e1 + 2148)).
  { apply Z.mul_lt_mono_pos_r; [apply pow2_pos|]; lia. }
  assert (2 ^ 52 * 2 ^ (e2 + 2148) <= Zpos m2 * 2 ^ (e2 + 2148)).
  { apply Z.mul_le_mono_nonneg_r; [apply Z.pow_nonneg|]; lia. }
  rewrite <- Z.pow_add_r in * by lia.
  assert (2 ^ (53 + (e1 + 2148)) <= 2 ^ (52 + (e2 + 2148))) by (apply Z.pow_le_mono_r; lia).
  lia.
Qed.

Lemma mag_compare m1 e1 m2 e2 :
  bounded 53 1024 m1 e1 = true -> bounded 53 1024 m2 e2 = true ->
  match Z.compare e1 e2 with
  | Lt => Lt | Gt => Gt | Eq => Pos.compare_cont Eq m1 m2
  end = (mag (Zpos m1) e1 ?= mag (Zpos m2) e2).
Proof.
  intros H1 H2. destruct (Z.compare_spec e1 e2) as [->|Hlt|Hgt].
  - unfold mag. apply mag_canonical in H2 as [? _].
    rewrite <- Zmult_compare_compat_r by (pose proof (pow2_pos (e2 + 2148)); lia). done.
  - symmetry. apply Z.compare_lt_iff. by apply mag_lt_exponent.
  - symmetry. apply Z.compare_gt_iff. by apply mag_lt_exponent.
Qed.

Lemma SFcompare_val a b : SFfin a -> SFfin b -> SFcompare a b = Some (SFval a ?= SFval b).
Proof.
  destruct a as [sa| | |sa ma ea], b as [sb| | |sb mb eb]; cbn [SFfin]; try done; intros Ha Hb.
  - cbn [SFcompare SFval]. pose proof (mag_pos mb eb). apply mag_canonical in Hb as [? _].
    f_equal. destruct sb; symmetry; [apply Z.compare_gt_iff|apply Z.compare_lt_iff]; lia.
  - cbn [SFcompare SFval]. pose proof (mag_pos ma ea). apply mag_canonical in Ha as [? _].
    f_equal. destruct sa; symmetry; [apply Z.compare_lt_iff|apply Z.compare_gt_iff]; lia.
  - cbn [SFcompare SFval]. f_equal.
    pose proof (mag_compare ma ea mb eb Ha Hb) as Hc.
    pose proof (mag_pos ma ea) as Hpa. pose proof (mag_pos mb eb) as Hpb.
    apply mag_canonical in Ha as [? _], Hb as [? _].
    destruct sa, sb.
    + rewrite Z.compare_opp, (Z.compare_antisym (mag (Zpos ma) ea)), <- Hc.
      by destruct (Z.compare ea eb).
    + symmetry. apply Z.compare_lt_iff. lia.
    + symmetry. apply Z.compare_gt_iff. lia.
    + done.
Qed.

Lemma leb_V x y : fin x -> fin y -> (x <=? y)%float = (V x <=? V y).
Proof.
  intros Hx Hy. rewrite leb_spec. unfold SFleb. rewrite SFcompare_val by done.
  unfold V, Z.leb. by destruct (SFval _ ?= _).
Qed.

Lemma ltb_V x y : fin x -> fin y -> (x <? y)%float = (V x <? V y).
Proof.
  intros Hx Hy. rewrite ltb_spec. unfold SFltb. rewrite SFcompare_val by done.
  unfold V, Z.ltb. by destruct (SFval _ ?= _).
Qed.

Lemma fin_zero : fin 0%float. Proof. done. Qed.
Lemma fin_one : fin 1%float. Proof. done. Qed.
Lemma V_zero : V 0%float = 0. Proof. done. Qed.
Lemma fin_half : fin 0.5%float. Proof. done. Qed.
#[export] Hint Resolve fin_zero fin_one fin_half : go.

Lemma valid_fin_iff x : fin x <-> match Prim2SF x with S754_zero _ | S754_finite _ _ _ => True | _ => False end.
Proof.
  unfold fin. pose proof (Prim2SF_valid x) as H. by destruct (Prim2SF x).
Qed.

(** [in01 x]: the float is a number of the unit interval. *)
Definition in01 (x : float) : Prop := ((0 <=? x) && (x <=? 1))%float = true.

Lemma in01_spec x : in01 x <-> fin x /\ 0 <= V x <= scale.
Proof.
  unfold in01. rewrite andb_true_iff. split.
  - intros [H0 H1].
    assert (Hf : fin x).
    { apply valid_fin_iff. rewrite leb_spec in H0, H1. unfold SFleb in *.
      destruct (Prim2SF x) as [|[]| |]; cbn in *; done. }
    rewrite leb_V in H0, H1 by auto with go. bool_prop.
    rewrite V_zero in H0. rewrite V_one in H1. done.
  - intros (Hf & H0 & H1). rewrite !leb_V by auto with go.
    rewrite V_zero, V_one. split; by apply Z.leb_le.
Qed.

Lemma in01_zero : in01 0%float. Proof. done. Qed.
Lemma in01_one : in01 1%float. Proof. done. Qed.
#[export] Hint Resolve in01_zero in01_one : go.
