(* ===== verification/FloatBounds.v ===== *)
(** * Bounds of float64 arithmetic

    Multiplication, addition and subtraction do not cross a representable value;
    hence clamping, complements, products and exponential moving averages of numbers
    of [0,1] stay in [0,1]. *)
From Stdlib Require Import SpecFloat FloatOps FloatAxioms.
From S2P Require Import Prelude FloatRound GoFloat.

Open Scope Z_scope.

(** ** The exact operand of one rounding *)
Lemma round_sign N sx ex :
  0 <= N -> ex <= fexp (Zdigits2 N + ex) ->
  let r := binary_round_aux 53 1024 sx N ex loc_Exact in
  SFfin r -> SFval r = if sx then - SFmag r else SFmag r.
Proof.
  intros HN Hex r Hf.
  destruct (binary_round_aux_lands N 1 ex sx loc_Exact) as (q & _ & _ & Hl);
    [done|lia|rewrite Z.mod_1_r; done|rewrite Z.div_1_r; done|].
  rewrite Z.div_1_r in Hl. fold r in Hl.
  destruct Hl as [[_ ->]|(m & e & _ & _ & _ & _ & ->)]; [by destruct sx|].
  by destruct (e <=? 971), sx.
Qed.

(** [near r v]: the float [r] of an exact value [v] (scaled) has its sign and is on
    the same side of every float as [v]. *)
Definition near (r : spec_float) (v : Z) : Prop :=
  forall f, SFfin f -> 0 <= SFval f ->
    (Z.abs v <= SFval f ->
       SFfin r /\ Z.abs (SFval r) <= SFval f /\ (0 <= v -> 0 <= SFval r) /\ (v <= 0 -> SFval r <= 0))
    /\ (SFval f <= Z.abs v -> SFfin r -> SFval f <= Z.abs (SFval r)).

Lemma round_near N sx ex :
  0 < N -> -2148 <= ex -> ex <= fexp (Zdigits2 N + ex) ->
  near (binary_round_aux 53 1024 sx N ex loc_Exact)
       (if sx then - mag N ex else mag N ex).
Proof.
  intros HN Hlo Hex f Hf Hf0. pose proof (round_sign N sx ex ltac:(lia) Hex) as Hs.
  assert (Hmag : 0 < mag N ex) by (unfold mag; pose proof (pow2_pos (ex + 2148)); nia).
  replace (Z.abs (if sx then - mag N ex else mag N ex)) with (mag N ex) by (destruct sx; lia).
  set (r := binary_round_aux _ _ _ _ _ _) in *. cbn zeta in Hs.
  assert (Hpre : forall P, (SFfin r -> 0 <= SFmag r -> P) -> SFfin r -> P).
  { intros P HP Hr. apply HP; [done|]. rewrite SFmag_val by done. lia. }
  split.
  - intros Hle. destruct f as [|[]| |[] m e]; try done; cbn [SFval] in *; try lia.
    { apply mag_canonical in Hf as Hc. pose proof (mag_pos m e). lia. }
    destruct (round_le N 1 ex sx loc_Exact) with (m := m) (e := e) as [Hr1 Hr2];
      try (rewrite ?Z.div_1_r, ?Z.mod_1_r; (done || lia)).
    { unfold mag in Hle |- *. lia. }
    rewrite Z.div_1_r in Hr1, Hr2. fold r in Hr1, Hr2. split; [done|].
    rewrite (Hs Hr1). revert Hr1. apply Hpre. intros Hr1 ?. destruct sx; lia.
  - intros Hge Hr. rewrite (Hs Hr).
    assert (0 <= SFmag r) by (rewrite SFmag_val by done; lia).
    replace (Z.abs (if sx then - SFmag r else SFmag r)) with (SFmag r) by (destruct sx; lia).
    destruct f as [|[]| |[] m e]; try done; cbn [SFval] in *.
    { apply mag_canonical in Hf as Hc. pose proof (mag_pos m e). lia. }
    pose proof (round_ge N 1 ex sx loc_Exact) as Hg. rewrite Z.div_1_r in Hg. fold r in Hg.
    apply Hg; try (rewrite ?Z.div_1_r, ?Z.mod_1_r; (done || lia)).
    unfold mag in Hge |- *. lia.
Qed.

Lemma near_zero s v : v = 0 -> near (S754_zero s) v.
Proof. intros -> f ??. split; cbn; intros; [intuition lia|lia]. Qed.

(** ** Multiplication *)
Lemma product_exponent ma ea mb eb :
  bounded 53 1024 ma ea = true -> bounded 53 1024 mb eb = true ->
  ea + eb <= fexp (Zdigits2 (Zpos (ma * mb)) + (ea + eb)).
Proof.
  intros (H1 & H2 & H3)%mag_canonical (H4 & H5 & H6)%mag_canonical.
  rewrite fexp_eq. destruct (Zdigits_bounds (Zpos (ma * mb))) as (Hd & _ & Hhi); [lia|].
  destruct (Z.le_gt_cases 53 (Zdigits2 (Zpos (ma * mb)))); [lia|].
  assert (2 ^ Zdigits2 (Zpos (ma * mb)) <= 2 ^ 52) by (apply Z.pow_le_mono_r; lia).
  rewrite Pos2Z.inj_mul in *.
  destruct (Z.eq_dec ea (-1074)), (Z.eq_dec eb (-1074)); [lia|..].
  - specialize (H6 ltac:(lia)). nia.
  - specialize (H3 ltac:(lia)). nia.
  - specialize (H3 ltac:(lia)). nia.
Qed.

(** The exact product, scaled once. *)
Lemma SFmul_near a b v :
  SFfin a -> SFfin b -> v * scale = SFval a * SFval b -> near (SFmul 53 1024 a b) v.
Proof.
  pose proof scale_pos as Hs.
  destruct a as [sa|[]| |sa ma ea], b as [sb|[]| |sb mb eb]; cbn [SFfin SFmul]; try done; intros Ha Hb Hv.
  1-3: apply near_zero; cbn in Hv; nia.
  pose proof (product_exponent ma ea mb eb Ha Hb) as Hex.
  apply mag_canonical in Ha as (Ha & _), Hb as (Hb & _).
  pose proof (round_near (Zpos (ma * mb)) (xorb sa sb) (ea + eb) ltac:(lia) ltac:(lia) Hex) as Hn.
  replace v with (if xorb sa sb then - mag (Zpos (ma * mb)) (ea + eb) else mag (Zpos (ma * mb)) (ea + eb));
    [done|].
  assert (Hm : mag (Zpos (ma * mb)) (ea + eb) * scale = mag (Zpos ma) ea * mag (Zpos mb) eb).
  { unfold mag, scale. rewrite Pos2Z.inj_mul.
    replace (Zpos ma * 2 ^ (ea + 2148) * (Zpos mb * 2 ^ (eb + 2148)))
      with (Zpos ma * Zpos mb * (2 ^ (ea + 2148) * 2 ^ (eb + 2148))) by lia.
    rewrite <- Z.mul_assoc, <- !Z.pow_add_r by lia. do 2 f_equal. lia. }
  cbn [SFval] in Hv. destruct sa, sb; cbn [xorb]; nia.
Qed.

(** ** Addition *)
Lemma mag_align m e e' :
  -2148 <= e' <= e -> mag (m * 2 ^ (e - e')) e' = mag m e.
Proof.
  intros. unfold mag. rewrite <- Z.mul_assoc, <- Z.pow_add_r by lia. do 2 f_equal. lia.
Qed.

Lemma shl_align_spec m e e' :
  e' <= e -> Zpos (fst (shl_align m e e')) = Zpos m * 2 ^ (e - e').
Proof.
  intros He. unfold shl_align. destruct (e' - e) as [|p|p] eqn:E; [|lia|]; cbn.
  - replace (e - e') with 0 by lia. lia.
  - replace (e - e') with (Zpos p) by lia.
    pose proof (shift_pos_correct p m) as H. unfold shift_pos in H. rewrite H.
    change (2 ^ Zpos p) with (Z.pow_pos 2 p). lia.
Qed.

Lemma shl_align_digits m e e' :
  e' <= e -> Zdigits2 (Zpos (fst (shl_align m e e'))) = Zdigits2 (Zpos m) + (e - e').
Proof.
  intros He. pose proof (shl_align_spec m e e' He) as Hs.
  destruct (Zdigits_bounds (Zpos m)) as (Hd & Hlo & Hhi); [lia|].
  pose proof (pow2_pos (e - e') ltac:(lia)).
  apply Zdigits_unique; [lia|]. rewrite Hs.
  replace (Zdigits2 (Zpos m) + (e - e') - 1) with (Zdigits2 (Zpos m) - 1 + (e - e')) by lia.
  rewrite !Z.pow_add_r by lia. nia.
Qed.

(** Normalizing an integer mantissa rounds its exact value. *)
Lemma binary_round_near s m e :
  -1074 <= e -> near (binary_round 53 1024 s m e) (if s then - mag (Zpos m) e else mag (Zpos m) e).
Proof.
  intros He. unfold binary_round.
  set (E := fexp (Zpos (digits2_pos m) + e)).
  assert (HE : -1074 <= E) by (unfold E; rewrite fexp_eq; lia).
  destruct (Z.le_gt_cases E e) as [Hle|Hgt].
  - pose proof (shl_align_spec m e E Hle) as Hs. pose proof (shl_align_digits m e E Hle) as Hd.
    assert (He' : snd (shl_align m e E) = E).
    { unfold shl_align. destruct (E - e) eqn:?; cbn; lia. }
    destruct (shl_align m e E) as [m' e'] eqn:Ea. cbn [fst snd] in Hs, Hd, He'. subst e'.
    replace (mag (Zpos m) e) with (mag (Zpos m') E).
    + apply round_near; [lia|lia|]. rewrite Hd.
      replace (Zdigits2 (Zpos m) + (e - E) + E) with (Zpos (digits2_pos m) + e) by (cbn; lia).
      done.
    + unfold mag. rewrite Hs, <- Z.mul_assoc, <- Z.pow_add_r by lia. do 2 f_equal. lia.
  - replace (shl_align m e E) with (m, e).
    + apply round_near; [lia|lia|]. cbn [Zdigits2]. fold E. lia.
    + unfold shl_align. by destruct (E - e) eqn:?; [lia|..|lia].
Qed.

Lemma binary_normalize_near z e s :
  -1074 <= e -> near (binary_normalize 53 1024 z e s) (mag z e).
Proof.
  intros He. destruct z as [|p|p]; cbn [binary_normalize].
  - by apply near_zero.
  - by apply (binary_round_near false).
  - pose proof (binary_round_near true p e He) as H.
    replace (mag (Zneg p) e) with (- mag (Zpos p) e); [done|]. unfold mag. lia.
Qed.

Lemma near_self r : SFfin r -> near r (SFval r).
Proof. intros Hr f Hf Hf0. split; [intuition lia|lia]. Qed.

Lemma SFadd_near a b :
  SFfin a -> SFfin b -> near (SFadd 53 1024 a b) (SFval a + SFval b).
Proof.
  destruct a as [sa|[]| |sa ma ea], b as [sb|[]| |sb mb eb]; cbn [SFfin]; try done; intros Ha Hb.
  - destruct sa, sb; by apply near_zero.
  - cbn [SFadd]. rewrite Z.add_0_r. by apply (near_self (S754_finite sa ma ea)).
  - cbn [SFadd]. apply mag_canonical in Ha as (Ha & _), Hb as (Hb & _).
    set (ez := Z.min ea eb).
    pose proof (shl_align_spec ma ea ez ltac:(lia)) as Hsa.
    pose proof (shl_align_spec mb eb ez ltac:(lia)) as Hsb.
    set (z := _ + _) at 1.
    replace (SFval _ + SFval _) with (mag z ez); [apply binary_normalize_near; lia|].
    unfold z. cbn [SFval]. rewrite Hsa, Hsb.
    rewrite <- (mag_align (Zpos ma) ea ez), <- (mag_align (Zpos mb) eb ez) by lia.
    unfold mag, cond_Zopp. destruct sa, sb; lia.
Qed.

Lemma SFsub_add a b : SFsub 53 1024 a b = SFadd 53 1024 a (SFopp b).
Proof.
  destruct a as [[]|[]| |sa ma ea], b as [[]|[]| |sb mb eb]; try done.
  cbn [SFsub SFadd SFopp]. unfold Z.sub. do 2 f_equal. by destruct sb; cbn [cond_Zopp negb]; lia.
Qed.

(** ** The same on kernel floats *)
Definition nearF (r : float) (v : Z) : Prop := near (Prim2SF r) v.

Lemma mul_near x y v : fin x -> fin y -> v * scale = V x * V y -> nearF (x * y)%float v.
Proof. unfold nearF. intros. rewrite mul_spec. by apply SFmul_near. Qed.

Lemma add_near x y : fin x -> fin y -> nearF (x + y)%float (V x + V y).
Proof. unfold nearF. intros. rewrite add_spec. by apply SFadd_near. Qed.

Lemma SFval_opp b : SFval (SFopp b) = - SFval b.
Proof. destruct b as [| | |[] m e]; cbn; lia. Qed.

Lemma sub_near x y : fin x -> fin y -> nearF (x - y)%float (V x - V y).
Proof.
  unfold nearF, V, fin. intros Hx Hy. rewrite sub_spec. unfold SF64sub. rewrite SFsub_add.
  unfold Z.sub. rewrite <- SFval_opp. apply SFadd_near; [done|].
  by destruct (Prim2SF y).
Qed.

(** Conversions from integers: every rounding is a valid binary64. *)
Lemma round_valid N sx ex :
  0 <= N -> ex <= fexp (Zdigits2 N + ex) ->
  SpecFloat.valid_binary 53 1024 (binary_round_aux 53 1024 sx N ex loc_Exact) = true.
Proof.
  intros HN Hex.
  destruct (binary_round_aux_lands N 1 ex sx loc_Exact) as (q & _ & _ & Hl);
    [done|lia|rewrite Z.mod_1_r; done|rewrite Z.div_1_r; done|].
  rewrite Z.div_1_r in Hl.
  destruct Hl as [[_ ->]|(m & e & _ & _ & _ & Hc & ->)]; [done|].
  destruct (e <=? 971) eqn:E; [|done]. cbn. unfold bounded. rewrite Hc. exact E.
Qed.

Lemma normalize_valid z e s :
  SpecFloat.valid_binary 53 1024 (binary_normalize 53 1024 z e s) = true.
Proof.
  assert (H : forall sx m, SpecFloat.valid_binary 53 1024 (binary_round 53 1024 sx m e) = true).
  { intros sx m. unfold binary_round. set (E := fexp (Zpos (digits2_pos m) + e)).
    destruct (Z.le_gt_cases E e) as [Hle|Hgt].
    - pose proof (shl_align_digits m e E Hle) as Hd.
      assert (He' : snd (shl_align m e E) = E).
      { unfold shl_align. destruct (E - e) eqn:?; cbn; lia. }
      destruct (shl_align m e E) as [m' e']. cbn [fst snd] in Hd, He'. subst e'.
      apply round_valid; [lia|]. rewrite Hd.
      replace (Zdigits2 (Zpos m) + (e - E) + E) with (Zpos (digits2_pos m) + e) by (cbn; lia). done.
    - replace (shl_align m e E) with (m, e).
      + apply round_valid; [lia|]. cbn [Zdigits2]. fold E. lia.
      + unfold shl_align. by destruct (E - e) eqn:?; [lia|..|lia]. }
  destruct z; cbn [binary_normalize]; [done|apply H|apply H].
Qed.

Lemma of_Z_near z : nearF (of_Z z) (mag z 0).
Proof.
  unfold nearF, of_Z. rewrite Prim2SF_SF2Prim by apply normalize_valid.
  apply binary_normalize_near. lia.
Qed.

(** ** What callers use *)
Lemma near_le r v f :
  nearF r v -> fin f -> 0 <= v <= V f -> fin r /\ 0 <= V r <= V f.
Proof.
  intros Hn Hf Hv. destruct (Hn (Prim2SF f)) as [H _]; [done|unfold V in *; lia|].
  destruct H as (H1 & H2 & H3 & _); [unfold V in *; lia|].
  split; [done|]. unfold V in *. lia.
Qed.

Lemma near_le_neg r v f :
  nearF r v -> fin f -> - V f <= v <= 0 -> fin r /\ - V f <= V r <= 0.
Proof.
  intros Hn Hf Hv. destruct (Hn (Prim2SF f)) as [H _]; [done|unfold V in *; lia|].
  destruct H as (H1 & H2 & _ & H4); [unfold V in *; lia|].
  split; [done|]. unfold V in *. lia.
Qed.

Lemma near_ge r v f :
  nearF r v -> fin f -> fin r -> 0 <= V f <= v -> 0 <= V r -> V f <= V r.
Proof.
  intros Hn Hf Hr Hv H0. destruct (Hn (Prim2SF f)) as [_ H]; [done|unfold V in *; lia|].
  unfold V in *. specialize (H ltac:(lia) Hr). lia.
Qed.

Lemma near_exact r v f :
  nearF r v -> fin f -> V f = v -> 0 <= v -> fin r /\ V r = v.
Proof.
  intros Hn Hf Hv H0. destruct (near_le r v f) as [Hr Hb]; [done..|lia|].
  split; [done|]. pose proof (near_ge r v f Hn Hf Hr ltac:(lia) ltac:(lia)). lia.
Qed.

(** Finite values are multiples of the least positive float, so an exact product
    is an integer at the common scale. *)
Lemma V_multiple x : fin x -> exists k, V x = k * 2 ^ 1074.
Proof.
  unfold fin, V. destruct (Prim2SF x) as [|[]| |s m e]; cbn [SFfin SFval]; try done.
  - by exists 0.
  - intros (He & _)%mag_canonical. exists ((if s then -1 else 1) * (Zpos m * 2 ^ (e + 1074))).
    unfold mag. replace (e + 2148) with (e + 1074 + 1074) by lia.
    rewrite Z.pow_add_r by lia. destruct s; lia.
Qed.

Lemma product_exact x y : fin x -> fin y -> exists v, v * scale = V x * V y.
Proof.
  intros (a & ->)%V_multiple (b & ->)%V_multiple. exists (a * b).
  unfold scale. replace 2148 with (1074 + 1074) by lia. rewrite Z.pow_add_r by lia. lia.
Qed.

Lemma mul_le x y f :
  fin x -> fin y -> fin f -> 0 <= V x -> 0 <= V y -> V x * V y <= V f * scale ->
  fin (x * y)%float /\ 0 <= V (x * y)%float <= V f.
Proof.
  intros Hx Hy Hf Hx0 Hy0 Hle. destruct (product_exact x y Hx Hy) as [v Hv].
  pose proof scale_pos. apply (near_le _ v); [by apply mul_near|done|]. nia.
Qed.

Lemma mul_le_neg x y f :
  fin x -> fin y -> fin f -> 0 <= V x -> V y <= 0 -> V x * - V y <= V f * scale ->
  fin (x * y)%float /\ - V f <= V (x * y)%float <= 0.
Proof.
  intros Hx Hy Hf Hx0 Hy0 Hle. destruct (product_exact x y Hx Hy) as [v Hv].
  pose proof scale_pos. apply (near_le_neg _ v); [by apply mul_near|done|]. nia.
Qed.

(** *** The unit interval *)
Lemma in01_fin x : in01 x -> fin x.
Proof. by intros [? _]%in01_spec. Qed.

(** A product of two numbers of [0,1] is one, and is at most either factor. *)
Lemma in01_mul x y : in01 x -> in01 y -> in01 (x * y)%float /\ V (x * y)%float <= V y.
Proof.
  rewrite !in01_spec. intros (Hx & Hx0 & Hx1) (Hy & Hy0 & Hy1).
  destruct (mul_le x y y) as [Hf Hb]; [done..|nia|]. split; [split; [done|lia]|lia].
Qed.

(** The complement of a number of [0,1]. *)
Lemma in01_complement x : in01 x -> in01 (1 - x)%float.
Proof.
  rewrite !in01_spec. intros (Hx & Hx0 & Hx1).
  destruct (near_le (1 - x)%float (V 1%float - V x) 1%float) as [Hf Hb];
    [apply sub_near; auto with go|auto with go|rewrite V_one; lia|].
  rewrite V_one in Hb. done.
Qed.

(** [max(min(v, 1), 0)] is in [0,1] unless [v] is NaN. *)
Lemma is_nan_spec x : is_nan x = match Prim2SF x with S754_nan => true | _ => false end.
Proof.
  unfold is_nan. rewrite FloatAxioms.eqb_spec. unfold SFeqb.
  destruct (Prim2SF x) as [[]|[]| |s m e] eqn:E; try done. cbn [SFcompare].
  rewrite Z.compare_refl. rewrite (Pos.compare_refl m : Pos.compare_cont Eq m m = Eq).
  by destruct s.
Qed.

(** Without NaN, not below is above or equal. *)
Lemma ltb_false_leb x y :
  is_nan x = false -> is_nan y = false -> (x <? y)%float = false -> (y <=? x)%float = true.
Proof.
  rewrite !is_nan_spec, ltb_spec, leb_spec. unfold SFltb, SFleb.
  pose proof (Prim2SF_valid x) as Hx. pose proof (Prim2SF_valid y) as Hy.
  assert (Hc : forall a b, SFfin a -> SFfin b ->
    match SFcompare a b with Some Lt => true | _ => false end = false ->
    match SFcompare b a with Some (Lt | Eq) => true | _ => false end = true).
  { intros a b Ha Hb. rewrite !SFcompare_val by done.
    rewrite (Z.compare_antisym (SFval a)). by destruct (SFval a ?= SFval b). }
  destruct (Prim2SF x) as [|[]| |[] m e], (Prim2SF y) as [|[]| |[] m' e']; try done;
    intros _ _; by apply Hc.
Qed.

Lemma go_min_one_max_zero v : is_nan v = false -> in01 (go_max (go_min v 1) 0).
Proof.
  intros Hn. unfold go_min. rewrite Hn. change (is_nan 1) with false. cbn [orb].
  destruct (v <? 1)%float eqn:E1; [|destruct (1 <? v)%float eqn:E2].
  - unfold go_max. rewrite Hn. change (is_nan 0) with false. cbn [orb].
    destruct (v <? 0)%float eqn:E3; [done|].
    assert (Hf : fin v).
    { apply valid_fin_iff. rewrite is_nan_spec in Hn. rewrite ltb_spec in E1, E3.
      unfold SFltb in *. by destruct (Prim2SF v) as [[]|[]| |[] ? ?]. }
    destruct (0 <? v)%float eqn:E4.
    + apply in01_spec. rewrite ltb_V in E1, E4 by auto with go. bool_prop.
      rewrite V_one in *. rewrite V_zero in *. split; [done|lia].
    + destruct (PrimFloat.get_sign v); [done|].
      apply in01_spec. rewrite ltb_V in E1, E3, E4 by auto with go. bool_prop.
      rewrite V_zero in *. pose proof scale_pos. split; [done|lia].
  - done.
  - destruct (PrimFloat.get_sign v) eqn:Es; [|done].
    assert (Hf : fin v).
    { apply valid_fin_iff. rewrite is_nan_spec in Hn. rewrite ltb_spec in E1, E2.
      unfold SFltb in *. by destruct (Prim2SF v) as [[]|[]| |[] ? ?]. }
    rewrite ltb_V in E1, E2 by auto with go. bool_prop. rewrite V_one in *.
    assert (HV : V v = scale) by lia. pose proof scale_pos.
    unfold go_max. rewrite Hn. change (is_nan 0) with false. cbn [orb].
    rewrite !ltb_V by auto with go. rewrite V_zero, HV.
    destruct (Z.ltb_spec scale 0); [lia|]. destruct (Z.ltb_spec 0 scale); [|lia].
    apply in01_spec. split; [done|lia].
Qed.

(** *** Exponential moving averages *)

(** Every integer mantissa below 2^53 is a float (away from the subnormals). *)
Lemma exists_float k e :
  0 <= k < 2 ^ 53 -> -1000 <= e <= 900 -> exists f, fin f /\ V f = k * 2 ^ (e + 2148).
Proof.
  intros Hk He. destruct (Z.eq_dec k 0) as [->|Hnz]; [by exists 0%float|].
  destruct (Zdigits_bounds k) as (Hd & Hlo & Hhi); [lia|].
  set (d := Zdigits2 k) in *.
  assert (d <= 53).
  { destruct (Z.le_gt_cases d 53); [done|].
    assert (2 ^ 53 <= 2 ^ (d - 1)) by (apply Z.pow_le_mono_r; lia). lia. }
  assert (Hm : 2 ^ 52 <= k * 2 ^ (53 - d) < 2 ^ 53).
  { pose proof (pow2_pos (53 - d) ltac:(lia)).
    rewrite (pow2_split (53 - d) 53), (pow2_split (53 - d) 52) by lia.
    replace (53 - (53 - d)) with d by lia. replace (52 - (53 - d)) with (d - 1) by lia. nia. }
  set (m := k * 2 ^ (53 - d)) in *.
  assert (Hb : bounded 53 1024 (Z.to_pos m) (e - (53 - d)) = true).
  { unfold bounded. apply andb_true_iff. split; [|apply Z.leb_le; lia].
    apply canonical_spec. rewrite fexp_eq.
    change (Zpos (digits2_pos (Z.to_pos m))) with (Zdigits2 (Zpos (Z.to_pos m))).
    rewrite Z2Pos.id by lia. rewrite (Zdigits_unique m 53) by lia. lia. }
  exists (SF2Prim (S754_finite false (Z.to_pos m) (e - (53 - d)))).
  unfold fin, V. rewrite Prim2SF_SF2Prim by exact Hb. split; [exact Hb|].
  cbn [SFval]. rewrite Z2Pos.id by lia. unfold m.
  replace (53 - d) with (e - (e - (53 - d))) at 1 by lia. apply mag_align. lia.
Qed.

(** Above one half the complement is exact (Sterbenz). *)
Lemma complement_exact x :
  in01 x -> V 0.5%float < V x -> V (1 - x)%float = scale - V x.
Proof.
  intros (Hx & Hx0 & Hx1)%in01_spec Hhalf.
  assert (Hr : exists k, 0 <= k <= 2 ^ 52 /\ scale - V x = k * 2 ^ (-53 + 2148)).
  { assert (Hh : V 0.5%float = 2 ^ 52 * 2 ^ 2095) by (vm_compute; reflexivity).
    assert (Hs : scale = 2 ^ 53 * 2 ^ 2095) by reflexivity.
    assert (HP : 0 < 2 ^ 2095) by reflexivity.
    change (-53 + 2148) with 2095. rewrite Hs in *. rewrite Hh in Hhalf. clear Hs Hh.
    unfold fin, V in *. destruct (Prim2SF x) as [|[]| |s m e]; cbn [SFfin SFval] in *; try done.
    apply mag_canonical in Hx as (He & Hm & _).
    pose proof (mag_pos m e ltac:(lia)).
    destruct s; [exfalso; revert HP Hx0; generalize (2 ^ 2095); intros; lia|]. unfold mag in *.
    assert (He' : -53 <= e).
    { destruct (Z.le_gt_cases (-53) e) as [|Hlt]; [done|exfalso].
      assert (Hm2 : Zpos m * 2 ^ (e + 2148) < 2 ^ 53 * 2 ^ (e + 2148)).
      { apply Z.mul_lt_mono_pos_r; [apply pow2_pos; lia|done]. }
      rewrite <- Z.pow_add_r in Hhalf, Hm2 by lia.
      assert (2 ^ (53 + (e + 2148)) <= 2 ^ (52 + 2095)) by (apply Z.pow_le_mono_r; lia).
      revert Hhalf Hm2 H0. generalize (2 ^ (52 + 2095)). intros. lia. }
    exists (2 ^ 53 - Zpos m * 2 ^ (e + 53)).
    replace (e + 2148) with (e + 53 + 2095) in * by lia.
    rewrite (Z.pow_add_r 2 (e + 53) 2095) in * by lia.
    revert HP Hhalf Hx1. generalize (2 ^ 2095). intros P HP Hhalf Hx1.
    rewrite Z.mul_assoc in Hhalf, Hx1.
    apply Z.mul_lt_mono_pos_r in Hhalf; [|done]. apply Z.mul_le_mono_pos_r in Hx1; [|done].
    split; [lia|]. ring. }
  destruct Hr as (k & Hk & Hv).
  destruct (exists_float k (-53)) as (f & Hf & HVf); [lia|lia|].
  rewrite <- Hv in HVf.
  destruct (near_exact (1 - x)%float (scale - V x) f) as [_ H]; [|done|done|lia|done].
  rewrite <- V_one. apply sub_near; auto with go.
Qed.

(** One step of an exponential moving average toward the samples 0 and 1. *)
Lemma ewma_zero s a : in01 s -> in01 a -> in01 (s + a * (0 - s))%float.
Proof.
  intros Hs Ha. pose proof Hs as (Hfs & Hs0 & Hs1)%in01_spec.
  pose proof Ha as (Hfa & Ha0 & Ha1)%in01_spec. pose proof scale_pos.
  destruct (near_le_neg (0 - s)%float (V 0%float - V s) s) as [Hf1 Hb1];
    [apply sub_near; auto with go|done|rewrite V_zero; lia|].
  destruct (mul_le_neg a (0 - s)%float s) as [Hf2 Hb2]; [done..|lia|lia|nia|].
  destruct (near_le (s + a * (0 - s))%float (V s + V (a * (0 - s))%float) s) as [Hf3 Hb3];
    [by apply add_near|done|lia|].
  apply in01_spec. split; [done|lia].
Qed.

Lemma ewma_one s a :
  in01 s -> in01 a -> V a <= V 0.5%float -> in01 (s + a * (1 - s))%float.
Proof.
  intros Hs Ha Hah. pose proof Hs as (Hfs & Hs0 & Hs1)%in01_spec.
  pose proof Ha as (Hfa & Ha0 & Ha1)%in01_spec. pose proof scale_pos.
  pose proof (in01_complement s Hs) as Ht. pose proof Ht as (Hft & Ht0 & Ht1)%in01_spec.
  assert (Hh : V 0.5%float * 2 = scale) by (vm_compute; reflexivity).
  assert (Hu : exists U, fin (a * (1 - s))%float /\ 0 <= V (a * (1 - s))%float <= U
                 /\ V s + U <= scale).
  { destruct (Z.le_gt_cases (V s) (V 0.5%float)).
    - exists (V 0.5%float).
      destruct (mul_le a (1 - s)%float 0.5%float) as [Hf Hb];
        [done|done|auto with go|lia|lia|nia|]. split; [done|]. split; [done|lia].
    - exists (V (1 - s)%float).
      destruct (mul_le a (1 - s)%float (1 - s)%float) as [Hf Hb]; [done..|lia|lia|nia|].
      split; [done|]. split; [done|]. rewrite complement_exact by done. lia. }
  destruct Hu as (U & Hf & Hb & HU).
  destruct (near_le (s + a * (1 - s))%float (V s + V (a * (1 - s))%float) 1%float) as [Hf3 Hb3];
    [by apply add_near|auto with go|rewrite V_one; lia|].
  rewrite V_one in Hb3. by apply in01_spec.
Qed.

Definition sample (b : bool) : float := if b then 1%float else 0%float.

Lemma ewma_in01 s a b :
  in01 s -> in01 a -> V a <= V 0.5%float -> in01 (s + a * (sample b - s))%float.
Proof. destruct b; [apply ewma_one|intros ???; by apply ewma_zero]. Qed.

Lemma sample_in01 b : in01 (sample b).
Proof. by destruct b. Qed.
#[export] Hint Resolve in01_complement in01_fin sample_in01 : go.

(** *** Division *)
Lemma new_location_exact n k : new_location n k = loc_Exact <-> k = 0.
Proof.
  unfold new_location, new_location_even, new_location_odd.
  destruct (Z.even n), (Z.eqb_spec k 0); naive_solver.
Qed.

(** A quotient of positive floats is the rounding of a scaled integer quotient. *)
Lemma SFdiv_as_round m1 e1 m2 e2 :
  exists s, 0 <= s /\
    let N := Zpos m1 * 2 ^ s in let ex := e1 - e2 - s in
    SFdiv 53 1024 (S754_finite false m1 e1) (S754_finite false m2 e2) =
      binary_round_aux 53 1024 false (N / Zpos m2) ex (new_location (Zpos m2) (N mod Zpos m2)) /\
    ex <= fexp (Zdigits2 (N / Zpos m2) + ex) /\ Z.min (-1074) (e1 - e2) <= ex.
Proof.
  cbn [SFdiv xorb]. unfold SFdiv_core_binary.
  set (d1 := Zdigits2 (Zpos m1)). set (d2 := Zdigits2 (Zpos m2)).
  set (e' := Z.min (fexp (d1 + e1 - (d2 + e2))) (e1 - e2)).
  set (s := e1 - e2 - e').
  assert (Hs : 0 <= s) by (unfold s, e'; lia). exists s. split; [done|]. cbv zeta.
  replace (e1 - e2 - s) with e' by lia.
  set (m' := match s with Zpos _ => Z.shiftl (Zpos m1) s | Z0 => Zpos m1 | Zneg _ => 0 end).
  assert (Hm' : m' = Zpos m1 * 2 ^ s).
  { unfold m'. destruct s eqn:Es; [lia| |lia]. by rewrite Z.shiftl_mul_pow2 by lia. }
  destruct (Z.div_eucl m' (Zpos m2)) as [q r] eqn:Eqr.
  assert (Hq : q = m' / Zpos m2) by (unfold Z.div; by rewrite Eqr).
  assert (Hr : r = m' mod Zpos m2) by (unfold Z.modulo; by rewrite Eqr).
  rewrite <- Hm', <- Hq, <- Hr. split; [done|]. split; [|unfold e'; rewrite fexp_eq; lia].
  destruct (Zdigits_bounds (Zpos m1)) as (Hd1 & Hlo1 & _); [lia|].
  destruct (Zdigits_bounds (Zpos m2)) as (Hd2 & _ & Hhi2); [lia|].
  fold d1 in Hd1, Hlo1. fold d2 in Hd2, Hhi2.
  assert (Hm0 : 0 <= m') by (rewrite Hm'; pose proof (pow2_pos s Hs); nia).
  assert (Hq0 : 0 <= q) by (rewrite Hq; apply Z.div_pos; lia).
  assert (Hdq : d1 + s - d2 <= Zdigits2 q).
  { destruct (Z.le_gt_cases (d1 + s - d2) 0); [pose proof (Zdigits_nonneg q Hq0); lia|].
    assert (Hql : 2 ^ (d1 + s - d2 - 1) <= q).
    { rewrite Hq, Hm'. apply Z.div_le_lower_bound; [lia|].
      assert (2 ^ (d1 - 1) * 2 ^ s <= Zpos m1 * 2 ^ s).
      { apply Z.mul_le_mono_nonneg_r; [apply Z.pow_nonneg; lia|done]. }
      assert (Zpos m2 * 2 ^ (d1 + s - d2 - 1) <= 2 ^ d2 * 2 ^ (d1 + s - d2 - 1)).
      { apply Z.mul_le_mono_nonneg_r; [apply Z.pow_nonneg; lia|lia]. }
      rewrite <- Z.pow_add_r in * by lia.
      replace (d2 + (d1 + s - d2 - 1)) with (d1 - 1 + s) in * by lia. lia. }
    assert (0 < q) by (pose proof (pow2_pos (d1 + s - d2 - 1) ltac:(lia)); lia).
    destruct (Zdigits_bounds q) as (Hdq & _ & Hhi); [done|].
    assert (2 ^ (d1 + s - d2 - 1) < 2 ^ Zdigits2 q) as Hlt by lia.
    apply Z.pow_lt_mono_r_iff in Hlt; lia. }
  transitivity (fexp (d1 + e1 - (d2 + e2))); [unfold e'; lia|].
  apply fexp_mono. lia.
Qed.

Lemma scaled_nonneg m s : 0 <= s -> 0 <= Zpos m * 2 ^ s.
Proof. intros Hs. pose proof (pow2_pos s Hs). nia. Qed.

(** A quotient of positive floats rounds to a float without sign or NaN. *)
Lemma SFdiv_pos m1 e1 m2 e2 :
  match SFdiv 53 1024 (S754_finite false m1 e1) (S754_finite false m2 e2) with
  | S754_nan | S754_finite true _ _ | S754_zero true | S754_infinity true => False
  | _ => True
  end.
Proof.
  destruct (SFdiv_as_round m1 e1 m2 e2) as (s & Hs & -> & Hex & _). cbv zeta in *.
  destruct (binary_round_aux_lands (Zpos m1 * 2 ^ s) (Zpos m2) (e1 - e2 - s) false
              (new_location (Zpos m2) ((Zpos m1 * 2 ^ s) mod Zpos m2)))
    as (q' & _ & _ & Hl); [by apply scaled_nonneg|lia|by rewrite new_location_exact|done|].
  destruct Hl as [[_ ->]|(m & e & _ & _ & _ & _ & ->)]; [done|]. by destruct (e <=? 971).
Qed.

(** A quotient of a float by one at least as large is at most 1. *)
Lemma SFdiv_le_one m1 e1 m2 e2 :
  bounded 53 1024 m1 e1 = true -> bounded 53 1024 m2 e2 = true ->
  mag (Zpos m1) e1 <= mag (Zpos m2) e2 ->
  let r := SFdiv 53 1024 (S754_finite false m1 e1) (S754_finite false m2 e2) in
  SFfin r /\ SFmag r <= scale.
Proof.
  intros (He1 & _ & _)%mag_canonical (He2 & _ & _)%mag_canonical Hle. cbv zeta.
  destruct (SFdiv_as_round m1 e1 m2 e2) as (s & Hs & -> & Hex & Hmin). cbv zeta in *.
  change scale with (mag (Zpos 4503599627370496) (-52)).
  apply round_le; [by apply scaled_nonneg|lia|by rewrite new_location_exact|lia|done|done|].
  change (mag 4503599627370496 (-52)) with (2 ^ 2148).
  rewrite <- Z.mul_assoc, <- Z.pow_add_r by lia.
  replace (s + (e1 - e2 - s + 2148)) with (e1 - e2 + 2148) by lia. unfold mag in Hle.
  apply (Z.mul_le_mono_pos_r _ _ (2 ^ (e2 + 2148))); [apply pow2_pos; lia|].
  rewrite <- !Z.mul_assoc, <- !Z.pow_add_r by lia.
  replace (e1 - e2 + 2148 + (e2 + 2148)) with (e1 + 2148 + 2148) by lia.
  replace (2148 + (e2 + 2148)) with (e2 + 2148 + 2148) by lia.
  rewrite (Z.pow_add_r 2 (e1 + 2148) 2148), (Z.pow_add_r 2 (e2 + 2148) 2148), !Z.mul_assoc by lia.
  apply Z.mul_le_mono_nonneg_r; [apply Z.pow_nonneg; lia|done].
Qed.

Lemma min_div_in01 x y :
  fin x -> fin y -> 0 <= V x -> 0 < V y -> in01 (go_min (x / y) 1).
Proof.
  intros Hx Hy Hx0 Hy0.
  assert (Hd : match Prim2SF (x / y)%float with
               | S754_nan | S754_finite true _ _ | S754_infinity true => False
               | _ => True end).
  { rewrite div_spec. unfold fin, V in *.
    destruct (Prim2SF y) as [|[]| |[] my ey]; cbn [SFfin SFval] in *; try done; try lia.
    { apply mag_canonical in Hy as [? _]. pose proof (mag_pos my ey). lia. }
    destruct (Prim2SF x) as [[]|[]| |[] mx ex]; cbn [SFfin SFval] in *; try done.
    { apply mag_canonical in Hx as [? _]. pose proof (mag_pos mx ex). lia. }
    pose proof (SFdiv_pos mx ex my ey) as H. unfold SF64div.
    by destruct (SFdiv _ _ _ _) as [|[]| |[] ? ?]. }
  set (z := (x / y)%float) in *.
  assert (Hn : is_nan z = false) by (rewrite is_nan_spec; by destruct (Prim2SF z)).
  assert (Hz : z = PrimFloat.infinity \/ fin z /\ 0 <= V z).
  { destruct (Prim2SF z) as [s|[]| |[] m e] eqn:E; try done.
    - right. unfold fin, V. by rewrite E.
    - left. rewrite <- (SF2Prim_Prim2SF z), E. done.
    - right. unfold fin, V. pose proof (Prim2SF_valid z) as Hv. rewrite E in Hv |- *.
      split; [exact Hv|]. apply mag_canonical in Hv as [? _].
      pose proof (mag_pos m e). cbn [SFval]. lia. }
  destruct Hz as [->|[Hf H0]]; [done|].
  unfold go_min. rewrite Hn. change (is_nan 1) with false. cbn [orb].
  rewrite !ltb_V by auto with go.
  destruct (Z.ltb_spec (V z) (V 1%float)); [apply in01_spec; rewrite V_one in *; split; [done|lia]|].
  destruct (Z.ltb_spec (V 1%float) (V z)); [done|].
  destruct (get_sign z); [|done]. apply in01_spec. rewrite V_one in *. split; [done|lia].
Qed.

(** Converting a uint64. *)
Lemma of_Z_u64 z : is_u64 z -> fin (of_Z z) /\ 0 <= V (of_Z z) /\ (1 <= z -> scale <= V (of_Z z)).
Proof.
  intros Hz. destruct (exists_float 1 64) as (f & Hf & HV); [lia|lia|].
  assert (Hm : mag z 0 = z * scale) by reflexivity.
  assert (HV' : V f = 18446744073709551616 * scale) by (rewrite HV; vm_compute; reflexivity).
  pose proof scale_pos as Hs. pose proof (of_Z_near z) as Hn. rewrite Hm in Hn.
  assert (H : fin (of_Z z) /\ 0 <= V (of_Z z) <= V f).
  { apply (near_le _ _ _ Hn Hf). rewrite HV'. unfold is_u64, max_u64 in Hz.
    revert Hs. generalize scale. intros. nia. }
  destruct H as [H1 H2]. split; [done|]. split; [lia|]. intros H1z. rewrite <- V_one.
  apply (near_ge _ _ _ Hn); [auto with go|done|rewrite V_one|lia].
  revert Hs. generalize scale. intros. nia.
Qed.

(** *** Values that passed a positivity test *)
Lemma pos_not_nan x : (0 <? x)%float = true -> is_nan x = false.
Proof. rewrite is_nan_spec, ltb_spec. by destruct (Prim2SF x). Qed.

Lemma in01_not_nan x : in01 x -> is_nan x = false.
Proof. intros H%in01_fin%valid_fin_iff. rewrite is_nan_spec. by destruct (Prim2SF x). Qed.

Lemma go_min_one_pos x : (0 <? go_min x 1)%float = true -> in01 (go_min x 1).
Proof.
  intros H. unfold go_min in *. change (is_nan 1) with false in *. rewrite orb_false_r in *.
  destruct (is_nan x) eqn:En; [done|].
  destruct (x <? 1)%float eqn:E1; [|destruct (1 <? x)%float eqn:E2; [done|]].
  - assert (Hf : fin x).
    { apply valid_fin_iff. rewrite ltb_spec in H, E1. unfold SFltb in *.
      by destruct (Prim2SF x) as [[]|[]| |[] ? ?]. }
    apply in01_spec. rewrite ltb_V in H, E1 by auto with go. bool_prop.
    rewrite V_zero in *. rewrite V_one in *. split; [done|lia].
  - destruct (PrimFloat.get_sign x); [|done].
    assert (Hf : fin x).
    { apply valid_fin_iff. rewrite is_nan_spec in En. rewrite ltb_spec in E1, E2.
      unfold SFltb in *. by destruct (Prim2SF x) as [[]|[]| |[] ? ?]. }
    apply in01_spec. rewrite ltb_V in E1, E2, H by auto with go. bool_prop.
    rewrite V_one in *. rewrite V_zero in *. split; [done|lia].
Qed.

Lemma go_clamp_pos x :
  (0 <? go_max (go_min x 1) 0)%float = true -> in01 (go_max (go_min x 1) 0).
Proof.
  intros H. apply go_min_one_max_zero. destruct (is_nan x) eqn:E; [|done].
  exfalso. unfold go_max, go_min in H. rewrite E in H. cbn in H. done.
Qed.

Lemma go_max_zero_in01 x : in01 x -> in01 (go_max x 0).
Proof.
  intros H. unfold go_max. rewrite (in01_not_nan x H). change (is_nan 0) with false. cbn [orb].
  destruct (x <? 0)%float; [done|]. destruct (0 <? x)%float; [done|]. by destruct (get_sign x).
Qed.

Lemma inf_cases w : is_nan w = false -> fin w \/ exists s, Prim2SF w = S754_infinity s.
Proof.
  rewrite is_nan_spec. intros H. destruct (Prim2SF w) eqn:E; [left|right|done|left]; eauto;
    apply valid_fin_iff; by rewrite E.
Qed.

Lemma fin_not_nan x : fin x -> is_nan x = false.
Proof. intros H%valid_fin_iff. rewrite is_nan_spec. by destruct (Prim2SF x). Qed.

(** A positive number of (0,1], or any positive number taken once, weighs in without
    producing a NaN. *)
Lemma mul_not_nan v w :
  in01 v -> (0 <? v)%float = true -> is_nan w = false -> is_nan (v * w)%float = false.
Proof.
  intros Hv Hpos Hw. apply in01_spec in Hv as (Hf & H0 & H1).
  destruct (inf_cases w Hw) as [Hfw|[s Hs]].
  - apply fin_not_nan. destruct (Z.le_ge_cases 0 (V w)).
    + by destruct (mul_le v w w) as [? _]; [done..|nia|].
    + assert (Ho : fin (- w)%float /\ V (- w)%float = - V w).
      { unfold fin, V in *. rewrite opp_spec. split; [by destruct (Prim2SF w)|apply SFval_opp]. }
      destruct Ho as [Ho1 Ho2].
      by destruct (mul_le_neg v w (- w)%float) as [? _]; [done..|rewrite Ho2; nia|].
  - rewrite is_nan_spec, mul_spec, Hs. rewrite ltb_spec in Hpos. unfold fin in Hf.
    by destruct (Prim2SF v) as [[]|[]| |[] ? ?].
Qed.

Lemma mul_one_not_nan v : (0 <? v)%float = true -> is_nan (v * 1)%float = false.
Proof.
  intros Hpos. pose proof (pos_not_nan v Hpos) as Hn. pose proof scale_pos.
  destruct (inf_cases v Hn) as [Hf|[s Hs]].
  - apply fin_not_nan. rewrite ltb_V in Hpos by auto with go. bool_prop. rewrite V_zero in Hpos.
    destruct (mul_le v 1%float v) as [? _]; [auto with go..|lia|rewrite V_one; lia|rewrite V_one; lia|done].
  - rewrite is_nan_spec, mul_spec, Hs. by destruct s.
Qed.

(** Zero absorbs. *)
Lemma mul_zero_V x y : fin x -> in01 y -> V x = 0 -> fin (x * y)%float /\ V (x * y)%float = 0.
Proof.
  intros Hx Hy%in01_spec E. destruct (mul_le x y 0%float) as [? Hb]; try tauto; auto with go; try lia.
  { rewrite V_zero, E. lia. }
  rewrite V_zero in Hb. split; [done|lia].
Qed.

Lemma eqb_V x y : fin x -> fin y -> (x =? y)%float = (V x =? V y).
Proof.
  intros Hx Hy. rewrite FloatAxioms.eqb_spec. unfold SFeqb. rewrite SFcompare_val by done.
  unfold V. destruct (Z.compare_spec (SFval (Prim2SF x)) (SFval (Prim2SF y))); symmetry;
    [by apply Z.eqb_eq|apply Z.eqb_neq; lia|apply Z.eqb_neq; lia].
Qed.

Lemma one_minus_zero x : fin x -> V x = 0 -> (1 - x =? 1)%float = true.
Proof.
  intros Hx E. destruct (near_exact (1 - x)%float (V 1%float - V x) 1%float) as [Hf HV];
    [by apply sub_near; auto with go|auto with go|lia|rewrite E, V_one; pose proof scale_pos; lia|].
  rewrite eqb_V by auto with go. by rewrite HV, E, Z.sub_0_r, Z.eqb_refl.
Qed.

(** *** Minimum and maximum of finite numbers *)
Lemma go_min_V x y : fin x -> fin y -> fin (go_min x y) /\ V (go_min x y) = Z.min (V x) (V y).
Proof.
  intros Hx Hy. unfold go_min. rewrite !fin_not_nan, !ltb_V by done. cbn [orb].
  destruct (Z.ltb_spec (V x) (V y)); [split; [done|lia]|].
  destruct (Z.ltb_spec (V y) (V x)); [split; [done|lia]|].
  destruct (get_sign x); (split; [done|lia]).
Qed.
Lemma go_max_V x y : fin x -> fin y -> fin (go_max x y) /\ V (go_max x y) = Z.max (V x) (V y).
Proof.
  intros Hx Hy. unfold go_max. rewrite !fin_not_nan, !ltb_V by done. cbn [orb].
  destruct (Z.ltb_spec (V x) (V y)); [split; [done|lia]|].
  destruct (Z.ltb_spec (V y) (V x)); [split; [done|lia]|].
  destruct (get_sign x); (split; [done|lia]).
Qed.

Lemma fin_not_inf x : fin x ->
  (x =? PrimFloat.neg_infinity)%float = false /\ (x =? PrimFloat.infinity)%float = false.
Proof.
  intros H%valid_fin_iff. rewrite !FloatAxioms.eqb_spec. unfold SFeqb.
  by destruct (Prim2SF x) as [[]|[]| |[] ? ?].
Qed.

Lemma math_min_V x y : fin x -> fin y -> fin (math_min x y) /\ V (math_min x y) = Z.min (V x) (V y).
Proof.
  intros Hx Hy. unfold math_min. destruct (fin_not_inf x Hx) as [-> _], (fin_not_inf y Hy) as [-> _].
  cbn [orb]. by apply go_min_V.
Qed.
Lemma math_max_V x y : fin x -> fin y -> fin (math_max x y) /\ V (math_max x y) = Z.max (V x) (V y).
Proof.
  intros Hx Hy. unfold math_max. destruct (fin_not_inf x Hx) as [_ ->], (fin_not_inf y Hy) as [_ ->].
  cbn [orb]. by apply go_max_V.
Qed.

(** Integers below 2^53 convert exactly. *)
Lemma of_Z_exact n : 0 <= n < 2 ^ 53 -> fin (of_Z n) /\ V (of_Z n) = n * scale.
Proof.
  intros Hn. destruct (exists_float n 0) as (f & Hf & HV); [done|lia|].
  apply (near_exact _ _ f); [exact (of_Z_near n)|done|exact HV|].
  pose proof scale_pos. apply Z.mul_nonneg_nonneg; lia.
Qed.

(** A running sum of numbers of [0,1] stays at most the number of terms. *)
Lemma sum_step s v n :
  fin s -> 0 <= V s <= n * scale -> in01 v -> 0 <= n -> n + 1 < 2 ^ 53 ->
  fin (s + v)%float /\ 0 <= V (s + v)%float <= (n + 1) * scale.
Proof.
  intros Hs Hb (Hv & Hv0 & Hv1)%in01_spec Hn Hlt.
  destruct (exists_float (n + 1) 0) as (f & Hf & HV); [lia|lia|].
  assert (HVf : V f = (n + 1) * scale) by exact HV.
  rewrite <- HVf. apply (near_le _ (V s + V v)); [by apply add_near|done|lia].
Qed.

(** A quotient of numbers of which the divisor is the larger lies in [0,1]. *)
Lemma div_in01 x y :
  fin x -> fin y -> 0 <= V x <= V y -> 0 < V y -> in01 (x / y)%float.
Proof.
  intros Hx Hy Hxy Hy0. apply in01_spec. unfold V at 1 2, fin at 1. rewrite div_spec.
  unfold fin, V in *. pose proof scale_pos.
  destruct (Prim2SF y) as [|[]| |[] my ey]; cbn [SFfin SFval] in *; try done; try lia.
  { apply mag_canonical in Hy as [? _]. pose proof (mag_pos my ey). lia. }
  destruct (Prim2SF x) as [sx|[]| |[] mx ex]; cbn [SFfin SFval] in *; try done.
  - apply mag_canonical in Hx as [? _]. pose proof (mag_pos mx ex). lia.
  - destruct (SFdiv_le_one mx ex my ey) as [H1 H2]; [done|done|lia|].
    pose proof (SFdiv_pos mx ex my ey) as H3.
    change (SF64div (S754_finite false mx ex) (S754_finite false my ey))
      with (SFdiv 53 1024 (S754_finite false mx ex) (S754_finite false my ey)).
    destruct (SFdiv 53 1024 _ _) as [[]|[]| |[] m e]; try done; cbn [SFfin SFval SFmag] in *; (split; [done|]); try lia.
    apply mag_canonical in H1 as [? _]. pose proof (mag_pos m e). lia.
Qed.

(** A ratio of counts lies in [0,1]. *)
Lemma ratio_in01 a b : 0 <= a <= b -> 0 < b < 2 ^ 53 -> in01 (of_Z a / of_Z b)%float.
Proof.
  intros Ha Hb. pose proof scale_pos.
  destruct (of_Z_exact a) as [? Va]; [lia|]. destruct (of_Z_exact b) as [? Vb]; [lia|].
  apply div_in01; try done; rewrite ?Va, ?Vb; nia.
Qed.

Lemma fin_is_inf x : fin x -> is_inf x = false.
Proof.
  intros Hx%valid_fin_iff. unfold PrimFloat.is_infinity.
  rewrite FloatAxioms.eqb_spec, FloatAxioms.abs_spec. unfold SFeqb.
  by destruct (Prim2SF x) as [[]|[]| |[] ? ?].
Qed.
