(* ===== verification/Event.v ===== *)
(** * Package event

    The Event an engine analyzes, its validation, and the operational evidence
    (duration, span status, lineage) beside it. *)
From S2P Require Import Prelude GoText GoTime GoFloat FloatBounds.

Open Scope string_scope.
Open Scope Z_scope.

(** ** Closed vocabularies, as the strings the code defines them by *)
Definition ActorType := string.
Definition ActorTypeService : ActorType := "service".
Definition ActorTypeUser : ActorType := "user".
Definition ActorTypeServiceAccount : ActorType := "service_account".
Definition ActorTypeAIAgent : ActorType := "ai_agent".
Definition ActorTypeDevice : ActorType := "device".
Definition ActorTypeUnknown : ActorType := "unknown".

(** [switch s { case l...: return true; default: return false }]. *)
Definition one_of (s : string) (l : list string) : bool := bool_decide (s ∈ l).

Definition ActorType_valid (t : ActorType) : bool :=
  one_of t [ActorTypeService; ActorTypeUser; ActorTypeServiceAccount; ActorTypeAIAgent;
            ActorTypeDevice; ActorTypeUnknown].

Definition OperationCategory := string.
Definition OperationCategory_valid (c : OperationCategory) : bool :=
  one_of c ["http"; "db"; "rpc"; "tool"; "external"].

Definition OperationDirection := string.
Definition OperationDirection_valid (d : OperationDirection) : bool :=
  one_of d [""; "inbound"; "outbound"].

Definition TargetCategory := string.
Definition TargetCategory_valid (c : TargetCategory) : bool :=
  one_of c [""; "internal"; "external"; "database"].

Definition ApprovalStatus := string.
Definition ApprovalUnspecified : ApprovalStatus := "".
Definition ApprovalNotRequired : ApprovalStatus := "not_required".
Definition ApprovalRequired : ApprovalStatus := "required".
Definition ApprovalApproved : ApprovalStatus := "approved".
Definition ApprovalDenied : ApprovalStatus := "denied".

Definition SpanStatus := string.
Definition StatusUnavailable : SpanStatus := "".
Definition StatusUnset : SpanStatus := "unset".
Definition StatusOK : SpanStatus := "ok".
Definition StatusError : SpanStatus := "error".
Definition SpanStatus_Valid (s : SpanStatus) : bool :=
  one_of s [StatusUnset; StatusOK; StatusError].

Definition SpanLineage := string.
Definition LineageUnspecified : SpanLineage := "".
Definition LineageRoot : SpanLineage := "root".
Definition LineageChild : SpanLineage := "child".
Definition SpanLineage_Valid (l : SpanLineage) : bool := one_of l [LineageRoot; LineageChild].

(** ** Fidelity, layer and usage (internal/semconv) *)
Definition Fidelity := string.
Definition FidelityTransport : Fidelity := "transport".
Definition FidelitySemantic : Fidelity := "semantic".
Definition Fidelity_Valid (f : Fidelity) : bool := one_of f [FidelityTransport; FidelitySemantic].
Definition OrTransport (f : Fidelity) : Fidelity := if Fidelity_Valid f then f else FidelityTransport.

Definition Layer := string.
Definition LayerUnspecified : Layer := "".
Definition LayerModel : Layer := "model".
Definition LayerTool : Layer := "tool".
Definition LayerRetrieval : Layer := "retrieval".
Definition LayerTransport : Layer := "transport".
Definition Layer_Valid (l : Layer) : bool :=
  one_of l [LayerModel; LayerTool; LayerRetrieval; LayerTransport].

Definition MaxTokenCount : Z := 2 ^ 32.

Record Usage : Type := {
  Usage_Input : Z; HasInput : bool;
  Usage_Output : Z; HasOutput : bool;
  Usage_Unsplit : Z; HasUnsplit : bool;
}.

Definition Usage_Observed (u : Usage) : bool := HasInput u || HasOutput u || HasUnsplit u.

(** ** Actor, Operation, Target, Context *)
Record Actor : Type := {
  Actor_ID : string;
  Actor_Type : ActorType;
  Actor_IdentityConfidence : float;
}.

Definition Actor_validate (a : Actor) : res unit :=
  fail_if (Actor_ID a =s "") [ErrMissingActorID];;
  fail_if (negb (ActorType_valid (Actor_Type a))) [ErrInvalidActorType];;
  fail_if (is_nan (Actor_IdentityConfidence a)
           || (Actor_IdentityConfidence a <? 0)%float
           || (1 <? Actor_IdentityConfidence a)%float) [ErrInvalidIdentityConfidence].

Record Operation : Type := {
  Operation_Category : OperationCategory;
  Operation_Name : string;
  Operation_Direction : OperationDirection;
}.

Definition Operation_validate (o : Operation) : res unit :=
  fail_if (negb (OperationCategory_valid (Operation_Category o))) [ErrInvalidOperationCategory];;
  fail_if (Operation_Name o =s "") [ErrMissingOperationName];;
  fail_if (negb (OperationDirection_valid (Operation_Direction o))) [ErrInvalidOperationDirection].

Record Target : Type := { Target_Name : string; Target_Category : TargetCategory }.

Record Context_ : Type := {
  Environment : string;
  TraceID : string;
  SpanID : string;
  SessionID : string;
  DelegatedFrom : string;
  Context_ApprovalStatus : ApprovalStatus;
  ParentSpanID : string;
  Context_SpanLineage : SpanLineage;
}.

(** ** Execution: operational evidence *)
Definition MaxDurationNanos : Z := max_i64.

Record Execution : Type := {
  DurationNanos : Z; (* uint64 *)
  DurationObserved : bool;
  Execution_Status : SpanStatus;
}.

Definition Execution_validate (x : Execution) : res unit :=
  fail_if (DurationObserved x && (MaxDurationNanos <? DurationNanos x)) [ErrInvalidDuration].

(** The span timing rule both telemetry adapters share; 0 means an unset time. *)
Definition DurationFrom (startNanos endNanos : Z) : Z * bool :=
  if (startNanos =? 0) || (endNanos =? 0) then (0, false)
  else if endNanos <? startNanos then (0, false)
  else
    let elapsed := u64 (endNanos - startNanos) in
    if MaxDurationNanos <? elapsed then (0, false) else (elapsed, true).

(** ** Event

    An attribute value is a Go [any]; the cases the code distinguishes by type are
    the constructors, everything else is [AOther] with an opaque identity. *)
Inductive attr : Type :=
| AFloat64 (f : float)
| AFloat32 (f : float) (* the exact float64 value of the float32 *)
| AInt (n : Z)
| AInt32 (n : Z)
| AInt64 (n : Z)
| ABool (b : bool)
| AString (s : string)
| AOther (id : Z).

Definition maxExactFloat : float := 0x1p+53%float.

(** [n == math.Trunc(n)] on [0, 2^53]: the float is an integer. *)
Definition float_integer (f : float) : option Z :=
  if (0 <=? f)%float && (f <=? maxExactFloat)%float && (of_Z (to_i64 f) =? f)%float
  then Some (to_i64 f) else None.

Definition nonNegativeInteger (v : attr) : option Z :=
  match v with
  | AInt64 n | AInt n => if 0 <=? n then Some n else None
  | AFloat64 f => float_integer f
  | _ => None
  end.

(** The first key present decides: its value when it is a count within the limit. *)
Fixpoint firstCount (attrs : gmap string attr) (keys : list string) (limit : Z) : option Z :=
  match keys with
  | [] => None
  | key :: keys =>
      match attrs !! key with
      | None => firstCount attrs keys limit
      | Some raw =>
          match nonNegativeInteger raw with
          | None => None
          | Some n => if limit <? n then None else Some n
          end
      end
  end.

Definition inputTokenKeys : list string :=
  ["gen_ai.usage.input_tokens"; "gen_ai.usage.prompt_tokens"; "llm.token_count.prompt"].
Definition outputTokenKeys : list string :=
  ["gen_ai.usage.output_tokens"; "gen_ai.usage.completion_tokens"; "llm.token_count.completion"].
Definition statusCodeKeys : list string := ["http.response.status_code"; "http.status_code"].

Definition ReadUsage (attrs : gmap string attr) : Usage :=
  let i := firstCount attrs inputTokenKeys MaxTokenCount in
  let o := firstCount attrs outputTokenKeys MaxTokenCount in
  let t := if negb (bool_decide (is_Some i)) && negb (bool_decide (is_Some o))
           then firstCount attrs ["llm.token_count.total"] MaxTokenCount else None in
  {| Usage_Input := default 0 i; HasInput := bool_decide (is_Some i);
     Usage_Output := default 0 o; HasOutput := bool_decide (is_Some o);
     Usage_Unsplit := default 0 t; HasUnsplit := bool_decide (is_Some t) |}.

Definition ReadHTTPStatusCode (attrs : gmap string attr) : option Z :=
  match firstCount attrs statusCodeKeys 599 with
  | Some code => if code <? 100 then None else Some code
  | None => None
  end.

Record Event : Type := {
  Event_ID : string;
  Event_Timestamp : time;
  Event_Actor : Actor;
  Event_Operation : Operation;
  Event_Target : Target;
  Event_Attributes : gmap string attr;
  Event_Context : Context_;
  Event_Execution : Execution;
}.

(** The timestamps RFC 3339 can write. *)
Definition validateTimestamp (t : time) : res unit :=
  fail_if ((time_year t <? 0) || (9999 <? time_year t)) [ErrEventInvalidTimestamp];;
  fail_if ((zone_offset t <=? -24 * 60 * 60) || (24 * 60 * 60 <=? zone_offset t))
    [ErrEventInvalidTimestamp].

Definition Event_Validate (e : Event) : res unit :=
  fail_if (Event_ID e =s "") [ErrMissingID];;
  fail_if (time_is_zero (Event_Timestamp e)) [ErrMissingTimestamp];;
  validateTimestamp (Event_Timestamp e);;
  Actor_validate (Event_Actor e);;
  Operation_validate (Event_Operation e);;
  Execution_validate (Event_Execution e).

(** ** Lemmas *)
Lemma one_of_spec s l : one_of s l = true <-> s ∈ l.
Proof. apply bool_decide_eq_true. Qed.

(** A validated identity confidence is a number of [0,1]. *)
Lemma Actor_validate_confidence a :
  Actor_validate a = Ok tt -> in01 (Actor_IdentityConfidence a).
Proof.
  unfold Actor_validate. intros H. res_inv. bool_prop. unfold in01.
  set (c := Actor_IdentityConfidence a) in *.
  by rewrite !ltb_false_leb.
Qed.

(** [DurationFrom] on uint64 nanoseconds: exactly the representable positive-time
    intervals, measured without wrap-around. *)
Lemma DurationFrom_spec s e d ok :
  is_u64 s -> is_u64 e -> DurationFrom s e = (d, ok) ->
  (ok = true <-> 0 < s /\ s <= e /\ 0 < e /\ e - s <= MaxDurationNanos) /\
  (ok = true -> d = e - s) /\ (ok = false -> d = 0) /\ 0 <= d <= MaxDurationNanos.
Proof.
  unfold DurationFrom, MaxDurationNanos. intros Hs He H.
  destruct (s =? 0) eqn:E1; bool_prop; [cbn in H; simplify_eq; ulia|].
  destruct (e =? 0) eqn:E2; bool_prop; [cbn in H; simplify_eq; ulia|]. cbn in H.
  destruct (e <? s) eqn:E3; bool_prop; [simplify_eq; ulia|].
  rewrite u64_small in H by ulia.
  destruct (max_i64 <? e - s) eqn:E4; bool_prop; simplify_eq; ulia.
Qed.
