(* ===== verification/Fingerprint.v ===== *)
(** * Packages features and fingerprint

    [Extract] splits an event into its stable dimensions and its volatile ones;
    [Compute] hashes the stable dimensions, field by field, into an identity. *)
From Stdlib Require Import Ascii.
From S2P Require Import Prelude GoText GoTime GoFloat Event.

Open Scope string_scope.
Open Scope Z_scope.

(** ** Features *)
Record StableFeatures : Type := {
  SF_ActorType : ActorType;
  SF_OperationCategory : OperationCategory;
  SF_OperationName : string;
  SF_TargetName : string;
  SF_TargetCategory : TargetCategory;
  SF_Environment : string;
}.

#[export] Instance StableFeatures_eq_dec : EqDecision StableFeatures.
Proof. solve_decision. Defined.
#[export] Instance StableFeatures_countable : Countable StableFeatures.
Proof.
  refine (inj_countable'
    (fun s => (SF_ActorType s, SF_OperationCategory s, SF_OperationName s, SF_TargetName s,
               SF_TargetCategory s, SF_Environment s))
    (fun '(a, b, c, d, e, f) => Build_StableFeatures a b c d e f) _).
  by intros [].
Defined.

Record VolatileFeatures : Type := {
  VF_Timestamp : time;
  VF_Latency : Z; (* time.Duration *)
  VF_HasLatency : bool;
  VF_Error : bool;
  VF_DelegatedFrom : string;
}.

Record Features : Type := { Stable : StableFeatures; Volatile : VolatileFeatures }.

Definition AttrDurationMS : string := "duration_ms".
Definition AttrError : string := "error".

(** A duration attribute in milliseconds, to nanoseconds: float arithmetic then
    truncation for floats, wrapping int64 arithmetic for integers. *)
Definition durationMillisAttr (attrs : gmap string attr) (key : string) : Z * bool :=
  match attrs !! key with
  | None => (0, false)
  | Some (AFloat64 n) => (to_i64 (n * 1000000)%float, true)
  | Some (AFloat32 n) => (to_i64 (n * 1000000)%float, true)
  | Some (AInt n) => (i64 (n * 1000000), true)
  | Some (AInt32 n) => (i64 (n * 1000000), true)
  | Some (AInt64 n) => (i64 (n * 1000000), true)
  | Some _ => (0, false)
  end.

Definition boolAttr (attrs : gmap string attr) (key : string) : bool :=
  match attrs !! key with
  | Some (ABool b) => b
  | _ => false
  end.

Definition Extract (e : Event) : Features :=
  let '(latency, hasLatency) := durationMillisAttr (Event_Attributes e) AttrDurationMS in
  {| Stable := {|
       SF_ActorType := Actor_Type (Event_Actor e);
       SF_OperationCategory := Operation_Category (Event_Operation e);
       SF_OperationName := Operation_Name (Event_Operation e);
       SF_TargetName := Target_Name (Event_Target e);
       SF_TargetCategory := Target_Category (Event_Target e);
       SF_Environment := Environment (Event_Context e) |};
     Volatile := {|
       VF_Timestamp := Event_Timestamp e;
       VF_Latency := latency;
       VF_HasLatency := hasLatency;
       VF_Error := boolAttr (Event_Attributes e) AttrError;
       VF_DelegatedFrom := DelegatedFrom (Event_Context e) |} |}.

(** ** Fingerprint *)
Record Fingerprint : Type := { FP_ID : string; FP_Stable : StableFeatures }.

Definition fingerprintVersion : string := "1".

(** hash/fnv, 64-bit FNV-1a. *)
Definition fnv_offset : Z := 14695981039346656037.
Definition fnv_prime : Z := 1099511628211.
Definition fnv_byte (h : Z) (a : ascii) : Z := u64 (Z.lxor h (byte_of a) * fnv_prime).
Fixpoint fnv_write (h : Z) (s : string) : Z :=
  match s with
  | EmptyString => h
  | String a s => fnv_write (fnv_byte h a) s
  end.

(** Writes the field and a NUL separator. *)
Definition writeField (h : Z) (s : string) : Z := fnv_write (fnv_write h s) (String "000" "").

Definition Compute_ (stable : StableFeatures) : Fingerprint :=
  let h := fnv_offset in
  let h := writeField h fingerprintVersion in
  let h := writeField h (SF_ActorType stable) in
  let h := writeField h (SF_OperationCategory stable) in
  let h := writeField h (SF_OperationName stable) in
  let h := writeField h (SF_TargetName stable) in
  let h := writeField h (SF_TargetCategory stable) in
  let h := writeField h (SF_Environment stable) in
  {| FP_ID := format_uint 16 h; FP_Stable := stable |}.

(** The published test vectors of FNV-1a. *)
Example fnv_a : format_uint 16 (fnv_write fnv_offset "a") = "af63dc4c8601ec8c".
Proof. vm_compute. reflexivity. Qed.
Example fnv_foobar : format_uint 16 (fnv_write fnv_offset "foobar") = "85944171f73967e8".
Proof. vm_compute. reflexivity. Qed.

(** ** What is hashed

    The hash reads one byte string: the fields, each ended by a NUL. *)
Definition NUL : ascii := "000"%char.
Definition field_bytes (s : string) : string := String.append s (String NUL "").
Definition fields_of (s : StableFeatures) : list string :=
  [fingerprintVersion; SF_ActorType s; SF_OperationCategory s; SF_OperationName s;
   SF_TargetName s; SF_TargetCategory s; SF_Environment s].
Definition preimage_of (l : list string) : string :=
  foldr (fun f acc => String.append (field_bytes f) acc) "" l.
Definition preimage (s : StableFeatures) : string := preimage_of (fields_of s).

Definition nul_free (s : StableFeatures) : Prop :=
  Forall (fun f => has_byte NUL f = false) (fields_of s).

Lemma fnv_write_app h s1 s2 : fnv_write h (String.append s1 s2) = fnv_write (fnv_write h s1) s2.
Proof. revert h. induction s1 as [|a s1 IH]; intros h; [done|]. apply IH. Qed.

Lemma writeField_bytes h s : writeField h s = fnv_write h (field_bytes s).
Proof. unfold writeField, field_bytes. by rewrite fnv_write_app. Qed.

Lemma Compute_preimage s :
  FP_ID (Compute_ s) = format_uint 16 (fnv_write fnv_offset (preimage s)).
Proof.
  unfold Compute_, preimage. cbn [FP_ID fields_of preimage_of foldr].
  rewrite !writeField_bytes, !fnv_write_app. done.
Qed.

Lemma fnv_write_range h s : is_u64 h -> is_u64 (fnv_write h s).
Proof. revert h. induction s as [|a s IH]; intros h H; [done|]. apply IH. apply u64_range. Qed.

(** A fingerprint id is hexadecimal text. *)
Lemma Compute_hex s : forall_bytes is_hex_digit (FP_ID (Compute_ s)) = true.
Proof.
  rewrite Compute_preimage. apply format_digits_all; [apply digit_char_is_hex|lia| |done].
  assert (is_u64 (fnv_write fnv_offset (preimage s))) as Hr by (apply fnv_write_range; by split). by destruct Hr.
Qed.
Lemma Compute_no_byte sep s : is_hex_digit sep = false -> has_byte sep (FP_ID (Compute_ s)) = false.
Proof. intros Hs. exact (forall_bytes_no_byte _ _ _ (Compute_hex s) Hs). Qed.

Lemma preimage_of_inj l1 l2 :
  length l1 = length l2 ->
  Forall (fun f => has_byte NUL f = false) l1 ->
  Forall (fun f => has_byte NUL f = false) l2 ->
  preimage_of l1 = preimage_of l2 -> l1 = l2.
Proof.
  revert l2. induction l1 as [|x l1 IH]; intros [|y l2]; try done.
  intros Hlen [Hx H1]%Forall_cons [Hy H2]%Forall_cons E.
  cbn [preimage_of foldr] in E. unfold field_bytes in E.
  rewrite !append_assoc in E.
  assert (Ec : cut (String.append x (String NUL (preimage_of l1))) NUL
             = cut (String.append y (String NUL (preimage_of l2))) NUL) by (f_equal; exact E).
  rewrite !cut_append in Ec by done. injection Ec as -> Ep.
  f_equal. apply IH; auto.
Qed.

(** ** Properties *)

(** The event with other operation and target names. *)
Definition with_names (ev : Event) (name target : string) : Event :=
  {| Event_ID := Event_ID ev; Event_Timestamp := Event_Timestamp ev; Event_Actor := Event_Actor ev;
     Event_Operation := {| Operation_Category := Operation_Category (Event_Operation ev); Operation_Name := name;
                           Operation_Direction := Operation_Direction (Event_Operation ev) |};
     Event_Target := {| Target_Name := target; Target_Category := Target_Category (Event_Target ev) |};
     Event_Attributes := Event_Attributes ev; Event_Context := Event_Context ev;
     Event_Execution := Event_Execution ev |}.

Lemma Extract_stable ev : Stable (Extract ev) =
  {| SF_ActorType := Actor_Type (Event_Actor ev); SF_OperationCategory := Operation_Category (Event_Operation ev);
     SF_OperationName := Operation_Name (Event_Operation ev); SF_TargetName := Target_Name (Event_Target ev);
     SF_TargetCategory := Target_Category (Event_Target ev); SF_Environment := Environment (Event_Context ev) |}.
Proof. unfold Extract. by destruct (durationMillisAttr _ _). Qed.
Lemma append_longer a z b : String.append a (String z b) <> a.
Proof. induction a as [|x a IH]; [done|]. change (String x (String.append a (String z b)) <> String x a). congruence. Qed.

Definition sample_stable (name target : string) : StableFeatures :=
  {| SF_ActorType := "service"; SF_OperationCategory := "http"; SF_OperationName := name;
     SF_TargetName := target; SF_TargetCategory := ""; SF_Environment := "prod" |}.

Definition sample_event (name target : string) : Event :=
  {| Event_ID := "e"; Event_Timestamp := Time (63839664000 * 10^9) 0;
     Event_Actor := {| Actor_ID := "svc"; Actor_Type := "service";
                       Actor_IdentityConfidence := 0.5%float |};
     Event_Operation := {| Operation_Category := "http"; Operation_Name := name;
                           Operation_Direction := "" |};
     Event_Target := {| Target_Name := target; Target_Category := "" |};
     Event_Attributes := ∅;
     Event_Context := {| Environment := "prod"; TraceID := ""; SpanID := ""; SessionID := "";
        DelegatedFrom := ""; Context_ApprovalStatus := ""; ParentSpanID := "";
        Context_SpanLineage := "" |};
     Event_Execution := {| DurationNanos := 0; DurationObserved := false; Execution_Status := "" |} |}.

(** C40: what a fingerprint identifies.  The id is the FNV-1a hash of one framed byte string
    over all six stable features.  On features that hold no NUL byte the framing is
    injective, so no field boundary shifts into a neighbour.  Names may hold one, though,
    and then it is not: whatever the event and the names, moving the part of the operation
    name after a NUL in front of the target name makes a different event, which is valid
    when the first is, with the very same fingerprint. *)
Theorem fingerprint_nul_collision :
  (forall s, FP_ID (Compute_ s) = format_uint 16 (fnv_write fnv_offset (preimage s))) /\
  (forall s1 s2, nul_free s1 -> nul_free s2 -> (preimage s1 = preimage s2 <-> s1 = s2)) /\
  (forall ev name part target, name <> "" ->
     let e1 := with_names ev (String.append name (String NUL part)) target in
     let e2 := with_names ev name (String.append part (String NUL target)) in
     Event_Validate e1 = Event_Validate e2 /\ Stable (Extract e1) <> Stable (Extract e2) /\
     FP_ID (Compute_ (Stable (Extract e1))) = FP_ID (Compute_ (Stable (Extract e2)))).
Proof.
  split; [exact Compute_preimage|]. split.
  - intros s1 s2 H1 H2. split; [|by intros ->]. intros E. apply preimage_of_inj in E; [|done..].
    destruct s1, s2. injection E. intros. by subst.
  - intros ev name part target Hne. cbv zeta. rewrite !Extract_stable. split; [|split].
    + unfold Event_Validate, Operation_validate. cbn [with_names Event_ID Event_Timestamp Event_Actor Event_Operation
        Event_Execution Operation_Category Operation_Name Operation_Direction].
      rewrite (proj2 (String.eqb_neq name "") Hne).
      assert ((String.append name (String NUL part) =s "")%go = false) as -> by by destruct name.
      reflexivity.
    + intros E%(f_equal SF_OperationName). by apply append_longer in E.
    + rewrite !Compute_preimage. apply (f_equal (fun p => format_uint 16 (fnv_write fnv_offset p))). unfold preimage, fields_of, preimage_of, field_bytes.
      cbn [foldr with_names Event_Operation Event_Target Event_Actor Event_Context Operation_Category Operation_Name Target_Name
        Target_Category SF_ActorType SF_OperationCategory SF_OperationName SF_TargetName SF_TargetCategory SF_Environment].
      rewrite !append_assoc. reflexivity.
Qed.

Lemma fingerprint_nul_collision_witness :
  let e1 := with_names (sample_event "" "") (String.append "a" (String NUL "b")) "c" in
  let e2 := with_names (sample_event "" "") "a" (String.append "b" (String NUL "c")) in
  Event_Validate e2 = Ok tt /\ Event_Validate e1 = Event_Validate e2 /\ e1 <> e2.
Proof.
  destruct fingerprint_nul_collision as (_ & _ & H). destruct (H (sample_event "" "") "a" "b" "c") as (H1 & H2 & _); [done|].
  cbv zeta. split; [by vm_compute|]. split; [exact H1|]. intros E. apply H2. by rewrite E.
Defined.
