(* ===== verification/Baseline.v ===== *)
(** * Package baseline

    The learned model of one actor: per-fingerprint statistics and the sequence and
    delegation memory around them.  [observe] and [Observe] are the package's two
    state transitions; a Baseline is a value, never mutated in place (every map is
    copied before it is written), so functional maps model it. *)
From Stdlib Require Import Ascii.
From S2P Require Import Prelude GoText GoTime GoFloat FloatBounds Event Fingerprint.

Open Scope string_scope.
Open Scope Z_scope.

Definition emaAlpha : float := 0x1.999999999999ap-3%float. (* 0.2 *)
Definition one_minus_emaAlpha : float := 0x1.999999999999ap-1%float. (* 1 - emaAlpha, 0.8 *)
Definition hourActivityAlpha : float := 0x1.47ae147ae147bp-6%float. (* 0.02 *)
Definition maxPredecessors : Z := 64.
Definition maxTrigramPredecessors : Z := 64.
Definition maxDelegators : Z := 64.
Definition maxFingerprints : Z := 512.

(** ** Keys *)
Record TrigramKey : Type := { First : string; Second : string }.

#[export] Instance TrigramKey_eq_dec : EqDecision TrigramKey.
Proof. solve_decision. Defined.
#[export] Instance TrigramKey_countable : Countable TrigramKey.
Proof.
  refine (inj_countable' (fun k => (First k, Second k)) (fun '(a, b) => Build_TrigramKey a b) _).
  by intros [].
Defined.

Definition trigramKeySeparator : ascii := "|"%char.

Definition TrigramKey_MarshalText (k : TrigramKey) : string :=
  String.append (First k) (String trigramKeySeparator (Second k)).

Definition TrigramKey_UnmarshalText (text : string) : res TrigramKey :=
  let '(first, second, ok) := cut text trigramKeySeparator in
  if negb ok then Err [] else Ok {| First := first; Second := second |}.

Record Key : Type := { Key_Scope : string; Key_ActorID : string; Key_Environment : string }.

#[export] Instance Key_eq_dec : EqDecision Key.
Proof. solve_decision. Defined.
#[export] Instance Key_countable : Countable Key.
Proof.
  refine (inj_countable' (fun k => (Key_Scope k, Key_ActorID k, Key_Environment k))
            (fun '(a, b, c) => Build_Key a b c) _).
  by intros [].
Defined.

(** ** FingerprintStats *)
Record FingerprintStats : Type := {
  Count : Z; (* uint64 *)
  FirstObserved : time;
  LastObserved : time;
  LatencyObservations : Z;
  LatencyMean : float;
  LatencyVariance : float;
  IntervalObservations : Z;
  IntervalMean : float;
  IntervalVariance : float;
  ErrorRate : float;
  TimePatternObservations : Z;
  HourActivity : list float; (* [24]float64 *)
  FS_Stable : StableFeatures;
  PredecessorCounts : gmap string Z;
  OutgoingTransitionTotal : Z;
  TrigramCounts : gmap TrigramKey Z;
  TrigramContinuationTotal : gmap string Z;
}.

Definition zero_stable : StableFeatures :=
  {| SF_ActorType := ""; SF_OperationCategory := ""; SF_OperationName := "";
     SF_TargetName := ""; SF_TargetCategory := ""; SF_Environment := "" |}.

(** The zero value a Go map yields for a missing key. *)
Definition zero_stats : FingerprintStats :=
  {| Count := 0; FirstObserved := zero_time; LastObserved := zero_time;
     LatencyObservations := 0; LatencyMean := 0%float; LatencyVariance := 0%float;
     IntervalObservations := 0; IntervalMean := 0%float; IntervalVariance := 0%float;
     ErrorRate := 0%float; TimePatternObservations := 0;
     HourActivity := replicate 24 0%float; FS_Stable := zero_stable;
     PredecessorCounts := ∅; OutgoingTransitionTotal := 0;
     TrigramCounts := ∅; TrigramContinuationTotal := ∅ |}.

(** Reading a map, zero when the key is missing. *)
Definition at_key `{Countable K} (m : gmap K Z) (k : K) : Z := default 0 (m !! k).

Definition map_len `{Countable K} {A} (m : gmap K A) : Z := Z.of_nat (size m).

(** A counter map with room for [bound] keys: a new key beyond them is refused. *)
Definition record_bounded `{Countable K} (bound : Z) (counts : gmap K Z) (k : K) : gmap K Z :=
  match counts !! k with
  | None => if bound <=? map_len counts then counts else <[k := u64 (at_key counts k + 1)]> counts
  | Some _ => <[k := u64 (at_key counts k + 1)]> counts
  end.

Definition recordPredecessor (counts : gmap string Z) (predecessor : string) : gmap string Z :=
  record_bounded maxPredecessors counts predecessor.
Definition recordTrigram (counts : gmap TrigramKey Z) (key : TrigramKey) : gmap TrigramKey Z :=
  record_bounded maxTrigramPredecessors counts key.
Definition recordTrigramContinuation (counts : gmap string Z) (grandparent : string) : gmap string Z :=
  record_bounded maxTrigramPredecessors counts grandparent.
Definition recordDelegator (counts : gmap string Z) (delegator : string) : gmap string Z :=
  record_bounded maxDelegators counts delegator.

(** [s.OutgoingTransitionTotal++]. *)
Definition observeOutgoingTransition (s : FingerprintStats) : FingerprintStats :=
  {| Count := Count s; FirstObserved := FirstObserved s; LastObserved := LastObserved s;
     LatencyObservations := LatencyObservations s; LatencyMean := LatencyMean s;
     LatencyVariance := LatencyVariance s; IntervalObservations := IntervalObservations s;
     IntervalMean := IntervalMean s; IntervalVariance := IntervalVariance s;
     ErrorRate := ErrorRate s; TimePatternObservations := TimePatternObservations s;
     HourActivity := HourActivity s; FS_Stable := FS_Stable s;
     PredecessorCounts := PredecessorCounts s;
     OutgoingTransitionTotal := u64 (OutgoingTransitionTotal s + 1);
     TrigramCounts := TrigramCounts s; TrigramContinuationTotal := TrigramContinuationTotal s |}.

Definition observeTrigramContinuation (s : FingerprintStats) (grandparent : string) : FingerprintStats :=
  {| Count := Count s; FirstObserved := FirstObserved s; LastObserved := LastObserved s;
     LatencyObservations := LatencyObservations s; LatencyMean := LatencyMean s;
     LatencyVariance := LatencyVariance s; IntervalObservations := IntervalObservations s;
     IntervalMean := IntervalMean s; IntervalVariance := IntervalVariance s;
     ErrorRate := ErrorRate s; TimePatternObservations := TimePatternObservations s;
     HourActivity := HourActivity s; FS_Stable := FS_Stable s;
     PredecessorCounts := PredecessorCounts s;
     OutgoingTransitionTotal := OutgoingTransitionTotal s;
     TrigramCounts := TrigramCounts s;
     TrigramContinuationTotal :=
       recordTrigramContinuation (TrigramContinuationTotal s) grandparent |}.

Definition LatencyMeanDuration (s : FingerprintStats) : Z := to_i64 (LatencyMean s).
Definition LatencyStdDevDuration (s : FingerprintStats) : Z :=
  if LatencyObservations s =? 0 then 0 else to_i64 (PrimFloat.sqrt (LatencyVariance s)).

Definition IsStale (s : FingerprintStats) (now : time) (maxAge : Z) : bool :=
  if Count s =? 0 then false else maxAge <? time_sub now (LastObserved s).

(** An exponentially weighted mean and variance over [n] earlier observations. *)
Definition ewma_mean_var (n : Z) (mean var x : float) : float * float :=
  if n =? 0 then (x, 0%float)
  else
    let delta := (x - mean)%float in
    ((mean + emaAlpha * delta)%float,
     (one_minus_emaAlpha * (var + emaAlpha * delta * delta))%float).

(** One observation of hour [hour]: a delta at first, then a decaying step. *)
Definition observe_hours (n : Z) (hours : list float) (hour : Z) : list float :=
  if n =? 0 then
    imap (fun h _ => sample (Z.eqb (Z.of_nat h) hour)) hours
  else
    imap (fun h v => (v + hourActivityAlpha * (sample (Z.eqb (Z.of_nat h) hour) - v))%float) hours.

Definition observe (s : FingerprintStats) (stable : StableFeatures) (vol : VolatileFeatures)
    (now : time) (predecessor grandparent : string) : FingerprintStats :=
  let firstObserved := if Count s =? 0 then now else FirstObserved s in
  let interval := negb (Count s =? 0) && time_after now (LastObserved s) in
  let '(intervalMean, intervalVariance) :=
    if interval then
      ewma_mean_var (IntervalObservations s) (IntervalMean s) (IntervalVariance s)
        (of_Z (time_sub now (LastObserved s)))
    else (IntervalMean s, IntervalVariance s) in
  let intervalObservations :=
    if interval then u64 (IntervalObservations s + 1) else IntervalObservations s in
  let count := u64 (Count s + 1) in
  let lastObserved := if time_after now (LastObserved s) then now else LastObserved s in
  let hours := observe_hours (TimePatternObservations s) (HourActivity s) (utc_hour now) in
  let '(latencyMean, latencyVariance) :=
    if VF_HasLatency vol then
      ewma_mean_var (LatencyObservations s) (LatencyMean s) (LatencyVariance s)
        (of_Z (VF_Latency vol))
    else (LatencyMean s, LatencyVariance s) in
  let latencyObservations :=
    if VF_HasLatency vol then u64 (LatencyObservations s + 1) else LatencyObservations s in
  let errSample := sample (VF_Error vol) in
  let errorRate :=
    if count =? 1 then errSample
    else (ErrorRate s + emaAlpha * (errSample - ErrorRate s))%float in
  let predecessorCounts :=
    if predecessor <>s "" then recordPredecessor (PredecessorCounts s) predecessor
    else PredecessorCounts s in
  let trigramCounts :=
    if (predecessor <>s "") && (grandparent <>s "")
    then recordTrigram (TrigramCounts s) {| First := grandparent; Second := predecessor |}
    else TrigramCounts s in
  {| Count := count; FirstObserved := firstObserved; LastObserved := lastObserved;
     LatencyObservations := latencyObservations; LatencyMean := latencyMean;
     LatencyVariance := latencyVariance; IntervalObservations := intervalObservations;
     IntervalMean := intervalMean; IntervalVariance := intervalVariance;
     ErrorRate := errorRate;
     TimePatternObservations := u64 (TimePatternObservations s + 1);
     HourActivity := hours; FS_Stable := stable;
     PredecessorCounts := predecessorCounts;
     OutgoingTransitionTotal := OutgoingTransitionTotal s;
     TrigramCounts := trigramCounts;
     TrigramContinuationTotal := TrigramContinuationTotal s |}.

(** ** Baseline *)
Record Baseline : Type := {
  BL_Key : Key;
  Fingerprints : gmap string FingerprintStats;
  BL_LastObserved : time;
  LastFingerprintID : string;
  LastFingerprintTime : time;
  PreviousFingerprintID : string;
  DelegatorCounts : gmap string Z;
}.

Definition New (key : Key) : Baseline :=
  {| BL_Key := key; Fingerprints := ∅; BL_LastObserved := zero_time;
     LastFingerprintID := ""; LastFingerprintTime := zero_time;
     PreviousFingerprintID := ""; DelegatorCounts := ∅ |}.

(** Reading the fingerprint map, the zero stats when missing. *)
Definition stats_at (m : gmap string FingerprintStats) (id : string) : FingerprintStats :=
  default zero_stats (m !! id).

(** The observation is a transition from the last fingerprint only when it strictly
    follows it; the sequence window advances then, or when it is empty. *)
Definition advances (b : Baseline) (now : time) : bool :=
  (LastFingerprintID b =s "") || time_after now (LastFingerprintTime b).
Definition validTransition (b : Baseline) (now : time) : bool :=
  (LastFingerprintID b <>s "") && time_after now (LastFingerprintTime b).
Definition predecessor_of (b : Baseline) (now : time) : string :=
  if validTransition b now then LastFingerprintID b else "".
Definition grandparent_of (b : Baseline) (now : time) : string :=
  if validTransition b now then PreviousFingerprintID b else "".

(** Admission control: a known fingerprint, or room for one more. *)
Definition admits (b : Baseline) (fp : Fingerprint) : bool :=
  bool_decide (is_Some (Fingerprints b !! FP_ID fp)) || (map_len (Fingerprints b) <? maxFingerprints).

(** The predecessor's own counters. *)
Definition observe_as_predecessor (grandparent : string) (st : FingerprintStats) : FingerprintStats :=
  let st := observeOutgoingTransition st in
  if grandparent <>s "" then observeTrigramContinuation st grandparent else st.

Definition Observe (b : Baseline) (fp : Fingerprint) (vol : VolatileFeatures) (now : time)
    : Baseline * bool :=
  let predecessor := predecessor_of b now in
  let grandparent := grandparent_of b now in
  let admitted_now := admits b fp in
  let next := Fingerprints b in
  let next :=
    if admitted_now then
      <[FP_ID fp := observe (stats_at next (FP_ID fp)) (FP_Stable fp) vol now predecessor grandparent]> next
    else next in
  let next :=
    if predecessor <>s "" then
      match next !! predecessor with
      | Some st => <[predecessor := observe_as_predecessor grandparent st]> next
      | None => next
      end
    else next in
  let delegatorCounts :=
    if VF_DelegatedFrom vol <>s "" then recordDelegator (DelegatorCounts b) (VF_DelegatedFrom vol)
    else DelegatorCounts b in
  ({| BL_Key := BL_Key b; Fingerprints := next; BL_LastObserved := now;
      LastFingerprintID := if advances b now && admitted_now then FP_ID fp else LastFingerprintID b;
      LastFingerprintTime := if advances b now && admitted_now then now else LastFingerprintTime b;
      PreviousFingerprintID :=
        if advances b now && admitted_now then LastFingerprintID b else PreviousFingerprintID b;
      DelegatorCounts := delegatorCounts |}, admitted_now).

(** A history of observations, oldest first. *)
Definition observation : Type := Fingerprint * VolatileFeatures * time.
Definition observe_all (b : Baseline) (l : list observation) : Baseline :=
  foldl (fun b '(fp, vol, now) => fst (Observe b fp vol now)) b l.

(** ** Lemmas on the transitions *)
Lemma record_bounded_size `{Countable K} bound (m : gmap K Z) k :
  map_len m <= bound -> map_len (record_bounded bound m k) <= bound.
Proof.
  unfold record_bounded, map_len. intros Hb. destruct (m !! k) eqn:E.
  - by rewrite map_size_insert_Some by eauto.
  - destruct (bound <=? _) eqn:Eb; bool_prop; [done|].
    rewrite map_size_insert_None by done. lia.
Qed.

(** Recording adds one to a key that is, or becomes, tracked; nothing is forgotten. *)
Lemma at_key_record `{Countable K} bound (m : gmap K Z) k k' :
  at_key (record_bounded bound m k) k' =
    if decide (k' = k) then
      if decide (is_Some (m !! k) \/ map_len m < bound) then u64 (at_key m k + 1) else at_key m k
    else at_key m k'.
Proof.
  unfold record_bounded, at_key. destruct (decide (k' = k)) as [->|Hne].
  - destruct (m !! k) eqn:E.
    + rewrite lookup_insert_eq, decide_True by eauto. done.
    + destruct (bound <=? map_len m) eqn:Eb; bool_prop.
      * rewrite decide_False by (intros [[? ?]|?]; [done|lia]). by rewrite E.
      * rewrite lookup_insert_eq, decide_True by (right; lia). done.
  - destruct (m !! k); [by rewrite lookup_insert_ne|].
    destruct (_ <=? _); [done|by rewrite lookup_insert_ne].
Qed.

Lemma Observe_lookup b fp vol now id :
  Fingerprints (fst (Observe b fp vol now)) !! id =
    let st := if admits b fp && bool_decide (id = FP_ID fp) then
                Some (observe (stats_at (Fingerprints b) id) (FP_Stable fp) vol now
                        (predecessor_of b now) (grandparent_of b now))
              else Fingerprints b !! id in
    if (predecessor_of b now <>s "") && bool_decide (id = predecessor_of b now)
    then observe_as_predecessor (grandparent_of b now) <$> st else st.
Proof.
  unfold Observe. cbn [fst Fingerprints].
  set (pred := predecessor_of b now). set (grand := grandparent_of b now).
  set (new := observe _ _ _ _ _ _).
  set (next := if admits b fp then _ else _).
  assert (Hnext : forall i, next !! i = if admits b fp && bool_decide (i = FP_ID fp)
            then Some new else Fingerprints b !! i).
  { intros i. unfold next. destruct (admits b fp); cbn [andb]; [|done].
    case_bool_decide as Ei; [subst i; apply lookup_insert_eq|by rewrite lookup_insert_ne]. }
  assert (Hst : (if admits b fp && bool_decide (id = FP_ID fp) then
                Some (observe (stats_at (Fingerprints b) id) (FP_Stable fp) vol now pred grand)
              else Fingerprints b !! id) = next !! id).
  { rewrite Hnext. destruct (admits b fp); cbn [andb]; [|done].
    case_bool_decide as Ei; [by subst id|done]. }
  cbn zeta. rewrite Hst. clear Hst. destruct (pred <>s "")%go; cbn [andb]; [|done].
  case_bool_decide as Ep.
  - subst id. destruct (next !! pred) eqn:En; [by rewrite lookup_insert_eq|by rewrite En].
  - destruct (next !! pred); [by rewrite lookup_insert_ne|done].
Qed.

Lemma Observe_dom b fp vol now :
  dom (Fingerprints (fst (Observe b fp vol now))) =
    (if admits b fp then {[FP_ID fp]} else ∅) ∪ dom (Fingerprints b).
Proof.
  apply set_eq. intros id. rewrite elem_of_dom, Observe_lookup. cbn zeta.
  assert (Hf : forall (o : option FingerprintStats) (c : bool) f,
             is_Some (if c then f <$> o else o) <-> is_Some o).
  { intros o [] f; [apply fmap_is_Some|done]. }
  rewrite Hf, elem_of_union, elem_of_dom.
  destruct (admits b fp); cbn [andb]; [|set_solver].
  case_bool_decide; [set_solver|]. set_solver.
Qed.

Lemma Observe_window b fp vol now :
  LastFingerprintID (fst (Observe b fp vol now)) =
    (if advances b now && admits b fp then FP_ID fp else LastFingerprintID b).
Proof. done. Qed.
Lemma Observe_window_prev b fp vol now :
  PreviousFingerprintID (fst (Observe b fp vol now)) =
    (if advances b now && admits b fp then LastFingerprintID b else PreviousFingerprintID b).
Proof. done. Qed.
Lemma Observe_window_time b fp vol now :
  LastFingerprintTime (fst (Observe b fp vol now)) =
    (if advances b now && admits b fp then now else LastFingerprintTime b).
Proof. done. Qed.

(** ** The well-formedness invariant *)
Definition stats_ok (s : FingerprintStats) : Prop :=
  map_len (PredecessorCounts s) <= maxPredecessors /\
  map_len (TrigramCounts s) <= maxTrigramPredecessors /\
  map_len (TrigramContinuationTotal s) <= maxTrigramPredecessors /\
  in01 (ErrorRate s) /\
  length (HourActivity s) = 24%nat /\ Forall in01 (HourActivity s) /\
  is_u64 (Count s) /\ is_u64 (LatencyObservations s) /\ is_u64 (IntervalObservations s) /\
  is_u64 (TimePatternObservations s) /\ is_u64 (OutgoingTransitionTotal s).

(** A fingerprint the sequence window names is one the baseline holds. *)
Definition tracked_or_empty (b : Baseline) (id : string) : Prop :=
  id = "" \/ is_Some (Fingerprints b !! id).

Definition baseline_ok (b : Baseline) : Prop :=
  map_len (Fingerprints b) <= maxFingerprints /\
  map_len (DelegatorCounts b) <= maxDelegators /\
  (forall id st, Fingerprints b !! id = Some st -> stats_ok st) /\
  tracked_or_empty b (LastFingerprintID b) /\ tracked_or_empty b (PreviousFingerprintID b).

Lemma alpha_ok : in01 emaAlpha /\ V emaAlpha <= V 0.5%float.
Proof. split; [done|by vm_compute]. Qed.
Lemma hour_alpha_ok : in01 hourActivityAlpha /\ V hourActivityAlpha <= V 0.5%float.
Proof. split; [done|by vm_compute]. Qed.

Lemma zero_stats_ok : stats_ok zero_stats.
Proof. repeat split; try done; try ulia. all: repeat constructor. Qed.

Lemma stats_at_ok b id :
  (forall id st, Fingerprints b !! id = Some st -> stats_ok st) -> stats_ok (stats_at (Fingerprints b) id).
Proof.
  intros H. unfold stats_at. destruct (Fingerprints b !! id) eqn:E; cbn; [eauto|apply zero_stats_ok].
Qed.

Lemma Forall_imap {A B} (P : A -> Prop) (Q : B -> Prop) (f : nat -> A -> B) l :
  (forall i x, P x -> Q (f i x)) -> Forall P l -> Forall Q (imap f l).
Proof.
  intros Hf Hl. revert f Hf. induction Hl as [|x l Hx Hl IH]; intros f Hf; cbn; constructor.
  - by apply Hf.
  - apply IH. intros i y Hy. by apply Hf.
Qed.

Lemma observe_hours_ok n hours hour :
  length hours = 24%nat -> Forall in01 hours ->
  length (observe_hours n hours hour) = 24%nat /\ Forall in01 (observe_hours n hours hour).
Proof.
  intros Hl Hf. unfold observe_hours. destruct (n =? 0); (split; [by rewrite length_imap|]).
  - eapply Forall_imap; [|exact Hf]. intros. apply sample_in01.
  - eapply Forall_imap; [|exact Hf]. cbn. intros i x Hx.
    destruct hour_alpha_ok. by apply ewma_in01.
Qed.

Lemma observe_ok s stable vol now p g : stats_ok s -> stats_ok (observe s stable vol now p g).
Proof.
  intros (H1 & H2 & H3 & H4 & H5 & H6 & H7 & H8 & H9 & H10 & H11). unfold observe.
  destruct (if negb (Count s =? 0) && _ then _ else _) as [im iv].
  destruct (if VF_HasLatency vol then _ else _) as [lm lv].
  destruct (observe_hours_ok (TimePatternObservations s) (HourActivity s) (utc_hour now)) as [Hl Hf];
    [done..|].
  unfold stats_ok; cbn. repeat split; auto with go; try by apply u64_range.
  - destruct (p <>s "")%go; [by apply record_bounded_size|done].
  - destruct (_ && _); [by apply record_bounded_size|done].
  - destruct alpha_ok. destruct (_ =? 1); [apply sample_in01|by apply ewma_in01].
  - destruct (VF_HasLatency vol); [apply u64_range|apply H8].
  - destruct (VF_HasLatency vol); [apply u64_range|apply H8].
  - destruct (_ && _); [apply u64_range|apply H9].
  - destruct (_ && _); [apply u64_range|apply H9].
  - apply H11.
  - apply H11.
Qed.

Lemma observe_as_predecessor_ok g s : stats_ok s -> stats_ok (observe_as_predecessor g s).
Proof.
  intros (H1 & H2 & H3 & H4 & H5 & H6 & H7 & H8 & H9 & H10 & H11).
  unfold observe_as_predecessor, observeTrigramContinuation, observeOutgoingTransition.
  destruct (g <>s "")%go; unfold stats_ok; cbn; repeat split; auto; try apply u64_range;
    try ulia; try by apply record_bounded_size.
Qed.

Lemma New_ok key : baseline_ok (New key).
Proof.
  unfold baseline_ok, tracked_or_empty, maxFingerprints, maxDelegators. cbn.
  repeat split; try done; try ulia; auto.
Qed.

Lemma Observe_ok b fp vol now : baseline_ok b -> baseline_ok (fst (Observe b fp vol now)).
Proof.
  intros (Hsize & Hdel & Hst & Hlast & Hprev).
  assert (Hmono : forall id, tracked_or_empty b id -> tracked_or_empty (fst (Observe b fp vol now)) id).
  { intros id [->|H]; [by left|right]. apply elem_of_dom. rewrite Observe_dom.
    apply elem_of_union_r. by apply elem_of_dom. }
  split; [|split; [|split; [|split]]].
  - unfold map_len. rewrite <- size_dom, Observe_dom. unfold admits.
    unfold map_len in *. destruct (bool_decide _) eqn:E; bool_prop; cbn [orb].
    + replace ({[FP_ID fp]} ∪ dom (Fingerprints b)) with (dom (Fingerprints b)); [by rewrite size_dom|].
      apply elem_of_dom in E. set_solver.
    + destruct (_ <? _) eqn:E2; bool_prop.
      * rewrite size_union, size_singleton, size_dom by
          (apply disjoint_singleton_l; by rewrite elem_of_dom). lia.
      * replace (∅ ∪ dom (Fingerprints b)) with (dom (Fingerprints b)) by set_solver.
        by rewrite size_dom.
  - cbn. destruct (_ <>s "")%go; [by apply record_bounded_size|done].
  - intros id st. rewrite Observe_lookup. cbn zeta.
    set (st0 := if admits b fp && bool_decide (id = FP_ID fp) then _ else _).
    assert (Hs : forall st, st0 = Some st -> stats_ok st).
    { intros st' H. unfold st0 in H. destruct (_ && _); [|by eauto].
      simplify_eq. apply observe_ok. by apply stats_at_ok. }
    destruct (_ && bool_decide (id = predecessor_of _ _)); [|apply Hs].
    intros (st' & H & ->)%fmap_Some. apply observe_as_predecessor_ok. by apply Hs.
  - rewrite Observe_window. cbn [fst]. destruct (advances b now && admits b fp) eqn:E; [|by apply Hmono].
    right. apply elem_of_dom. rewrite Observe_dom. bool_prop.
    match goal with H : admits b fp = true |- _ => rewrite H end. set_solver.
  - rewrite Observe_window_prev. destruct (_ && _); by apply Hmono.
Qed.

Lemma observe_all_ok b l : baseline_ok b -> baseline_ok (observe_all b l).
Proof.
  revert b. induction l as [|[[fp vol] now] l IH]; intros b Hb; [done|].
  apply IH. by apply Observe_ok.
Qed.

Lemma observe_all_snoc b l fp vol now :
  observe_all b (l ++ [(fp, vol, now)]) = fst (Observe (observe_all b l) fp vol now).
Proof. unfold observe_all. by rewrite foldl_app. Qed.

(** ** Sums over a map of statistics *)
Definition msum (f : FingerprintStats -> Z) (m : gmap string FingerprintStats) : Z :=
  map_fold (fun _ st acc => f st + acc) 0 m.

Lemma msum_insert_fresh f m k st : m !! k = None -> msum f (<[k := st]> m) = f st + msum f m.
Proof. intros H. unfold msum. rewrite map_fold_insert_L; [done|intros; lia|done]. Qed.

Lemma msum_insert f m k st :
  f zero_stats = 0 -> msum f (<[k := st]> m) = msum f m - f (stats_at m k) + f st.
Proof.
  intros H0. unfold stats_at. destruct (m !! k) as [old|] eqn:E; cbn.
  - rewrite <- insert_delete_eq, msum_insert_fresh by apply lookup_delete_eq.
    rewrite <- (insert_delete_id m k old E) at 2.
    rewrite msum_insert_fresh by apply lookup_delete_eq. lia.
  - rewrite msum_insert_fresh by done. lia.
Qed.

Lemma msum_nonneg f m : (forall id st, m !! id = Some st -> 0 <= f st) -> 0 <= msum f m.
Proof.
  unfold msum. revert m. refine (map_fold_weak_ind (fun acc m => (forall id st, m !! id = Some st -> 0 <= f st) -> 0 <= acc) _ 0 _ _).
  - done.
  - intros i x m r Hi IH H. assert (0 <= f x) by (apply (H i); apply lookup_insert_eq).
    assert (0 <= r); [|lia]. apply IH. intros id st Hid. apply (H id).
    rewrite lookup_insert_ne by congruence. done.
Qed.

(** The map after the admission step of [Observe], and after the predecessor's. *)
Definition admitted_map (b : Baseline) (fp : Fingerprint) (vol : VolatileFeatures) (now : time)
    : gmap string FingerprintStats :=
  if admits b fp then
    <[FP_ID fp := observe (stats_at (Fingerprints b) (FP_ID fp)) (FP_Stable fp) vol now
                    (predecessor_of b now) (grandparent_of b now)]> (Fingerprints b)
  else Fingerprints b.

Lemma Observe_msum f b fp vol now :
  f zero_stats = 0 -> (forall g st, f (observe_as_predecessor g st) = f st) ->
  msum f (Fingerprints (fst (Observe b fp vol now))) = msum f (admitted_map b fp vol now).
Proof.
  intros H0 Hf. unfold Observe. cbn [fst Fingerprints]. fold (admitted_map b fp vol now).
  destruct (_ <>s _)%go; [|done].
  destruct (admitted_map b fp vol now !! predecessor_of b now) as [st|] eqn:E; [|done].
  rewrite msum_insert, Hf by done. unfold stats_at. rewrite E. cbn. lia.
Qed.

Lemma predecessor_tracked b now :
  baseline_ok b -> predecessor_of b now <> "" -> is_Some (Fingerprints b !! predecessor_of b now).
Proof.
  intros (_ & _ & _ & [H|H] & _) Hp; unfold predecessor_of in *; destruct (validTransition b now); congruence.
Qed.

Lemma Observe_stats_at b fp vol now id :
  baseline_ok b ->
  stats_at (Fingerprints (fst (Observe b fp vol now))) id =
    let st := if admits b fp && bool_decide (id = FP_ID fp) then
                observe (stats_at (Fingerprints b) id) (FP_Stable fp) vol now
                        (predecessor_of b now) (grandparent_of b now)
              else stats_at (Fingerprints b) id in
    if (predecessor_of b now <>s "")%go && bool_decide (id = predecessor_of b now)
    then observe_as_predecessor (grandparent_of b now) st else st.
Proof.
  intros Hb. unfold stats_at at 1. rewrite Observe_lookup. cbn zeta.
  destruct (_ <>s _)%go eqn:Ep; cbn [andb].
  - case_bool_decide as Eid.
    + subst id. bool_prop. destruct (predecessor_tracked b now Hb Ep) as [st Hst].
      destruct (admits b fp); cbn [andb]; [case_bool_decide|]; unfold stats_at; rewrite ?Hst; done.
    + destruct (_ && _); done.
  - destruct (_ && _); done.
Qed.

(** ** Consistency of the transition counters *)
Definition bigram_count (p : string) (st : FingerprintStats) : Z := at_key (PredecessorCounts st) p.
Definition trigram_count (g p : string) (st : FingerprintStats) : Z :=
  at_key (TrigramCounts st) {| First := g; Second := p |}.
Definition outgoing (b : Baseline) (p : string) : Z :=
  OutgoingTransitionTotal (stats_at (Fingerprints b) p).
Definition continuations (b : Baseline) (p : string) : gmap string Z :=
  TrigramContinuationTotal (stats_at (Fingerprints b) p).

Definition nonneg_counts (st : FingerprintStats) : Prop :=
  (forall p, 0 <= bigram_count p st) /\ (forall g p, 0 <= trigram_count g p st).

Record transitions_ok (n : Z) (b : Baseline) : Prop := {
  tr_nonneg : forall id, nonneg_counts (stats_at (Fingerprints b) id);
  tr_bigram : forall p, msum (bigram_count p) (Fingerprints b) <= outgoing b p <= n;
  tr_bound : forall p g, 0 <= at_key (continuations b p) g <= n;
  tr_trigram : forall p g,
    msum (trigram_count g p) (Fingerprints b) <= at_key (continuations b p) g \/
    continuations b p !! g = None /\ map_len (continuations b p) = maxTrigramPredecessors;
}.

Lemma u64_succ_le x : 0 <= x -> 0 <= u64 (x + 1) <= x + 1.
Proof. intros H. unfold u64. split; [apply Z.mod_pos_bound|apply Z.mod_le]; lia. Qed.

Lemma at_key_record_le `{Countable K} bound (m : gmap K Z) k k' :
  0 <= at_key m k' ->
  0 <= at_key (record_bounded bound m k) k' <= at_key m k' + (if decide (k' = k) then 1 else 0).
Proof.
  intros H0. rewrite at_key_record. destruct (decide (k' = k)) as [->|]; [|lia].
  destruct (decide _); [by apply u64_succ_le|lia].
Qed.

(** The two pairs of running moments, opened. *)
Ltac observe_unfold :=
  unfold observe;
  destruct (if negb _ && _ then _ else _) as [? ?];
  destruct (if VF_HasLatency _ then ewma_mean_var _ _ _ _ else _) as [? ?]; try done.

Lemma observe_PredecessorCounts s stable vol now p g :
  PredecessorCounts (observe s stable vol now p g) =
    if (p <>s "")%go then recordPredecessor (PredecessorCounts s) p else PredecessorCounts s.
Proof. observe_unfold. Qed.
Lemma observe_TrigramCounts s stable vol now p g :
  TrigramCounts (observe s stable vol now p g) =
    if (p <>s "")%go && (g <>s "")%go
    then recordTrigram (TrigramCounts s) {| First := g; Second := p |} else TrigramCounts s.
Proof. observe_unfold. Qed.
Lemma observe_Outgoing s stable vol now p g :
  OutgoingTransitionTotal (observe s stable vol now p g) = OutgoingTransitionTotal s.
Proof. observe_unfold. Qed.
Lemma observe_Continuations s stable vol now p g :
  TrigramContinuationTotal (observe s stable vol now p g) = TrigramContinuationTotal s.
Proof. observe_unfold. Qed.

Lemma bigram_count_observe s stable vol now p g q :
  0 <= bigram_count q s ->
  0 <= bigram_count q (observe s stable vol now p g)
    <= bigram_count q s + (if (p <>s "")%go && bool_decide (q = p) then 1 else 0).
Proof.
  intros H. unfold bigram_count in *. rewrite observe_PredecessorCounts.
  destruct (p <>s "")%go; cbn [andb]; [|lia].
  pose proof (at_key_record_le maxPredecessors (PredecessorCounts s) p q H) as Hr.
  unfold recordPredecessor. destruct (decide (q = p)); case_bool_decide; (congruence || lia).
Qed.

Lemma trigram_count_observe s stable vol now p g q r :
  0 <= trigram_count r q s ->
  0 <= trigram_count r q (observe s stable vol now p g)
    <= trigram_count r q s +
       (if (p <>s "")%go && (g <>s "")%go && bool_decide (q = p) && bool_decide (r = g) then 1 else 0).
Proof.
  intros H. unfold trigram_count in *. rewrite observe_TrigramCounts.
  destruct ((p <>s "")%go && (g <>s "")%go); cbn [andb]; [|lia].
  set (k := {| First := r; Second := q |}) in *.
  pose proof (at_key_record_le maxTrigramPredecessors (TrigramCounts s)
                {| First := g; Second := p |} k H) as Hr.
  unfold recordTrigram. destruct (decide (k = _)) as [E|E].
  - injection E as -> ->. rewrite !bool_decide_eq_true_2 by done. cbn. lia.
  - assert (bool_decide (q = p) && bool_decide (r = g) = false) as ->; [|lia].
    apply not_true_is_false. intros Hc. bool_prop. subst. done.
Qed.

Lemma observe_as_predecessor_counts g st :
  PredecessorCounts (observe_as_predecessor g st) = PredecessorCounts st /\
  TrigramCounts (observe_as_predecessor g st) = TrigramCounts st /\
  OutgoingTransitionTotal (observe_as_predecessor g st) = u64 (OutgoingTransitionTotal st + 1) /\
  TrigramContinuationTotal (observe_as_predecessor g st) =
    if (g <>s "")%go then recordTrigramContinuation (TrigramContinuationTotal st) g
    else TrigramContinuationTotal st.
Proof. unfold observe_as_predecessor. by destruct (g <>s "")%go. Qed.

Lemma admitted_msum_le f k b fp vol now :
  f zero_stats = 0 -> 0 <= k ->
  (forall st, st = stats_at (Fingerprints b) (FP_ID fp) ->
     f (observe st (FP_Stable fp) vol now (predecessor_of b now) (grandparent_of b now)) <= f st + k) ->
  msum f (admitted_map b fp vol now) <= msum f (Fingerprints b) + k.
Proof.
  intros H0 Hk Hf. unfold admitted_map. destruct (admits b fp); [|lia].
  rewrite msum_insert by done. specialize (Hf _ eq_refl). lia.
Qed.

Lemma outgoing_Observe n b fp vol now p :
  baseline_ok b -> 0 <= outgoing b p <= n -> n + 1 < 2 ^ 64 ->
  outgoing (fst (Observe b fp vol now)) p =
    outgoing b p + (if (predecessor_of b now <>s "")%go && bool_decide (p = predecessor_of b now)
                    then 1 else 0).
Proof.
  intros Hb Hn Hlt. unfold outgoing in *. rewrite Observe_stats_at by done. cbn zeta.
  destruct (_ && bool_decide (p = _)).
  - destruct (observe_as_predecessor_counts (grandparent_of b now)
                (if admits b fp && bool_decide (p = FP_ID fp)
                 then observe (stats_at (Fingerprints b) p) (FP_Stable fp) vol now
                        (predecessor_of b now) (grandparent_of b now)
                 else stats_at (Fingerprints b) p)) as (_ & _ & -> & _).
    destruct (_ && _); rewrite ?observe_Outgoing; apply u64_small; unfold is_u64, max_u64 in *; lia.
  - destruct (_ && _); rewrite ?observe_Outgoing; lia.
Qed.

Lemma continuations_Observe b fp vol now p :
  baseline_ok b ->
  continuations (fst (Observe b fp vol now)) p =
    if (predecessor_of b now <>s "")%go && bool_decide (p = predecessor_of b now)
       && (grandparent_of b now <>s "")%go
    then recordTrigramContinuation (continuations b p) (grandparent_of b now)
    else continuations b p.
Proof.
  intros Hb. unfold continuations in *. rewrite Observe_stats_at by done. cbn zeta.
  set (st := if admits b fp && _ then _ else _).
  assert (TrigramContinuationTotal st = TrigramContinuationTotal (stats_at (Fingerprints b) p)) as Hst.
  { unfold st. destruct (_ && _); by rewrite ?observe_Continuations. }
  clearbody st. destruct (_ && bool_decide (p = _)); cbn [andb]; [|exact Hst].
  destruct (observe_as_predecessor_counts (grandparent_of b now) st) as (_ & _ & _ & ->).
  by rewrite Hst.
Qed.

Lemma Observe_nonneg b fp vol now id :
  baseline_ok b -> nonneg_counts (stats_at (Fingerprints b) id) ->
  nonneg_counts (stats_at (Fingerprints (fst (Observe b fp vol now))) id).
Proof.
  intros Hb [Hp Ht]. rewrite Observe_stats_at by done. cbn zeta.
  set (st := if admits b fp && _ then _ else _).
  assert (nonneg_counts st) as [Hp' Ht'].
  { unfold st. destruct (_ && _); [|done]. split; intros.
    - by apply bigram_count_observe.
    - by apply trigram_count_observe. }
  clearbody st. destruct (_ && bool_decide (id = _)); [|done].
  destruct (observe_as_predecessor_counts (grandparent_of b now) st) as (E1 & E2 & _).
  split; intros; unfold bigram_count, trigram_count; rewrite ?E1, ?E2; [apply Hp'|apply Ht'].
Qed.

Lemma record_bounded_lookup_None `{Countable K} bound (m : gmap K Z) k k' :
  record_bounded bound m k !! k' = None <->
    m !! k' = None /\ (k' = k -> bound <= map_len m).
Proof.
  unfold record_bounded. destruct (m !! k) eqn:E.
  - destruct (decide (k' = k)) as [->|]; [rewrite lookup_insert_eq|rewrite lookup_insert_ne by done];
      split; intuition congruence.
  - destruct (bound <=? map_len m) eqn:Eb; bool_prop.
    + intuition.
    + destruct (decide (k' = k)) as [->|]; [rewrite lookup_insert_eq|rewrite lookup_insert_ne by done].
      * split; [done|intros [_ H1]; specialize (H1 eq_refl); lia].
      * intuition congruence.
Qed.

Lemma record_bounded_full `{Countable K} bound (m : gmap K Z) k :
  map_len m = bound -> map_len (record_bounded bound m k) = bound.
Proof.
  unfold record_bounded, map_len. intros Hb. destruct (m !! k) eqn:E.
  - by rewrite map_size_insert_Some by eauto.
  - destruct (bound <=? _) eqn:Eb; bool_prop; [done|]. lia.
Qed.

(** Recording [k] either counts it exactly or leaves a full map that lacks it. *)
Lemma record_bounded_cases `{Countable K} bound n (m : gmap K Z) k :
  map_len m <= bound -> 0 <= at_key m k <= n -> n + 1 < 2 ^ 64 ->
  at_key (record_bounded bound m k) k = at_key m k + 1 \/
  record_bounded bound m k !! k = None /\ map_len (record_bounded bound m k) = bound.
Proof.
  intros Hm Hn Hlt. rewrite at_key_record. rewrite decide_True by done.
  destruct (decide _) as [Hd|Hd].
  - left. apply u64_small. unfold is_u64, max_u64. lia.
  - right. assert (Hk : m !! k = None).
    { destruct (m !! k) eqn:E; [|done]. exfalso. apply Hd. eauto. }
    assert (map_len m = bound) by (destruct (decide (map_len m < bound)); [exfalso; auto|lia]).
    split; [|by apply record_bounded_full].
    apply record_bounded_lookup_None. split; [done|lia].
Qed.

Lemma continuations_ok b p : baseline_ok b -> map_len (continuations b p) <= maxTrigramPredecessors.
Proof.
  intros (_ & _ & H & _). unfold continuations.
  destruct (stats_at_ok b p H) as (_ & _ & Hc & _). exact Hc.
Qed.

(** Does the step at [now] follow [p], and [g] before it? *)
Definition follows (b : Baseline) (now : time) (p : string) : Z :=
  if (predecessor_of b now <>s "")%go && bool_decide (p = predecessor_of b now) then 1 else 0.
Definition follows_both (b : Baseline) (now : time) (g p : string) : Z :=
  if (predecessor_of b now <>s "")%go && (grandparent_of b now <>s "")%go
     && bool_decide (p = predecessor_of b now) && bool_decide (g = grandparent_of b now) then 1 else 0.

Lemma bigram_msum_step b fp vol now p :
  nonneg_counts (stats_at (Fingerprints b) (FP_ID fp)) ->
  msum (bigram_count p) (Fingerprints (fst (Observe b fp vol now)))
    <= msum (bigram_count p) (Fingerprints b) + follows b now p.
Proof.
  intros [Hn _]. rewrite Observe_msum; [|done|].
  - apply admitted_msum_le; [done|unfold follows; destruct (_ && _); lia|].
    intros st ->. by apply bigram_count_observe.
  - intros g st. unfold bigram_count. by destruct (observe_as_predecessor_counts g st) as (-> & _).
Qed.

Lemma trigram_msum_step b fp vol now g p :
  nonneg_counts (stats_at (Fingerprints b) (FP_ID fp)) ->
  msum (trigram_count g p) (Fingerprints (fst (Observe b fp vol now)))
    <= msum (trigram_count g p) (Fingerprints b) + follows_both b now g p.
Proof.
  intros [_ Hn]. rewrite Observe_msum; [|done|].
  - apply admitted_msum_le; [done|unfold follows_both; destruct (_ && _); lia|].
    intros st ->. by apply trigram_count_observe.
  - intros g' st. unfold trigram_count. by destruct (observe_as_predecessor_counts g' st) as (_ & -> & _).
Qed.

(** The continuations counter either follows the step exactly, or is full without [g]. *)
Lemma continuations_step n b fp vol now p g :
  baseline_ok b -> 0 <= at_key (continuations b p) g <= n -> n + 1 < 2 ^ 64 ->
  let c := continuations (fst (Observe b fp vol now)) p in
  0 <= at_key c g <= n + 1 /\
  (at_key (continuations b p) g + follows_both b now g p <= at_key c g \/
   c !! g = None /\ map_len c = maxTrigramPredecessors) /\
  (continuations b p !! g = None /\ map_len (continuations b p) = maxTrigramPredecessors ->
   c !! g = None /\ map_len c = maxTrigramPredecessors).
Proof.
  intros Hb Hn Hlt. cbn zeta. rewrite continuations_Observe by done.
  pose proof (continuations_ok b p Hb) as Hsize. unfold follows_both.
  destruct (predecessor_of b now <>s "")%go, (grandparent_of b now <>s "")%go,
    (bool_decide (p = predecessor_of b now)); cbn [andb];
    try (split; [lia|split; [left; lia|done]]).
  unfold recordTrigramContinuation. set (m := continuations b p) in *. set (k := grandparent_of b now).
  assert (Hrec := at_key_record_le maxTrigramPredecessors m k g (proj1 Hn)).
  split; [destruct (decide _); lia|]. split.
  - case_bool_decide as E.
    + subst g. destruct (record_bounded_cases maxTrigramPredecessors n m k); auto. left. lia.
    + left. rewrite at_key_record, decide_False by done. lia.
  - intros [E1 E2]. split; [|by apply record_bounded_full].
    apply record_bounded_lookup_None. split; [done|lia].
Qed.

Lemma transitions_step n b fp vol now :
  baseline_ok b -> transitions_ok n b -> n + 1 < 2 ^ 64 ->
  transitions_ok (n + 1) (fst (Observe b fp vol now)).
Proof.
  intros Hb [Hnn Hbi Hbd Htri] Hlt. split.
  - intros id. by apply Observe_nonneg.
  - intros p. specialize (Hbi p). pose proof (bigram_msum_step b fp vol now p (Hnn _)) as Hs.
    assert (0 <= outgoing b p).
    { etrans; [|apply Hbi]. apply msum_nonneg. intros id st E.
      specialize (Hnn id). unfold stats_at in Hnn. rewrite E in Hnn. apply Hnn. }
    rewrite (outgoing_Observe n) by (done || lia). fold (follows b now p).
    assert (0 <= follows b now p <= 1) by (unfold follows; destruct (_ && _); lia). lia.
  - intros p g. by apply (continuations_step n b fp vol now p g).
  - intros p g. destruct (continuations_step n b fp vol now p g) as (_ & H1 & H2); [done..|].
    pose proof (trigram_msum_step b fp vol now g p (Hnn _)) as Hs.
    destruct (Htri p g) as [H|H]; [|by auto]. destruct H1; [left; lia|by auto].
Qed.

Lemma transitions_observe_all n b l :
  baseline_ok b -> transitions_ok n b -> n + Z.of_nat (length l) < 2 ^ 64 ->
  transitions_ok (n + Z.of_nat (length l)) (observe_all b l).
Proof.
  revert n b. induction l as [|[[fp vol] now] l IH]; intros n b Hb Ht Hl; cbn [length] in *.
  - by replace (n + Z.of_nat 0) with n by lia.
  - rewrite Nat2Z.inj_succ in *. replace (n + Z.succ (Z.of_nat (length l))) with (n + 1 + Z.of_nat (length l)) by lia.
    cbn. apply IH; [by apply Observe_ok|apply transitions_step; try done; lia|lia].
Qed.

Lemma transitions_New key : transitions_ok 0 (New key).
Proof. by split; try done; left. Qed.

(** * Properties *)

(** Whatever an actor is observed to do, its learned baseline stays well formed:
    at most 512 fingerprints and 64 delegators, every learned error rate and hourly
    share in [0,1], every counter in range, every transition map within its cap, and
    the sequence window pointing only at fingerprints the baseline holds. *)
Theorem observe_all_invariant (key : Key) (l : list observation) :
  baseline_ok (observe_all (New key) l).
Proof. apply observe_all_ok, New_ok. Qed.

(** The learned transition counters are consistent over any history shorter than
    2^64: for every fingerprint p, the transitions recorded out of p by all its
    successors together never exceed p's outgoing total (so the learned transition
    frequencies out of p sum to at most one); and for every pair (g, p) the recorded
    trigrams never exceed p's continuation total after g, except where that total was
    never tracked because its map filled up. *)
Theorem transition_counts_bounded (key : Key) (l : list observation) :
  Z.of_nat (length l) < 2 ^ 64 ->
  let b := observe_all (New key) l in
  (forall p, msum (bigram_count p) (Fingerprints b) <= outgoing b p <= Z.of_nat (length l)) /\
  (forall g p, msum (trigram_count g p) (Fingerprints b) <= at_key (continuations b p) g \/
     continuations b p !! g = None /\ map_len (continuations b p) = maxTrigramPredecessors).
Proof.
  intros Hl. cbn zeta.
  destruct (transitions_observe_all 0 (New key) l (New_ok key) (transitions_New key) Hl) as [_ H _ Ht].
  split; [exact H|intros; apply Ht].
Qed.

Definition example_vol : VolatileFeatures :=
  {| VF_Timestamp := zero_time; VF_Latency := 10; VF_HasLatency := true; VF_Error := false;
     VF_DelegatedFrom := "" |}.
Definition example_history : list observation :=
  [({| FP_ID := "a"; FP_Stable := zero_stable |}, example_vol, {| instant := 10; zone_offset := 0 |});
   ({| FP_ID := "b"; FP_Stable := zero_stable |}, example_vol, {| instant := 20; zone_offset := 0 |});
   ({| FP_ID := "a"; FP_Stable := zero_stable |}, example_vol, {| instant := 30; zone_offset := 0 |})].

Lemma transition_counts_bounded_witness :
  let b := observe_all (New (Build_Key "s" "x" "prod")) example_history in
  outgoing b "a" = 1 /\ msum (bigram_count "a") (Fingerprints b) = 1 /\
  msum (bigram_count "a") (Fingerprints b) <= outgoing b "a" <= 3.
Proof.
  split; [by vm_compute|]. split; [by vm_compute|].
  apply (transition_counts_bounded (Build_Key "s" "x" "prod") example_history). by vm_compute.
Defined.

(** Admission is exact and never evicts: [Observe] reports an observation as learned
    exactly when its fingerprint was known or fewer than 512 were; then the fingerprint
    is in the updated model, and in either case every fingerprint held before is still
    held. A refused observation leaves the sequence window and every fingerprint but
    the one it follows exactly as they were. *)
Theorem Observe_admission (b : Baseline) fp vol now :
  let r := Observe b fp vol now in
  (snd r = true <-> is_Some (Fingerprints b !! FP_ID fp) \/ map_len (Fingerprints b) < maxFingerprints) /\
  dom (Fingerprints (fst r)) =
    (if snd r then {[FP_ID fp]} else ∅) ∪ dom (Fingerprints b) /\
  (snd r = false ->
    LastFingerprintID (fst r) = LastFingerprintID b /\
    LastFingerprintTime (fst r) = LastFingerprintTime b /\
    PreviousFingerprintID (fst r) = PreviousFingerprintID b /\
    forall id, id <> predecessor_of b now ->
      Fingerprints (fst r) !! id = Fingerprints b !! id).
Proof.
  cbn zeta. assert (Hr : snd (Observe b fp vol now) = admits b fp) by done. rewrite Hr.
  split; [|split; [apply Observe_dom|]].
  - unfold admits. rewrite orb_true_iff, bool_decide_eq_true, Z.ltb_lt. done.
  - intros E. rewrite Observe_window, Observe_window_prev, Observe_window_time, E, andb_false_r.
    split; [done|]. split; [done|]. split; [done|]. intros id Hid. rewrite Observe_lookup, E. cbn.
    by rewrite (bool_decide_eq_false_2 _ Hid), andb_false_r.
Qed.

Lemma Observe_admission_witness :
  let b := observe_all (New (Build_Key "s" "x" "prod")) example_history in
  snd (Observe b {| FP_ID := "c"; FP_Stable := zero_stable |} example_vol zero_time) = true.
Proof.
  apply (Observe_admission (observe_all (New (Build_Key "s" "x" "prod")) example_history)).
  right. by vm_compute.
Defined.

(** A trigram key whose first member is a computed fingerprint id survives the
    text encoding the store persists it with, whatever its second member. *)
Theorem TrigramKey_roundtrip (f : StableFeatures) (second : string) :
  let k := {| First := FP_ID (Compute_ f); Second := second |} in
  TrigramKey_UnmarshalText (TrigramKey_MarshalText k) = Ok k.
Proof.
  cbn zeta. unfold TrigramKey_UnmarshalText, TrigramKey_MarshalText. cbn [First Second].
  rewrite cut_append; [done|]. by apply Compute_no_byte.
Qed.
