(* ===== verification/Anomaly.v ===== *)
(** * Package anomaly

    How one event's features are scored against its actor's baseline: the individual
    deviation signals and their noisy-or combination.  A signal's Detail is rendered
    text in the code; here it is the format and its arguments, as data. *)
From S2P Require Import Prelude GoText GoTime GoFloat FloatBounds Event Fingerprint Baseline.

Open Scope string_scope.
Open Scope Z_scope.

Record Config : Type := {
  MinObservations : Z; (* uint64 *)
  LatencyZThreshold : float;
  FrequencyZThreshold : float;
  NoveltyWeight : float;
  LatencyWeight : float;
  ErrorWeight : float;
  FrequencyWeight : float;
  TimePatternWeight : float;
  TransitionWeight : float;
  MinTransitionObservations : Z;
  TransitionRarityWeight : float;
  NGramWeight : float;
  MinNGramObservations : Z;
  NGramRarityWeight : float;
  MarkovWeight : float;
  DelegationWeight : float;
  SensitiveTargetFloor : gmap string float;
}.

Definition DefaultConfig : Config := {|
  MinObservations := 20;
  LatencyZThreshold := 3;
  FrequencyZThreshold := 3;
  NoveltyWeight := 1;
  LatencyWeight := 0x1.3333333333333p-1; (* 0.6 *)
  ErrorWeight := 0x1.999999999999ap-1; (* 0.8 *)
  FrequencyWeight := 0;
  TimePatternWeight := 0;
  TransitionWeight := 0;
  MinTransitionObservations := 20;
  TransitionRarityWeight := 0;
  NGramWeight := 0;
  MinNGramObservations := 20;
  NGramRarityWeight := 0;
  MarkovWeight := 0;
  DelegationWeight := 0;
  SensitiveTargetFloor := ∅;
|}%float.

(** The explanation of a signal: one constructor per format of the source, with the
    values formatted. *)
Inductive detail : Type :=
| NoDetail
| NeverObserved
| ObservedOf (count minimum : Z)
| LatencyZ (z : float) (mean stddev : Z)
| LatencyStable (current mean : Z)
| IntervalZ (z : float) (mean stddev : Z)
| IntervalStable (current mean : Z)
| HourShare (hour : Z) (percent : float)
| TransitionNew (predecessor : string)
| DelegatorNew (delegator : string)
| TransitionRare (count total : Z) (percent : float)
| MarkovBits (count total : Z) (percent bits : float)
| SequenceNew (grandparent predecessor : string)
| SequenceRare (grandparent predecessor : string) (count total : Z) (percent : float)
| ErrorNoHistory
| ErrorAgainstRate (percent : float)
| SensitiveTarget (target : string).

Record Signal : Type := {
  Sig_Name : string;
  Sig_Value : float;
  Sig_Weight : float;
  Sig_Detail : detail;
}.

(** A signal that did not fire. *)
Definition silent (name : string) (weight : float) : Signal :=
  {| Sig_Name := name; Sig_Value := 0%float; Sig_Weight := weight; Sig_Detail := NoDetail |}.

Record Anomaly : Type := {
  An_FingerprintID : string;
  An_Score : float;
  An_Confidence : float;
  An_Contributors : list Signal;
}.

Definition abs_neg (z : float) : float := if (z <? 0)%float then (- z)%float else z.

Definition latencySignal (current : Z) (stats : FingerprintStats) (cfg : Config) : Signal :=
  let stddev := of_Z (LatencyStdDevDuration stats) in
  let mean := LatencyMean stats in
  let currentNS := of_Z current in
  let nearZeroStdDev := (stddev <? 1000)%float in
  let '(value, z) :=
    if nearZeroStdDev then
      ((if (currentNS =? mean)%float then 0 else 1)%float, 0%float)
    else
      let z := abs_neg ((currentNS - mean) / stddev)%float in
      (go_min (z / LatencyZThreshold cfg)%float 1, z) in
  if (value =? 0)%float then silent "latency_deviation" (LatencyWeight cfg)
  else
    {| Sig_Name := "latency_deviation"; Sig_Value := value; Sig_Weight := LatencyWeight cfg;
       Sig_Detail :=
         if nearZeroStdDev then LatencyStable current (LatencyMeanDuration stats)
         else LatencyZ z (LatencyMeanDuration stats) (LatencyStdDevDuration stats) |}.

Definition frequencySignal (currentInterval : Z) (stats : FingerprintStats) (cfg : Config) : Signal :=
  let stddev := PrimFloat.sqrt (IntervalVariance stats) in
  let mean := IntervalMean stats in
  let currentNS := of_Z currentInterval in
  let nearZeroStdDev := (stddev <? 1000000)%float in
  let '(value, z) :=
    if nearZeroStdDev then
      ((if (currentNS =? mean)%float then 0 else 1)%float, 0%float)
    else
      let z := abs_neg ((currentNS - mean) / stddev)%float in
      (go_min (z / FrequencyZThreshold cfg)%float 1, z) in
  if (value =? 0)%float then silent "frequency_deviation" (FrequencyWeight cfg)
  else
    {| Sig_Name := "frequency_deviation"; Sig_Value := value; Sig_Weight := FrequencyWeight cfg;
       Sig_Detail :=
         if nearZeroStdDev then IntervalStable currentInterval (to_i64 mean)
         else IntervalZ z (to_i64 mean) (to_i64 stddev) |}.

Definition uniformShare : float := 0x1.5555555555555p-5%float. (* 1.0 / 24.0 *)

Definition timePatternSignal (hour : Z) (stats : FingerprintStats) (cfg : Config) : Signal :=
  let activity := go_max (nth (Z.to_nat hour) (HourActivity stats) 0%float) 0 in
  let value := (1 - go_min (activity / uniformShare) 1)%float in
  if (value =? 0)%float then silent "time_pattern_deviation" (TimePatternWeight cfg)
  else
    {| Sig_Name := "time_pattern_deviation"; Sig_Value := value;
       Sig_Weight := TimePatternWeight cfg; Sig_Detail := HourShare hour (activity * 100)%float |}.

Definition transitionSignal (predecessor : string) (destStats : FingerprintStats) (cfg : Config) : Signal :=
  if 0 <? at_key (PredecessorCounts destStats) predecessor
  then silent "transition_deviation" (TransitionWeight cfg)
  else
    {| Sig_Name := "transition_deviation"; Sig_Value := 1%float;
       Sig_Weight := TransitionWeight cfg; Sig_Detail := TransitionNew predecessor |}.

Definition delegationSignal (delegatedFrom : string) (bl : Baseline) (cfg : Config) : Signal :=
  if 0 <? at_key (DelegatorCounts bl) delegatedFrom
  then silent "delegation_deviation" (DelegationWeight cfg)
  else
    {| Sig_Name := "delegation_deviation"; Sig_Value := 1%float;
       Sig_Weight := DelegationWeight cfg; Sig_Detail := DelegatorNew delegatedFrom |}.

Definition transitionRaritySignal (predecessor : string) (predStats destStats : FingerprintStats)
    (cfg : Config) : Signal :=
  let count := at_key (PredecessorCounts destStats) predecessor in
  let total := OutgoingTransitionTotal predStats in
  if count =? 0 then silent "transition_rarity" (TransitionRarityWeight cfg)
  else if (total =? 0) || (total <? MinTransitionObservations cfg)
  then silent "transition_rarity" (TransitionRarityWeight cfg)
  else
    let frequency := (of_Z count / of_Z total)%float in
    let value := go_max (go_min (1 - frequency)%float 1) 0 in
    if (value =? 0)%float then silent "transition_rarity" (TransitionRarityWeight cfg)
    else
      {| Sig_Name := "transition_rarity"; Sig_Value := value;
         Sig_Weight := TransitionRarityWeight cfg;
         Sig_Detail := TransitionRare count total (frequency * 100)%float |}.

Definition markovSurprisalSignal (predecessor : string) (predStats destStats : FingerprintStats)
    (cfg : Config) : Signal :=
  let count := at_key (PredecessorCounts destStats) predecessor in
  let total := OutgoingTransitionTotal predStats in
  if count =? 0 then silent "markov_surprisal" (MarkovWeight cfg)
  else if (total =? 0) || (total <? MinTransitionObservations cfg)
  then silent "markov_surprisal" (MarkovWeight cfg)
  else
    let frequency := (of_Z count / of_Z total)%float in
    let surprisal := (- math_log2 frequency)%float in
    let k := math_log2 (go_max (of_Z (MinTransitionObservations cfg)) 2) in
    let value := go_max (go_min (surprisal / (surprisal + k))%float 1) 0 in
    if (value =? 0)%float then silent "markov_surprisal" (MarkovWeight cfg)
    else
      {| Sig_Name := "markov_surprisal"; Sig_Value := value; Sig_Weight := MarkovWeight cfg;
         Sig_Detail := MarkovBits count total (frequency * 100)%float surprisal |}.

Definition ngramDeviationSignal (grandparent predecessor : string) (destStats : FingerprintStats)
    (cfg : Config) : Signal :=
  let key := {| First := grandparent; Second := predecessor |} in
  if 0 <? at_key (TrigramCounts destStats) key then silent "ngram_deviation" (NGramWeight cfg)
  else
    {| Sig_Name := "ngram_deviation"; Sig_Value := 1%float; Sig_Weight := NGramWeight cfg;
       Sig_Detail := SequenceNew grandparent predecessor |}.

Definition ngramRaritySignal (grandparent predecessor : string)
    (predStats destStats : FingerprintStats) (cfg : Config) : Signal :=
  let key := {| First := grandparent; Second := predecessor |} in
  let count := at_key (TrigramCounts destStats) key in
  if count =? 0 then silent "ngram_rarity" (NGramRarityWeight cfg)
  else
    let total := at_key (TrigramContinuationTotal predStats) grandparent in
    if (total =? 0) || (total <? MinNGramObservations cfg)
    then silent "ngram_rarity" (NGramRarityWeight cfg)
    else
      let frequency := (of_Z count / of_Z total)%float in
      let value := go_max (go_min (1 - frequency)%float 1) 0 in
      if (value =? 0)%float then silent "ngram_rarity" (NGramRarityWeight cfg)
      else
        {| Sig_Name := "ngram_rarity"; Sig_Value := value; Sig_Weight := NGramRarityWeight cfg;
           Sig_Detail := SequenceRare grandparent predecessor count total (frequency * 100)%float |}.

Definition errorSignal (known : bool) (stats : FingerprintStats) (cfg : Config) : Signal :=
  if negb known then
    {| Sig_Name := "error_deviation"; Sig_Value := 1%float; Sig_Weight := ErrorWeight cfg;
       Sig_Detail := ErrorNoHistory |}
  else
    {| Sig_Name := "error_deviation"; Sig_Value := (1 - ErrorRate stats)%float;
       Sig_Weight := ErrorWeight cfg; Sig_Detail := ErrorAgainstRate (ErrorRate stats * 100)%float |}.

(** One signal's contribution, and the noisy-or of all of them. *)
Definition contribution (s : Signal) : float :=
  go_max (go_min (Sig_Value s * Sig_Weight s)%float 1) 0.
Definition combine (signals : list Signal) : float :=
  (1 - foldl (fun product s => product * (1 - contribution s)) 1 signals)%float.

(** [if s.Value > 0 { signals = append(signals, s) }]. *)
Definition append_fired (signals : list Signal) (s : Signal) : list Signal :=
  if (0 <? Sig_Value s)%float then (signals ++ [s])%list else signals.

Definition with_weight (w : float) (s : Signal) : Signal :=
  {| Sig_Name := Sig_Name s; Sig_Value := Sig_Value s; Sig_Weight := w; Sig_Detail := Sig_Detail s |}.

Definition familiarity_of (known : bool) (stats : FingerprintStats) (cfg : Config) : float :=
  if known then
    if MinObservations cfg =? 0 then 1%float
    else go_min (of_Z (Count stats) / of_Z (MinObservations cfg))%float 1
  else 0%float.

(** The signals of the step from the baseline's last fingerprint, when there is one. *)
Definition sequence_signals (feat : Features) (bl : Baseline) (stats : FingerprintStats)
    (cfg : Config) (signals : list Signal) : list Signal :=
  let last := LastFingerprintID bl in
  if (last <>s "") && time_after (VF_Timestamp (Volatile feat)) (LastFingerprintTime bl) then
    let predStats := stats_at (Fingerprints bl) last in
    let signals := append_fired signals (transitionSignal last stats cfg) in
    let rarity := transitionRaritySignal last predStats stats cfg in
    let signals :=
      append_fired signals (if (0 <? MarkovWeight cfg)%float then with_weight 0 rarity else rarity) in
    let signals := append_fired signals (markovSurprisalSignal last predStats stats cfg) in
    if PreviousFingerprintID bl <>s "" then
      let signals := append_fired signals
        (ngramDeviationSignal (PreviousFingerprintID bl) last stats cfg) in
      append_fired signals (ngramRaritySignal (PreviousFingerprintID bl) last predStats stats cfg)
    else signals
  else signals.

Definition Score (feat : Features) (fp : Fingerprint) (bl : Baseline) (cfg : Config) : Anomaly :=
  let known := bool_decide (is_Some (Fingerprints bl !! FP_ID fp)) in
  let stats := stats_at (Fingerprints bl) (FP_ID fp) in
  let vol := Volatile feat in
  let familiarity := familiarity_of known stats cfg in
  let noveltyValue := (1 - familiarity)%float in
  let signals :=
    if (0 <? noveltyValue)%float then
      [{| Sig_Name := "categorical_novelty"; Sig_Value := noveltyValue;
          Sig_Weight := NoveltyWeight cfg;
          Sig_Detail := if known then ObservedOf (Count stats) (MinObservations cfg) else NeverObserved |}]
    else [] in
  let signals :=
    if VF_HasLatency vol && known && (0 <? LatencyObservations stats)
    then append_fired signals (latencySignal (VF_Latency vol) stats cfg) else signals in
  let signals :=
    if known && (0 <? IntervalObservations stats) then
      let interval := time_sub (VF_Timestamp vol) (LastObserved stats) in
      if 0 <? interval then append_fired signals (frequencySignal interval stats cfg) else signals
    else signals in
  let signals :=
    if known && (MinObservations cfg <=? TimePatternObservations stats)
    then append_fired signals (timePatternSignal (utc_hour (VF_Timestamp vol)) stats cfg)
    else signals in
  let signals := sequence_signals feat bl stats cfg signals in
  let signals := if VF_Error vol then append_fired signals (errorSignal known stats cfg) else signals in
  let signals :=
    if VF_DelegatedFrom vol <>s ""
    then append_fired signals (delegationSignal (VF_DelegatedFrom vol) bl cfg) else signals in
  let signals :=
    match SensitiveTargetFloor cfg !! SF_TargetName (Stable feat) with
    | Some floor =>
        if (0 <? floor)%float then
          (signals ++ [{| Sig_Name := "sensitive_target"; Sig_Value := floor; Sig_Weight := 1%float;
                         Sig_Detail := SensitiveTarget (SF_TargetName (Stable feat)) |}])%list
        else signals
    | None => signals
    end in
  {| An_FingerprintID := FP_ID fp; An_Score := combine signals;
     An_Confidence := familiarity; An_Contributors := signals |}.

(** ** Soundness of the signals *)
Record weights_ok (cfg : Config) : Prop := {
  w_novelty : is_nan (NoveltyWeight cfg) = false;
  w_latency : is_nan (LatencyWeight cfg) = false;
  w_error : is_nan (ErrorWeight cfg) = false;
  w_frequency : is_nan (FrequencyWeight cfg) = false;
  w_time : is_nan (TimePatternWeight cfg) = false;
  w_transition : is_nan (TransitionWeight cfg) = false;
  w_rarity : is_nan (TransitionRarityWeight cfg) = false;
  w_ngram : is_nan (NGramWeight cfg) = false;
  w_ngram_rarity : is_nan (NGramRarityWeight cfg) = false;
  w_markov : is_nan (MarkovWeight cfg) = false;
  w_delegation : is_nan (DelegationWeight cfg) = false;
}.

(** A signal that fires has a strength of [0,1] and a weight that is a number. *)
Definition unit_signal (s : Signal) : Prop :=
  (0 <? Sig_Value s)%float = true -> in01 (Sig_Value s) /\ is_nan (Sig_Weight s) = false.

(** What Score lists: signals that fired and weigh in without producing a NaN. *)
Definition listed (s : Signal) : Prop :=
  (0 <? Sig_Value s)%float = true /\ is_nan (Sig_Value s * Sig_Weight s)%float = false.

Lemma listed_contribution s : listed s -> in01 (contribution s).
Proof. intros [_ H]. by apply go_min_one_max_zero. Qed.

Lemma silent_unit name w : unit_signal (silent name w).
Proof. done. Qed.

Lemma combine_in01 l : Forall listed l -> in01 (combine l).
Proof.
  intros Hl. unfold combine. apply in01_complement.
  assert (H : forall p, in01 p ->
            in01 (foldl (fun product s => product * (1 - contribution s)) p l)%float).
  { induction Hl as [|s l Hs Hl IH]; intros p Hp; [done|]. apply IH.
    apply in01_mul; [done|]. by apply in01_complement, listed_contribution. }
  apply H, in01_one.
Qed.

(** Opens a signal's branches; the silent ones are sound by computation. *)
Ltac open_signal :=
  repeat match goal with
  | |- unit_signal (silent _ _) => apply silent_unit
  | |- unit_signal (if ?c then _ else _) => destruct c
  end.

Lemma latencySignal_unit current stats cfg :
  weights_ok cfg -> unit_signal (latencySignal current stats cfg).
Proof.
  intros []. unfold latencySignal. destruct (_ <? 1000)%float; cbn; open_signal;
    intros H; cbn in *; split; try done.
  - by destruct (_ =? _)%float.
  - by apply go_min_one_pos.
Qed.

Lemma frequencySignal_unit current stats cfg :
  weights_ok cfg -> unit_signal (frequencySignal current stats cfg).
Proof.
  intros []. unfold frequencySignal. destruct (_ <? 1000000)%float; cbn; open_signal;
    intros H; cbn in *; split; try done.
  - by destruct (_ =? _)%float.
  - by apply go_min_one_pos.
Qed.

Lemma nth_in01 l n : Forall in01 l -> in01 (nth n l 0%float).
Proof.
  intros H. destruct (nth_in_or_default n l 0%float) as [Hin| ->]; [|done].
  rewrite List.Forall_forall in H. by apply H.
Qed.

Lemma timePatternSignal_unit hour stats cfg :
  weights_ok cfg -> stats_ok stats -> unit_signal (timePatternSignal hour stats cfg).
Proof.
  intros [] (_ & _ & _ & _ & _ & Hh & _). unfold timePatternSignal. open_signal.
  intros _. cbn. split; [|done]. apply in01_complement, min_div_in01; try done;
    by apply in01_spec, go_max_zero_in01, nth_in01.
Qed.

Lemma transitionSignal_unit p stats cfg : weights_ok cfg -> unit_signal (transitionSignal p stats cfg).
Proof. intros []. unfold transitionSignal. open_signal. by split. Qed.
Lemma delegationSignal_unit p bl cfg : weights_ok cfg -> unit_signal (delegationSignal p bl cfg).
Proof. intros []. unfold delegationSignal. open_signal. by split. Qed.
Lemma ngramDeviationSignal_unit g p stats cfg :
  weights_ok cfg -> unit_signal (ngramDeviationSignal g p stats cfg).
Proof. intros []. unfold ngramDeviationSignal. open_signal. by split. Qed.
Lemma transitionRaritySignal_unit p ps ds cfg :
  weights_ok cfg -> unit_signal (transitionRaritySignal p ps ds cfg).
Proof. intros []. unfold transitionRaritySignal. open_signal. split; [by apply go_clamp_pos|done]. Qed.
Lemma markovSurprisalSignal_unit p ps ds cfg :
  weights_ok cfg -> unit_signal (markovSurprisalSignal p ps ds cfg).
Proof. intros []. unfold markovSurprisalSignal. open_signal. split; [by apply go_clamp_pos|done]. Qed.
Lemma ngramRaritySignal_unit g p ps ds cfg :
  weights_ok cfg -> unit_signal (ngramRaritySignal g p ps ds cfg).
Proof. intros []. unfold ngramRaritySignal. open_signal. split; [by apply go_clamp_pos|done]. Qed.
Lemma errorSignal_unit known stats cfg :
  weights_ok cfg -> stats_ok stats -> unit_signal (errorSignal known stats cfg).
Proof.
  intros [] (_ & _ & _ & He & _). unfold errorSignal. open_signal; [by split|].
  split; [by apply in01_complement|done].
Qed.
Lemma with_weight_unit s : unit_signal s -> unit_signal (with_weight 0 s).
Proof. intros H Hp. by destruct (H Hp). Qed.

#[export] Hint Resolve latencySignal_unit frequencySignal_unit
  timePatternSignal_unit transitionSignal_unit delegationSignal_unit ngramDeviationSignal_unit
  transitionRaritySignal_unit markovSurprisalSignal_unit ngramRaritySignal_unit errorSignal_unit
  with_weight_unit stats_at_ok : go.

Lemma familiarity_in01 known stats cfg :
  is_u64 (Count stats) -> is_u64 (MinObservations cfg) -> in01 (familiarity_of known stats cfg).
Proof.
  intros Hc Hm. unfold familiarity_of. destruct known; [|done].
  destruct (_ =? 0) eqn:E; bool_prop; [done|].
  destruct (of_Z_u64 _ Hc) as (? & ? & _). destruct (of_Z_u64 _ Hm) as (? & ? & H1).
  apply min_div_in01; [done..|]. specialize (H1 ltac:(ulia)). pose proof scale_pos. lia.
Qed.

(** ** Where the listed signals come from

    Every signal Score can list, in the order it considers them. *)
Definition rarity_candidate (bl : Baseline) (stats : FingerprintStats) (cfg : Config) : Signal :=
  let last := LastFingerprintID bl in
  let rarity := transitionRaritySignal last (stats_at (Fingerprints bl) last) stats cfg in
  if (0 <? MarkovWeight cfg)%float then with_weight 0 rarity else rarity.

Definition novelty_candidate (known : bool) (stats : FingerprintStats) (cfg : Config) : Signal :=
  {| Sig_Name := "categorical_novelty"; Sig_Value := (1 - familiarity_of known stats cfg)%float;
     Sig_Weight := NoveltyWeight cfg;
     Sig_Detail := if known then ObservedOf (Count stats) (MinObservations cfg) else NeverObserved |}.

Definition sensitive_candidate (floor : float) (target : string) : Signal :=
  {| Sig_Name := "sensitive_target"; Sig_Value := floor; Sig_Weight := 1%float;
     Sig_Detail := SensitiveTarget target |}.

Definition candidates (feat : Features) (fp : Fingerprint) (bl : Baseline) (cfg : Config) : list Signal :=
  let known := bool_decide (is_Some (Fingerprints bl !! FP_ID fp)) in
  let stats := stats_at (Fingerprints bl) (FP_ID fp) in
  let vol := Volatile feat in
  let last := LastFingerprintID bl in
  let previous := PreviousFingerprintID bl in
  let predStats := stats_at (Fingerprints bl) last in
  [novelty_candidate known stats cfg;
   latencySignal (VF_Latency vol) stats cfg;
   frequencySignal (time_sub (VF_Timestamp vol) (LastObserved stats)) stats cfg;
   timePatternSignal (utc_hour (VF_Timestamp vol)) stats cfg;
   transitionSignal last stats cfg;
   rarity_candidate bl stats cfg;
   markovSurprisalSignal last predStats stats cfg;
   ngramDeviationSignal previous last stats cfg;
   ngramRaritySignal previous last predStats stats cfg;
   errorSignal known stats cfg;
   delegationSignal (VF_DelegatedFrom vol) bl cfg] ++
  (match SensitiveTargetFloor cfg !! SF_TargetName (Stable feat) with
   | Some floor => [sensitive_candidate floor (SF_TargetName (Stable feat))]
   | None => []
   end).

(** A predicate that holds of every candidate that fires holds of every contributor. *)
Section contributors.
Context (P : Signal -> Prop).
Definition fired_P (s : Signal) : Prop := (0 <? Sig_Value s)%float = true -> P s.

Lemma append_fired_P l s : Forall P l -> fired_P s -> Forall P (append_fired l s).
Proof.
  intros Hl Hs. unfold append_fired. destruct (0 <? Sig_Value s)%float eqn:E; [|done].
  apply Forall_app. split; [done|]. constructor; [by apply Hs|done].
Qed.

Lemma sequence_signals_P feat fp bl cfg l :
  let stats := stats_at (Fingerprints bl) (FP_ID fp) in
  Forall fired_P (candidates feat fp bl cfg) -> Forall P l ->
  Forall P (sequence_signals feat bl stats cfg l).
Proof.
  cbv zeta. unfold candidates. cbv zeta. cbn [app]. intros Hc Hl. repeat (apply Forall_cons in Hc as [? Hc]).
  unfold sequence_signals. destruct (_ && _); [|done]. cbv zeta.
  destruct (_ <>s _)%go; repeat (apply append_fired_P; [|done]); done.
Qed.

Lemma Score_P feat fp bl cfg :
  Forall fired_P (candidates feat fp bl cfg) -> Forall P (An_Contributors (Score feat fp bl cfg)).
Proof.
  intros Hall. pose proof (sequence_signals_P feat fp bl cfg) as Hseq. cbv zeta in Hseq.
  specialize (fun l => Hseq l Hall).
  unfold candidates in Hall. cbv zeta in Hall. cbn [app] in Hall.
  repeat (apply Forall_cons in Hall as [? Hall]).
  unfold Score. cbv zeta. cbn [An_Contributors].
  match goal with |- Forall P (match _ with Some floor => _ | None => ?l end) => assert (Forall P l) end.
  { destruct (_ <>s _)%go; [apply append_fired_P; [|done]|].
    all: destruct (VF_Error _); [apply append_fired_P; [|done]|].
    all: apply Hseq.
    all: destruct (_ && (MinObservations _ <=? _)); [apply append_fired_P; [|done]|].
    all: destruct (_ && (0 <? IntervalObservations _)); [destruct (0 <? time_sub _ _)|];
      try (apply append_fired_P; [|done]).
    all: destruct (_ && _ && (0 <? LatencyObservations _)); try (apply append_fired_P; [|done]).
    all: destruct (0 <? _)%float eqn:En; constructor; auto. }
  destruct (SensitiveTargetFloor cfg !! _) as [floor|]; [|done].
  destruct (0 <? floor)%float eqn:E; [|done]. apply Forall_app. split; [done|].
  apply Forall_cons in Hall as [Hs _]. constructor; [by apply Hs|done].
Qed.
End contributors.

Lemma Score_listed feat fp bl cfg :
  baseline_ok bl -> weights_ok cfg -> is_u64 (MinObservations cfg) ->
  Forall listed (An_Contributors (Score feat fp bl cfg)) /\
  in01 (An_Confidence (Score feat fp bl cfg)).
Proof.
  intros (_ & _ & Hst & _) Hw Hm. pose proof (stats_at_ok bl (FP_ID fp) Hst) as Hs.
  assert (Hfam : forall known, in01 (familiarity_of known (stats_at (Fingerprints bl) (FP_ID fp)) cfg)).
  { intros known. apply familiarity_in01; [|done]. by destruct Hs as (_ & _ & _ & _ & _ & _ & ? & _). }
  split; [|apply Hfam]. apply Score_P.
  assert (Hu : forall s, unit_signal s -> fired_P listed s).
  { intros s Hsig Hp. destruct (Hsig Hp). split; [done|by apply mul_not_nan]. }
  unfold candidates. cbv zeta. cbn [app].
  repeat (apply Forall_cons; split; [apply Hu; auto with go|]).
  - intros _. split; [by apply in01_complement|apply Hw].
  - unfold rarity_candidate. cbv zeta. destruct (0 <? _)%float; auto with go.
  - destruct (SensitiveTargetFloor cfg !! _) as [floor|]; constructor; [|done].
    intros Hp. split; [done|by apply mul_one_not_nan].
Qed.

(** The product of a noisy-or stays zero once one contribution is certain. *)
Lemma product_zero l p :
  Forall listed l -> fin p -> V p = 0 ->
  let q := foldl (fun product s => product * (1 - contribution s))%float p l in fin q /\ V q = 0.
Proof.
  intros Hl. revert p. induction Hl as [|s l Hs Hl IH]; intros p Hp Hz; [done|]. cbn.
  destruct (mul_zero_V p (1 - contribution s)%float) as [? ?]; [done| |done|by apply IH].
  by apply in01_complement, listed_contribution.
Qed.

(** ** Properties *)

(** whatever history the baseline learned and whatever the event's features are,
    with weights that are numbers (of any sign or size) the anomaly score and its
    confidence lie in [0,1], and every listed contributor fired with positive
    strength. *)
Theorem Score_unit_interval (key : Key) (l : list observation) feat fp cfg :
  weights_ok cfg -> is_u64 (MinObservations cfg) ->
  let a := Score feat fp (observe_all (New key) l) cfg in
  in01 (An_Score a) /\ in01 (An_Confidence a) /\
  Forall (fun s => (0 <? Sig_Value s)%float = true) (An_Contributors a).
Proof.
  intros Hw Hm. cbv zeta.
  destruct (Score_listed feat fp _ cfg (observe_all_ok _ l (New_ok key)) Hw Hm) as [Hl Hc].
  split; [by apply combine_in01|]. split; [done|].
  eapply Forall_impl; [exact Hl|]. by intros s [H _].
Qed.

Lemma DefaultConfig_ok : weights_ok DefaultConfig /\ is_u64 (MinObservations DefaultConfig).
Proof. by repeat split. Qed.

Definition example_features (name : string) (now : Z) : Features :=
  {| Stable := sample_stable name "db";
     Volatile := {| VF_Timestamp := Time now 0; VF_Latency := 900; VF_HasLatency := true;
                    VF_Error := true; VF_DelegatedFrom := "root" |} |}.

Lemma Score_unit_interval_witness :
  let bl := observe_all (New (Build_Key "s" "x" "prod")) example_history in
  let a := Score (example_features "b" 40) {| FP_ID := "b"; FP_Stable := zero_stable |} bl DefaultConfig in
  map Sig_Name (An_Contributors a) =
    ["categorical_novelty"; "latency_deviation"; "ngram_deviation"; "error_deviation";
     "delegation_deviation"] /\
  in01 (An_Score a).
Proof.
  split; [vm_compute; reflexivity|].
  apply (Score_unit_interval (Build_Key "s" "x" "prod") example_history); apply DefaultConfig_ok.
Defined.


(** an event whose fingerprint the baseline does not hold, scored with the default
    novelty weight 1 and any other weights that are numbers, scores exactly 1 with
    confidence 0, and its first contributor is categorical novelty at full strength. *)
Theorem Score_unknown_fingerprint (key : Key) (l : list observation) feat fp cfg :
  let bl := observe_all (New key) l in
  Fingerprints bl !! FP_ID fp = None ->
  weights_ok cfg -> is_u64 (MinObservations cfg) -> NoveltyWeight cfg = 1%float ->
  let a := Score feat fp bl cfg in
  (An_Score a =? 1)%float = true /\ An_Confidence a = 0%float /\
  head (An_Contributors a) =
    Some {| Sig_Name := "categorical_novelty"; Sig_Value := 1%float; Sig_Weight := 1%float;
            Sig_Detail := NeverObserved |}.
Proof.
  cbv zeta. intros Hnone Hw Hm Hn. set (bl := observe_all (New key) l) in *.
  destruct (Score_listed feat fp bl cfg (observe_all_ok _ l (New_ok key)) Hw Hm) as [Hl _].
  assert (Hhead : exists rest, An_Contributors (Score feat fp bl cfg) =
     {| Sig_Name := "categorical_novelty"; Sig_Value := 1%float; Sig_Weight := 1%float;
        Sig_Detail := NeverObserved |} :: rest).
  { unfold Score. cbv zeta. cbn [An_Contributors]. rewrite Hnone. rewrite bool_decide_eq_false_2 by (by intros []).
    cbn [andb familiarity_of]. rewrite andb_false_r. cbn [andb].
    change (0 <? 1 - 0)%float with true. cbn [andb]. rewrite Hn. change (1 - 0)%float with 1%float.
    assert (Hs : forall c stats l0, exists rest, append_fired (c :: l0) stats = c :: rest)
      by (intros; unfold append_fired; destruct (0 <? _)%float; cbn; eauto).
    match goal with |- context [sequence_signals ?f ?b ?st ?c [?x]] =>
      assert (exists rest, sequence_signals f b st c [x] = x :: rest) as [rest ->]
    end.
    { unfold sequence_signals. destruct (_ && _); [|by eauto]. cbv zeta.
      destruct (_ <>s _)%go;
        repeat match goal with |- context [append_fired (?c :: ?l0) ?st] =>
          destruct (Hs c st l0) as [? ->] end; eauto. }
    destruct (VF_Error _), (VF_DelegatedFrom _ <>s _)%go;
      repeat match goal with |- context [append_fired (?c :: ?l0) ?st] =>
        destruct (Hs c st l0) as [? ->] end;
      (destruct (SensitiveTargetFloor cfg !! _) as [floor|]; [destruct (0 <? floor)%float|]);
      cbn; eauto. }
  destruct Hhead as [rest Hc]. rewrite Hc in *. apply Forall_cons in Hl as [_ Hl].
  split; [|split; [|done]].
  - change (An_Score (Score feat fp bl cfg)) with (combine (An_Contributors (Score feat fp bl cfg))).
    rewrite Hc. unfold combine. cbn [foldl].
    destruct (product_zero rest (1 * (1 - contribution {| Sig_Name := "categorical_novelty";
       Sig_Value := 1%float; Sig_Weight := 1%float; Sig_Detail := NeverObserved |}))%float Hl)
      as [? ?]; [by vm_compute..|]. by apply one_minus_zero.
  - unfold Score. cbv zeta. cbn [An_Confidence]. rewrite Hnone.
    by rewrite bool_decide_eq_false_2 by (by intros []).
Qed.

Lemma Score_unknown_fingerprint_witness :
  (An_Score (Score (example_features "z" 40) {| FP_ID := "z"; FP_Stable := zero_stable |}
     (observe_all (New (Build_Key "s" "x" "prod")) example_history) DefaultConfig) =? 1)%float = true.
Proof.
  apply (Score_unknown_fingerprint (Build_Key "s" "x" "prod") example_history);
    [by vm_compute|apply DefaultConfig_ok|apply DefaultConfig_ok|done].
Defined.

(** when the Markov surprisal is weighted, it replaces the transition rarity it
    refines: every listed rarity contributor then has weight zero, so one rare
    transition is never counted twice. *)
Theorem Score_markov_exclusive feat fp bl cfg :
  (0 <? MarkovWeight cfg)%float = true ->
  Forall (fun s => Sig_Name s = "transition_rarity" -> Sig_Weight s = 0%float)
    (An_Contributors (Score feat fp bl cfg)).
Proof.
  intros Hm. apply Score_P. unfold candidates, rarity_candidate. cbv zeta. cbn [app]. rewrite Hm.
  repeat (apply Forall_cons; split).
  all: try (intros _; unfold latencySignal, frequencySignal, timePatternSignal, transitionSignal,
              markovSurprisalSignal, ngramDeviationSignal, ngramRaritySignal, errorSignal, delegationSignal;
            repeat match goal with |- context [if ?c then _ else _] => destruct c end; done).
  destruct (SensitiveTargetFloor cfg !! _); repeat constructor. done.
Qed.

Definition markov_config : Config :=
  {| MinObservations := 1; LatencyZThreshold := 3; FrequencyZThreshold := 3; NoveltyWeight := 1;
     LatencyWeight := 1; ErrorWeight := 1; FrequencyWeight := 0; TimePatternWeight := 0;
     TransitionWeight := 0; MinTransitionObservations := 1; TransitionRarityWeight := 1;
     NGramWeight := 0; MinNGramObservations := 20; NGramRarityWeight := 0; MarkovWeight := 1;
     DelegationWeight := 0; SensitiveTargetFloor := ∅ |}%float.

(** A history in which "a" leads to "b" once and to itself once. *)
Definition rare_history : list observation :=
  (fun '(id, t) => ({| FP_ID := id; FP_Stable := zero_stable |}, example_vol, Time t 0)) <$>
  [("a", 10); ("a", 20); ("b", 30); ("a", 40)].

Lemma Score_markov_exclusive_witness :
  let a := Score (example_features "b" 50) {| FP_ID := "b"; FP_Stable := zero_stable |}
     (observe_all (New (Build_Key "s" "x" "prod")) rare_history) markov_config in
  "transition_rarity" ∈ map Sig_Name (An_Contributors a) /\
  Forall (fun s => Sig_Name s = "transition_rarity" -> Sig_Weight s = 0%float) (An_Contributors a).
Proof.
  split; [by apply (bool_decide_unpack _); vm_compute|]. apply Score_markov_exclusive. by vm_compute.
Defined.
