(* ===== verification/Trust.v ===== *)
(** * Package trust

    The trust computation: anomaly, identity confidence and context risk, each first
    brought to a defensible value of [0,1] whatever float it is. *)
From S2P Require Import Prelude GoText GoTime GoFloat FloatBounds Event Fingerprint Baseline.
From S2P Require Import Anomaly.

Open Scope string_scope.
Open Scope Z_scope.

Module Trust.

Record Config : Type := {
  MediumThreshold : float;
  HighThreshold : float;
  CriticalThreshold : float;
}.

Definition DefaultConfig : Config :=
  {| MediumThreshold := 0.25; HighThreshold := 0.5; CriticalThreshold := 0.75 |}%float.

Definition RiskLevel := string.
Definition RiskLow : RiskLevel := "low".
Definition RiskMedium : RiskLevel := "medium".
Definition RiskHigh : RiskLevel := "high".
Definition RiskCritical : RiskLevel := "critical".

(** The rank map; a missing key reads as 0. *)
Definition riskRank (r : RiskLevel) : Z :=
  if r =s RiskLow then 0
  else if r =s RiskMedium then 1
  else if r =s RiskHigh then 2
  else if r =s RiskCritical then 3
  else 0.

Definition AtLeast (r minimum : RiskLevel) : bool := riskRank minimum <=? riskRank r.

Record Trust : Type := {
  Score : float;
  Risk : RiskLevel;
  IdentityConfidence : float;
  AnomalyScore : float;
  AnomalyConfidence : float;
  ContextRisk : float;
}.

Definition clamp01 (v : float) : float := go_max (go_min v 1) 0.
Definition clampFavorable (v : float) : float := if is_nan v || is_inf v then 0%float else clamp01 v.
Definition clampAdverse (v : float) : float := if is_nan v || is_inf v then 1%float else clamp01 v.

Definition riskLevel (residualDistrust : float) (cfg : Config) : RiskLevel :=
  if (CriticalThreshold cfg <=? residualDistrust)%float then RiskCritical
  else if (HighThreshold cfg <=? residualDistrust)%float then RiskHigh
  else if (MediumThreshold cfg <=? residualDistrust)%float then RiskMedium
  else RiskLow.

Definition Compute_ (an : Anomaly) (identityConfidence contextRisk : float) (cfg : Config) : Trust :=
  let identityConfidence := clampFavorable identityConfidence in
  let contextRisk := clampAdverse contextRisk in
  let anomalyScore := clampAdverse (An_Score an) in
  let confidence := clampAdverse (An_Confidence an) in
  let effectiveAnomaly := (anomalyScore * confidence)%float in
  let score := (identityConfidence * (1 - effectiveAnomaly) * (1 - contextRisk))%float in
  {| Score := score; Risk := riskLevel (1 - score)%float cfg;
     IdentityConfidence := identityConfidence; AnomalyScore := anomalyScore;
     AnomalyConfidence := confidence; ContextRisk := contextRisk |}.

(** ** Lemmas *)
Lemma clampFavorable_in01 v : in01 (clampFavorable v).
Proof.
  unfold clampFavorable. destruct (is_nan v || is_inf v) eqn:E; [done|]. bool_prop.
  by apply go_min_one_max_zero.
Qed.
Lemma clampAdverse_in01 v : in01 (clampAdverse v).
Proof.
  unfold clampAdverse. destruct (is_nan v || is_inf v) eqn:E; [done|]. bool_prop.
  by apply go_min_one_max_zero.
Qed.
#[export] Hint Resolve clampFavorable_in01 clampAdverse_in01 : go.

Definition non_finite (v : float) : bool := is_nan v || is_inf v.
Lemma clampFavorable_non_finite v : non_finite v = true -> clampFavorable v = 0%float.
Proof. unfold non_finite, clampFavorable. by intros ->. Qed.
Lemma clampAdverse_non_finite v : non_finite v = true -> clampAdverse v = 1%float.
Proof. unfold non_finite, clampAdverse. by intros ->. Qed.

Lemma riskRank_riskLevel x cfg :
  riskRank (riskLevel x cfg) =
    if (CriticalThreshold cfg <=? x)%float then 3
    else if (HighThreshold cfg <=? x)%float then 2
    else if (MediumThreshold cfg <=? x)%float then 1 else 0.
Proof. unfold riskLevel. by repeat destruct (_ <=? _)%float. Qed.

Lemma in01_mul_left x y : in01 x -> in01 y -> in01 (x * y)%float /\ V (x * y)%float <= V x.
Proof.
  rewrite !in01_spec. intros (Hx & Hx0 & Hx1) (Hy & Hy0 & Hy1).
  destruct (mul_le x y x) as [Hf Hb]; [done..|nia|]. split; [split; [done|lia]|lia].
Qed.

Lemma V_nonneg x : in01 x -> 0 <= V x.
Proof. intros H%in01_spec. lia. Qed.

Lemma Compute_bounds an i c cfg :
  let t := Compute_ an i c cfg in
  in01 (Score t) /\ V (Score t) <= V (IdentityConfidence t) /\
  V (Score t) <= V (1 - AnomalyScore t * AnomalyConfidence t)%float /\
  V (Score t) <= V (1 - ContextRisk t)%float.
Proof.
  cbv zeta. unfold Compute_. cbn.
  set (ic := clampFavorable i). set (cr := clampAdverse c).
  set (ef := (clampAdverse (An_Score an) * clampAdverse (An_Confidence an))%float).
  assert (Hef : in01 ef) by (apply in01_mul; auto with go).
  assert (Hic : in01 ic) by apply clampFavorable_in01.
  assert (Hcr : in01 (1 - cr)%float) by (apply in01_complement, clampAdverse_in01).
  destruct (in01_mul_left ic (1 - ef)%float) as [H1 H2]; [done|by apply in01_complement|].
  destruct (in01_mul ic (1 - ef)%float) as [_ H3]; [done|by apply in01_complement|].
  destruct (in01_mul_left (ic * (1 - ef))%float (1 - cr)%float) as [H4 H5]; [done..|].
  destruct (in01_mul (ic * (1 - ef))%float (1 - cr)%float) as [_ H6]; [done..|].
  split; [done|]. split; [lia|]. split; [lia|done].
Qed.

Lemma risk_monotone x y cfg :
  fin x -> fin y -> V x <= V y ->
  fin (MediumThreshold cfg) -> fin (HighThreshold cfg) -> fin (CriticalThreshold cfg) ->
  V (MediumThreshold cfg) <= V (HighThreshold cfg) <= V (CriticalThreshold cfg) ->
  riskRank (riskLevel x cfg) <= riskRank (riskLevel y cfg).
Proof.
  intros Hx Hy Hxy Hm Hh Hc Ho. rewrite !riskRank_riskLevel, !leb_V by done.
  destruct (Z.leb_spec (V (CriticalThreshold cfg)) (V x)), (Z.leb_spec (V (HighThreshold cfg)) (V x)),
    (Z.leb_spec (V (MediumThreshold cfg)) (V x)), (Z.leb_spec (V (CriticalThreshold cfg)) (V y)),
    (Z.leb_spec (V (HighThreshold cfg)) (V y)), (Z.leb_spec (V (MediumThreshold cfg)) (V y)); lia.
Qed.

(** ** Properties *)

(** trust is always a number of [0,1], for every anomaly, identity confidence and
    context risk that are floats at all (NaN and infinities included), and it never
    exceeds any of its three factors: the clamped identity confidence, one minus the
    confident part of the anomaly, and one minus the context risk. *)
Theorem Compute_score_bounded an identityConfidence contextRisk cfg :
  let t := Compute_ an identityConfidence contextRisk cfg in
  in01 (Score t) /\
  (Score t <=? IdentityConfidence t)%float = true /\
  (Score t <=? 1 - AnomalyScore t * AnomalyConfidence t)%float = true /\
  (Score t <=? 1 - ContextRisk t)%float = true.
Proof.
  cbv zeta. destruct (Compute_bounds an identityConfidence contextRisk cfg) as (H1 & H2 & H3 & H4).
  cbv zeta in *. set (t := Compute_ an identityConfidence contextRisk cfg) in *.
  assert (in01 (IdentityConfidence t)) by apply clampFavorable_in01.
  assert (in01 (1 - AnomalyScore t * AnomalyConfidence t)%float).
  { apply in01_complement, in01_mul; apply clampAdverse_in01. }
  assert (in01 (1 - ContextRisk t)%float) by (apply in01_complement, clampAdverse_in01).
  rewrite !leb_V by auto with go. repeat split; try done; by apply Z.leb_le.
Qed.

(** an input that is not a finite number can never raise trust: with a non-finite
    identity confidence, a non-finite context risk, or an anomaly whose score and
    confidence are both non-finite, the trust score is exactly zero, and with
    thresholds in [0,1] in order the risk is critical. *)
Theorem Compute_non_finite_denies an identityConfidence contextRisk cfg :
  non_finite identityConfidence || non_finite contextRisk ||
    (non_finite (An_Score an) && non_finite (An_Confidence an)) = true ->
  in01 (CriticalThreshold cfg) ->
  let t := Compute_ an identityConfidence contextRisk cfg in
  (Score t =? 0)%float = true /\ Risk t = RiskCritical.
Proof.
  intros Hn Hc. cbv zeta.
  destruct (Compute_bounds an identityConfidence contextRisk cfg) as (H1 & H2 & H3 & H4).
  cbv zeta in *. set (t := Compute_ an identityConfidence contextRisk cfg) in *.
  assert (HV : V (Score t) <= 0).
  { apply orb_true_iff in Hn as [[Hn|Hn]%orb_true_iff|Hn].
    - assert (IdentityConfidence t = 0%float) as E; [|by rewrite E in H2].
      by apply clampFavorable_non_finite.
    - assert (ContextRisk t = 1%float) as E; [|by rewrite E in H4].
      by apply clampAdverse_non_finite.
    - apply andb_true_iff in Hn as [Hn1 Hn2].
      assert (AnomalyScore t = 1%float /\ AnomalyConfidence t = 1%float) as [E1 E2].
      { split; by apply clampAdverse_non_finite. }
      rewrite E1, E2 in H3. done. }
  pose proof (V_nonneg _ H1). pose proof (in01_fin _ H1) as Hf. assert (HV0 : V (Score t) = 0) by lia.
  split.
  - rewrite eqb_V by auto with go. by rewrite HV0.
  - change (Risk t) with (riskLevel (1 - Score t)%float cfg). unfold riskLevel.
    destruct (near_exact (1 - Score t)%float (V 1%float - V (Score t)) 1%float) as [Hf1 Hv1];
      [by apply sub_near; auto with go|auto with go|lia|rewrite HV0, V_one; pose proof scale_pos; lia|].
    apply in01_spec in Hc as (Hcf & Hc0 & Hc1). rewrite leb_V by done.
    rewrite Hv1, HV0, V_one. by rewrite (proj2 (Z.leb_le _ _)) by lia.
Qed.

Lemma Compute_non_finite_denies_witness :
  Risk (Compute_ {| An_FingerprintID := "f"; An_Score := 0; An_Confidence := 1; An_Contributors := [] |}%float
          1%float PrimFloat.nan DefaultConfig) = RiskCritical.
Proof. apply Compute_non_finite_denies; [by vm_compute|done]. Defined.

(** the risk level is exact and monotone: each residual distrust falls into the
    highest level whose threshold it reaches, and with finite ordered thresholds a
    higher residual distrust is at least as risky. *)
Theorem riskLevel_monotone x y cfg :
  (x <=? y)%float = true ->
  in01 x -> in01 y ->
  in01 (MediumThreshold cfg) -> in01 (HighThreshold cfg) -> in01 (CriticalThreshold cfg) ->
  (MediumThreshold cfg <=? HighThreshold cfg)%float = true ->
  (HighThreshold cfg <=? CriticalThreshold cfg)%float = true ->
  AtLeast (riskLevel y cfg) (riskLevel x cfg) = true.
Proof.
  intros Hxy Hx Hy Hm Hh Hc H1 H2. rewrite leb_V in Hxy, H1, H2 by auto with go. bool_prop.
  apply Z.leb_le. by apply risk_monotone; auto with go.
Qed.

Lemma riskLevel_monotone_witness :
  AtLeast (riskLevel 0.6 DefaultConfig) (riskLevel 0.3 DefaultConfig) = true.
Proof. by apply riskLevel_monotone. Defined.

End Trust.
