(* ===== verification/Policy.v ===== *)
(** * Package policy

    First-match rule evaluation with an explicit default that fails closed.
    [fmt.Sprint] of an attribute is concrete for strings, booleans and integers; for
    the remaining dynamic types it is the parameter [sprint_other]. *)
From S2P Require Import Prelude GoText GoTime GoFloat FloatBounds Event Fingerprint Baseline.
From S2P Require Import Anomaly Trust.

Open Scope string_scope.
Open Scope Z_scope.

Module Policy.

Definition Decision := string.
Definition DecisionAllow : Decision := "allow".
Definition DecisionObserveOnly : Decision := "observe_only".
Definition DecisionAlert : Decision := "alert".
Definition DecisionChallenge : Decision := "challenge".
Definition DecisionRequireApproval : Decision := "require_approval".
Definition DecisionBlock : Decision := "block".

Definition Decision_Valid (d : Decision) : bool :=
  one_of d [DecisionAllow; DecisionObserveOnly; DecisionAlert; DecisionChallenge;
            DecisionRequireApproval; DecisionBlock].

Record Input : Type := {
  In_Stable : StableFeatures;
  In_Trust : Trust.Trust;
  In_Attributes : gmap string attr;
  In_ApprovalStatus : ApprovalStatus;
}.

Record Condition : Type := {
  C_ActorType : ActorType;
  C_OperationCategory : OperationCategory;
  C_TargetName : string;
  C_Environment : string;
  C_MinRiskLevel : Trust.RiskLevel;
  C_Attributes : gmap string string;
  C_ApprovalStatus : ApprovalStatus;
}.

Record Rule : Type := {
  Rule_Name : string;
  When : Condition;
  Unless : option Condition;
  Action : Decision;
  Rule_Reason : string;
}.

Record Explanation : Type := { RuleName : string; Reason : string; MatchedDefault : bool }.
Record Result : Type := { R_Decision : Decision; R_Explanation : Explanation }.

Record Policy : Type := {
  Rules : list Rule;
  DefaultAction : Decision;
  DefaultReason : string;
}.

Definition failClosedReason : string := "no policy default configured; failing closed to BLOCK".

(** A field left empty matches anything. *)
Definition unset_or_equal (want got : string) : bool := negb ((want <>s "") && (want <>s got)).

Section evaluation.
Context (sprint_other : attr -> string).

Definition sprint (v : attr) : string :=
  match v with
  | AString s => s
  | ABool true => "true"
  | ABool false => "false"
  | AInt n | AInt32 n | AInt64 n => format_int n
  | AFloat64 _ | AFloat32 _ | AOther _ => sprint_other v
  end.

Definition Matches (c : Condition) (i : Input) : bool :=
  if (C_ActorType c <>s "") && (C_ActorType c <>s SF_ActorType (In_Stable i)) then false
  else if (C_OperationCategory c <>s "") && (C_OperationCategory c <>s SF_OperationCategory (In_Stable i))
  then false
  else if (C_TargetName c <>s "") && (C_TargetName c <>s SF_TargetName (In_Stable i)) then false
  else if (C_Environment c <>s "") && (C_Environment c <>s SF_Environment (In_Stable i)) then false
  else if (C_MinRiskLevel c <>s "") && negb (Trust.AtLeast (Trust.Risk (In_Trust i)) (C_MinRiskLevel c))
  then false
  else if (C_ApprovalStatus c <>s "") && (C_ApprovalStatus c <>s In_ApprovalStatus i) then false
  else
    forallb (fun '(key, want) =>
      match In_Attributes i !! key with
      | Some got => sprint got =s want
      | None => false
      end) (map_to_list (C_Attributes c)).

(** The rule is not skipped by the loop's two [continue]s. *)
Definition applies (i : Input) (rule : Rule) : bool :=
  Matches (When rule) i &&
  negb (match Unless rule with Some u => Matches u i | None => false end).

Definition rule_result (rule : Rule) : Result :=
  {| R_Decision := Action rule;
     R_Explanation := {| RuleName := Rule_Name rule; Reason := Rule_Reason rule;
                         MatchedDefault := false |} |}.

Definition default_result (p : Policy) : Result :=
  if negb (Decision_Valid (DefaultAction p)) || (DefaultReason p =s "") then
    {| R_Decision := DecisionBlock;
       R_Explanation := {| RuleName := ""; Reason := failClosedReason; MatchedDefault := true |} |}
  else
    {| R_Decision := DefaultAction p;
       R_Explanation := {| RuleName := ""; Reason := DefaultReason p; MatchedDefault := true |} |}.

Fixpoint evaluate_rules (rules : list Rule) (i : Input) : option Result :=
  match rules with
  | [] => None
  | rule :: rules => if applies i rule then Some (rule_result rule) else evaluate_rules rules i
  end.

Definition Evaluate (p : Policy) (i : Input) : Result :=
  match evaluate_rules (Rules p) i with
  | Some r => r
  | None => default_result p
  end.

(** ** Lemmas *)
(** The declarative reading of a condition: every constraint it states holds. *)
Record satisfies (c : Condition) (i : Input) : Prop := {
  s_actor : C_ActorType c = "" \/ C_ActorType c = SF_ActorType (In_Stable i);
  s_operation : C_OperationCategory c = "" \/ C_OperationCategory c = SF_OperationCategory (In_Stable i);
  s_target : C_TargetName c = "" \/ C_TargetName c = SF_TargetName (In_Stable i);
  s_environment : C_Environment c = "" \/ C_Environment c = SF_Environment (In_Stable i);
  s_risk : C_MinRiskLevel c = "" \/ Trust.AtLeast (Trust.Risk (In_Trust i)) (C_MinRiskLevel c) = true;
  s_approval : C_ApprovalStatus c = "" \/ C_ApprovalStatus c = In_ApprovalStatus i;
  s_attributes : forall key want, C_Attributes c !! key = Some want ->
    exists got, In_Attributes i !! key = Some got /\ sprint got = want;
}.

Lemma unset_or (want got : string) (b : bool) :
  (if (want <>s "") && (want <>s got) then false else b) = true <-> (want = "" \/ want = got) /\ b = true.
Proof.
  destruct (String.eqb_spec want ""), (String.eqb_spec want got); cbn; naive_solver.
Qed.

Lemma attributes_satisfied (m : gmap string string) (a : gmap string attr) :
  forallb (fun '(key, want) =>
      match a !! key with Some got => sprint got =s want | None => false end) (map_to_list m) = true <->
  (forall key want, m !! key = Some want -> exists got, a !! key = Some got /\ sprint got = want).
Proof.
  rewrite forallb_forall. split.
  - intros H key want Hk. specialize (H (key, want)). cbn in H.
    rewrite <- list_elem_of_In, elem_of_map_to_list in H. specialize (H Hk).
    destruct (a !! key) as [got|]; [|done]. exists got. split; [done|by apply String.eqb_eq].
  - intros H [key want] Hin. rewrite <- list_elem_of_In, elem_of_map_to_list in Hin.
    destruct (H key want Hin) as (got & -> & E). by apply String.eqb_eq.
Qed.

Lemma evaluate_rules_None rules i :
  evaluate_rules rules i = None <-> Forall (fun rule => applies i rule = false) rules.
Proof.
  induction rules as [|rule rules IH]; cbn; [split; [constructor|done]|].
  rewrite Forall_cons. destruct (applies i rule); naive_solver.
Qed.

Lemma evaluate_rules_Some rules i r :
  evaluate_rules rules i = Some r <->
  exists before rule after, rules = (before ++ rule :: after)%list /\
    Forall (fun rule => applies i rule = false) before /\ applies i rule = true /\ r = rule_result rule.
Proof.
  induction rules as [|rule rules IH]; cbn.
  - split; [done|]. intros (before & ? & ? & E & _). by destruct before.
  - destruct (applies i rule) eqn:Ea.
    + split; [intros [= <-]; by exists [], rule, rules|].
      intros (before & rule' & after & E & Hb & Hr & ->).
      destruct before as [|x before]; cbn in E; simplify_eq; [done|].
      apply Forall_cons in Hb as [Hb _]. congruence.
    + rewrite IH. split.
      * intros (before & rule' & after & -> & Hb & Hr & ->).
        exists (rule :: before), rule', after. by repeat constructor.
      * intros (before & rule' & after & E & Hb & Hr & ->).
        destruct before as [|x before]; cbn in E; simplify_eq; [congruence|].
        apply Forall_cons in Hb as [_ Hb]. eauto 10.
Qed.

Lemma default_result_valid p : Decision_Valid (R_Decision (default_result p)) = true.
Proof.
  unfold default_result. destruct (_ || _) eqn:E; [done|]. bool_prop. done.
Qed.

Lemma Evaluate_valid_decision p i :
  Forall (fun rule => Decision_Valid (Action rule) = true) (Rules p) ->
  Decision_Valid (R_Decision (Evaluate p i)) = true.
Proof.
  intros Hv. unfold Evaluate. destruct (evaluate_rules (Rules p) i) as [r|] eqn:E.
  - apply evaluate_rules_Some in E as (before & rule & after & E & _ & _ & ->).
    rewrite E in Hv. apply Forall_app in Hv as [_ [Hv _]%Forall_cons]. done.
  - apply default_result_valid.
Qed.

(** ** Properties *)

(** a condition matches exactly when every constraint it states holds: each set
    field equals the event's, the risk is at least the minimum, and every listed
    attribute is present with that text; unset fields constrain nothing. *)
Theorem Matches_satisfies c i : Matches c i = true <-> satisfies c i.
Proof.
  unfold Matches. rewrite !unset_or.
  assert (Hr : forall b, (if (C_MinRiskLevel c <>s "")%go &&
                negb (Trust.AtLeast (Trust.Risk (In_Trust i)) (C_MinRiskLevel c)) then false else b) = true <->
              (C_MinRiskLevel c = "" \/ Trust.AtLeast (Trust.Risk (In_Trust i)) (C_MinRiskLevel c) = true)
              /\ b = true).
  { intros b. destruct (String.eqb_spec (C_MinRiskLevel c) ""), (Trust.AtLeast _ _); cbn; naive_solver. }
  rewrite Hr, unset_or, attributes_satisfied.
  split; [intros (? & ? & ? & ? & ? & ? & ?); by split|intros []; auto 10].
Qed.

(** policy evaluation is first match, then the default, and fails closed: the
    result is either that of the first rule that applies, or - exactly when no rule
    applies - the configured default when it is a known decision with a reason, and
    BLOCK otherwise. The decision is always a known one when every rule's action is. *)
Theorem Evaluate_first_match p i :
  ((exists before rule after, Rules p = (before ++ rule :: after)%list /\
      Forall (fun r => applies i r = false) before /\ applies i rule = true /\
      Evaluate p i = rule_result rule) \/
   (Forall (fun r => applies i r = false) (Rules p) /\
    R_Explanation (Evaluate p i) =
      {| RuleName := "";
         Reason := if Decision_Valid (DefaultAction p) && (DefaultReason p <>s "")%go
                   then DefaultReason p else failClosedReason;
         MatchedDefault := true |} /\
    R_Decision (Evaluate p i) =
      if Decision_Valid (DefaultAction p) && (DefaultReason p <>s "")%go
      then DefaultAction p else DecisionBlock)) /\
  (Forall (fun rule => Decision_Valid (Action rule) = true) (Rules p) ->
   Decision_Valid (R_Decision (Evaluate p i)) = true).
Proof.
  split; [|apply Evaluate_valid_decision].
  unfold Evaluate. destruct (evaluate_rules (Rules p) i) as [r|] eqn:E.
  - left. apply evaluate_rules_Some in E as (before & rule & after & E & Hb & Hr & ->). eauto 10.
  - right. apply evaluate_rules_None in E. split; [done|]. unfold default_result.
    by destruct (Decision_Valid (DefaultAction p)), (DefaultReason p =s "")%go.
Qed.
End evaluation.

Definition any_condition : Condition :=
  {| C_ActorType := ""; C_OperationCategory := ""; C_TargetName := ""; C_Environment := "";
     C_MinRiskLevel := ""; C_Attributes := ∅; C_ApprovalStatus := "" |}.
Definition example_policy : Policy :=
  {| Rules := [{| Rule_Name := "r"; When := any_condition; Unless := None; Action := DecisionAlert;
                  Rule_Reason := "why" |}];
     DefaultAction := ""; DefaultReason := "" |}.
Definition example_input : Input :=
  {| In_Stable := sample_stable "a" "b";
     In_Trust := Trust.Compute_ {| An_FingerprintID := ""; An_Score := 0; An_Confidence := 0;
                                   An_Contributors := [] |}%float 1%float 0%float Trust.DefaultConfig;
     In_Attributes := ∅; In_ApprovalStatus := "" |}.

Lemma Evaluate_first_match_witness :
  Decision_Valid (R_Decision (Evaluate (fun _ => "") example_policy example_input)) = true.
Proof. apply Evaluate_first_match. repeat constructor. Defined.

End Policy.
