(* ===== verification/Store.v ===== *)
(** * Package store

    The persistence port an engine reads and updates baselines through, as a class of
    operations with the laws a client may rely on, and its two implementations in this
    package: the in-memory store (with freezing) and the file store.

    Every operation on memory holds the lock of the one shard it touches for its whole
    duration, so concurrent callers see some sequential order of operations; an operation
    is one step here, and a call of the file store two: the update of memory and the flush,
    between which other calls may come.  encoding/json is the class [SnapshotJSON]: the
    bytes of a file are its own, it may refuse to encode (a number that is not finite, a
    year beyond 9999), and it reads back what it wrote when strings are valid UTF-8 and
    times have whole-minute offsets.  The map keys the code writes itself
    ([TrigramKey.MarshalText]) are modelled.  Whether the operating system completes a
    write is an input of the step, and the snapshot a flush takes is one step. *)
From S2P Require Import Prelude GoText GoTime GoFloat FloatBounds Event Fingerprint Baseline.

Open Scope string_scope.
Open Scope Z_scope.

(** ** The port *)
Record ObserveResult : Type := { OR_Baseline : Baseline; OR_Learned : bool; OR_Err : option error }.

Class Store (S : Type) : Type := {
  Get : S -> Key -> Baseline * bool;
  store_Observe : S -> Key -> Fingerprint -> VolatileFeatures -> time -> S * ObserveResult;
}.

(** What the port promises: a write touches one key only; it either leaves that key's
    baseline alone or replaces it by one learning step; learned is reported only for a
    step that happened and admitted the fingerprint, and never with an error. *)
Class StoreLaws (S : Type) `{Store S} : Prop := {
  get_other : forall s key fp vol now key', key' <> key ->
    Get (fst (store_Observe s key fp vol now)) key' = Get s key';
  get_same : forall s key fp vol now,
    fst (Get (fst (store_Observe s key fp vol now)) key) = fst (Get s key) \/
    fst (Get (fst (store_Observe s key fp vol now)) key) = fst (Observe (fst (Get s key)) fp vol now);
  learned_wrote : forall s key fp vol now,
    OR_Learned (snd (store_Observe s key fp vol now)) = true ->
    Get (fst (store_Observe s key fp vol now)) key = (fst (Observe (fst (Get s key)) fp vol now), true) /\
    snd (Observe (fst (Get s key)) fp vol now) = true /\
    OR_Err (snd (store_Observe s key fp vol now)) = None;
}.

(** ** InMemory *)
Record shard : Type := { sh_baseline : Baseline; sh_frozen : bool }.

Record InMemory : Type := { shards : gmap Key shard }.

Definition NewInMemory : InMemory := {| shards := ∅ |}.

Definition lookup_shard (s : InMemory) (key : Key) : option shard := shards s !! key.

(** The shard for the key, created empty on first use. *)
Definition getOrCreate (s : InMemory) (key : Key) : shard * InMemory :=
  match shards s !! key with
  | Some sh => (sh, s)
  | None =>
      let sh := {| sh_baseline := New key; sh_frozen := false |} in
      (sh, {| shards := <[key := sh]> (shards s) |})
  end.

Definition put_shard (s : InMemory) (key : Key) (sh : shard) : InMemory :=
  {| shards := <[key := sh]> (shards s) |}.

Definition InMemory_Get (s : InMemory) (key : Key) : Baseline * bool :=
  match lookup_shard s key with
  | None => (New key, false)
  | Some sh => (sh_baseline sh, true)
  end.

Definition InMemory_Observe (s : InMemory) (key : Key) (fp : Fingerprint) (vol : VolatileFeatures)
    (now : time) : InMemory * ObserveResult :=
  let '(sh, s) := getOrCreate s key in
  if sh_frozen sh then
    (s, {| OR_Baseline := sh_baseline sh; OR_Learned := false; OR_Err := None |})
  else
    let '(updated, learned) := Observe (sh_baseline sh) fp vol now in
    (put_shard s key {| sh_baseline := updated; sh_frozen := sh_frozen sh |},
     {| OR_Baseline := updated; OR_Learned := learned; OR_Err := None |}).

Definition Freeze (s : InMemory) (key : Key) : InMemory :=
  let '(sh, s) := getOrCreate s key in
  put_shard s key {| sh_baseline := sh_baseline sh; sh_frozen := true |}.
Definition Unfreeze (s : InMemory) (key : Key) : InMemory :=
  let '(sh, s) := getOrCreate s key in
  put_shard s key {| sh_baseline := sh_baseline sh; sh_frozen := false |}.
Definition IsFrozen (s : InMemory) (key : Key) : bool :=
  match lookup_shard s key with None => false | Some sh => sh_frozen sh end.

Definition snapshot (s : InMemory) : gmap Key Baseline := sh_baseline <$> shards s.

(** Every snapshotted baseline, unfrozen, over what the store already holds. *)
Definition restore (s : InMemory) (data : gmap Key Baseline) : InMemory :=
  {| shards := ((fun bl => {| sh_baseline := bl; sh_frozen := false |}) <$> data) ∪ shards s |}.

#[export] Instance InMemory_Store : Store InMemory :=
  { Get := InMemory_Get; store_Observe := InMemory_Observe }.

(** *** Lemmas *)
Lemma getOrCreate_spec s key :
  getOrCreate s key =
    (default {| sh_baseline := New key; sh_frozen := false |} (shards s !! key),
     {| shards := <[key := default {| sh_baseline := New key; sh_frozen := false |} (shards s !! key)]>
                    (shards s) |}).
Proof.
  unfold getOrCreate. destruct (shards s !! key) eqn:E; [|done]. cbn.
  rewrite insert_id by done. by destruct s.
Qed.

Lemma InMemory_Get_put s key sh key' :
  InMemory_Get (put_shard s key sh) key' =
    if decide (key' = key) then (sh_baseline sh, true) else InMemory_Get s key'.
Proof.
  unfold InMemory_Get, lookup_shard, put_shard. cbn. destruct (decide _) as [->|].
  - by rewrite lookup_insert_eq.
  - by rewrite lookup_insert_ne.
Qed.

Lemma InMemory_Get_baseline s key :
  fst (InMemory_Get s key) = sh_baseline (default {| sh_baseline := New key; sh_frozen := false |} (shards s !! key)).
Proof. unfold InMemory_Get, lookup_shard. by destruct (shards s !! key). Qed.

(** One step of the in-memory store, on every branch. *)
Lemma InMemory_Observe_spec s key fp vol now :
  let bl := fst (InMemory_Get s key) in
  let r := InMemory_Observe s key fp vol now in
  (forall key', InMemory_Get (fst r) key' =
     if decide (key' = key) then
       (if IsFrozen s key then bl else fst (Observe bl fp vol now), true)
     else InMemory_Get s key') /\
  (forall key', IsFrozen (fst r) key' = IsFrozen s key') /\
  snd r = {| OR_Baseline := if IsFrozen s key then bl else fst (Observe bl fp vol now);
             OR_Learned := negb (IsFrozen s key) && snd (Observe bl fp vol now);
             OR_Err := None |}.
Proof.
  cbv zeta. unfold InMemory_Observe. rewrite getOrCreate_spec, InMemory_Get_baseline.
  set (sh := default _ (shards s !! key)).
  assert (Hf : IsFrozen s key = sh_frozen sh).
  { unfold IsFrozen, lookup_shard, sh. by destruct (shards s !! key). }
  assert (Hput : forall sh' key', InMemory_Get {| shards := <[key := sh']> (shards s) |} key' =
            if decide (key' = key) then (sh_baseline sh', true) else InMemory_Get s key').
  { intros. apply InMemory_Get_put. }
  assert (Hfr : forall sh' key', sh_frozen sh' = sh_frozen sh ->
            IsFrozen {| shards := <[key := sh']> (shards s) |} key' = IsFrozen s key').
  { intros sh' key' E. unfold IsFrozen at 1, lookup_shard. cbn. destruct (decide (key' = key)) as [->|].
    - by rewrite lookup_insert_eq, E, Hf.
    - by rewrite lookup_insert_ne. }
  rewrite Hf. destruct (sh_frozen sh) eqn:Efr; cbn [fst snd negb andb].
  - split; [|split]; [intros; apply Hput|intros; by apply Hfr|done].
  - destruct (Observe (sh_baseline sh) fp vol now) as [updated learned] eqn:Eo. cbn [fst snd].
    unfold put_shard. cbn [shards]. rewrite insert_insert_eq. split; [|split].
    + intros. apply Hput.
    + intros. by apply Hfr.
    + done.
Qed.

#[export] Instance InMemory_StoreLaws : StoreLaws InMemory.
Proof.
  split; cbn; intros s key fp vol now; intros;
    destruct (InMemory_Observe_spec s key fp vol now) as (Hg & _ & Hr); cbv zeta in *.
  - rewrite Hg. by rewrite decide_False.
  - rewrite Hg, decide_True by done. destruct (IsFrozen s key); cbn; auto.
  - rewrite Hr in *. cbn in *. rewrite Hg, decide_True by done. bool_prop.
    match goal with H : IsFrozen s key = false |- _ => rewrite H end. done.
Qed.

(** ** The file *)
Definition fileSnapshotVersion : Z := 2.
Definition fileSnapshotVersionLegacy : Z := 1.

(** A fingerprint's statistics as JSON has them: all but the trigram counts, and those under
    the text of their keys. *)
Record FingerprintStatsText : Type := { TX_Stats : FingerprintStats; TX_Trigrams : gmap string Z }.
(** A baseline as JSON has it: all but the statistics, and those as JSON has them. *)
Record BaselineText : Type := { TX_Baseline : Baseline; TX_Fingerprints : gmap string FingerprintStatsText }.
Record fileSnapshot : Type := { Version : Z; Baselines : list BaselineText }.

Definition with_trigrams (st : FingerprintStats) (m : gmap TrigramKey Z) : FingerprintStats :=
  {| Count := Count st; FirstObserved := FirstObserved st; LastObserved := LastObserved st;
     LatencyObservations := LatencyObservations st; LatencyMean := LatencyMean st;
     LatencyVariance := LatencyVariance st; IntervalObservations := IntervalObservations st;
     IntervalMean := IntervalMean st; IntervalVariance := IntervalVariance st; ErrorRate := ErrorRate st;
     TimePatternObservations := TimePatternObservations st; HourActivity := HourActivity st;
     FS_Stable := FS_Stable st; PredecessorCounts := PredecessorCounts st;
     OutgoingTransitionTotal := OutgoingTransitionTotal st; TrigramCounts := m;
     TrigramContinuationTotal := TrigramContinuationTotal st |}.
Definition with_fingerprints (bl : Baseline) (m : gmap string FingerprintStats) : Baseline :=
  {| BL_Key := BL_Key bl; Fingerprints := m; BL_LastObserved := BL_LastObserved bl;
     LastFingerprintID := LastFingerprintID bl; LastFingerprintTime := LastFingerprintTime bl;
     PreviousFingerprintID := PreviousFingerprintID bl; DelegatorCounts := DelegatorCounts bl |}.

Definition stats_text (st : FingerprintStats) : FingerprintStatsText :=
  {| TX_Stats := with_trigrams st ∅;
     TX_Trigrams := list_to_map (prod_map TrigramKey_MarshalText id <$> map_to_list (TrigramCounts st)) |}.
Definition baseline_text (bl : Baseline) : BaselineText :=
  {| TX_Baseline := with_fingerprints bl ∅; TX_Fingerprints := stats_text <$> Fingerprints bl |}.

Definition stats_of_text (tx : FingerprintStatsText) : res FingerprintStats :=
  pairs ← mapM (fun kn => key ← TrigramKey_UnmarshalText (fst kn); Ok (key, snd kn)) (map_to_list (TX_Trigrams tx));
  Ok (with_trigrams (TX_Stats tx) (list_to_map pairs)).
Definition baseline_of_text (tx : BaselineText) : res Baseline :=
  pairs ← mapM (fun kt => st ← stats_of_text (snd kt); Ok (fst kt, st)) (map_to_list (TX_Fingerprints tx));
  Ok (with_fingerprints (TX_Baseline tx) (list_to_map pairs)).

(** What JSON carries unchanged. *)
Definition whole_minute (t : time) : Prop := zone_offset t mod 60 = 0.
Definition valid_keys {A} (m : gmap string A) : Prop := forall k v, m !! k = Some v -> valid_string k = true.
Definition stable_valid (sf : StableFeatures) : Prop :=
  Forall (fun s => valid_string s = true)
    [SF_ActorType sf; SF_OperationCategory sf; SF_OperationName sf; SF_TargetName sf; SF_TargetCategory sf;
     SF_Environment sf].
Record stats_text_ok (tx : FingerprintStatsText) : Prop := {
  xo_first : whole_minute (FirstObserved (TX_Stats tx));
  xo_last : whole_minute (LastObserved (TX_Stats tx));
  xo_stable : stable_valid (FS_Stable (TX_Stats tx));
  xo_predecessors : valid_keys (PredecessorCounts (TX_Stats tx));
  xo_continuations : valid_keys (TrigramContinuationTotal (TX_Stats tx));
  xo_trigrams : valid_keys (TX_Trigrams tx);
}.
Record baseline_text_ok (tx : BaselineText) : Prop := {
  bo_key : Forall (fun s => valid_string s = true)
             [Key_Scope (BL_Key (TX_Baseline tx)); Key_ActorID (BL_Key (TX_Baseline tx));
              Key_Environment (BL_Key (TX_Baseline tx))];
  bo_last : whole_minute (BL_LastObserved (TX_Baseline tx));
  bo_time : whole_minute (LastFingerprintTime (TX_Baseline tx));
  bo_ids : valid_string (LastFingerprintID (TX_Baseline tx)) = true /\
           valid_string (PreviousFingerprintID (TX_Baseline tx)) = true;
  bo_delegators : valid_keys (DelegatorCounts (TX_Baseline tx));
  bo_keys : valid_keys (TX_Fingerprints tx);
  bo_stats : forall id st, TX_Fingerprints tx !! id = Some st -> stats_text_ok st;
}.

(** encoding/json on the snapshot; [None] is its error. *)
Class SnapshotJSON (raw : Type) : Type := {
  marshal_snapshot : fileSnapshot -> option raw;
  unmarshal_snapshot : raw -> option fileSnapshot;
  snapshot_roundtrip snap r : marshal_snapshot snap = Some r -> Forall baseline_text_ok (Baselines snap) ->
    unmarshal_snapshot r = Some snap;
}.

(** ** FileStore *)
Section file_store.
Context {raw : Type} `{SnapshotJSON raw}.

(** [writes] says, for each coming write, whether the operating system completes it;
    [disk] is the file's content, [None] when it does not exist. *)
Record FileStore : Type := {
  inner : InMemory;
  disk : option raw;
  writes : nat -> bool;
}.

Definition loadFileSnapshot (file : option raw) : res (gmap Key Baseline) :=
  match file with
  | None => Ok ∅
  | Some r =>
      match unmarshal_snapshot r with
      | None => Err []
      | Some snap =>
          baselines ← mapM baseline_of_text (Baselines snap);
          fail_if (negb ((Version snap =? fileSnapshotVersion) || (Version snap =? fileSnapshotVersionLegacy))) [];;
          Ok (foldl (fun out bl => <[BL_Key bl := bl]> out) ∅ baselines)
      end
  end.

Definition NewFileStore (file : option raw) (outcomes : nat -> bool) : res FileStore :=
  data ← loadFileSnapshot file;
  Ok {| inner := restore NewInMemory data; disk := file; writes := outcomes |}.

(** The rename is the last step of a write, so a write that fails leaves the file. *)
Definition writeFileSnapshotAtomic (s : FileStore) (data : gmap Key Baseline) : FileStore * option error :=
  match marshal_snapshot {| Version := fileSnapshotVersion; Baselines := baseline_text <$> (map_to_list data).*2 |} with
  | None => (s, Some [])
  | Some r =>
      if writes s 0%nat then
        ({| inner := inner s; disk := Some r; writes := fun n => writes s (S n) |}, None)
      else
        ({| inner := inner s; disk := disk s; writes := fun n => writes s (S n) |}, Some [])
  end.

Definition flush (s : FileStore) : FileStore * option error :=
  writeFileSnapshotAtomic s (snapshot (inner s)).
Definition Flush : FileStore -> FileStore * option error := flush.

Definition with_inner (s : FileStore) (m : InMemory) : FileStore :=
  {| inner := m; disk := disk s; writes := writes s |}.

Definition FileStore_Get (s : FileStore) (key : Key) : Baseline * bool := InMemory_Get (inner s) key.

Definition FileStore_Observe (s : FileStore) (key : Key) (fp : Fingerprint) (vol : VolatileFeatures)
    (now : time) : FileStore * ObserveResult :=
  let '(m, r) := InMemory_Observe (inner s) key fp vol now in
  let s := with_inner s m in
  match OR_Err r with
  | Some err => (s, {| OR_Baseline := OR_Baseline r; OR_Learned := false; OR_Err := Some err |})
  | None =>
      let '(s, err) := flush s in
      match err with
      | Some err => (s, {| OR_Baseline := OR_Baseline r; OR_Learned := false; OR_Err := Some err |})
      | None => (s, {| OR_Baseline := OR_Baseline r; OR_Learned := OR_Learned r; OR_Err := None |})
      end
  end.

Definition FileStore_Freeze (s : FileStore) (key : Key) : FileStore := with_inner s (Freeze (inner s) key).
Definition FileStore_Unfreeze (s : FileStore) (key : Key) : FileStore := with_inner s (Unfreeze (inner s) key).
Definition FileStore_IsFrozen (s : FileStore) (key : Key) : bool := IsFrozen (inner s) key.

#[export] Instance FileStore_Store : Store FileStore :=
  { Get := FileStore_Get; store_Observe := FileStore_Observe }.

(** A flush writes the snapshot, or leaves the file. *)
Lemma flush_spec s : let r := flush s in
  inner (fst r) = inner s /\
  match snd r with
  | None => disk (fst r) = marshal_snapshot {| Version := fileSnapshotVersion;
                Baselines := baseline_text <$> (map_to_list (snapshot (inner s))).*2 |} /\ is_Some (disk (fst r))
  | Some err => disk (fst r) = disk s
  end.
Proof.
  cbv zeta. unfold flush, writeFileSnapshotAtomic. destruct (marshal_snapshot _); [|done].
  destruct (writes s 0%nat); cbn; [|done]. split; [done|]. by split.
Qed.

Lemma FileStore_Observe_spec s key fp vol now :
  let r := FileStore_Observe s key fp vol now in
  let m := InMemory_Observe (inner s) key fp vol now in
  let fl := flush (with_inner s (fst m)) in
  inner (fst r) = fst m /\ fst r = fst fl /\
  match snd fl with
  | None => OR_Learned (snd r) = OR_Learned (snd m) /\ OR_Err (snd r) = None
  | Some err => OR_Learned (snd r) = false /\ OR_Err (snd r) = Some err
  end.
Proof.
  cbv zeta. unfold FileStore_Observe.
  destruct (InMemory_Observe_spec (inner s) key fp vol now) as (_ & _ & Hr). cbv zeta in Hr.
  destruct (InMemory_Observe (inner s) key fp vol now) as [m r]. cbn [fst snd] in *. rewrite Hr.
  pose proof (flush_spec (with_inner s m)) as [Hi _]. cbv zeta. cbn [OR_Err].
  destruct (flush (with_inner s m)) as [s' [err|]]; by cbn in *.
Qed.

#[export] Instance FileStore_StoreLaws : StoreLaws FileStore.
Proof.
  split; cbn [Get store_Observe FileStore_Store]; unfold FileStore_Get; intros s key fp vol now; intros;
    destruct (FileStore_Observe_spec s key fp vol now) as (Hi & _ & Hw); cbv zeta in *; rewrite Hi.
  - by refine (get_other (inner s) key fp vol now key' _).
  - exact (get_same (inner s) key fp vol now).
  - assert (OR_Learned (snd (InMemory_Observe (inner s) key fp vol now)) = true /\
            OR_Err (snd (FileStore_Observe s key fp vol now)) = None) as [Hl He].
    { destruct (snd (flush _)), Hw as (Hl & He); [congruence|by rewrite <- Hl]. }
    pose proof (learned_wrote (inner s) key fp vol now) as Hm.
    cbn [Get store_Observe InMemory_Store] in Hm. destruct (Hm Hl) as (H1 & H2 & _). done.
Qed.
End file_store.
Arguments FileStore raw : clear implicits.

(** *** Every held baseline carries the key it is held under *)
Definition keyed (s : InMemory) : Prop :=
  forall key sh, shards s !! key = Some sh -> BL_Key (sh_baseline sh) = key.

Lemma keyed_insert s key sh :
  keyed s -> BL_Key (sh_baseline sh) = key -> keyed {| shards := <[key := sh]> (shards s) |}.
Proof.
  intros Hk Hsh key' sh'. cbn. destruct (decide (key' = key)) as [->|].
  - rewrite lookup_insert_eq. by intros [= <-].
  - rewrite lookup_insert_ne by done. apply Hk.
Qed.

Lemma keyed_default s key : keyed s ->
  BL_Key (sh_baseline (default {| sh_baseline := New key; sh_frozen := false |} (shards s !! key))) = key.
Proof. intros Hk. destruct (shards s !! key) eqn:E; [by apply Hk|done]. Qed.

Lemma keyed_Observe s key fp vol now : keyed s -> keyed (fst (InMemory_Observe s key fp vol now)).
Proof.
  intros Hk. unfold InMemory_Observe. rewrite getOrCreate_spec.
  pose proof (keyed_default s key Hk) as Hd. set (sh := default _ _) in *.
  destruct (sh_frozen sh); [by apply keyed_insert|].
  destruct (Observe (sh_baseline sh) fp vol now) as [updated learned] eqn:E. cbn.
  unfold put_shard. cbn. rewrite insert_insert_eq. apply keyed_insert; [done|]. cbn.
  change updated with (fst (updated, learned)). rewrite <- E. exact Hd.
Qed.

Lemma keyed_set_frozen s key b : keyed s ->
  keyed (put_shard (snd (getOrCreate s key)) key
           {| sh_baseline := sh_baseline (fst (getOrCreate s key)); sh_frozen := b |}).
Proof.
  intros Hk. rewrite getOrCreate_spec. cbn. unfold put_shard. cbn. rewrite insert_insert_eq.
  apply keyed_insert; [done|]. by apply keyed_default.
Qed.

Lemma load_other (l : list Baseline) (m : gmap Key Baseline) key :
  key ∉ BL_Key <$> l -> foldl (fun out bl => <[BL_Key bl := bl]> out) m l !! key = m !! key.
Proof.
  revert m. induction l as [|bl l IH]; intros m Hn; [done|]. cbn in *.
  rewrite not_elem_of_cons in Hn. destruct Hn as [Hne Hn]. rewrite IH by done.
  by rewrite lookup_insert_ne.
Qed.

Lemma load_in (l : list Baseline) (m : gmap Key Baseline) bl :
  NoDup (BL_Key <$> l) -> bl ∈ l ->
  foldl (fun out bl => <[BL_Key bl := bl]> out) m l !! BL_Key bl = Some bl.
Proof.
  revert m. induction l as [|x l IH]; intros m Hnd Hin; [by apply elem_of_nil in Hin|].
  cbn in *. apply NoDup_cons in Hnd as [Hni Hnd]. apply elem_of_cons in Hin as [->|Hin].
  - rewrite load_other by done. by rewrite lookup_insert_eq.
  - by apply IH.
Qed.

(** Loading the baselines of a keyed map, in any order, gives the map back. *)
Lemma load_values (data : gmap Key Baseline) (l : list Baseline) :
  (forall key bl, data !! key = Some bl -> BL_Key bl = key) -> l ≡ₚ (map_to_list data).*2 ->
  foldl (fun out bl => <[BL_Key bl := bl]> out) ∅ l = data.
Proof.
  intros Hk Hl.
  assert (Hkeys : BL_Key <$> (map_to_list data).*2 = (map_to_list data).*1).
  { rewrite <- list_fmap_compose. apply list_fmap_ext. intros i [key bl] Hi. cbn.
    apply Hk. apply elem_of_map_to_list. by eapply list_elem_of_lookup_2. }
  assert (Hnd : NoDup (BL_Key <$> l)).
  { rewrite Hl, Hkeys. apply NoDup_fst_map_to_list. }
  apply map_eq. intros key. destruct (data !! key) as [bl|] eqn:E.
  - rewrite <- (Hk _ _ E). apply load_in; [done|]. rewrite Hl.
    apply list_elem_of_fmap. exists (key, bl). split; [done|]. by apply elem_of_map_to_list.
  - rewrite load_other; [apply lookup_empty|]. rewrite Hl, Hkeys.
    intros ([k bl] & -> & Hin)%list_elem_of_fmap. apply elem_of_map_to_list in Hin. cbn in E. congruence.
Qed.

(** *** The text of a baseline reads back *)
Lemma mapM_map_back {A B} (f : A -> B) (g : B -> res A) l : (forall x, x ∈ l -> g (f x) = Ok x) -> mapM g (f <$> l) = Ok l.
Proof.
  induction l as [|x l IH]; intros Hg; [done|]. rewrite fmap_cons. cbn [mapM]. rewrite Hg by set_solver. cbn [mbind res_bind].
  rewrite IH by set_solver. done.
Qed.

Lemma cut_trigram k : has_byte trigramKeySeparator (First k) = false ->
  TrigramKey_UnmarshalText (TrigramKey_MarshalText k) = Ok k.
Proof.
  intros Hk. unfold TrigramKey_UnmarshalText, TrigramKey_MarshalText. rewrite cut_append by done. by destruct k.
Qed.

Definition hex_id (id : string) : Prop := forall_bytes is_hex_digit id = true.
Lemma hex_no_separator id : hex_id id -> has_byte trigramKeySeparator id = false.
Proof. intros Hh. by eapply forall_bytes_no_byte. Qed.

Lemma ascii_valid s : forall_bytes (fun a => byte_of a <? 128) s = true -> valid_string s = true.
Proof.
  unfold valid_string. induction s as [|a s IH]; [done|]. cbn [forall_bytes chunks]. intros [Ha Hs]%andb_true_iff.
  rewrite Ha. cbn [forallb]. by rewrite (IH Hs).
Qed.
Lemma hex_ascii id : hex_id id -> forall_bytes (fun a => byte_of a <? 128) id = true.
Proof.
  unfold hex_id. induction id as [|a id IH]; [done|]. cbn [forall_bytes]. rewrite !andb_true_iff. intros [Ha Hi]. split; [|by apply IH].
  unfold is_hex_digit, is_digit in Ha. bool_prop. lia.
Qed.
Lemma hex_valid id : hex_id id -> valid_string id = true.
Proof. intros Hh. by apply ascii_valid, hex_ascii. Qed.

(** What the engine's observations leave: fingerprint ids in hexadecimal, valid strings and
    whole-minute times. *)
Definition hex_keys {A} (m : gmap string A) : Prop := forall k v, m !! k = Some v -> hex_id k.
Record stats_written (st : FingerprintStats) : Prop := {
  sw_first : whole_minute (FirstObserved st);
  sw_last : whole_minute (LastObserved st);
  sw_stable : stable_valid (FS_Stable st);
  sw_predecessors : hex_keys (PredecessorCounts st);
  sw_continuations : hex_keys (TrigramContinuationTotal st);
  sw_trigrams k n : TrigramCounts st !! k = Some n -> hex_id (First k) /\ hex_id (Second k);
}.
Record baseline_written (bl : Baseline) : Prop := {
  bw_key : Forall (fun s => valid_string s = true)
             [Key_Scope (BL_Key bl); Key_ActorID (BL_Key bl); Key_Environment (BL_Key bl)];
  bw_last : whole_minute (BL_LastObserved bl);
  bw_time : whole_minute (LastFingerprintTime bl);
  bw_ids : hex_id (LastFingerprintID bl) /\ hex_id (PreviousFingerprintID bl);
  bw_delegators : valid_keys (DelegatorCounts bl);
  bw_stats id st : Fingerprints bl !! id = Some st -> hex_id id /\ stats_written st;
}.

Lemma hex_keys_valid {A} (m : gmap string A) : hex_keys m -> valid_keys m.
Proof. intros Hh k v Hk. by eapply hex_valid, Hh. Qed.

Lemma trigram_keys_inj (m : gmap TrigramKey Z) :
  (forall k n, m !! k = Some n -> hex_id (First k) /\ hex_id (Second k)) ->
  NoDup (prod_map TrigramKey_MarshalText id <$> map_to_list m).*1.
Proof.
  intros Hm. rewrite <- list_fmap_compose. apply NoDup_fmap_2_strong.
  - intros [k n] [k' n'] Hk Hk' E. cbn in E. apply elem_of_map_to_list in Hk, Hk'.
    pose proof (cut_trigram k (hex_no_separator _ (proj1 (Hm _ _ Hk)))) as Ec.
    rewrite E, (cut_trigram k' (hex_no_separator _ (proj1 (Hm _ _ Hk')))) in Ec. injection Ec as ->.
    rewrite Hk in Hk'. by injection Hk' as ->.
  - apply NoDup_map_to_list.
Qed.

Lemma stats_text_written st : stats_written st -> stats_text_ok (stats_text st) /\ stats_of_text (stats_text st) = Ok st.
Proof.
  intros [H1 H2 H3 H4 H5 H6]. split.
  - split; cbn; try done; try by apply hex_keys_valid.
    intros text n Hin. apply elem_of_list_to_map_2, list_elem_of_fmap in Hin as ([k n'] & [= -> ->] & Hin).
    apply elem_of_map_to_list in Hin. destruct (H6 _ _ Hin) as [Hf Hs].
    apply ascii_valid. unfold TrigramKey_MarshalText. rewrite forall_bytes_app. cbn [forall_bytes].
    by rewrite (hex_ascii _ Hf), (hex_ascii _ Hs).
  - unfold stats_of_text, stats_text. cbn [TX_Trigrams TX_Stats].
    pose proof (trigram_keys_inj _ H6) as Hn.
    pose proof (map_to_list_to_map (M := gmap string) _ Hn) as Hp.
    apply Permutation_map_inv in Hp as (l & -> & Hl).
    rewrite (mapM_map_back (prod_map TrigramKey_MarshalText id)).
    + cbn [mbind res_bind]. rewrite <- (list_to_map_proper (M := gmap TrigramKey) _ _ ltac:(apply NoDup_fst_map_to_list) Hl).
      rewrite list_to_map_to_list. by destruct st.
    + intros [k n] Hin. cbn [fst snd prod_map]. rewrite cut_trigram; [done|].
      apply hex_no_separator. eapply H6. apply elem_of_map_to_list. by rewrite Hl.
Qed.

Lemma baseline_text_written bl : baseline_written bl ->
  baseline_text_ok (baseline_text bl) /\ baseline_of_text (baseline_text bl) = Ok bl.
Proof.
  intros [H1 H2 H3 [H4 H4'] H5 H6]. split.
  - split; cbn; try done.
    + by split; apply hex_valid.
    + intros id tx. rewrite lookup_fmap. destruct (Fingerprints bl !! id) eqn:E; [|done]. intros _. exact (hex_valid _ (proj1 (H6 _ _ E))).
    + intros id tx. rewrite lookup_fmap. destruct (Fingerprints bl !! id) eqn:E; [|done]. intros [= <-].
      exact (proj1 (stats_text_written _ (proj2 (H6 _ _ E)))).
  - unfold baseline_of_text, baseline_text. cbn [TX_Fingerprints TX_Baseline]. rewrite map_to_list_fmap.
    rewrite (mapM_map_back (prod_map id stats_text)).
    + cbn [mbind res_bind]. rewrite list_to_map_to_list. by destruct bl.
    + intros [id st] Hin%elem_of_map_to_list. cbn [fst snd prod_map].
      rewrite (proj2 (stats_text_written st (proj2 (H6 _ _ Hin)))). done.
Qed.

(** ** Runs

    Concurrent calls come apart: [OpUpdate] is the memory half of an observation whose flush
    is a later [OpFlush]; [OpObserve] is a call nothing came between. *)
Inductive store_op : Type :=
| OpObserve (key : Key) (fp : Fingerprint) (vol : VolatileFeatures) (now : time)
| OpUpdate (key : Key) (fp : Fingerprint) (vol : VolatileFeatures) (now : time)
| OpFreeze (key : Key)
| OpUnfreeze (key : Key)
| OpFlush.

(** What the engine passes: computed fingerprints; and what JSON carries: valid strings and
    whole-minute offsets. *)
Definition key_valid (key : Key) : Prop :=
  Forall (fun s => valid_string s = true) [Key_Scope key; Key_ActorID key; Key_Environment key].
Record observation_written (key : Key) (fp : Fingerprint) (vol : VolatileFeatures) (now : time) : Prop := {
  ow_key : key_valid key;
  ow_fp : fp = Compute_ (FP_Stable fp);
  ow_stable : stable_valid (FP_Stable fp);
  ow_delegator : valid_string (VF_DelegatedFrom vol) = true;
  ow_now : whole_minute now;
}.
Definition op_written (op : store_op) : Prop :=
  match op with
  | OpObserve key fp vol now | OpUpdate key fp vol now => observation_written key fp vol now
  | OpFreeze key | OpUnfreeze key => key_valid key
  | OpFlush => True
  end.

Lemma written_New key : key_valid key -> baseline_written (New key).
Proof. intros Hk. by split. Qed.

Lemma record_bounded_keys `{Countable K} (P : K -> Prop) bound (m : gmap K Z) k :
  (forall j v, m !! j = Some v -> P j) -> P k -> forall j v, record_bounded bound m k !! j = Some v -> P j.
Proof.
  intros Hm Hk j v. unfold record_bounded.
  repeat case_match; try apply Hm; (intros [[<- _]|[_ Hj]]%lookup_insert_Some; [done|by eapply Hm]).
Qed.

Lemma written_observe st stable vol now p g : stats_written st -> stable_valid stable -> whole_minute now ->
  hex_id p -> hex_id g -> stats_written (observe st stable vol now p g).
Proof.
  intros [H1 H2 H3 H4 H5 H6] Hs Hw Hp Hg. split.
  - unfold observe. repeat (case_match; try done).
  - unfold observe. repeat (case_match; try done).
  - unfold observe. repeat (case_match; try done).
  - rewrite observe_PredecessorCounts. destruct (p <>s "")%go; [|done]. exact (record_bounded_keys hex_id _ _ p H4 Hp).
  - by rewrite observe_Continuations.
  - rewrite observe_TrigramCounts. destruct (_ && _); [|done].
    exact (record_bounded_keys (fun k => hex_id (First k) /\ hex_id (Second k)) _ _ {| First := g; Second := p |} H6 (conj Hg Hp)).
Qed.

Lemma written_as_predecessor g st : hex_id g -> stats_written st -> stats_written (observe_as_predecessor g st).
Proof.
  intros Hg [H1 H2 H3 H4 H5 H6]. unfold observe_as_predecessor, observeTrigramContinuation, observeOutgoingTransition.
  destruct (g <>s "")%go; split; cbn; try done. exact (record_bounded_keys hex_id _ _ g H5 Hg).
Qed.

Lemma zero_stats_written : stats_written zero_stats.
Proof. split; try done. repeat constructor. Qed.

Lemma computed_hex fp : fp = Compute_ (FP_Stable fp) -> hex_id (FP_ID fp).
Proof. intros ->. apply Compute_hex. Qed.

Lemma written_Observe key bl fp vol now : baseline_written bl -> observation_written key fp vol now ->
  baseline_written (fst (Observe bl fp vol now)).
Proof.
  intros [H1 H2 H3 [H4 H4'] H5 H6] [_ Hfp%computed_hex Hs Hd Hw].
  assert (Hp : hex_id (predecessor_of bl now)) by (unfold predecessor_of; by destruct (validTransition bl now)).
  assert (Hg : hex_id (grandparent_of bl now)) by (unfold grandparent_of; by destruct (validTransition bl now)).
  split; try done.
  - rewrite Observe_window_time. by destruct (_ && _).
  - rewrite Observe_window, Observe_window_prev. by destruct (_ && _).
  - cbn. destruct (_ <>s "")%go; [|done].
    exact (record_bounded_keys (fun k => valid_string k = true) _ _ _ H5 Hd).
  - intros id st. rewrite Observe_lookup. cbn zeta.
    set (st0 := if admits bl fp && bool_decide (id = FP_ID fp) then _ else _).
    assert (H0 : forall st, st0 = Some st -> hex_id id /\ stats_written st).
    { intros st' E. unfold st0 in E. destruct (admits bl fp && bool_decide (id = FP_ID fp)) eqn:Eb; [|by eauto].
      bool_prop. injection E as <-. subst id. split; [done|]. apply written_observe; try done.
      unfold stats_at. destruct (Fingerprints bl !! FP_ID fp) eqn:Ef; [by eapply H6|apply zero_stats_written]. }
    destruct (_ && bool_decide (id = predecessor_of _ _)); [|apply H0].
    intros (st' & E & ->)%fmap_Some. destruct (H0 _ E). split; [done|by apply written_as_predecessor].
Qed.

(** Every shard is under its baseline's key and holds what JSON carries. *)
Definition written (s : InMemory) : Prop :=
  keyed s /\ forall key sh, shards s !! key = Some sh -> baseline_written (sh_baseline sh).

Lemma written_put s key sh : written s -> BL_Key (sh_baseline sh) = key -> baseline_written (sh_baseline sh) ->
  written {| shards := <[key := sh]> (shards s) |}.
Proof.
  intros [Hk Hw] E Hb. split; [by apply keyed_insert|]. intros key' sh'. cbn.
  intros [[<- <-]|[_ Hin]]%lookup_insert_Some; [done|by eapply Hw].
Qed.

Lemma written_shard s key : written s -> key_valid key ->
  let sh := default {| sh_baseline := New key; sh_frozen := false |} (shards s !! key) in
  BL_Key (sh_baseline sh) = key /\ baseline_written (sh_baseline sh).
Proof.
  intros [Hk Hw] Hv. cbv zeta. split; [by apply keyed_default|].
  destruct (shards s !! key) eqn:E; [by eapply Hw|by apply written_New].
Qed.

Lemma written_update s key fp vol now : written s -> observation_written key fp vol now ->
  written (fst (InMemory_Observe s key fp vol now)).
Proof.
  intros Hs Ho. destruct (written_shard s key Hs (ow_key _ _ _ _ Ho)) as [Hk Hb].
  unfold InMemory_Observe. rewrite getOrCreate_spec. set (sh := default _ _) in *.
  destruct (sh_frozen sh); [by apply written_put|].
  pose proof (written_Observe key _ fp vol now Hb Ho) as Hn.
  destruct (Observe (sh_baseline sh) fp vol now) as [updated learned] eqn:E. cbn in *.
  unfold put_shard. cbn. rewrite insert_insert_eq. apply written_put; [done| |done]. cbn.
  change updated with (fst (updated, learned)). by rewrite <- E.
Qed.

Lemma written_frozen s key b : written s -> key_valid key ->
  written (let '(sh, s) := getOrCreate s key in put_shard s key {| sh_baseline := sh_baseline sh; sh_frozen := b |}).
Proof.
  intros Hs Hv. destruct (written_shard s key Hs Hv) as [Hk Hb]. rewrite getOrCreate_spec.
  unfold put_shard. cbn. rewrite insert_insert_eq. by apply written_put.
Qed.

Section restart.
Context {raw : Type} `{SnapshotJSON raw}.

Definition file_step (s : FileStore raw) (op : store_op) : FileStore raw :=
  match op with
  | OpObserve key fp vol now => fst (FileStore_Observe s key fp vol now)
  | OpUpdate key fp vol now => with_inner s (fst (InMemory_Observe (inner s) key fp vol now))
  | OpFreeze key => FileStore_Freeze s key
  | OpUnfreeze key => FileStore_Unfreeze s key
  | OpFlush => fst (Flush s)
  end.

Lemma file_step_written s op : written (inner s) -> op_written op -> written (inner (file_step s op)).
Proof.
  intros Hs Ho. destruct op; cbn in *.
  - destruct (FileStore_Observe_spec s key fp vol now) as (-> & _). by apply written_update.
  - by apply written_update.
  - by apply written_frozen.
  - by apply written_frozen.
  - by rewrite (proj1 (flush_spec s)).
Qed.

Lemma file_run_written s ops : written (inner s) -> Forall op_written ops -> written (inner (foldl file_step s ops)).
Proof.
  revert s. induction ops as [|op ops IH]; intros s Hs Ho; [done|]. apply Forall_cons in Ho as [Ho Hos].
  by apply IH, Hos; apply file_step_written.
Qed.

(** What a successful flush left is read back. *)
Lemma reopen (s : FileStore raw) outcomes : written (inner s) -> snd (flush s) = None ->
  exists s', NewFileStore (disk (fst (flush s))) outcomes = Ok s' /\ forall key, Get s' key = Get s key.
Proof.
  intros [Hk Hw] Hf. destruct (flush_spec s) as [_ Hd]. cbv zeta in Hd. rewrite Hf in Hd. destruct Hd as [Hd [r Hr]].
  rewrite Hr in *. symmetry in Hd. set (bls := (map_to_list (snapshot (inner s))).*2) in *.
  assert (Hall : forall bl, bl ∈ bls -> baseline_written bl).
  { intros bl ([k bl'] & -> & Hin%elem_of_map_to_list)%list_elem_of_fmap. unfold snapshot in Hin. rewrite lookup_fmap in Hin.
    destruct (shards (inner s) !! k) eqn:E; [|done]. injection Hin as <-. by eapply Hw. }
  assert (Hu : unmarshal_snapshot r = Some {| Version := fileSnapshotVersion; Baselines := baseline_text <$> bls |}).
  { apply snapshot_roundtrip; [done|]. cbn. apply Forall_fmap, Forall_forall. intros bl Hin. by apply baseline_text_written, Hall. }
  unfold NewFileStore, loadFileSnapshot. rewrite Hu. cbn [Baselines Version].
  rewrite mapM_map_back by (intros; by apply baseline_text_written, Hall). cbn. eexists. split; [done|]. intros key.
  unfold FileStore_Get, InMemory_Get, lookup_shard. cbn.
  rewrite load_values with (data := snapshot (inner s)); [| |done].
  - rewrite map_union_empty, lookup_fmap. unfold snapshot. rewrite lookup_fmap.
    by destruct (shards (inner s) !! key).
  - intros k bl. unfold snapshot. rewrite lookup_fmap. destruct (shards (inner s) !! k) eqn:E; [|done].
    cbn. intros [= <-]. by apply Hk.
Qed.
End restart.

(** * Properties *)

(** freezing one key suspends its learning and nothing else: while a key is frozen
    an observation of it is a reported no-op that leaves every key's baseline readable
    and unchanged; freezing and unfreezing themselves change no baseline, and an
    observation of any other key learns exactly as it would have. *)
Theorem freeze_suspends_learning (s : InMemory) key fp vol now :
  let s' := Freeze s key in
  let r := InMemory_Observe s' key fp vol now in
  OR_Learned (snd r) = false /\ OR_Err (snd r) = None /\ IsFrozen (fst r) key = true /\
  (forall key', fst (InMemory_Get (fst r) key') = fst (InMemory_Get s key')) /\
  (forall key', fst (InMemory_Get (Unfreeze s' key) key') = fst (InMemory_Get s key')) /\
  (forall key', key' <> key ->
     snd (InMemory_Observe s' key' fp vol now) = snd (InMemory_Observe s key' fp vol now)).
Proof.
  cbv zeta.
  assert (Hset : forall s b key', fst (InMemory_Get (let '(sh, s) := getOrCreate s key in
             put_shard s key {| sh_baseline := sh_baseline sh; sh_frozen := b |}) key')
             = fst (InMemory_Get s key')).
  { intros s0 b key'. rewrite getOrCreate_spec. rewrite InMemory_Get_put. destruct (decide _) as [->|].
    - by rewrite InMemory_Get_baseline.
    - unfold InMemory_Get, lookup_shard. cbn. by rewrite lookup_insert_ne. }
  assert (Hfz : IsFrozen (Freeze s key) key = true).
  { unfold Freeze, IsFrozen, lookup_shard. rewrite getOrCreate_spec. cbn. by rewrite lookup_insert_eq. }
  destruct (InMemory_Observe_spec (Freeze s key) key fp vol now) as (Hg & Hf & Hr). cbv zeta in *.
  rewrite Hr, Hf, Hfz. cbn. repeat split.
  - intros key'. rewrite Hg. destruct (decide _) as [->|]; cbn; [rewrite Hfz|]; apply Hset.
  - intros key'. unfold Unfreeze. rewrite Hset. apply Hset.
  - intros key' Hne.
    destruct (InMemory_Observe_spec (Freeze s key) key' fp vol now) as (_ & _ & ->).
    destruct (InMemory_Observe_spec s key' fp vol now) as (_ & _ & ->). cbv zeta.
    assert (IsFrozen (Freeze s key) key' = IsFrozen s key') as ->.
    { unfold IsFrozen, lookup_shard, Freeze. rewrite getOrCreate_spec. cbn.
      rewrite insert_insert_eq. by rewrite lookup_insert_ne. }
    change (InMemory_Get (Freeze s key) key') with (InMemory_Get (let '(sh, s) := getOrCreate s key in
             put_shard s key {| sh_baseline := sh_baseline sh; sh_frozen := true |}) key').
    by rewrite Hset.
Qed.

(** C35: what the file store reports as stored survives a restart.  From an empty file, after
    any sequence of operations, memory updates of other calls in between included, and with
    any pattern of failed writes: a flush that returns without error leaves a file from
    which a new store reads back, through the snapshot's JSON and the text of its trigram
    keys, exactly the baseline memory held for every key; a flush that fails leaves the
    previous file; and an observation is that flush after its update of memory, learned only
    if the update was and the flush succeeded.  The strings of the events are valid UTF-8,
    their offsets whole minutes and their fingerprints computed; a number or a year JSON
    cannot write makes the flush fail. *)
Theorem file_store_restart {raw : Type} `{SnapshotJSON raw} ops (outcomes outcomes' : nat -> bool) (s0 : FileStore raw) :
  NewFileStore None outcomes = Ok s0 -> Forall op_written ops ->
  let s := foldl file_step s0 ops in
  match snd (flush s) with
  | None => exists s', NewFileStore (disk (fst (flush s))) outcomes' = Ok s' /\ forall key, Get s' key = Get s key
  | Some _ => disk (fst (flush s)) = disk s
  end /\
  (forall key fp vol now, let r := FileStore_Observe s key fp vol now in
     let updated := with_inner s (fst (InMemory_Observe (inner s) key fp vol now)) in
     fst r = fst (flush updated) /\ OR_Err (snd r) = snd (flush updated) /\
     (OR_Learned (snd r) = true <->
        OR_Learned (snd (InMemory_Observe (inner s) key fp vol now)) = true /\ snd (flush updated) = None)).
Proof.
  intros E Ho. cbv zeta. assert (Hs0 : written (inner s0)).
  { cbn in E. injection E as <-. split; intros k sh; cbn; by rewrite map_union_empty, lookup_fmap, lookup_empty. }
  pose proof (file_run_written s0 ops Hs0 Ho) as Hs. set (s := foldl file_step s0 ops) in *. split.
  - pose proof (reopen s outcomes' Hs) as Hr. destruct (flush_spec s) as [_ Hd]. cbv zeta in Hd.
    destruct (snd (flush s)); [done|by apply Hr].
  - intros key fp vol now. destruct (FileStore_Observe_spec s key fp vol now) as (_ & -> & Hw). cbv zeta in Hw.
    split; [done|]. destruct (snd (flush _)), Hw as [-> ->]; (split; [done|]); naive_solver.
Qed.

(** JSON that keeps the snapshot as it is. *)
#[export] Instance plain_snapshots : SnapshotJSON fileSnapshot :=
  {| marshal_snapshot := Some; unmarshal_snapshot := Some;
     snapshot_roundtrip snap r E _ := eq_sym E |}.

Definition example_fp : Fingerprint := Compute_ zero_stable.
Lemma example_op_written : op_written (OpUpdate (Build_Key "s" "x" "prod") example_fp example_vol (Time 10 0)).
Proof. by repeat constructor. Qed.

Lemma file_store_restart_witness :
  exists s0 : FileStore fileSnapshot, NewFileStore None (fun _ => true) = Ok s0 /\
    let s := foldl file_step s0 [OpUpdate (Build_Key "s" "x" "prod") example_fp example_vol (Time 10 0)] in
    is_Some (Fingerprints (fst (Get s (Build_Key "s" "x" "prod"))) !! FP_ID example_fp) /\
    exists s', NewFileStore (disk (fst (flush s))) (fun _ => false) = Ok s' /\ forall key, Get s' key = Get s key.
Proof.
  eexists. split; [reflexivity|]. split; [by apply (bool_decide_unpack _); vm_compute|].
  pose proof (file_store_restart [OpUpdate (Build_Key "s" "x" "prod") example_fp example_vol (Time 10 0)]
           (fun _ => true) (fun _ => false) _ eq_refl (Forall_cons_2 _ _ _ example_op_written (Forall_nil_2 _))) as [Hr _].
  exact Hr.
Defined.
