(* ===== verification/Engine.v ===== *)
(** * The engine

    [Analyze] reads a baseline and decides; [Observe] feeds an eligible result back to
    the store.  The theorems are proved against the store port's laws, and instantiated
    at its implementations in this repository. *)
From S2P Require Import Prelude GoText GoTime GoFloat FloatBounds Event Fingerprint Baseline.
From S2P Require Import Anomaly Trust Policy Store.

Open Scope string_scope.
Open Scope Z_scope.

Module Engine.

(** The engine without its store, which is threaded as state. *)
Record Engine : Type := {
  policy : Policy.Policy;
  anomalyConfig : Anomaly.Config;
  trustConfig : Trust.Config;
  contextRisk : StableFeatures -> float;
  learningScope : string;
}.

Definition default_engine : Engine :=
  {| policy := {| Policy.Rules := []; Policy.DefaultAction := Policy.DecisionObserveOnly;
                  Policy.DefaultReason := "no policy rules configured; observing by default" |};
     anomalyConfig := Anomaly.DefaultConfig;
     trustConfig := Trust.DefaultConfig;
     contextRisk := fun _ => 0%float;
     learningScope := "" |}.

(** The options of the engine (the store's is the choice of the store type). *)
Inductive Option_ : Type :=
| WithPolicy (p : Policy.Policy)
| WithAnomalyConfig (cfg : Anomaly.Config)
| WithTrustConfig (cfg : Trust.Config)
| WithContextRisk (fn : StableFeatures -> float)
| WithLearningScope (scope : string).

Definition publicStableFeatures (sf : StableFeatures) : StableFeatures :=
  {| SF_ActorType := SF_ActorType sf; SF_OperationCategory := SF_OperationCategory sf;
     SF_OperationName := SF_OperationName sf; SF_TargetName := SF_TargetName sf;
     SF_TargetCategory := SF_TargetCategory sf; SF_Environment := SF_Environment sf |}.

Definition apply_option (e : Engine) (o : Option_) : Engine :=
  match o with
  | WithPolicy p => {| policy := p; anomalyConfig := anomalyConfig e; trustConfig := trustConfig e;
                       contextRisk := contextRisk e; learningScope := learningScope e |}
  | WithAnomalyConfig cfg => {| policy := policy e; anomalyConfig := cfg; trustConfig := trustConfig e;
                       contextRisk := contextRisk e; learningScope := learningScope e |}
  | WithTrustConfig cfg => {| policy := policy e; anomalyConfig := anomalyConfig e; trustConfig := cfg;
                       contextRisk := contextRisk e; learningScope := learningScope e |}
  | WithContextRisk fn => {| policy := policy e; anomalyConfig := anomalyConfig e;
                       trustConfig := trustConfig e;
                       contextRisk := fun sf => fn (publicStableFeatures sf);
                       learningScope := learningScope e |}
  | WithLearningScope scope => {| policy := policy e; anomalyConfig := anomalyConfig e;
                       trustConfig := trustConfig e; contextRisk := contextRisk e;
                       learningScope := scope |}
  end.

Definition NewEngine (opts : list Option_) : Engine := foldl apply_option default_engine opts.

Record Result : Type := {
  Event_ : Event;
  Features_ : Features;
  Fingerprint_ : Fingerprint;
  BaselineKey : Key;
  Anomaly_ : Anomaly;
  Trust_ : Trust.Trust;
  Decision : Policy.Decision;
  Explanation : Policy.Explanation;
}.

Definition eligibleForLearning (d : Policy.Decision) : bool :=
  one_of d [Policy.DecisionAllow; Policy.DecisionObserveOnly; Policy.DecisionAlert].

Section engine.
Context {S : Type} `{Store S}.
Context (sprint_other : attr -> string).

Definition Analyze (e : Engine) (s : S) (ev : Event) : res Result :=
  Event_Validate ev;;
  let feat := Extract ev in
  let fp := Fingerprint.Compute_ (Stable feat) in
  let key := {| Key_Scope := learningScope e; Key_ActorID := Actor_ID (Event_Actor ev);
                Key_Environment := Environment (Event_Context ev) |} in
  let '(bl, _) := Get s key in
  let an := Anomaly.Score feat fp bl (anomalyConfig e) in
  let tr := Trust.Compute_ an (Actor_IdentityConfidence (Event_Actor ev))
              (contextRisk e (Stable feat)) (trustConfig e) in
  let pr := Policy.Evaluate sprint_other (policy e)
              {| Policy.In_Stable := Stable feat; Policy.In_Trust := tr;
                 Policy.In_Attributes := Event_Attributes ev;
                 Policy.In_ApprovalStatus := Context_ApprovalStatus (Event_Context ev) |} in
  Ok {| Event_ := ev; Features_ := feat; Fingerprint_ := fp; BaselineKey := key;
        Anomaly_ := an; Trust_ := tr; Decision := Policy.R_Decision pr;
        Explanation := Policy.R_Explanation pr |}.

(** The learned flag and the error, with the store after the call. *)
Definition Observe (s : S) (result : Result) : S * bool * option error :=
  if negb (eligibleForLearning (Decision result)) then (s, false, None)
  else
    let '(s', r) := store_Observe s (BaselineKey result) (Fingerprint_ result)
                      (Volatile (Features_ result)) (Event_Timestamp (Event_ result)) in
    match OR_Err r with
    | Some err => (s', false, Some err)
    | None => (s', OR_Learned r, None)
    end.

(** What a caller does with one event: analyze, then observe the result. *)
Definition process (e : Engine) (s : S) (ev : Event) : S :=
  match Analyze e s ev with
  | Ok result => fst (fst (Observe s result))
  | Err _ => s
  end.
Definition process_all (e : Engine) (s : S) (evs : list Event) : S := foldl (process e) s evs.

(** ** Lemmas *)
Lemma Analyze_Ok e s ev r : Analyze e s ev = Ok r ->
  Event_Validate ev = Ok tt /\ Event_ r = ev /\
  BaselineKey r = {| Key_Scope := learningScope e; Key_ActorID := Actor_ID (Event_Actor ev);
                     Key_Environment := Environment (Event_Context ev) |} /\
  Fingerprint_ r = Fingerprint.Compute_ (Stable (Extract ev)) /\
  Anomaly_ r = Anomaly.Score (Extract ev) (Fingerprint_ r) (fst (Get s (BaselineKey r))) (anomalyConfig e) /\
  Trust_ r = Trust.Compute_ (Anomaly_ r) (Actor_IdentityConfidence (Event_Actor ev))
               (contextRisk e (Stable (Extract ev))) (trustConfig e).
Proof.
  unfold Analyze. intros E. destruct (Event_Validate ev) as [[]|]; [|done]. cbn in E.
  destruct (Get s _) as [bl ok] eqn:Eg in E. injection E as <-. cbn. rewrite Eg. done.
Qed.

Lemma process_cases e s ev :
  process e s ev = s \/
  exists r, Analyze e s ev = Ok r /\ eligibleForLearning (Decision r) = true /\
    process e s ev = fst (store_Observe s (BaselineKey r) (Fingerprint_ r)
                            (Volatile (Features_ r)) (Event_Timestamp (Event_ r))).
Proof.
  unfold process. destruct (Analyze e s ev) as [r|] eqn:Ea; [|by left].
  unfold Observe. destruct (eligibleForLearning (Decision r)) eqn:Ee; cbn [negb]; [|by left].
  right. exists r. destruct (store_Observe _ _ _ _ _) as [s' o]. cbn. by destruct (OR_Err o).
Qed.

Context `{!StoreLaws S}.

(** Every baseline the store returns is well formed. *)
Definition store_ok (s : S) : Prop := forall key, baseline_ok (fst (Get s key)).

Lemma store_Observe_ok s key fp vol now : store_ok s -> store_ok (fst (store_Observe s key fp vol now)).
Proof.
  intros Hs key'. destruct (decide (key' = key)) as [->|Hne].
  - destruct (get_same s key fp vol now) as [-> | ->]; [apply Hs|by apply Observe_ok].
  - by rewrite get_other.
Qed.

Lemma process_ok e s ev : store_ok s -> store_ok (process e s ev).
Proof.
  intros Hs. destruct (process_cases e s ev) as [-> | (r & _ & _ & ->)]; [done|by apply store_Observe_ok].
Qed.

Lemma process_all_ok e s evs : store_ok s -> store_ok (process_all e s evs).
Proof. revert s. induction evs; intros s Hs; [done|]. by apply IHevs, process_ok. Qed.

Lemma process_other_scope e s ev key :
  Key_Scope key <> learningScope e -> Get (process e s ev) key = Get s key.
Proof.
  intros Hne. destruct (process_cases e s ev) as [-> | (r & Ha & _ & ->)]; [done|].
  apply Analyze_Ok in Ha as (_ & _ & Hk & _). apply get_other. intros ->. rewrite Hk in Hne. done.
Qed.

Lemma Analyze_Get e s1 s2 ev :
  (forall key, Key_Scope key = learningScope e -> Get s1 key = Get s2 key) ->
  Analyze e s1 ev = Analyze e s2 ev.
Proof.
  intros Hg. unfold Analyze. destruct (Event_Validate ev); [|done]. cbn. by rewrite Hg.
Qed.
End engine.

Lemma InMemory_empty_ok : store_ok NewInMemory.
Proof. intros key. apply New_ok. Qed.

Section properties.
Context {S : Type} `{Store S} `{!StoreLaws S}.
Context (sprint_other : attr -> string).

(** C32: the pipeline is total on valid events and its numbers are sound.  Take any store that
    implements the port and starts with well-formed baselines, any sequence of events
    processed by any engine, and an engine whose configured anomaly weights are numbers (no
    NaN) and whose rules take known actions: an event is analyzed exactly when it validates;
    anomaly score, confidence and trust are then numbers of [0,1], the decision is a known
    one, and the result names the event's own actor and environment under the engine's
    scope. *)
Theorem Analyze_sound e e' s0 evs ev :
  store_ok s0 -> weights_ok (anomalyConfig e) -> is_u64 (MinObservations (anomalyConfig e)) ->
  Forall (fun rule => Policy.Decision_Valid (Policy.Action rule) = true) (Policy.Rules (policy e)) ->
  let s := process_all sprint_other e' s0 evs in
  (forall err, Event_Validate ev = Err err -> Analyze sprint_other e s ev = Err err) /\
  (Event_Validate ev = Ok tt -> exists r, Analyze sprint_other e s ev = Ok r /\
     in01 (An_Score (Anomaly_ r)) /\ in01 (An_Confidence (Anomaly_ r)) /\
     in01 (Trust.Score (Trust_ r)) /\ Policy.Decision_Valid (Decision r) = true /\
     BaselineKey r = Build_Key (learningScope e) (Actor_ID (Event_Actor ev))
                       (Environment (Event_Context ev))).
Proof.
  intros Hs Hw Hm Hv. cbv zeta. set (s := process_all sprint_other e' s0 evs).
  assert (Hok : store_ok s) by by apply process_all_ok.
  split; [intros err E; unfold Analyze; by rewrite E|]. intros E.
  destruct (Analyze sprint_other e s ev) as [r|] eqn:Ea; cycle 1.
  { unfold Analyze in Ea. rewrite E in Ea. cbn in Ea. by destruct (Get s _). }
  exists r. split; [done|]. pose proof (Analyze_Ok _ _ _ _ _ Ea) as (_ & _ & Hk & _ & Han & Htr).
  destruct (Score_listed (Extract ev) (Fingerprint_ r) (fst (Get s (BaselineKey r)))
              (anomalyConfig e)) as [Hl Hc]; [apply Hok|done..|].
  rewrite <- Han in *. split; [rewrite Han; apply combine_in01; by rewrite Han in Hl|].
  split; [done|]. split; [rewrite Htr; apply Trust.Compute_bounds|]. split; [|done].
  unfold Analyze in Ea. rewrite E in Ea. cbn in Ea. destruct (Get s _). injection Ea as <-. cbn.
  by apply Policy.Evaluate_valid_decision.
Qed.

(** C33: the learned flag can be believed: when [Observe] reports learned, it wrote one
    learning step of this result into the very baseline the analysis read, which admitted
    its fingerprint, the decision was allow, observe_only or alert, and there was no error;
    no other key's baseline changes in any case, and an ineligible result leaves the store
    itself untouched.  (Not learned is no promise of the opposite: a file store keeps in
    memory a step whose write failed, and reports an error.) *)
Theorem Observe_learned_truthful s (r : Result) s' learned err :
  Observe s r = (s', learned, err) ->
  (learned = true ->
     (Decision r = Policy.DecisionAllow \/ Decision r = Policy.DecisionObserveOnly \/
      Decision r = Policy.DecisionAlert) /\ err = None /\
     let step := Baseline.Observe (fst (Get s (BaselineKey r))) (Fingerprint_ r)
                   (Volatile (Features_ r)) (Event_Timestamp (Event_ r)) in
     snd step = true /\ Get s' (BaselineKey r) = (fst step, true) /\
     is_Some (Fingerprints (fst (Get s' (BaselineKey r))) !! FP_ID (Fingerprint_ r))) /\
  (eligibleForLearning (Decision r) = false -> s' = s /\ learned = false /\ err = None) /\
  (forall key, key <> BaselineKey r -> Get s' key = Get s key).
Proof.
  unfold Observe. destruct (eligibleForLearning (Decision r)) eqn:Ee; cbn [negb]; cycle 1.
  { intros [= <- <- <-]. split; [done|]. by split. }
  destruct (store_Observe s _ _ _ _) as [s1 o] eqn:Eo. intros E.
  assert (s' = s1) as -> by (destruct (OR_Err o); congruence).
  assert (Es : s1 = fst (store_Observe s (BaselineKey r) (Fingerprint_ r)
             (Volatile (Features_ r)) (Event_Timestamp (Event_ r)))) by by rewrite Eo.
  split; [|split; [done|intros key Hne; rewrite Es; by apply get_other]].
  intros ->. assert (OR_Learned o = true /\ err = None) as [Hl ->] by (destruct (OR_Err o); simplify_eq; done).
  pose proof (learned_wrote s (BaselineKey r) (Fingerprint_ r) (Volatile (Features_ r))
                (Event_Timestamp (Event_ r))) as Hw. rewrite Eo in Hw. cbn [fst snd] in Hw.
  destruct (Hw Hl) as (Hg & Ha & _).
  split; [|split; [done|split; [done|split; [done|]]]].
  - apply one_of_spec in Ee. rewrite !elem_of_cons in Ee. set_solver.
  - rewrite Hg. cbn [fst]. apply elem_of_dom. rewrite Observe_dom. change (snd _) with (admits
      (fst (Get s (BaselineKey r))) (Fingerprint_ r)) in Ha. rewrite Ha. set_solver.
Qed.

(** an engine whose policy can only challenge, require approval or block never
    changes what is learned: no sequence of events, however crafted, alters its store. *)
Theorem denying_policy_never_learns e s evs :
  Forall (fun rule => eligibleForLearning (Policy.Action rule) = false) (Policy.Rules (policy e)) ->
  eligibleForLearning (Policy.DefaultAction (policy e)) = false ->
  process_all sprint_other e s evs = s.
Proof.
  intros Hr Hd. revert s. induction evs as [|ev evs IH]; intros s; [done|]. cbn.
  assert (process sprint_other e s ev = s) as ->; [|apply IH].
  destruct (process_cases sprint_other e s ev) as [-> | (r & Ha & He & _)]; [done|]. exfalso.
  unfold Analyze in Ha. destruct (Event_Validate ev); [|done]. cbn in Ha.
  destruct (Get s _). injection Ha as <-. cbn in He. unfold Policy.Evaluate in He.
  destruct (Policy.evaluate_rules _ _ _) eqn:E.
  - apply Policy.evaluate_rules_Some in E as (before & rule & after & E & _ & _ & ->).
    rewrite E in Hr. apply Forall_app in Hr as [_ [Hrule _]%Forall_cons]. cbn in He. congruence.
  - unfold Policy.default_result in He. destruct (_ || _); cbn in He; [done|congruence].
Qed.

(** C34: learning scopes are isolated: over one shared store, whatever events an engine
    of another scope processes, and in whatever order, this engine's analysis of every
    event is the same as if they had never been processed. *)
Theorem scope_isolation e1 e2 s evs ev :
  learningScope e1 <> learningScope e2 ->
  Analyze sprint_other e2 (process_all sprint_other e1 s evs) ev = Analyze sprint_other e2 s ev.
Proof.
  intros Hne. apply Analyze_Get. intros key Hk. revert s.
  unfold process_all. induction evs as [|x evs IH]; intros s; [done|]. cbn. rewrite IH.
  apply process_other_scope; [exact _|congruence].
Qed.
End properties.

Definition example_sprint (_ : attr) : string := "".
Definition example_engine (scope : string) : Engine :=
  NewEngine [WithPolicy Policy.example_policy; WithLearningScope scope].
Definition blocking_engine : Engine :=
  NewEngine [WithPolicy {| Policy.Rules := []; Policy.DefaultAction := Policy.DecisionBlock;
                           Policy.DefaultReason := "locked" |}].

Lemma Analyze_sound_witness :
  exists r, Analyze (S := InMemory) example_sprint (example_engine "s") NewInMemory (sample_event "a" "b") = Ok r /\
    in01 (Trust.Score (Trust_ r)).
Proof.
  destruct (proj2 (Analyze_sound (S := InMemory) example_sprint (example_engine "s") (example_engine "s")
              NewInMemory [] (sample_event "a" "b") InMemory_empty_ok (proj1 DefaultConfig_ok)
              (proj2 DefaultConfig_ok) ltac:(repeat constructor)) ltac:(vm_compute; reflexivity))
    as (r & Hr & _ & _ & Ht & _).
  exists r. split; [exact Hr|exact Ht].
Defined.

Lemma Observe_learned_truthful_witness :
  exists r s', Analyze (S := InMemory) example_sprint (example_engine "s") NewInMemory (sample_event "a" "b") = Ok r /\
    Observe NewInMemory r = (s', true, None) /\
    is_Some (Fingerprints (fst (Get s' (BaselineKey r))) !! FP_ID (Fingerprint_ r)).
Proof.
  destruct (Analyze (S := InMemory) example_sprint (example_engine "s") NewInMemory (sample_event "a" "b"))
    as [r|] eqn:Er; [|vm_compute in Er; discriminate].
  exists r. destruct (Observe NewInMemory r) as [[s' learned] err] eqn:Eo.
  assert (Hb : match Analyze (S := InMemory) example_sprint (example_engine "s") NewInMemory (sample_event "a" "b") with
               | Ok r => snd (fst (Observe NewInMemory r)) = true | Err _ => False end)
    by (vm_compute; reflexivity).
  rewrite Er, Eo in Hb. cbn in Hb. subst learned.
  destruct (Observe_learned_truthful NewInMemory r s' true err Eo) as [H1 _].
  destruct (H1 eq_refl) as (_ & -> & _ & _ & H2). exists s'. split; [reflexivity|split; [reflexivity|exact H2]].
Defined.

Lemma denying_policy_never_learns_witness :
  process_all (S := InMemory) example_sprint blocking_engine NewInMemory
    [sample_event "a" "b"; sample_event "a" "c"] = NewInMemory.
Proof. apply denying_policy_never_learns; [constructor|done]. Defined.

Lemma scope_isolation_witness :
  Analyze (S := InMemory) example_sprint (example_engine "candidate")
    (process_all example_sprint (example_engine "reference") NewInMemory [sample_event "a" "b"])
    (sample_event "a" "b") =
  Analyze (S := InMemory) example_sprint (example_engine "candidate") NewInMemory (sample_event "a" "b").
Proof. by apply scope_isolation. Defined.

End Engine.
