(* ===== verification/DecisionRecord.v ===== *)
(** * The decision record

    The persisted projection of a result, and the canonical text of its duration. *)
From S2P Require Import Prelude GoText GoTime GoFloat FloatBounds Event Fingerprint Baseline.
From S2P Require Import Anomaly Trust Policy Store Engine.

Open Scope string_scope.
Open Scope Z_scope.

Record ContributorRecord : Type := {
  CR_Name : string;
  CR_Value : float;
  CR_Weight : float;
  CR_Detail : detail;
}.

Record DecisionRecord : Type := {
  DR_EventID : string;
  DR_Timestamp : time;
  DR_ActorID : string;
  DR_ActorType : ActorType;
  DR_IdentityConfidence : float;
  DR_Environment : string;
  DR_Behavior : StableFeatures;
  DR_FingerprintID : string;
  DR_AnomalyScore : float;
  DR_AnomalyConfidence : float;
  DR_Contributors : list ContributorRecord;
  DR_TrustScore : float;
  DR_RiskLevel : string;
  DR_ContextRisk : float;
  DR_Decision : string;
  DR_PolicyRule : string;
  DR_PolicyReason : string;
  DR_MatchedDefault : bool;
  DR_TraceID : string;
  DR_SpanID : string;
  DR_SessionID : string;
  DR_DelegatedFrom : string;
  DR_ApprovalStatus : ApprovalStatus;
  DR_ParentSpanID : string;
  DR_SpanLineage : SpanLineage;
  DR_DurationNanos : string;
  DR_SpanStatus : SpanStatus;
}.

(** The duration field read back: empty is "not observed"; anything else must be the
    canonical decimal of an int64-representable number of nanoseconds. *)
Definition ValidateDurationNanos (r : DecisionRecord) : res Z :=
  if DR_DurationNanos r =s "" then Ok 0
  else
    match parse_uint (DR_DurationNanos r) with
    | None => Err [ErrInvalidDuration]
    | Some v =>
        if format_uint 10 v <>s DR_DurationNanos r then Err [ErrInvalidDuration]
        else if MaxDurationNanos <? v then Err [ErrInvalidDuration]
        else Ok v
    end.

Definition DurationNanosValue (r : DecisionRecord) : Z * bool :=
  match ValidateDurationNanos r with
  | Err _ => (0, false)
  | Ok v => if DR_DurationNanos r =s "" then (0, false) else (v, true)
  end.

Definition Result_DecisionRecord (r : Engine.Result) : DecisionRecord :=
  let ev := Engine.Event_ r in
  {| DR_EventID := Event_ID ev;
     DR_Timestamp := Event_Timestamp ev;
     DR_ActorID := Actor_ID (Event_Actor ev);
     DR_ActorType := Actor_Type (Event_Actor ev);
     DR_IdentityConfidence := Actor_IdentityConfidence (Event_Actor ev);
     DR_Environment := Key_Environment (Engine.BaselineKey r);
     DR_Behavior := Engine.publicStableFeatures (FP_Stable (Engine.Fingerprint_ r));
     DR_FingerprintID := FP_ID (Engine.Fingerprint_ r);
     DR_AnomalyScore := An_Score (Engine.Anomaly_ r);
     DR_AnomalyConfidence := An_Confidence (Engine.Anomaly_ r);
     DR_Contributors := (fun c =>
       {| CR_Name := Sig_Name c; CR_Value := Sig_Value c; CR_Weight := Sig_Weight c;
          CR_Detail := Sig_Detail c |}) <$> An_Contributors (Engine.Anomaly_ r);
     DR_TrustScore := Trust.Score (Engine.Trust_ r);
     DR_RiskLevel := Trust.Risk (Engine.Trust_ r);
     DR_ContextRisk := Trust.ContextRisk (Engine.Trust_ r);
     DR_Decision := Engine.Decision r;
     DR_PolicyRule := Policy.RuleName (Engine.Explanation r);
     DR_PolicyReason := Policy.Reason (Engine.Explanation r);
     DR_MatchedDefault := Policy.MatchedDefault (Engine.Explanation r);
     DR_TraceID := TraceID (Event_Context ev);
     DR_SpanID := SpanID (Event_Context ev);
     DR_SessionID := SessionID (Event_Context ev);
     DR_DelegatedFrom := DelegatedFrom (Event_Context ev);
     DR_ApprovalStatus := Context_ApprovalStatus (Event_Context ev);
     DR_ParentSpanID := ParentSpanID (Event_Context ev);
     DR_SpanLineage := Context_SpanLineage (Event_Context ev);
     DR_DurationNanos := if DurationObserved (Event_Execution ev)
                         then format_uint 10 (DurationNanos (Event_Execution ev)) else "";
     DR_SpanStatus := Execution_Status (Event_Execution ev) |}.

(** ** Lemmas *)
Lemma format_uint_not_empty v : format_uint 10 v <> "".
Proof. destruct (format_digits_nonempty 64 10 v "" ltac:(lia)) as (a & s & E). unfold format_uint. by rewrite E. Qed.

Lemma ValidateDurationNanos_spec r v :
  ValidateDurationNanos r = Ok v <->
  (DR_DurationNanos r = "" /\ v = 0) \/
  (0 <= v <= MaxDurationNanos /\ DR_DurationNanos r = format_uint 10 v).
Proof.
  unfold ValidateDurationNanos. destruct (String.eqb_spec (DR_DurationNanos r) "") as [E|E].
  - split; [intros [= <-]; by left|]. intros [[_ ->]|[_ E2]]; [done|].
    rewrite E in E2. by destruct (format_uint_not_empty v).
  - destruct (parse_uint (DR_DurationNanos r)) as [w|] eqn:Ep.
    + pose proof (parse_uint_range _ _ Ep) as Hw.
      destruct (String.eqb_spec (format_uint 10 w) (DR_DurationNanos r)) as [E2|E2]; cbn [negb].
      * destruct (Z.ltb_spec MaxDurationNanos w).
        -- split; [done|]. intros [[? _]|[Hv E3]]; [done|].
           rewrite <- E2 in E3. apply format_uint_inj in E3; [|done|unfold MaxDurationNanos in *; ulia]. lia.
        -- split; [intros [= <-]; right; split; [ulia|done]|].
           intros [[? _]|[Hv E3]]; [done|]. f_equal. rewrite <- E2 in E3.
           apply format_uint_inj in E3; [done|done|unfold MaxDurationNanos in *; ulia].
      * split; [done|]. intros [[? _]|[Hv E3]]; [done|]. exfalso.
        rewrite E3, parse_format_uint in Ep by (unfold MaxDurationNanos in *; ulia). by simplify_eq.
    + split; [done|]. intros [[? _]|[Hv E3]]; [done|]. exfalso.
      by rewrite E3, parse_format_uint in Ep by (unfold MaxDurationNanos in *; ulia).
Qed.

(** ** Properties *)

(** a record's duration text is accepted exactly when it is empty (not observed) or
    the canonical decimal of a number of nanoseconds an int64 can hold; every rejection
    is ErrInvalidDuration. *)
Theorem ValidateDurationNanos_canonical r :
  (forall v, ValidateDurationNanos r = Ok v <->
     (DR_DurationNanos r = "" /\ v = 0) \/
     (0 <= v <= MaxDurationNanos /\ DR_DurationNanos r = format_uint 10 v)) /\
  (forall err, ValidateDurationNanos r = Err err -> err = [ErrInvalidDuration]).
Proof.
  split; [intros v; apply ValidateDurationNanos_spec|].
  intros err. unfold ValidateDurationNanos. destruct (_ =s _)%go; [done|].
  destruct (parse_uint _); [|congruence]. destruct (_ <>s _)%go; [congruence|].
  destruct (_ <? _); congruence.
Qed.

Definition example_record (duration status : string) : DecisionRecord :=
  {| DR_EventID := "e"; DR_Timestamp := Time (63839664000 * 10^9) 0; DR_ActorID := "svc";
     DR_ActorType := "service"; DR_IdentityConfidence := 0.5%float; DR_Environment := "prod";
     DR_Behavior := sample_stable "read" "db";
     DR_FingerprintID := FP_ID (Fingerprint.Compute_ (sample_stable "read" "db"));
     DR_AnomalyScore := 1%float; DR_AnomalyConfidence := 0%float; DR_Contributors := [];
     DR_TrustScore := 0.5%float; DR_RiskLevel := "high"; DR_ContextRisk := 0%float;
     DR_Decision := "allow"; DR_PolicyRule := ""; DR_PolicyReason := "r"; DR_MatchedDefault := true;
     DR_TraceID := ""; DR_SpanID := ""; DR_SessionID := ""; DR_DelegatedFrom := "";
     DR_ApprovalStatus := ""; DR_ParentSpanID := ""; DR_SpanLineage := "";
     DR_DurationNanos := duration; DR_SpanStatus := status |}.

Lemma ValidateDurationNanos_canonical_witness :
  ValidateDurationNanos (example_record "1500" "ok") = Ok 1500 /\
  (forall err, ValidateDurationNanos (example_record "01500" "ok") = Err err -> err = [ErrInvalidDuration]).
Proof.
  split.
  - apply ValidateDurationNanos_canonical. right. split; [by split|reflexivity].
  - apply ValidateDurationNanos_canonical.
Defined.

(** operational duration survives the record: for every event that validates, the
    record of its analysis reads back exactly the observed duration, and reads back
    "not observed" exactly when there was none - zero nanoseconds is not absence. *)
Theorem duration_roundtrip {S} `{Store S} sprint_other e (s : S) ev r :
  is_u64 (DurationNanos (Event_Execution ev)) ->
  Engine.Analyze sprint_other e s ev = Ok r ->
  DurationNanosValue (Result_DecisionRecord r) =
    if DurationObserved (Event_Execution ev) then (DurationNanos (Event_Execution ev), true) else (0, false).
Proof.
  intros Hu Ha. destruct (Engine.Analyze_Ok _ _ _ _ _ Ha) as (Hv & Hev & _).
  assert (Hmax : DurationObserved (Event_Execution ev) = true ->
                 DurationNanos (Event_Execution ev) <= MaxDurationNanos).
  { intros Ho. unfold Event_Validate, Execution_validate in Hv. res_inv. rewrite Ho in *. bool_prop. cbn in *. bool_prop. lia. }
  set (rec := Result_DecisionRecord r).
  assert (Hd : DR_DurationNanos rec = if DurationObserved (Event_Execution ev)
                 then format_uint 10 (DurationNanos (Event_Execution ev)) else "") by (cbn; by rewrite Hev).
  unfold DurationNanosValue. destruct (DurationObserved (Event_Execution ev)).
  - assert (ValidateDurationNanos rec = Ok (DurationNanos (Event_Execution ev))) as ->.
    { apply ValidateDurationNanos_spec. right. split; [specialize (Hmax eq_refl); ulia|done]. }
    rewrite Hd. destruct (String.eqb_spec (format_uint 10 (DurationNanos (Event_Execution ev))) "") as [E|]; [|done].
    by destruct (format_uint_not_empty _ E).
  - assert (ValidateDurationNanos rec = Ok 0) as ->; [|by rewrite Hd].
    apply ValidateDurationNanos_spec. by left.
Qed.

Definition timed_event : Event :=
  let ev := sample_event "a" "b" in
  {| Event_ID := Event_ID ev; Event_Timestamp := Event_Timestamp ev; Event_Actor := Event_Actor ev;
     Event_Operation := Event_Operation ev; Event_Target := Event_Target ev;
     Event_Attributes := ∅; Event_Context := Event_Context ev;
     Event_Execution := {| DurationNanos := 1500; DurationObserved := true; Execution_Status := "ok" |} |}.

Lemma duration_roundtrip_witness :
  exists r, Engine.Analyze (S := InMemory) Engine.example_sprint (Engine.example_engine "s") NewInMemory timed_event = Ok r /\
    DurationNanosValue (Result_DecisionRecord r) = (1500, true).
Proof.
  destruct (Engine.Analyze (S := InMemory) Engine.example_sprint (Engine.example_engine "s") NewInMemory timed_event)
    as [r|] eqn:Er; [|vm_compute in Er; discriminate].
  exists r. split; [reflexivity|].
  exact (duration_roundtrip Engine.example_sprint (Engine.example_engine "s") NewInMemory timed_event r
           ltac:(by split) Er).
Defined.
