(* ===== verification/Domain.v ===== *)
(** * Package platform: the evaluation domain (domain.go)

    Projects, agents, candidates and evaluation runs, with the identifier, name and text
    rules they share and the lifecycle of a run.  An operation on a run returns the
    changed value; its argument is never mutated. *)
From Stdlib Require Import Ascii.
From S2P Require Import Prelude GoText GoTime.

Open Scope string_scope.
Open Scope Z_scope.

Definition maxIdentifierLength : Z := 256.

(** ** Text rules *)
Definition is_control (r : Z) : bool :=
  (r <? 0x20) || (r =? 0x7f) || ((0x80 <=? r) && (r <=? 0x9f)).

Definition validateText (kind : sentinel) (value : string) : res unit :=
  fail_if (maxIdentifierLength <? len value) [kind];;
  fail_if (negb (valid_string value)) [kind];;
  fail_if (existsb (fun c => is_control (rune c)) (chunks value)) [kind].

Definition validateID (value : string) : res unit :=
  fail_if (value =s "") [ErrInvalidID];;
  validateText ErrInvalidID value;;
  fail_if (trim_space value <>s value) [ErrInvalidID].

Definition validateName (value : string) : res unit :=
  fail_if (trim_space value =s "") [ErrInvalidName];;
  validateText ErrInvalidName value.

(** ** Identifiers *)
Definition ProjectID := string.
Definition AgentID := string.
Definition CandidateID := string.
Definition EvaluationRunID := string.
Definition PromotionID := string.
Definition EnvironmentRef := string.
Definition BehavioralProfileRef := string.

(** ** Project, Agent, Candidate *)
Record Project : Type := { Project_id : ProjectID; Project_name : string }.

Definition NewProject (id : ProjectID) (name : string) : res Project :=
  validateID id;; validateName name;;
  Ok {| Project_id := id; Project_name := name |}.

Record Agent : Type := { Agent_id : AgentID; Agent_projectID : ProjectID; Agent_name : string }.

Definition NewAgent (id : AgentID) (projectID : ProjectID) (name : string) : res Agent :=
  validateID id;; validateID projectID;; validateName name;;
  Ok {| Agent_id := id; Agent_projectID := projectID; Agent_name := name |}.

Record CandidateMetadata : Type := {
  Label : string;
  SourceRef : string;
  ArtifactDigest : string;
  Model : string;
  ToolsetDigest : string;
  ConfigDigest : string;
}.

(** Every field is optional. *)
Definition CandidateMetadata_validate (m : CandidateMetadata) : res unit :=
  foldM (fun _ value => if value =s "" then Ok tt else validateText ErrInvalidMetadata value) tt
    [Label m; SourceRef m; ArtifactDigest m; Model m; ToolsetDigest m; ConfigDigest m].

Record Candidate : Type := {
  Candidate_id : CandidateID;
  Candidate_agentID : AgentID;
  Candidate_metadata : CandidateMetadata;
}.

Definition NewCandidate (id : CandidateID) (agentID : AgentID) (meta : CandidateMetadata) : res Candidate :=
  validateID id;; validateID agentID;; CandidateMetadata_validate meta;;
  Ok {| Candidate_id := id; Candidate_agentID := agentID; Candidate_metadata := meta |}.

(** ** EvaluationRun *)
Definition RunStatus := string.
Definition RunPending : RunStatus := "pending".
Definition RunRunning : RunStatus := "running".
Definition RunCompleted : RunStatus := "completed".
Definition RunFailed : RunStatus := "failed".
Definition RunCancelled : RunStatus := "cancelled".

Definition IsTerminal (s : RunStatus) : bool :=
  bool_decide (s ∈ [RunCompleted; RunFailed; RunCancelled]).
Definition RunStatus_valid (s : RunStatus) : bool :=
  bool_decide (s ∈ [RunPending; RunRunning; RunCompleted; RunFailed; RunCancelled]).

Record EvaluationRun : Type := {
  run_id : EvaluationRunID;
  run_candidateID : CandidateID;
  run_environment : EnvironmentRef;
  run_profile : BehavioralProfileRef;
  status : RunStatus;
  createdAt : time;
  startedAt : time;
  finishedAt : time;
  failureReason : string;
}.

Definition NewEvaluationRun (id : EvaluationRunID) (candidateID : CandidateID)
    (environment : EnvironmentRef) (profile : BehavioralProfileRef) (created : time) : res EvaluationRun :=
  validateID id;; validateID candidateID;; validateID environment;; validateID profile;;
  fail_if (time_is_zero created) [ErrInvalidTimestamp];;
  Ok {| run_id := id; run_candidateID := candidateID; run_environment := environment;
        run_profile := profile; status := RunPending; createdAt := created;
        startedAt := zero_time; finishedAt := zero_time; failureReason := "" |}.

Definition transitionAllowed (r : EvaluationRun) (to : RunStatus) : res unit :=
  fail_if (negb (RunStatus_valid (status r))) [ErrInvalidTransition];;
  fail_if (IsTerminal (status r)) [ErrInvalidTransition];;
  let allowed :=
    if status r =s RunPending then (to =s RunRunning) || (to =s RunCancelled)
    else if status r =s RunRunning then
      (to =s RunCompleted) || (to =s RunFailed) || (to =s RunCancelled)
    else false in
  fail_if (negb allowed) [ErrInvalidTransition].

Definition notBefore (at_ than : time) : res unit :=
  fail_if (time_is_zero at_) [ErrInvalidTimestamp];;
  fail_if (time_before at_ than) [ErrInvalidTimestamp].

Definition Start (r : EvaluationRun) (at_ : time) : res EvaluationRun :=
  transitionAllowed r RunRunning;;
  notBefore at_ (createdAt r);;
  Ok {| run_id := run_id r; run_candidateID := run_candidateID r;
        run_environment := run_environment r; run_profile := run_profile r;
        status := RunRunning; createdAt := createdAt r; startedAt := at_;
        finishedAt := finishedAt r; failureReason := failureReason r |}.

Definition finish (r : EvaluationRun) (to : RunStatus) (at_ : time) (reason : string) : res EvaluationRun :=
  transitionAllowed r to;;
  (if reason <>s "" then validateText ErrInvalidMetadata reason else Ok tt);;
  let after := if time_is_zero (startedAt r) then createdAt r else startedAt r in
  notBefore at_ after;;
  Ok {| run_id := run_id r; run_candidateID := run_candidateID r;
        run_environment := run_environment r; run_profile := run_profile r;
        status := to; createdAt := createdAt r; startedAt := startedAt r;
        finishedAt := at_; failureReason := reason |}.

Definition Complete (r : EvaluationRun) (at_ : time) : res EvaluationRun := finish r RunCompleted at_ "".
Definition Fail_ (r : EvaluationRun) (at_ : time) (reason : string) : res EvaluationRun :=
  finish r RunFailed at_ reason.
Definition Cancel (r : EvaluationRun) (at_ : time) : res EvaluationRun := finish r RunCancelled at_ "".

(** ** The lifecycle as a step relation *)
Inductive run_step : EvaluationRun -> EvaluationRun -> Prop :=
| step_start r at_ r' : Start r at_ = Ok r' -> run_step r r'
| step_complete r at_ r' : Complete r at_ = Ok r' -> run_step r r'
| step_fail r at_ reason r' : Fail_ r at_ reason = Ok r' -> run_step r r'
| step_cancel r at_ r' : Cancel r at_ = Ok r' -> run_step r r'.

Inductive run_reachable : EvaluationRun -> Prop :=
| reach_new id candidate environment profile created r :
    NewEvaluationRun id candidate environment profile created = Ok r -> run_reachable r
| reach_step r r' : run_reachable r -> run_step r r' -> run_reachable r'.

(** What each status says about the times and the failure reason. *)
Record run_ok (r : EvaluationRun) : Prop := {
  ok_status : RunStatus_valid (status r) = true;
  ok_created : time_is_zero (createdAt r) = false;
  ok_started : time_is_zero (startedAt r) = false -> time_before (startedAt r) (createdAt r) = false;
  ok_pending : status r = RunPending -> startedAt r = zero_time /\ finishedAt r = zero_time;
  ok_running : status r = RunRunning -> time_is_zero (startedAt r) = false /\ finishedAt r = zero_time;
  ok_finished : IsTerminal (status r) = true ->
    time_is_zero (finishedAt r) = false /\ time_before (finishedAt r) (createdAt r) = false /\
    (time_is_zero (startedAt r) = false -> time_before (finishedAt r) (startedAt r) = false);
  ok_outcome : status r = RunCompleted \/ status r = RunFailed -> time_is_zero (startedAt r) = false;
  ok_reason : failureReason r <> "" -> status r = RunFailed;
}.

(** ** Lemmas *)
Lemma transitionAllowed_Ok r to :
  transitionAllowed r to = Ok tt <->
  (status r = RunPending /\ (to = RunRunning \/ to = RunCancelled)) \/
  (status r = RunRunning /\ (to = RunCompleted \/ to = RunFailed \/ to = RunCancelled)).
Proof.
  unfold transitionAllowed, fail_if. split.
  - intros H. destruct (negb (RunStatus_valid _)); [done|]. cbn in H. destruct (IsTerminal _); [done|]. cbn in H.
    destruct (String.eqb_spec (status r) RunPending); [left|destruct (String.eqb_spec (status r) RunRunning); [right|done]];
      (split; [done|]).
    + destruct (String.eqb_spec to RunRunning), (String.eqb_spec to RunCancelled); cbn in H; auto; done.
    + destruct (String.eqb_spec to RunCompleted), (String.eqb_spec to RunFailed),
        (String.eqb_spec to RunCancelled); cbn in H; auto; done.
  - intros [[Hs Ht]|[Hs Ht]]; rewrite Hs; cbn; intuition (subst; done).
Qed.

Lemma notBefore_Ok at_ than :
  notBefore at_ than = Ok tt <-> time_is_zero at_ = false /\ time_before at_ than = false.
Proof. unfold notBefore, fail_if. destruct (time_is_zero at_), (time_before at_ than); cbn; intuition congruence. Qed.

Lemma NewEvaluationRun_ok id candidate environment profile created r :
  NewEvaluationRun id candidate environment profile created = Ok r -> run_ok r.
Proof. unfold NewEvaluationRun. intros H. res_inv. subst r. split; cbn; try done. by intros [?|?]. Qed.

Lemma Start_spec r at_ r' : Start r at_ = Ok r' ->
  status r = RunPending /\ time_is_zero at_ = false /\ time_before at_ (createdAt r) = false /\
  r' = {| run_id := run_id r; run_candidateID := run_candidateID r;
          run_environment := run_environment r; run_profile := run_profile r;
          status := RunRunning; createdAt := createdAt r; startedAt := at_;
          finishedAt := finishedAt r; failureReason := failureReason r |}.
Proof.
  intros H. unfold Start in H. res_inv.
  match goal with H : transitionAllowed _ _ = _ |- _ =>
    apply transitionAllowed_Ok in H as [[Hs Ht]|[Hs [Ht|[Ht|Ht]]]] end; [|done..].
  match goal with H : notBefore _ _ = _ |- _ => apply notBefore_Ok in H as [Hz Hb] end. done.
Qed.

Lemma finish_spec r to at_ reason r' : finish r to at_ reason = Ok r' ->
  ((status r = RunPending /\ to = RunCancelled) \/
   (status r = RunRunning /\ (to = RunCompleted \/ to = RunFailed \/ to = RunCancelled)) \/
   (status r = RunPending /\ to = RunRunning)) /\
  time_is_zero at_ = false /\
  time_before at_ (if time_is_zero (startedAt r) then createdAt r else startedAt r) = false /\
  r' = {| run_id := run_id r; run_candidateID := run_candidateID r;
          run_environment := run_environment r; run_profile := run_profile r;
          status := to; createdAt := createdAt r; startedAt := startedAt r;
          finishedAt := at_; failureReason := reason |}.
Proof.
  intros H. unfold finish in H. res_inv.
  match goal with H : transitionAllowed _ _ = _ |- _ => apply transitionAllowed_Ok in H end.
  match goal with H : notBefore _ _ = _ |- _ => apply notBefore_Ok in H as [Hz Hb] end.
  split; [tauto|done].
Qed.

Lemma Start_ok r at_ r' : run_ok r -> Start r at_ = Ok r' -> run_ok r'.
Proof.
  intros [] (Hs & Hz & Hb & ->)%Start_spec. destruct (ok_pending0 Hs) as [_ Hf].
  split; cbn; try done.
  intros Hne. specialize (ok_reason0 Hne). rewrite Hs in ok_reason0. done.
Qed.

Lemma finish_ok r to at_ reason r' :
  run_ok r -> (reason <> "" -> to = RunFailed) -> to <> RunRunning -> finish r to at_ reason = Ok r' -> run_ok r'.
Proof.
  intros [] Hreason Hto (Hs & Hz & Hb & ->)%finish_spec.
  assert (Hterm : IsTerminal to = true /\ RunStatus_valid to = true) by (by destruct Hs as [[_ ->]|[[_ [-> |[-> | ->]]]|[_ ->]]]).
  assert (Hstart : to = RunCompleted \/ to = RunFailed -> time_is_zero (startedAt r) = false).
  { intros Ht. destruct Hs as [[_ ->]|[[Hs _]|[_ ->]]]; [by destruct Ht|by destruct (ok_running0 Hs)|by destruct Ht]. }
  split; cbn; try done; try tauto.
  - intros ->. by destruct Hterm.
  - intros _. split; [done|]. destruct (time_is_zero (startedAt r)) eqn:E; [done|].
    specialize (ok_started0 eq_refl). unfold time_before in *.
    apply Z.ltb_ge in Hb, ok_started0. split; [apply Z.ltb_ge; lia|intros _; by apply Z.ltb_ge].
Qed.

Lemma run_step_ok r r' : run_ok r -> run_step r r' -> run_ok r'.
Proof.
  intros Hr Hs. revert Hr. destruct Hs as [r1 at_ r2 H|r1 at_ r2 H|r1 at_ reason r2 H|r1 at_ r2 H]; intros Hr.
  - by eapply Start_ok.
  - by apply (finish_ok r1 RunCompleted at_ "" r2 Hr); [intros []|..].
  - by apply (finish_ok r1 RunFailed at_ reason r2 Hr).
  - by apply (finish_ok r1 RunCancelled at_ "" r2 Hr); [intros []|..].
Qed.

Lemma run_step_frame r r' : run_step r r' ->
  IsTerminal (status r) = false /\ run_id r' = run_id r /\ run_candidateID r' = run_candidateID r /\
  run_environment r' = run_environment r /\ run_profile r' = run_profile r /\ createdAt r' = createdAt r.
Proof.
  assert (Hf : forall r to at_ reason r', finish r to at_ reason = Ok r' ->
    IsTerminal (status r) = false /\ run_id r' = run_id r /\ run_candidateID r' = run_candidateID r /\
    run_environment r' = run_environment r /\ run_profile r' = run_profile r /\ createdAt r' = createdAt r).
  { intros r0 to at_ reason r1 (Hs & _ & _ & ->)%finish_spec. cbn.
    destruct Hs as [[-> _]|[[-> _]|[-> _]]]; done. }
  intros [r1 at_ r2 H|r1 at_ r2 H|r1 at_ reason r2 H|r1 at_ r2 H]; [|by eapply Hf..].
  by apply Start_spec in H as (-> & _ & _ & ->).
Qed.

Lemma validateText_Ok kind value :
  validateText kind value = Ok tt <->
  len value <= maxIdentifierLength /\ valid_string value = true /\
  Forall (fun c => is_control (rune c) = false) (chunks value).
Proof.
  assert (Hc : existsb (fun c => is_control (rune c)) (chunks value) = false <->
               Forall (fun c => is_control (rune c) = false) (chunks value)).
  { induction (chunks value) as [|c l IH]; cbn; [split; [constructor|done]|].
    by rewrite orb_false_iff, Forall_cons, IH. }
  rewrite <- Hc. unfold validateText, fail_if.
  destruct (Z.ltb_spec maxIdentifierLength (len value)), (valid_string value),
    (existsb (fun c => is_control (rune c)) (chunks value)); cbn; split; try done; intuition (done || lia).
Qed.

(** ** Properties *)

(** every evaluation run reachable from creation by any sequence of start,
    complete, fail and cancel, in any order and with any times, tells a consistent
    story: a pending run has no start and no finish, a running one has a start not
    before its creation and no finish, a finished one has a finish not before its
    creation nor its start, a completed or failed one did start, and only a failed run
    carries a failure reason. *)
Theorem run_lifecycle_consistent r : run_reachable r -> run_ok r.
Proof.
  induction 1 as [id candidate environment profile created r H|r r' _ IH H].
  - by eapply NewEvaluationRun_ok.
  - by eapply run_step_ok.
Qed.

Definition day (n : Z) : time := Time (n * 86400000000000) 0.

Lemma run_lifecycle_consistent_witness : exists r,
  (r0 ← NewEvaluationRun "r" "c" "staging" "p" (day 1);
   r1 ← Start r0 (day 2); Fail_ r1 (day 3) "timeout") = Ok r /\ run_ok r.
Proof.
  eexists. split; [vm_compute; reflexivity|]. apply run_lifecycle_consistent.
  eapply reach_step; [eapply reach_step; [eapply (reach_new "r" "c" "staging" "p" (day 1)); vm_compute; reflexivity|]|].
  - eapply (step_start _ (day 2)). vm_compute. reflexivity.
  - eapply (step_fail _ (day 3) "timeout"). vm_compute. reflexivity.
Defined.

(** a terminal run is final and a run's identity never changes: no operation
    succeeds on a completed, failed or cancelled run - each returns
    ErrInvalidTransition - and any operation that succeeds leaves the run's id,
    candidate, environment, profile and creation time as they were. *)
Theorem terminal_run_final r at_ reason :
  (IsTerminal (status r) = true ->
     Start r at_ = Err [ErrInvalidTransition] /\ Complete r at_ = Err [ErrInvalidTransition] /\
     Fail_ r at_ reason = Err [ErrInvalidTransition] /\ Cancel r at_ = Err [ErrInvalidTransition]) /\
  (forall r', run_step r r' ->
     run_id r' = run_id r /\ run_candidateID r' = run_candidateID r /\
     run_environment r' = run_environment r /\ run_profile r' = run_profile r /\
     createdAt r' = createdAt r).
Proof.
  split.
  - intros Ht. assert (H : forall to, transitionAllowed r to = Err [ErrInvalidTransition]).
    { intros to. unfold transitionAllowed, fail_if. destruct (RunStatus_valid (status r)); [|done].
      cbn. by rewrite Ht. }
    unfold Start, Complete, Fail_, Cancel, finish. by rewrite !H.
  - intros r' H. apply run_step_frame in H. tauto.
Qed.

Definition cancelled_run : EvaluationRun :=
  {| run_id := "r"; run_candidateID := "c"; run_environment := "e"; run_profile := "p";
     status := RunCancelled; createdAt := day 1; startedAt := zero_time; finishedAt := day 2;
     failureReason := "" |}.

Lemma terminal_run_final_witness : Start cancelled_run (day 3) = Err [ErrInvalidTransition].
Proof. apply (terminal_run_final cancelled_run (day 3) ""). by vm_compute. Defined.
