(* ===== verification/Paging.v ===== *)
(** * Keyset pages

    Every listing of the platform is paged the same way: rows in a strict order, a cursor
    naming the last row returned, a bounded limit
    ([WHERE key > ? ORDER BY key LIMIT ?]).  This file defines a page once, over any strict
    order, and the walk a reader makes through the pages. *)
From S2P Require Import Prelude.

Open Scope string_scope.
Open Scope Z_scope.

Section pages.
Context {A C : Type} (lt : relation A) (beyond : C -> A -> bool) (cursor_of : A -> C).

(** The page after [cursor]: at most [limit] of the rows beyond it, in order. *)
Definition page (rows : list A) (cursor : C) (limit : nat) : list A :=
  take limit (List.filter (beyond cursor) rows).

(** Reading page after page, from each page's last row, until a page is empty. *)
Fixpoint walk (rows : list A) (limit : nat) (fuel : nat) (cursor : C) : list A :=
  match fuel with
  | O => []
  | S fuel =>
      match last (page rows cursor limit) with
      | None => []
      | Some x => (page rows cursor limit ++ walk rows limit fuel (cursor_of x))%list
      end
  end.

(** The order and the cursors agree on the rows that can occur. *)
Context (P : A -> Prop) (beyond_lt : forall x y, P x -> beyond (cursor_of x) y = true <-> lt x y).
Context (lt_irrefl : forall x, ~ lt x x) (lt_trans : forall x y z, lt x y -> lt y z -> lt x z).

Lemma filter_split (f : A -> bool) l1 l2 :
  Forall (fun x => f x = false) l1 -> Forall (fun x => f x = true) l2 -> List.filter f (l1 ++ l2) = l2.
Proof.
  intros H1 H2. induction H1 as [|x l1 Hx H1 IH]; cbn; [|by rewrite Hx].
  induction H2 as [|x l2 Hx H2 IH]; cbn; [done|]. rewrite Hx. by f_equal.
Qed.

Lemma beyond_last rows done x rest : Forall P rows -> StronglySorted lt rows -> rows = (done ++ [x] ++ rest)%list ->
  List.filter (beyond (cursor_of x)) rows = rest.
Proof.
  intros HP Hs ->. rewrite !Forall_app, Forall_singleton in HP. destruct HP as (_ & Px & _).
  rewrite app_assoc. apply filter_split.
  - apply Forall_app. split.
    + apply Forall_forall. intros y Hy. apply not_true_iff_false. rewrite beyond_lt by done. intros Hxy.
      apply StronglySorted_app_1_elem_of with (x1 := y) (x2 := x) in Hs; [|done|set_solver].
      apply (lt_irrefl x). by eapply lt_trans.
    + constructor; [|constructor]. apply not_true_iff_false. rewrite beyond_lt by done. apply lt_irrefl.
  - apply StronglySorted_app_1_r, StronglySorted_inv in Hs as [_ Hs]. eapply Forall_impl; [exact Hs|].
    intros y. by rewrite beyond_lt.
Qed.

Lemma walk_from rows limit done rest fuel cursor : Forall P rows -> StronglySorted lt rows -> (0 < limit)%nat ->
  rows = (done ++ rest)%list -> List.filter (beyond cursor) rows = rest -> (length rest < fuel)%nat ->
  walk rows limit fuel cursor = rest.
Proof.
  intros HP Hs Hl. revert done rest cursor. induction fuel as [|fuel IH]; intros done rest cursor Hrows Hf Hlen; [lia|].
  cbn [walk]. unfold page. rewrite Hf. destruct rest as [|y rest]; [by rewrite take_nil|].
  destruct limit as [|limit]; [lia|]. destruct (last (take (S limit) (y :: rest))) as [x|] eqn:El; [|by apply last_None in El].
  apply last_Some in El as [front Ef].
  assert (Hsplit : rows = ((done ++ front) ++ [x] ++ drop (S limit) (y :: rest))%list).
  { rewrite Hrows, <- (take_drop (S limit) (y :: rest)) at 1. by rewrite Ef, <- !app_assoc. }
  rewrite (IH (done ++ front ++ [x])%list (drop (S limit) (y :: rest)) (cursor_of x)).
  - apply take_drop.
  - rewrite Hsplit, <- !app_assoc. done.
  - exact (beyond_last _ _ _ _ HP Hs Hsplit).
  - rewrite length_drop. cbn [length] in *. lia.
Qed.

Lemma walk_all_on rows limit fuel start : Forall P rows -> StronglySorted lt rows -> (0 < limit)%nat ->
  Forall (fun x => beyond start x = true) rows -> (length rows < fuel)%nat -> walk rows limit fuel start = rows.
Proof.
  intros HP Hs Hl Hb Hf. apply (walk_from rows limit [] rows); try done. clear HP.
  induction Hb as [|x l Hx Hb IH]; [done|]. cbn. rewrite Hx. f_equal. apply IH; [by apply StronglySorted_inv in Hs as [? _]|cbn in Hf; lia].
Qed.
End pages.

(** ** Pages by a distinct string key, ascending *)
Definition string_lt (a b : string) : bool := bool_decide (String.le a b /\ a <> b).

Section keyed.
Context {A : Type} (key : A -> string).
Definition key_lt (x y : A) : Prop := string_lt (key x) (key y) = true.
Definition key_page (rows : list A) (after : string) (limit : Z) : list A :=
  page (fun cursor r => string_lt cursor (key r)) (sort_by key rows) after (Z.to_nat limit).
Definition key_walk (rows : list A) (limit : Z) (fuel : nat) : list A :=
  walk (fun cursor r => string_lt cursor (key r)) key (sort_by key rows) (Z.to_nat limit) fuel "".

Lemma string_lt_iff a b : string_lt a b = true <-> String.le a b /\ a <> b.
Proof. unfold string_lt. apply bool_decide_eq_true. Qed.
Lemma string_lt_trans a b c : string_lt a b = true -> string_lt b c = true -> string_lt a c = true.
Proof.
  rewrite !string_lt_iff. intros [H1 N1] [H2 N2]. split; [by transitivity b|]. intros ->. apply N1. by apply (anti_symm String.le).
Qed.

Lemma sort_by_strict rows : NoDup (key <$> rows) -> StronglySorted key_lt (sort_by key rows).
Proof.
  intros Hnd. rewrite <- (sort_by_perm key rows) in Hnd. pose proof (sort_by_sorted key rows) as Hs.
  induction Hs as [|x l Hs IH Hx]; [constructor|]. apply NoDup_cons in Hnd as [Hn Hnd]. constructor; [by apply IH|].
  rewrite Forall_forall in Hx |- *. intros y Hy. apply string_lt_iff. split; [by apply Hx|].
  intros E. apply Hn. rewrite E. by apply list_elem_of_fmap_2.
Qed.

Lemma empty_lt k : k <> "" -> string_lt "" k = true.
Proof. intros H. apply string_lt_iff. split; [by destruct k|congruence]. Qed.

(** A reader that follows the cursors sees every row once, in order, and stops. *)
Lemma key_walk_all rows limit fuel : NoDup (key <$> rows) -> Forall (fun r => key r <> "") rows ->
  1 <= limit -> (length rows < fuel)%nat -> key_walk rows limit fuel = sort_by key rows.
Proof.
  intros Hnd Hne Hl Hf. unfold key_walk. apply (walk_all_on key_lt _ _ (fun _ => True)).
  - intros x y. done.
  - intros x H%string_lt_iff. by destruct H.
  - intros x y z. apply string_lt_trans.
  - by apply Forall_true.
  - by apply sort_by_strict.
  - lia.
  - apply Forall_forall. intros x Hx%elem_of_sort_by. apply empty_lt. by eapply Forall_forall in Hne.
  - by rewrite sort_by_length.
Qed.

Lemma key_page_spec rows after limit : 
  (length (key_page rows after limit) <= Z.to_nat limit)%nat /\
  Forall (fun r => r ∈ rows /\ string_lt after (key r) = true) (key_page rows after limit).
Proof.
  unfold key_page, page. split; [rewrite length_take; lia|]. apply Forall_forall. intros r Hr.
  apply list_elem_of_In in Hr.
  assert (Hin : In r (List.filter (fun r => string_lt after (key r)) (sort_by key rows))).
  { rewrite <- (take_drop (Z.to_nat limit) (List.filter _ _)). apply in_or_app. by left. }
  apply filter_In in Hin as [H1 H2]. split; [|done]. by apply (elem_of_sort_by key), list_elem_of_In.
Qed.
End keyed.
