(* ===== verification/Counters.v ===== *)
(** * uint64 counters

    The overflow-checked additions the platform's evidence is built on, and the
    comma-separated text its counter vectors are stored as. *)
From Stdlib Require Import Ascii.
From S2P Require Import Prelude GoText.

Open Scope Z_scope.

(** platform/sqlite.go *)
Definition sumNoOverflow (parts : list Z) : res Z :=
  foldM (fun total p => if max_u64 - p <? total then Err [] else Ok (total + p)) 0 parts.

(** platform/operational.go: base + factor * value, when a uint64 holds it. *)
Definition addMulNoOverflow (base factor value : Z) : Z * bool :=
  if negb (value =? 0) && (max_u64 / value <? factor) then (0, false)
  else
    let product := factor * value in
    if max_u64 - base <? product then (0, false) else (base + product, true).

(** platform/behavior_operational.go *)
Definition addCount (field n : Z) : res Z :=
  if max_u64 - n <? field then Err [ErrBehaviorOverflow] else Ok (field + n).

Definition sumL (l : list Z) : Z := foldr Z.add 0 l.
Definition dot (ns vs : list Z) : Z := sumL (zip_with Z.mul ns vs).

Lemma addCount_Ok a n b : is_u64 a -> is_u64 n -> addCount a n = Ok b <-> b = a + n /\ is_u64 b.
Proof.
  unfold addCount, is_u64, max_u64. intros Ha Hn. destruct (Z.ltb_spec (18446744073709551615 - n) a).
  - split; [done|intros [-> ?]; lia].
  - split; [intros [= <-]; lia|by intros [-> _]].
Qed.

Lemma sumL_nonneg l : Forall is_u64 l -> 0 <= sumL l.
Proof. unfold sumL. induction 1 as [|x l Hx _ IH]; cbn [foldr]; [lia|]. ulia. Qed.

Lemma sumNoOverflow_acc l acc : Forall is_u64 l -> is_u64 acc ->
  forall t, foldM (fun total p => if max_u64 - p <? total then Err [] else Ok (total + p)) acc l = Ok t <->
    t = acc + sumL l /\ acc + sumL l <= max_u64.
Proof.
  intros Hl. revert acc. induction Hl as [|x l Hx Hl IH]; intros acc Ha t; cbn [foldM sumL foldr].
  - split; [intros [= <-]; ulia|]. intros [-> _]. f_equal. lia.
  - pose proof (sumL_nonneg l Hl). fold (sumL l).
    destruct (Z.ltb_spec (max_u64 - x) acc); cbn.
    + split; [done|]. intros [_ ?]. exfalso. ulia.
    + rewrite IH by ulia. rewrite Z.add_assoc. done.
Qed.

Lemma sumNoOverflow_Ok l t : Forall is_u64 l ->
  sumNoOverflow l = Ok t <-> t = sumL l /\ sumL l <= max_u64.
Proof. intros Hl. unfold sumNoOverflow. rewrite sumNoOverflow_acc by (done || ulia). done. Qed.

Lemma addMulNoOverflow_spec base factor value r ok :
  is_u64 base -> is_u64 factor -> is_u64 value -> addMulNoOverflow base factor value = (r, ok) ->
  (ok = true -> r = base + factor * value /\ is_u64 r) /\
  (ok = true <-> base + factor * value <= max_u64).
Proof.
  unfold addMulNoOverflow. intros Hb Hf Hv E.
  destruct (Z.eqb_spec value 0) as [->|Hne]; cbn [negb andb] in E.
  - rewrite Z.mul_0_r in *. destruct (Z.ltb_spec (max_u64 - base) 0); [ulia|]. simplify_eq. split; [|ulia]. ulia.
  - assert (Hq : max_u64 / value < factor <-> max_u64 < factor * value).
    { split; intros H.
      - assert (max_u64 < value * (max_u64 / value + 1)) by (pose proof (Z.mod_pos_bound max_u64 value); pose proof (Z.div_mod max_u64 value); ulia).
        assert (value * (max_u64 / value + 1) <= value * factor) by (apply Z.mul_le_mono_nonneg_l; ulia). lia.
      - destruct (Z.lt_ge_cases (max_u64 / value) factor) as [|Hle]; [done|]. exfalso.
        assert (value * factor <= value * (max_u64 / value)) by (apply Z.mul_le_mono_nonneg_l; ulia).
        pose proof (Z.mul_div_le max_u64 value). ulia. }
    assert (0 <= factor * value) by (apply Z.mul_nonneg_nonneg; ulia).
    destruct (Z.ltb_spec (max_u64 / value) factor) as [Hlt|Hge].
    + simplify_eq. split; [done|]. split; [done|]. intros. apply Hq in Hlt. ulia.
    + destruct (Z.ltb_spec (max_u64 - base) (factor * value)); simplify_eq; (split; [ulia|]); split; ulia.
Qed.

(** ** Stored counter vectors *)
Fixpoint encode_counts (l : list Z) : string :=
  match l with
  | [] => EmptyString
  | [n] => format_uint 10 n
  | n :: l => String.append (format_uint 10 n) (String ","%char (encode_counts l))
  end.

(** Exactly what [format_uint 10] writes, as the check on the first bytes says it. *)
Definition parseCanonicalUint64 (s : string) : option Z :=
  match s with
  | EmptyString => None
  | String a rest =>
      if (byte_of a <? 48) || (57 <? byte_of a) || ((1 <? len s) && (byte_of a =? 48)) then None
      else parse_uint s
  end.

(** [n] counters separated by commas, no more and no fewer. *)
Fixpoint decode_counts (n : nat) (rest : string) : res (list Z) :=
  match n with
  | O => Ok []
  | S n' =>
      let '(field, tail, more) := cut rest ","%char in
      if negb (Bool.eqb more (negb (Nat.eqb n' 0))) then Err [ErrStoreCorrupt]
      else
        match parseCanonicalUint64 field with
        | None => Err [ErrStoreCorrupt]
        | Some v => l ← decode_counts n' tail; Ok (v :: l)
        end
  end.

(** ** Single columns (platform/sqlite.go) *)
Definition uint64Text (v : Z) : string := format_uint 10 v.
Definition parseUint64Text (s : string) : res Z :=
  match parse_uint s with
  | None => Err [ErrStoreCorrupt]
  | Some v => fail_if (format_uint 10 v <>s s) [ErrStoreCorrupt];; Ok v
  end.
Definition boolInt (b : bool) : Z := if b then 1 else 0.
Definition parseStoredBool (v : Z) : res bool :=
  if v =? 0 then Ok false else if v =? 1 then Ok true else Err [ErrStoreCorrupt].

(** ** Lemmas *)
Lemma parseUint64Text_format v : is_u64 v -> parseUint64Text (uint64Text v) = Ok v.
Proof. intros H. unfold parseUint64Text, uint64Text. by rewrite (parse_format_uint v H), String.eqb_refl. Qed.
Lemma parseStoredBool_int b : parseStoredBool (boolInt b) = Ok b.
Proof. by destruct b. Qed.
Lemma parse_digits_leading s acc v : parse_digits s acc = Some v -> 0 <= acc -> acc <= v.
Proof.
  revert acc. induction s as [|a s IH]; intros acc H Ha; cbn in H; [by simplify_eq|].
  unfold digit_value in H. destruct ((48 <=? byte_of a) && (byte_of a <=? 57)) eqn:E; [|done]. bool_prop.
  destruct (_ <=? max_u64); [|done]. specialize (IH _ H). lia.
Qed.

Lemma byte_digit_char d : 0 <= d < 10 -> byte_of (digit_char d) = 48 + d.
Proof.
  intros H. assert (d = 0 \/ d = 1 \/ d = 2 \/ d = 3 \/ d = 4 \/ d = 5 \/ d = 6 \/ d = 7 \/ d = 8 \/ d = 9)
    as Hd by lia.
  by repeat destruct Hd as [->|Hd]; [..|subst].
Qed.

(** The text of a number starts with a digit, and with 0 only when it is "0". *)
Lemma format_digits_head fuel v acc :
  0 <= v < 2 ^ Z.of_nat fuel -> (0 < fuel)%nat ->
  exists d s, format_digits fuel 10 v acc = String (digit_char d) s /\ 0 <= d < 10 /\
    (d = 0 -> v = 0 /\ s = acc).
Proof.
  revert v acc. induction fuel as [|fuel IH]; intros v acc Hv Hf; [lia|]. cbn [format_digits].
  pose proof (Z.mod_pos_bound v 10). pose proof (Z.div_mod v 10).
  destruct (Z.eqb_spec (v / 10) 0) as [E|E].
  - exists (v mod 10), acc. repeat split; try lia; try done.
  - assert (0 <= v / 10) by (apply Z.div_pos; lia).
    assert (Hlt : v / 10 < 2 ^ Z.of_nat fuel).
    { rewrite Nat2Z.inj_succ, Z.pow_succ_r in Hv by lia. apply Z.div_lt_upper_bound; lia. }
    destruct (IH (v / 10) (String (digit_char (v mod 10)) acc)) as (d & s & -> & Hd & Hz).
    + lia.
    + destruct fuel; [|lia]. cbn in Hlt. lia.
    + exists d, s. split; [done|]. split; [done|]. intros ->. destruct Hz; [done|lia].
Qed.

Lemma parseCanonical_format v : is_u64 v -> parseCanonicalUint64 (format_uint 10 v) = Some v.
Proof.
  intros Hv. pose proof (parse_format_uint v Hv) as Hp. unfold format_uint in *.
  destruct (format_digits_head 64 v EmptyString) as (d & s & E & Hd & H0).
  { unfold is_u64, max_u64 in Hv. replace (2 ^ Z.of_nat 64) with 18446744073709551616 by reflexivity. lia. }
  { lia. }
  rewrite E in *. unfold parseCanonicalUint64. rewrite byte_digit_char by done.
  destruct (Z.ltb_spec (48 + d) 48); [lia|]. destruct (Z.ltb_spec 57 (48 + d)); [lia|]. cbn [orb].
  destruct (Z.eqb_spec (48 + d) 48); [|by rewrite andb_false_r].
  destruct H0 as [_ ->]; [lia|]. done.
Qed.

Lemma parseCanonical_range s v : parseCanonicalUint64 s = Some v -> is_u64 v.
Proof.
  unfold parseCanonicalUint64. destruct s; [done|]. destruct (_ || _); [done|]. apply parse_uint_range.
Qed.

Lemma decode_encode l : l <> [] -> Forall is_u64 l -> decode_counts (length l) (encode_counts l) = Ok l.
Proof.
  intros Hne Hl. induction Hl as [|n l Hn Hl IH]; [done|]. cbn [length decode_counts].
  assert (Hnb : has_byte ","%char (format_uint 10 n) = false) by (apply format_uint_no_byte; [ulia|done]).
  destruct l as [|m l].
  - cbn [encode_counts]. rewrite cut_none by done. cbn [length Nat.eqb negb Bool.eqb decode_counts]. by rewrite parseCanonical_format.
  - change (encode_counts (n :: m :: l)) with
      (String.append (format_uint 10 n) (String ","%char (encode_counts (m :: l)))).
    rewrite cut_append by done. cbn [length Nat.eqb negb Bool.eqb].
    rewrite parseCanonical_format by done. cbn [length] in IH. by rewrite IH.
Qed.

(** A decoded vector has the right length and every counter in range. *)
Lemma decode_counts_shape n text l : decode_counts n text = Ok l -> length l = n /\ Forall is_u64 l.
Proof.
  revert text l. induction n as [|n IH]; intros text l H; cbn in H; [by simplify_eq|].
  destruct (cut text _) as [[field tail] more]. destruct (negb _); [done|].
  destruct (parseCanonicalUint64 field) eqn:E; [|done]. res_inv. subst.
  match goal with H : decode_counts _ _ = Ok _ |- _ => apply IH in H as [<- ?] end.
  split; [done|]. constructor; [by eapply parseCanonical_range|done].
Qed.
