(* ===== verification/Recency.v ===== *)
(** * Package platform: recency keys (recency.go)

    The fixed-width text a time is ordered by in the store, the cursor of a recency listing,
    and its pages: newest first, ties broken by identifier. *)
From Stdlib Require Import Ascii.
From S2P Require Import Prelude GoText GoTime Domain Paging Counters.

Open Scope string_scope.
Open Scope Z_scope.

Definition recencyKeyDigits : nat := 20.

(** [time.Unix(0, math.MaxInt64)], as an instant of this model. *)
Definition recencyKeyLimit : Z := unix_epoch + max_i64.

Fixpoint zeros (n : nat) : string := match n with O => "" | S n => String "0" (zeros n) end.
(** [%0*d] of a non-negative number. *)
Definition zero_padded (width : nat) (v : Z) : string :=
  String.append (zeros (width - String.length (format_uint 10 v))) (format_uint 10 v).

Definition recencyKey (t : time) : res string :=
  fail_if (time_is_zero t || (instant t <? unix_epoch) || negb (instant t <? recencyKeyLimit)) [ErrInvalidID];;
  let nanos := i64 (instant t - unix_epoch) in
  fail_if (nanos <? 0) [ErrInvalidID];;
  Ok (zero_padded recencyKeyDigits nanos).

Fixpoint all_digits (s : string) : bool :=
  match s with
  | EmptyString => true
  | String a s => negb ((byte_of a <? 48) || (57 <? byte_of a)) && all_digits s
  end.
Definition validRecencyKey (s : string) : bool := (String.length s =? recencyKeyDigits)%nat && all_digits s.

Record RecencyCursor : Type := { Key : string; Cursor_ID : string }.
Definition RecencyCursor_IsZero (c : RecencyCursor) : bool := (Key c =s "") && (Cursor_ID c =s "").

Definition FormatRecencyCursor (c : RecencyCursor) : string :=
  if RecencyCursor_IsZero c then "" else String.append (Key c) (String "." (Cursor_ID c)).

Definition ParseRecencyCursor (s : string) : res RecencyCursor :=
  if s =s "" then Ok {| Key := ""; Cursor_ID := "" |}
  else
    let key := String.substring 0 recencyKeyDigits s in
    fail_if ((String.length s <? recencyKeyDigits + 2)%nat ||
             negb (bool_decide (String.get recencyKeyDigits s = Some "."%char)) ||
             negb (validRecencyKey key)) [ErrObservationCursor];;
    let id := String.substring (recencyKeyDigits + 1) (String.length s - (recencyKeyDigits + 1)) s in
    map_err (fun _ => [ErrObservationCursor]) (validateID id);;
    Ok {| Key := key; Cursor_ID := id |}.

(** ** Newest first

    [ORDER BY created_order DESC, id DESC], and the rows after a cursor:
    [created_order < ? OR (created_order = ? AND id < ?)]. *)
Section recent.
Context {A : Type} (order id : A -> string).

Definition before_in (c : RecencyCursor) (r : A) : bool :=
  string_lt (order r) (Key c) || ((order r =s Key c) && string_lt (id r) (Cursor_ID c)).
Definition cursor_at (r : A) : RecencyCursor := {| Key := order r; Cursor_ID := id r |}.
Definition newer (x y : A) : Prop := before_in (cursor_at x) y = true.

Definition newer_le (x y : A) : Prop :=
  (order x <> order y /\ String.le (order y) (order x)) \/ (order x = order y /\ String.le (id y) (id x)).
#[export] Instance newer_le_dec : RelDecision newer_le.
Proof. intros x y. unfold newer_le. apply _. Defined.
#[export] Instance newer_le_total : Total newer_le.
Proof.
  intros x y. unfold newer_le. destruct (decide (order x = order y)) as [E|E].
  - destruct (total String.le (id x) (id y)); [right|left]; right; by split.
  - destruct (total String.le (order x) (order y)); [right|left]; left; by split.
Qed.
#[export] Instance newer_le_trans : Transitive newer_le.
Proof.
  intros x y z [[H1 H2]|[H1 H2]] [[H3 H4]|[H3 H4]]; unfold newer_le.
  - left. split; [|by transitivity (order y)]. intros E. rewrite E in *. apply H3, (anti_symm String.le); done.
  - left. rewrite <- H3. by split.
  - left. rewrite H1. by split.
  - right. split; [congruence|by transitivity (id y)].
Qed.

(** The listing, and its page after a cursor; the zero cursor reads from the newest. *)
Definition recent (rows : list A) : list A := merge_sort newer_le rows.
Definition recent_beyond (c : RecencyCursor) (r : A) : bool := RecencyCursor_IsZero c || before_in c r.
Definition recent_page (rows : list A) (after : RecencyCursor) (limit : Z) : list A :=
  page recent_beyond (recent rows) after (Z.to_nat limit).

Lemma newer_irrefl x : ~ newer x x.
Proof.
  unfold newer, before_in. cbn. rewrite orb_true_iff, andb_true_iff, !string_lt_iff. intros [[_ H]|[_ [_ H]]]; done.
Qed.
Lemma newer_trans x y z : newer x y -> newer y z -> newer x z.
Proof.
  unfold newer, before_in. cbn. rewrite !orb_true_iff, !andb_true_iff, !String.eqb_eq.
  intros [H1|[E1 H1]] [H2|[E2 H2]].
  - left. by eapply string_lt_trans.
  - left. by rewrite E2.
  - left. by rewrite <- E1.
  - right. split; [congruence|by eapply string_lt_trans].
Qed.

Lemma recent_strict rows : NoDup (id <$> rows) -> StronglySorted newer (recent rows).
Proof.
  intros Hnd. unfold recent. rewrite <- (merge_sort_Permutation newer_le rows) in Hnd.
  pose proof (StronglySorted_merge_sort newer_le rows) as Hs. induction Hs as [|x l Hs IH Hx]; [constructor|].
  apply NoDup_cons in Hnd as [Hn Hnd]. constructor; [by apply IH|]. rewrite Forall_forall in Hx |- *. intros y Hy.
  unfold newer, before_in. cbn. rewrite orb_true_iff, andb_true_iff, !string_lt_iff, String.eqb_eq.
  destruct (Hx y Hy) as [[H1 H2]|[H1 H2]]; [by left|right]. split; [done|]. split; [done|].
  intros E. apply Hn. rewrite <- E. by apply list_elem_of_fmap_2.
Qed.

Lemma recent_walk_all rows limit fuel : NoDup (id <$> rows) -> Forall (fun r => order r <> "") rows ->
  1 <= limit -> (length rows < fuel)%nat ->
  walk recent_beyond cursor_at (recent rows) (Z.to_nat limit) fuel {| Key := ""; Cursor_ID := "" |} = recent rows.
Proof.
  intros Hnd Hne Hl Hf.
  assert (Hne' : Forall (fun r => order r <> "") (recent rows)) by (unfold recent; by rewrite merge_sort_Permutation).
  assert (Hz : forall x, order x <> "" -> RecencyCursor_IsZero (cursor_at x) = false).
  { intros x Hx. unfold RecencyCursor_IsZero. cbn. by rewrite (proj2 (String.eqb_neq _ _) Hx). }
  assert (Hlen : (length (recent rows) < fuel)%nat) by (unfold recent; by rewrite merge_sort_Permutation).
  pose proof (recent_strict rows Hnd) as Hs.
  apply (walk_all_on newer _ _ (fun x => order x <> "")); try done.
  - intros x y Hx. unfold recent_beyond. by rewrite (Hz x Hx).
  - intros x. apply newer_irrefl.
  - intros x y z. apply newer_trans.
  - lia.
  - apply Forall_forall. intros x _. done.
Qed.
End recent.

(** ** Fixed-width decimals *)
Fixpoint fixed_digits (n : nat) (v : Z) : string :=
  match n with
  | O => ""
  | S n => String.append (fixed_digits n (v / 10)) (String (digit_char (v mod 10)) "")
  end.

Lemma fixed_zero n : fixed_digits n 0 = zeros n.
Proof.
  induction n as [|n IH]; [done|]. cbn [fixed_digits]. change (0 / 10) with 0. change (0 mod 10) with 0. rewrite IH. clear.
  induction n as [|n IH]; [done|]. cbn [zeros]. by rewrite append_cons, IH.
Qed.
Lemma length_fixed n v : String.length (fixed_digits n v) = n.
Proof. revert v. induction n as [|n IH]; intros v; [done|]. cbn [fixed_digits]. rewrite length_append, IH. cbn. lia. Qed.

Lemma format_length fuel v : 0 <= v -> v < 10 ^ Z.of_nat fuel -> (0 < fuel)%nat ->
  (1 <= String.length (format_digits 64 10 v "") )%nat.
Proof.
  intros. destruct (format_digits_nonempty 64 10 v "" ltac:(lia)) as (a & s & E). rewrite E. cbn. lia.
Qed.

(** A number of at most [n] digits, zero-padded to [n], is its [n] digits. *)
Lemma zero_padded_fixed n v fuel : 0 <= v < 10 ^ Z.of_nat n -> (0 < n <= fuel)%nat ->
  String.append (zeros (n - String.length (format_digits fuel 10 v ""))) (format_digits fuel 10 v "") = fixed_digits n v.
Proof.
  revert v fuel. induction n as [|n IH]; intros v fuel Hv Hf; [lia|].
  destruct fuel as [|fuel]; [lia|]. cbn [format_digits fixed_digits].
  destruct (Z.eqb_spec (v / 10) 0) as [E|E].
  - cbn [String.length]. rewrite E, fixed_zero. by replace (S n - 1)%nat with n by lia.
  - rewrite format_digits_app, length_append. cbn [String.length].
    replace (S n - (String.length (format_digits fuel 10 (v / 10) "") + 1))%nat
      with (n - String.length (format_digits fuel 10 (v / 10) ""))%nat by lia.
    rewrite <- append_assoc. f_equal.
    rewrite Nat2Z.inj_succ, Z.pow_succ_r in Hv by lia.
    assert (0 <= v / 10) by (apply Z.div_pos; lia).
    assert (v / 10 < 10 ^ Z.of_nat n) by (apply Z.div_lt_upper_bound; lia).
    assert (0 < n)%nat by (destruct n; [cbn in *; lia|lia]).
    apply IH; lia.
Qed.

Lemma compare_append a b x y : String.length a = String.length b ->
  String.compare (String.append a x) (String.append b y) =
  match String.compare a b with Eq => String.compare x y | c => c end.
Proof.
  revert b. induction a as [|c a IH]; intros [|d b] H; try done. injection H as H. rewrite !append_cons.
  cbn [String.compare]. rewrite (IH b H). by destruct (Ascii.compare c d).
Qed.

Lemma digit_compare c d : 0 <= c < 10 -> 0 <= d < 10 -> Ascii.compare (digit_char c) (digit_char d) = (c ?= d).
Proof.
  intros Hc Hd. pose proof (byte_digit_char c Hc) as Ec. pose proof (byte_digit_char d Hd) as Ed. unfold byte_of in *.
  unfold Ascii.compare. rewrite <- N2Z.inj_compare. rewrite Ec, Ed. by rewrite Z.add_compare_mono_l.
Qed.

Lemma fixed_compare n v w : 0 <= v < 10 ^ Z.of_nat n -> 0 <= w < 10 ^ Z.of_nat n ->
  String.compare (fixed_digits n v) (fixed_digits n w) = (v ?= w).
Proof.
  revert v w. induction n as [|n IH]; intros v w Hv Hw; [cbn in *; by replace v with w by lia; rewrite Z.compare_refl|].
  cbn [fixed_digits]. rewrite compare_append by by rewrite !length_fixed.
  rewrite Nat2Z.inj_succ, Z.pow_succ_r in Hv, Hw by lia.
  pose proof (Z.div_mod v 10 ltac:(lia)) as Dv. pose proof (Z.div_mod w 10 ltac:(lia)) as Dw.
  pose proof (Z.mod_pos_bound v 10 ltac:(lia)) as Mv. pose proof (Z.mod_pos_bound w 10 ltac:(lia)) as Mw.
  rewrite IH by (split; [apply Z.div_pos; lia|apply Z.div_lt_upper_bound; lia]).
  cbn [String.compare]. rewrite digit_compare by done.
  destruct (Z.compare_spec (v / 10) (w / 10)) as [E|E|E].
  - destruct (Z.compare_spec (v mod 10) (w mod 10)), (Z.compare_spec v w); try done; lia.
  - symmetry. apply Z.compare_lt_iff. lia.
  - symmetry. apply Z.compare_gt_iff. lia.
Qed.

Lemma string_lt_compare a b : string_lt a b = true <-> String.compare a b = Lt.
Proof.
  rewrite string_lt_iff. unfold String.le, String.leb. rewrite Is_true_true.
  destruct (String.compare a b) eqn:E.
  - apply String.compare_eq_iff in E. naive_solver.
  - split; [done|]. intros _. split; [done|]. intros ->.
    pose proof (String.compare_antisym b b) as A. rewrite E in A. discriminate A.
  - naive_solver.
Qed.

Definition keyed_time (t : time) : Prop := unix_epoch <= instant t < recencyKeyLimit.

Lemma recencyKey_Ok t k : recencyKey t = Ok k <-> keyed_time t /\ k = fixed_digits 20 (instant t - unix_epoch).
Proof.
  unfold recencyKey, keyed_time, recencyKeyLimit, time_is_zero.
  assert (He : 0 < unix_epoch) by done. split.
  - intros H. res_inv. apply orb_false_iff in Hok as [[?%Z.eqb_neq ?%Z.ltb_ge]%orb_false_iff Hl%negb_false_iff%Z.ltb_lt].
    split; [lia|]. subst k. rewrite i64_small by (unfold is_i64, min_i64, max_i64 in *; lia).
    apply zero_padded_fixed; [unfold max_i64 in *; cbn; lia|lia].
  - intros [H ->]. destruct (Z.eqb_spec (instant t) 0); [lia|]. destruct (Z.ltb_spec (instant t) unix_epoch); [lia|].
    destruct (Z.ltb_spec (instant t) (unix_epoch + max_i64)); [|lia]. cbn [orb negb fail_if mbind res_bind].
    rewrite i64_small by (unfold is_i64, min_i64, max_i64 in *; lia).
    destruct (Z.ltb_spec (instant t - unix_epoch) 0); [lia|]. cbn [orb negb fail_if mbind res_bind]. unfold mret, res_ret.
    f_equal. apply zero_padded_fixed; [unfold max_i64 in *; cbn; lia|lia].
Qed.

Lemma fixed_digits_valid n v : 0 <= v -> all_digits (fixed_digits n v) = true.
Proof.
  revert v. induction n as [|n IH]; intros v Hv; [done|]. cbn [fixed_digits].
  assert (Ha : forall a b, all_digits (String.append a b) = all_digits a && all_digits b).
  { intros a b. induction a as [|x a IHa]; [done|]. rewrite append_cons. cbn [all_digits]. by rewrite IHa, andb_assoc. }
  rewrite Ha, IH by (apply Z.div_pos; lia). cbn [all_digits].
  pose proof (Z.mod_pos_bound v 10 ltac:(lia)) as Hm. rewrite byte_digit_char by done.
  destruct (Z.ltb_spec (48 + v mod 10) 48), (Z.ltb_spec 57 (48 + v mod 10)); (lia || done).
Qed.

Lemma substring_front a b : String.substring 0 (String.length a) (String.append a b) = a.
Proof. induction a as [|x a IH]; [by destruct b|]. rewrite append_cons. cbn. by rewrite IH. Qed.
Lemma substring_back a b n : String.length b = n -> String.substring (String.length a) n (String.append a b) = b.
Proof.
  intros <-. induction a as [|x a IH]; [|by rewrite append_cons; cbn].
  change (String.append "" b) with b. cbn [String.length]. induction b as [|y b IH]; [done|]. cbn. by rewrite IH.
Qed.
Lemma get_after a x b : String.get (String.length a) (String.append a (String x b)) = Some x.
Proof. induction a as [|y a IH]; [done|]. rewrite append_cons. exact IH. Qed.

Lemma split_at_dot s n x : (n + 2 <= String.length s)%nat -> String.get n s = Some x ->
  String.append (String.substring 0 n s) (String x (String.substring (n + 1) (String.length s - (n + 1)) s)) = s.
Proof.
  revert s. induction n as [|n IH]; intros [|c s] Hl Hg; cbn in Hl; try lia.
  - injection Hg as ->. cbn. rewrite Nat.sub_0_r.
    assert (E : String.substring 0 (String.length s) s = s); [|by rewrite E].
    clear. induction s as [|y s IH]; [done|]. cbn. by f_equal.
  - cbn [String.get] in Hg. cbn [String.substring String.length plus]. rewrite append_cons. f_equal.
    replace (S (String.length s) - S (n + 1))%nat with (String.length s - (n + 1))%nat by lia. apply IH; [lia|done].
Qed.

(** ** Properties *)

(** recency keys order runs as their times do: every time from 1970 up to the last
    nanosecond an int64 counts has a key of twenty digits, no other time has one, and one key
    sorts before another as text exactly when its time is the earlier instant - equal exactly
    when the instants are equal, whatever the zones. *)
Theorem recency_key_order t u :
  (is_ok (recencyKey t) = true <-> keyed_time t) /\
  (forall k, recencyKey t = Ok k -> validRecencyKey k = true) /\
  (forall k l, recencyKey t = Ok k -> recencyKey u = Ok l ->
     (string_lt k l = true <-> instant t < instant u) /\ (k = l <-> instant t = instant u)).
Proof.
  split; [|split].
  - rewrite is_ok_spec. setoid_rewrite recencyKey_Ok. split; [by intros (? & ? & _)|eauto].
  - intros k [Hk ->]%recencyKey_Ok. unfold validRecencyKey. rewrite length_fixed. cbn [Nat.eqb].
    apply fixed_digits_valid. unfold keyed_time in Hk. lia.
  - intros k l [Hk ->]%recencyKey_Ok [Hl ->]%recencyKey_Ok. unfold keyed_time, recencyKeyLimit, max_i64 in *.
    assert (Hc : String.compare (fixed_digits 20 (instant t - unix_epoch)) (fixed_digits 20 (instant u - unix_epoch)) =
      (instant t - unix_epoch ?= instant u - unix_epoch)) by (apply fixed_compare; cbn; lia).
    rewrite string_lt_compare, Hc, Z.compare_lt_iff. split; [lia|]. split; [|by intros ->].
    intros E. rewrite E in Hc. destruct (Z.compare_spec (instant t - unix_epoch) (instant u - unix_epoch)) as [|H|H]; [lia| |];
      pose proof (String.compare_antisym (fixed_digits 20 (instant u - unix_epoch)) (fixed_digits 20 (instant u - unix_epoch))) as A;
      rewrite Hc in A; discriminate A.
Qed.

(** a recency cursor survives the text a client carries it as: the cursor of a row, with
    a key the store writes and a valid identifier, parses back exactly, and no other text
    than the cursor's own parses to it. *)
Theorem recency_cursor_roundtrip t k id : recencyKey t = Ok k -> validateID id = Ok tt ->
  let c := {| Key := k; Cursor_ID := id |} in
  ParseRecencyCursor (FormatRecencyCursor c) = Ok c /\
  (forall s, ParseRecencyCursor s = Ok c -> s = FormatRecencyCursor c).
Proof.
  intros Hk Hid. pose proof Hk as Hv. apply recencyKey_Ok in Hk as [Hk Ek].
  assert (Hlen : String.length k = recencyKeyDigits) by (rewrite Ek; apply length_fixed).
  assert (Hne : id <> "") by (intros ->; by vm_compute in Hid).
  assert (Hval : validRecencyKey k = true).
  { unfold validRecencyKey. rewrite Hlen, Ek. cbn [Nat.eqb andb]. apply fixed_digits_valid. unfold keyed_time in Hk. lia. }
  cbn zeta.
  assert (Hf : FormatRecencyCursor {| Key := k; Cursor_ID := id |} = String.append k (String "." id)).
  { unfold FormatRecencyCursor, RecencyCursor_IsZero. cbn. rewrite (proj2 (String.eqb_neq id "") Hne). by rewrite andb_false_r. }
  rewrite Hf. split.
  - unfold ParseRecencyCursor. destruct (String.eqb_spec (String.append k (String "." id)) "") as [E|_].
    { destruct k; [done|discriminate E]. }
    assert (E1 : String.substring 0 recencyKeyDigits (String.append k (String "." id)) = k) by (rewrite <- Hlen; apply substring_front).
    assert (E2 : String.get recencyKeyDigits (String.append k (String "." id)) = Some "."%char) by (rewrite <- Hlen; apply get_after).
    assert (E3 : String.length (String.append k (String "." id)) = (22 + pred (String.length id))%nat).
    { rewrite length_append, Hlen. destruct id; [done|]. unfold recencyKeyDigits. cbn. lia. }
    assert (E4 : String.substring (recencyKeyDigits + 1) (22 + pred (String.length id) - (recencyKeyDigits + 1)) (String.append k (String "." id)) = id).
    { change (String "." id) with (String.append "." id). rewrite <- append_assoc.
      assert (Ed : (recencyKeyDigits + 1)%nat = String.length (String.append k ".")) by (rewrite length_append, Hlen; done).
      rewrite Ed. apply substring_back. rewrite length_append, Hlen. destruct id; [done|]. unfold recencyKeyDigits. cbn. lia. }
    rewrite E1, E2, E3, E4, Hval, bool_decide_true, Hid by done.
    rewrite (proj2 (Nat.ltb_ge _ _)) by (unfold recencyKeyDigits; lia). done.
  - intros s Hs. unfold ParseRecencyCursor in Hs. destruct (String.eqb_spec s "") as [Es|_].
    { injection Hs as E _. rewrite <- E in Hlen. discriminate Hlen. }
    res_inv. apply orb_false_iff in Hok as [[H1%Nat.ltb_ge H2]%orb_false_iff _].
    apply negb_false_iff, bool_decide_eq_true in H2. rewrite <- Hs, <- H. symmetry. by apply (split_at_dot s recencyKeyDigits).
Qed.

Example recency_cursor_roundtrip_witness : exists k s,
  recencyKey (Time (unix_epoch + 1500) 3600) = Ok k /\ k = "00000000000000001500" /\
  FormatRecencyCursor {| Key := k; Cursor_ID := "run-1" |} = s /\
  ParseRecencyCursor s = Ok {| Key := k; Cursor_ID := "run-1" |}.
Proof.
  eexists _, _. split; [reflexivity|]. split; [reflexivity|]. split; [reflexivity|].
  apply (recency_cursor_roundtrip (Time (unix_epoch + 1500) 3600) "00000000000000001500" "run-1"); reflexivity.
Defined.
