(* ===== verification/Environment.v ===== *)
(** * Package platform: environments (environment.go, environment_store.go)

    A project's environments, the promotion order their ranks define, and the rows they are
    stored as.  Operations return the changed value. *)
From S2P Require Import Prelude GoText GoTime Domain Counters.

Open Scope string_scope.
Open Scope Z_scope.

Definition maxEnvironmentRank : Z := 9999.
Definition maxProjectEnvironments : Z := 64.
Definition MaxEnvironmentPage : Z := 64.

Definition EnvironmentStatus := string.
Definition EnvironmentActive : EnvironmentStatus := "active".
Definition EnvironmentArchived : EnvironmentStatus := "archived".
Definition EnvironmentStatus_valid (s : EnvironmentStatus) : bool :=
  (s =s EnvironmentActive) || (s =s EnvironmentArchived).

(** [rank] is a uint16, [revision] a uint64. *)
Record Environment : Type := {
  env_ref : EnvironmentRef;
  env_projectID : ProjectID;
  env_name : string;
  rank : Z;
  ranked : bool;
  env_status : EnvironmentStatus;
  revision : Z;
}.

Definition NewEnvironment (ref : EnvironmentRef) (projectID : ProjectID) (name : string) : res Environment :=
  validateID ref;; validateID projectID;; validateName name;;
  Ok {| env_ref := ref; env_projectID := projectID; env_name := name; rank := 0; ranked := false;
        env_status := EnvironmentActive; revision := 1 |}.

Definition Rename (e : Environment) (name : string) : res Environment :=
  validateName name;;
  Ok {| env_ref := env_ref e; env_projectID := env_projectID e; env_name := name; rank := rank e;
        ranked := ranked e; env_status := env_status e; revision := u64 (revision e + 1) |}.

Definition WithRank (e : Environment) (r : Z) : res Environment :=
  fail_if (maxEnvironmentRank <? r) [ErrInvalidID];;
  Ok {| env_ref := env_ref e; env_projectID := env_projectID e; env_name := env_name e; rank := r;
        ranked := true; env_status := env_status e; revision := u64 (revision e + 1) |}.

Definition WithoutRank (e : Environment) : Environment :=
  {| env_ref := env_ref e; env_projectID := env_projectID e; env_name := env_name e; rank := 0;
     ranked := false; env_status := env_status e; revision := u64 (revision e + 1) |}.

Definition with_status (e : Environment) (s : EnvironmentStatus) : Environment :=
  {| env_ref := env_ref e; env_projectID := env_projectID e; env_name := env_name e; rank := rank e;
     ranked := ranked e; env_status := s; revision := u64 (revision e + 1) |}.
Definition Archive (e : Environment) : res Environment := Ok (with_status e EnvironmentArchived).
Definition Activate (e : Environment) : res Environment := Ok (with_status e EnvironmentActive).

Definition atRevision (e : Environment) (revision : Z) : Environment :=
  {| env_ref := env_ref e; env_projectID := env_projectID e; env_name := env_name e; rank := rank e;
     ranked := ranked e; env_status := env_status e; revision := revision |}.

Definition NewRankedEnvironment (ref : EnvironmentRef) (projectID : ProjectID) (name : string) (r : Z)
    : res Environment :=
  env ← NewEnvironment ref projectID name;
  ranked ← WithRank env r;
  Ok (atRevision ranked (revision env)).

Definition CanPromote (from to : Environment) : bool :=
  if env_projectID from <>s env_projectID to then false
  else if (env_status from <>s EnvironmentActive) || (env_status to <>s EnvironmentActive) then false
  else if negb (ranked from) || negb (ranked to) then false
  else rank from <? rank to.

(** The errors of a restoration carry no sentinel of their own. *)
Definition restoreEnvironment (ref : EnvironmentRef) (projectID : ProjectID) (name : string)
    (r : Z) (ranked : bool) (status : EnvironmentStatus) (revision : Z) : res Environment :=
  env ← NewEnvironment ref projectID name;
  fail_if (negb (EnvironmentStatus_valid status)) [];;
  fail_if (ranked && (maxEnvironmentRank <? r)) [];;
  fail_if (revision =? 0) [];;
  Ok {| env_ref := env_ref env; env_projectID := env_projectID env; env_name := env_name env; rank := r;
        ranked := ranked; env_status := status; revision := revision |}.

Definition validateEnvironmentIdentity (projectID : ProjectID) (ref : EnvironmentRef) : res unit :=
  validateID projectID;; validateID ref.

Definition validateEnvironmentPage (after : EnvironmentRef) (limit : Z) : res unit :=
  fail_if ((limit <? 1) || (MaxEnvironmentPage <? limit)) [ErrInvalidID];;
  if after <>s "" then validateID after else Ok tt.

(** ** Rows

    A row of platform_environments: rank is NULL for an unranked environment, and rank and
    revision are signed 64-bit columns. *)
Record environment_row : Type := {
  er_name : string; er_rank : option Z; er_status : string; er_revision : Z }.

Definition nullRank (rank : Z) (ranked : bool) : option Z := if ranked then Some rank else None.

Definition environment_columns (e : Environment) : environment_row :=
  {| er_name := env_name e; er_rank := nullRank (rank e) (ranked e); er_status := env_status e;
     er_revision := i64 (revision e) |}.

Definition corrupt {A} (m : res A) : res A := map_err (fun e => ErrStoreCorrupt :: e) m.

Definition restoreEnvironmentRow (projectID : ProjectID) (ref : EnvironmentRef) (row : environment_row)
    : res Environment :=
  fail_if (er_revision row <? 0) [ErrStoreCorrupt];;
  value ← match er_rank row with
          | Some v => fail_if ((v <? 0) || (maxEnvironmentRank <? v)) [ErrStoreCorrupt];; Ok v
          | None => Ok 0
          end;
  corrupt (restoreEnvironment ref projectID (er_name row) value
             (match er_rank row with Some _ => true | None => false end) (er_status row) (er_revision row)).

Definition validateEnvironmentUpdate (previous next : Environment) : res unit :=
  fail_if (env_ref previous <>s env_ref next) [ErrInvalidID];;
  fail_if (env_projectID previous <>s env_projectID next) [ErrInvalidID];;
  fail_if (negb (revision next =? u64 (revision previous + 1))) [ErrInvalidID].

(** ** Well-formed environments *)
Record env_ok (e : Environment) : Prop := {
  eo_ref : validateID (env_ref e) = Ok tt;
  eo_project : validateID (env_projectID e) = Ok tt;
  eo_name : validateName (env_name e) = Ok tt;
  eo_rank : if ranked e then 0 <= rank e <= maxEnvironmentRank else rank e = 0;
  eo_status : EnvironmentStatus_valid (env_status e) = true;
  eo_revision : 0 < revision e <= max_i64;
}.

(** The operations a configured environment goes through. *)
Inductive env_step : Environment -> Environment -> Prop :=
| env_rename e name e' : Rename e name = Ok e' -> env_step e e'
| env_rank e r e' : 0 <= r -> WithRank e r = Ok e' -> env_step e e'
| env_unrank e : env_step e (WithoutRank e)
| env_archive e e' : Archive e = Ok e' -> env_step e e'
| env_activate e e' : Activate e = Ok e' -> env_step e e'.

Lemma NewEnvironment_ok ref projectID name e : NewEnvironment ref projectID name = Ok e -> env_ok e.
Proof. intros H. unfold NewEnvironment in H. res_inv. by subst e. Qed.

Lemma env_step_ok e e' : env_ok e -> revision e < max_i64 -> env_step e e' ->
  env_ok e' /\ revision e' = revision e + 1 /\ env_ref e' = env_ref e /\ env_projectID e' = env_projectID e.
Proof.
  intros [H1 H2 H3 H4 H5 H6] Hr Hs.
  assert (Hi : u64 (revision e + 1) = revision e + 1) by (apply u64_small; ulia).
  destruct Hs as [e name e' H|e r e' Hpos H|e|e e' H|e e' H].
  - unfold Rename in H. res_inv. subst e'. split; [split; cbn; try done; rewrite Hi; ulia|done].
  - unfold WithRank in H. res_inv. subst e'. apply Z.ltb_ge in Hok.
    split; [split; cbn; try done; rewrite ?Hi; ulia|done].
  - split; [split; cbn; try done; rewrite Hi; ulia|done].
  - injection H as <-. split; [split; cbn; try done; rewrite Hi; ulia|done].
  - injection H as <-. split; [split; cbn; try done; rewrite Hi; ulia|done].
Qed.

Lemma restoreEnvironment_ok e : env_ok e ->
  restoreEnvironment (env_ref e) (env_projectID e) (env_name e) (rank e) (ranked e) (env_status e) (revision e) = Ok e.
Proof.
  intros [H1 H2 H3 H4 H5 H6]. unfold restoreEnvironment, NewEnvironment. rewrite H1, H2, H3, H5. cbn.
  assert (E : ranked e && (maxEnvironmentRank <? rank e) = false).
  { destruct (ranked e); [|done]. cbn. apply Z.ltb_ge. apply H4. }
  rewrite E. destruct (Z.eqb_spec (revision e) 0); [lia|]. by destruct e.
Qed.

Lemma restore_columns e : env_ok e -> restoreEnvironmentRow (env_projectID e) (env_ref e) (environment_columns e) = Ok e.
Proof.
  intros H. pose proof (restoreEnvironment_ok e H) as Hr. destruct H as [H1 H2 H3 H4 H5 H6].
  unfold restoreEnvironmentRow, environment_columns. cbn [er_revision er_rank er_status er_name].
  rewrite i64_small by ulia. destruct (Z.ltb_spec (revision e) 0); [lia|]. cbn [fail_if].
  unfold nullRank. destruct (ranked e) eqn:E.
  - destruct (Z.ltb_spec (rank e) 0); [lia|]. destruct (Z.ltb_spec maxEnvironmentRank (rank e)); [lia|]. cbn. by rewrite Hr.
  - rewrite H4 in Hr. cbn. by rewrite Hr.
Qed.

Lemma restoreEnvironmentRow_ok projectID ref row e : er_revision row <= max_i64 ->
  restoreEnvironmentRow projectID ref row = Ok e -> env_ok e /\ env_ref e = ref /\ env_projectID e = projectID /\ revision e = er_revision row.
Proof.
  intros Hmax H. unfold restoreEnvironmentRow, corrupt, restoreEnvironment, NewEnvironment in H. res_inv. subst a1 e. cbn [env_ref env_projectID env_name revision] in *.
  apply negb_false_iff in Hok2. apply Z.ltb_ge in Hok. apply Z.eqb_neq in Hok4.
  split; [|done]. split; cbn; try done; [|lia].
  destruct (er_rank row) as [v|]; res_inv; [|done]. subst.
  match goal with H : (_ || _)%bool = false |- _ => apply orb_false_iff in H as [?%Z.ltb_ge ?%Z.ltb_ge] end.
  unfold maxEnvironmentRank in *. lia.
Qed.

Lemma CanPromote_iff a b : CanPromote a b = true <->
  env_projectID a = env_projectID b /\ env_status a = EnvironmentActive /\ env_status b = EnvironmentActive /\
  ranked a = true /\ ranked b = true /\ rank a < rank b.
Proof.
  unfold CanPromote. destruct (String.eqb_spec (env_projectID a) (env_projectID b)); cbn; [|naive_solver].
  destruct (String.eqb_spec (env_status a) EnvironmentActive), (String.eqb_spec (env_status b) EnvironmentActive); cbn; try naive_solver.
  destruct (ranked a), (ranked b); cbn; rewrite ?Z.ltb_lt; naive_solver.
Qed.

(** ** Properties *)

(** the promotion order has no cycles: no sequence of environments, each promotable
    toward the next, leads back to where it started, and promotability composes along such a
    sequence; so a promotion is always forward, whatever was promoted before. *)
Theorem promotion_order_acyclic a b :
  tc (fun x y => CanPromote x y = true) a b -> CanPromote a b = true /\ CanPromote b a = false.
Proof.
  intros H. assert (Hab : CanPromote a b = true).
  { induction H as [a b H|a b c H _ IH]; [done|]. rewrite CanPromote_iff in H, IH |- *.
    destruct H as (H1 & H2 & H3 & H4 & H5 & H6), IH as (I1 & I2 & I3 & I4 & I5 & I6).
    split_and!; try done; [congruence|lia]. }
  split; [done|]. apply not_true_iff_false. rewrite CanPromote_iff in Hab |- *.
  intros (_ & _ & _ & _ & _ & ?). destruct Hab as (_ & _ & _ & _ & _ & ?). lia.
Qed.

(** every operation on a well-formed environment keeps it well formed, keeps its identity
    and advances its revision by exactly one; and what the row of a well-formed environment
    reads back as is that environment exactly. *)
Theorem environment_operations e e' : env_ok e -> revision e < max_i64 -> env_step e e' ->
  env_ok e' /\ validateEnvironmentUpdate e e' = Ok tt /\
  restoreEnvironmentRow (env_projectID e) (env_ref e) (environment_columns e') = Ok e'.
Proof.
  intros He Hr Hs. destruct (env_step_ok e e' He Hr Hs) as (He' & Hrev & Href & Hp).
  split; [done|]. split; [|rewrite <- Href, <- Hp; by apply restore_columns].
  destruct He as [? ? ? ? ? ?]. unfold validateEnvironmentUpdate.
  rewrite Href, Hp, Hrev, !String.eqb_refl, u64_small, Z.eqb_refl by ulia. done.
Qed.

Definition example_environment (ref : string) (r : Z) : Environment :=
  {| env_ref := ref; env_projectID := "acme"; env_name := "An environment"; rank := r; ranked := true;
     env_status := EnvironmentActive; revision := 3 |}.

Lemma example_environment_ok ref r : validateID ref = Ok tt -> 0 <= r <= 9999 -> env_ok (example_environment ref r).
Proof. intros H1 H2. by split. Qed.

Lemma promotion_order_acyclic_witness :
  CanPromote (example_environment "staging" 10) (example_environment "production" 30) = true /\
  CanPromote (example_environment "production" 30) (example_environment "staging" 10) = false.
Proof.
  apply promotion_order_acyclic. apply (tc_l _ _ (example_environment "canary" 20)); [by vm_compute|].
  apply tc_once. by vm_compute.
Defined.

Lemma environment_operations_witness : env_ok (WithoutRank (example_environment "staging" 10)).
Proof.
  apply (environment_operations (example_environment "staging" 10)); [by apply example_environment_ok|by vm_compute|apply env_unrank].
Defined.
