(* ===== verification/Operational.v ===== *)
(** * Package platform: operational evidence (operational.go, behavior_operational.go,
      operational_comparison.go)

    Duration statistics, span and HTTP status counts and token usage: observing a record,
    adding two summaries, and the validation a stored summary must pass. *)
From Stdlib Require Import Ascii.
From S2P Require Import Prelude GoText GoTime GoFloat FloatBounds Event Fingerprint Baseline.
From S2P Require Import Anomaly Trust Policy Store Engine DecisionRecord Counters.

Open Scope string_scope.
Open Scope Z_scope.

(** ** DurationSummary *)
Record DurationSummary : Type := {
  D_Count : Z; D_Unobserved : Z; D_Sum : Z; D_Min : Z; D_Max : Z;
}.
Definition zero_durations : DurationSummary :=
  {| D_Count := 0; D_Unobserved := 0; D_Sum := 0; D_Min := 0; D_Max := 0 |}.

Definition Mean (s : DurationSummary) : Z * bool :=
  if D_Count s =? 0 then (0, false) else (D_Sum s / D_Count s, true).

Definition DurationSummary_observe (s : DurationSummary) (nanos : Z) : res DurationSummary :=
  if D_Count s =? max_u64 then Err [ErrAggregateOverflow]
  else if max_u64 - nanos <? D_Sum s then Err [ErrAggregateOverflow]
  else if D_Count s =? 0 then
    Ok {| D_Count := 1; D_Unobserved := D_Unobserved s; D_Sum := nanos; D_Min := nanos; D_Max := nanos |}
  else
    Ok {| D_Count := D_Count s + 1; D_Unobserved := D_Unobserved s; D_Sum := D_Sum s + nanos;
          D_Min := Z.min (D_Min s) nanos; D_Max := Z.max (D_Max s) nanos |}.

Definition skip (s : DurationSummary) : res DurationSummary :=
  if D_Unobserved s =? max_u64 then Err [ErrAggregateOverflow]
  else Ok {| D_Count := D_Count s; D_Unobserved := D_Unobserved s + 1; D_Sum := D_Sum s;
             D_Min := D_Min s; D_Max := D_Max s |}.

(** ** SpanStatusCounts *)
Record SpanStatusCounts : Type := {
  S_Unavailable : Z; S_Unset : Z; S_OK : Z; S_Error : Z;
}.
Definition zero_statuses : SpanStatusCounts :=
  {| S_Unavailable := 0; S_Unset := 0; S_OK := 0; S_Error := 0 |}.

Definition Total (c : SpanStatusCounts) : Z := u64 (u64 (u64 (S_Unavailable c + S_Unset c) + S_OK c) + S_Error c).
Definition Stated (c : SpanStatusCounts) : Z := u64 (S_OK c + S_Error c).

(** [*target++], refused at the largest uint64. *)
Definition bump (n : Z) : res Z := if n =? max_u64 then Err [ErrAggregateOverflow] else Ok (n + 1).

Definition count (c : SpanStatusCounts) (status : SpanStatus) : res SpanStatusCounts :=
  if status =s StatusUnavailable then
    n ← bump (S_Unavailable c);
    Ok {| S_Unavailable := n; S_Unset := S_Unset c; S_OK := S_OK c; S_Error := S_Error c |}
  else if status =s StatusUnset then
    n ← bump (S_Unset c);
    Ok {| S_Unavailable := S_Unavailable c; S_Unset := n; S_OK := S_OK c; S_Error := S_Error c |}
  else if status =s StatusOK then
    n ← bump (S_OK c);
    Ok {| S_Unavailable := S_Unavailable c; S_Unset := S_Unset c; S_OK := n; S_Error := S_Error c |}
  else if status =s StatusError then
    n ← bump (S_Error c);
    Ok {| S_Unavailable := S_Unavailable c; S_Unset := S_Unset c; S_OK := S_OK c; S_Error := n |}
  else Err [ErrInvalidDecisionRecord].

Definition observeOperational (durations : DurationSummary) (statuses : SpanStatusCounts)
    (record : DecisionRecord) : res (DurationSummary * SpanStatusCounts) :=
  nanos ← map_err (fun e => ErrInvalidDecisionRecord :: e) (ValidateDurationNanos record);
  durations ← (if DR_DurationNanos record <>s "" then DurationSummary_observe durations nanos
               else skip durations);
  statuses ← count statuses (DR_SpanStatus record);
  Ok (durations, statuses).

Definition validateRestoredOperational (d : DurationSummary) (c : SpanStatusCounts) (records : Z) : res unit :=
  durationTotal ← map_err (fun _ => []) (sumNoOverflow [D_Count d; D_Unobserved d]);
  fail_if (negb (durationTotal =? records)) [];;
  statusTotal ← map_err (fun _ => []) (sumNoOverflow [S_Unavailable c; S_Unset c; S_OK c; S_Error c]);
  fail_if (negb (statusTotal =? records)) [];;
  if D_Count d =? 0 then
    fail_if (negb (D_Sum d =? 0) || negb (D_Min d =? 0) || negb (D_Max d =? 0)) []
  else
    fail_if (D_Max d <? D_Min d) [];;
    fail_if (MaxDurationNanos <? D_Max d) [];;
    if D_Count d =? 1 then
      fail_if (negb (D_Min d =? D_Max d) || negb (D_Sum d =? D_Min d)) []
    else
      let others := D_Count d - 1 in
      let '(lower, ok) := addMulNoOverflow (D_Max d) others (D_Min d) in
      fail_if (negb ok) [];;
      fail_if (D_Sum d <? lower) [];;
      let '(upper, ok) := addMulNoOverflow (D_Min d) others (D_Max d) in
      fail_if (ok && (upper <? D_Sum d)) [].

(** ** Duration buckets *)
Definition DurationBucketCount : Z := 11.
Definition durationBucketUpperMillis : list Z := [1; 5; 10; 50; 100; 250; 500; 1000; 2500; 10000].

Notation DurationBuckets := (list Z) (only parsing). (* [11]uint64 *)
Definition zero_buckets : DurationBuckets := replicate 11 0.

Fixpoint bucket_from (uppers : list Z) (nanos : Z) : nat :=
  match uppers with
  | [] => O
  | upper :: uppers => if nanos <=? upper * 1000000 then O else S (bucket_from uppers nanos)
  end.
Definition durationBucket (nanos : Z) : nat := bucket_from durationBucketUpperMillis nanos.

(** ** HTTP status classes and tokens *)
Record HTTPStatusClassCounts : Type := {
  H_Informational : Z; H_Success : Z; H_Redirection : Z; H_ClientError : Z; H_ServerError : Z;
  H_Unavailable : Z;
}.
Definition HTTP_Stated (c : HTTPStatusClassCounts) : Z :=
  u64 (u64 (u64 (u64 (H_Informational c + H_Success c) + H_Redirection c) + H_ClientError c) + H_ServerError c).

Record TokenCounts : Type := {
  T_Input : Z; T_Output : Z; T_Unsplit : Z; T_Observed : Z; T_Unobserved : Z;
}.

Record OperationalSummary : Type := {
  Buckets : DurationBuckets;
  Durations : DurationSummary;
  SpanStatus_ : SpanStatusCounts;
  HTTPStatus : HTTPStatusClassCounts;
  HTTP429 : Z;
  Tokens : TokenCounts;
}.
Definition zero_http : HTTPStatusClassCounts :=
  {| H_Informational := 0; H_Success := 0; H_Redirection := 0; H_ClientError := 0;
     H_ServerError := 0; H_Unavailable := 0 |}.
Definition zero_tokens : TokenCounts :=
  {| T_Input := 0; T_Output := 0; T_Unsplit := 0; T_Observed := 0; T_Unobserved := 0 |}.
Definition zero_summary : OperationalSummary :=
  {| Buckets := zero_buckets; Durations := zero_durations; SpanStatus_ := zero_statuses;
     HTTPStatus := zero_http; HTTP429 := 0; Tokens := zero_tokens |}.

Record OperationalFacts : Type := {
  HTTPStatusCode : Z; (* uint16, 0 when absent *)
  F_Usage : Usage;
  F_Fidelity : Fidelity;
  F_Layer : Layer;
}.

(** platform/behavior_fidelity.go *)
Definition validateFidelityPair (f : Fidelity) (l : Layer) : res unit :=
  let contradictory :=
    ((f =s FidelityTransport) && ((l =s LayerModel) || (l =s LayerTool) || (l =s LayerRetrieval)))
    || ((f =s FidelitySemantic) && (l =s LayerTransport)) in
  fail_if contradictory [ErrInvalidFidelityPair].

Definition OperationalFacts_Validate (f : OperationalFacts) : res unit :=
  fail_if ((F_Fidelity f <>s "") && negb (Fidelity_Valid (F_Fidelity f))) [ErrInvalidDecisionRecord];;
  fail_if ((F_Layer f <>s LayerUnspecified) && negb (Layer_Valid (F_Layer f))) [ErrInvalidDecisionRecord];;
  map_err (fun e => ErrInvalidDecisionRecord :: e) (validateFidelityPair (F_Fidelity f) (F_Layer f));;
  fail_if (negb (HTTPStatusCode f =? 0) && ((HTTPStatusCode f <? 100) || (599 <? HTTPStatusCode f)))
    [ErrInvalidDecisionRecord];;
  let u := F_Usage f in
  fail_if (HasUnsplit u && (HasInput u || HasOutput u)) [ErrInvalidDecisionRecord];;
  foldM (fun _ '(has, value) => fail_if (has && (MaxTokenCount <? value)) [ErrInvalidDecisionRecord]) tt
    [(HasInput u, Usage_Input u); (HasOutput u, Usage_Output u); (HasUnsplit u, Usage_Unsplit u)].

Definition unavailableOperational (observations : Z) : OperationalSummary :=
  {| Buckets := zero_buckets;
     Durations := {| D_Count := 0; D_Unobserved := observations; D_Sum := 0; D_Min := 0; D_Max := 0 |};
     SpanStatus_ := {| S_Unavailable := observations; S_Unset := 0; S_OK := 0; S_Error := 0 |};
     HTTPStatus := {| H_Informational := 0; H_Success := 0; H_Redirection := 0; H_ClientError := 0;
                      H_ServerError := 0; H_Unavailable := observations |};
     HTTP429 := 0;
     Tokens := {| T_Input := 0; T_Output := 0; T_Unsplit := 0; T_Observed := 0;
                  T_Unobserved := observations |} |}.

(** [addCount(&buckets[i], n)]. *)
Definition add_bucket (b : DurationBuckets) (i : nat) (n : Z) : res DurationBuckets :=
  v ← addCount (nth i b 0) n; Ok (<[i := v]> b).

Definition count_http (h : HTTPStatusClassCounts) (code : Z) : res HTTPStatusClassCounts :=
  if code =? 0 then
    n ← addCount (H_Unavailable h) 1;
    Ok {| H_Informational := H_Informational h; H_Success := H_Success h; H_Redirection := H_Redirection h;
          H_ClientError := H_ClientError h; H_ServerError := H_ServerError h; H_Unavailable := n |}
  else if code <? 200 then
    n ← addCount (H_Informational h) 1;
    Ok {| H_Informational := n; H_Success := H_Success h; H_Redirection := H_Redirection h;
          H_ClientError := H_ClientError h; H_ServerError := H_ServerError h; H_Unavailable := H_Unavailable h |}
  else if code <? 300 then
    n ← addCount (H_Success h) 1;
    Ok {| H_Informational := H_Informational h; H_Success := n; H_Redirection := H_Redirection h;
          H_ClientError := H_ClientError h; H_ServerError := H_ServerError h; H_Unavailable := H_Unavailable h |}
  else if code <? 400 then
    n ← addCount (H_Redirection h) 1;
    Ok {| H_Informational := H_Informational h; H_Success := H_Success h; H_Redirection := n;
          H_ClientError := H_ClientError h; H_ServerError := H_ServerError h; H_Unavailable := H_Unavailable h |}
  else if code <? 500 then
    n ← addCount (H_ClientError h) 1;
    Ok {| H_Informational := H_Informational h; H_Success := H_Success h; H_Redirection := H_Redirection h;
          H_ClientError := n; H_ServerError := H_ServerError h; H_Unavailable := H_Unavailable h |}
  else
    n ← addCount (H_ServerError h) 1;
    Ok {| H_Informational := H_Informational h; H_Success := H_Success h; H_Redirection := H_Redirection h;
          H_ClientError := H_ClientError h; H_ServerError := n; H_Unavailable := H_Unavailable h |}.

Definition count_tokens (t : TokenCounts) (u : Usage) : res TokenCounts :=
  if negb (Usage_Observed u) then
    n ← addCount (T_Unobserved t) 1;
    Ok {| T_Input := T_Input t; T_Output := T_Output t; T_Unsplit := T_Unsplit t;
          T_Observed := T_Observed t; T_Unobserved := n |}
  else
    i ← addCount (T_Input t) (Usage_Input u);
    o ← addCount (T_Output t) (Usage_Output u);
    s ← addCount (T_Unsplit t) (Usage_Unsplit u);
    n ← addCount (T_Observed t) 1;
    Ok {| T_Input := i; T_Output := o; T_Unsplit := s; T_Observed := n; T_Unobserved := T_Unobserved t |}.

(** OperationalSummary.observe *)
Definition OperationalSummary_observe (s : OperationalSummary) (record : DecisionRecord)
    (facts : OperationalFacts) : res OperationalSummary :=
  '(durations, statuses) ←
    map_err (fun e => if errors_is e ErrAggregateOverflow then ErrBehaviorOverflow :: e else e)
      (observeOperational (Durations s) (SpanStatus_ s) record);
  buckets ←
    (if DR_DurationNanos record <>s "" then
       let nanos := match ValidateDurationNanos record with Ok v => v | Err _ => 0 end in
       add_bucket (Buckets s) (durationBucket nanos) 1
     else Ok (Buckets s));
  http ← count_http (HTTPStatus s) (HTTPStatusCode facts);
  http429 ← (if HTTPStatusCode facts =? 429 then addCount (HTTP429 s) 1 else Ok (HTTP429 s));
  tokens ← count_tokens (Tokens s) (F_Usage facts);
  Ok {| Buckets := buckets; Durations := durations; SpanStatus_ := statuses; HTTPStatus := http;
        HTTP429 := http429; Tokens := tokens |}.

(** ** Adding two summaries

    The code threads the first overflow through a chain of checked additions. *)
Fixpoint add_buckets (a b : DurationBuckets) : res DurationBuckets :=
  match a, b with
  | x :: a, y :: b => v ← addCount x y; l ← add_buckets a b; Ok (v :: l)
  | _, _ => Ok []
  end.

Definition merge_extrema (s o : DurationSummary) (count unobserved sum : Z) : DurationSummary :=
  let '(mn, mx) :=
    if D_Count s =? 0 then (D_Min o, D_Max o)
    else if negb (D_Count o =? 0) then (Z.min (D_Min s) (D_Min o), Z.max (D_Max s) (D_Max o))
    else (D_Min s, D_Max s) in
  {| D_Count := count; D_Unobserved := unobserved; D_Sum := sum; D_Min := mn; D_Max := mx |}.

Definition Add (s o : OperationalSummary) : res OperationalSummary :=
  buckets ← add_buckets (Buckets s) (Buckets o);
  dc ← addCount (D_Count (Durations s)) (D_Count (Durations o));
  du ← addCount (D_Unobserved (Durations s)) (D_Unobserved (Durations o));
  ds ← addCount (D_Sum (Durations s)) (D_Sum (Durations o));
  su ← addCount (S_Unavailable (SpanStatus_ s)) (S_Unavailable (SpanStatus_ o));
  sn ← addCount (S_Unset (SpanStatus_ s)) (S_Unset (SpanStatus_ o));
  so ← addCount (S_OK (SpanStatus_ s)) (S_OK (SpanStatus_ o));
  se ← addCount (S_Error (SpanStatus_ s)) (S_Error (SpanStatus_ o));
  h1 ← addCount (H_Informational (HTTPStatus s)) (H_Informational (HTTPStatus o));
  h2 ← addCount (H_Success (HTTPStatus s)) (H_Success (HTTPStatus o));
  h3 ← addCount (H_Redirection (HTTPStatus s)) (H_Redirection (HTTPStatus o));
  h4 ← addCount (H_ClientError (HTTPStatus s)) (H_ClientError (HTTPStatus o));
  h5 ← addCount (H_ServerError (HTTPStatus s)) (H_ServerError (HTTPStatus o));
  hu ← addCount (H_Unavailable (HTTPStatus s)) (H_Unavailable (HTTPStatus o));
  h429 ← addCount (HTTP429 s) (HTTP429 o);
  ti ← addCount (T_Input (Tokens s)) (T_Input (Tokens o));
  to ← addCount (T_Output (Tokens s)) (T_Output (Tokens o));
  tu ← addCount (T_Unsplit (Tokens s)) (T_Unsplit (Tokens o));
  tobs ← addCount (T_Observed (Tokens s)) (T_Observed (Tokens o));
  tun ← addCount (T_Unobserved (Tokens s)) (T_Unobserved (Tokens o));
  Ok {| Buckets := buckets;
        Durations := merge_extrema (Durations s) (Durations o) dc du ds;
        SpanStatus_ := {| S_Unavailable := su; S_Unset := sn; S_OK := so; S_Error := se |};
        HTTPStatus := {| H_Informational := h1; H_Success := h2; H_Redirection := h3;
                         H_ClientError := h4; H_ServerError := h5; H_Unavailable := hu |};
        HTTP429 := h429;
        Tokens := {| T_Input := ti; T_Output := to; T_Unsplit := tu; T_Observed := tobs;
                     T_Unobserved := tun |} |}.

(** ** Validation of a stored summary *)
(** The least and largest duration of each bucket. *)
Definition bucket_lo : list Z := [0; 1000001; 5000001; 10000001; 50000001; 100000001; 250000001;
  500000001; 1000000001; 2500000001; 10000000001].
Definition bucket_hi : list Z := [1000000; 5000000; 10000000; 50000000; 100000000; 250000000;
  500000000; 1000000000; 2500000000; 10000000000; MaxDurationNanos].

Example bucket_lo_ex : bucket_lo = 0 :: map (fun u => u * 1000000 + 1) durationBucketUpperMillis.
Proof. reflexivity. Qed.
Example bucket_hi_ex : bucket_hi = (map (fun u => u * 1000000) durationBucketUpperMillis ++ [MaxDurationNanos])%list.
Proof. reflexivity. Qed.

(** One pass of the loop: an accumulator keeps its value on overflow, and the flag
    records that it happened. *)
Definition bound_step (acc : Z * bool) (n bound : Z) : Z * bool :=
  let '(v, ok) := addMulNoOverflow (fst acc) n bound in
  if ok then (v, snd acc) else (fst acc, true).

Fixpoint bound_loop (acc : Z * bool) (buckets bounds : list Z) : Z * bool :=
  match buckets, bounds with
  | n :: buckets, bound :: bounds => bound_loop (bound_step acc n bound) buckets bounds
  | _, _ => acc
  end.

Definition checkSumAgainstBuckets (buckets : DurationBuckets) (sum : Z) : res unit :=
  let '(lower, lowerOverflow) := bound_loop (0, false) buckets bucket_lo in
  let '(upper, upperOverflow) := bound_loop (0, false) buckets bucket_hi in
  fail_if (lowerOverflow || (sum <? lower)) [];;
  fail_if (negb upperOverflow && (upper <? sum)) [].

(** The bucket an extremum falls in is not empty; nothing lies outside the extrema. *)
Fixpoint check_extrema (lo hi i : nat) (buckets : list Z) : res unit :=
  match buckets with
  | [] => Ok tt
  | n :: buckets =>
      if (Nat.eqb i lo || Nat.eqb i hi) && (n =? 0) then Err []
      else if (Nat.ltb i lo || Nat.ltb hi i) && negb (n =? 0) then Err []
      else check_extrema lo hi (S i) buckets
  end.

Definition validateOperationalSummary (s : OperationalSummary) (observations : Z) : res unit :=
  validateRestoredOperational (Durations s) (SpanStatus_ s) observations;;
  bucketTotal ← map_err (fun _ => []) (sumNoOverflow (Buckets s));
  fail_if (negb (bucketTotal =? D_Count (Durations s))) [];;
  (if 0 <? D_Count (Durations s) then
     checkSumAgainstBuckets (Buckets s) (D_Sum (Durations s));;
     check_extrema (durationBucket (D_Min (Durations s))) (durationBucket (D_Max (Durations s))) 0 (Buckets s)
   else Ok tt);;
  let h := HTTPStatus s in
  httpTotal ← map_err (fun _ => []) (sumNoOverflow
    [H_Informational h; H_Success h; H_Redirection h; H_ClientError h; H_ServerError h; H_Unavailable h]);
  fail_if (negb (httpTotal =? observations)) [];;
  fail_if (H_ClientError h <? HTTP429 s) [];;
  let t := Tokens s in
  tokenTotal ← map_err (fun _ => []) (sumNoOverflow [T_Observed t; T_Unobserved t]);
  fail_if (negb (tokenTotal =? observations)) [];;
  fail_if ((T_Observed t =? 0) &&
           (negb (T_Input t =? 0) || negb (T_Output t =? 0) || negb (T_Unsplit t =? 0))) [].

(** ** Storage of a summary (evidence_columns.go) *)
Definition operationalCounters (s : OperationalSummary) : list Z :=
  Buckets s ++
  [D_Unobserved (Durations s); D_Sum (Durations s); D_Min (Durations s); D_Max (Durations s);
   S_Unavailable (SpanStatus_ s); S_Unset (SpanStatus_ s); S_OK (SpanStatus_ s); S_Error (SpanStatus_ s);
   H_Informational (HTTPStatus s); H_Success (HTTPStatus s); H_Redirection (HTTPStatus s);
   H_ClientError (HTTPStatus s); H_ServerError (HTTPStatus s); H_Unavailable (HTTPStatus s);
   HTTP429 s;
   T_Input (Tokens s); T_Output (Tokens s); T_Unsplit (Tokens s); T_Observed (Tokens s);
   T_Unobserved (Tokens s)].

Definition encodeOperationalCounts (s : OperationalSummary) : string := encode_counts (operationalCounters s).

Definition decodeOperationalCounts (text : string) : res OperationalSummary :=
  values ← decode_counts 31 text;
  let r := fun i => nth (11 + i) values 0 in
  let buckets := firstn 11 values in
  n ← map_err (fun _ => [ErrStoreCorrupt]) (sumNoOverflow buckets);
  Ok {| Buckets := buckets;
        Durations := {| D_Count := n; D_Unobserved := r 0%nat; D_Sum := r 1%nat; D_Min := r 2%nat;
                        D_Max := r 3%nat |};
        SpanStatus_ := {| S_Unavailable := r 4%nat; S_Unset := r 5%nat; S_OK := r 6%nat; S_Error := r 7%nat |};
        HTTPStatus := {| H_Informational := r 8%nat; H_Success := r 9%nat; H_Redirection := r 10%nat;
                         H_ClientError := r 11%nat; H_ServerError := r 12%nat; H_Unavailable := r 13%nat |};
        HTTP429 := r 14%nat;
        Tokens := {| T_Input := r 15%nat; T_Output := r 16%nat; T_Unsplit := r 17%nat;
                     T_Observed := r 18%nat; T_Unobserved := r 19%nat |} |}.

(** ** Comparison *)
Definition OperationalUnavailability := string.
Definition ReferenceUnavailable : OperationalUnavailability := "reference_unavailable".
Definition CandidateUnavailable : OperationalUnavailability := "candidate_unavailable".
Definition BothUnavailable : OperationalUnavailability := "both_unavailable".

Definition unavailability (reference candidate : bool) : OperationalUnavailability :=
  if reference && candidate then ""
  else if candidate then ReferenceUnavailable
  else if reference then CandidateUnavailable
  else BothUnavailable.

Record LatencyEvidence : Type := {
  LE_RunsWithEvidence : Z; LE_Buckets : DurationBuckets; LE_Durations : DurationSummary }.
Definition LatencyEvidence_Available (e : LatencyEvidence) : bool := 0 <? D_Count (LE_Durations e).

Record ErrorEvidence : Type := {
  EE_RunsWithEvidence : Z; EE_SpanStatus : SpanStatusCounts; EE_HTTPStatus : HTTPStatusClassCounts;
  EE_HTTP429 : Z }.
Definition ErrorEvidence_Available (e : ErrorEvidence) : bool :=
  (0 <? u64 (u64 (S_Unset (EE_SpanStatus e) + S_OK (EE_SpanStatus e)) + S_Error (EE_SpanStatus e)))
  || (0 <? HTTP_Stated (EE_HTTPStatus e)).

Record TokenEvidence : Type := { TE_RunsWithEvidence : Z; TE_Tokens : TokenCounts }.
Definition TokenEvidence_Available (e : TokenEvidence) : bool := 0 <? T_Observed (TE_Tokens e).

Record Comparison (E : Type) : Type := {
  Reference : E; Candidate : E; Unavailable : OperationalUnavailability }.
Arguments Reference {E}. Arguments Candidate {E}. Arguments Unavailable {E}.
Definition Comparable {E} (c : Comparison E) : bool := Unavailable c =s "".
Definition LatencyComparison := Comparison LatencyEvidence.
Definition ErrorComparison := Comparison ErrorEvidence.
Definition TokenComparison := Comparison TokenEvidence.

Record OperationalComparison : Type := {
  Latency : LatencyComparison; Errors : ErrorComparison; TokensCompared : TokenComparison }.

Record operationalSide : Type := {
  side_sum : OperationalSummary; latencyRuns : Z; errorRuns : Z; tokenRuns : Z }.
Definition zero_side : operationalSide :=
  {| side_sum := zero_summary; latencyRuns := 0; errorRuns := 0; tokenRuns := 0 |}.

(** One run's entries, given by their operational summaries. *)
Definition addRun (s : operationalSide) (entries : list OperationalSummary) : res operationalSide :=
  run ← foldM Add zero_summary entries;
  sum ← Add (side_sum s) run;
  let l := {| LE_RunsWithEvidence := 0; LE_Buckets := zero_buckets; LE_Durations := Durations run |} in
  let e := {| EE_RunsWithEvidence := 0; EE_SpanStatus := SpanStatus_ run; EE_HTTPStatus := HTTPStatus run;
              EE_HTTP429 := 0 |} in
  let t := {| TE_RunsWithEvidence := 0; TE_Tokens := Tokens run |} in
  Ok {| side_sum := sum;
        latencyRuns := if LatencyEvidence_Available l then u64 (latencyRuns s + 1) else latencyRuns s;
        errorRuns := if ErrorEvidence_Available e then u64 (errorRuns s + 1) else errorRuns s;
        tokenRuns := if TokenEvidence_Available t then u64 (tokenRuns s + 1) else tokenRuns s |}.

Definition side_latency (s : operationalSide) : LatencyEvidence :=
  {| LE_RunsWithEvidence := latencyRuns s; LE_Buckets := Buckets (side_sum s);
     LE_Durations := Durations (side_sum s) |}.
Definition side_errors (s : operationalSide) : ErrorEvidence :=
  {| EE_RunsWithEvidence := errorRuns s; EE_SpanStatus := SpanStatus_ (side_sum s);
     EE_HTTPStatus := HTTPStatus (side_sum s); EE_HTTP429 := HTTP429 (side_sum s) |}.
Definition side_tokens (s : operationalSide) : TokenEvidence :=
  {| TE_RunsWithEvidence := tokenRuns s; TE_Tokens := Tokens (side_sum s) |}.

Definition compareOperational (reference candidate : operationalSide) : OperationalComparison :=
  let rl := side_latency reference in let cl := side_latency candidate in
  let re := side_errors reference in let ce := side_errors candidate in
  let rt := side_tokens reference in let ct := side_tokens candidate in
  {| Latency := {| Reference := rl; Candidate := cl;
       Unavailable := unavailability (LatencyEvidence_Available rl) (LatencyEvidence_Available cl) |};
     Errors := {| Reference := re; Candidate := ce;
       Unavailable := unavailability (ErrorEvidence_Available re) (ErrorEvidence_Available ce) |};
     TokensCompared := {| Reference := rt; Candidate := ct;
       Unavailable := unavailability (TokenEvidence_Available rt) (TokenEvidence_Available ct) |} |}.

Definition compareOperationalEntries (reference candidate : list OperationalSummary)
    : res OperationalComparison :=
  ref ← addRun zero_side reference;
  cand ← addRun zero_side candidate;
  Ok (compareOperational ref cand).

Record SignedCount : Type := { Negative : bool; Magnitude : Z }.

Definition Difference (candidate reference : Z) : SignedCount :=
  if reference <=? candidate then {| Negative := false; Magnitude := candidate - reference |}
  else {| Negative := true; Magnitude := reference - candidate |}.

Definition SignedCount_String (s : SignedCount) : string :=
  if Negative s && negb (Magnitude s =? 0) then String "-"%char (format_uint 10 (Magnitude s))
  else format_uint 10 (Magnitude s).

(** * Specification

    What the validation accepts, in exact arithmetic. *)
Record durations_range (d : DurationSummary) : Prop := {
  dr_count : is_u64 (D_Count d); dr_unobserved : is_u64 (D_Unobserved d);
  dr_sum : is_u64 (D_Sum d); dr_min : is_u64 (D_Min d); dr_max : is_u64 (D_Max d) }.
Record statuses_range (c : SpanStatusCounts) : Prop := {
  sr_unavailable : is_u64 (S_Unavailable c); sr_unset : is_u64 (S_Unset c);
  sr_ok : is_u64 (S_OK c); sr_error : is_u64 (S_Error c) }.
Record http_range (h : HTTPStatusClassCounts) : Prop := {
  hr_1 : is_u64 (H_Informational h); hr_2 : is_u64 (H_Success h); hr_3 : is_u64 (H_Redirection h);
  hr_4 : is_u64 (H_ClientError h); hr_5 : is_u64 (H_ServerError h); hr_u : is_u64 (H_Unavailable h) }.
Record tokens_range (t : TokenCounts) : Prop := {
  tr_in : is_u64 (T_Input t); tr_out : is_u64 (T_Output t); tr_unsplit : is_u64 (T_Unsplit t);
  tr_obs : is_u64 (T_Observed t); tr_unobs : is_u64 (T_Unobserved t) }.

(** The statistics some multiset of [Count] durations can have: all between the least
    and the greatest, with one of each. *)
Definition stats_consistent (d : DurationSummary) : Prop :=
  (D_Count d = 0 /\ D_Sum d = 0 /\ D_Min d = 0 /\ D_Max d = 0) \/
  (1 <= D_Count d /\ D_Min d <= D_Max d <= MaxDurationNanos /\
   D_Max d + (D_Count d - 1) * D_Min d <= D_Sum d <= D_Min d + (D_Count d - 1) * D_Max d).

Definition durations_ok (d : DurationSummary) (c : SpanStatusCounts) (records : Z) : Prop :=
  D_Count d + D_Unobserved d = records /\
  S_Unavailable c + S_Unset c + S_OK c + S_Error c = records /\
  stats_consistent d.

Definition buckets_ok (b : DurationBuckets) (d : DurationSummary) : Prop :=
  sumL b = D_Count d /\
  (0 < D_Count d ->
    dot b bucket_lo <= D_Sum d <= dot b bucket_hi /\
    forall i n, b !! i = Some n ->
      (i = durationBucket (D_Min d) \/ i = durationBucket (D_Max d) -> n <> 0) /\
      ((i < durationBucket (D_Min d))%nat \/ (durationBucket (D_Max d) < i)%nat -> n = 0)).

Record summary_range (s : OperationalSummary) : Prop := {
  rg_length : length (Buckets s) = 11%nat;
  rg_buckets : Forall is_u64 (Buckets s);
  rg_durations : durations_range (Durations s);
  rg_statuses : statuses_range (SpanStatus_ s);
  rg_http : http_range (HTTPStatus s);
  rg_429 : is_u64 (HTTP429 s);
  rg_tokens : tokens_range (Tokens s);
}.

Record summary_ok (s : OperationalSummary) (n : Z) : Prop := {
  so_durations : durations_ok (Durations s) (SpanStatus_ s) n;
  so_buckets : buckets_ok (Buckets s) (Durations s);
  so_http : H_Informational (HTTPStatus s) + H_Success (HTTPStatus s) + H_Redirection (HTTPStatus s)
            + H_ClientError (HTTPStatus s) + H_ServerError (HTTPStatus s) + H_Unavailable (HTTPStatus s) = n;
  so_429 : HTTP429 s <= H_ClientError (HTTPStatus s);
  so_tokens : T_Observed (Tokens s) + T_Unobserved (Tokens s) = n;
  so_unreported : T_Observed (Tokens s) = 0 ->
    T_Input (Tokens s) = 0 /\ T_Output (Tokens s) = 0 /\ T_Unsplit (Tokens s) = 0;
}.

(** ** The validations decide the specification *)
Lemma checked_total_iff l n (k : res unit) : Forall is_u64 l ->
  (t ← map_err (fun _ => []) (sumNoOverflow l); fail_if (negb (t =? n)) [];; k) = Ok tt <->
  (sumL l = n /\ n <= max_u64) /\ k = Ok tt.
Proof.
  intros Hl. destruct (sumNoOverflow l) as [t|e] eqn:E; cbn.
  - apply sumNoOverflow_Ok in E as [-> Hle]; [|done].
    destruct (Z.eqb_spec (sumL l) n); cbn; intuition (done || lia).
  - split; [done|]. intros [[<- Hle] _]. exfalso.
    assert (sumNoOverflow l = Ok (sumL l)) by (apply sumNoOverflow_Ok; done). congruence.
Qed.

Ltac u64s := repeat first [apply Forall_nil_2|apply Forall_cons_2; [assumption|]].

Lemma validateRestored_iff d c n :
  durations_range d -> statuses_range c -> is_u64 n ->
  validateRestoredOperational d c n = Ok tt <-> durations_ok d c n.
Proof.
  intros [] [] Hn. unfold validateRestoredOperational, durations_ok.
  rewrite checked_total_iff by u64s.
  rewrite checked_total_iff by u64s. cbn [sumL foldr].
  assert (Hs : forall k, (sumL [D_Count d; D_Unobserved d] = n /\ n <= max_u64) /\
     (sumL [S_Unavailable c; S_Unset c; S_OK c; S_Error c] = n /\ n <= max_u64) /\ k <->
     D_Count d + D_Unobserved d = n /\ S_Unavailable c + S_Unset c + S_OK c + S_Error c = n /\ k).
  { intros k. unfold sumL. cbn [foldr]. rewrite !Z.add_0_r, !Z.add_assoc. unfold is_u64 in Hn. tauto. }
  rewrite Hs. clear Hs. apply and_iff_compat_l, and_iff_compat_l. unfold stats_consistent.
  destruct (Z.eqb_spec (D_Count d) 0) as [E0|E0].
  { rewrite fail_if_iff, !orb_false_iff, !negb_false_iff, !Z.eqb_eq. intuition lia. }
  rewrite !bind_unit_iff, !fail_if_iff, !Z.ltb_ge.
  destruct (Z.eqb_spec (D_Count d) 1) as [E1|E1].
  { rewrite fail_if_iff, orb_false_iff, !negb_false_iff, !Z.eqb_eq, E1. unfold is_u64 in *. intuition lia. }
  assert (1 <= D_Count d) by ulia.
  destruct (addMulNoOverflow (D_Max d) (D_Count d - 1) (D_Min d)) as [lower ok1] eqn:El.
  destruct (addMulNoOverflow (D_Min d) (D_Count d - 1) (D_Max d)) as [upper ok2] eqn:Eu.
  apply addMulNoOverflow_spec in El as [Hl1 Hl2]; [|done|ulia|done].
  apply addMulNoOverflow_spec in Eu as [Hu1 Hu2]; [|done|ulia|done].
  rewrite !bind_unit_iff, !fail_if_iff, negb_false_iff, andb_false_iff, !Z.ltb_ge.
  unfold is_u64 in *. split.
  - intros (Hmm & Hmax & -> & Hlo & Hup). right. split; [done|]. split; [done|].
    destruct Hl1 as [-> _]; [done|]. split; [lia|].
    destruct ok2; [destruct Hu1 as [-> _]; [done|]; destruct Hup; [done|lia]|].
    destruct (Z.le_gt_cases (D_Min d + (D_Count d - 1) * D_Max d) max_u64) as [Hle|]; [|lia].
    apply Hu2 in Hle. done.
  - intros [(? & _)|(_ & [Hmm Hmax] & Hlo & Hup)]; [done|].
    assert (ok1 = true) as -> by (apply Hl2; lia). destruct Hl1 as [-> _]; [done|].
    repeat split; try lia. destruct ok2; [|by left]. right. destruct Hu1 as [-> _]; [done|lia].
Qed.

(** *** The bucket checks *)
Lemma dot_nonneg l v : Forall is_u64 l -> Forall is_u64 v -> 0 <= dot l v.
Proof.
  unfold dot. intros Hl. revert v. induction Hl as [|x l Hx Hl IH]; intros v Hv; [done|].
  destruct v as [|y v]; [done|]. apply Forall_cons in Hv as [Hy Hv]. cbn. specialize (IH v Hv).
  assert (0 <= x * y) by (apply Z.mul_nonneg_nonneg; ulia). unfold sumL in IH. lia.
Qed.

(** The loop's accumulator is the exact weighted sum unless the flag is set, and the
    flag is set exactly when that sum exceeds the largest uint64. *)
Lemma bound_loop_spec l v acc : Forall is_u64 l -> Forall is_u64 v -> is_u64 acc ->
  snd (bound_loop (acc, false) l v) = (max_u64 <? acc + dot l v) /\
  (snd (bound_loop (acc, false) l v) = false -> fst (bound_loop (acc, false) l v) = acc + dot l v).
Proof.
  intros Hl. revert v acc. induction Hl as [|x l Hx Hl IH]; intros v acc Hv Ha; unfold dot; cbn.
  - rewrite Z.add_0_r. destruct (Z.ltb_spec max_u64 acc); [ulia|done].
  - destruct v as [|y v]; cbn.
    { rewrite Z.add_0_r. destruct (Z.ltb_spec max_u64 acc); [ulia|done]. }
    apply Forall_cons in Hv as [Hy Hv]. pose proof (dot_nonneg l v Hl Hv) as Hd. unfold dot, sumL in Hd.
    assert (Hstuck : forall l v a, snd (bound_loop (a, true) l v) = true).
    { intros l0. induction l0 as [|n l0 IHl]; intros v0 a; [done|]. destruct v0; [done|]. cbn.
      unfold bound_step. cbn [fst snd]. destruct (addMulNoOverflow a n z) as [r []]; apply IHl. }
    unfold bound_step. cbn [fst snd].
    destruct (addMulNoOverflow acc x y) as [r ok] eqn:E.
    apply addMulNoOverflow_spec in E as [E1 E2]; [|done..]. destruct ok.
    + destruct E1 as [-> Hr]; [done|]. destruct (IH v (acc + x * y) Hv Hr) as [I1 I2].
      unfold dot, sumL in *. split.
      * rewrite I1. f_equal. lia.
      * intros H. rewrite I2 by done. lia.
    + rewrite Hstuck. split; [|done]. symmetry. apply Z.ltb_lt.
      destruct (Z.le_gt_cases (acc + x * y) max_u64) as [Hle|]; [apply E2 in Hle; done|].
      unfold sumL in *. lia.
Qed.

Lemma bucket_bounds_u64 : Forall is_u64 bucket_lo /\ Forall is_u64 bucket_hi.
Proof. split; repeat (apply Forall_cons; split; [by split|]); constructor. Qed.

Lemma checkSum_iff b sum : Forall is_u64 b -> is_u64 sum ->
  checkSumAgainstBuckets b sum = Ok tt <-> dot b bucket_lo <= sum <= dot b bucket_hi.
Proof.
  intros Hb Hs. destruct bucket_bounds_u64 as [Hlo Hhi]. unfold checkSumAgainstBuckets.
  destruct (bound_loop_spec b bucket_lo 0 Hb Hlo ltac:(ulia)) as [L1 L2].
  destruct (bound_loop_spec b bucket_hi 0 Hb Hhi ltac:(ulia)) as [U1 U2].
  destruct (bound_loop (0, false) b bucket_lo) as [lower lof]. destruct (bound_loop (0, false) b bucket_hi) as [upper uof].
  cbn [fst snd] in *. rewrite bind_unit_iff, !fail_if_iff, orb_false_iff, andb_false_iff, negb_false_iff, !Z.ltb_ge.
  rewrite !Z.add_0_l in *. destruct lof, uof; symmetry in L1, U1; bool_prop.
  - intuition (done || ulia).
  - intuition (done || ulia).
  - rewrite L2 by done. intuition (done || ulia).
  - rewrite L2, U2 by done. intuition (done || ulia).
Qed.

Lemma check_extrema_iff lo hi k b :
  check_extrema lo hi k b = Ok tt <->
  forall i n, b !! i = Some n ->
    ((k + i)%nat = lo \/ (k + i)%nat = hi -> n <> 0) /\ ((k + i < lo)%nat \/ (hi < k + i)%nat -> n = 0).
Proof.
  revert k. induction b as [|n b IH]; intros k; cbn [check_extrema]; [done|].
  assert (Hsplit : (forall i n0, (n :: b) !! i = Some n0 ->
      ((k + i)%nat = lo \/ (k + i)%nat = hi -> n0 <> 0) /\ ((k + i < lo)%nat \/ (hi < k + i)%nat -> n0 = 0)) <->
    ((k = lo \/ k = hi -> n <> 0) /\ ((k < lo)%nat \/ (hi < k)%nat -> n = 0)) /\
    (forall i n0, b !! i = Some n0 ->
      ((S k + i)%nat = lo \/ (S k + i)%nat = hi -> n0 <> 0) /\ ((S k + i < lo)%nat \/ (hi < S k + i)%nat -> n0 = 0))).
  { split.
    - intros H. split; [specialize (H 0%nat n eq_refl); rewrite Nat.add_0_r in H; exact H|].
      intros i n0 Hi. specialize (H (S i) n0 Hi). replace (S k + i)%nat with (k + S i)%nat by lia. exact H.
    - intros [H0 H] [|i] n0 Hi; cbn in Hi; [simplify_eq; by rewrite Nat.add_0_r|].
      specialize (H i n0 Hi). replace (k + S i)%nat with (S k + i)%nat by lia. exact H. }
  rewrite Hsplit, <- IH. clear Hsplit IH.
  destruct (Nat.eqb_spec k lo), (Nat.eqb_spec k hi), (Nat.ltb_spec k lo), (Nat.ltb_spec hi k), (Z.eqb_spec n 0).
  all: cbn [orb andb negb]; intuition (discriminate || lia).
Qed.

Lemma validateOperational_iff s n : summary_range s -> is_u64 n ->
  validateOperationalSummary s n = Ok tt <-> summary_ok s n.
Proof.
  intros [Hlen Hb Hd Hc Hh H429 Ht] Hn. unfold validateOperationalSummary.
  cbv zeta. rewrite bind_unit_iff, validateRestored_iff by done.
  assert (Hd' : durations_range (Durations s)) by done. destruct Hd', Hh, Ht.
  repeat first [rewrite checked_total_iff by (done || u64s)|rewrite bind_unit_iff].
  rewrite !fail_if_iff, !Z.ltb_ge. unfold sumL at 2 3. cbn [foldr].
  rewrite !Z.add_0_r, !Z.add_assoc.
  assert (Hbk : (if 0 <? D_Count (Durations s) then
             checkSumAgainstBuckets (Buckets s) (D_Sum (Durations s));;
             check_extrema (durationBucket (D_Min (Durations s))) (durationBucket (D_Max (Durations s))) 0 (Buckets s)
           else Ok tt) = Ok tt <->
    (0 < D_Count (Durations s) ->
      dot (Buckets s) bucket_lo <= D_Sum (Durations s) <= dot (Buckets s) bucket_hi /\
      forall i n, Buckets s !! i = Some n ->
      (i = durationBucket (D_Min (Durations s)) \/ i = durationBucket (D_Max (Durations s)) -> n <> 0) /\
      ((i < durationBucket (D_Min (Durations s)))%nat \/ (durationBucket (D_Max (Durations s)) < i)%nat -> n = 0))).
  { destruct (Z.ltb_spec 0 (D_Count (Durations s))); [|split; [lia|done]].
    rewrite bind_unit_iff, checkSum_iff, check_extrema_iff by done. cbn [Nat.add]. tauto. }
  rewrite Hbk. clear Hbk.
  assert (Htok : forall o i u v, (o =? 0) && (negb (i =? 0) || negb (u =? 0) || negb (v =? 0)) = false <->
            (o = 0 -> i = 0 /\ u = 0 /\ v = 0)).
  { intros o i u v. destruct (Z.eqb_spec o 0), (Z.eqb_spec i 0), (Z.eqb_spec u 0), (Z.eqb_spec v 0);
      cbn; intuition (discriminate || lia). }
  rewrite Htok. clear Htok. unfold is_u64 in *. split.
  - intros (H1 & (H2 & _) & H3 & (H4 & _) & H5 & (H6 & _) & H7). split; try done; try lia.
  - intros [K1 [K2 K3] K4 K5 K6 K7]. repeat (split; try done; try lia).
Qed.

(** ** What the operations preserve *)
Lemma bucket_from_mono l x y : x <= y -> (bucket_from l x <= bucket_from l y)%nat.
Proof.
  intros H. induction l as [|u l IH]; cbn; [done|].
  destruct (Z.leb_spec x (u * 1000000)), (Z.leb_spec y (u * 1000000)); lia.
Qed.
Lemma durationBucket_mono x y : x <= y -> (durationBucket x <= durationBucket y)%nat.
Proof. apply bucket_from_mono. Qed.

Lemma durationBucket_min x y :
  durationBucket (Z.min x y) = Nat.min (durationBucket x) (durationBucket y).
Proof.
  destruct (Z.min_spec x y) as [[H ->]|[H ->]];
    [pose proof (durationBucket_mono x y)|pose proof (durationBucket_mono y x)]; lia.
Qed.
Lemma durationBucket_max x y :
  durationBucket (Z.max x y) = Nat.max (durationBucket x) (durationBucket y).
Proof.
  destruct (Z.max_spec x y) as [[H ->]|[H ->]];
    [pose proof (durationBucket_mono x y)|pose proof (durationBucket_mono y x)]; lia.
Qed.

(** A duration lies within the bounds of its bucket. *)
Lemma durationBucket_bounds x : 0 <= x <= MaxDurationNanos ->
  (durationBucket x < 11)%nat /\ nth (durationBucket x) bucket_lo 0 <= x <= nth (durationBucket x) bucket_hi 0.
Proof.
  intros H. unfold durationBucket, durationBucketUpperMillis. cbn [bucket_from].
  repeat match goal with |- context [x <=? ?u] => destruct (Z.leb_spec x u) end;
    cbn [nth bucket_lo bucket_hi]; split; lia.
Qed.

#[local] Arguments durationBucket : simpl never.

Lemma sumL_insert l i n : (i < length l)%nat -> sumL (<[i := n]> l) = sumL l - nth i l 0 + n.
Proof.
  unfold sumL. revert i. induction l as [|x l IH]; intros [|i] H; cbn in *; try lia.
  rewrite IH by lia. lia.
Qed.

Lemma dot_insert l v i n : (i < length l)%nat -> length v = length l ->
  dot (<[i := n]> l) v = dot l v + (n - nth i l 0) * nth i v 0.
Proof.
  unfold dot, sumL. revert v i. induction l as [|x l IH]; intros [|y v] [|i] H Hv; cbn in *; try lia.
  rewrite IH by lia. lia.
Qed.

Lemma add_buckets_spec a b l : Forall is_u64 a -> Forall is_u64 b -> length a = length b ->
  add_buckets a b = Ok l -> l = zip_with Z.add a b /\ Forall is_u64 l.
Proof.
  intros Ha. revert b l. induction Ha as [|x a Hx Ha IH]; intros [|y b] l Hb Hlen H; cbn in *; try done.
  { by simplify_eq. }
  apply Forall_cons in Hb as [Hy Hb]. res_inv. subst l.
  match goal with H : add_buckets _ _ = Ok _ |- _ => apply IH in H as [-> ?]; [|done|lia] end.
  match goal with H : addCount _ _ = Ok _ |- _ => apply addCount_Ok in H as [-> ?]; [|done..] end.
  by split; [|constructor].
Qed.

Lemma sumL_zip a b : length a = length b -> sumL (zip_with Z.add a b) = sumL a + sumL b.
Proof.
  unfold sumL. revert b. induction a as [|x a IH]; intros [|y b] H; cbn in *; try done.
  rewrite IH by lia. lia.
Qed.
Lemma dot_zip a b v : length a = length b -> dot (zip_with Z.add a b) v = dot a v + dot b v.
Proof.
  unfold dot, sumL. revert b v. induction a as [|x a IH]; intros [|y b] [|z v] H; cbn in *; try done.
  rewrite IH by lia. lia.
Qed.

(** *** Observing one record *)
Lemma DurationSummary_observe_ok d x d' :
  durations_range d -> stats_consistent d -> 0 <= x <= MaxDurationNanos ->
  DurationSummary_observe d x = Ok d' ->
  durations_range d' /\ stats_consistent d' /\
  D_Count d' = D_Count d + 1 /\ D_Unobserved d' = D_Unobserved d /\ D_Sum d' = D_Sum d + x /\
  D_Min d' = (if D_Count d =? 0 then x else Z.min (D_Min d) x) /\
  D_Max d' = (if D_Count d =? 0 then x else Z.max (D_Max d) x).
Proof.
  intros [] Hs Hx H. unfold DurationSummary_observe in H.
  destruct (Z.eqb_spec (D_Count d) max_u64); [done|].
  destruct (Z.ltb_spec (max_u64 - x) (D_Sum d)); [done|].
  assert (Hmax : MaxDurationNanos <= max_u64) by done.
  destruct (Z.eqb_spec (D_Count d) 0) as [E|E]; injection H as <-; cbn.
  - destruct Hs as [(_ & Hs & _)|[? _]]; [|lia]. split; [split; cbn; ulia|]. split; [|rewrite E; lia].
    right. cbn. lia.
  - destruct Hs as [[? _]|(Hc & Hm & Hlo & Hhi)]; [done|]. split; [split; cbn; ulia|]. split; [|done].
    right. cbn. unfold is_u64 in *.
    replace (D_Count d + 1 - 1) with (D_Count d - 1 + 1) by lia.
    set (k := D_Count d - 1) in *. assert (0 <= k) by lia.
    assert (k * Z.min (D_Min d) x <= k * D_Min d) by (apply Z.mul_le_mono_nonneg_l; lia).
    assert (k * D_Max d <= k * Z.max (D_Max d) x) by (apply Z.mul_le_mono_nonneg_l; lia).
    rewrite !Z.mul_add_distr_r, !Z.mul_1_l. split; [lia|]. split; [lia|].
    destruct (Z.min_spec (D_Min d) x) as [[? ->]|[? ->]], (Z.max_spec (D_Max d) x) as [[? ->]|[? ->]]; lia.
Qed.

Lemma skip_ok d d' : durations_range d -> stats_consistent d -> skip d = Ok d' ->
  durations_range d' /\ stats_consistent d' /\
  d' = {| D_Count := D_Count d; D_Unobserved := D_Unobserved d + 1; D_Sum := D_Sum d;
          D_Min := D_Min d; D_Max := D_Max d |}.
Proof.
  intros [] Hs H. unfold skip in H. destruct (Z.eqb_spec (D_Unobserved d) max_u64); [done|].
  injection H as <-. split; [split; cbn; ulia|]. by split.
Qed.

Lemma count_ok c st c' : statuses_range c -> count c st = Ok c' ->
  statuses_range c' /\
  S_Unavailable c' + S_Unset c' + S_OK c' + S_Error c' = S_Unavailable c + S_Unset c + S_OK c + S_Error c + 1.
Proof.
  intros [] H. unfold count, bump in H.
  repeat match type of H with context [(_ =s _)%go] => destruct (_ =s _)%go end; try done;
    match type of H with context [?n =? max_u64] => destruct (Z.eqb_spec n max_u64) end; try done;
    cbn in H; injection H as <-; cbn; (split; [split; cbn; ulia|lia]).
Qed.

Lemma count_http_ok h code h' : http_range h -> count_http h code = Ok h' ->
  http_range h' /\
  H_Informational h' + H_Success h' + H_Redirection h' + H_ClientError h' + H_ServerError h' + H_Unavailable h'
    = H_Informational h + H_Success h + H_Redirection h + H_ClientError h + H_ServerError h + H_Unavailable h + 1 /\
  H_ClientError h <= H_ClientError h' /\ (code = 429 -> H_ClientError h' = H_ClientError h + 1).
Proof.
  intros [] H. unfold count_http in H.
  destruct (Z.eqb_spec code 0); [|destruct (Z.ltb_spec code 200); [|destruct (Z.ltb_spec code 300);
    [|destruct (Z.ltb_spec code 400); [|destruct (Z.ltb_spec code 500)]]]];
    res_inv; subst h';
    match goal with H : addCount _ _ = Ok _ |- _ => apply addCount_Ok in H as [-> ?]; [|done|by split] end;
    cbn; (split; [split; cbn; done|]); split; lia.
Qed.

Record usage_range (u : Usage) : Prop := {
  ur_in : is_u64 (Usage_Input u); ur_out : is_u64 (Usage_Output u); ur_un : is_u64 (Usage_Unsplit u) }.

Lemma count_tokens_ok t u t' : tokens_range t -> usage_range u ->
  (T_Observed t = 0 -> T_Input t = 0 /\ T_Output t = 0 /\ T_Unsplit t = 0) ->
  count_tokens t u = Ok t' ->
  tokens_range t' /\ T_Observed t' + T_Unobserved t' = T_Observed t + T_Unobserved t + 1 /\
  (T_Observed t' = 0 -> T_Input t' = 0 /\ T_Output t' = 0 /\ T_Unsplit t' = 0).
Proof.
  intros [] [] H0 H. unfold count_tokens in H. destruct (negb (Usage_Observed u)); res_inv; subst t';
    repeat match goal with H : addCount _ _ = Ok _ |- _ =>
      apply addCount_Ok in H as [-> ?]; [|done|first [done|by split]] end;
    cbn; (split; [split; cbn; done|]); split; try lia; ulia.
Qed.

Lemma nth_u64 l i : Forall is_u64 l -> is_u64 (nth i l 0).
Proof.
  intros H. destruct (nth_in_or_default i l 0) as [Hin| ->]; [|by split].
  rewrite List.Forall_forall in H. by apply H.
Qed.

(** Counting a duration in its bucket keeps the buckets consistent with the statistics. *)
Lemma buckets_ok_observe b d d' x b' :
  length b = 11%nat -> Forall is_u64 b -> durations_range d -> stats_consistent d -> buckets_ok b d ->
  0 <= x <= MaxDurationNanos -> DurationSummary_observe d x = Ok d' ->
  add_bucket b (durationBucket x) 1 = Ok b' ->
  length b' = 11%nat /\ Forall is_u64 b' /\ buckets_ok b' d'.
Proof.
  intros Hlen Hb Hr Hs [Hsum Hbk] Hx Hobs Hadd.
  destruct (DurationSummary_observe_ok d x d' Hr Hs Hx Hobs) as (_ & _ & Hc & _ & HS & Hmin & Hmax).
  destruct (durationBucket_bounds x Hx) as [Hi [Hlo Hhi]]. set (i := durationBucket x) in *.
  unfold add_bucket in Hadd. res_inv. subst b'.
  match goal with H : addCount _ _ = Ok _ |- _ => apply addCount_Ok in H as [-> ?]; [|by apply nth_u64|by split] end.
  split; [by rewrite length_insert|]. split; [by apply Forall_insert|].
  pose proof (nth_u64 b i Hb) as Hni.
  assert (Hdots : forall v, length v = length b ->
    dot (<[i := nth i b 0 + 1]> b) v = dot b v + nth i v 0).
  { intros v Hv. rewrite dot_insert by lia. lia. }
  split; [rewrite sumL_insert, Hc by lia; lia|]. intros _.
  rewrite !Hdots, HS by (rewrite Hlen; done).
  destruct (Z.eqb_spec (D_Count d) 0) as [E|E].
  - assert (Hz : Forall (fun n => n = 0) b).
    { rewrite E in Hsum. clear -Hsum Hb. revert Hsum. unfold sumL. induction Hb as [|n l Hn Hl IH]; [constructor|]. cbn.
      intros Hsum. pose proof (sumL_nonneg l Hl). unfold sumL in *. constructor; [ulia|apply IH; ulia]. }
    assert (Hdz : forall v, dot b v = 0).
    { intros v. clear -Hz. unfold dot, sumL. revert v. induction Hz as [|n l -> Hl IH]; intros [|y v]; cbn; [done..|].
      rewrite IH. lia. }
    destruct Hs as [(_ & HS0 & _)|[? _]]; [|lia]. rewrite !Hdz, HS0, Hmin, Hmax. split; [lia|].
    intros j n Hj. fold i. destruct (decide (j = i)) as [->|Hne].
    + rewrite list_lookup_insert_eq in Hj by lia. simplify_eq. split; ulia.
    + rewrite list_lookup_insert_ne in Hj by done. rewrite Forall_lookup in Hz. rewrite (Hz _ _ Hj). split; lia.
  - destruct Hbk as [[Hl Hu] Hex]; [destruct Hr; ulia|]. split; [lia|].
    intros j n Hj. rewrite Hmin, Hmax, durationBucket_min, durationBucket_max. fold i.
    destruct (decide (j = i)) as [->|Hne].
    + rewrite list_lookup_insert_eq in Hj by lia. simplify_eq. split; [ulia|]. intros [?|?]; lia.
    + rewrite list_lookup_insert_ne in Hj by done. destruct (Hex _ _ Hj) as [H1 H2]. split.
      * intros [?|?]; apply H1; lia.
      * intros [?|?]; apply H2; lia.
Qed.

Lemma observeOperational_inv d c record d' c' :
  observeOperational d c record = Ok (d', c') ->
  exists nanos, ValidateDurationNanos record = Ok nanos /\ 0 <= nanos <= MaxDurationNanos /\
    (if (DR_DurationNanos record <>s "")%go then DurationSummary_observe d nanos else skip d) = Ok d' /\
    count c (DR_SpanStatus record) = Ok c'.
Proof.
  intros H. unfold observeOperational in H. res_inv. simplify_eq.
  match goal with H : ValidateDurationNanos _ = Ok ?n |- _ => exists n; split; [done|];
    apply ValidateDurationNanos_spec in H as [[_ ->]|[Hn _]] end; (split; [done || (split; [lia|done])|done]).
Qed.

Lemma durations_ok_observe d c record d' c' n :
  durations_range d -> statuses_range c -> durations_ok d c n ->
  observeOperational d c record = Ok (d', c') ->
  durations_range d' /\ statuses_range c' /\ durations_ok d' c' (n + 1).
Proof.
  intros Hd Hc (H1 & H2 & H3) H. apply observeOperational_inv in H as (nanos & _ & Hn & Hobs & Hcnt).
  destruct (count_ok _ _ _ Hc Hcnt) as [Hc' Hsum]. destruct (DR_DurationNanos record <>s "")%go.
  - destruct (DurationSummary_observe_ok d nanos d' Hd H3 Hn Hobs) as (Hd' & Hs' & Hcount & Hun & _).
    split; [done|]. split; [done|]. split; [lia|]. split; [lia|done].
  - destruct (skip_ok d d' Hd H3 Hobs) as (Hd' & Hs' & ->).
    split; [done|]. split; [done|]. split; [cbn; lia|]. split; [lia|done].
Qed.

Lemma OperationalSummary_observe_ok s record facts s' n :
  summary_range s -> summary_ok s n -> usage_range (F_Usage facts) ->
  OperationalSummary_observe s record facts = Ok s' ->
  summary_range s' /\ summary_ok s' (n + 1).
Proof.
  intros [Hlen Hb Hd Hc Hh H429 Ht] [K1 K2 K3 K4 K5 K6] Hu H.
  unfold OperationalSummary_observe in H. apply bind_Ok in H as ([d' c'] & Hobs & H). apply map_err_Ok in Hobs.
  destruct (durations_ok_observe _ _ _ _ _ n Hd Hc K1 Hobs) as (Hd' & Hc' & K1').
  apply observeOperational_inv in Hobs as (nanos & Hval & Hn & Hdur & _). rewrite Hval in H. res_inv. subst s'.
  rename a into b', a0 into h', a1 into h429', a2 into t'.
  destruct (count_http_ok _ _ _ Hh Hok0) as (Hh' & Hhs & Hhm & H4).
  destruct (count_tokens_ok _ _ _ Ht Hu K6 Hok2) as (Ht' & Hts & K6').
  assert (Hbk : length b' = 11%nat /\ Forall is_u64 b' /\ buckets_ok b' d').
  { destruct K1 as (_ & _ & Hsc). destruct (DR_DurationNanos record <>s "")%go.
    - by apply (buckets_ok_observe (Buckets s) (Durations s) d' nanos).
    - injection Hok as <-. destruct (skip_ok _ _ Hd Hsc Hdur) as (_ & _ & ->). done. }
  destruct Hbk as (Hb1 & Hb2 & Hb3).
  assert (H4' : is_u64 h429' /\ h429' <= H_ClientError h').
  { destruct (Z.eqb_spec (HTTPStatusCode facts) 429).
    - apply addCount_Ok in Hok1 as [-> ?]; [|done|by split]. split; [done|]. lia.
    - injection Hok1 as <-. split; [done|lia]. }
  destruct H4' as [Hr4 Hle]. split; split; cbn; try done; lia.
Qed.

(** *** Adding two summaries *)
Lemma merge_extrema_fields s o dc du ds :
  D_Count (merge_extrema s o dc du ds) = dc /\ D_Unobserved (merge_extrema s o dc du ds) = du /\
  D_Sum (merge_extrema s o dc du ds) = ds.
Proof.
  unfold merge_extrema. destruct (D_Count s =? 0); [done|]. by destruct (negb (D_Count o =? 0)).
Qed.

Lemma merge_stats_ok s o dc du ds :
  durations_range s -> durations_range o -> stats_consistent s -> stats_consistent o ->
  dc = D_Count s + D_Count o -> ds = D_Sum s + D_Sum o ->
  stats_consistent (merge_extrema s o dc du ds) /\
  is_u64 (D_Min (merge_extrema s o dc du ds)) /\ is_u64 (D_Max (merge_extrema s o dc du ds)).
Proof.
  intros [] [] [(A0 & A1 & A2 & A3)|(A0 & A1 & A2)] [(B0 & B1 & B2 & B3)|(B0 & B1 & B2)] -> ->;
    unfold merge_extrema, stats_consistent.
  - rewrite A0, B0, A1, B1. cbn. split; [left; lia|done].
  - rewrite A0, A1. cbn. split; [right; lia|done].
  - destruct (Z.eqb_spec (D_Count s) 0); [lia|]. rewrite B0, B1. cbn. split; [right; rewrite !Z.add_0_r; lia|done].
  - destruct (Z.eqb_spec (D_Count s) 0); [lia|]. destruct (Z.eqb_spec (D_Count o) 0); [lia|]. cbn.
    split; [|ulia]. right. split; [lia|]. split; [lia|]. unfold is_u64 in *.
    set (k := D_Count s - 1) in *. set (j := D_Count o - 1) in *.
    replace (D_Count s + D_Count o - 1) with (k + (j + 1)) by lia.
    assert (0 <= k) by lia. assert (0 <= j) by lia.
    set (m := Z.min (D_Min s) (D_Min o)). set (M := Z.max (D_Max s) (D_Max o)).
    assert (k * m <= k * D_Min s) by (apply Z.mul_le_mono_nonneg_l; lia).
    assert (j * m <= j * D_Min o) by (apply Z.mul_le_mono_nonneg_l; lia).
    assert (k * D_Max s <= k * M) by (apply Z.mul_le_mono_nonneg_l; lia).
    assert (j * D_Max o <= j * M) by (apply Z.mul_le_mono_nonneg_l; lia).
    rewrite !Z.mul_add_distr_r, !Z.mul_1_l.
    assert (m <= D_Min s /\ m <= D_Min o /\ D_Max s <= M /\ D_Max o <= M) by lia.
    assert (M = D_Max s \/ M = D_Max o) by lia. assert (m = D_Min s \/ m = D_Min o) by lia.
    assert (D_Min s <= D_Max s /\ D_Min o <= D_Max o) by lia.
    assert (k * D_Min s <= k * D_Max s) by (apply Z.mul_le_mono_nonneg_l; lia).
    assert (j * D_Min o <= j * D_Max o) by (apply Z.mul_le_mono_nonneg_l; lia).
    generalize dependent (k * m). generalize dependent (j * m). generalize dependent (k * M).
    generalize dependent (j * M). intros. lia.
Qed.

Lemma zip_lookup a b i n : length a = length b -> zip_with Z.add a b !! i = Some n ->
  exists x y, a !! i = Some x /\ b !! i = Some y /\ n = x + y.
Proof.
  intros Hlen (x & y & -> & Hx & Hy)%lookup_zip_with_Some. eauto.
Qed.

Lemma all_zero b : Forall is_u64 b -> sumL b = 0 -> Forall (fun n => n = 0) b /\ forall v, dot b v = 0.
Proof.
  intros Hu Hs. assert (Hz : Forall (fun n => n = 0) b).
  { revert Hs. unfold sumL. induction Hu as [|n l Hn Hl IH]; [constructor|]. cbn. intros Hs.
    pose proof (sumL_nonneg l Hl). unfold sumL in *. constructor; [ulia|apply IH; ulia]. }
  split; [done|]. intros v. unfold dot, sumL. revert v.
  induction Hz as [|n l -> Hl IH]; intros [|y v]; cbn; [done..|].
  rewrite IH; [lia|by apply Forall_cons in Hu as [_ ?]|]. unfold sumL in *. cbn in Hs. lia.
Qed.

Lemma lookup_u64 l i (x : Z) : Forall is_u64 l -> l !! i = Some x -> is_u64 x.
Proof. intros H E. by eapply Forall_lookup_1 in H. Qed.

Lemma buckets_ok_merge b1 b2 s o dc du ds :
  length b1 = 11%nat -> length b2 = 11%nat -> Forall is_u64 b1 -> Forall is_u64 b2 ->
  durations_range s -> durations_range o -> buckets_ok b1 s -> buckets_ok b2 o ->
  stats_consistent s -> stats_consistent o ->
  dc = D_Count s + D_Count o -> ds = D_Sum s + D_Sum o ->
  buckets_ok (zip_with Z.add b1 b2) (merge_extrema s o dc du ds).
Proof.
  intros L1 L2 U1 U2 [] [] [S1 E1] [S2 E2] C1 C2 -> ->.
  split; [destruct (merge_extrema_fields s o (D_Count s + D_Count o) du (D_Sum s + D_Sum o)) as (-> & _);
          rewrite sumL_zip by lia; lia|].
  unfold merge_extrema, is_u64 in *.
  rewrite !dot_zip by lia. destruct (Z.eqb_spec (D_Count s) 0) as [Z1|Z1]; cbn.
  - destruct C1 as [(_ & A1 & _)|[? _]]; [|lia]. rewrite Z1 in *. intros Hpos.
    destruct (all_zero b1 U1 S1) as [Hz Hd]. destruct E2 as [E2a E2b]; [lia|]. rewrite !Hd, A1. split; [lia|].
    intros i n (x & y & Hx & Hy & ->)%zip_lookup; [|lia]. rewrite Forall_lookup in Hz. rewrite (Hz _ _ Hx).
    apply (E2b _ _ Hy).
  - destruct E1 as [E1a E1b]; [lia|]. destruct (Z.eqb_spec (D_Count o) 0) as [Z2|Z2]; cbn; intros Hpos.
    + destruct C2 as [(_ & B1 & _)|[? _]]; [|lia]. rewrite Z2 in *.
      destruct (all_zero b2 U2 S2) as [Hz Hd]. rewrite !Hd, B1. split; [lia|].
      intros i n (x & y & Hx & Hy & ->)%zip_lookup; [|lia]. rewrite Forall_lookup in Hz. rewrite (Hz _ _ Hy).
      rewrite Z.add_0_r. apply (E1b _ _ Hx).
    + destruct E2 as [E2a E2b]; [lia|]. split; [lia|]. rewrite durationBucket_min, durationBucket_max.
      intros i n (x & y & Hx & Hy & ->)%zip_lookup; [|lia].
      destruct (E1b _ _ Hx) as [P1 P2]. destruct (E2b _ _ Hy) as [Q1 Q2].
      pose proof (lookup_u64 _ _ _ U1 Hx) as Ux. pose proof (lookup_u64 _ _ _ U2 Hy) as Uy. unfold is_u64 in *.
      split.
      * intros Hi. assert (x <> 0 \/ y <> 0) as [|]; [|lia..].
        destruct (Nat.min_spec (durationBucket (D_Min s)) (durationBucket (D_Min o))) as [[? Hm]|[? Hm]],
          (Nat.max_spec (durationBucket (D_Max s)) (durationBucket (D_Max o))) as [[? HM]|[? HM]];
          rewrite Hm, HM in Hi; destruct Hi; auto.
      * intros Hi. rewrite P2, Q2; [done| |]; destruct Hi; lia.
Qed.

Lemma Add_ok s o t n m :
  summary_range s -> summary_range o -> summary_ok s n -> summary_ok o m -> Add s o = Ok t ->
  summary_range t /\ summary_ok t (n + m).
Proof.
  intros [L1 B1 D1 C1 H1 X1 T1] [L2 B2 D2 C2 H2 X2 T2] [K1 K2 K3 K4 K5 K6] [J1 J2 J3 J4 J5 J6] H.
  destruct K1 as (Ka & Kb & Kc), J1 as (Ja & Jb & Jc).
  unfold Add in H. res_inv.
  match goal with H : add_buckets _ _ = Ok _ |- _ => apply add_buckets_spec in H as [-> Hb]; [|done..|lia] end.
  assert (D1' := D1). assert (D2' := D2). destruct D1', D2', C1, C2, H1, H2, T1, T2.
  repeat match goal with H : addCount _ _ = Ok _ |- _ => apply addCount_Ok in H as [-> ?]; [|done..] end.
  subst t. destruct (merge_stats_ok (Durations s) (Durations o) (D_Count (Durations s) + D_Count (Durations o))
    (D_Unobserved (Durations s) + D_Unobserved (Durations o)) (D_Sum (Durations s) + D_Sum (Durations o)))
    as (M1 & M2 & M3); try done.
  destruct (merge_extrema_fields (Durations s) (Durations o) (D_Count (Durations s) + D_Count (Durations o))
    (D_Unobserved (Durations s) + D_Unobserved (Durations o)) (D_Sum (Durations s) + D_Sum (Durations o)))
    as (F1 & F2 & F3).
  split; split; cbn; try done; try (by split); try lia.
  - rewrite length_zip_with. lia.
  - split; rewrite ?F1, ?F2, ?F3; done.
  - split; [rewrite F1, F2; lia|]. split; [cbn; lia|done].
  - by apply buckets_ok_merge.
  - intros Hobs0. unfold is_u64 in *. destruct K6 as (? & ? & ?); [lia|]. destruct J6 as (? & ? & ?); [lia|]. lia.
Qed.

(** *** Summaries the program can hold *)
Lemma zero_summary_ok : summary_range zero_summary /\ summary_ok zero_summary 0.
Proof.
  split; split; cbn; try done; try lia.
  - repeat (apply Forall_cons; split; [by split|]). constructor.
  - split; [done|]. split; [done|]. by left.
Qed.

(** Every summary obtained by observing records and adding summaries, with the number
    of observations it stands for. *)
Inductive summary_reachable : OperationalSummary -> Z -> Prop :=
| sum_zero : summary_reachable zero_summary 0
| sum_observe s n record facts s' :
    summary_reachable s n -> usage_range (F_Usage facts) ->
    OperationalSummary_observe s record facts = Ok s' -> summary_reachable s' (n + 1)
| sum_add s n o m t :
    summary_reachable s n -> summary_reachable o m -> Add s o = Ok t -> summary_reachable t (n + m).

Lemma summary_reachable_ok s n : summary_reachable s n -> summary_range s /\ summary_ok s n.
Proof.
  induction 1 as [|s n record facts s' _ [IH1 IH2] Hu H|s n o m t _ [IH1 IH2] _ [IH3 IH4] H].
  - apply zero_summary_ok.
  - by eapply OperationalSummary_observe_ok.
  - by apply (Add_ok s o t n m).
Qed.

Lemma operationalCounters_u64 s : summary_range s -> Forall is_u64 (operationalCounters s).
Proof.
  intros [? ? [] [] [] ? []]. unfold operationalCounters. apply Forall_app. split; [done|]. u64s.
Qed.

Lemma encode_decode_summary s : summary_range s -> sumL (Buckets s) = D_Count (Durations s) ->
  decodeOperationalCounts (encodeOperationalCounts s) = Ok s.
Proof.
  intros Hr Hsum. unfold decodeOperationalCounts, encodeOperationalCounts.
  assert (Hl : length (operationalCounters s) = 31%nat).
  { unfold operationalCounters. rewrite length_app, (rg_length _ Hr). done. }
  assert (Hd : decode_counts 31 (encode_counts (operationalCounters s)) = Ok (operationalCounters s)).
  { rewrite <- Hl. apply decode_encode; [|by apply operationalCounters_u64]. by destruct (operationalCounters s). }
  rewrite Hd. cbn [mbind res_bind].
  assert (Ht : firstn 11 (operationalCounters s) = Buckets s).
  { unfold operationalCounters. rewrite <- (rg_length _ Hr). apply take_app_length. }
  assert (Hn : forall i, nth (11 + i) (operationalCounters s) 0 = nth i (drop 11 (operationalCounters s)) 0).
  { intros i. generalize (operationalCounters s). intros l. clear. revert i. intros i.
    rewrite !nth_lookup, lookup_drop. done. }
  assert (Hdr : drop 11 (operationalCounters s) = drop 11 (operationalCounters s)) by done.
  unfold operationalCounters in Hdr at 2. rewrite <- (rg_length _ Hr) in Hdr at 2.
  rewrite drop_app_length in Hdr. rewrite Ht, !Hn, Hdr. cbn [nth].
  assert (Hs : sumNoOverflow (Buckets s) = Ok (D_Count (Durations s))).
  { apply sumNoOverflow_Ok; [apply Hr|]. split; [done|]. rewrite Hsum. apply Hr. }
  rewrite Hs. cbn. by destruct s as [b [] [] [] h []].
Qed.

(** * Properties *)

(** C36: operational evidence the program builds is evidence it accepts: every summary
    obtained from nothing by observing records (with uint64 token counts) and adding
    summaries, in any order, passes the validation a stored summary must pass for the
    number of observations it stands for, when a uint64 can hold that number; and it
    survives its column encoding unchanged. *)
Theorem summary_restores s n : summary_reachable s n -> n <= max_u64 ->
  validateOperationalSummary s n = Ok tt /\
  decodeOperationalCounts (encodeOperationalCounts s) = Ok s.
Proof.
  intros H Hn. destruct (summary_reachable_ok s n H) as [Hr Hok]. split.
  - apply validateOperational_iff; [done| |done].
    destruct Hok as [_ _ _ _ Ht _], Hr as [_ _ _ _ _ _ []]. unfold is_u64 in *. lia.
  - apply encode_decode_summary; [done|]. apply Hok.
Qed.

(** the validation of a stored summary decides its specification in exact arithmetic:
    on counters that are uint64s it succeeds if and only if every partition totals the
    observations, the sum of durations lies between the least and the greatest total
    the count and extrema allow and between those the buckets allow, the buckets of the
    two extrema are not empty and all others lie between them - whatever the sizes: no
    intermediate product or sum wraps. *)
Theorem validation_exact s n : summary_range s -> is_u64 n ->
  validateOperationalSummary s n = Ok tt <-> summary_ok s n.
Proof. apply validateOperational_iff. Qed.

Definition example_facts : OperationalFacts :=
  {| HTTPStatusCode := 429;
     F_Usage := {| Usage_Input := 10; HasInput := true; Usage_Output := 0; HasOutput := false;
                   Usage_Unsplit := 0; HasUnsplit := false |};
     F_Fidelity := "semantic"; F_Layer := "model" |}.

Definition example_summary : OperationalSummary :=
  match (s ← OperationalSummary_observe zero_summary (example_record "1500000" "ok") example_facts;
         OperationalSummary_observe s (example_record "" "") example_facts) with
  | Ok s => s
  | Err _ => zero_summary
  end.

Lemma example_summary_reachable : summary_reachable example_summary 2.
Proof.
  assert (Hu : usage_range (F_Usage example_facts)) by by repeat split.
  destruct (OperationalSummary_observe zero_summary (example_record "1500000" "ok") example_facts)
    as [s1|] eqn:E1; [|by vm_compute in E1].
  destruct (OperationalSummary_observe s1 (example_record "" "") example_facts) as [s2|] eqn:E2.
  - assert (example_summary = s2) as -> by (unfold example_summary; rewrite E1; cbn; by rewrite E2).
    apply (sum_observe s1 1 (example_record "" "") example_facts s2); [|done..].
    by apply (sum_observe zero_summary 0 (example_record "1500000" "ok") example_facts s1); [constructor|..].
  - vm_compute in E1. injection E1 as <-. by vm_compute in E2.
Qed.

Lemma summary_restores_witness :
  HTTP429 example_summary = 2 /\ validateOperationalSummary example_summary 2 = Ok tt.
Proof. split; [by vm_compute|]. apply (summary_restores example_summary 2); [apply example_summary_reachable|done]. Defined.

Lemma validation_exact_witness : summary_ok example_summary 2.
Proof.
  apply (validation_exact example_summary 2); [|by split|by vm_compute].
  apply (summary_reachable_ok _ 2), example_summary_reachable.
Defined.
