(* ===== verification/Fidelity.v ===== *)
(** * Package platform: behavior fidelity (behavior_fidelity.go)

    How each observation of a behavior was seen: fidelity and layer counters, their
    summary, validation and column encoding. *)
From Stdlib Require Import Ascii.
From S2P Require Import Prelude GoText GoTime GoFloat FloatBounds Event Fingerprint Baseline.
From S2P Require Import Anomaly Trust Policy Store Engine DecisionRecord Counters Operational.

Open Scope string_scope.
Open Scope Z_scope.

Record BehaviorFidelity : Type := {
  Semantic : Z; Transport : Z; Unrecorded : Z;
  LModel : Z; LTool : Z; LRetrieval : Z; LTransport : Z; LUnclassified : Z; LUnrecorded : Z;
}.
Definition zero_fidelity : BehaviorFidelity :=
  {| Semantic := 0; Transport := 0; Unrecorded := 0; LModel := 0; LTool := 0; LRetrieval := 0;
     LTransport := 0; LUnclassified := 0; LUnrecorded := 0 |}.

Definition FidelityLevel := string.
Definition FidelityLevelSemantic : FidelityLevel := "semantic".
Definition FidelityLevelTransport : FidelityLevel := "transport".
Definition FidelityLevelUnrecorded : FidelityLevel := "unrecorded".

(** The counters as the vector storage writes; the fidelity counters come first. *)
Definition fidelityCounters (b : BehaviorFidelity) : list Z :=
  [Semantic b; Transport b; Unrecorded b;
   LModel b; LTool b; LRetrieval b; LTransport b; LUnclassified b; LUnrecorded b].
Definition of_counters (v : list Z) : BehaviorFidelity :=
  {| Semantic := nth 0 v 0; Transport := nth 1 v 0; Unrecorded := nth 2 v 0;
     LModel := nth 3 v 0; LTool := nth 4 v 0; LRetrieval := nth 5 v 0; LTransport := nth 6 v 0;
     LUnclassified := nth 7 v 0; LUnrecorded := nth 8 v 0 |}.

(** Which fidelity counter and which layer counter an observation adds to. *)
Definition fidelity_slots (f : Fidelity) (l : Layer) : nat * nat :=
  if f =s FidelitySemantic then
    (0%nat, if l =s LayerModel then 3%nat else if l =s LayerTool then 4%nat
            else if l =s LayerRetrieval then 5%nat else 7%nat)
  else if (f =s FidelityTransport) && (l =s LayerTransport) then (1%nat, 6%nat)
  else (2%nat, 8%nat).

Definition BehaviorFidelity_observe (b : BehaviorFidelity) (f : Fidelity) (l : Layer)
    : res BehaviorFidelity :=
  let '(i, j) := fidelity_slots f l in
  let v := fidelityCounters b in
  x ← addCount (nth i v 0) 1;
  y ← addCount (nth j v 0) 1;
  Ok (of_counters (<[j := y]> (<[i := x]> v))).

Definition unrecordedFidelity (observations : Z) : BehaviorFidelity :=
  {| Semantic := 0; Transport := 0; Unrecorded := observations; LModel := 0; LTool := 0;
     LRetrieval := 0; LTransport := 0; LUnclassified := 0; LUnrecorded := observations |}.

Definition Reported (b : BehaviorFidelity) : FidelityLevel * bool :=
  let nonZero := Z.of_nat (length (List.filter (fun n => 0 <? n) [Semantic b; Transport b; Unrecorded b])) in
  let mixed := 1 <? nonZero in
  if 0 <? Transport b then (FidelityLevelTransport, mixed)
  else if 0 <? Semantic b then (FidelityLevelSemantic, mixed)
  else (FidelityLevelUnrecorded, mixed).

Fixpoint add_all (a b : list Z) : res (list Z) :=
  match a, b with
  | x :: a, y :: b => v ← addCount x y; l ← add_all a b; Ok (v :: l)
  | _, _ => Ok []
  end.

Definition BehaviorFidelity_Add (b o : BehaviorFidelity) : res BehaviorFidelity :=
  v ← add_all (fidelityCounters b) (fidelityCounters o); Ok (of_counters v).

Definition validateBehaviorFidelity (b : BehaviorFidelity) (observations : Z) : res unit :=
  fidelityTotal ← map_err (fun _ => []) (sumNoOverflow [Semantic b; Transport b; Unrecorded b]);
  fail_if (negb (fidelityTotal =? observations)) [];;
  semanticLayers ← map_err (fun _ => [])
    (sumNoOverflow [LModel b; LTool b; LRetrieval b; LUnclassified b]);
  fail_if (negb (semanticLayers =? Semantic b)) [];;
  fail_if (negb (LTransport b =? Transport b)) [];;
  fail_if (negb (LUnrecorded b =? Unrecorded b)) [].

Definition encodeFidelityCounts (b : BehaviorFidelity) : string := encode_counts (fidelityCounters b).
Definition decodeFidelityCounts (text : string) : res BehaviorFidelity :=
  v ← decode_counts 9 text; Ok (of_counters v).

(** ** Specification *)
Definition fidelity_range (b : BehaviorFidelity) : Prop := Forall is_u64 (fidelityCounters b).
Definition fidelity_ok (b : BehaviorFidelity) (n : Z) : Prop :=
  Semantic b + Transport b + Unrecorded b = n /\
  LModel b + LTool b + LRetrieval b + LUnclassified b = Semantic b /\
  LTransport b = Transport b /\ LUnrecorded b = Unrecorded b.

Lemma of_counters_fidelityCounters b : of_counters (fidelityCounters b) = b.
Proof. by destruct b. Qed.

Lemma fidelity_range_inv b : fidelity_range b ->
  is_u64 (Semantic b) /\ is_u64 (Transport b) /\ is_u64 (Unrecorded b) /\ is_u64 (LModel b) /\
  is_u64 (LTool b) /\ is_u64 (LRetrieval b) /\ is_u64 (LTransport b) /\ is_u64 (LUnclassified b) /\
  is_u64 (LUnrecorded b).
Proof. unfold fidelity_range, fidelityCounters. rewrite !Forall_cons. tauto. Qed.

Lemma validateBehaviorFidelity_iff b n : fidelity_range b -> is_u64 n ->
  validateBehaviorFidelity b n = Ok tt <-> fidelity_ok b n.
Proof.
  intros Hr%fidelity_range_inv Hn. destruct Hr as (R1 & R2 & R3 & R4 & R5 & R6 & R7 & R8 & R9).
  unfold validateBehaviorFidelity, fidelity_ok.
  rewrite checked_total_iff by u64s. rewrite checked_total_iff by u64s.
  rewrite !bind_unit_iff, !fail_if_iff, !negb_false_iff, !Z.eqb_eq. unfold sumL. cbn [foldr].
  unfold is_u64 in *. intuition lia.
Qed.

Lemma observe_fidelity_ok b f l b' n : fidelity_range b -> fidelity_ok b n ->
  BehaviorFidelity_observe b f l = Ok b' -> fidelity_range b' /\ fidelity_ok b' (n + 1).
Proof.
  intros Hr H E. pose proof (fidelity_range_inv b Hr) as (R1 & R2 & R3 & R4 & R5 & R6 & R7 & R8 & R9).
  destruct H as (H1 & H2 & H3 & H4). unfold BehaviorFidelity_observe, fidelity_slots in E.
  repeat match type of E with context [(?x =s ?y)%go] => destruct (String.eqb x y) end; cbn in E; res_inv; subst b';
    repeat match goal with H : addCount _ _ = Ok _ |- _ =>
      apply addCount_Ok in H as [-> ?]; [|assumption|by split] end;
    (split; [unfold fidelity_range, fidelityCounters; cbn; u64s|unfold fidelity_ok; cbn; lia]).
Qed.

Lemma add_all_spec a b l : Forall is_u64 a -> Forall is_u64 b -> length a = length b ->
  add_all a b = Ok l -> l = zip_with Z.add a b /\ Forall is_u64 l.
Proof. apply add_buckets_spec. Qed.

Lemma Add_fidelity_ok b o t n m : fidelity_range b -> fidelity_range o ->
  fidelity_ok b n -> fidelity_ok o m -> BehaviorFidelity_Add b o = Ok t ->
  fidelity_range t /\ fidelity_ok t (n + m).
Proof.
  intros R1 R2 (A1 & A2 & A3 & A4) (B1 & B2 & B3 & B4) H. unfold BehaviorFidelity_Add in H. res_inv. subst t.
  match goal with H : add_all _ _ = Ok _ |- _ => apply add_all_spec in H as [-> Hu]; [|done..] end.
  unfold fidelityCounters in *. cbn in Hu. split; [exact Hu|]. unfold fidelity_ok. cbn. lia.
Qed.

(** Every fidelity count obtained by observing and adding. *)
Inductive fidelity_reachable : BehaviorFidelity -> Z -> Prop :=
| fid_zero : fidelity_reachable zero_fidelity 0
| fid_observe b n f l b' :
    fidelity_reachable b n -> BehaviorFidelity_observe b f l = Ok b' -> fidelity_reachable b' (n + 1)
| fid_add b n o m t :
    fidelity_reachable b n -> fidelity_reachable o m -> BehaviorFidelity_Add b o = Ok t ->
    fidelity_reachable t (n + m).

Lemma fidelity_reachable_ok b n : fidelity_reachable b n -> fidelity_range b /\ fidelity_ok b n.
Proof.
  induction 1 as [|b n f l b' _ [I1 I2] H|b n o m t _ [I1 I2] _ [I3 I4] H].
  - split; [|done]. repeat (apply Forall_cons; split; [by split|]). constructor.
  - by apply (observe_fidelity_ok b f l).
  - by apply (Add_fidelity_ok b o).
Qed.

Lemma encode_decode_fidelity b : fidelity_range b -> decodeFidelityCounts (encodeFidelityCounts b) = Ok b.
Proof.
  intros Hr. unfold decodeFidelityCounts, encodeFidelityCounts.
  change 9%nat with (length (fidelityCounters b)). rewrite decode_encode by done. cbn [mbind res_bind].
  by rewrite of_counters_fidelityCounters.
Qed.

(** ** Properties *)

(** fidelity evidence partitions the observations and survives storage: counts
    obtained by observing any fidelity and layer and by adding always pass validation
    for the number of observations, read back unchanged from their column text, and
    report transport whenever any observation was of transport fidelity. *)
Theorem fidelity_restores b n : fidelity_reachable b n -> n <= max_u64 ->
  validateBehaviorFidelity b n = Ok tt /\
  decodeFidelityCounts (encodeFidelityCounts b) = Ok b /\
  (fst (Reported b) = FidelityLevelTransport <-> 0 < Transport b) /\
  (snd (Reported b) = false -> 0 < n -> Semantic b = n \/ Transport b = n \/ Unrecorded b = n).
Proof.
  intros H Hn. destruct (fidelity_reachable_ok b n H) as [Hr Hok].
  pose proof (fidelity_range_inv b Hr) as (R1 & R2 & R3 & _). unfold is_u64 in *.
  split; [|split; [|split]].
  - apply validateBehaviorFidelity_iff; [done| |done]. destruct Hok as (? & _). unfold is_u64. lia.
  - by apply encode_decode_fidelity.
  - unfold Reported. destruct (Z.ltb_spec 0 (Transport b)), (Z.ltb_spec 0 (Semantic b)); cbn; intuition (discriminate || lia).
  - destruct Hok as (Ht & _). unfold Reported. cbn.
    destruct (Z.ltb_spec 0 (Transport b)), (Z.ltb_spec 0 (Semantic b)), (Z.ltb_spec 0 (Unrecorded b)); cbn;
      intros ?; try discriminate; lia.
Qed.

Lemma fidelity_restores_witness :
  exists b, BehaviorFidelity_observe zero_fidelity "transport" "transport" = Ok b /\
    validateBehaviorFidelity b 1 = Ok tt.
Proof.
  eexists. split; [reflexivity|]. apply (fidelity_restores _ 1); [|done].
  apply (fid_observe zero_fidelity 0 "transport" "transport"); [constructor|reflexivity].
Defined.
