(* ===== verification/Aggregate.v ===== *)
(** * Package platform: the evaluation aggregate (aggregate.go)

    Folding decision records into bounded counters and running metrics, and the
    validation a stored aggregate must pass (sqlite.go, validateRestoredAggregate). *)
From Stdlib Require Import Ascii.
From S2P Require Import Prelude GoText GoTime GoFloat FloatBounds Event Fingerprint Baseline.
From S2P Require Import Anomaly Trust Policy Store Engine DecisionRecord Domain Counters.
From S2P Require Import Operational.

Open Scope string_scope.
Open Scope Z_scope.

Record DecisionCounts : Type := {
  Allow : Z; ObserveOnly : Z; Alert : Z; Challenge : Z; RequireApproval : Z; Block : Z }.
Record RiskCounts : Type := { Low : Z; Medium : Z; High : Z; Critical : Z }.
Record ApprovalCounts : Type := {
  Unspecified : Z; NotRequired : Z; Required : Z; Approved : Z; Denied : Z }.
Record PolicySelection : Type := { MatchedRule : Z; PS_MatchedDefault : Z }.

Definition decision_parts (c : DecisionCounts) : list Z :=
  [Allow c; ObserveOnly c; Alert c; Challenge c; RequireApproval c; Block c].
Definition risk_parts (c : RiskCounts) : list Z := [Low c; Medium c; High c; Critical c].
Definition approval_parts (c : ApprovalCounts) : list Z :=
  [Unspecified c; NotRequired c; Required c; Approved c; Denied c].
Definition policy_parts (s : PolicySelection) : list Z := [MatchedRule s; PS_MatchedDefault s].

(** [Total], a chain of uint64 additions. *)
Definition total_u64 (parts : list Z) : Z := foldl (fun acc n => u64 (acc + n)) 0 parts.
Definition DecisionCounts_Total (c : DecisionCounts) : Z := total_u64 (decision_parts c).
Definition RiskCounts_Total (c : RiskCounts) : Z := total_u64 (risk_parts c).
Definition ApprovalCounts_Total (c : ApprovalCounts) : Z := total_u64 (approval_parts c).
Definition PolicySelection_Total (s : PolicySelection) : Z := total_u64 (policy_parts s).

Definition incr (n : Z) : Z := u64 (n + 1).

Definition DecisionCounts_count (c : DecisionCounts) (decision : string) : res DecisionCounts :=
  if decision =s "allow" then
    Ok {| Allow := incr (Allow c); ObserveOnly := ObserveOnly c; Alert := Alert c;
          Challenge := Challenge c; RequireApproval := RequireApproval c; Block := Block c |}
  else if decision =s "observe_only" then
    Ok {| Allow := Allow c; ObserveOnly := incr (ObserveOnly c); Alert := Alert c;
          Challenge := Challenge c; RequireApproval := RequireApproval c; Block := Block c |}
  else if decision =s "alert" then
    Ok {| Allow := Allow c; ObserveOnly := ObserveOnly c; Alert := incr (Alert c);
          Challenge := Challenge c; RequireApproval := RequireApproval c; Block := Block c |}
  else if decision =s "challenge" then
    Ok {| Allow := Allow c; ObserveOnly := ObserveOnly c; Alert := Alert c;
          Challenge := incr (Challenge c); RequireApproval := RequireApproval c; Block := Block c |}
  else if decision =s "require_approval" then
    Ok {| Allow := Allow c; ObserveOnly := ObserveOnly c; Alert := Alert c;
          Challenge := Challenge c; RequireApproval := incr (RequireApproval c); Block := Block c |}
  else if decision =s "block" then
    Ok {| Allow := Allow c; ObserveOnly := ObserveOnly c; Alert := Alert c;
          Challenge := Challenge c; RequireApproval := RequireApproval c; Block := incr (Block c) |}
  else Err [ErrInvalidDecisionRecord].

Definition RiskCounts_count (c : RiskCounts) (risk : string) : res RiskCounts :=
  if risk =s "low" then
    Ok {| Low := incr (Low c); Medium := Medium c; High := High c; Critical := Critical c |}
  else if risk =s "medium" then
    Ok {| Low := Low c; Medium := incr (Medium c); High := High c; Critical := Critical c |}
  else if risk =s "high" then
    Ok {| Low := Low c; Medium := Medium c; High := incr (High c); Critical := Critical c |}
  else if risk =s "critical" then
    Ok {| Low := Low c; Medium := Medium c; High := High c; Critical := incr (Critical c) |}
  else Err [ErrInvalidDecisionRecord].

Definition ApprovalCounts_count (c : ApprovalCounts) (st : ApprovalStatus) : res ApprovalCounts :=
  if st =s ApprovalUnspecified then
    Ok {| Unspecified := incr (Unspecified c); NotRequired := NotRequired c; Required := Required c;
          Approved := Approved c; Denied := Denied c |}
  else if st =s ApprovalNotRequired then
    Ok {| Unspecified := Unspecified c; NotRequired := incr (NotRequired c); Required := Required c;
          Approved := Approved c; Denied := Denied c |}
  else if st =s ApprovalRequired then
    Ok {| Unspecified := Unspecified c; NotRequired := NotRequired c; Required := incr (Required c);
          Approved := Approved c; Denied := Denied c |}
  else if st =s ApprovalApproved then
    Ok {| Unspecified := Unspecified c; NotRequired := NotRequired c; Required := Required c;
          Approved := incr (Approved c); Denied := Denied c |}
  else if st =s ApprovalDenied then
    Ok {| Unspecified := Unspecified c; NotRequired := NotRequired c; Required := Required c;
          Approved := Approved c; Denied := incr (Denied c) |}
  else Err [ErrInvalidDecisionRecord].

(** ** MetricSummary *)
Record MetricSummary : Type := { M_Count : Z; M_Sum : float; M_Min : float; M_Max : float }.
Definition zero_metric : MetricSummary :=
  {| M_Count := 0; M_Sum := 0; M_Min := 0; M_Max := 0 |}%float.

Definition MetricSummary_Mean (s : MetricSummary) : float * bool :=
  if M_Count s =? 0 then (0%float, false) else ((M_Sum s / of_Z (M_Count s))%float, true).

Definition MetricSummary_observe (s : MetricSummary) (v : float) : MetricSummary :=
  if M_Count s =? 0 then {| M_Count := 1; M_Sum := v; M_Min := v; M_Max := v |}
  else {| M_Count := incr (M_Count s); M_Sum := (M_Sum s + v)%float;
          M_Min := math_min (M_Min s) v; M_Max := math_max (M_Max s) v |}.

(** ** EvaluationAggregate *)
Record EvaluationAggregate : Type := {
  bound : bool;
  agg_runID : EvaluationRunID;
  agg_candidateID : CandidateID;
  agg_environment : EnvironmentRef;
  agg_profile : BehavioralProfileRef;
  recordCount : Z;
  firstObservedAt : time;
  lastObservedAt : time;
  decisions : DecisionCounts;
  risks : RiskCounts;
  approvals : ApprovalCounts;
  agg_policy : PolicySelection;
  durations : DurationSummary;
  statuses : SpanStatusCounts;
  identityConfidence : MetricSummary;
  anomalyScore : MetricSummary;
  anomalyConfidence : MetricSummary;
  trustScore : MetricSummary;
  agg_contextRisk : MetricSummary;
}.

Definition validateRunBinding (run : EvaluationRun) : res unit :=
  validateID (run_id run);; validateID (run_candidateID run);;
  validateID (run_environment run);; validateID (run_profile run);;
  fail_if (time_is_zero (createdAt run)) [ErrInvalidTimestamp];;
  fail_if (negb (RunStatus_valid (status run))) [ErrInvalidTransition].

Definition NewEvaluationAggregate (run : EvaluationRun) : res EvaluationAggregate :=
  validateRunBinding run;;
  Ok {| bound := true; agg_runID := run_id run; agg_candidateID := run_candidateID run;
        agg_environment := run_environment run; agg_profile := run_profile run;
        recordCount := 0; firstObservedAt := zero_time; lastObservedAt := zero_time;
        decisions := Build_DecisionCounts 0 0 0 0 0 0; risks := Build_RiskCounts 0 0 0 0;
        approvals := Build_ApprovalCounts 0 0 0 0 0; agg_policy := Build_PolicySelection 0 0;
        durations := zero_durations; statuses := zero_statuses;
        identityConfidence := zero_metric; anomalyScore := zero_metric;
        anomalyConfidence := zero_metric; trustScore := zero_metric; agg_contextRisk := zero_metric |}.

Definition validateUnitInterval (v : float) : res unit :=
  fail_if (is_nan v) [ErrInvalidDecisionRecord];;
  fail_if (is_inf v) [ErrInvalidDecisionRecord];;
  fail_if ((v <? 0)%float || (1 <? v)%float) [ErrInvalidDecisionRecord].

Definition AddRecord (a : EvaluationAggregate) (record : DecisionRecord) : res EvaluationAggregate :=
  fail_if (negb (bound a)) [ErrUnboundAggregate];;
  fail_if (recordCount a =? max_u64) [ErrAggregateOverflow];;
  fail_if (DR_EventID record =s "") [ErrInvalidDecisionRecord];;
  fail_if (time_is_zero (DR_Timestamp record)) [ErrInvalidDecisionRecord];;
  fail_if (DR_Environment record <>s agg_environment a) [ErrEnvironmentMismatch];;
  fail_if (SF_Environment (DR_Behavior record) <>s DR_Environment record) [ErrInvalidDecisionRecord];;
  decisions ← DecisionCounts_count (decisions a) (DR_Decision record);
  risks ← RiskCounts_count (risks a) (DR_RiskLevel record);
  approvals ← ApprovalCounts_count (approvals a) (DR_ApprovalStatus record);
  fail_if (DR_MatchedDefault record && (DR_PolicyRule record <>s "")) [ErrInvalidDecisionRecord];;
  fail_if (negb (DR_MatchedDefault record) && (DR_PolicyRule record =s "")) [ErrInvalidDecisionRecord];;
  foldM (fun _ v => validateUnitInterval v) tt
    [DR_IdentityConfidence record; DR_AnomalyScore record; DR_AnomalyConfidence record;
     DR_TrustScore record; DR_ContextRisk record];;
  '(durations, statuses) ← observeOperational (durations a) (statuses a) record;
  let ts := DR_Timestamp record in
  Ok {| bound := bound a; agg_runID := agg_runID a; agg_candidateID := agg_candidateID a;
        agg_environment := agg_environment a; agg_profile := agg_profile a;
        recordCount := incr (recordCount a);
        firstObservedAt := if time_is_zero (firstObservedAt a) || time_before ts (firstObservedAt a)
                           then ts else firstObservedAt a;
        lastObservedAt := if time_after ts (lastObservedAt a) then ts else lastObservedAt a;
        decisions := decisions; risks := risks; approvals := approvals;
        agg_policy :=
          if DR_MatchedDefault record
          then {| MatchedRule := MatchedRule (agg_policy a);
                  PS_MatchedDefault := incr (PS_MatchedDefault (agg_policy a)) |}
          else {| MatchedRule := incr (MatchedRule (agg_policy a));
                  PS_MatchedDefault := PS_MatchedDefault (agg_policy a) |};
        durations := durations; statuses := statuses;
        identityConfidence := MetricSummary_observe (identityConfidence a) (DR_IdentityConfidence record);
        anomalyScore := MetricSummary_observe (anomalyScore a) (DR_AnomalyScore record);
        anomalyConfidence := MetricSummary_observe (anomalyConfidence a) (DR_AnomalyConfidence record);
        trustScore := MetricSummary_observe (trustScore a) (DR_TrustScore record);
        agg_contextRisk := MetricSummary_observe (agg_contextRisk a) (DR_ContextRisk record) |}.

(** ** The validation of a stored aggregate (sqlite.go) *)
Definition validateRestoredMetric (m : MetricSummary) (records : Z) : res unit :=
  fail_if (negb (M_Count m =? records)) [];;
  foldM (fun _ v => fail_if (is_nan v || is_inf v) []) tt [M_Sum m; M_Min m; M_Max m];;
  if M_Count m =? 0 then
    fail_if (negb (M_Sum m =? 0)%float || negb (M_Min m =? 0)%float || negb (M_Max m =? 0)%float) []
  else
    fail_if ((M_Min m <? 0)%float || (1 <? M_Min m)%float || (M_Max m <? 0)%float || (1 <? M_Max m)%float) [];;
    fail_if (M_Max m <? M_Min m)%float [];;
    fail_if (M_Sum m <? 0)%float [].

Definition check_parts (parts : list Z) (records : Z) : res unit :=
  total ← map_err (fun _ => []) (sumNoOverflow parts);
  fail_if (negb (total =? records)) [];; Ok tt.

Definition agg_metrics (a : EvaluationAggregate) : list MetricSummary :=
  [identityConfidence a; anomalyScore a; anomalyConfidence a; trustScore a; agg_contextRisk a].

Definition validateRestoredAggregate (a : EvaluationAggregate) : res unit :=
  foldM (fun _ v => validateID v) tt [agg_runID a; agg_candidateID a; agg_environment a; agg_profile a];;
  foldM (fun _ parts => check_parts parts (recordCount a)) tt
    [decision_parts (decisions a); risk_parts (risks a); approval_parts (approvals a);
     policy_parts (agg_policy a)];;
  foldM (fun _ m => validateRestoredMetric m (recordCount a)) tt (agg_metrics a);;
  validateRestoredOperational (durations a) (statuses a) (recordCount a);;
  if recordCount a =? 0 then
    fail_if (negb (time_is_zero (firstObservedAt a)) || negb (time_is_zero (lastObservedAt a))) []
  else
    fail_if (time_is_zero (firstObservedAt a) || time_is_zero (lastObservedAt a)) [];;
    fail_if (time_before (lastObservedAt a) (firstObservedAt a)) [].

(** ** Lemmas *)
Definition parts_ok (parts : list Z) (n : Z) : Prop := Forall is_u64 parts /\ sumL parts = n.

Lemma parts_incr parts n i : parts_ok parts n -> n < max_u64 -> (i < length parts)%nat ->
  parts_ok (<[i := incr (nth i parts 0)]> parts) (n + 1).
Proof.
  intros [Hu Hs] Hn Hi. pose proof (nth_u64 parts i Hu) as Hx.
  assert (Hle : nth i parts 0 <= sumL parts).
  { clear -Hu Hi. revert i Hi. unfold sumL. induction Hu as [|x l Hx Hl IH]; intros [|i] Hi; cbn in *; try lia.
    - pose proof (sumL_nonneg l Hl). unfold sumL in *. lia.
    - specialize (IH i ltac:(lia)). ulia. }
  assert (E : incr (nth i parts 0) = nth i parts 0 + 1) by (apply u64_small; ulia).
  split; [apply Forall_insert; [done|rewrite E; ulia]|]. rewrite sumL_insert by done. lia.
Qed.

Lemma DecisionCounts_count_ok c d c' n : parts_ok (decision_parts c) n -> n < max_u64 ->
  DecisionCounts_count c d = Ok c' -> parts_ok (decision_parts c') (n + 1).
Proof.
  intros Hp Hn H. unfold DecisionCounts_count in H.
  repeat match type of H with context [(?x =s ?y)%go] => destruct (x =s y)%go end; try done; injection H as <-.
  - exact (parts_incr _ _ 0 Hp Hn ltac:(cbn; lia)).
  - exact (parts_incr _ _ 1 Hp Hn ltac:(cbn; lia)).
  - exact (parts_incr _ _ 2 Hp Hn ltac:(cbn; lia)).
  - exact (parts_incr _ _ 3 Hp Hn ltac:(cbn; lia)).
  - exact (parts_incr _ _ 4 Hp Hn ltac:(cbn; lia)).
  - exact (parts_incr _ _ 5 Hp Hn ltac:(cbn; lia)).
Qed.

Lemma RiskCounts_count_ok c r c' n : parts_ok (risk_parts c) n -> n < max_u64 ->
  RiskCounts_count c r = Ok c' -> parts_ok (risk_parts c') (n + 1).
Proof.
  intros Hp Hn H. unfold RiskCounts_count in H.
  repeat match type of H with context [(?x =s ?y)%go] => destruct (x =s y)%go end; try done; injection H as <-.
  - exact (parts_incr _ _ 0 Hp Hn ltac:(cbn; lia)).
  - exact (parts_incr _ _ 1 Hp Hn ltac:(cbn; lia)).
  - exact (parts_incr _ _ 2 Hp Hn ltac:(cbn; lia)).
  - exact (parts_incr _ _ 3 Hp Hn ltac:(cbn; lia)).
Qed.

Lemma ApprovalCounts_count_ok c r c' n : parts_ok (approval_parts c) n -> n < max_u64 ->
  ApprovalCounts_count c r = Ok c' -> parts_ok (approval_parts c') (n + 1).
Proof.
  intros Hp Hn H. unfold ApprovalCounts_count in H.
  repeat match type of H with context [(?x =s ?y)%go] => destruct (x =s y)%go end; try done; injection H as <-.
  - exact (parts_incr _ _ 0 Hp Hn ltac:(cbn; lia)).
  - exact (parts_incr _ _ 1 Hp Hn ltac:(cbn; lia)).
  - exact (parts_incr _ _ 2 Hp Hn ltac:(cbn; lia)).
  - exact (parts_incr _ _ 3 Hp Hn ltac:(cbn; lia)).
  - exact (parts_incr _ _ 4 Hp Hn ltac:(cbn; lia)).
Qed.

(** The chain of uint64 additions is exact on parts that total a uint64. *)
Lemma total_u64_exact parts n : parts_ok parts n -> n <= max_u64 -> total_u64 parts = n.
Proof.
  intros [Hu Hs] Hn. unfold total_u64.
  assert (H : forall acc, is_u64 acc -> acc + sumL parts <= max_u64 ->
            foldl (fun acc n => u64 (acc + n)) acc parts = acc + sumL parts).
  { clear Hs. unfold sumL. induction Hu as [|x l Hx Hl IH]; intros acc Ha Hle; cbn in *; [lia|].
    pose proof (sumL_nonneg l Hl). unfold sumL in *.
    rewrite u64_small by ulia. rewrite IH by ulia. lia. }
  rewrite H by ulia. lia.
Qed.

Record metric_ok (m : MetricSummary) (n : Z) : Prop := {
  mo_count : M_Count m = n;
  mo_empty : n = 0 -> m = zero_metric;
  mo_extrema : 0 < n -> in01 (M_Min m) /\ in01 (M_Max m) /\ V (M_Min m) <= V (M_Max m);
  mo_sum : fin (M_Sum m) /\ 0 <= V (M_Sum m) <= n * scale;
}.

Lemma metric_observe_ok m n v : metric_ok m n -> in01 v -> 0 <= n -> n + 1 < 2 ^ 53 ->
  metric_ok (MetricSummary_observe m v) (n + 1).
Proof.
  intros [Hc He Hx [Hf Hs]] Hv Hn Hlt. pose proof Hv as (Hvf & Hv0 & Hv1)%in01_spec.
  unfold MetricSummary_observe. rewrite Hc. destruct (Z.eqb_spec n 0) as [->|Hne].
  - split; cbn; try lia; try done.
  - destruct Hx as (H1 & H2 & H3); [lia|].
    pose proof H1 as (F1 & A1 & B1)%in01_spec. pose proof H2 as (F2 & A2 & B2)%in01_spec.
    destruct (math_min_V (M_Min m) v F1 Hvf) as [G1 E1]. destruct (math_max_V (M_Max m) v F2 Hvf) as [G2 E2].
    split; cbn.
    + apply u64_small. unfold is_u64, max_u64. lia.
    + lia.
    + intros _. rewrite !in01_spec, E1, E2. split; [split; [done|lia]|]. split; [split; [done|lia]|lia].
    + by apply sum_step.
Qed.

Lemma validateUnitInterval_Ok v : validateUnitInterval v = Ok tt <-> in01 v.
Proof.
  unfold validateUnitInterval. rewrite !bind_unit_iff, !fail_if_iff, orb_false_iff. split.
  - intros (Hn & _ & H0 & H1). unfold in01. by rewrite !ltb_false_leb.
  - intros H. pose proof H as (Hf & H0 & H1)%in01_spec. split; [by apply in01_not_nan|].
    rewrite !ltb_V by auto with go. rewrite V_zero, V_one. split; [|split; apply Z.ltb_ge; lia].
    by apply fin_is_inf.
Qed.

Lemma metric_ok_restores m n : metric_ok m n -> 0 <= n -> validateRestoredMetric m n = Ok tt.
Proof.
  intros [Hc He Hx [Hf Hs]] Hn. unfold validateRestoredMetric. rewrite Hc, Z.eqb_refl. cbn [negb fail_if mbind res_bind].
  assert (Hfin : forall v, fin v -> is_nan v || is_inf v = false).
  { intros v Hv. by rewrite (fin_not_nan v Hv), (fin_is_inf v Hv). }
  destruct (Z.eqb_spec n 0) as [->|Hne]; [by rewrite He|].
  destruct Hx as (H1 & H2 & H3); [lia|].
  pose proof H1 as (F1 & A1 & B1)%in01_spec. pose proof H2 as (F2 & A2 & B2)%in01_spec.
  unfold foldM. rewrite !Hfin by done. cbn [fail_if mbind res_bind].
  rewrite !ltb_V by auto with go. rewrite V_zero, V_one.
  repeat match goal with |- context [?x <? ?y] => destruct (Z.ltb_spec x y); [lia|] end. done.
Qed.

Lemma mean_in01 m n : metric_ok m n -> 0 < n < 2 ^ 53 ->
  snd (MetricSummary_Mean m) = true /\ in01 (fst (MetricSummary_Mean m)).
Proof.
  intros [Hc _ _ [Hf Hs]] Hn. unfold MetricSummary_Mean. rewrite Hc.
  destruct (Z.eqb_spec n 0); [lia|]. split; [done|]. cbn.
  destruct (of_Z_exact n) as [Hfn Hvn]; [lia|]. pose proof scale_pos.
  apply div_in01; try done; rewrite ?Hvn; nia.
Qed.

(** ** The invariant *)
Record agg_ok (a : EvaluationAggregate) : Prop := {
  ao_bound : bound a = true;
  ao_ids : Forall (fun v => validateID v = Ok tt)
             [agg_runID a; agg_candidateID a; agg_environment a; agg_profile a];
  ao_count : is_u64 (recordCount a);
  ao_parts : Forall (fun parts => parts_ok parts (recordCount a))
    [decision_parts (decisions a); risk_parts (risks a); approval_parts (approvals a);
     policy_parts (agg_policy a)];
  ao_dr : durations_range (durations a);
  ao_sr : statuses_range (statuses a);
  ao_operational : durations_ok (durations a) (statuses a) (recordCount a);
  ao_metrics : Forall (fun m => metric_ok m (recordCount a)) (agg_metrics a);
  ao_times_empty : recordCount a = 0 -> firstObservedAt a = zero_time /\ lastObservedAt a = zero_time;
  ao_times : 0 < recordCount a -> 0 < instant (firstObservedAt a) <= instant (lastObservedAt a);
}.

Lemma NewEvaluationAggregate_ok run a : NewEvaluationAggregate run = Ok a -> agg_ok a /\ recordCount a = 0.
Proof.
  intros H. unfold NewEvaluationAggregate, validateRunBinding in H. res_inv. subst a. split; [|done].
  split; cbn; try done; try lia.
  - by repeat constructor.
  - repeat (apply Forall_cons; split; [split; [by repeat constructor|done]|]). constructor.
  - split; [done|]. split; [done|]. by left.
  - assert (Hz : metric_ok zero_metric 0) by (split; cbn; try done; lia). by repeat constructor.
Qed.

Lemma policy_parts_ok s n (b : bool) : parts_ok (policy_parts s) n -> n < max_u64 ->
  parts_ok (policy_parts
    (if b then {| MatchedRule := MatchedRule s; PS_MatchedDefault := incr (PS_MatchedDefault s) |}
     else {| MatchedRule := incr (MatchedRule s); PS_MatchedDefault := PS_MatchedDefault s |})) (n + 1).
Proof.
  intros Hp Hn. destruct b; [exact (parts_incr _ _ 1 Hp Hn ltac:(cbn; lia))|exact (parts_incr _ _ 0 Hp Hn ltac:(cbn; lia))].
Qed.

Lemma foldM_Forall {A} (f : A -> res unit) l : foldM (fun _ x => f x) tt l = Ok tt <-> Forall (fun x => f x = Ok tt) l.
Proof.
  induction l as [|x l IH]; [by split|]. cbn [foldM]. rewrite Forall_cons, <- IH.
  destruct (f x) as [[]|]; cbn; naive_solver.
Qed.

(** [AddRecord] keeps the invariant, and counts the record once. *)
Lemma AddRecord_ok a record a' : agg_ok a -> 0 < instant (DR_Timestamp record) ->
  recordCount a + 1 < 2 ^ 53 -> AddRecord a record = Ok a' ->
  agg_ok a' /\ recordCount a' = recordCount a + 1.
Proof.
  intros [Hb Hids Hc Hp Hdr Hsr Hop Hm Hte Ht] Hts Hlt H. unfold AddRecord in H. res_inv.
  assert (Hinc : incr (recordCount a) = recordCount a + 1) by (apply u64_small; ulia).
  assert (Hn : recordCount a < max_u64) by ulia.
  match goal with H : context [validateUnitInterval] |- _ => apply foldM_Forall in H as Hv end.
  rewrite !Forall_cons in Hv. destruct Hv as (V1 & V2 & V3 & V4 & V5 & _).
  apply validateUnitInterval_Ok in V1, V2, V3, V4, V5.
  destruct_or?; repeat match goal with p : prod _ _ |- _ => destruct p as [d' c'] end. injection H as <-.
  match goal with H : observeOperational _ _ _ = Ok _ |- _ =>
    destruct (durations_ok_observe _ _ _ _ _ _ Hdr Hsr Hop H) as (D1 & D2 & D3) end.
  unfold agg_metrics in Hm. rewrite !Forall_cons in Hp. rewrite !Forall_cons in Hm. destruct Hp as (P1 & P2 & P3 & P4 & _), Hm as (M1 & M2 & M3 & M4 & M5 & _).
  split; [|done]. rewrite <- Hinc in D3. split; cbn [bound agg_runID agg_candidateID agg_environment agg_profile
    recordCount firstObservedAt lastObservedAt decisions risks approvals agg_policy durations statuses agg_metrics
    identityConfidence anomalyScore anomalyConfidence trustScore agg_contextRisk]; try done; rewrite ?Hinc in *.
  - ulia.
  - repeat apply Forall_cons_2; eauto using Forall_nil_2, DecisionCounts_count_ok, RiskCounts_count_ok,
      ApprovalCounts_count_ok, policy_parts_ok.
  - repeat apply Forall_cons_2; try apply Forall_nil_2; apply metric_observe_ok; try done;
      unfold is_u64 in *; lia.
  - unfold is_u64 in *; lia.
  - intros _. unfold time_is_zero, time_before, time_after.
    destruct (Z.eq_dec (recordCount a) 0) as [E|E].
    + destruct (Hte E) as [-> ->]. change (instant zero_time) with 0. cbn.
      destruct (Z.ltb_spec 0 (instant (DR_Timestamp record))); lia.
    + destruct Ht as [T1 T2]; [unfold is_u64 in *; lia|].
      destruct (Z.eqb_spec (instant (firstObservedAt a)) 0), (Z.ltb_spec (instant (DR_Timestamp record)) (instant (firstObservedAt a))),
        (Z.ltb_spec (instant (lastObservedAt a)) (instant (DR_Timestamp record))); cbn; lia.
Qed.

(** The invariant is all that the restored-aggregate validation asks for. *)
Lemma agg_ok_restores a : agg_ok a -> validateRestoredAggregate a = Ok tt.
Proof.
  intros [Hb Hids Hc Hp Hdr Hsr Hop Hm Hte Ht]. unfold validateRestoredAggregate.
  rewrite !bind_unit_iff, !foldM_Forall. split; [done|]. split; [|split; [|split]].
  - eapply Forall_impl; [exact Hp|]. intros parts [Hu Hs]. unfold check_parts.
    rewrite checked_total_iff by done. split; [|done]. split; [done|ulia].
  - eapply Forall_impl; [exact Hm|]. intros m Hok. apply metric_ok_restores; [done|unfold is_u64 in Hc; lia].
  - by apply validateRestored_iff.
  - unfold time_is_zero, time_before. destruct (Z.eqb_spec (recordCount a) 0) as [E|E].
    + by destruct (Hte E) as [-> ->].
    + destruct Ht as [T1 T2]; [unfold is_u64 in Hc; lia|]. rewrite bind_unit_iff, !fail_if_iff, orb_false_iff.
      rewrite !Z.eqb_neq, Z.ltb_ge. lia.
Qed.

Lemma agg_ok_totals a : agg_ok a ->
  DecisionCounts_Total (decisions a) = recordCount a /\ RiskCounts_Total (risks a) = recordCount a /\
  ApprovalCounts_Total (approvals a) = recordCount a /\ PolicySelection_Total (agg_policy a) = recordCount a.
Proof.
  intros H. pose proof (ao_parts a H) as Hp. pose proof (ao_count a H) as Hc. rewrite !Forall_cons in Hp.
  destruct Hp as (P1 & P2 & P3 & P4 & _).
  repeat split; (apply total_u64_exact; [done|unfold is_u64 in Hc; lia]).
Qed.

Lemma AddRecord_count a record a' : AddRecord a record = Ok a' ->
  recordCount a' = incr (recordCount a) /\ recordCount a <> max_u64 /\
  lastObservedAt a' = if time_after (DR_Timestamp record) (lastObservedAt a)
                      then DR_Timestamp record else lastObservedAt a.
Proof.
  intros H. unfold AddRecord in H. res_inv.
  repeat match goal with p : prod _ _ |- _ => destruct p end. injection H as <-. bool_prop. done.
Qed.

Lemma folded_ok records : forall a a', agg_ok a ->
  Forall (fun r => 0 < instant (DR_Timestamp r)) records ->
  recordCount a + Z.of_nat (length records) < 2 ^ 53 -> foldM AddRecord a records = Ok a' ->
  agg_ok a' /\ recordCount a' = recordCount a + Z.of_nat (length records).
Proof.
  induction records as [|r records IH]; intros a a' Ha Ht Hn H; cbn [foldM length] in *.
  - injection H as <-. split; [done|lia].
  - inversion_clear Ht as [|?? H1 H2]. res_inv.
    destruct (AddRecord_ok a r _ Ha H1 ltac:(lia) Hok) as [Ha' Hc].
    destruct (IH _ a' Ha' H2 ltac:(lia) H) as [? ?]. split; [done|lia].
Qed.

(** ** Properties *)

(** an aggregate built from a run by folding decision records (fewer than 2^53, all
    dated after the zero time) counts every record in exactly one decision, one risk, one
    approval and one policy bucket, reports every metric mean inside the unit interval
    whatever the floating-point rounding, and passes the validation applied to an
    aggregate read back from storage. *)
Theorem aggregate_restores run a0 records a :
  NewEvaluationAggregate run = Ok a0 ->
  Forall (fun r => 0 < instant (DR_Timestamp r)) records ->
  Z.of_nat (length records) < 2 ^ 53 ->
  foldM AddRecord a0 records = Ok a ->
  let n := Z.of_nat (length records) in
  recordCount a = n /\ DecisionCounts_Total (decisions a) = n /\ RiskCounts_Total (risks a) = n /\
  ApprovalCounts_Total (approvals a) = n /\ PolicySelection_Total (agg_policy a) = n /\
  (0 < n -> Forall (fun m => snd (MetricSummary_Mean m) = true /\ in01 (fst (MetricSummary_Mean m))) (agg_metrics a)) /\
  validateRestoredAggregate a = Ok tt.
Proof.
  intros H0 Ht Hlt H n. destruct (NewEvaluationAggregate_ok _ _ H0) as [Ha0 Hc0].
  destruct (folded_ok records a0 a Ha0 Ht ltac:(lia) H) as [Ha Hc]. rewrite Hc0 in Hc. cbn in Hc. fold n in Hc.
  destruct (agg_ok_totals a Ha) as (T1 & T2 & T3 & T4). rewrite T1, T2, T3, T4.
  repeat (split; [done|]). split; [|by apply agg_ok_restores].
  intros Hn. eapply Forall_impl; [exact (ao_metrics a Ha)|]. intros m Hm. rewrite Hc in Hm.
  apply (mean_in01 m n Hm). subst n. lia.
Qed.

Definition example_run : EvaluationRun :=
  {| run_id := "r"; run_candidateID := "c"; run_environment := "prod"; run_profile := "p";
     status := RunRunning; createdAt := day 1; startedAt := day 2; finishedAt := zero_time;
     failureReason := "" |}.
Definition example_records : list DecisionRecord := [example_record "1500" "ok"; example_record "" "error"].

Lemma aggregate_restores_witness :
  exists a, (a0 ← NewEvaluationAggregate example_run; foldM AddRecord a0 example_records) = Ok a /\
    recordCount a = 2 /\ validateRestoredAggregate a = Ok tt.
Proof.
  destruct (NewEvaluationAggregate example_run) as [a0|] eqn:E0; [|by vm_compute in E0].
  destruct (foldM AddRecord a0 example_records) as [a|] eqn:E.
  - exists a. split; [done|].
    destruct (aggregate_restores example_run a0 example_records a E0) as (H1 & _ & _ & _ & _ & _ & H2);
      [by repeat constructor|done|exact E|by split].
  - vm_compute in E0. injection E0 as <-. by vm_compute in E.
Defined.

(** records dated before year 1 - which event validation accepts - make an aggregate
    that storage cannot read back: AddRecord counts them but leaves the last observation
    at the zero time, and the restored-aggregate validation rejects it. *)
Theorem ancient_records_unreadable run a0 records a :
  NewEvaluationAggregate run = Ok a0 -> records <> [] ->
  Forall (fun r => instant (DR_Timestamp r) < 0) records ->
  foldM AddRecord a0 records = Ok a ->
  lastObservedAt a = zero_time /\ is_ok (validateRestoredAggregate a) = false.
Proof.
  intros H0 Hne Ht H. destruct (NewEvaluationAggregate_ok _ _ H0) as [Ha0 Hc0].
  assert (Hl0 : lastObservedAt a0 = zero_time) by by apply (ao_times_empty a0).
  assert (P : lastObservedAt a = zero_time /\ (0 < recordCount a <= max_u64)).
  { assert (Hstep : forall r a1 a2, instant (DR_Timestamp r) < 0 -> lastObservedAt a1 = zero_time ->
      0 <= recordCount a1 <= max_u64 -> AddRecord a1 r = Ok a2 -> lastObservedAt a2 = zero_time /\ 0 < recordCount a2 <= max_u64).
    { intros r a1 a2 Hr Hl Hc (Ec & Hmax & El)%AddRecord_count. rewrite El, Hl. unfold time_after.
      destruct (Z.ltb_spec (instant zero_time) (instant (DR_Timestamp r))); [cbn in *; lia|].
      split; [done|]. rewrite Ec. unfold incr. rewrite u64_small; ulia. }
    destruct records as [|r rs]; [done|]. inversion_clear Ht as [|?? H1 H2]. cbn [foldM] in H. res_inv.
    destruct (Hstep _ _ _ H1 Hl0 ltac:(ulia) Hok) as [Hl1 Hc1].
    refine (foldM_ind (fun a => lastObservedAt a = zero_time /\ 0 < recordCount a <= max_u64) AddRecord rs _ _ a _ H); [|done].
    intros b x b' Hx [Hb Hcb] Eb. rewrite Forall_forall in H2.
    apply (Hstep x b b'); [apply H2; first [exact Hx | by apply list_elem_of_In]|done|lia|done]. }
  destruct P as [Hl Hc]. split; [done|].
  destruct (validateRestoredAggregate a) as [[]|] eqn:E; [exfalso|done]. unfold validateRestoredAggregate in E. res_inv.
  destruct (Z.eqb_spec (recordCount a) 0); [lia|]. res_inv. rewrite Hl in *. by rewrite orb_true_r in *.
Qed.

Definition ancient_record : DecisionRecord :=
  let r := example_record "" "" in
  {| DR_EventID := "e"; DR_Timestamp := Time (-1) 0; DR_ActorID := DR_ActorID r;
     DR_ActorType := DR_ActorType r; DR_IdentityConfidence := DR_IdentityConfidence r;
     DR_Environment := DR_Environment r; DR_Behavior := DR_Behavior r; DR_FingerprintID := DR_FingerprintID r;
     DR_AnomalyScore := DR_AnomalyScore r; DR_AnomalyConfidence := DR_AnomalyConfidence r;
     DR_Contributors := []; DR_TrustScore := DR_TrustScore r; DR_RiskLevel := DR_RiskLevel r;
     DR_ContextRisk := DR_ContextRisk r; DR_Decision := DR_Decision r; DR_PolicyRule := "";
     DR_PolicyReason := "r"; DR_MatchedDefault := true; DR_TraceID := ""; DR_SpanID := "";
     DR_SessionID := ""; DR_DelegatedFrom := ""; DR_ApprovalStatus := ""; DR_ParentSpanID := "";
     DR_SpanLineage := ""; DR_DurationNanos := ""; DR_SpanStatus := "" |}.

Lemma ancient_records_unreadable_witness :
  exists a, (a0 ← NewEvaluationAggregate example_run; foldM AddRecord a0 [ancient_record]) = Ok a /\
    is_ok (validateRestoredAggregate a) = false.
Proof.
  destruct (NewEvaluationAggregate example_run) as [a0|] eqn:E0; [|by vm_compute in E0].
  destruct (foldM AddRecord a0 [ancient_record]) as [a|] eqn:E.
  - exists a. split; [exact E|].
    apply (ancient_records_unreadable example_run a0 [ancient_record] a E0 ltac:(done)); [by repeat constructor|exact E].
  - vm_compute in E0. injection E0 as <-. by vm_compute in E.
Defined.

(** An event dated in year 0 validates: the time the record above carries. *)
Example ancient_year : time_year (Time (-1) 0) = 0.
Proof. reflexivity. Qed.
