(* ===== verification/Observation.v ===== *)
(** * Package platform: retained observations (observation.go, observation_store.go)

    The per-record history of a run: building an observation from a decision record, the
    retention plan, the completeness a reader is told, page cursors, and reading the whole
    retained history page by page (controlplane.go, retainedHistory). *)
From Stdlib Require Import Sorted.
From S2P Require Import Prelude GoText GoTime GoFloat Event Fingerprint DecisionRecord Domain.

Open Scope string_scope.
Open Scope Z_scope.

Definition MaxRetainedObservations : Z := 4096.
Definition MaxListPage : Z := 64.

Record Observation : Type := {
  Sequence : Z;
  O_EventID : string;
  O_Timestamp : time;
  O_ActorID : string;
  O_ActorType : ActorType;
  O_IdentityConfidence : float;
  O_FingerprintID : string;
  O_Behavior : StableFeatures;
  NewBehavior : bool;
  O_AnomalyScore : float;
  O_AnomalyConfidence : float;
  O_TrustScore : float;
  O_ContextRisk : float;
  O_RiskLevel : string;
  O_Decision : string;
  O_PolicyRule : string;
  O_PolicyReason : string;
  O_MatchedDefault : bool;
  O_TraceID : string;
  O_SpanID : string;
  O_SessionID : string;
  O_DelegatedFrom : string;
  O_ApprovalStatus : ApprovalStatus;
  O_ParentSpanID : string;
  O_SpanLineage : SpanLineage;
  O_DurationNanos : Z;
  O_DurationObserved : bool;
  O_SpanStatus : SpanStatus;
}.

Definition ObservationFromRecord (sequence : Z) (record : DecisionRecord) (newBehavior : bool)
    : res Observation :=
  fail_if (sequence =? 0) [ErrInvalidObservation];;
  fail_if (DR_EventID record =s "") [ErrInvalidObservation];;
  fail_if (time_is_zero (DR_Timestamp record)) [ErrInvalidObservation];;
  duration ← map_err (fun _ => [ErrInvalidObservation]) (ValidateDurationNanos record);
  Ok {| Sequence := sequence; O_EventID := DR_EventID record;
        O_Timestamp := time_utc (DR_Timestamp record);
        O_ActorID := DR_ActorID record; O_ActorType := DR_ActorType record;
        O_IdentityConfidence := DR_IdentityConfidence record;
        O_FingerprintID := DR_FingerprintID record; O_Behavior := DR_Behavior record;
        NewBehavior := newBehavior;
        O_AnomalyScore := DR_AnomalyScore record; O_AnomalyConfidence := DR_AnomalyConfidence record;
        O_TrustScore := DR_TrustScore record; O_ContextRisk := DR_ContextRisk record;
        O_RiskLevel := DR_RiskLevel record; O_Decision := DR_Decision record;
        O_PolicyRule := DR_PolicyRule record; O_PolicyReason := DR_PolicyReason record;
        O_MatchedDefault := DR_MatchedDefault record;
        O_TraceID := DR_TraceID record; O_SpanID := DR_SpanID record;
        O_SessionID := DR_SessionID record; O_DelegatedFrom := DR_DelegatedFrom record;
        O_ApprovalStatus := DR_ApprovalStatus record; O_ParentSpanID := DR_ParentSpanID record;
        O_SpanLineage := DR_SpanLineage record; O_DurationNanos := duration;
        O_DurationObserved := DR_DurationNanos record <>s ""; O_SpanStatus := DR_SpanStatus record |}.

(** ** The history state *)
Inductive ObservationHistoryState : Type :=
| ObservationHistoryUnavailable | ObservationHistoryComplete | ObservationHistoryPartial.

#[export] Instance ObservationHistoryState_eq_dec : EqDecision ObservationHistoryState.
Proof. solve_decision. Defined.

Definition ObservationHistoryState_String (s : ObservationHistoryState) : string :=
  match s with
  | ObservationHistoryComplete => "complete"
  | ObservationHistoryPartial => "partial"
  | ObservationHistoryUnavailable => "unavailable"
  end.

Record ObservationHistory : Type := { OH_state : ObservationHistoryState; OH_retained : Z }.
Definition Available (h : ObservationHistory) : bool :=
  bool_decide (OH_state h <> ObservationHistoryUnavailable).
Definition History_Complete (h : ObservationHistory) : bool :=
  bool_decide (OH_state h = ObservationHistoryComplete).

Definition NewObservationHistory (present : bool) (retained : Z) (complete : bool) (recordCount : Z)
    : ObservationHistory :=
  if negb present then
    if recordCount =? 0 then {| OH_state := ObservationHistoryComplete; OH_retained := 0 |}
    else {| OH_state := ObservationHistoryUnavailable; OH_retained := 0 |}
  else
    {| OH_state := if complete then ObservationHistoryComplete else ObservationHistoryPartial;
       OH_retained := retained |}.

Record ObservationPage : Type := {
  Observations : list Observation; Page_History : ObservationHistory; Matched : bool }.

(** ** Retention (observation_store.go) *)
Record observationRetention : Type := { Insert : bool; Retained : Z; Retention_Complete : bool }.

Definition planObservationRetention (present : bool) (retained : Z) (complete : bool) (sequence : Z)
    : observationRetention :=
  if negb present then {| Insert := true; Retained := 1; Retention_Complete := sequence =? 1 |}
  else if MaxRetainedObservations <=? retained then
    {| Insert := false; Retained := retained; Retention_Complete := false |}
  else {| Insert := true; Retained := u64 (retained + 1); Retention_Complete := complete |}.

(** ** Cursors *)
Definition FormatObservationCursor (sequence : Z) : string := format_uint 10 sequence.

Definition ParseObservationCursor (s : string) : res Z :=
  if s =s "" then Ok 0
  else
    match parse_uint s with
    | None => Err [ErrObservationCursor]
    | Some v =>
        if format_uint 10 v <>s s then Err [ErrObservationCursor]
        else if v =? 0 then Err [ErrObservationCursor]
        else Ok v
    end.

Definition validateObservationPage (after : string) (limit : Z) : res unit :=
  fail_if ((limit <? 1) || (MaxListPage <? limit)) [ErrInvalidID];;
  ParseObservationCursor after;; Ok tt.

(** ** Scopes *)
Record ObservationScope : Type := {
  Scope_SessionID : string; Scope_TraceID : string; Scope_FingerprintID : string }.
Record ObservationFilter : Type := {
  Filter_FingerprintID : string; Filter_Decision : string; Filter_RiskLevel : string;
  Filter_SessionID : string; Filter_TraceID : string }.

Definition filter_ (s : ObservationScope) : res ObservationFilter :=
  let set_ := (if Scope_SessionID s <>s "" then 1 else 0) + (if Scope_TraceID s <>s "" then 1 else 0)
              + (if Scope_FingerprintID s <>s "" then 1 else 0) in
  fail_if (1 <? set_) [ErrInvalidID];;
  (if Scope_FingerprintID s <>s "" then validateID (Scope_FingerprintID s) else Ok tt);;
  Ok {| Filter_FingerprintID := Scope_FingerprintID s; Filter_Decision := ""; Filter_RiskLevel := "";
        Filter_SessionID := Scope_SessionID s; Filter_TraceID := Scope_TraceID s |}.

(** ** Reading the whole retained history (controlplane.go)

    [RunObservations after] is one page of the store; the loop is bounded by the number of
    pages retention can fill, plus the empty one that ends it. *)
Definition maxPages : nat := 65.

Fixpoint retained_pages (RunObservations : Z -> res ObservationPage) (pages : nat) (after : Z)
    (observations : list Observation) (history : ObservationHistory)
    : res (list Observation * ObservationHistory) :=
  match pages with
  | O => Ok (observations, history)
  | S pages =>
      got ← RunObservations after;
      let history := Page_History got in
      match last (Observations got) with
      | None => Ok (observations, history)
      | Some o =>
          let observations := (observations ++ Observations got)%list in
          if Sequence o <=? after then Ok (observations, history)
          else retained_pages RunObservations pages (Sequence o) observations history
      end
  end.

Definition retainedHistory (RunObservations : Z -> res ObservationPage)
    : res (list Observation * ObservationHistory) :=
  retained_pages RunObservations maxPages 0 [] {| OH_state := ObservationHistoryUnavailable; OH_retained := 0 |}.

Example maxPages_ex : Z.of_nat maxPages = MaxRetainedObservations / MaxListPage + 1.
Proof. reflexivity. Qed.

(** ** The retained history of one run in storage (sqlite.go, observation_store.go)

    The observation rows in sequence order, and the history row when there is one. *)
Record run_history : Type := { rows : list Observation; history_row : option (Z * bool) }.
Definition no_history : run_history := {| rows := []; history_row := None |}.

Definition retainObservation (h : run_history) (o : Observation) : run_history :=
  let plan :=
    match history_row h with
    | None => planObservationRetention false 0 false (Sequence o)
    | Some (retained, complete) => planObservationRetention true retained complete (Sequence o)
    end in
  {| rows := if Insert plan then (rows h ++ [o])%list else rows h;
     history_row := Some (Retained plan, Retention_Complete plan) |}.

Definition observationHistoryFor (h : run_history) (recordCount : Z) : ObservationHistory :=
  match history_row h with
  | None => NewObservationHistory false 0 false recordCount
  | Some (retained, complete) => NewObservationHistory true retained complete recordCount
  end.

(** [SELECT ... WHERE sequence > ? ORDER BY sequence LIMIT ?]. *)
Definition select_page (h : run_history) (after : Z) (limit : nat) : list Observation :=
  take limit (List.filter (fun o => after <? Sequence o) (rows h)).

Definition runObservationPage (h : run_history) (recordCount : Z) (after : Z) (limit : nat) : ObservationPage :=
  let observations := select_page h after limit in
  {| Observations := observations; Page_History := observationHistoryFor h recordCount;
     Matched := match observations with
                | [] => match rows h with [] => false | _ => true end
                | _ => true
                end |}.

Definition RunObservations (h : run_history) (recordCount : Z) (after : Z) : res ObservationPage :=
  Ok (runObservationPage h recordCount after 64).

(** ** Lemmas *)
Definition increasing (l : list Observation) : Prop :=
  StronglySorted (fun o o' => Sequence o < Sequence o') l.

Lemma filter_all_true {A} (f : A -> bool) l : Forall (fun x => f x = true) l -> List.filter f l = l.
Proof. induction 1 as [|x l Hx Hl IH]; cbn; [done|]. rewrite Hx. by f_equal. Qed.
Lemma filter_all_false {A} (f : A -> bool) l : Forall (fun x => f x = false) l -> List.filter f l = [].
Proof. induction 1 as [|x l Hx Hl IH]; cbn; [done|]. by rewrite Hx. Qed.

Lemma filter_after seen rest after :
  Forall (fun o => Sequence o <= after) seen -> Forall (fun o => after < Sequence o) rest ->
  List.filter (fun o => after <? Sequence o) (seen ++ rest) = rest.
Proof.
  intros H1 H2. rewrite List.filter_app, filter_all_false, filter_all_true; [done| |].
  - eapply Forall_impl; [exact H2|]. cbn. intros o Ho. by apply Z.ltb_lt.
  - eapply Forall_impl; [exact H1|]. cbn. intros o Ho. by apply Z.ltb_ge.
Qed.

Lemma retained_pages_step h rc pages after seen history :
  retained_pages (RunObservations h rc) (S pages) after seen history =
    match last (select_page h after 64) with
    | None => Ok (seen, observationHistoryFor h rc)
    | Some o =>
        let observations := (seen ++ select_page h after 64)%list in
        if Sequence o <=? after then Ok (observations, observationHistoryFor h rc)
        else retained_pages (RunObservations h rc) pages (Sequence o) observations (observationHistoryFor h rc)
    end.
Proof. done. Qed.

(** The page loop reads every row, within its bound on pages. *)
Lemma retained_pages_all h rc pages : forall seen rest after history,
  rows h = (seen ++ rest)%list -> increasing (rows h) ->
  Forall (fun o => Sequence o <= after) seen -> Forall (fun o => after < Sequence o) rest ->
  (length rest <= pages * 64)%nat ->
  retained_pages (RunObservations h rc) (S pages) after seen history = Ok (rows h, observationHistoryFor h rc).
Proof.
  induction pages as [|pages IH]; intros seen rest after history Hr Hs H1 H2 Hl.
  all: rewrite retained_pages_step; unfold select_page; rewrite Hr, filter_after by done.
  - destruct rest; [cbn; by rewrite app_nil_r|cbn in Hl; lia].
  - destruct rest as [|o0 rest0]; [cbn; by rewrite app_nil_r|].
    remember (o0 :: rest0) as rest eqn:Er.
    assert (Hp : take 64 rest <> []) by (subst; done).
    destruct (last (take 64 rest)) as [o|] eqn:El; [|apply last_None in El; congruence].
    apply last_Some in El as [page Ep].
    assert (Hin : o ∈ rest).
    { apply (subseteq_take 64 rest). rewrite Ep. apply elem_of_app. right. by apply list_elem_of_singleton. }
    assert (Ho : after < Sequence o) by (rewrite Forall_forall in H2; by apply H2).
    destruct (Z.leb_spec (Sequence o) after); [lia|].
    assert (Hsplit : (seen ++ rest = (seen ++ take 64 rest) ++ drop 64 rest)%list)
      by (by rewrite <- app_assoc, take_drop).
    assert (Hs' : increasing ((seen ++ page) ++ [o] ++ drop 64 rest)%list).
    { rewrite Hr, Hsplit, Ep in Hs. rewrite <- !app_assoc in Hs. by rewrite <- !app_assoc. }
    rewrite <- Hr.
    apply StronglySorted_app in Hs' as (Hlt & _ & Hs2). apply StronglySorted_app in Hs2 as (Hlt2 & _ & _).
    apply (IH (seen ++ take 64 rest)%list (drop 64 rest) (Sequence o)); [by rewrite Hr|done| | |].
    + rewrite Ep, app_assoc. apply Forall_app. split; [|by constructor].
      apply Forall_forall. intros x Hx. apply Z.lt_le_incl, Hlt; set_solver.
    + apply Forall_forall. intros x Hx. apply Hlt2; set_solver.
    + rewrite length_drop. lia.
Qed.

(** The bound, as the length of a list. *)
Definition cap : nat := Z.to_nat MaxRetainedObservations.
Lemma cap_Z : Z.of_nat cap = 4096.
Proof. done. Qed.
Lemma cap_pages : (cap <= 64 * 64)%nat.
Proof. pose proof cap_Z. lia. Qed.
#[local] Opaque cap.

(** Retaining [n] more observations of a run that already counts [k] records. *)
Lemma retained_rows k obs : 0 <= k ->
  (Sequence <$> obs) = seqZ (k + 1) (Z.of_nat (length obs)) ->
  let h := foldl retainObservation no_history obs in
  rows h = take cap obs /\
  history_row h = match obs with
                  | [] => None
                  | _ => Some (Z.of_nat (length (take cap obs)),
                               (k =? 0) && (Z.of_nat (length obs) <=? MaxRetainedObservations))
                  end.
Proof.
  pose proof cap_Z as Hcap. intros Hk. induction obs as [|o obs IH] using rev_ind; intros Hs; [done|].
  rewrite fmap_app, length_app in Hs. cbn [length fmap list_fmap] in Hs.
  replace (Z.of_nat (length obs + 1)) with (Z.of_nat (length obs) + 1) in Hs by lia.
  rewrite seqZ_app in Hs by lia. apply app_inj_2 in Hs as [Hs Ho]; [|done].
  cbn in Ho. injection Ho as Ho. cbn zeta in IH. destruct (IH Hs) as [Hr Hh].
  rewrite foldl_app. cbn [foldl]. set (h := foldl retainObservation no_history obs) in *.
  unfold retainObservation. rewrite Hr, Hh. destruct obs as [|o0 obs0].
  - cbn in Ho |- *. split; [done|]. f_equal. f_equal. rewrite Ho.
    destruct (Z.eqb_spec k 0) as [->|]; [done|]. cbn. apply Z.eqb_neq. lia.
  - remember (o0 :: obs0) as obs. rewrite length_app, !length_take. unfold planObservationRetention, MaxRetainedObservations.
    cbn [negb]. assert (Hne : (obs ++ [o])%list <> []) by (subst; done).
    destruct (Z.leb_spec 4096 (Z.of_nat (Nat.min cap (length obs)))).
    + cbn [Insert Retained Retention_Complete rows history_row]. split; [by rewrite take_app_le by lia|].
      destruct (obs ++ [o])%list eqn:E; [done|]. rewrite <- E, length_app, Nat.min_l by lia.
      cbn [length]. f_equal. f_equal; [lia|]. symmetry. apply andb_false_iff. right. apply Z.leb_gt. lia.
    + cbn [Insert Retained Retention_Complete rows history_row].
      split; [rewrite !take_ge by (rewrite ?length_app; cbn; lia); done|].
      destruct (obs ++ [o])%list eqn:E; [done|]. rewrite <- E, length_app. cbn [length].
      f_equal. f_equal; [rewrite u64_small by ulia; lia|].
      f_equal. destruct (Z.leb_spec (Z.of_nat (length obs)) 4096), (Z.leb_spec (Z.of_nat (length obs + 1)) 4096); lia.
Qed.

Lemma seqZ_increasing m l n : (Sequence <$> l) = seqZ m n -> increasing l /\ Forall (fun o => m <= Sequence o) l.
Proof.
  revert m n. induction l as [|o l IH]; intros m n H; [by split; constructor|].
  destruct (Z.le_gt_cases n 0) as [Hn|Hn]; [by rewrite seqZ_nil in H by lia|].
  rewrite seqZ_cons in H by lia. cbn in H. injection H as Ho Hl. destruct (IH _ _ Hl) as [Hs Hf].
  split; constructor; try done; try lia.
  - eapply Forall_impl; [exact Hf|]. cbn. lia.
  - eapply Forall_impl; [exact Hf|]. cbn. lia.
Qed.

(** ** Properties *)

(** The page loop over the history that ingestion left reads what retention kept. *)
Lemma retainedHistory_reads k obs : 0 <= k -> (Sequence <$> obs) = seqZ (k + 1) (Z.of_nat (length obs)) ->
  let h := foldl retainObservation no_history obs in
  retainedHistory (RunObservations h (k + Z.of_nat (length obs))) =
    Ok (take cap obs, observationHistoryFor h (k + Z.of_nat (length obs))).
Proof.
  pose proof cap_Z as Hcap. intros Hk Hs h. destruct (retained_rows k obs Hk Hs) as [Hr _]. fold h in Hr.
  destruct (seqZ_increasing _ _ _ Hs) as [Hi Hf]. rewrite <- Hr. unfold retainedHistory. change maxPages with (S 64).
  rewrite (retained_pages_all h _ 64 [] (rows h)); [reflexivity|reflexivity| |constructor| |].
  - rewrite Hr. rewrite <- (take_drop cap obs) in Hi. by apply StronglySorted_app in Hi as (_ & ? & _).
  - rewrite Hr. apply Forall_take. eapply Forall_impl; [exact Hf|]. cbn. lia.
  - rewrite Hr, length_take. pose proof cap_pages. lia.
Qed.

(** C37: the history a reader is told about is the truth. A run that counts [k] records
    when retention begins and then ingests observations, one per record in sequence, reads
    back - page by page, within the page bound - exactly the first 4096 of them in order,
    with their number; and the history is called complete exactly when nothing is missing:
    every record of the run, from the first, is among the observations read. *)
Theorem retained_history_truthful k obs :
  0 <= k ->
  (Sequence <$> obs) = seqZ (k + 1) (Z.of_nat (length obs)) ->
  let h := foldl retainObservation no_history obs in
  exists history,
    retainedHistory (RunObservations h (k + Z.of_nat (length obs))) = Ok (take cap obs, history) /\
    OH_retained history = Z.of_nat (length (take cap obs)) /\
    (History_Complete history = true <-> k = 0 /\ take cap obs = obs) /\
    (Available history = false <-> obs = [] /\ k <> 0).
Proof.
  pose proof cap_Z as Hcap. intros Hk Hs h. destruct (retained_rows k obs Hk Hs) as [Hr Hh]. fold h in Hr, Hh.
  exists (observationHistoryFor h (k + Z.of_nat (length obs))).
  split; [by apply retainedHistory_reads|].
  unfold observationHistoryFor, NewObservationHistory, History_Complete, Available. rewrite Hh.
    destruct obs as [|o obs].
    + cbn [negb]. rewrite Z.add_0_r. destruct (Z.eqb_spec k 0) as [->|Hne]; cbn.
      * split; [done|]. split; [done|]. split; [done|intros [_ ?]; done].
      * split; [done|]. split; [split; [done|intros [? _]; done]|split; [done|done]].
    + remember (o :: obs) as l. cbn [negb OH_retained OH_state]. split; [done|].
      assert (Ht : take cap l = l <-> Z.of_nat (length l) <= 4096).
      { split; [intros E; apply (f_equal length) in E; rewrite length_take in E; lia|intros; apply take_ge; lia]. }
      rewrite Ht. unfold MaxRetainedObservations.
      assert (Hl : l <> []) by (subst l; discriminate).
      destruct (Z.eqb_spec k 0), (Z.leb_spec (Z.of_nat (length l)) 4096); cbn [andb].
      * split; [split; [intros _; lia|reflexivity]|]. split; [discriminate|intros [? _]; congruence].
      * split; [split; [discriminate|lia]|]. split; [discriminate|intros [? _]; congruence].
      * split; [split; [discriminate|lia]|]. split; [discriminate|intros [? _]; congruence].
      * split; [split; [discriminate|lia]|]. split; [discriminate|intros [? _]; congruence].
Qed.

Definition example_observation (sequence : Z) (fp trace span parent : string) : Observation :=
  {| Sequence := sequence; O_EventID := "e"; O_Timestamp := Time 1 0; O_ActorID := "a";
     O_ActorType := "service"; O_IdentityConfidence := 1%float; O_FingerprintID := fp;
     O_Behavior := sample_stable "read" "db"; NewBehavior := false; O_AnomalyScore := 0%float;
     O_AnomalyConfidence := 0%float; O_TrustScore := 1%float; O_ContextRisk := 0%float;
     O_RiskLevel := "low"; O_Decision := "allow"; O_PolicyRule := ""; O_PolicyReason := "";
     O_MatchedDefault := true; O_TraceID := trace; O_SpanID := span; O_SessionID := "";
     O_DelegatedFrom := ""; O_ApprovalStatus := ""; O_ParentSpanID := parent; O_SpanLineage := "";
     O_DurationNanos := 0; O_DurationObserved := false; O_SpanStatus := "" |}.

#[local] Transparent cap.
Lemma retained_history_truthful_witness :
  let obs := [example_observation 1 "f" "t" "s" ""; example_observation 2 "g" "t" "u" "s"] in
  exists history,
    retainedHistory (RunObservations (foldl retainObservation no_history obs) 2) = Ok (obs, history) /\
    History_Complete history = true.
Proof.
  intros obs. destruct (retained_history_truthful 0 obs ltac:(lia) eq_refl) as (history & H1 & _ & H2 & _).
  exists history. split; [exact H1|]. apply H2. by split.
Defined.
