(* ===== verification/Counting.v ===== *)
(** * Package platform: counting behavioral change (counting.go)

    The recorded parentage of a run's observations, and the fold that counts an added
    behavior as part of another's change when every occurrence of it lies beneath an added
    one; the cycle check (Kahn's algorithm) and the reachability it uses. *)
From S2P Require Import Prelude GoText GoTime GoFloat Event Fingerprint DecisionRecord Domain Observation.

Open Scope string_scope.
Open Scope Z_scope.

Definition CountingPolicyVersion : string := "1".

Definition CorrelationState := string.
Definition CorrelationUnavailable : CorrelationState := "unavailable".
Definition CorrelationComplete : CorrelationState := "complete".
Definition CorrelationPartial : CorrelationState := "partial".
Definition folded (s : CorrelationState) : bool := s =s CorrelationComplete.

Record BehaviorChange : Type := {
  RootFingerprintID : string; ContributingFingerprintIDs : list string }.

(** A [spanRef] is the pair of a trace and a span of it. *)
Record behaviorParentage : Type := {
  parents : gmap string (gset string); independent : gset string; degraded : bool }.

(** Pass one: which identity each span carried. *)
Definition learn_span (acc : gmap (string * string) string * bool) (o : Observation)
    : gmap (string * string) string * bool :=
  let '(identityOf, degraded) := acc in
  if (O_TraceID o =s "") || (O_SpanID o =s "") || (O_FingerprintID o =s "") then acc
  else
    let ref := (O_TraceID o, O_SpanID o) in
    match identityOf !! ref with
    | None => (<[ref := O_FingerprintID o]> identityOf, degraded)
    | Some known => if known <>s O_FingerprintID o then (identityOf, true) else acc
    end.

(** Pass two: each occurrence lies beneath another identity, or is independent. *)
Definition classify (identityOf : gmap (string * string) string)
    (acc : gmap string (gset string) * gset string) (o : Observation)
    : gmap string (gset string) * gset string :=
  let '(parents, independent) := acc in
  let id := O_FingerprintID o in
  if id =s "" then acc
  else if (O_ParentSpanID o =s "") || (O_TraceID o =s "") then (parents, {[id]} ∪ independent)
  else
    match identityOf !! (O_TraceID o, O_ParentSpanID o) with
    | None => (parents, {[id]} ∪ independent)
    | Some parentID =>
        if parentID =s id then (parents, {[id]} ∪ independent)
        else (<[id := {[parentID]} ∪ default ∅ (parents !! id)]> parents, independent)
    end.

Definition buildBehaviorParentage (observations : list Observation) : behaviorParentage :=
  let '(identityOf, degraded) := foldl learn_span (∅, false) observations in
  let '(parents, independent) := foldl (classify identityOf) (∅, ∅) observations in
  {| parents := parents; independent := independent; degraded := degraded |}.

Definition parents_of (p : behaviorParentage) (id : string) : gset string := default ∅ (parents p !! id).

Definition foldEligible (p : behaviorParentage) (id : string) (inAdded : gset string) : bool :=
  if bool_decide (id ∈ independent p) then false
  else if bool_decide (size (parents_of p id) = 0%nat) then false
  else bool_decide (parents_of p id ⊆ inAdded).

(** ** Graphs: the children of each identity *)
Notation graph := (gmap string (list string)) (only parsing).
Definition kids (children : graph) (id : string) : list string := default [] (children !! id).

(** One child of the added subgraph's edges: it is appended to each added parent. *)
Definition add_child (p : behaviorParentage) (inAdded : gset string) (acc : graph) (child : string) : graph :=
  foldl (fun (acc : graph) parent =>
           if bool_decide (parent ∈ inAdded) then <[parent := (kids acc parent ++ [child])%list]> acc else acc)
    acc (elements (parents_of p child)).

Definition addedChildren (p : behaviorParentage) (added : list string) : graph :=
  sort_strings <$> foldl (add_child p (list_to_set added)) ∅ added.

(** ** hasCycle: Kahn's algorithm

    [ready] is a stack, its top first.  Each step removes one node, so the fuel is the
    number of nodes and one more. *)
Definition degree (inDegree : gmap string Z) (id : string) : Z := default 0 (inDegree !! id).

Definition increment (inDegree : gmap string Z) (child : string) : gmap string Z :=
  <[child := degree inDegree child + 1]> inDegree.

Definition in_degrees (nodes : list string) (children : graph) : gmap string Z :=
  let zeroes := foldl (fun (m : gmap string Z) id => <[id := 0]> m) ∅ nodes in
  foldl (fun m id => foldl increment m (kids children id)) zeroes nodes.

Definition release (acc : gmap string Z * list string) (child : string) : gmap string Z * list string :=
  let '(inDegree, ready) := acc in
  let inDegree := <[child := degree inDegree child - 1]> inDegree in
  (inDegree, if degree inDegree child =? 0 then child :: ready else ready).

Fixpoint kahn (fuel : nat) (children : graph) (inDegree : gmap string Z) (ready : list string) (removed : Z) : Z :=
  match fuel, ready with
  | O, _ | _, [] => removed
  | S fuel, id :: ready =>
      let '(inDegree, ready) := foldl release (inDegree, ready) (kids children id) in
      kahn fuel children inDegree ready (removed + 1)
  end.

Definition hasCycle (nodes : list string) (children : graph) : bool :=
  let inDegree := in_degrees nodes children in
  let ready := foldl (fun ready id => if degree inDegree id =? 0 then id :: ready else ready) [] nodes in
  kahn (S (length nodes)) children inDegree ready 0 <? Z.of_nat (size inDegree).

(** ** reachableFrom *)
Definition visit (acc : gset string * list string) (child : string) : gset string * list string :=
  let '(seen, stack) := acc in
  if bool_decide (child ∈ seen) then acc else ({[child]} ∪ seen, child :: stack).

Fixpoint explore (fuel : nat) (children : graph) (seen : gset string) (stack : list string) : gset string :=
  match fuel, stack with
  | O, _ | _, [] => seen
  | S fuel, id :: stack =>
      let '(seen, stack) := foldl visit (seen, stack) (kids children id) in
      explore fuel children seen stack
  end.

(** Every identity the walk can push. *)
Definition universe (root : string) (children : graph) : gset string :=
  {[root]} ∪ list_to_set (mjoin (snd <$> map_to_list children)).

Definition reachableFrom (root : string) (children : graph) : list string :=
  sort_strings (elements (explore (S (size (universe root children))) children {[root]} [root])).

(** ** The fold *)
Definition unfoldedChanges (added : list string) : list BehaviorChange :=
  sort_by RootFingerprintID
    ((fun id => {| RootFingerprintID := id; ContributingFingerprintIDs := [id] |}) <$> added).

Definition foldAddedChanges (added : list string) (parentage : behaviorParentage) (state : CorrelationState)
    : list BehaviorChange * CorrelationState :=
  if negb (folded state) || degraded parentage then
    (unfoldedChanges added,
     if degraded parentage && (state =s CorrelationComplete) then CorrelationPartial else state)
  else
    let inAdded := list_to_set added : gset string in
    let children := addedChildren parentage added in
    if hasCycle added children then (unfoldedChanges added, CorrelationPartial)
    else
      (sort_by RootFingerprintID
         ((fun root => {| RootFingerprintID := root;
                          ContributingFingerprintIDs := reachableFrom root children |})
          <$> List.filter (fun id => negb (foldEligible parentage id inAdded)) added), state).

Definition correlationStateFor (candidate : ObservationHistory) : CorrelationState :=
  if negb (Available candidate) then CorrelationUnavailable
  else if History_Complete candidate then CorrelationComplete
  else CorrelationPartial.

Definition validateChangeCountArithmetic (added changes : Z) : res unit :=
  fail_if (changes <? 0) [ErrInvalidGateEvidence];;
  fail_if (added <? changes) [ErrInvalidGateEvidence];;
  fail_if ((0 <? added) && (changes =? 0)) [ErrInvalidGateEvidence].

(** A tool and the transport child it calls are one change. *)
Example fold_ex :
  let obs := [example_observation 1 "tool" "t" "s1" ""; example_observation 2 "http" "t" "s2" "s1"] in
  foldAddedChanges ["http"; "tool"] (buildBehaviorParentage obs) CorrelationComplete =
    ([{| RootFingerprintID := "tool"; ContributingFingerprintIDs := ["http"; "tool"] |}], CorrelationComplete).
Proof. by vm_compute. Qed.

(** Two identities beneath each other are two changes. *)
Example cycle_ex :
  let obs := [example_observation 1 "a" "t" "s1" "s2"; example_observation 2 "b" "t" "s2" "s1"] in
  foldAddedChanges ["a"; "b"] (buildBehaviorParentage obs) CorrelationComplete =
    (unfoldedChanges ["a"; "b"], CorrelationPartial).
Proof. by vm_compute. Qed.

(** ** What the parentage records *)

(** Observation [o] reported span [ref] under identity [fp]. *)
Definition names_span (o : Observation) (ref : string * string) (fp : string) : Prop :=
  O_TraceID o <> "" /\ O_SpanID o <> "" /\ O_FingerprintID o <> "" /\
  ref = (O_TraceID o, O_SpanID o) /\ fp = O_FingerprintID o.
Definition span_identity (obs : list Observation) (ref : string * string) (fp : string) : Prop :=
  exists o, o ∈ obs /\ names_span o ref fp.

(** One span was reported under two identities. *)
Definition ambiguous (obs : list Observation) : Prop :=
  exists ref fp fp', span_identity obs ref fp /\ span_identity obs ref fp' /\ fp <> fp'.

(** Occurrence [o] lies beneath another identity [p]. *)
Definition beneath (identity : string * string -> string -> Prop) (o : Observation) (p : string) : Prop :=
  O_ParentSpanID o <> "" /\ O_TraceID o <> "" /\ p <> O_FingerprintID o /\
  identity (O_TraceID o, O_ParentSpanID o) p.

Lemma span_identity_snoc obs o ref fp :
  span_identity (obs ++ [o]) ref fp <-> span_identity obs ref fp \/ names_span o ref fp.
Proof.
  split.
  - intros (o' & Hin & Hn). apply elem_of_app in Hin as [Hin| ->%list_elem_of_singleton]; [left; by exists o'|by right].
  - intros [(o' & Hin & Hn)|Hn]; [exists o'|exists o]; (split; [|done]); apply elem_of_app;
      [by left|right; by apply list_elem_of_singleton].
Qed.

Lemma eqb_false_iff a b : String.eqb a b = false <-> a <> b.
Proof. apply String.eqb_neq. Qed.

Lemma learn_span_spec obs :
  let '(identityOf, degraded) := foldl learn_span (∅, false) obs in
  (forall ref fp, identityOf !! ref = Some fp -> span_identity obs ref fp) /\
  (forall ref fp, span_identity obs ref fp -> is_Some (identityOf !! ref)) /\
  (degraded = true <-> ambiguous obs).
Proof.
  induction obs as [|o obs IH] using rev_ind.
  - cbn. split; [intros ??; by rewrite lookup_empty|].
    split; [intros ref fp (o & Ho & _); by apply elem_of_nil in Ho|].
    split; [done|intros (? & ? & ? & (o & Ho & _) & _); by apply elem_of_nil in Ho].
  - rewrite foldl_app. cbn [foldl]. destruct (foldl learn_span (∅, false) obs) as [idOf deg].
    destruct IH as (I1 & I2 & I3). unfold learn_span. 
    assert (Hambig : ambiguous obs -> ambiguous (obs ++ [o])).
    { intros (r & f & f' & H1 & H2 & H3). exists r, f, f'. rewrite !span_identity_snoc. eauto. }
    destruct ((O_TraceID o =s "") || (O_SpanID o =s "") || (O_FingerprintID o =s ""))%go eqn:En.
    + assert (Hno : forall ref fp, ~ names_span o ref fp).
      { intros ref fp (H1 & H2 & H3 & _). rewrite !orb_true_iff, !String.eqb_eq in En. tauto. }
      assert (Hsame : forall ref fp, span_identity (obs ++ [o]) ref fp <-> span_identity obs ref fp).
      { intros ref fp. rewrite span_identity_snoc. specialize (Hno ref fp). tauto. }
      split; [intros ref fp H; apply Hsame; eauto|]. split; [intros ref fp H; apply Hsame in H; eauto|].
      rewrite I3. split; [exact Hambig|]. intros (r & f & f' & H1%Hsame & H2%Hsame & H3). by exists r, f, f'.
    + rewrite !orb_false_iff, !String.eqb_neq in En. destruct En as [[E1 E2] E3].
      set (ref := (O_TraceID o, O_SpanID o)). set (fp := O_FingerprintID o).
      assert (Hnew : names_span o ref fp) by done.
      assert (Honly : forall r f, names_span o r f -> r = ref /\ f = fp) by (by intros r f (_ & _ & _ & -> & ->)).
      clearbody ref fp. destruct (idOf !! ref) as [known|] eqn:Ek.
      * pose proof (I1 _ _ Ek) as Hk.
        assert (J1 : forall r f, idOf !! r = Some f -> span_identity (obs ++ [o]) r f)
          by (intros r f H; apply span_identity_snoc; eauto).
        assert (J2 : forall r f, span_identity (obs ++ [o]) r f -> is_Some (idOf !! r)).
        { intros r f [H|[-> ->]%Honly]%span_identity_snoc; eauto. }
        destruct (String.eqb_spec known fp) as [->|Hne]; cbn [negb]; (split; [done|split; [done|]]).
        -- rewrite I3. split; [exact Hambig|]. intros (r & f & f' & H1 & H2 & H3).
           apply span_identity_snoc in H1, H2. exists r, f, f'.
           assert (Hback : forall g, span_identity obs r g \/ names_span o r g -> span_identity obs r g).
           { intros g [?|[-> ->]%Honly]; [done|exact Hk]. }
           split; [by apply Hback|]. by split; [apply Hback|].
        -- split; [|done]. intros _. exists ref, known, fp. rewrite !span_identity_snoc. eauto.
      * assert (Hfresh : forall f, ~ span_identity obs ref f).
        { intros f H%I2. rewrite Ek in H. by destruct H. }
        split; [|split].
        -- intros r f H. apply span_identity_snoc. apply lookup_insert_Some in H as [[<- <-]|[_ H]]; eauto.
        -- intros r f [H|[-> ->]%Honly]%span_identity_snoc; [|rewrite lookup_insert_eq; eauto].
           apply lookup_insert_is_Some'. right. eauto.
        -- rewrite I3. split; [exact Hambig|]. intros (r & f & f' & H1 & H2 & H3).
           apply span_identity_snoc in H1, H2.
           destruct H1 as [H1|H1]; [|destruct (Honly _ _ H1); subst]; (destruct H2 as [H2|H2]; [|destruct (Honly _ _ H2); subst]).
           ++ by exists r, f, f'.
           ++ by apply Hfresh in H1.
           ++ by apply Hfresh in H2.
           ++ done.
Qed.

Definition lookup_identity (identityOf : gmap (string * string) string) (ref : string * string) (p : string) : Prop :=
  identityOf !! ref = Some p.

Lemma classify_spec identityOf obs :
  let '(parents, independent) := foldl (classify identityOf) (∅, ∅) obs in
  (forall id p, p ∈ (default ∅ (parents !! id) : gset string) <->
     id <> "" /\ exists o, o ∈ obs /\ O_FingerprintID o = id /\ beneath (lookup_identity identityOf) o p) /\
  (forall id, id ∈ independent <->
     id <> "" /\ exists o, o ∈ obs /\ O_FingerprintID o = id /\ forall p, ~ beneath (lookup_identity identityOf) o p) /\
  (forall id ps, parents !! id = Some ps -> ps <> ∅).
Proof.
  induction obs as [|o obs IH] using rev_ind.
  - cbn. split; [|split; [|intros ??; by rewrite lookup_empty]].
    + intros id p. rewrite lookup_empty. split; [set_solver|intros (_ & o & Ho & _); by apply elem_of_nil in Ho].
    + intros id. split; [set_solver|intros (_ & o & Ho & _); by apply elem_of_nil in Ho].
  - rewrite foldl_app. cbn [foldl]. destruct (foldl (classify identityOf) (∅, ∅) obs) as [ps ind].
    destruct IH as (I1 & I2 & I3).
    (* the occurrence [o] adds to exactly one of the two sets *)
    assert (Hex : forall (P : Observation -> Prop), (exists o', o' ∈ (obs ++ [o])%list /\ P o') <-> (exists o', o' ∈ obs /\ P o') \/ P o).
    { intros P. split.
      - intros (o' & [Hin| ->%list_elem_of_singleton]%elem_of_app & HP); [left; by exists o'|by right].
      - intros [(o' & Hin & HP)|HP]; [exists o'|exists o]; (split; [|done]); apply elem_of_app;
          [by left|right; by apply list_elem_of_singleton]. }
    assert (Hskip : O_FingerprintID o = "" ->
              forall id P, id <> "" /\ (exists o', o' ∈ (obs ++ [o])%list /\ O_FingerprintID o' = id /\ P o') <->
                           id <> "" /\ (exists o', o' ∈ obs /\ O_FingerprintID o' = id /\ P o')).
    { intros E id P. rewrite Hex. split; [|tauto]. intros [Hne [H|[H _]]]; [tauto|congruence]. }
    assert (Hind : O_FingerprintID o <> "" -> (forall p, ~ beneath (lookup_identity identityOf) o p) ->
      (forall id p, p ∈ (default ∅ (ps !! id) : gset string) <-> id <> "" /\ exists o', o' ∈ (obs ++ [o])%list /\
          O_FingerprintID o' = id /\ beneath (lookup_identity identityOf) o' p) /\
      (forall id, id ∈ {[O_FingerprintID o]} ∪ ind <-> id <> "" /\ exists o', o' ∈ (obs ++ [o])%list /\
          O_FingerprintID o' = id /\ forall p, ~ beneath (lookup_identity identityOf) o' p) /\
      (forall id s, ps !! id = Some s -> s <> ∅)).
    { intros Hne Hno. split; [|split; [|done]].
      - intros id p. rewrite Hex, I1. split; [tauto|]. intros [Hi [H|[_ H]]]; [tauto|by destruct (Hno p)].
      - intros id. rewrite Hex, elem_of_union, elem_of_singleton, I2. split.
        + intros [->|[Hi H]]; [split; [done|by right]|tauto].
        + intros [Hi [H|[<- _]]]; [by right|by left]. }
    unfold classify. destruct (String.eqb_spec (O_FingerprintID o) "") as [E|E].
    { split; [|split; [|done]]; [intros id p|intros id]; rewrite (Hskip E), ?I1, ?I2; done. }
    specialize (Hind E).
    destruct (String.eqb_spec (O_ParentSpanID o) "") as [E1|E1]; cbn [orb]; [apply Hind; by intros p (? & _)|].
    destruct (String.eqb_spec (O_TraceID o) "") as [E2|E2]; cbn [orb]; [apply Hind; by intros p (_ & ? & _)|].
    destruct (identityOf !! (O_TraceID o, O_ParentSpanID o)) as [parent|] eqn:Ep;
      [|apply Hind; intros p (_ & _ & _ & H); unfold lookup_identity in H; congruence].
    destruct (String.eqb_spec parent (O_FingerprintID o)) as [E3|E3];
      [apply Hind; intros p (_ & _ & Hp & H); unfold lookup_identity in H; congruence|].
    clear Hind Hskip.
    assert (Hb : forall p, beneath (lookup_identity identityOf) o p <-> p = parent).
    { intros p. unfold beneath, lookup_identity. rewrite Ep. split; [intros (_ & _ & _ & H); congruence|intros ->; done]. }
    split; [|split].
    + intros id p. rewrite Hex, Hb. destruct (decide (id = O_FingerprintID o)) as [->|Hid].
      * rewrite lookup_insert_eq. cbn. rewrite elem_of_union, elem_of_singleton, I1. tauto.
      * rewrite lookup_insert_ne by done. rewrite I1. split; [tauto|]. intros [? [?|[? _]]]; [tauto|congruence].
    + intros id. rewrite Hex, I2. split; [tauto|]. intros [Hi [H|[_ H]]]; [tauto|].
      destruct (H parent). by apply Hb.
    + intros id s Hl. apply lookup_insert_Some in Hl as [[_ <-]|[_ Hl]]; [set_solver|eauto].
Qed.

(** The derived relation, when no span is ambiguous. *)
Lemma parentage_spec obs :
  let p := buildBehaviorParentage obs in
  (degraded p = true <-> ambiguous obs) /\
  (~ ambiguous obs -> forall id,
     (forall q, q ∈ parents_of p id <->
        id <> "" /\ exists o, o ∈ obs /\ O_FingerprintID o = id /\ beneath (span_identity obs) o q) /\
     (id ∈ independent p <->
        id <> "" /\ exists o, o ∈ obs /\ O_FingerprintID o = id /\ forall q, ~ beneath (span_identity obs) o q)) /\
  (forall id s, parents p !! id = Some s -> s <> ∅).
Proof.
  unfold buildBehaviorParentage. pose proof (learn_span_spec obs) as H.
  destruct (foldl learn_span (∅, false) obs) as [idOf deg]. destruct H as (H1 & H2 & H3).
  pose proof (classify_spec idOf obs) as C. destruct (foldl (classify idOf) (∅, ∅) obs) as [ps ind].
  destruct C as (C1 & C2 & C3). cbn [degraded parents independent]. split; [done|split; [|done]].
  intros Hna. assert (Hid : forall ref f, lookup_identity idOf ref f <-> span_identity obs ref f).
  { intros ref f. split; [apply H1|]. intros Hs. unfold lookup_identity.
    destruct (H2 _ _ Hs) as [g Hg]. rewrite Hg. f_equal. destruct (decide (g = f)); [done|].
    destruct Hna. exists ref, g, f. eauto. }
  assert (Hb : forall o q, beneath (lookup_identity idOf) o q <-> beneath (span_identity obs) o q).
  { intros o q. unfold beneath. by rewrite Hid. }
  intros id. unfold parents_of. cbn [parents]. split; [intros q; rewrite C1|rewrite C2]; by setoid_rewrite Hb.
Qed.

Lemma span_identity_perm obs obs' ref fp : obs ≡ₚ obs' -> span_identity obs ref fp <-> span_identity obs' ref fp.
Proof. intros Hp. unfold span_identity. by setoid_rewrite Hp. Qed.

Lemma ambiguous_perm obs obs' : obs ≡ₚ obs' -> ambiguous obs <-> ambiguous obs'.
Proof. intros Hp. unfold ambiguous. by setoid_rewrite (span_identity_perm _ _ _ _ Hp). Qed.

(** Arrival order does not change an undegraded parentage. *)
Lemma parentage_perm obs obs' : obs ≡ₚ obs' -> ~ ambiguous obs ->
  buildBehaviorParentage obs = buildBehaviorParentage obs'.
Proof.
  intros Hp Hna. pose proof (parentage_spec obs) as H. pose proof (parentage_spec obs') as H'.
  cbn zeta in H, H'. destruct H as (D & S & E), H' as (D' & S' & E').
  specialize (S Hna). assert (Hna' : ~ ambiguous obs') by (by rewrite <- (ambiguous_perm _ _ Hp)).
  specialize (S' Hna').
  assert (Hb : forall o q, beneath (span_identity obs) o q <-> beneath (span_identity obs') o q).
  { intros o q. unfold beneath. by rewrite (span_identity_perm _ _ _ _ Hp). }
  destruct (buildBehaviorParentage obs) as [ps ind deg], (buildBehaviorParentage obs') as [ps' ind' deg'].
  unfold parents_of in *. cbn [parents independent degraded] in *. f_equal.
  - apply map_eq. intros id. destruct (S id) as [S1 _], (S' id) as [S1' _].
    assert (Heq : forall q, q ∈ (default ∅ (ps !! id) : gset string) <-> q ∈ (default ∅ (ps' !! id) : gset string)).
    { intros q. rewrite S1, S1'. setoid_rewrite Hb. by setoid_rewrite Hp. }
    destruct (ps !! id) as [s|] eqn:E1, (ps' !! id) as [s'|] eqn:E2; cbn in Heq; [|exfalso..|done].
    + f_equal. by apply set_eq.
    + apply (E _ _ E1), set_eq. set_solver.
    + apply (E' _ _ E2), set_eq. set_solver.
  - apply set_eq. intros id. destruct (S id) as [_ S2], (S' id) as [_ S2']. rewrite S2, S2'.
    setoid_rewrite Hb. by setoid_rewrite Hp.
  - destruct deg, deg'; try done; [destruct Hna; by apply D|destruct Hna'; by apply D'].
Qed.

(** ** Graphs *)
Definition edge (children : graph) (n c : string) : Prop := c ∈ kids children n.

(** How often [c] occurs in a list, and how many edges enter it from some nodes. *)
Definition occ (c : string) (l : list string) : Z := sumZ ((fun x => if decide (x = c) then 1 else 0) <$> l).
Definition indeg (children : graph) (ns : list string) (c : string) : Z :=
  sumZ ((fun n => occ c (kids children n)) <$> ns).

Lemma occ_cons c x l : occ c (x :: l) = (if decide (x = c) then 1 else 0) + occ c l.
Proof. done. Qed.
Lemma occ_nonneg c l : 0 <= occ c l.
Proof. apply sumZ_nonneg, Forall_fmap, Forall_forall. intros x _. cbn. destruct (decide _); lia. Qed.
Lemma occ_pos c l : c ∈ l <-> 0 < occ c l.
Proof.
  induction l as [|x l IH]; [split; [by intros ?%elem_of_nil|done]|].
  rewrite elem_of_cons, occ_cons, IH. pose proof (occ_nonneg c l). destruct (decide (x = c)) as [->|Hne].
  - split; [lia|by left].
  - split; [intros [?|?]; [congruence|lia]|intros; right; lia].
Qed.

Lemma indeg_cons children n ns c : indeg children (n :: ns) c = occ c (kids children n) + indeg children ns c.
Proof. done. Qed.
Lemma indeg_nonneg children ns c : 0 <= indeg children ns c.
Proof. apply sumZ_nonneg, Forall_fmap, Forall_forall. intros x _. apply occ_nonneg. Qed.
Lemma indeg_perm children ns ns' c : ns ≡ₚ ns' -> indeg children ns c = indeg children ns' c.
Proof. intros Hp. apply sumZ_perm. by rewrite Hp. Qed.
Lemma indeg_zero children ns c : indeg children ns c = 0 <-> forall n, n ∈ ns -> ~ edge children n c.
Proof.
  induction ns as [|n ns IH]; [split; [intros _ m Hm; by apply elem_of_nil in Hm|done]|].
  rewrite indeg_cons. pose proof (indeg_nonneg children ns c). pose proof (occ_nonneg c (kids children n)).
  pose proof (occ_pos c (kids children n)) as Ho. split.
  - intros E m [->|Hm]%elem_of_cons; [unfold edge; rewrite Ho; lia|apply IH; [lia|done]].
  - intros Hn. assert (~ edge children n c) as Hne by (apply Hn; by apply elem_of_cons; left).
    unfold edge in Hne. rewrite Ho in Hne.
    assert (indeg children ns c = 0) by (apply IH; intros m Hm; apply Hn; by apply elem_of_cons; right). lia.
Qed.

Lemma degree_insert m x n c : degree (<[x := n]> m) c = if decide (x = c) then n else degree m c.
Proof. unfold degree. destruct (decide (x = c)) as [->|Hne]; [by rewrite lookup_insert_eq|by rewrite lookup_insert_ne]. Qed.

Lemma increment_all ks : forall m,
  (forall c, degree (foldl increment m ks) c = degree m c + occ c ks) /\
  dom (foldl increment m ks) = dom m ∪ list_to_set ks.
Proof.
  induction ks as [|k ks IH]; intros m; cbn [foldl].
  - split; [intros c; unfold occ; cbn; lia|set_solver].
  - destruct (IH (increment m k)) as [H1 H2]. split.
    + intros c. rewrite H1, occ_cons. unfold increment. rewrite degree_insert. destruct (decide (k = c)) as [->|]; lia.
    + rewrite H2. unfold increment. rewrite dom_insert_L. set_solver.
Qed.

Lemma in_degrees_spec nodes children :
  (forall n c, n ∈ nodes -> edge children n c -> c ∈ nodes) ->
  (forall c, degree (in_degrees nodes children) c = indeg children nodes c) /\
  dom (in_degrees nodes children) = (list_to_set nodes : gset string).
Proof.
  intros Hclosed. unfold in_degrees.
  set (zeroes := foldl (fun (m : gmap string Z) id => <[id := 0]> m) ∅ nodes).
  assert (Hz : (forall c, degree zeroes c = 0) /\ dom zeroes = list_to_set nodes).
  { unfold zeroes. clear. assert (H : forall m : gmap string Z, (forall c, degree m c = 0) ->
      (forall c, degree (foldl (fun m id => <[id := 0]> m) m nodes) c = 0) /\
      dom (foldl (fun (m : gmap string Z) id => <[id := 0]> m) m nodes) = dom m ∪ list_to_set nodes).
    { induction nodes as [|n nodes IH]; intros m Hm; cbn; [split; [done|set_solver]|].
      destruct (IH (<[n := 0]> m)) as [H1 H2]; [intros c; rewrite degree_insert, Hm; by destruct (decide _)|].
      split; [done|]. rewrite H2, dom_insert_L. set_solver. }
    destruct (H ∅) as [H1 H2]; [intros c; unfold degree; by rewrite lookup_empty|].
    split; [done|]. rewrite H2. set_solver. }
  destruct Hz as [Hz Hd]. clearbody zeroes.
  assert (H : forall ns m, (forall n, n ∈ ns -> n ∈ nodes) -> dom m = (list_to_set nodes : gset string) ->
     (forall c, degree (foldl (fun m id => foldl increment m (kids children id)) m ns) c = degree m c + indeg children ns c) /\
     dom (foldl (fun m id => foldl increment m (kids children id)) m ns) = (list_to_set nodes : gset string)).
  { induction ns as [|n ns IH]; intros m Hns Hm; cbn [foldl].
    - split; [intros c; unfold indeg; cbn; lia|done].
    - destruct (increment_all (kids children n) m) as [E1 E2].
      destruct (IH (foldl increment m (kids children n))) as [H1 H2].
      + intros x Hx. apply Hns. by apply elem_of_cons; right.
      + rewrite E2, Hm. assert (Hk : forall c, c ∈ kids children n -> c ∈ nodes).
        { intros c Hc. apply (Hclosed n c); [apply Hns; by apply elem_of_cons; left|done]. }
        set_solver.
      + split; [|done]. intros c. rewrite H1, E1, indeg_cons. lia. }
  destruct (H nodes zeroes) as [H1 H2]; [done|done|]. split; [|done]. intros c. rewrite H1, Hz. lia.
Qed.

(** Releasing the children of a removed node: each loses its edges from it, and those
    left without any become ready, once. *)
Lemma release_all ks : forall m ready m' ready',
  (forall c, occ c ks <= degree m c) ->
  foldl release (m, ready) ks = (m', ready') ->
  (forall c, degree m' c = degree m c - occ c ks) /\
  exists pushed, ready' = (pushed ++ ready)%list /\ NoDup pushed /\
    forall c, c ∈ pushed <-> c ∈ ks /\ degree m c = occ c ks.
Proof.
  induction ks as [|k ks IH]; intros m ready m' ready' Hle H; cbn [foldl] in H.
  - injection H as <- <-. split; [intros c; unfold occ; cbn; lia|]. exists []. split; [done|].
    split; [constructor|]. intros c. split; [by intros ?%elem_of_nil|by intros [?%elem_of_nil _]].
  - unfold release at 2 in H. set (m1 := <[k := degree m k - 1]> m) in H.
    assert (Hm1 : forall c, degree m1 c = degree m c - if decide (k = c) then 1 else 0).
    { intros c. unfold m1. rewrite degree_insert. destruct (decide (k = c)) as [->|]; lia. }
    destruct (IH m1 _ m' ready' ltac:(intros c; specialize (Hle c); rewrite occ_cons in Hle; rewrite Hm1; destruct (decide _); lia) H)
      as (H1 & pushed & -> & Hnd & Hp). clear H.
    split; [intros c; rewrite H1, Hm1, occ_cons; lia|].
    rewrite Hm1, decide_True by done. destruct (Z.eqb_spec (degree m k - 1) 0) as [E|E].
    + exists (pushed ++ [k])%list. split; [by rewrite <- app_assoc|].
      assert (Hk : k ∉ pushed).
      { rewrite Hp, Hm1, decide_True by done. intros [Hin%occ_pos Eq]. lia. }
      split; [apply NoDup_app; split; [done|]; split; [intros x Hx ->%list_elem_of_singleton; done|by apply NoDup_singleton]|].
      intros c. rewrite elem_of_app, list_elem_of_singleton, Hp, Hm1, elem_of_cons, occ_cons.
      destruct (decide (k = c)) as [->|Hne].
      * specialize (Hle c). rewrite occ_cons, decide_True in Hle by done. pose proof (occ_nonneg c ks).
        split; [intros _; split; [by left|lia]|by right].
      * split; [intros [[? ?]|?]; [split; [by right|lia]|congruence]|intros [[?|?] ?]; [congruence|left; split; [done|lia]]].
    + exists pushed. split; [done|]. split; [done|]. intros c. rewrite Hp, Hm1, elem_of_cons, occ_cons.
      destruct (decide (k = c)) as [->|Hne].
      * split; [intros [? ?]; split; [by right|lia]|]. intros [_ Eq]. split; [|lia].
        apply occ_pos. pose proof (occ_nonneg c ks). lia.
      * split; [intros [? ?]; split; [by right|lia]|intros [[?|?] ?]; [congruence|split; [done|lia]]].
Qed.

Section kahn.
Context (nodes : list string) (children : graph).
Context (Hnd : NoDup nodes) (Hclosed : forall n c, n ∈ nodes -> edge children n c -> c ∈ nodes).

(** A removal order, newest first: each node's parents were removed before it. *)
Fixpoint topological (order : list string) : Prop :=
  match order with
  | [] => True
  | p :: order => (forall n, n ∈ nodes -> edge children n p -> n ∈ order) /\ topological order
  end.

Lemma topological_pred order p n : topological order -> p ∈ order -> n ∈ nodes -> edge children n p -> n ∈ order.
Proof.
  induction order as [|q order IH]; intros Ht Hp Hn He; [by apply elem_of_nil in Hp|].
  destruct Ht as [Hq Ht]. apply elem_of_cons. right. apply elem_of_cons in Hp as [->|Hp]; [by apply Hq|by apply IH].
Qed.

(** No node of a removal order lies on a cycle. *)
Lemma topological_acyclic order p : topological order -> NoDup order -> (forall q, q ∈ order -> q ∈ nodes) ->
  p ∈ order -> ~ tc (edge children) p p.
Proof.
  revert p. induction order as [|q order IH]; intros p Ht Hn Hin Hp Hc; [by apply elem_of_nil in Hp|].
  destruct Ht as [Hq Ht]. apply NoDup_cons in Hn as [Hqo Hn].
  assert (Hin' : forall x, x ∈ order -> x ∈ nodes) by (intros x Hx; apply Hin; by apply elem_of_cons; right).
  (* a path into [order] stays in [order], walked backwards *)
  assert (Hback : forall x y, tc (edge children) x y -> x ∈ nodes -> y ∈ order -> x ∈ order).
  { intros x y Hxy Hx Hy. assert (H : forall x y, tc (edge children) x y -> x ∈ nodes -> y ∈ nodes /\ (y ∈ order -> x ∈ order)).
    { clear x y Hxy Hx Hy. intros x y H. induction H as [x y Hxy|x y z Hxy Hyz IH2]; intros Hx.
      - split; [by eapply Hclosed|]. intros Hy. by eapply topological_pred.
      - assert (Hy : y ∈ nodes) by by eapply Hclosed. destruct (IH2 Hy) as [Hz Hzy]. split; [done|].
        intros Hz'. eapply topological_pred; [done|by apply Hzy|done|done]. }
    by apply (H x y). }
  apply elem_of_cons in Hp as [->|Hp]; [|by apply (IH p)].
  (* a cycle through [q]: its last edge enters [q], so it comes from [order] *)
  assert (Hqn : q ∈ nodes) by (apply Hin; by apply elem_of_cons; left).
  assert (Hlast : exists n, edge children n q /\ (n = q \/ tc (edge children) q n)).
  { clear -Hc. assert (H : forall x y, tc (edge children) x y -> exists n, edge children n y /\ (n = x \/ tc (edge children) x n)).
    { intros x y H. induction H as [x y Hxy|x y z Hxy Hyz IH2]; [exists x; by split; [|left]|].
      destruct IH2 as (n & Hn & Hor). exists n. split; [done|right].
      destruct Hor as [->|Hn']; [by apply tc_once|by eapply tc_l]. }
    by apply H. }
  destruct Hlast as (n & Hn' & [->|Hqn']).
  - apply Hqo. by apply Hq.
  - assert (Hno : n ∈ nodes).
    { clear -Hqn' Hqn Hclosed. induction Hqn' as [x y Hxy|x y z Hxy Hyz IH]; [by eapply Hclosed|]. apply IH. by eapply Hclosed. }
    apply Hqo. apply (Hback q n); [done|done|]. by apply Hq.
Qed.

Lemma kahn_run fuel : forall m ready removed order rem,
  nodes ≡ₚ order ++ rem -> NoDup ready ->
  (forall c, degree m c = indeg children rem c) ->
  (forall c, c ∈ ready <-> c ∈ rem /\ indeg children rem c = 0) ->
  topological order -> removed = Z.of_nat (length order) -> (length rem < fuel)%nat ->
  exists order' rem', nodes ≡ₚ order' ++ rem' /\ topological order' /\
    kahn fuel children m ready removed = Z.of_nat (length order') /\
    (forall c, c ∈ rem' -> exists n, n ∈ rem' /\ edge children n c).
Proof.
  induction fuel as [|fuel IH]; intros m ready removed order rem Hp Hr Hm Hready Ht -> Hf; [lia|].
  cbn [kahn]. destruct ready as [|id ready].
  - exists order, rem. split; [done|]. split; [done|]. split; [done|]. intros c Hc.
    destruct (decide (Exists (fun n => c ∈ kids children n) rem)) as [He|He].
    + apply Exists_exists in He as (n & ? & ?). by exists n.
    + exfalso. apply (elem_of_nil (A := string) c), Hready. split; [done|]. apply indeg_zero. intros n Hn Hc'.
      apply He, Exists_exists. by exists n.
  - destruct (foldl release (m, ready) (kids children id)) as [m' ready'] eqn:Er.
    apply NoDup_cons in Hr as [Hid Hr].
    destruct (proj1 (Hready id)) as [Hidr Hid0]; [by apply elem_of_cons; left|].
    apply elem_of_Permutation in Hidr as [rem' Hrem].
    assert (Hdeg : forall c, indeg children rem c = occ c (kids children id) + indeg children rem' c)
      by (intros c; by rewrite (indeg_perm _ _ _ _ Hrem), indeg_cons).
    assert (Hle : forall c, occ c (kids children id) <= degree m c).
    { intros c. rewrite Hm, Hdeg. pose proof (indeg_nonneg children rem' c). lia. }
    destruct (release_all _ _ _ _ _ Hle Er) as (Hm' & pushed & -> & Hpn & Hpush).
    assert (Hnodes : nodes ≡ₚ (id :: order) ++ rem') by (rewrite Hp, Hrem; cbn [app]; by rewrite Permutation_middle).
    assert (Hnd' : NoDup ((id :: order) ++ rem')) by (by rewrite <- Hnodes).
    apply NoDup_app in Hnd' as (_ & Hdisj & Hnr).
    assert (Hedge0 : forall n, n ∈ rem -> ~ edge children n id) by (by apply indeg_zero).
    assert (Hidn : id ∈ nodes) by (rewrite Hnodes; by apply elem_of_app; left; apply elem_of_cons; left).
    assert (Htop : topological (id :: order)).
    { split; [|done]. intros n Hn He. rewrite Hp in Hn. apply elem_of_app in Hn as [?|Hn]; [done|].
      by destruct (Hedge0 n Hn). }
    apply (IH m' _ _ (id :: order) rem'); [done| | | |done|cbn [length]; lia|apply Permutation_length in Hrem; cbn in Hrem; lia].
    + apply NoDup_app. split; [done|]. split; [|done]. intros c [Hc Ec]%Hpush Hcr.
      assert (Hc0 : c ∈ rem /\ indeg children rem c = 0) by (apply Hready; by apply elem_of_cons; right).
      destruct Hc0 as [_ Hc0]. rewrite Hdeg in Hc0. apply occ_pos in Hc. pose proof (indeg_nonneg children rem' c). lia.
    + intros c. rewrite Hm', Hm, Hdeg. lia.
    + intros c. rewrite elem_of_app, Hpush, Hm, Hdeg. split.
      * intros [[Hc Ec]|Hc].
        -- split; [|lia]. assert (Hcn : c ∈ nodes) by by eapply Hclosed.
           rewrite Hnodes in Hcn. apply elem_of_app in Hcn as [Hcn|?]; [exfalso|done].
           apply elem_of_cons in Hcn as [->|Hcn].
           ++ apply (Hedge0 id); [|done]. rewrite Hrem. by apply elem_of_cons; left.
           ++ apply (Hdisj id); [by apply elem_of_cons; left|]. exfalso.
              assert (Hio : id ∈ order) by by eapply topological_pred.
              assert (Hnd2 : NoDup (id :: order ++ rem')) by (by rewrite <- app_comm_cons in Hnodes; rewrite <- Hnodes).
              apply NoDup_cons in Hnd2 as [Hni _]. apply Hni, elem_of_app. by left.
        -- destruct (proj1 (Hready c)) as [Hcr Hc0]; [by apply elem_of_cons; right|].
           rewrite Hdeg in Hc0. pose proof (indeg_nonneg children rem' c). pose proof (occ_nonneg c (kids children id)).
           split; [|lia]. rewrite Hrem in Hcr. apply elem_of_cons in Hcr as [->|?]; done.
      * intros [Hc Hc0]. destruct (decide (c ∈ kids children id)) as [Hk|Hk]; [left; split; [done|lia]|right].
        assert (Hcr : c ∈ id :: ready).
        { apply Hready. split; [rewrite Hrem; by apply elem_of_cons; right|]. rewrite Hdeg.
          rewrite occ_pos in Hk. pose proof (occ_nonneg c (kids children id)). lia. }
        apply elem_of_cons in Hcr as [->|?]; [|done]. by destruct (Hdisj id); [apply elem_of_cons; left|].
Qed.
End kahn.

(** Walking up the parents of an acyclic graph ends. *)
Definition parent_in (children : graph) (ns : list string) (c n : string) : Prop := n ∈ ns /\ edge children n c.

Lemma parents_end children ns x : (forall n, ~ tc (edge children) n n) -> sn (parent_in children ns) x.
Proof.
  intros Hac.
  assert (Hrev : forall x y, tc (parent_in children ns) x y -> y ∈ ns /\ tc (edge children) y x).
  { intros a b H. induction H as [a b [Hb He]|a b c [Hb He] Hbc IH].
    - split; [done|by apply tc_once].
    - destruct IH as [Hc Hcb]. split; [done|]. by eapply tc_r. }
  apply tc_finite_sn.
  - intros y Hy. apply Hrev in Hy as [_ Hy]. by apply (Hac y).
  - exists ns. intros y Hy. by apply Hrev in Hy as [? _].
Qed.

(** The cycle check is right, and its fuel is enough. *)
Lemma hasCycle_acyclic nodes children : NoDup nodes ->
  (forall n c, n ∈ nodes -> edge children n c -> c ∈ nodes) ->
  (forall n c, edge children n c -> n ∈ nodes) ->
  hasCycle nodes children = false <-> forall n, ~ tc (edge children) n n.
Proof.
  intros Hnd Hclosed Hsrc. unfold hasCycle.
  destruct (in_degrees_spec nodes children Hclosed) as [Hdeg Hdom].
  set (m := in_degrees nodes children) in *.
  set (ready := foldl (fun ready id => if degree m id =? 0 then id :: ready else ready) [] nodes).
  assert (Hr : NoDup ready /\ forall c, c ∈ ready <-> c ∈ nodes /\ indeg children nodes c = 0).
  { unfold ready. assert (H : forall acc, NoDup acc -> (forall c, c ∈ acc -> c ∉ nodes) ->
      NoDup (foldl (fun ready id => if degree m id =? 0 then id :: ready else ready) acc nodes) /\
      forall c, c ∈ foldl (fun ready id => if degree m id =? 0 then id :: ready else ready) acc nodes <->
                c ∈ acc \/ (c ∈ nodes /\ indeg children nodes c = 0)).
    { setoid_rewrite <- Hdeg. clearbody m. clear -Hnd. induction nodes as [|n nodes IH]; intros acc Ha Hd; cbn [foldl].
      - split; [done|]. intros c. split; [by left|]. intros [?|[Hc _]]; [done|by apply elem_of_nil in Hc].
      - apply NoDup_cons in Hnd as [Hn Hnd]. destruct (Z.eqb_spec (degree m n) 0) as [E|E].
        + destruct (IH Hnd (n :: acc)) as [H1 H2].
          * apply NoDup_cons. split; [|done]. intros Hna. apply (Hd n Hna). by apply elem_of_cons; left.
          * intros c [->|Hc]%elem_of_cons; [done|]. intros Hcn. apply (Hd c Hc). by apply elem_of_cons; right.
          * split; [done|]. intros c. rewrite H2, !elem_of_cons. split; [naive_solver|].
            intros [?|[[->|?] ?]]; [by left; right|by left; left|by right].
        + destruct (IH Hnd acc Ha) as [H1 H2].
          * intros c Hc Hcn. apply (Hd c Hc). by apply elem_of_cons; right.
          * split; [done|]. intros c. rewrite H2, elem_of_cons. split; [naive_solver|].
            intros [?|[[->|?] ?]]; [by left|done|by right]. }
    destruct (H [] ltac:(constructor) ltac:(by intros c ?%elem_of_nil)) as [H1 H2]. split; [done|].
    intros c. rewrite H2. split; [intros [?%elem_of_nil|?]; done|by right]. }
  destruct Hr as [Hrn Hr].
  destruct (kahn_run nodes children Hnd Hclosed (S (length nodes)) m ready 0 [] nodes) as (order & rem & Hp & Ht & -> & Hrem);
    [done|done|done|done|done|done|lia|].
  assert (Hsize : size m = length nodes).
  { rewrite <- size_dom, Hdom. by apply size_list_to_set. }
  rewrite Hsize, (Permutation_length Hp), length_app, Z.ltb_ge. split.
  - intros Hle. assert (rem = []) as -> by (destruct rem; [done|cbn in Hle; lia]). rewrite app_nil_r in Hp.
    intros n Hc. assert (Hn : n ∈ order).
    { rewrite <- Hp. assert (H : forall x y, tc (edge children) x y -> x ∈ nodes); [|by apply (H n n)].
      intros x y H. destruct H as [x y Hxy|x y z Hxy _]; exact (Hsrc _ _ Hxy). }
    eapply (topological_acyclic nodes children); [exact Hclosed|exact Ht|by rewrite <- Hp| |exact Hn|exact Hc].
    intros q Hq. by rewrite Hp.
  - intros Hac. destruct rem as [|c rem']; [cbn; lia|exfalso].
    remember (c :: rem') as rem. assert (Hc : c ∈ rem) by (subst; by apply elem_of_cons; left). clear Heqrem.
    pose proof (parents_end children rem c Hac) as Hsn. revert Hc. induction Hsn as [c _ IHc]. intros Hc.
    destruct (Hrem c Hc) as (n & Hn & He). by apply (IHc n).
Qed.

(** ** reachableFrom lists exactly what is reachable *)
Lemma visit_all ks : forall seen stack seen' stack',
  foldl visit (seen, stack) ks = (seen', stack') ->
  exists pushed, stack' = (pushed ++ stack)%list /\ NoDup pushed /\
    (forall c, c ∈ pushed <-> c ∈ ks /\ c ∉ seen) /\ seen' = list_to_set pushed ∪ seen.
Proof.
  induction ks as [|k ks IH]; intros seen stack seen' stack' H; cbn [foldl] in H.
  - injection H as <- <-. exists []. split; [done|]. split; [constructor|]. split; [|set_solver].
    intros c. split; [by intros ?%elem_of_nil|by intros [?%elem_of_nil _]].
  - unfold visit at 2 in H. case_bool_decide as Hk.
    + destruct (IH _ _ _ _ H) as (pushed & -> & Hn & Hc & ->). exists pushed. split; [done|]. split; [done|].
      split; [|done]. intros c. rewrite Hc, elem_of_cons. split; [tauto|]. intros [[->|?] ?]; [done|tauto].
    + destruct (IH _ _ _ _ H) as (pushed & -> & Hn & Hc & ->). exists (pushed ++ [k])%list.
      split; [by rewrite <- app_assoc|]. split; [|split].
      * apply NoDup_app. split; [done|]. split; [|apply NoDup_singleton]. intros x [_ Hx]%Hc ->%list_elem_of_singleton.
        set_solver.
      * intros c. rewrite elem_of_app, list_elem_of_singleton, Hc, elem_of_cons. split.
        -- intros [[? ?]| ->]; [split; [by right|set_solver]|split; [by left|done]].
        -- intros [[->|?] ?]; [by right|]. destruct (decide (c = k)) as [->|]; [by right|left; split; [done|set_solver]].
      * rewrite list_to_set_app_L. set_solver.
Qed.

Lemma kids_universe root children n c : edge children n c -> c ∈ universe root children.
Proof.
  unfold edge, kids, universe. intros Hc. apply elem_of_union. right. apply elem_of_list_to_set.
  destruct (children !! n) as [l|] eqn:E; cbn in Hc; [|by apply elem_of_nil in Hc].
  apply list_elem_of_join. exists l. split; [done|]. apply list_elem_of_fmap. exists (n, l).
  split; [done|]. by apply elem_of_map_to_list.
Qed.

Lemma explore_spec root children fuel : forall seen stack,
  root ∈ seen -> (forall x, x ∈ stack -> x ∈ seen) -> NoDup stack ->
  (forall x, x ∈ seen -> rtc (edge children) root x) ->
  (forall x c, x ∈ seen -> x ∉ stack -> edge children x c -> c ∈ seen) ->
  seen ⊆ universe root children ->
  (size (universe root children ∖ seen) + length stack < fuel)%nat ->
  forall x, x ∈ explore fuel children seen stack <-> rtc (edge children) root x.
Proof.
  induction fuel as [|fuel IH]; intros seen stack Hroot Hst Hns Hsound Hclosed Hu Hf; [lia|].
  cbn [explore]. destruct stack as [|id stack].
  - intros x. split; [apply Hsound|]. intros Hx.
    refine (rtc_ind_r (fun x => x ∈ seen) root Hroot _ x Hx). intros y z _ Hyz IHy.
    eapply Hclosed; [exact IHy| |exact Hyz]. by intros ?%elem_of_nil.
  - destruct (foldl visit (seen, stack) (kids children id)) as [seen' stack'] eqn:E.
    destruct (visit_all _ _ _ _ _ E) as (pushed & -> & Hnp & Hp & ->).
    apply NoDup_cons in Hns as [Hid Hns].
    assert (Hids : id ∈ seen) by (apply Hst; by apply elem_of_cons; left).
    assert (Hpu : forall c, c ∈ pushed -> c ∈ universe root children).
    { intros c [Hc _]%Hp. by eapply kids_universe. }
    assert (Hpn : forall c, c ∈ pushed -> c ∉ seen) by (by intros c [_ ?]%Hp).
    apply IH.
    + set_solver.
    + intros x [Hx|Hx]%elem_of_app; [set_solver|]. apply elem_of_union. right. apply Hst. by apply elem_of_cons; right.
    + apply NoDup_app. split; [done|]. split; [|done]. intros x Hx Hxs. apply (Hpn x Hx), Hst. by apply elem_of_cons; right.
    + intros x [Hx|Hx]%elem_of_union; [|by apply Hsound]. apply elem_of_list_to_set, Hp in Hx as [Hx _].
      eapply rtc_r; [by apply Hsound|exact Hx].
    + intros x c Hx Hxs Hc. rewrite elem_of_app in Hxs.
      destruct (decide (c ∈ seen)) as [Hcs|Hcs]; [set_solver|]. apply elem_of_union. left. apply elem_of_list_to_set.
      apply elem_of_union in Hx as [Hx|Hx]; [apply elem_of_list_to_set in Hx; tauto|].
      destruct (decide (x = id)) as [->|Hne]; [by apply Hp|].
      exfalso. apply Hcs. eapply (Hclosed x); [done| |done]. intros [->|?]%elem_of_cons; [done|tauto].
    + set_solver.
    + cbn [length] in Hf. rewrite length_app.
      assert (Hsz : (size (universe root children ∖ (list_to_set pushed ∪ seen)) + length pushed)%nat =
                    size (universe root children ∖ seen)).
      { rewrite <- (size_list_to_set (C := gset string) pushed Hnp), <- size_union by set_solver.
        f_equal. apply set_eq. intros y. rewrite elem_of_union, !elem_of_difference, elem_of_union, elem_of_list_to_set.
        destruct (decide (y ∈ pushed)); [|tauto]. split; [intros _; split; [by apply Hpu|by apply Hpn]|by right]. }
      lia.
Qed.

Lemma reachableFrom_spec root children x : x ∈ reachableFrom root children <-> rtc (edge children) root x.
Proof.
  unfold reachableFrom. rewrite sort_strings_perm, elem_of_elements.
  assert (root ∈ universe root children) as Hr by (unfold universe; set_solver).
  apply explore_spec.
  - set_solver.
  - intros y ->%list_elem_of_singleton. set_solver.
  - apply NoDup_singleton.
  - intros y Hy. apply elem_of_singleton in Hy as ->. apply rtc_refl.
  - intros y c Hy Hn. apply elem_of_singleton in Hy as ->. destruct Hn. by apply list_elem_of_singleton.
  - set_solver.
  - rewrite size_difference by set_solver. rewrite size_singleton. cbn [length].
    assert (size (universe root children) <> 0%nat) by (rewrite size_non_empty_iff; set_solver). lia.
Qed.

(** ** The added subgraph *)
Lemma add_child_edge p inAdded acc child q c :
  edge (add_child p inAdded acc child) q c <->
  edge acc q c \/ (c = child /\ q ∈ inAdded /\ q ∈ parents_of p child).
Proof.
  unfold add_child. rewrite <- (elem_of_elements (parents_of p child) q). generalize (elements (parents_of p child)) as qs.
  intros qs. revert acc. induction qs as [|q0 qs IH]; intros acc; cbn [foldl].
  - split; [by left|]. intros [?|(_ & _ & Hq)]; [done|by apply elem_of_nil in Hq].
  - rewrite IH, elem_of_cons. case_bool_decide as Hq0; [|split; [tauto|intros [?|(? & ? & [->|?])]; tauto]].
    assert (He : edge (<[q0:=(kids acc q0 ++ [child])%list]> acc) q c <-> edge acc q c \/ (q = q0 /\ c = child)).
    { unfold edge. unfold kids at 1. destruct (decide (q = q0)) as [->|Hne].
      - rewrite lookup_insert_eq. cbn. rewrite elem_of_app, list_elem_of_singleton. tauto.
      - rewrite lookup_insert_ne by done. fold (kids acc q). tauto. }
    rewrite He. split; [|tauto]. intros [[?|[-> ->]]|?]; tauto.
Qed.

Lemma addedChildren_edge p added q c :
  edge (addedChildren p added) q c <-> c ∈ added /\ q ∈ added /\ q ∈ parents_of p c.
Proof.
  unfold addedChildren.
  assert (Hs : forall (m : graph), edge (sort_strings <$> m) q c <-> edge m q c).
  { intros m. unfold edge, kids. rewrite lookup_fmap. destruct (m !! q); cbn; [by rewrite sort_strings_perm|done]. }
  rewrite Hs. clear Hs. set (inAdded := list_to_set added : gset string).
  assert (H : forall l (acc : graph), edge (foldl (add_child p inAdded) acc l) q c <->
             edge acc q c \/ (c ∈ l /\ q ∈ inAdded /\ q ∈ parents_of p c)).
  { induction l as [|x l IH]; intros acc; cbn [foldl].
    - split; [by left|]. intros [?|[Hc _]]; [done|by apply elem_of_nil in Hc].
    - rewrite IH, add_child_edge, elem_of_cons. split; [naive_solver|].
      intros [?|[[->|?] ?]]; tauto. }
  rewrite H. unfold inAdded. rewrite elem_of_list_to_set. split; [|tauto].
  intros [He|?]; [|tauto]. unfold edge, kids in He. rewrite lookup_empty in He. by apply elem_of_nil in He.
Qed.

Lemma unfoldedChanges_spec added :
  (RootFingerprintID <$> unfoldedChanges added) ≡ₚ added /\
  (forall c, c ∈ unfoldedChanges added -> ContributingFingerprintIDs c = [RootFingerprintID c]).
Proof.
  unfold unfoldedChanges. split.
  - rewrite sort_by_perm, <- list_fmap_compose. cbn. by rewrite list_fmap_id.
  - intros c Hc. apply elem_of_sort_by in Hc. by apply list_elem_of_fmap in Hc as (id & -> & _).
Qed.

(** The fold succeeded: nothing was ambiguous, incomplete or cyclic. *)
Lemma foldAddedChanges_cases added p state :
  let r := foldAddedChanges added p state in
  (r.2 = CorrelationComplete /\ state = CorrelationComplete /\ degraded p = false /\
   hasCycle added (addedChildren p added) = false /\
   (RootFingerprintID <$> r.1) ≡ₚ List.filter (fun id => negb (foldEligible p id (list_to_set added))) added /\
   forall c, c ∈ r.1 -> RootFingerprintID c ∈ added /\
     ContributingFingerprintIDs c = reachableFrom (RootFingerprintID c) (addedChildren p added)) \/
  (r.2 <> CorrelationComplete /\ r.1 = unfoldedChanges added).
Proof.
  unfold foldAddedChanges, folded. destruct (String.eqb_spec state CorrelationComplete) as [->|Hne]; cbn [negb orb].
  2: { right. cbn. split; [|done]. by destruct (degraded p); cbn. }
  destruct (degraded p) eqn:Ed; [by right|].
  destruct (hasCycle _ _) eqn:Ec; [by right|]. left. cbn [fst snd].
  split; [done|]. split; [done|]. split; [done|]. split; [done|]. split.
  - rewrite sort_by_perm, <- list_fmap_compose. cbn. by rewrite list_fmap_id.
  - intros c Hc. apply elem_of_sort_by in Hc. apply list_elem_of_fmap in Hc as (id & -> & Hid).
    cbn. split; [|done]. apply list_elem_of_In, filter_In in Hid as [Hid _]. by apply list_elem_of_In.
Qed.

Lemma hasCycle_added p added : NoDup added ->
  hasCycle added (addedChildren p added) = false <-> forall n, ~ tc (edge (addedChildren p added)) n n.
Proof.
  intros Hnd. apply hasCycle_acyclic; [done| |].
  - intros n c _ He. by apply addedChildren_edge in He as [? _].
  - intros n c He. by apply addedChildren_edge in He as (_ & ? & _).
Qed.

Lemma foldEligible_spec p id added :
  foldEligible p id (list_to_set added) = true <->
  id ∉ independent p /\ (exists q, q ∈ parents_of p id) /\ forall q, q ∈ parents_of p id -> q ∈ added.
Proof.
  unfold foldEligible. case_bool_decide as Hi; [split; [done|tauto]|].
  case_bool_decide as Hz.
  - split; [done|]. intros (_ & [q Hq] & _). apply size_empty_inv in Hz. set_solver.
  - rewrite bool_decide_eq_true. split.
    + intros Hs. split; [done|]. split; [by apply size_pos_elem_of; lia|]. intros q Hq. apply Hs in Hq.
      by apply elem_of_list_to_set in Hq.
    + intros (_ & _ & Hq) q Hin. apply elem_of_list_to_set. by apply Hq.
Qed.

(** In an acyclic subgraph every added identity is reached from one that is counted. *)
Lemma covered_by_root p added id : (forall n, ~ tc (edge (addedChildren p added)) n n) ->
  id ∈ added ->
  exists root, root ∈ added /\ foldEligible p root (list_to_set added) = false /\
    rtc (edge (addedChildren p added)) root id.
Proof.
  intros Hac. pose proof (parents_end (addedChildren p added) added id Hac) as Hsn.
  induction Hsn as [id _ IH]. intros Hid.
  destruct (foldEligible p id (list_to_set added)) eqn:E; [|exists id; split; [done|]; by split].
  apply foldEligible_spec in E as (_ & [q Hq] & Hall). specialize (Hall q Hq).
  assert (He : edge (addedChildren p added) q id) by (apply addedChildren_edge; by split).
  destruct (IH q (conj Hall He) Hall) as (root & H1 & H2 & H3). exists root. split; [done|]. split; [done|].
  by eapply rtc_r.
Qed.

Lemma reachable_added p added root id : root ∈ added -> rtc (edge (addedChildren p added)) root id -> id ∈ added.
Proof.
  intros Hr H. refine (rtc_ind_r (fun x => x ∈ added) root Hr _ id H).
  intros y z _ He _. by apply addedChildren_edge in He as [? _].
Qed.

Lemma beneath_unique obs o q q' : ~ ambiguous obs ->
  beneath (span_identity obs) o q -> beneath (span_identity obs) o q' -> q = q'.
Proof.
  intros Hna (_ & _ & _ & H) (_ & _ & _ & H'). destruct (decide (q = q')); [done|].
  destruct Hna. by exists (O_TraceID o, O_ParentSpanID o), q, q'.
Qed.

(** Every retained occurrence of [id] lies beneath an added identity, and there is one. *)
Definition explained (obs : list Observation) (added : list string) (id : string) : Prop :=
  (exists o, o ∈ obs /\ O_FingerprintID o = id) /\
  forall o, o ∈ obs -> O_FingerprintID o = id -> exists q, q ∈ added /\ beneath (span_identity obs) o q.

(** Whether an occurrence has a parent is decidable: it is read off the list. *)
Lemma span_beneath_dec obs o : (exists q, beneath (span_identity obs) o q) \/ (forall q, ~ beneath (span_identity obs) o q).
Proof.
  unfold beneath.
  destruct (decide (O_ParentSpanID o = "")) as [E|E]; [right; tauto|].
  destruct (decide (O_TraceID o = "")) as [E2|E2]; [right; tauto|].
  destruct (decide (Exists (fun f => f <> O_FingerprintID o) 
    (O_FingerprintID <$> List.filter (fun o' => (O_TraceID o' =s O_TraceID o)%go && (O_SpanID o' =s O_ParentSpanID o)%go
       && (O_FingerprintID o' <>s "")%go) obs))) as [He|He].
  - left. apply Exists_exists in He as (f & Hf & Hne). apply list_elem_of_fmap in Hf as (o' & -> & Ho').
    apply list_elem_of_In, filter_In in Ho' as [Ho' Hc]. rewrite !andb_true_iff, negb_true_iff, !String.eqb_eq, String.eqb_neq in Hc.
    destruct Hc as [[Et Es] Ef]. exists (O_FingerprintID o'). split; [done|]. split; [done|]. split; [done|].
    exists o'. split; [by apply list_elem_of_In|]. by rewrite <- Et, <- Es in *.
  - right. intros q (_ & _ & Hq & o' & Ho' & (Ht & Hs & Hf & Href & Hfp)). apply He, Exists_exists.
    exists q. split; [|done]. apply list_elem_of_fmap. exists o'. split; [done|].
    apply list_elem_of_In, filter_In. split; [by apply list_elem_of_In|]. injection Href as -> ->.
    rewrite !String.eqb_refl. cbn. by apply negb_true_iff, String.eqb_neq.
Qed.

Lemma foldEligible_explained obs added id : ~ ambiguous obs -> id <> "" ->
  foldEligible (buildBehaviorParentage obs) id (list_to_set added) = true <-> explained obs added id.
Proof.
  intros Hna Hid. destruct (parentage_spec obs) as (_ & Hspec & _). destruct (Hspec Hna id) as [Hpar Hind].
  rewrite foldEligible_spec. unfold explained. split.
  - intros (Hni & [q0 Hq0] & Hall). apply Hpar in Hq0 as (_ & o0 & Ho0 & E0 & _). split; [by exists o0|].
    intros o Ho E. 
    destruct (span_beneath_dec obs o) as [[q Hq]|Hno].
    + exists q. split; [|done]. apply Hall, Hpar. split; [done|]. by exists o.
    + destruct Hni. apply Hind. split; [done|]. exists o. split; [done|]. by split.
  - intros ([o0 [Ho0 E0]] & Hall). split; [|split].
    + intros (_ & o & Ho & E & Hno)%Hind. destruct (Hall o Ho E) as (q & _ & Hq). by apply (Hno q).
    + destruct (Hall o0 Ho0 E0) as (q & _ & Hq). exists q. apply Hpar. split; [done|]. by exists o0.
    + intros q (_ & o & Ho & E & Hq)%Hpar. destruct (Hall o Ho E) as (q' & Hq' & Hb).
      by rewrite (beneath_unique obs o q q').
Qed.

(** Counted changes cover the added identities and never outnumber them. *)
Lemma fold_bounds added p state : NoDup added ->
  let changes := (foldAddedChanges added p state).1 in
  NoDup (RootFingerprintID <$> changes) /\
  (forall c, c ∈ changes -> forall id, id ∈ ContributingFingerprintIDs c -> id ∈ added) /\
  (forall c, c ∈ changes -> RootFingerprintID c ∈ ContributingFingerprintIDs c) /\
  (forall id, id ∈ added -> exists c, c ∈ changes /\ id ∈ ContributingFingerprintIDs c) /\
  (length changes <= length added)%nat.
Proof.
  intros Hnd. pose proof (foldAddedChanges_cases added p state) as H. cbn zeta in H |- *.
  destruct H as [(_ & _ & _ & Hc & Hroots & Hch)|[_ ->]].
  - pose proof (proj1 (hasCycle_added p added Hnd) Hc) as Hac.
    split; [rewrite Hroots; by apply NoDup_ListNoDup, List.NoDup_filter, NoDup_ListNoDup|].
    split; [|split; [|split]].
    + intros c (Hr & ->)%Hch id Hid. apply reachableFrom_spec in Hid. by eapply reachable_added.
    + intros c (Hr & ->)%Hch. apply reachableFrom_spec, rtc_refl.
    + intros id Hid. destruct (covered_by_root p added id Hac Hid) as (root & Hr & He & Hrtc).
      assert (Hin : root ∈ RootFingerprintID <$> (foldAddedChanges added p state).1).
      { rewrite Hroots. apply list_elem_of_In, filter_In. rewrite He. split; [by apply list_elem_of_In|done]. }
      apply list_elem_of_fmap in Hin as (c & -> & Hcin). exists c. split; [done|].
      destruct (Hch c Hcin) as [_ ->]. by apply reachableFrom_spec.
    + rewrite <- (length_fmap RootFingerprintID), Hroots. apply filter_length_le.
  - destruct (unfoldedChanges_spec added) as [Hroots Hcon].
    assert (Hin : forall c, c ∈ unfoldedChanges added -> RootFingerprintID c ∈ added).
    { intros c Hc. rewrite <- Hroots. by apply list_elem_of_fmap_2. }
    split; [by rewrite Hroots|]. split; [|split; [|split]].
    + intros c Hc id. rewrite (Hcon c Hc). intros ->%list_elem_of_singleton. by apply Hin.
    + intros c Hc. rewrite (Hcon c Hc). by apply list_elem_of_singleton.
    + intros id Hid. rewrite <- Hroots in Hid. apply list_elem_of_fmap in Hid as (c & -> & Hc). exists c.
      split; [done|]. rewrite (Hcon c Hc). by apply list_elem_of_singleton.
    + by rewrite <- (length_fmap RootFingerprintID), Hroots.
Qed.

(** The arithmetic check of a correlated comparison never fires. *)
Lemma fold_arithmetic added p state : NoDup added ->
  validateChangeCountArithmetic (Z.of_nat (length added))
    (Z.of_nat (length (foldAddedChanges added p state).1)) = Ok tt.
Proof.
  intros Hnd. destruct (fold_bounds added p state Hnd) as (_ & _ & _ & Hcov & Hle). cbn zeta in Hcov, Hle.
  set (changes := (foldAddedChanges added p state).1) in *. unfold validateChangeCountArithmetic.
  destruct (Z.ltb_spec (Z.of_nat (length changes)) 0); [lia|].
  destruct (Z.ltb_spec (Z.of_nat (length added)) (Z.of_nat (length changes))); [lia|]. cbn [fail_if mbind res_bind].
  destruct (Z.ltb_spec 0 (Z.of_nat (length added))); [|done].
  destruct (Z.eqb_spec (Z.of_nat (length changes)) 0) as [E|E]; [exfalso|done].
  destruct added as [|id added]; [done|]. destruct (Hcov id) as (c & Hc & _); [by apply elem_of_cons; left|].
  destruct changes; [by apply elem_of_nil in Hc|done].
Qed.

(** ** Properties *)

(** C20: the counting rule. Over the distinct, named added identities of a comparison, a
    fold that reports complete correlation counts exactly the added identities that are
    not explained - an identity is explained when it has retained occurrences and every
    one of them lies, by its recorded parent span in its own trace, beneath another added
    identity; no span was then ambiguous. In every case the count never exceeds the added
    identities, every added identity contributes to a counted change, every contributor
    is added; and whenever the correlation is not complete each added identity is its own
    change. *)
Theorem counting_rule obs added state :
  NoDup added -> "" ∉ added ->
  let '(changes, state') := foldAddedChanges added (buildBehaviorParentage obs) state in
  (state' = CorrelationComplete ->
     ~ ambiguous obs /\
     forall id, id ∈ RootFingerprintID <$> changes <-> id ∈ added /\ ~ explained obs added id) /\
  (state' <> CorrelationComplete -> changes = unfoldedChanges added) /\
  (length changes <= length added)%nat /\
  (forall id, id ∈ added <-> exists c, c ∈ changes /\ id ∈ ContributingFingerprintIDs c).
Proof.
  intros Hnd Hne. set (p := buildBehaviorParentage obs).
  pose proof (foldAddedChanges_cases added p state) as Hcases. cbn zeta in Hcases.
  pose proof (fold_bounds added p state Hnd) as Hb. cbn zeta in Hb.
  destruct (foldAddedChanges added p state) as [changes state']. cbn [fst snd] in *.
  destruct Hb as (_ & H1 & _ & H2 & H3). split; [|split; [|split; [done|]]].
  - intros ->. destruct Hcases as [(_ & _ & Hd & _ & Hroots & _)|[? _]]; [|done].
    destruct (parentage_spec obs) as (Hdeg & _).
    assert (Hna : ~ ambiguous obs) by (rewrite <- Hdeg; fold p; by rewrite Hd).
    split; [done|]. intros id. rewrite Hroots, list_elem_of_In, filter_In, <- list_elem_of_In.
    split; intros [Hid Hf]; (split; [done|]); assert (id <> "") by (by intros ->).
    + rewrite <- foldEligible_explained by done. fold p. destruct (foldEligible _ _ _); done.
    + rewrite <- foldEligible_explained in Hf by done. fold p in Hf. destruct (foldEligible _ _ _); done.
  - intros Hs. by destruct Hcases as [(-> & _)|[_ ->]].
  - intros id. split; [apply H2|]. intros (c & Hc & Hid). by eapply H1.
Qed.

Lemma counting_rule_witness :
  let obs := [example_observation 1 "tool" "t" "s1" ""; example_observation 2 "http" "t" "s2" "s1"] in
  explained obs ["http"; "tool"] "http".
Proof.
  intros obs.
  assert (Hnd : NoDup ["http"; "tool"]) by (repeat constructor; set_solver).
  pose proof (counting_rule obs ["http"; "tool"] CorrelationComplete Hnd ltac:(set_solver)) as H.
  destruct (foldAddedChanges ["http"; "tool"] (buildBehaviorParentage obs) CorrelationComplete) as [changes st] eqn:E.
  vm_compute in E. injection E as <- <-. destruct H as (H & _). destruct (H eq_refl) as [Hna Hroot].
  apply foldEligible_explained; [exact Hna|discriminate|by vm_compute].
Defined.

(** arrival order does not matter: the counted changes and the reported correlation
    are the same for any permutation of a run's observations. *)
Theorem counting_order_independent obs obs' added state :
  obs ≡ₚ obs' ->
  foldAddedChanges added (buildBehaviorParentage obs) state =
  foldAddedChanges added (buildBehaviorParentage obs') state.
Proof.
  intros Hp. destruct (parentage_spec obs) as (Hd & _), (parentage_spec obs') as (Hd' & _).
  destruct (degraded (buildBehaviorParentage obs)) eqn:E.
  - assert (E' : degraded (buildBehaviorParentage obs') = true)
      by (apply Hd', (ambiguous_perm _ _ Hp), Hd; done).
    unfold foldAddedChanges. by rewrite E, E', orb_true_r.
  - by rewrite (parentage_perm obs obs' Hp) by (rewrite <- Hd; done).
Qed.

Lemma counting_order_independent_witness :
  let a := example_observation 1 "tool" "t" "s1" "" in
  let b := example_observation 2 "http" "t" "s2" "s1" in
  foldAddedChanges ["http"; "tool"] (buildBehaviorParentage [a; b]) CorrelationComplete =
  foldAddedChanges ["http"; "tool"] (buildBehaviorParentage [b; a]) CorrelationComplete.
Proof. intros a b. apply (counting_order_independent [a; b] [b; a]). apply Permutation_swap. Defined.

(** the graph walks of the fold are exact and end within their bounds: over distinct
    nodes that hold every edge's ends, the cycle check answers no exactly when no node
    reaches itself; and the walk from a root lists, sorted and without repetition, exactly
    what is reachable from it. *)
Theorem graph_walks_exact nodes children root :
  NoDup nodes -> (forall n c, edge children n c -> n ∈ nodes /\ c ∈ nodes) ->
  (hasCycle nodes children = false <-> forall n, ~ tc (edge children) n n) /\
  (forall x, x ∈ reachableFrom root children <-> rtc (edge children) root x) /\
  NoDup (reachableFrom root children) /\ StronglySorted String.le (reachableFrom root children).
Proof.
  intros Hnd He. split; [|split; [|split]].
  - apply hasCycle_acyclic; [done|intros n c _ H|intros n c H]; by apply He in H as [? ?].
  - intros x. apply reachableFrom_spec.
  - unfold reachableFrom. rewrite sort_strings_perm. apply NoDup_elements.
  - apply sort_strings_sorted.
Qed.

Lemma graph_walks_exact_witness :
  let g := {["a" := ["b"]]} : gmap string (list string) in
  (forall n, ~ tc (edge g) n n) /\ "b" ∈ reachableFrom "a" g.
Proof.
  intros g.
  assert (He : forall n c, edge g n c -> n ∈ ["a"; "b"] /\ c ∈ ["a"; "b"]).
  { intros n c. unfold edge, kids, g. destruct (decide (n = "a")) as [->|Hne].
    - rewrite lookup_singleton_eq. cbn. set_solver.
    - rewrite lookup_singleton_ne by done. cbn. intros H. by apply elem_of_nil in H. }
  destruct (graph_walks_exact ["a"; "b"] g "a" ltac:(repeat constructor; set_solver) He) as (H1 & H2 & _).
  split; [apply H1; by vm_compute|]. apply H2. apply rtc_once. by apply list_elem_of_singleton.
Defined.
