(* ===== verification/Behavior.v ===== *)
(** * Package platform: behavioral evidence (behavior.go, ingest.go)

    The collector that admits a run's distinct behaviors, its snapshot and the collector
    rebuilt from one, and the comparison of two snapshots. *)
From S2P Require Import Prelude GoText GoTime GoFloat FloatBounds Event Fingerprint DecisionRecord.
From S2P Require Import Domain Counters Operational Fidelity Aggregate Observation Counting.

Open Scope string_scope.
Open Scope Z_scope.

Definition maxBehaviorEntries : Z := 512.

Record BehaviorEntry : Type := {
  BE_FingerprintID : string;
  BE_Behavior : StableFeatures;
  BE_Observations : Z;
  BE_Operational : OperationalSummary;
  BE_Fidelity : BehaviorFidelity;
}.

(** A nil collector behaves as an unbound one. *)
Record BehaviorCollector : Type := {
  col_bound : bool;
  col_runID : EvaluationRunID;
  col_candidateID : CandidateID;
  col_environment : EnvironmentRef;
  col_profile : BehavioralProfileRef;
  col_observations : Z;
  col_entries : gmap string BehaviorEntry;
  col_byBehavior : gmap StableFeatures string;
  col_complete : bool;
}.

Definition NewBehaviorCollector (run : EvaluationRun) : res BehaviorCollector :=
  validateRunBinding run;;
  Ok {| col_bound := true; col_runID := run_id run; col_candidateID := run_candidateID run;
        col_environment := run_environment run; col_profile := run_profile run;
        col_observations := 0; col_entries := ∅; col_byBehavior := ∅; col_complete := true |}.

Definition validActorType (t : ActorType) : bool :=
  one_of t [ActorTypeService; ActorTypeUser; ActorTypeServiceAccount; ActorTypeAIAgent;
            ActorTypeDevice; ActorTypeUnknown].
Definition validOperationCategory (c : OperationCategory) : bool :=
  one_of c ["http"; "db"; "rpc"; "tool"; "external"].
Definition validTargetCategory (c : TargetCategory) : bool :=
  one_of c [""; "internal"; "external"; "database"].

Definition validateBehaviorIdentity (fingerprintID : string) (b : StableFeatures) : res unit :=
  fail_if (fingerprintID =s "") [ErrInvalidBehaviorRecord];;
  validateText ErrInvalidBehaviorRecord fingerprintID;;
  fail_if (negb (validActorType (SF_ActorType b))) [ErrInvalidBehaviorRecord];;
  fail_if (negb (validOperationCategory (SF_OperationCategory b))) [ErrInvalidBehaviorRecord];;
  fail_if (negb (validTargetCategory (SF_TargetCategory b))) [ErrInvalidBehaviorRecord];;
  fail_if (SF_OperationName b =s "") [ErrInvalidBehaviorRecord];;
  validateText ErrInvalidBehaviorRecord (SF_OperationName b);;
  (if SF_TargetName b <>s "" then validateText ErrInvalidBehaviorRecord (SF_TargetName b) else Ok tt).

(** Everything checked before the entry is looked up. *)
Definition check_record (c : BehaviorCollector) (record : DecisionRecord) (facts : OperationalFacts) : res unit :=
  fail_if (negb (col_bound c)) [ErrUnboundCollector];;
  fail_if (negb (col_complete c)) [ErrBehaviorCapacity];;
  fail_if (col_observations c =? max_u64) [ErrBehaviorOverflow];;
  fail_if (DR_EventID record =s "") [ErrInvalidBehaviorRecord];;
  fail_if (time_is_zero (DR_Timestamp record)) [ErrInvalidBehaviorRecord];;
  fail_if (DR_Environment record <>s col_environment c) [ErrBehaviorEnvironmentMismatch];;
  fail_if (SF_Environment (DR_Behavior record) <>s DR_Environment record) [ErrInvalidBehaviorRecord];;
  validateBehaviorIdentity (DR_FingerprintID record) (DR_Behavior record);;
  OperationalFacts_Validate facts.

(** The entry an observation makes of the one it found. *)
Definition observe_entry (operational : OperationalSummary) (fidelity : BehaviorFidelity) (observations : Z)
    (record : DecisionRecord) (facts : OperationalFacts) : res BehaviorEntry :=
  operational ← OperationalSummary_observe operational record facts;
  fidelity ← BehaviorFidelity_observe fidelity (F_Fidelity facts) (F_Layer facts);
  Ok {| BE_FingerprintID := DR_FingerprintID record; BE_Behavior := DR_Behavior record;
        BE_Observations := observations; BE_Operational := operational; BE_Fidelity := fidelity |}.

Definition with_entry (c : BehaviorCollector) (fp : string) (e : BehaviorEntry)
    (byBehavior : gmap StableFeatures string) : BehaviorCollector :=
  {| col_bound := col_bound c; col_runID := col_runID c; col_candidateID := col_candidateID c;
     col_environment := col_environment c; col_profile := col_profile c;
     col_observations := col_observations c + 1;
     col_entries := <[fp := e]> (col_entries c);
     col_byBehavior := byBehavior; col_complete := col_complete c |}.

Definition saturated (c : BehaviorCollector) : BehaviorCollector :=
  {| col_bound := col_bound c; col_runID := col_runID c; col_candidateID := col_candidateID c;
     col_environment := col_environment c; col_profile := col_profile c;
     col_observations := col_observations c; col_entries := col_entries c;
     col_byBehavior := col_byBehavior c; col_complete := false |}.

(** The collector is mutated in place: the result is its new value and the error. *)
Definition ObserveOperational (c : BehaviorCollector) (record : DecisionRecord) (facts : OperationalFacts)
    : BehaviorCollector * res unit :=
  let fp := DR_FingerprintID record in
  match check_record c record facts with
  | Err e => (c, Err e)
  | Ok _ =>
      match col_entries c !! fp with
      | Some existing =>
          if bool_decide (BE_Behavior existing <> DR_Behavior record) then (c, Err [ErrFingerprintConflict])
          else if BE_Observations existing =? max_u64 then (c, Err [ErrBehaviorOverflow])
          else
            match observe_entry (BE_Operational existing) (BE_Fidelity existing)
                    (BE_Observations existing + 1) record facts with
            | Err e => (c, Err e)
            | Ok e =>
                (with_entry c fp {| BE_FingerprintID := BE_FingerprintID existing; BE_Behavior := BE_Behavior existing;
                                 BE_Observations := BE_Observations e; BE_Operational := BE_Operational e;
                                 BE_Fidelity := BE_Fidelity e |} (col_byBehavior c), Ok tt)
            end
      | None =>
          let clash := match col_byBehavior c !! DR_Behavior record with
                       | Some id => id <>s fp
                       | None => false
                       end in
          if clash then (c, Err [ErrFingerprintConflict])
          else if maxBehaviorEntries <=? Z.of_nat (size (col_entries c)) then
            (saturated c, Err [ErrBehaviorCapacity])
          else
            match observe_entry zero_summary zero_fidelity 1 record facts with
            | Err e => (c, Err e)
            | Ok e => (with_entry c fp e (<[DR_Behavior record := fp]> (col_byBehavior c)), Ok tt)
            end
      end
  end.

Definition no_facts : OperationalFacts :=
  {| HTTPStatusCode := 0;
     F_Usage := {| Usage_Input := 0; HasInput := false; Usage_Output := 0; HasOutput := false;
                   Usage_Unsplit := 0; HasUnsplit := false |};
     F_Fidelity := ""; F_Layer := "" |}.
Definition Collector_Observe (c : BehaviorCollector) (record : DecisionRecord) : BehaviorCollector * res unit :=
  ObserveOperational c record no_facts.

(** ** Snapshots *)
Record BehaviorSnapshot : Type := {
  snap_bound : bool;
  snap_runID : EvaluationRunID;
  snap_candidateID : CandidateID;
  snap_environment : EnvironmentRef;
  snap_profile : BehavioralProfileRef;
  snap_observations : Z;
  snap_entries : list BehaviorEntry;
  snap_complete : bool;
}.

Definition Snapshot (c : BehaviorCollector) : BehaviorSnapshot :=
  if negb (col_bound c) then
    {| snap_bound := false; snap_runID := ""; snap_candidateID := ""; snap_environment := "";
       snap_profile := ""; snap_observations := 0; snap_entries := []; snap_complete := false |}
  else
    {| snap_bound := true; snap_runID := col_runID c; snap_candidateID := col_candidateID c;
       snap_environment := col_environment c; snap_profile := col_profile c;
       snap_observations := col_observations c;
       snap_entries := sort_by BE_FingerprintID (snd <$> map_to_list (col_entries c));
       snap_complete := col_complete c |}.

(** ingest.go: the collector a stored snapshot continues as. *)
Definition restore_entry (acc : gmap string BehaviorEntry * gmap StableFeatures string) (entry : BehaviorEntry)
    : res (gmap string BehaviorEntry * gmap StableFeatures string) :=
  let '(entries, byBehavior) := acc in
  fail_if (bool_decide (is_Some (entries !! BE_FingerprintID entry))) [ErrStoreCorrupt];;
  fail_if (bool_decide (is_Some (byBehavior !! BE_Behavior entry))) [ErrStoreCorrupt];;
  Ok (<[BE_FingerprintID entry := entry]> entries, <[BE_Behavior entry := BE_FingerprintID entry]> byBehavior).

Definition behaviorCollectorFromSnapshot (snapshot : BehaviorSnapshot) : res BehaviorCollector :=
  fail_if (negb (snap_bound snapshot)) [ErrUnboundCollector];;
  '(entries, byBehavior) ← foldM restore_entry (∅, ∅) (snap_entries snapshot);
  Ok {| col_bound := true; col_runID := snap_runID snapshot; col_candidateID := snap_candidateID snapshot;
        col_environment := snap_environment snapshot; col_profile := snap_profile snapshot;
        col_observations := snap_observations snapshot; col_entries := entries;
        col_byBehavior := byBehavior; col_complete := snap_complete snapshot |}.

(** ** Comparison *)
Definition BehaviorPresence := string.
Definition BehaviorAdded : BehaviorPresence := "added".
Definition BehaviorRemoved : BehaviorPresence := "removed".
Definition BehaviorShared : BehaviorPresence := "shared".

Record BehaviorDelta : Type := {
  BD_FingerprintID : string;
  BD_Behavior : StableFeatures;
  Presence : BehaviorPresence;
  ReferenceCount : Z;
  CandidateCount : Z;
  ReferenceRate : float;
  CandidateRate : float;
  RateDelta : float;
  ReferenceFidelity : BehaviorFidelity;
  CandidateFidelity : BehaviorFidelity;
}.

Record BehaviorDiff : Type := {
  referenceRunID : EvaluationRunID;
  referenceCandidateID : CandidateID;
  referenceProfile : BehavioralProfileRef;
  referenceObservations : Z;
  referenceDistinctCount : Z;
  candidateRunID : EvaluationRunID;
  candidateCandidateID : CandidateID;
  candidateProfile : BehavioralProfileRef;
  candidateObservations : Z;
  candidateDistinctCount : Z;
  diff_environment : EnvironmentRef;
  deltas : list BehaviorDelta;
  added : Z;
  removed : Z;
  shared : Z;
  changes : list BehaviorChange;
  correlationState : CorrelationState;
  operational : OperationalComparison;
}.

Definition rate (count total : Z) : float :=
  if total =? 0 then 0%float else (of_Z count / of_Z total)%float.

Definition assertConsistentIdentity (refByID : gmap string BehaviorEntry)
    (refByBehavior : gmap StableFeatures string) (candidateEntries : list BehaviorEntry) : res unit :=
  foldM (fun _ cand =>
    fail_if (match refByID !! BE_FingerprintID cand with
             | Some ref => bool_decide (BE_Behavior ref <> BE_Behavior cand)
             | None => false
             end) [ErrFingerprintConflict];;
    fail_if (match refByBehavior !! BE_Behavior cand with
             | Some id => id <>s BE_FingerprintID cand
             | None => false
             end) [ErrFingerprintConflict]) tt candidateEntries.

Definition addedIdentities (deltas : list BehaviorDelta) : list string :=
  sort_strings (BD_FingerprintID <$> List.filter (fun d => Presence d =s BehaviorAdded) deltas).

(** One delta, its rates still to be set. *)
Definition mk_delta (id : string) (b : StableFeatures) (presence : BehaviorPresence)
    (referenceCount candidateCount : Z) (referenceFidelity candidateFidelity : BehaviorFidelity) : BehaviorDelta :=
  {| BD_FingerprintID := id; BD_Behavior := b; Presence := presence;
     ReferenceCount := referenceCount; CandidateCount := candidateCount;
     ReferenceRate := 0%float; CandidateRate := 0%float; RateDelta := 0%float;
     ReferenceFidelity := referenceFidelity; CandidateFidelity := candidateFidelity |}.

Definition candidate_delta (refByID : gmap string BehaviorEntry) (cand : BehaviorEntry) : BehaviorDelta :=
  match refByID !! BE_FingerprintID cand with
  | Some ref => mk_delta (BE_FingerprintID cand) (BE_Behavior cand) BehaviorShared (BE_Observations ref)
                  (BE_Observations cand) (BE_Fidelity ref) (BE_Fidelity cand)
  | None => mk_delta (BE_FingerprintID cand) (BE_Behavior cand) BehaviorAdded 0 (BE_Observations cand)
              zero_fidelity (BE_Fidelity cand)
  end.
Definition reference_delta (ref : BehaviorEntry) : BehaviorDelta :=
  mk_delta (BE_FingerprintID ref) (BE_Behavior ref) BehaviorRemoved (BE_Observations ref) 0
    (BE_Fidelity ref) zero_fidelity.

Definition with_rates (referenceTotal candidateTotal : Z) (d : BehaviorDelta) : BehaviorDelta :=
  let r := rate (ReferenceCount d) referenceTotal in
  let c := rate (CandidateCount d) candidateTotal in
  {| BD_FingerprintID := BD_FingerprintID d; BD_Behavior := BD_Behavior d; Presence := Presence d;
     ReferenceCount := ReferenceCount d; CandidateCount := CandidateCount d;
     ReferenceRate := r; CandidateRate := c; RateDelta := (c - r)%float;
     ReferenceFidelity := ReferenceFidelity d; CandidateFidelity := CandidateFidelity d |}.

Definition count_presence (p : BehaviorPresence) (deltas : list BehaviorDelta) : Z :=
  Z.of_nat (length (List.filter (fun d => Presence d =s p) deltas)).

Definition by_id (entries : list BehaviorEntry) : gmap string BehaviorEntry :=
  foldl (fun (m : gmap string BehaviorEntry) e => <[BE_FingerprintID e := e]> m) ∅ entries.
Definition by_behavior (entries : list BehaviorEntry) : gmap StableFeatures string :=
  foldl (fun (m : gmap StableFeatures string) e => <[BE_Behavior e := BE_FingerprintID e]> m) ∅ entries.

Definition comparable_snapshot (s : BehaviorSnapshot) : res unit :=
  fail_if (negb (snap_bound s)) [ErrUnboundCollector];;
  fail_if (negb (snap_complete s)) [ErrIncompleteSnapshot].

Definition CompareBehaviorSnapshots (reference candidate : BehaviorSnapshot) : res BehaviorDiff :=
  foldM (fun _ s => comparable_snapshot s) tt [reference; candidate];;
  fail_if (snap_environment reference <>s snap_environment candidate) [ErrBehaviorEnvironmentMismatch];;
  let refByID := by_id (snap_entries reference) in
  assertConsistentIdentity refByID (by_behavior (snap_entries reference)) (snap_entries candidate);;
  let candidateIDs := list_to_set (BE_FingerprintID <$> snap_entries candidate) : gset string in
  let deltas :=
    ((candidate_delta refByID <$> snap_entries candidate) ++
     (reference_delta <$> List.filter (fun ref => negb (bool_decide (BE_FingerprintID ref ∈ candidateIDs)))
                            (snap_entries reference)))%list in
  let deltas := with_rates (snap_observations reference) (snap_observations candidate) <$> deltas in
  let sorted := sort_by BD_FingerprintID deltas in
  operational ← compareOperationalEntries (BE_Operational <$> snap_entries reference)
                  (BE_Operational <$> snap_entries candidate);
  Ok {| referenceRunID := snap_runID reference; referenceCandidateID := snap_candidateID reference;
        referenceProfile := snap_profile reference; referenceObservations := snap_observations reference;
        referenceDistinctCount := Z.of_nat (length (snap_entries reference));
        candidateRunID := snap_runID candidate; candidateCandidateID := snap_candidateID candidate;
        candidateProfile := snap_profile candidate; candidateObservations := snap_observations candidate;
        candidateDistinctCount := Z.of_nat (length (snap_entries candidate));
        diff_environment := snap_environment reference; deltas := sorted;
        added := count_presence BehaviorAdded deltas; removed := count_presence BehaviorRemoved deltas;
        shared := count_presence BehaviorShared deltas;
        changes := unfoldedChanges (addedIdentities sorted); correlationState := CorrelationUnavailable;
        operational := operational |}.

Definition WithCorrelation (d : BehaviorDiff) (observations : list Observation) (history : ObservationHistory)
    : res BehaviorDiff :=
  let added' := addedIdentities (deltas d) in
  let '(changes, state) :=
    foldAddedChanges added' (buildBehaviorParentage observations) (correlationStateFor history) in
  validateChangeCountArithmetic (Z.of_nat (length added')) (Z.of_nat (length changes));;
  Ok {| referenceRunID := referenceRunID d; referenceCandidateID := referenceCandidateID d;
        referenceProfile := referenceProfile d; referenceObservations := referenceObservations d;
        referenceDistinctCount := referenceDistinctCount d; candidateRunID := candidateRunID d;
        candidateCandidateID := candidateCandidateID d; candidateProfile := candidateProfile d;
        candidateObservations := candidateObservations d; candidateDistinctCount := candidateDistinctCount d;
        diff_environment := diff_environment d; deltas := deltas d; added := added d; removed := removed d;
        shared := shared d; changes := changes; correlationState := state; operational := operational d |}.

Definition AddedChangeCount (d : BehaviorDiff) : Z := Z.of_nat (length (changes d)).
Definition Diff_CorrelationState (d : BehaviorDiff) : CorrelationState :=
  if correlationState d =s "" then CorrelationUnavailable else correlationState d.

(** ** Maps built from a list of entries *)
Section index.
Context {K V : Type} `{Countable K} (key : BehaviorEntry -> K) (val : BehaviorEntry -> V).

Lemma index_lookup l : NoDup (key <$> l) -> forall k v,
  foldl (fun (m : gmap K V) e => <[key e := val e]> m) ∅ l !! k = Some v <->
  exists e, e ∈ l /\ key e = k /\ val e = v.
Proof.
  induction l as [|e l IH] using rev_ind; intros Hnd k v.
  - cbn. rewrite lookup_empty. split; [done|]. intros (e & He & _). by apply elem_of_nil in He.
  - rewrite fmap_app in Hnd. apply NoDup_app in Hnd as (Hnd & Hdisj & _). specialize (IH Hnd).
    rewrite foldl_app. cbn [foldl]. rewrite lookup_insert_Some, IH. split.
    + intros [[<- <-]|[Hne (e' & He' & <- & <-)]].
      * exists e. rewrite elem_of_app, list_elem_of_singleton. eauto.
      * exists e'. rewrite elem_of_app. eauto.
    + intros (e' & He' & <- & <-). apply elem_of_app in He' as [He'|He'%list_elem_of_singleton].
      * right. split; [|eauto]. intros E. apply (Hdisj (key e')); [by apply list_elem_of_fmap_2|].
        cbn. rewrite E. by apply list_elem_of_singleton.
      * subst e'. by left.
Qed.
End index.

Lemma by_id_lookup l : NoDup (BE_FingerprintID <$> l) -> forall id e,
  by_id l !! id = Some e <-> e ∈ l /\ BE_FingerprintID e = id.
Proof.
  intros Hnd id e. unfold by_id. rewrite (index_lookup BE_FingerprintID (fun e => e) l Hnd).
  split; [intros (? & ? & ? & <-); done|intros [? ?]; by exists e].
Qed.

Lemma by_behavior_lookup l : NoDup (BE_Behavior <$> l) -> forall b id,
  by_behavior l !! b = Some id <-> exists e, e ∈ l /\ BE_Behavior e = b /\ BE_FingerprintID e = id.
Proof. intros Hnd b id. apply (index_lookup BE_Behavior BE_FingerprintID l Hnd). Qed.

Lemma restore_entries l : NoDup (BE_FingerprintID <$> l) -> NoDup (BE_Behavior <$> l) ->
  foldM restore_entry (∅, ∅) l = Ok (by_id l, by_behavior l).
Proof.
  induction l as [|e l IH] using rev_ind; intros H1 H2; [done|].
  assert (Hid := H1). assert (Hb := H2). rewrite fmap_app in H1. rewrite fmap_app in H2.
  apply NoDup_app in H1 as (N1 & D1 & _), H2 as (N2 & D2 & _).
  rewrite foldM_app, (IH N1 N2). cbn [mbind res_bind foldM]. unfold restore_entry.
  rewrite bool_decide_eq_false_2, bool_decide_eq_false_2.
  - cbn [fail_if mbind res_bind]. unfold by_id, by_behavior. by rewrite !foldl_app.
  - intros [e' Hl]. apply (by_id_lookup l N1) in Hl as [He' Ei].
    apply (D1 (BE_FingerprintID e')); [by apply list_elem_of_fmap_2|]. rewrite Ei. by apply list_elem_of_singleton.
  - intros [id Hl]. apply (by_behavior_lookup l N2) in Hl as (e' & He' & Eb & _).
    apply (D2 (BE_Behavior e')); [by apply list_elem_of_fmap_2|]. rewrite Eb. by apply list_elem_of_singleton.
Qed.

(** ** The collector's invariant *)
Definition observation_total (m : gmap string BehaviorEntry) : Z :=
  map_fold (fun _ e acc => BE_Observations e + acc) 0 m.

Lemma observation_total_fresh m id e : m !! id = None ->
  observation_total (<[id := e]> m) = BE_Observations e + observation_total m.
Proof. intros H. unfold observation_total. rewrite map_fold_insert_L; [done|intros; lia|done]. Qed.

Lemma observation_total_insert m id old e : m !! id = Some old ->
  observation_total (<[id := e]> m) = observation_total m - BE_Observations old + BE_Observations e.
Proof.
  intros E. rewrite <- insert_delete_eq, observation_total_fresh by apply lookup_delete_eq.
  rewrite <- (insert_delete_id m id old E) at 2. rewrite observation_total_fresh by apply lookup_delete_eq. lia.
Qed.

Record entry_ok (environment : string) (id : string) (e : BehaviorEntry) : Prop := {
  eo_id : BE_FingerprintID e = id;
  eo_identity : validateBehaviorIdentity id (BE_Behavior e) = Ok tt;
  eo_environment : SF_Environment (BE_Behavior e) = environment;
  eo_observations : 1 <= BE_Observations e <= max_u64;
  eo_operational : summary_range (BE_Operational e) /\ summary_ok (BE_Operational e) (BE_Observations e);
  eo_fidelity : fidelity_range (BE_Fidelity e) /\ fidelity_ok (BE_Fidelity e) (BE_Observations e);
}.

Record collector_ok (c : BehaviorCollector) : Prop := {
  co_bound : col_bound c = true;
  co_entries : forall id e, col_entries c !! id = Some e -> entry_ok (col_environment c) id e;
  co_behaviors : forall b id, col_byBehavior c !! b = Some id <->
                   exists e, col_entries c !! id = Some e /\ BE_Behavior e = b;
  co_size : Z.of_nat (size (col_entries c)) <= maxBehaviorEntries;
  co_total : observation_total (col_entries c) = col_observations c;
  co_range : is_u64 (col_observations c);
}.

Lemma NewBehaviorCollector_ok run c : NewBehaviorCollector run = Ok c -> collector_ok c.
Proof.
  intros H. unfold NewBehaviorCollector in H. res_inv. subst c. split; cbn; try done.
  intros b id. rewrite lookup_empty. split; [done|]. intros (e & He & _). by rewrite lookup_empty in He.
Qed.

Lemma observe_entry_ok op fid n record facts e :
  summary_range op -> summary_ok op n -> fidelity_range fid -> fidelity_ok fid n -> usage_range (F_Usage facts) ->
  observe_entry op fid (n + 1) record facts = Ok e ->
  BE_FingerprintID e = DR_FingerprintID record /\ BE_Behavior e = DR_Behavior record /\ BE_Observations e = n + 1 /\
  (summary_range (BE_Operational e) /\ summary_ok (BE_Operational e) (n + 1)) /\
  (fidelity_range (BE_Fidelity e) /\ fidelity_ok (BE_Fidelity e) (n + 1)).
Proof.
  intros H1 H2 H3 H4 Hu H. unfold observe_entry in H. res_inv. subst e.
  match goal with H : OperationalSummary_observe _ _ _ = Ok _ |- _ =>
    pose proof (OperationalSummary_observe_ok _ _ _ _ n H1 H2 Hu H) end.
  match goal with H : BehaviorFidelity_observe _ _ _ = Ok _ |- _ =>
    pose proof (observe_fidelity_ok _ _ _ _ n H3 H4 H) end. done.
Qed.

Lemma check_record_Ok c record facts u : check_record c record facts = Ok u ->
  col_bound c = true /\ col_complete c = true /\ col_observations c <> max_u64 /\
  DR_Environment record = col_environment c /\ SF_Environment (DR_Behavior record) = col_environment c /\
  validateBehaviorIdentity (DR_FingerprintID record) (DR_Behavior record) = Ok tt.
Proof. intros H. unfold check_record in H. res_inv. bool_prop. split_and!; congruence. Qed.

(** What one observation does to the collector. *)
Lemma ObserveOperational_cases c record facts :
  let fp := DR_FingerprintID record in
  let '(c', r) := ObserveOperational c record facts in
  (exists err, r = Err err /\ c' = c) \/
  (r = Err [ErrBehaviorCapacity] /\ c' = saturated c /\ check_record c record facts = Ok tt /\
   col_entries c !! fp = None /\ maxBehaviorEntries <= Z.of_nat (size (col_entries c))) \/
  (r = Ok tt /\ check_record c record facts = Ok tt /\ exists existing e,
     col_entries c !! fp = Some existing /\ BE_Behavior existing = DR_Behavior record /\
     BE_Observations existing <> max_u64 /\
     observe_entry (BE_Operational existing) (BE_Fidelity existing) (BE_Observations existing + 1) record facts = Ok e /\
     c' = with_entry c fp {| BE_FingerprintID := BE_FingerprintID existing; BE_Behavior := BE_Behavior existing;
                             BE_Observations := BE_Observations e; BE_Operational := BE_Operational e;
                             BE_Fidelity := BE_Fidelity e |} (col_byBehavior c)) \/
  (r = Ok tt /\ check_record c record facts = Ok tt /\ exists e,
     col_entries c !! fp = None /\ Z.of_nat (size (col_entries c)) < maxBehaviorEntries /\
     (forall id, col_byBehavior c !! DR_Behavior record = Some id -> id = fp) /\
     observe_entry zero_summary zero_fidelity 1 record facts = Ok e /\
     c' = with_entry c fp e (<[DR_Behavior record := fp]> (col_byBehavior c))).
Proof.
  cbn zeta. unfold ObserveOperational. destruct (check_record c record facts) as [[]|err] eqn:Ec; [|left; by exists err].
  destruct (col_entries c !! DR_FingerprintID record) as [existing|] eqn:El.
  - case_bool_decide as Eb; [left; by eexists|]. destruct (Z.eqb_spec (BE_Observations existing) max_u64); [left; by eexists|].
    destruct (observe_entry _ _ _ _ _) as [e|err] eqn:Eo; [|left; by exists err].
    right; right; left. split; [done|]. split; [done|]. exists existing, e. split; [done|].
    split; [destruct (decide (BE_Behavior existing = DR_Behavior record)); tauto|]. done.
  - destruct (match col_byBehavior c !! DR_Behavior record with Some id => (id <>s DR_FingerprintID record)%go | None => false end) eqn:Ecl;
      [left; by eexists|].
    destruct (Z.leb_spec maxBehaviorEntries (Z.of_nat (size (col_entries c)))); [right; by left|].
    destruct (observe_entry _ _ _ _ _) as [e|err] eqn:Eo; [|left; by exists err].
    right; right; right. split; [done|]. split; [done|]. exists e. split; [done|]. split; [done|].
    split; [|done]. intros id Hid. rewrite Hid in Ecl. by apply negb_false_iff, String.eqb_eq in Ecl.
Qed.

Lemma with_entry_ok c fp e m : collector_ok c -> col_observations c <> max_u64 ->
  entry_ok (col_environment c) fp e ->
  observation_total (<[fp := e]> (col_entries c)) = col_observations c + 1 ->
  Z.of_nat (size (<[fp := e]> (col_entries c))) <= maxBehaviorEntries ->
  (forall b id, m !! b = Some id <-> exists e', <[fp := e]> (col_entries c) !! id = Some e' /\ BE_Behavior e' = b) ->
  collector_ok (with_entry c fp e m).
Proof.
  intros [H1 H2 H3 H4 H5 H6] Hmax He Ht Hs Hm. split; cbn [with_entry col_bound col_entries col_environment col_byBehavior col_observations];
    try done; [|ulia].
  intros id e' [[<- <-]|[_ Hl]]%lookup_insert_Some; [done|by apply H2].
Qed.

Lemma ObserveOperational_ok c record facts : collector_ok c -> usage_range (F_Usage facts) ->
  collector_ok (ObserveOperational c record facts).1.
Proof.
  intros Hc Hu. pose proof (ObserveOperational_cases c record facts) as H. cbn zeta in H.
  destruct (ObserveOperational c record facts) as [c' r]. cbn [fst].
  destruct H as [(? & _ & ->)|[(_ & -> & _)|[(_ & Hk & existing & e & Hl & Hb & Hmax & Ho & ->)|(_ & Hk & e & Hl & Hs & Hby & Ho & ->)]]].
  - done.
  - by destruct Hc; split.
  - destruct (check_record_Ok _ _ _ _ Hk) as (_ & _ & Hom & Henv & Hbenv & Hid).
    destruct (co_entries c Hc _ _ Hl) as [E1 E2 E3 E4 [E5 E6] [E7 E8]].
    destruct (observe_entry_ok _ _ _ _ _ _ E5 E6 E7 E8 Hu Ho) as (F1 & F2 & F3 & F4 & F5).
    apply with_entry_ok; [done|done| | | |].
    + split; cbn; rewrite ?F3; try done. unfold max_u64 in *. lia.
    + rewrite (observation_total_insert _ _ existing) by done. cbn. rewrite F3, (co_total c Hc). lia.
    + rewrite map_size_insert_Some by eauto. apply Hc.
    + intros b id. rewrite (co_behaviors c Hc). split.
      * intros (e' & He' & Hbe). destruct (decide (DR_FingerprintID record = id)) as [<-|Hne].
        -- eexists. rewrite lookup_insert_eq. split; [done|]. cbn. congruence.
        -- exists e'. by rewrite lookup_insert_ne.
      * intros (e' & He' & Hbe). apply lookup_insert_Some in He' as [[<- <-]|[Hne He']]; [|by exists e'].
        exists existing. split; [done|]. cbn in Hbe. congruence.
  - destruct (check_record_Ok _ _ _ _ Hk) as (_ & _ & Hom & Henv & Hbenv & Hid).
    destruct zero_summary_ok as [Z1 Z2].
    assert (Z3 : fidelity_range zero_fidelity) by (repeat (apply Forall_cons; split; [by split|]); constructor).
    destruct (observe_entry_ok _ _ 0 _ _ _ Z1 Z2 Z3 ltac:(done) Hu Ho) as (F1 & F2 & F3 & F4 & F5).
    apply with_entry_ok; [done|done| | | |].
    + split; rewrite ?F2, ?F3; try done.
    + rewrite observation_total_fresh by done. rewrite F3, (co_total c Hc). lia.
    + rewrite map_size_insert_None by done. lia.
    + intros b id. rewrite lookup_insert_Some, (co_behaviors c Hc). split.
      * intros [[<- <-]|[Hne (e' & He' & Hbe)]]; [exists e; by rewrite lookup_insert_eq|].
        exists e'. rewrite lookup_insert_ne by congruence. done.
      * intros (e' & He' & Hbe). apply lookup_insert_Some in He' as [[<- <-]|[Hne He']]; [left; by rewrite <- F2|].
        right. split; [|by exists e']. intros E. apply Hne. symmetry. apply Hby. rewrite E. apply (co_behaviors c Hc). by exists e'.
Qed.

(** ** Snapshots *)
Record snapshot_ok (s : BehaviorSnapshot) : Prop := {
  sn_bound : snap_bound s = true;
  sn_sorted : StronglySorted (key_le BE_FingerprintID) (snap_entries s);
  sn_ids : NoDup (BE_FingerprintID <$> snap_entries s);
  sn_behaviors : NoDup (BE_Behavior <$> snap_entries s);
  sn_entries : Forall (fun e => entry_ok (snap_environment s) (BE_FingerprintID e) e) (snap_entries s);
  sn_size : Z.of_nat (length (snap_entries s)) <= maxBehaviorEntries;
  sn_total : sumZ (BE_Observations <$> snap_entries s) = snap_observations s;
  sn_range : is_u64 (snap_observations s);
}.

Lemma observation_total_values m : observation_total m = sumZ (BE_Observations <$> (snd <$> map_to_list m)).
Proof.
  unfold observation_total. rewrite map_fold_foldr.
  induction (map_to_list m) as [|[k e] l IH]; [done|]. cbn [foldr fmap list_fmap snd]. rewrite sumZ_cons. cbn. by f_equal.
Qed.

Lemma snapshot_elem c e : collector_ok c ->
  e ∈ snap_entries (Snapshot c) <-> col_entries c !! BE_FingerprintID e = Some e.
Proof.
  intros Hc. unfold Snapshot. rewrite (co_bound c Hc). cbn [negb snap_entries].
  rewrite elem_of_sort_by, list_elem_of_fmap. split.
  - intros ([id e'] & -> & Hin). apply elem_of_map_to_list in Hin. cbn.
    by rewrite (eo_id _ _ _ (co_entries c Hc _ _ Hin)).
  - intros Hl. exists (BE_FingerprintID e, e). split; [done|]. by apply elem_of_map_to_list.
Qed.

Lemma Snapshot_ok c : collector_ok c -> snapshot_ok (Snapshot c).
Proof.
  intros Hc. pose proof (snapshot_elem c) as Hel. specialize (fun e => Hel e Hc) as Hel'. clear Hel.
  assert (Hids : NoDup (BE_FingerprintID <$> snap_entries (Snapshot c))).
  { unfold Snapshot. rewrite (co_bound c Hc). cbn [negb snap_entries]. rewrite sort_by_perm.
    assert (E : BE_FingerprintID <$> (snd <$> map_to_list (col_entries c)) = fst <$> map_to_list (col_entries c)).
    { rewrite <- list_fmap_compose. apply list_fmap_ext. intros i [id e] Hi. cbn.
      apply list_elem_of_lookup_2, elem_of_map_to_list in Hi. apply (co_entries c Hc _ _ Hi). }
    rewrite E. apply NoDup_fst_map_to_list. }
  assert (Hnd : NoDup (snap_entries (Snapshot c))) by by apply NoDup_fmap_1 in Hids.
  split; try done.
  - unfold Snapshot. by rewrite (co_bound c Hc).
  - unfold Snapshot. rewrite (co_bound c Hc). apply sort_by_sorted.
  - apply NoDup_fmap_2_strong; [|done]. intros e e' He%Hel' He'%Hel' Eb.
    assert (H1 : col_byBehavior c !! BE_Behavior e = Some (BE_FingerprintID e)) by (apply (co_behaviors c Hc); by exists e).
    assert (H2 : col_byBehavior c !! BE_Behavior e' = Some (BE_FingerprintID e')) by (apply (co_behaviors c Hc); by exists e').
    rewrite Eb in H1. rewrite H1 in H2. injection H2 as E. rewrite E in He. congruence.
  - apply Forall_forall. intros e He%Hel'. unfold Snapshot. rewrite (co_bound c Hc).
    by apply (co_entries c Hc).
  - unfold Snapshot. rewrite (co_bound c Hc). cbn [negb snap_entries].
    rewrite sort_by_length, length_fmap, length_map_to_list. apply Hc.
  - unfold Snapshot. rewrite (co_bound c Hc). cbn [negb snap_entries snap_observations].
    rewrite (sumZ_perm _ (BE_Observations <$> (snd <$> map_to_list (col_entries c)))) by by rewrite sort_by_perm.
    rewrite <- observation_total_values. apply Hc.
  - unfold Snapshot. rewrite (co_bound c Hc). apply Hc.
Qed.

(** A collector is recovered from its snapshot. *)
Lemma restore_Snapshot c : collector_ok c -> behaviorCollectorFromSnapshot (Snapshot c) = Ok c.
Proof.
  intros Hc. pose proof (Snapshot_ok c Hc) as Hs. unfold behaviorCollectorFromSnapshot.
  rewrite (sn_bound _ Hs). cbn [negb fail_if mbind res_bind].
  rewrite (restore_entries _ (sn_ids _ Hs) (sn_behaviors _ Hs)). cbn [mbind res_bind].
  assert (E1 : by_id (snap_entries (Snapshot c)) = col_entries c).
  { apply map_eq. intros id. apply option_eq. intros e. rewrite (by_id_lookup _ (sn_ids _ Hs)), snapshot_elem by done.
    split; [by intros [? <-]|]. intros Hl. by rewrite (eo_id _ _ _ (co_entries c Hc _ _ Hl)). }
  assert (E2 : by_behavior (snap_entries (Snapshot c)) = col_byBehavior c).
  { apply map_eq. intros b. apply option_eq. intros id.
    rewrite (by_behavior_lookup _ (sn_behaviors _ Hs)), (co_behaviors c Hc). setoid_rewrite snapshot_elem; [|done]. split.
    - intros (e & He & <- & <-). by exists e.
    - intros (e & He & <-). exists e. by rewrite (eo_id _ _ _ (co_entries c Hc _ _ He)). }
  rewrite E1, E2. unfold Snapshot. rewrite (co_bound c Hc). cbn. destruct c as [b ? ? ? ? ? ? ? ?]. cbn in *.
  f_equal. f_equal. symmetry. apply Hc.
Qed.

(** ** Comparing two snapshots *)

(** The two runs name behaviors the same way. *)
Definition consistent (reference candidate : BehaviorSnapshot) : Prop :=
  forall r c, r ∈ snap_entries reference -> c ∈ snap_entries candidate ->
    (BE_FingerprintID r = BE_FingerprintID c <-> BE_Behavior r = BE_Behavior c).

Lemma assertConsistentIdentity_iff R C : snapshot_ok R ->
  assertConsistentIdentity (by_id (snap_entries R)) (by_behavior (snap_entries R)) (snap_entries C) = Ok tt <->
  consistent R C.
Proof.
  intros HR. unfold assertConsistentIdentity. rewrite foldM_Forall, Forall_forall. unfold consistent.
  setoid_rewrite bind_unit_iff. setoid_rewrite fail_if_iff. split.
  - intros H r c Hr Hc. destruct (H c Hc) as [H1 H2]. split; intros E.
    + rewrite (proj2 (by_id_lookup _ (sn_ids R HR) _ r)) in H1 by done. by apply bool_decide_eq_false, dec_stable in H1.
    + rewrite (proj2 (by_behavior_lookup _ (sn_behaviors R HR) _ (BE_FingerprintID r))) in H2 by by exists r.
      by apply negb_false_iff, String.eqb_eq in H2.
  - intros H c Hc. split.
    + destruct (by_id (snap_entries R) !! BE_FingerprintID c) as [r|] eqn:E; [|done].
      apply (by_id_lookup _ (sn_ids R HR)) in E as [Hr E]. apply bool_decide_eq_false. intros Hne. by apply Hne, (H r c).
    + destruct (by_behavior (snap_entries R) !! BE_Behavior c) as [id|] eqn:E; [|done].
      apply (by_behavior_lookup _ (sn_behaviors R HR)) in E as (r & Hr & E & <-).
      apply negb_false_iff, String.eqb_eq. by apply (H r c).
Qed.

Definition ids (s : BehaviorSnapshot) : list string := BE_FingerprintID <$> snap_entries s.

(** What the deltas of a comparison are. *)
Record delta_of (R C : BehaviorSnapshot) (d : BehaviorDelta) : Prop := {
  do_presence :
    (Presence d = BehaviorAdded /\ BD_FingerprintID d ∉ ids R /\ ReferenceCount d = 0 /\
       exists c, c ∈ snap_entries C /\ BE_FingerprintID c = BD_FingerprintID d /\ BE_Behavior c = BD_Behavior d /\
         CandidateCount d = BE_Observations c /\ CandidateFidelity d = BE_Fidelity c) \/
    (Presence d = BehaviorRemoved /\ BD_FingerprintID d ∉ ids C /\ CandidateCount d = 0 /\
       exists r, r ∈ snap_entries R /\ BE_FingerprintID r = BD_FingerprintID d /\ BE_Behavior r = BD_Behavior d /\
         ReferenceCount d = BE_Observations r /\ ReferenceFidelity d = BE_Fidelity r) \/
    (Presence d = BehaviorShared /\
       exists r c, r ∈ snap_entries R /\ c ∈ snap_entries C /\ BE_FingerprintID r = BD_FingerprintID d /\
         BE_FingerprintID c = BD_FingerprintID d /\ BE_Behavior c = BD_Behavior d /\
         ReferenceCount d = BE_Observations r /\ CandidateCount d = BE_Observations c /\
         ReferenceFidelity d = BE_Fidelity r /\ CandidateFidelity d = BE_Fidelity c);
  do_rates : ReferenceRate d = rate (ReferenceCount d) (snap_observations R) /\
             CandidateRate d = rate (CandidateCount d) (snap_observations C) /\
             RateDelta d = (CandidateRate d - ReferenceRate d)%float;
}.

(** The deltas before sorting. *)
Definition removed_entries (R C : BehaviorSnapshot) : list BehaviorEntry :=
  List.filter (fun ref => negb (bool_decide (BE_FingerprintID ref ∈ (list_to_set (ids C) : gset string)))) (snap_entries R).
Definition raw_deltas (R C : BehaviorSnapshot) : list BehaviorDelta :=
  with_rates (snap_observations R) (snap_observations C) <$>
    ((candidate_delta (by_id (snap_entries R)) <$> snap_entries C) ++ (reference_delta <$> removed_entries R C))%list.

Lemma candidate_delta_id m c : BD_FingerprintID (candidate_delta m c) = BE_FingerprintID c.
Proof. unfold candidate_delta. by destruct (m !! BE_FingerprintID c). Qed.

Lemma elem_of_removed R C r : r ∈ removed_entries R C <-> r ∈ snap_entries R /\ BE_FingerprintID r ∉ ids C.
Proof.
  unfold removed_entries. rewrite list_elem_of_In, filter_In, <- list_elem_of_In, negb_true_iff, bool_decide_eq_false.
  by rewrite elem_of_list_to_set.
Qed.

Lemma raw_deltas_ids R C : BD_FingerprintID <$> raw_deltas R C = (ids C ++ (BE_FingerprintID <$> removed_entries R C))%list.
Proof.
  unfold raw_deltas. rewrite <- list_fmap_compose, fmap_app, <- !list_fmap_compose. f_equal.
  apply list_fmap_ext. intros i e _. cbn. apply candidate_delta_id.
Qed.

Lemma entry_unique s r r' : snapshot_ok s -> r ∈ snap_entries s -> r' ∈ snap_entries s ->
  BE_FingerprintID r = BE_FingerprintID r' -> r = r'.
Proof.
  intros Hs Hr Hr' E.
  assert (H1 : by_id (snap_entries s) !! BE_FingerprintID r = Some r) by by apply (by_id_lookup _ (sn_ids s Hs)).
  assert (H2 : by_id (snap_entries s) !! BE_FingerprintID r = Some r') by by apply (by_id_lookup _ (sn_ids s Hs)).
  congruence.
Qed.

Lemma raw_deltas_NoDup R C : snapshot_ok R -> snapshot_ok C -> NoDup (BD_FingerprintID <$> raw_deltas R C).
Proof.
  intros HR HC. rewrite raw_deltas_ids. apply NoDup_app. split; [apply HC|]. split.
  - intros id Hid Hin. apply list_elem_of_fmap in Hin as (r & -> & Hr). by apply elem_of_removed in Hr as [_ ?].
  - apply NoDup_fmap_2_strong.
    + intros r r' Hr Hr' E. apply elem_of_removed in Hr as [Hr _], Hr' as [Hr' _]. exact (entry_unique R r r' HR Hr Hr' E).
    + pose proof (sn_ids R HR) as Hn. apply NoDup_fmap_1 in Hn. unfold removed_entries.
      by apply NoDup_ListNoDup, List.NoDup_filter, NoDup_ListNoDup.
Qed.

Lemma raw_deltas_spec R C d : snapshot_ok R -> d ∈ raw_deltas R C -> delta_of R C d.
Proof.
  intros HR Hd. unfold raw_deltas in Hd. apply list_elem_of_fmap in Hd as (d0 & -> & Hd0).
  apply elem_of_app in Hd0 as [Hd0|Hd0]; apply list_elem_of_fmap in Hd0 as (e & -> & He).
  - split; [|by cbn]. unfold candidate_delta. destruct (by_id (snap_entries R) !! BE_FingerprintID e) as [r|] eqn:El.
    + right; right. apply (by_id_lookup _ (sn_ids R HR)) in El as [Hr Hid]. split; [done|]. exists r, e. by cbn.
    + left. cbn. split; [done|]. split; [|split; [done|by exists e]].
      intros Hin. apply list_elem_of_fmap in Hin as (r & Hid & Hr).
      assert (Hl : by_id (snap_entries R) !! BE_FingerprintID e = Some r) by (apply (by_id_lookup _ (sn_ids R HR)); by split).
      congruence.
  - apply elem_of_removed in He as [He Hn]. split; [|by cbn]. right; left. cbn. split; [done|]. split; [done|]. split; [done|].
    by exists e.
Qed.

(** *** Counting presences *)
Definition countb {A} (f : A -> bool) (l : list A) : Z := Z.of_nat (length (List.filter f l)).

Lemma countb_cons {A} (f : A -> bool) x l : countb f (x :: l) = (if f x then 1 else 0) + countb f l.
Proof. unfold countb. cbn. destruct (f x); cbn [length]; lia. Qed.
Lemma countb_app {A} (f : A -> bool) l1 l2 : countb f (l1 ++ l2) = countb f l1 + countb f l2.
Proof. induction l1 as [|x l1 IH]; [done|]. cbn [app]. rewrite !countb_cons, IH. lia. Qed.
Lemma countb_fmap {A B} (g : A -> B) (f : B -> bool) l : countb f (g <$> l) = countb (fun x => f (g x)) l.
Proof. induction l as [|x l IH]; [done|]. cbn [fmap list_fmap]. rewrite !countb_cons. by f_equal. Qed.
Lemma countb_ext {A} (f g : A -> bool) l : (forall x, x ∈ l -> f x = g x) -> countb f l = countb g l.
Proof.
  induction l as [|x l IH]; intros H; [done|]. rewrite !countb_cons, IH, (H x); [done|by apply elem_of_cons; left|].
  intros y Hy. apply H. by apply elem_of_cons; right.
Qed.
Lemma countb_split {A} (f : A -> bool) l : countb f l + countb (fun x => negb (f x)) l = Z.of_nat (length l).
Proof. induction l as [|x l IH]; [done|]. rewrite !countb_cons. cbn [length]. destruct (f x); cbn; lia. Qed.
Lemma countb_all {A} (b : bool) (l : list A) : countb (fun _ => b) l = if b then Z.of_nat (length l) else 0.
Proof. induction l as [|x l IH]; [by destruct b|]. rewrite countb_cons, IH. destruct b; cbn [length]; lia. Qed.

(** Two lists without repetition share as many elements whichever is searched. *)
Lemma countb_shared (l1 l2 : list string) : NoDup l1 -> NoDup l2 ->
  countb (fun x => bool_decide (x ∈ l2)) l1 = countb (fun x => bool_decide (x ∈ l1)) l2.
Proof.
  intros H1 H2. unfold countb. f_equal. apply Permutation_length, NoDup_Permutation.
  - by apply NoDup_ListNoDup, List.NoDup_filter, NoDup_ListNoDup.
  - by apply NoDup_ListNoDup, List.NoDup_filter, NoDup_ListNoDup.
  - intros x. rewrite !list_elem_of_In, !filter_In, <- !list_elem_of_In, !bool_decide_eq_true. tauto.
Qed.

Lemma count_presence_countb p l : count_presence p l = countb (fun d => Presence d =s p)%go l.
Proof. done. Qed.

Lemma raw_deltas_counts R C : snapshot_ok R -> snapshot_ok C ->
  let n p := count_presence p (raw_deltas R C) in
  n BehaviorAdded + n BehaviorShared = Z.of_nat (length (snap_entries C)) /\
  n BehaviorRemoved + n BehaviorShared = Z.of_nat (length (snap_entries R)) /\
  n BehaviorAdded = countb (fun id => negb (bool_decide (id ∈ ids R))) (ids C) /\
  n BehaviorRemoved = countb (fun id => negb (bool_decide (id ∈ ids C))) (ids R).
Proof.
  intros HR HC. cbn beta zeta.
  assert (Hmem : forall e, bool_decide (is_Some (by_id (snap_entries R) !! BE_FingerprintID e)) = bool_decide (BE_FingerprintID e ∈ ids R)).
  { intros e. apply bool_decide_ext. unfold ids. rewrite list_elem_of_fmap. split.
    - intros [r Hr]. apply (by_id_lookup _ (sn_ids R HR)) in Hr as [Hr E]. by exists r.
    - intros (r & E & Hr). exists r. apply (by_id_lookup _ (sn_ids R HR)). by split. }
  assert (Hc : forall p, countb (fun d => Presence d =s p)%go (raw_deltas R C) =
    countb (fun id => if bool_decide (id ∈ ids R) then BehaviorShared =s p else BehaviorAdded =s p)%go (ids C) +
    (if (BehaviorRemoved =s p)%go then Z.of_nat (length (removed_entries R C)) else 0)).
  { intros p. unfold raw_deltas. rewrite countb_fmap, countb_app, !countb_fmap. cbn [with_rates Presence reference_delta mk_delta].
    rewrite countb_all. f_equal. change (ids C) with (BE_FingerprintID <$> snap_entries C). rewrite countb_fmap. apply countb_ext. intros e _.
    rewrite <- Hmem. unfold candidate_delta. destruct (by_id (snap_entries R) !! BE_FingerprintID e) eqn:E.
    - rewrite bool_decide_eq_true_2 by done. done.
    - rewrite bool_decide_eq_false_2 by (by intros [? ?]). done. }
  assert (Hrem : Z.of_nat (length (removed_entries R C)) = countb (fun id => negb (bool_decide (id ∈ ids C))) (ids R)).
  { change (ids R) with (BE_FingerprintID <$> snap_entries R). rewrite countb_fmap. unfold removed_entries, countb. f_equal. f_equal. apply List.filter_ext.
    intros r. f_equal. apply bool_decide_ext. by rewrite elem_of_list_to_set. }
  rewrite !count_presence_countb, !Hc. cbn. 
  rewrite (countb_ext (fun id => if bool_decide (id ∈ ids R) then false else true) (fun id => negb (bool_decide (id ∈ ids R)))),
    (countb_ext (fun id => if bool_decide (id ∈ ids R) then true else false) (fun id => bool_decide (id ∈ ids R))),
    (countb_ext (fun id => if bool_decide (id ∈ ids R) then false else false) (fun _ => false)), (countb_all false)
    by (intros x _; by case_bool_decide).
  rewrite Hrem. pose proof (countb_split (fun id => bool_decide (id ∈ ids R)) (ids C)) as S1.
  pose proof (countb_split (fun id => bool_decide (id ∈ ids C)) (ids R)) as S2.
  rewrite (countb_shared (ids R) (ids C)) in S2 by (apply HR || apply HC).
  assert (length (ids R) = length (snap_entries R) /\ length (ids C) = length (snap_entries C)) as [L1 L2] by (unfold ids; by rewrite !length_fmap).
  rewrite L1 in S2. rewrite L2 in S1. lia.
Qed.

Lemma compare_spec R C : snapshot_ok R -> snapshot_ok C ->
  forall d, CompareBehaviorSnapshots R C = Ok d <->
    snap_complete R = true /\ snap_complete C = true /\ snap_environment R = snap_environment C /\
    consistent R C /\ exists op,
      compareOperationalEntries (BE_Operational <$> snap_entries R) (BE_Operational <$> snap_entries C) = Ok op /\
      d = {| referenceRunID := snap_runID R; referenceCandidateID := snap_candidateID R;
             referenceProfile := snap_profile R; referenceObservations := snap_observations R;
             referenceDistinctCount := Z.of_nat (length (snap_entries R));
             candidateRunID := snap_runID C; candidateCandidateID := snap_candidateID C;
             candidateProfile := snap_profile C; candidateObservations := snap_observations C;
             candidateDistinctCount := Z.of_nat (length (snap_entries C));
             diff_environment := snap_environment R; deltas := sort_by BD_FingerprintID (raw_deltas R C);
             added := count_presence BehaviorAdded (raw_deltas R C);
             removed := count_presence BehaviorRemoved (raw_deltas R C);
             shared := count_presence BehaviorShared (raw_deltas R C);
             changes := unfoldedChanges (addedIdentities (sort_by BD_FingerprintID (raw_deltas R C)));
             correlationState := CorrelationUnavailable; operational := op |}.
Proof.
  intros HR HC d. unfold CompareBehaviorSnapshots. rewrite bind_unit_iff, foldM_Forall, !Forall_cons.
  unfold comparable_snapshot. rewrite !bind_unit_iff, !fail_if_iff, (sn_bound R HR), (sn_bound C HC), !negb_false_iff.
  rewrite String.eqb_eq, assertConsistentIdentity_iff by done. fold (ids C).
  change (with_rates (snap_observations R) (snap_observations C) <$> _) with (raw_deltas R C).
  split.
  - intros (((_ & H1) & (_ & H2) & _) & H3 & H4 & H5). res_inv. subst d.
    split; [done|]. split; [done|]. split; [done|]. split; [done|]. eexists. by split.
  - intros (H1 & H2 & H3 & H4 & op & Hop & ->). split; [by repeat split|]. split; [done|]. split; [done|].
    rewrite Hop. done.
Qed.

Lemma Permutation_filter_bool {A} (f : A -> bool) l l' : l ≡ₚ l' -> List.filter f l ≡ₚ List.filter f l'.
Proof. induction 1; cbn; repeat (destruct (f _)); eauto using Permutation. Qed.

Lemma addedIdentities_spec R C : snapshot_ok R -> snapshot_ok C ->
  let l := addedIdentities (sort_by BD_FingerprintID (raw_deltas R C)) in
  NoDup l /\ Z.of_nat (length l) = count_presence BehaviorAdded (raw_deltas R C) /\
  (forall id, id ∈ l <-> id ∈ ids C /\ id ∉ ids R).
Proof.
  intros HR HC. cbn zeta. unfold addedIdentities. set (ds := raw_deltas R C).
  set (f := fun d => (Presence d =s BehaviorAdded)%go).
  assert (Hperm : List.filter f (sort_by BD_FingerprintID ds) ≡ₚ List.filter f ds).
  { apply Permutation_filter_bool, sort_by_perm. }
  rewrite !sort_strings_perm, Hperm.
  assert (Hnd : NoDup (BD_FingerprintID <$> List.filter f ds)).
  { pose proof (raw_deltas_NoDup R C HR HC) as H. fold ds in H. clear -H. induction ds as [|d ds IH]; [constructor|].
    cbn in H |- *. apply NoDup_cons in H as [Hd H]. destruct (f d); [|by apply IH].
    cbn. apply NoDup_cons. split; [|by apply IH]. intros Hin. apply Hd.
    apply list_elem_of_fmap in Hin as (d' & E & Hd'). apply list_elem_of_In, filter_In in Hd' as [Hd' _].
    rewrite E. apply list_elem_of_fmap_2. by apply list_elem_of_In. }
  split; [done|]. split; [rewrite length_fmap; done|].
  intros id. rewrite sort_strings_perm, Hperm, list_elem_of_fmap. split.
  - intros (d & -> & Hd). apply list_elem_of_In, filter_In in Hd as [Hd Hf]. apply list_elem_of_In in Hd.
    apply String.eqb_eq in Hf. destruct (raw_deltas_spec R C d HR Hd) as [[H|[H|H]] _].
    + destruct H as (_ & Hn & _ & c & Hc & E & _). split; [|done]. rewrite <- E. by apply list_elem_of_fmap_2.
    + destruct H as (H & _). rewrite H in Hf. discriminate.
    + destruct H as (H & _). rewrite H in Hf. discriminate.
  - intros [HinC HnR]. assert (Hin : id ∈ BD_FingerprintID <$> ds).
    { unfold ds. rewrite raw_deltas_ids. apply elem_of_app. by left. }
    apply list_elem_of_fmap in Hin as (d & -> & Hd). exists d. split; [done|].
    apply list_elem_of_In, filter_In. split; [by apply list_elem_of_In|].
    destruct (raw_deltas_spec R C d HR Hd) as [[H|[H|H]] _]; [destruct H as [E _]; unfold f; by rewrite E| |].
    + destruct H as (_ & Hn & _). by destruct Hn.
    + destruct H as (_ & r & c & Hr & _ & E & _). destruct HnR. rewrite <- E. by apply list_elem_of_fmap_2.
Qed.

(** Every collector a run can come to: created for the run, then given records with
    whatever facts, accepted or refused. *)
Inductive collector_reachable (run : EvaluationRun) : BehaviorCollector -> Prop :=
| col_new c : NewBehaviorCollector run = Ok c -> collector_reachable run c
| col_observe c record facts :
    collector_reachable run c -> usage_range (F_Usage facts) ->
    collector_reachable run (ObserveOperational c record facts).1.

Lemma collector_reachable_ok run c : collector_reachable run c -> collector_ok c.
Proof. induction 1; [by eapply NewBehaviorCollector_ok|by apply ObserveOperational_ok]. Qed.

Lemma entry_validates env id e : entry_ok env id e ->
  validateOperationalSummary (BE_Operational e) (BE_Observations e) = Ok tt /\
  validateBehaviorFidelity (BE_Fidelity e) (BE_Observations e) = Ok tt.
Proof.
  intros [_ _ _ Ho [S1 S2] [F1 F2]]. assert (is_u64 (BE_Observations e)) by ulia.
  split; [by apply validateOperational_iff|by apply validateBehaviorFidelity_iff].
Qed.

(** ** Properties *)

(** C21: a collector's evidence is bounded, consistent and survives storage. Whatever
    records a run's collector is given, accepted or refused: it holds at most 512 distinct
    behaviors, each under its own fingerprint, and no behavior under two; their
    observations sum to the records accepted; each entry's operational and fidelity
    evidence passes the validation of stored evidence for its number of observations; and
    the collector rebuilt from its snapshot is the same collector. *)
Theorem collector_evidence run c :
  collector_reachable run c ->
  Z.of_nat (length (snap_entries (Snapshot c))) <= maxBehaviorEntries /\
  NoDup (BE_FingerprintID <$> snap_entries (Snapshot c)) /\
  NoDup (BE_Behavior <$> snap_entries (Snapshot c)) /\
  sumZ (BE_Observations <$> snap_entries (Snapshot c)) = col_observations c /\
  Forall (fun e => validateOperationalSummary (BE_Operational e) (BE_Observations e) = Ok tt /\
                   validateBehaviorFidelity (BE_Fidelity e) (BE_Observations e) = Ok tt)
    (snap_entries (Snapshot c)) /\
  behaviorCollectorFromSnapshot (Snapshot c) = Ok c.
Proof.
  intros H%collector_reachable_ok. pose proof (Snapshot_ok c H) as Hs.
  split; [apply Hs|]. split; [apply Hs|]. split; [apply Hs|]. split.
  { rewrite (sn_total _ Hs). unfold Snapshot. by rewrite (co_bound c H). }
  split; [|by apply restore_Snapshot].
  eapply Forall_impl; [exact (sn_entries _ Hs)|]. intros e He. exact (entry_validates _ _ e He).
Qed.

(** an observation is all or nothing. An accepted record adds exactly one
    observation to the collector and one to the entry of its fingerprint, whose behavior
    is the record's, and touches no other entry; a refused one leaves every entry, the
    index and the counts as they were, and marks the collector incomplete exactly when it
    is refused for lack of room - after which every record is refused. *)
Theorem observation_atomic run c record facts :
  collector_reachable run c -> usage_range (F_Usage facts) ->
  let '(c', r) := ObserveOperational c record facts in
  (r = Ok tt ->
     col_observations c' = col_observations c + 1 /\ col_complete c' = true /\
     (exists e, col_entries c' !! DR_FingerprintID record = Some e /\ BE_Behavior e = DR_Behavior record /\
        BE_Observations e = 1 + match col_entries c !! DR_FingerprintID record with
                                | Some old => BE_Observations old | None => 0 end) /\
     (forall id, id <> DR_FingerprintID record -> col_entries c' !! id = col_entries c !! id)) /\
  (r <> Ok tt ->
     col_observations c' = col_observations c /\ col_entries c' = col_entries c /\
     col_byBehavior c' = col_byBehavior c /\
     (col_complete c' = col_complete c \/ r = Err [ErrBehaviorCapacity])) /\
  (col_complete c = false -> exists err, r = Err err).
Proof.
  intros Hc%collector_reachable_ok Hu. pose proof (ObserveOperational_cases c record facts) as H. cbn zeta in H.
  destruct (ObserveOperational c record facts) as [c' r].
  destruct H as [(err & -> & ->)|[(-> & -> & _)|[(-> & Hk & existing & e & Hl & Hb & Hmax & Ho & ->)|(-> & Hk & e & Hl & Hs & Hby & Ho & ->)]]].
  - split; [done|]. split; [intros _; split_and!; [done..|by left]|]. by exists err.
  - split; [done|]. split; [intros _; split_and!; [done..|by right]|]. by eexists.
  - destruct (check_record_Ok _ _ _ _ Hk) as (_ & Hcc & _).
    destruct (co_entries c Hc _ _ Hl) as [E1 E2 E3 E4 [E5 E6] [E7 E8]].
    destruct (observe_entry_ok _ _ _ _ _ _ E5 E6 E7 E8 Hu Ho) as (_ & _ & F3 & _).
    split; [|split; [done|congruence]]. intros _. split; [done|]. split; [done|]. split.
    + eexists. cbn [with_entry col_entries]. rewrite lookup_insert_eq, Hl. split; [done|]. cbn. split; [done|lia].
    + intros id Hne. cbn [with_entry col_entries]. by rewrite lookup_insert_ne.
  - destruct (check_record_Ok _ _ _ _ Hk) as (_ & Hcc & _).
    assert (Z3 : fidelity_range zero_fidelity) by (repeat (apply Forall_cons; split; [by split|]); constructor).
    destruct (observe_entry_ok _ _ 0 _ _ _ (proj1 zero_summary_ok) (proj2 zero_summary_ok) Z3 ltac:(done) Hu Ho) as (_ & F2 & F3 & _).
    split; [|split; [done|congruence]]. intros _. split; [done|]. split; [done|]. split.
    + eexists. cbn [with_entry col_entries]. rewrite lookup_insert_eq, Hl. split; [done|]. split; [done|]. rewrite F3. lia.
    + intros id Hne. cbn [with_entry col_entries]. by rewrite lookup_insert_ne.
Qed.

(** C19: the comparison is exact. When two collectors' snapshots compare, each behavior of
    either run is one delta, sorted by fingerprint: added when only the candidate has it,
    removed when only the reference has, shared when both do, with each side's own count
    and fidelity; added and shared together are the candidate's behaviors, removed and
    shared the reference's; and while each run has fewer than 2^53 observations every rate
    is a number of [0,1]. *)
Theorem comparison_exact run1 run2 c1 c2 d :
  collector_reachable run1 c1 -> collector_reachable run2 c2 ->
  CompareBehaviorSnapshots (Snapshot c1) (Snapshot c2) = Ok d ->
  let R := Snapshot c1 in let C := Snapshot c2 in
  Forall (delta_of R C) (deltas d) /\
  StronglySorted (key_le BD_FingerprintID) (deltas d) /\ NoDup (BD_FingerprintID <$> deltas d) /\
  (forall id, id ∈ BD_FingerprintID <$> deltas d <-> id ∈ ids R \/ id ∈ ids C) /\
  added d + shared d = Z.of_nat (length (ids C)) /\ removed d + shared d = Z.of_nat (length (ids R)) /\
  (snap_observations R < 2 ^ 53 -> snap_observations C < 2 ^ 53 ->
     Forall (fun x => in01 (ReferenceRate x) /\ in01 (CandidateRate x)) (deltas d)).
Proof.
  intros H1%collector_reachable_ok H2%collector_reachable_ok Hd R C.
  pose proof (Snapshot_ok c1 H1) as HR. pose proof (Snapshot_ok c2 H2) as HC. fold R C in HR, HC, Hd.
  apply (compare_spec R C HR HC) in Hd as (_ & _ & _ & _ & op & _ & ->). cbn [deltas added removed shared].
  destruct (raw_deltas_counts R C HR HC) as (N1 & N2 & _).
  assert (Hspec : forall x, x ∈ sort_by BD_FingerprintID (raw_deltas R C) -> delta_of R C x).
  { intros x Hx. apply elem_of_sort_by in Hx. by apply raw_deltas_spec. }
  split; [by apply Forall_forall|]. split; [apply sort_by_sorted|].
  split; [rewrite sort_by_perm; by apply raw_deltas_NoDup|]. split.
  { intros id. rewrite sort_by_perm, raw_deltas_ids, elem_of_app. split.
    - intros [?|Hr]; [by right|left]. apply list_elem_of_fmap in Hr as (r & -> & Hr).
      apply elem_of_removed in Hr as [Hr _]. by apply list_elem_of_fmap_2.
    - intros [Hr|?]; [|by left]. destruct (decide (id ∈ ids C)); [by left|right].
      apply list_elem_of_fmap in Hr as (r & -> & Hr). apply list_elem_of_fmap_2, elem_of_removed. by split. }
  unfold ids. rewrite !length_fmap. split; [done|]. split; [done|]. intros L1 L2.
  apply Forall_forall. intros x Hx. destruct (Hspec x Hx) as [Hp (E1 & E2 & _)]. rewrite E1, E2.
  assert (Hrate : forall s n, snapshot_ok s -> snap_observations s < 2 ^ 53 ->
            n = 0 \/ (exists e, e ∈ snap_entries s /\ n = BE_Observations e) -> in01 (rate n (snap_observations s))).
  { clear. intros s n Hs Hlt Hn. unfold rate. destruct (Z.eqb_spec (snap_observations s) 0); [done|].
    assert (Hpos : Forall (fun z => 0 <= z) (BE_Observations <$> snap_entries s)).
    { apply Forall_fmap. eapply Forall_impl; [exact (sn_entries s Hs)|]. intros e [_ _ _ ? _ _]. cbn. lia. }
    assert (Hle : 0 <= n <= snap_observations s).
    { rewrite <- (sn_total s Hs). destruct Hn as [->|(e & He & ->)]; [pose proof (sumZ_nonneg _ Hpos); lia|].
      split; [|apply sumZ_elem; [done|by apply list_elem_of_fmap_2]].
      rewrite Forall_forall in Hpos. apply Hpos. by apply list_elem_of_fmap_2. }
    apply ratio_in01; lia. }
  destruct Hp as [(_ & _ & E & c & Hc & _ & _ & Ec & _)|[(_ & _ & E & r & Hr & _ & _ & Er & _)|(_ & r & c & Hr & Hc & _ & _ & _ & Er & Ec & _)]];
    (split; apply Hrate; try done; eauto).
Qed.

(** a comparison is refused exactly when it would mislead: snapshots of two runs'
    collectors compare if and only if both are complete, both runs observed the same
    environment, no fingerprint names two behaviors and no behavior has two fingerprints
    across them, and the operational totals fit a uint64. *)
Theorem comparison_accepts run1 run2 c1 c2 :
  collector_reachable run1 c1 -> collector_reachable run2 c2 ->
  let R := Snapshot c1 in let C := Snapshot c2 in
  is_ok (CompareBehaviorSnapshots R C) = true <->
  col_complete c1 = true /\ col_complete c2 = true /\ col_environment c1 = col_environment c2 /\
  consistent R C /\
  is_ok (compareOperationalEntries (BE_Operational <$> snap_entries R) (BE_Operational <$> snap_entries C)) = true.
Proof.
  intros H1%collector_reachable_ok H2%collector_reachable_ok R C.
  assert (Ef : snap_complete R = col_complete c1 /\ snap_environment R = col_environment c1 /\
               snap_complete C = col_complete c2 /\ snap_environment C = col_environment c2).
  { unfold R, C, Snapshot. rewrite (co_bound c1 H1), (co_bound c2 H2). done. }
  destruct Ef as (<- & <- & <- & <-).
  rewrite !is_ok_spec. setoid_rewrite (compare_spec R C (Snapshot_ok c1 H1) (Snapshot_ok c2 H2)). split.
  - intros (d & A1 & A2 & A3 & A4 & op & Hop & _). split_and!; [done..|by exists op].
  - intros (A1 & A2 & A3 & A4 & op & Hop). eexists. split_and!; try done. exists op. by split.
Qed.

Definition example_collector : BehaviorCollector :=
  match NewBehaviorCollector example_run with
  | Ok c => (ObserveOperational c (example_record "1500" "ok") example_facts).1
  | Err _ => {| col_bound := false; col_runID := ""; col_candidateID := ""; col_environment := "";
                col_profile := ""; col_observations := 0; col_entries := ∅; col_byBehavior := ∅;
                col_complete := false |}
  end.

Lemma example_collector_reachable : collector_reachable example_run example_collector.
Proof.
  unfold example_collector. destruct (NewBehaviorCollector example_run) as [c|] eqn:E; [|by vm_compute in E].
  apply col_observe; [by apply col_new|by repeat split].
Qed.

Lemma collector_evidence_witness :
  length (snap_entries (Snapshot example_collector)) = 1%nat /\
  behaviorCollectorFromSnapshot (Snapshot example_collector) = Ok example_collector.
Proof. split; [by vm_compute|]. apply (collector_evidence example_run), example_collector_reachable. Defined.

Lemma observation_atomic_witness :
  (ObserveOperational example_collector (example_record "1500" "ok") example_facts).2 = Ok tt /\
  col_observations (ObserveOperational example_collector (example_record "1500" "ok") example_facts).1 = col_observations example_collector + 1.
Proof.
  pose proof (observation_atomic example_run example_collector (example_record "1500" "ok") example_facts
    example_collector_reachable ltac:(by repeat split)) as H.
  assert (E : (ObserveOperational example_collector (example_record "1500" "ok") example_facts).2 = Ok tt) by by vm_compute.
  split; [exact E|]. destruct (ObserveOperational example_collector (example_record "1500" "ok") example_facts) as [c' r].
  cbn in E. destruct H as [H _]. by apply H.
Defined.

Lemma comparison_exact_witness : exists d,
  CompareBehaviorSnapshots (Snapshot example_collector) (Snapshot example_collector) = Ok d /\
  added d + shared d = 1.
Proof.
  destruct (CompareBehaviorSnapshots (Snapshot example_collector) (Snapshot example_collector)) as [d|] eqn:E.
  - exists d. split; [done|].
    destruct (comparison_exact example_run example_run _ _ d example_collector_reachable example_collector_reachable E)
      as (_ & _ & _ & _ & H & _).
    rewrite H. by vm_compute.
  - exfalso. assert (is_ok (CompareBehaviorSnapshots (Snapshot example_collector) (Snapshot example_collector)) = true) by by vm_compute.
    rewrite E in H. discriminate.
Defined.

Lemma comparison_accepts_witness :
  consistent (Snapshot example_collector) (Snapshot example_collector).
Proof.
  apply (comparison_accepts example_run example_run _ _ example_collector_reachable example_collector_reachable).
  by vm_compute.
Defined.
