(* ===== verification/Scorecard.v ===== *)
(** * Package platform: the evaluation scorecard (scorecard.go)

    Two aggregates and the comparison of their behavior, checked to describe the same
    evaluations and set side by side. *)
From S2P Require Import Prelude GoText GoTime GoFloat FloatBounds Event Fingerprint DecisionRecord.
From S2P Require Import Domain Counters Operational Fidelity Aggregate Observation Counting Behavior.

Open Scope string_scope.
Open Scope Z_scope.

Record EvidenceRate : Type := { ER_count : Z; ER_total : Z }.
Definition EvidenceRate_Value (r : EvidenceRate) : float * bool :=
  if ER_total r =? 0 then (0%float, false) else ((of_Z (ER_count r) / of_Z (ER_total r))%float, true).

Record RateComparison : Type := { RC_reference : EvidenceRate; RC_candidate : EvidenceRate }.
Definition RateComparison_Delta (c : RateComparison) : float * bool :=
  let '(ref, refOK) := EvidenceRate_Value (RC_reference c) in
  let '(cand, candOK) := EvidenceRate_Value (RC_candidate c) in
  if negb refOK || negb candOK then (0%float, false) else ((cand - ref)%float, true).

Definition compareRates (referenceCount referenceTotal candidateCount candidateTotal : Z) : RateComparison :=
  {| RC_reference := {| ER_count := referenceCount; ER_total := referenceTotal |};
     RC_candidate := {| ER_count := candidateCount; ER_total := candidateTotal |} |}.

Record DecisionComparison : Type := {
  DC_Allow : RateComparison; DC_ObserveOnly : RateComparison; DC_Alert : RateComparison;
  DC_Challenge : RateComparison; DC_RequireApproval : RateComparison; DC_Block : RateComparison }.
Record RiskComparison : Type := {
  RK_Low : RateComparison; RK_Medium : RateComparison; RK_High : RateComparison; RK_Critical : RateComparison }.
Record ApprovalComparison : Type := {
  AC_Unspecified : RateComparison; AC_NotRequired : RateComparison; AC_Required : RateComparison;
  AC_Approved : RateComparison; AC_Denied : RateComparison }.
Record PolicySelectionComparison : Type := {
  PC_MatchedRule : RateComparison; PC_MatchedDefault : RateComparison }.

Record MetricComparison : Type := { MC_reference : MetricSummary; MC_candidate : MetricSummary }.
Definition MeanDelta (m : MetricComparison) : float * bool :=
  let '(ref, refOK) := MetricSummary_Mean (MC_reference m) in
  let '(cand, candOK) := MetricSummary_Mean (MC_candidate m) in
  if negb refOK || negb candOK then (0%float, false) else ((cand - ref)%float, true).
Record MetricComparisons : Type := {
  MS_IdentityConfidence : MetricComparison; MS_AnomalyScore : MetricComparison;
  MS_AnomalyConfidence : MetricComparison; MS_TrustScore : MetricComparison;
  MS_ContextRisk : MetricComparison }.

(** Counts are Go ints. *)
Record BehaviorSummary : Type := {
  ReferenceDistinctCount : Z; CandidateDistinctCount : Z;
  AddedCount : Z; RemovedCount : Z; SharedCount : Z;
  BS_AddedChangeCount : Z; BS_CorrelationState : CorrelationState; BS_CountingPolicyVersion : string }.

Definition ratio (part whole : Z) : float * bool :=
  if whole <=? 0 then (0%float, false) else ((of_Z part / of_Z whole)%float, true).
Definition AddedCandidateRate (s : BehaviorSummary) : float * bool := ratio (AddedCount s) (CandidateDistinctCount s).
Definition RemovedReferenceRate (s : BehaviorSummary) : float * bool := ratio (RemovedCount s) (ReferenceDistinctCount s).
Definition PresenceOverlap (s : BehaviorSummary) : float * bool :=
  ratio (SharedCount s) (i64 (i64 (AddedCount s + RemovedCount s) + SharedCount s)).

Record EvaluationScorecard : Type := {
  sc_bound : bool;
  sc_referenceRunID : EvaluationRunID;
  sc_referenceCandidate : CandidateID;
  sc_referenceProfile : BehavioralProfileRef;
  sc_referenceRecords : Z;
  sc_candidateRunID : EvaluationRunID;
  sc_candidateCandidate : CandidateID;
  sc_candidateProfile : BehavioralProfileRef;
  sc_candidateRecords : Z;
  sc_environment : EnvironmentRef;
  sc_decisions : DecisionComparison;
  sc_risks : RiskComparison;
  sc_approvals : ApprovalComparison;
  sc_policy : PolicySelectionComparison;
  sc_metrics : MetricComparisons;
  sc_behavior : BehaviorSummary;
  sc_operational : OperationalComparison;
}.

Definition validateAggregateEvidence (a : EvaluationAggregate) : res unit :=
  fail_if (negb (bound a)) [ErrInvalidScorecardEvidence];;
  let total := recordCount a in
  foldM (fun _ n => fail_if (negb (n =? total)) [ErrInvalidScorecardEvidence]) tt
    [DecisionCounts_Total (decisions a); RiskCounts_Total (risks a); ApprovalCounts_Total (approvals a);
     PolicySelection_Total (agg_policy a)];;
  foldM (fun _ m => fail_if (negb (M_Count m =? total)) [ErrInvalidScorecardEvidence]) tt (agg_metrics a).

Definition validateDiffEvidence (d : BehaviorDiff) : res unit :=
  foldM (fun _ value => fail_if (value =s "") [ErrInvalidScorecardEvidence]) tt
    [referenceRunID d; referenceCandidateID d; referenceProfile d; candidateRunID d; candidateCandidateID d;
     candidateProfile d; diff_environment d].

Definition assertSameComparison (reference candidate : EvaluationAggregate) (diff : BehaviorDiff) : res unit :=
  foldM (fun _ '(aggregate, own) => fail_if (aggregate <>s own) [ErrScorecardEvidenceMismatch]) tt
    [(agg_runID reference, referenceRunID diff); (agg_candidateID reference, referenceCandidateID diff);
     (agg_profile reference, referenceProfile diff); (agg_runID candidate, candidateRunID diff);
     (agg_candidateID candidate, candidateCandidateID diff); (agg_profile candidate, candidateProfile diff)];;
  fail_if ((agg_environment reference <>s agg_environment candidate) || (agg_environment reference <>s diff_environment diff))
    [ErrScorecardEvidenceMismatch];;
  fail_if (negb (recordCount reference =? referenceObservations diff)) [ErrScorecardEvidenceMismatch];;
  fail_if (negb (recordCount candidate =? candidateObservations diff)) [ErrScorecardEvidenceMismatch].

Definition NewEvaluationScorecard (reference candidate : EvaluationAggregate) (diff : BehaviorDiff)
    : res EvaluationScorecard :=
  validateAggregateEvidence reference;;
  validateAggregateEvidence candidate;;
  validateDiffEvidence diff;;
  assertSameComparison reference candidate diff;;
  let refTotal := recordCount reference in let candTotal := recordCount candidate in
  let rates refCount candCount := compareRates refCount refTotal candCount candTotal in
  let refDec := decisions reference in let candDec := decisions candidate in
  let refRisk := risks reference in let candRisk := risks candidate in
  let refApp := approvals reference in let candApp := approvals candidate in
  let refPol := agg_policy reference in let candPol := agg_policy candidate in
  let metric (get : EvaluationAggregate -> MetricSummary) :=
    {| MC_reference := get reference; MC_candidate := get candidate |} in
  Ok {| sc_bound := true;
        sc_referenceRunID := agg_runID reference; sc_referenceCandidate := agg_candidateID reference;
        sc_referenceProfile := agg_profile reference; sc_referenceRecords := refTotal;
        sc_candidateRunID := agg_runID candidate; sc_candidateCandidate := agg_candidateID candidate;
        sc_candidateProfile := agg_profile candidate; sc_candidateRecords := candTotal;
        sc_environment := agg_environment reference;
        sc_decisions := {| DC_Allow := rates (Allow refDec) (Allow candDec);
                           DC_ObserveOnly := rates (ObserveOnly refDec) (ObserveOnly candDec);
                           DC_Alert := rates (Alert refDec) (Alert candDec);
                           DC_Challenge := rates (Challenge refDec) (Challenge candDec);
                           DC_RequireApproval := rates (RequireApproval refDec) (RequireApproval candDec);
                           DC_Block := rates (Block refDec) (Block candDec) |};
        sc_risks := {| RK_Low := rates (Low refRisk) (Low candRisk);
                       RK_Medium := rates (Medium refRisk) (Medium candRisk);
                       RK_High := rates (High refRisk) (High candRisk);
                       RK_Critical := rates (Critical refRisk) (Critical candRisk) |};
        sc_approvals := {| AC_Unspecified := rates (Unspecified refApp) (Unspecified candApp);
                           AC_NotRequired := rates (NotRequired refApp) (NotRequired candApp);
                           AC_Required := rates (Required refApp) (Required candApp);
                           AC_Approved := rates (Approved refApp) (Approved candApp);
                           AC_Denied := rates (Denied refApp) (Denied candApp) |};
        sc_policy := {| PC_MatchedRule := rates (MatchedRule refPol) (MatchedRule candPol);
                        PC_MatchedDefault := rates (PS_MatchedDefault refPol) (PS_MatchedDefault candPol) |};
        sc_metrics := {| MS_IdentityConfidence := metric identityConfidence; MS_AnomalyScore := metric anomalyScore;
                         MS_AnomalyConfidence := metric anomalyConfidence; MS_TrustScore := metric trustScore;
                         MS_ContextRisk := metric agg_contextRisk |};
        sc_behavior := {| ReferenceDistinctCount := referenceDistinctCount diff;
                          CandidateDistinctCount := candidateDistinctCount diff;
                          AddedCount := added diff; RemovedCount := removed diff; SharedCount := shared diff;
                          BS_AddedChangeCount := AddedChangeCount diff;
                          BS_CorrelationState := Diff_CorrelationState diff;
                          BS_CountingPolicyVersion := CountingPolicyVersion |};
        sc_operational := operational diff |}.

(** ** Evidence of one run

    A run's aggregate and its collector, grown together as the control plane ingests records
    (applyRecord): a record the collector observes counts in both; one it refuses at capacity
    still counts in the aggregate, and leaves the collector incomplete; any other refusal
    commits neither.  Between records the collector is stored and rebuilt. *)
Inductive evidence (run : EvaluationRun) : EvaluationAggregate -> BehaviorCollector -> Prop :=
| ev_new a c : NewEvaluationAggregate run = Ok a -> NewBehaviorCollector run = Ok c -> evidence run a c
| ev_record a c record facts a' c' r :
    evidence run a c -> 0 < instant (DR_Timestamp record) -> usage_range (F_Usage facts) ->
    recordCount a + 1 < 2 ^ 53 ->
    AddRecord a record = Ok a' -> ObserveOperational c record facts = (c', r) ->
    (r = Ok tt \/ exists e, r = Err e /\ errors_is e ErrBehaviorCapacity = true) -> evidence run a' c'
| ev_rebuilt a c c' :
    evidence run a c -> behaviorCollectorFromSnapshot (Snapshot c) = Ok c' -> evidence run a c'.

(** ** Lemmas *)
Lemma AddRecord_identity a record a' : AddRecord a record = Ok a' ->
  agg_runID a' = agg_runID a /\ agg_candidateID a' = agg_candidateID a /\
  agg_environment a' = agg_environment a /\ agg_profile a' = agg_profile a.
Proof.
  intros H. unfold AddRecord in H. res_inv.
  repeat match goal with p : prod _ _ |- _ => destruct p end. injection H as <-. done.
Qed.

Lemma ObserveOperational_identity c record facts :
  let c' := (ObserveOperational c record facts).1 in
  col_runID c' = col_runID c /\ col_candidateID c' = col_candidateID c /\
  col_environment c' = col_environment c /\ col_profile c' = col_profile c.
Proof.
  pose proof (ObserveOperational_cases c record facts) as H. cbn zeta in H |- *.
  destruct (ObserveOperational c record facts) as [c' r]. cbn [fst].
  destruct H as [(? & _ & ->)|[(_ & -> & _)|[(_ & _ & ? & ? & _ & _ & _ & _ & ->)|(_ & _ & ? & _ & _ & _ & _ & ->)]]]; done.
Qed.

Record evidence_ok (run : EvaluationRun) (a : EvaluationAggregate) (c : BehaviorCollector) : Prop := {
  ev_agg : agg_ok a;
  ev_col : collector_ok c;
  ev_count : col_complete c = true -> recordCount a = col_observations c;
  ev_behind : col_observations c <= recordCount a;
  ev_small : recordCount a < 2 ^ 53;
  ev_ids : agg_runID a = run_id run /\ agg_candidateID a = run_candidateID run /\
           agg_environment a = run_environment run /\ agg_profile a = run_profile run;
  ev_cids : col_runID c = run_id run /\ col_candidateID c = run_candidateID run /\
           col_environment c = run_environment run /\ col_profile c = run_profile run;
}.

(** No check of a collector that still has room reports the capacity error. *)
Lemma validateText_never s kind v : bool_decide (kind = s) = false -> never s (validateText kind v).
Proof. intros H. unfold validateText. repeat (apply never_bind; [|intros ?]); apply never_fail_if; by rewrite errors_is_cons, H. Qed.

Lemma addCount_never a b : never ErrBehaviorCapacity (addCount a b).
Proof. unfold addCount. nevers. Qed.
#[local] Hint Resolve addCount_never : never.

Lemma observe_entry_never op fid n record facts : never ErrBehaviorCapacity (observe_entry op fid n record facts).
Proof.
  unfold observe_entry, OperationalSummary_observe, BehaviorFidelity_observe, observeOperational, add_bucket, count_http, count_tokens,
    DurationSummary_observe, skip, count, bump, ValidateDurationNanos.
  nevers.
Qed.

Lemma check_record_never c record facts : col_complete c = true -> never ErrBehaviorCapacity (check_record c record facts).
Proof.
  intros H. unfold check_record, validateBehaviorIdentity, OperationalFacts_Validate, validateFidelityPair. rewrite H.
  nevers; first [by apply validateText_never|by apply never_Ok].
Qed.

Lemma refusal_not_capacity c record facts e : ObserveOperational c record facts = (c, Err e) -> col_complete c = true ->
  errors_is e ErrBehaviorCapacity = true -> False.
Proof.
  unfold ObserveOperational. intros H Hc He. apply (eq_true_false_abs _ He).
  destruct (check_record c record facts) as [u|e'] eqn:Ec;
    [|injection H as <-; exact (check_record_never _ _ _ Hc _ Ec)].
  destruct (col_entries c !! DR_FingerprintID record) as [x|].
  - case_bool_decide; [by injection H as <-|]. destruct (_ =? max_u64); [by injection H as <-|].
    destruct (observe_entry _ _ _ _ _) as [y|e'] eqn:Eo; [discriminate|].
    injection H as <-. exact (observe_entry_never _ _ _ _ _ _ Eo).
  - destruct (match col_byBehavior c !! _ with Some _ => _ | None => _ end); [by injection H as <-|].
    destruct (maxBehaviorEntries <=? _).
    + injection H as H _. apply (f_equal col_complete) in H. cbn in H. congruence.
    + destruct (observe_entry _ _ _ _ _) as [y|e'] eqn:Eo; [discriminate|].
      injection H as <-. exact (observe_entry_never _ _ _ _ _ _ Eo).
Qed.

(** What one observation does to the collector's counters, by its result. *)
Lemma observation_counters c record facts c' r : ObserveOperational c record facts = (c', r) ->
  match r with
  | Ok _ => col_observations c' = col_observations c + 1 /\ col_complete c = true /\ col_complete c' = true
  | Err e => col_observations c' = col_observations c /\
             (errors_is e ErrBehaviorCapacity = true -> col_complete c' = false)
  end.
Proof.
  intros H. pose proof (ObserveOperational_cases c record facts) as Hc. cbn zeta in Hc. rewrite H in Hc.
  assert (Hck : check_record c record facts = Ok tt -> col_complete c = true).
  { intros E. unfold check_record in E. res_inv. by apply negb_false_iff. }
  destruct Hc as [(e & -> & ->)|[(-> & -> & _)|[(-> & E & ? & ? & _ & _ & _ & _ & ->)|(-> & E & ? & _ & _ & _ & _ & ->)]]];
    [|done|(by specialize (Hck E))..].
  split; [done|]. intros He. apply not_true_iff_false. intros Hcomp.
  apply (refusal_not_capacity _ _ _ _ H Hcomp He).
Qed.

Lemma evidence_reachable_ok run a c : evidence run a c -> evidence_ok run a c.
Proof.
  induction 1 as [a c Ha Hc|a c record facts a' c' r _ IH Ht Hu Hn Ha Hc Hr|a c c' _ IH Hr].
  - destruct (NewEvaluationAggregate_ok _ _ Ha) as [Ho Hz]. pose proof (NewBehaviorCollector_ok _ _ Hc) as Hco.
    unfold NewEvaluationAggregate in Ha. unfold NewBehaviorCollector in Hc. res_inv. subst. by split.
  - destruct IH as [I1 I2 I3 I3' I4 I5 I6].
    destruct (AddRecord_ok a record a' I1 Ht ltac:(lia) Ha) as [Ha' Hcount].
    pose proof (ObserveOperational_ok c record facts I2 Hu) as Hc'. pose proof (ObserveOperational_identity c record facts) as Hid.
    rewrite Hc in Hc', Hid. cbn in Hid. destruct Hid as (E1 & E2 & E3 & E4).
    destruct (AddRecord_identity _ _ _ Ha) as (F1 & F2 & F3 & F4).
    pose proof (observation_counters _ _ _ _ _ Hc) as Ho.
    split; [done|done| | |lia|by rewrite F1, F2, F3, F4|by rewrite E1, E2, E3, E4].
    + intros Hcomp. destruct Hr as [->|(e & -> & He)]; destruct Ho as [Ho Ho']; [|by rewrite (Ho' He) in Hcomp].
      rewrite Hcount, Ho, I3; [lia|apply Ho'].
    + destruct Hr as [->|(e & -> & He)]; destruct Ho as [Ho _]; lia.
  - rewrite restore_Snapshot in Hr by apply IH. by injection Hr as <-.
Qed.

(** The diff of two runs' evidence, uncorrelated or correlated with the candidate's history. *)
Definition compared (c1 c2 : BehaviorCollector) (d : BehaviorDiff) : Prop :=
  exists d0, CompareBehaviorSnapshots (Snapshot c1) (Snapshot c2) = Ok d0 /\
    (d = d0 \/ exists observations history, WithCorrelation d0 observations history = Ok d).

Record diff_ok (c1 c2 : BehaviorCollector) (d : BehaviorDiff) : Prop := {
  df_complete : col_complete c1 = true /\ col_complete c2 = true;
  df_ref : referenceRunID d = col_runID c1 /\ referenceCandidateID d = col_candidateID c1 /\
           referenceProfile d = col_profile c1 /\ referenceObservations d = col_observations c1;
  df_cand : candidateRunID d = col_runID c2 /\ candidateCandidateID d = col_candidateID c2 /\
            candidateProfile d = col_profile c2 /\ candidateObservations d = col_observations c2;
  df_env : diff_environment d = col_environment c1 /\ col_environment c1 = col_environment c2;
  df_distinct : referenceDistinctCount d = Z.of_nat (length (ids (Snapshot c1))) /\
                candidateDistinctCount d = Z.of_nat (length (ids (Snapshot c2)));
  df_counts : added d + shared d = candidateDistinctCount d /\ removed d + shared d = referenceDistinctCount d /\
              0 <= added d /\ 0 <= removed d /\ 0 <= shared d;
  df_added : added d = countb (fun id => negb (bool_decide (id ∈ ids (Snapshot c1)))) (ids (Snapshot c2));
  df_changes : AddedChangeCount d <= added d /\ (0 < added d -> 0 < AddedChangeCount d);
  df_correlation : In (Diff_CorrelationState d) [CorrelationComplete; CorrelationPartial; CorrelationUnavailable] /\
    (Diff_CorrelationState d <> CorrelationComplete -> AddedChangeCount d = added d);
}.

Lemma foldAddedChanges_state added p state : In state [CorrelationComplete; CorrelationPartial; CorrelationUnavailable] ->
  In (foldAddedChanges added p state).2 [CorrelationComplete; CorrelationPartial; CorrelationUnavailable].
Proof.
  intros H. unfold foldAddedChanges. destruct (negb (folded state) || degraded p).
  - cbn [snd]. destruct (degraded p && _)%go; [cbn; tauto|done].
  - destruct (hasCycle _ _); [cbn; tauto|done].
Qed.

Lemma compared_ok c1 c2 d : collector_ok c1 -> collector_ok c2 -> compared c1 c2 d -> diff_ok c1 c2 d.
Proof.
  intros H1 H2 (d0 & Hd0 & Hd). pose proof (Snapshot_ok c1 H1) as HR. pose proof (Snapshot_ok c2 H2) as HC.
  apply (compare_spec _ _ HR HC) in Hd0 as (K1 & K2 & Henv & _ & op & _ & E0).
  destruct (raw_deltas_counts _ _ HR HC) as (N1 & N2 & N3 & _).
  destruct (addedIdentities_spec _ _ HR HC) as (A1 & A2 & _). cbn zeta in A1, A2.
  assert (Ef : forall c, collector_ok c -> snap_runID (Snapshot c) = col_runID c /\ snap_candidateID (Snapshot c) = col_candidateID c /\
      snap_profile (Snapshot c) = col_profile c /\ snap_observations (Snapshot c) = col_observations c /\
      snap_environment (Snapshot c) = col_environment c /\ snap_complete (Snapshot c) = col_complete c).
  { intros c Hc. unfold Snapshot. by rewrite (co_bound c Hc). }
  destruct (Ef c1 H1) as (E1 & E2 & E3 & E4 & E5 & E6). destruct (Ef c2 H2) as (F1 & F2 & F3 & F4 & F5 & F6).
  rewrite E6 in K1. rewrite F6 in K2.
  rewrite E5, F5 in Henv. set (ds := sort_by BD_FingerprintID _) in *.
  assert (Hlen : forall s, Z.of_nat (length (ids s)) = Z.of_nat (length (snap_entries s))) by (intros s; unfold ids; by rewrite length_fmap).
  assert (Hpos : forall p l, 0 <= count_presence p l) by (intros; unfold count_presence; lia).
  destruct Hd as [->|(obs & hist & Hw)].
  - subst d0. destruct (unfoldedChanges_spec (addedIdentities ds)) as [Hroots _].
    assert (Hch : Z.of_nat (length (unfoldedChanges (addedIdentities ds))) = count_presence BehaviorAdded (raw_deltas (Snapshot c1) (Snapshot c2))).
    { rewrite <- (length_fmap RootFingerprintID), Hroots. exact A2. }
    split; cbn; rewrite ?E1, ?E2, ?E3, ?E4, ?E5, ?F1, ?F2, ?F3, ?F4, ?Hlen; unfold AddedChangeCount; cbn [changes]; rewrite ?Hch; try done.
    split; [tauto|done].
  - unfold WithCorrelation in Hw. subst d0. cbn [deltas] in Hw. fold ds in Hw.
    pose proof (fold_bounds (addedIdentities ds) (buildBehaviorParentage obs) (correlationStateFor hist) A1) as Hb. cbn zeta in Hb.
    pose proof (foldAddedChanges_cases (addedIdentities ds) (buildBehaviorParentage obs) (correlationStateFor hist)) as Hcs. cbn zeta in Hcs.
    pose proof (foldAddedChanges_state (addedIdentities ds) (buildBehaviorParentage obs) (correlationStateFor hist)) as Hst.
    destruct (foldAddedChanges _ _ _) as [ch st]. cbn [fst snd] in *. res_inv. subst d.
    destruct Hb as (_ & _ & _ & Hcov & Hle).
    assert (Hst' : In st [CorrelationComplete; CorrelationPartial; CorrelationUnavailable]).
    { apply Hst. unfold correlationStateFor. destruct (Available hist), (History_Complete hist); cbn; tauto. }
    assert (Hds : Diff_CorrelationState {| referenceRunID := ""; referenceCandidateID := ""; referenceProfile := ""; referenceObservations := 0;
       referenceDistinctCount := 0; candidateRunID := ""; candidateCandidateID := ""; candidateProfile := ""; candidateObservations := 0;
       candidateDistinctCount := 0; diff_environment := ""; deltas := []; added := 0; removed := 0; shared := 0; changes := [];
       correlationState := st; operational := op |} = st).
    { unfold Diff_CorrelationState. cbn [correlationState]. by destruct Hst' as [<-|[<-|[<-|[]]]]. }
    unfold Diff_CorrelationState in Hds. cbn [correlationState] in Hds.
    split; cbn [referenceRunID referenceCandidateID referenceProfile referenceObservations candidateRunID candidateCandidateID
      candidateProfile candidateObservations diff_environment referenceDistinctCount candidateDistinctCount added removed shared];
      unfold Diff_CorrelationState, AddedChangeCount; cbn [changes correlationState added]; rewrite ?Hds;
      rewrite ?E1, ?E2, ?E3, ?E4, ?E5, ?F1, ?F2, ?F3, ?F4, ?Hlen; try done.
    + split; [lia|]. intros Hp. destruct ch; [|cbn; lia]. destruct (addedIdentities ds) as [|id l]; [cbn in A2; lia|].
      destruct (Hcov id) as (c & Hc & _); [by apply elem_of_cons; left|]. by apply elem_of_nil in Hc.
    + split; [done|]. intros Hne. destruct Hcs as [(-> & _)|[_ ->]]; [done|].
      destruct (unfoldedChanges_spec (addedIdentities ds)) as [Hroots _].
      rewrite <- (length_fmap RootFingerprintID), Hroots. exact A2.
Qed.

(** ** The scorecard of two runs' evidence *)
Definition dimensions (s : EvaluationScorecard) : list (list RateComparison) :=
  let d := sc_decisions s in let r := sc_risks s in let a := sc_approvals s in let p := sc_policy s in
  [[DC_Allow d; DC_ObserveOnly d; DC_Alert d; DC_Challenge d; DC_RequireApproval d; DC_Block d];
   [RK_Low r; RK_Medium r; RK_High r; RK_Critical r];
   [AC_Unspecified a; AC_NotRequired a; AC_Required a; AC_Approved a; AC_Denied a];
   [PC_MatchedRule p; PC_MatchedDefault p]].
Definition score_metrics (s : EvaluationScorecard) : list MetricComparison :=
  let m := sc_metrics s in
  [MS_IdentityConfidence m; MS_AnomalyScore m; MS_AnomalyConfidence m; MS_TrustScore m; MS_ContextRisk m].

(** One side of one dimension: the buckets partition the run's records, and every bucket's
    share of a run with records is a number of the unit interval. *)
Definition partitions (n : Z) (rates : list EvidenceRate) : Prop :=
  sumL (ER_count <$> rates) = n /\
  Forall (fun r => ER_total r = n /\ (0 < n -> (EvidenceRate_Value r).2 = true /\ in01 (EvidenceRate_Value r).1)) rates.
Definition mean_in_unit (n : Z) (m : MetricSummary) : Prop :=
  0 < n -> (MetricSummary_Mean m).2 = true /\ in01 (MetricSummary_Mean m).1.

Definition run_ids (r : EvaluationRun) := (run_id r, run_candidateID r, run_environment r, run_profile r).

Lemma validateAggregateEvidence_ok a : agg_ok a -> validateAggregateEvidence a = Ok tt.
Proof.
  intros H. destruct (agg_ok_totals a H) as (T1 & T2 & T3 & T4). unfold validateAggregateEvidence.
  rewrite !bind_unit_iff, !foldM_Forall, (ao_bound a H). split; [done|]. split.
  - rewrite T1, T2, T3, T4. cbn. rewrite !Forall_cons, !fail_if_iff, Z.eqb_refl. by repeat split.
  - eapply Forall_impl; [apply (ao_metrics a H)|]. intros m Hm. rewrite fail_if_iff, (mo_count _ _ Hm), Z.eqb_refl. done.
Qed.

Lemma sum_component l x : Forall is_u64 l -> In x l -> 0 <= x <= sumL l.
Proof.
  unfold sumL. induction 1 as [|y l Hy Hl IH]; [done|]. pose proof (sumL_nonneg l Hl) as Hs. unfold sumL in Hs.
  cbn. intros [->|Hx]; [ulia|]. specialize (IH Hx). ulia.
Qed.

Definition shares (n : Z) (parts : list Z) : list EvidenceRate := map (fun c => {| ER_count := c; ER_total := n |}) parts.

Lemma parts_partition n parts (rates : list EvidenceRate) : parts_ok parts n -> n < 2 ^ 53 ->
  rates = shares n parts -> partitions n rates.
Proof.
  intros [Hu Hs] Hn ->. split.
  - etrans; [|exact Hs]. f_equal. clear. induction parts as [|x l IH]; [done|]. cbn. by f_equal.
  - unfold shares. rewrite List.Forall_map, Forall_forall. intros c Hc%list_elem_of_In. cbn. split; [done|]. intros Hp.
    pose proof (sum_component _ _ Hu Hc). unfold EvidenceRate_Value. cbn. destruct (Z.eqb_spec n 0); [lia|].
    split; [done|]. apply ratio_in01; lia.
Qed.

Lemma diff_evidence_ok c1 c2 d : collector_ok c1 -> collector_ok c2 -> diff_ok c1 c2 d ->
  col_runID c1 <> "" -> col_candidateID c1 <> "" -> col_profile c1 <> "" -> col_environment c1 <> "" ->
  col_runID c2 <> "" -> col_candidateID c2 <> "" -> col_profile c2 <> "" -> validateDiffEvidence d = Ok tt.
Proof.
  intros H1 H2 D. unfold validateDiffEvidence. destruct (df_ref _ _ _ D) as (-> & -> & -> & _), (df_cand _ _ _ D) as (E1 & E2 & E3 & _).
  destruct (df_env _ _ _ D) as [E4 _]. intros. rewrite E1, E2, E3, E4, foldM_Forall.
  repeat (apply Forall_cons; split; [by rewrite fail_if_iff, String.eqb_neq|]). constructor.
Qed.

Lemma agg_ids_nonempty run a c : evidence_ok run a c ->
  run_id run <> "" /\ run_candidateID run <> "" /\ run_environment run <> "" /\ run_profile run <> "".
Proof.
  intros [H _ _ _ _ (<- & <- & <- & <-) _]. pose proof (ao_ids a H) as Hids. rewrite !Forall_cons in Hids.
  destruct Hids as (H1 & H2 & H3 & H4 & _).
  assert (He : forall s, validateID s = Ok tt -> s <> "") by (intros s Hs ->; by vm_compute in Hs).
  split_and!; by apply He.
Qed.

(** The assembled card, from its own definition: every dimension is the two counters side by side. *)
Lemma scorecard_shape a1 a2 d s : NewEvaluationScorecard a1 a2 d = Ok s ->
  sc_bound s = true /\ sc_referenceRecords s = recordCount a1 /\ sc_candidateRecords s = recordCount a2 /\
  map (map RC_reference) (dimensions s) =
    map (shares (recordCount a1)) [decision_parts (decisions a1); risk_parts (risks a1); approval_parts (approvals a1); policy_parts (agg_policy a1)] /\
  map (map RC_candidate) (dimensions s) =
    map (shares (recordCount a2)) [decision_parts (decisions a2); risk_parts (risks a2); approval_parts (approvals a2); policy_parts (agg_policy a2)] /\
  map MC_reference (score_metrics s) = agg_metrics a1 /\ map MC_candidate (score_metrics s) = agg_metrics a2 /\
  (sc_referenceRunID s, sc_referenceCandidate s, sc_environment s, sc_referenceProfile s) =
    (agg_runID a1, agg_candidateID a1, agg_environment a1, agg_profile a1) /\
  (sc_candidateRunID s, sc_candidateCandidate s, sc_candidateProfile s) = (agg_runID a2, agg_candidateID a2, agg_profile a2) /\
  sc_operational s = operational d /\
  sc_behavior s = {| ReferenceDistinctCount := referenceDistinctCount d; CandidateDistinctCount := candidateDistinctCount d;
    AddedCount := added d; RemovedCount := removed d; SharedCount := shared d; BS_AddedChangeCount := AddedChangeCount d;
    BS_CorrelationState := Diff_CorrelationState d; BS_CountingPolicyVersion := CountingPolicyVersion |}.
Proof. intros H. unfold NewEvaluationScorecard in H. res_inv. by subst s. Qed.

Lemma scorecard_ok_iff r1 a1 c1 r2 a2 c2 r1' a1' c1' r2' a2' c2' d :
  evidence_ok r1 a1 c1 -> evidence_ok r2 a2 c2 -> evidence_ok r1' a1' c1' -> evidence_ok r2' a2' c2' ->
  diff_ok c1' c2' d ->
  is_ok (NewEvaluationScorecard a1 a2 d) = true <->
    run_ids r1 = run_ids r1' /\ run_ids r2 = run_ids r2' /\ recordCount a1 = recordCount a1' /\ recordCount a2 = recordCount a2'.
Proof.
  intros H1 H2 H1' H2' D.
  destruct (agg_ids_nonempty _ _ _ H1') as (N1 & N2 & N3 & N4), (agg_ids_nonempty _ _ _ H2') as (M1 & M2 & M3 & M4).
  destruct (ev_ids _ _ _ H1) as (A1 & A2 & A3 & A4), (ev_ids _ _ _ H2) as (B1 & B2 & B3 & B4).
  destruct (ev_cids _ _ _ H1') as (C1 & C2 & C3 & C4), (ev_cids _ _ _ H2') as (E1 & E2 & E3 & E4).
  destruct (df_ref _ _ _ D) as (F1 & F2 & F3 & F4), (df_cand _ _ _ D) as (G1 & G2 & G3 & G4), (df_env _ _ _ D) as [K1 K2].
  rewrite C1 in F1. rewrite C2 in F2. rewrite C3 in K1. rewrite C4 in F3. rewrite E1 in G1. rewrite E2 in G2. rewrite E4 in G3.
  rewrite C3, E3 in K2. destruct (df_complete _ _ _ D) as [P1 P2].
  rewrite <- (ev_count _ _ _ H1' P1) in F4. rewrite <- (ev_count _ _ _ H2' P2) in G4.
  assert (Hd : validateDiffEvidence d = Ok tt).
  { apply (diff_evidence_ok c1' c2'); try done; try apply H1'; try apply H2'; congruence. }
  rewrite is_ok_spec. unfold NewEvaluationScorecard.
  rewrite (validateAggregateEvidence_ok a1) by apply H1. rewrite (validateAggregateEvidence_ok a2) by apply H2. rewrite Hd.
  assert (Hs : assertSameComparison a1 a2 d = Ok tt <->
    run_ids r1 = run_ids r1' /\ run_ids r2 = run_ids r2' /\ recordCount a1 = recordCount a1' /\ recordCount a2 = recordCount a2').
  { unfold assertSameComparison, run_ids. rewrite !bind_unit_iff, foldM_Forall, !Forall_cons, !fail_if_iff, orb_false_iff, !negb_false_iff,
      !String.eqb_eq, !Z.eqb_eq.
    rewrite A1, A2, A3, A4, B1, B2, B3, B4, F1, F2, F3, F4, G1, G2, G3, G4, K1. split.
    - intros ((X1 & X2 & X3 & X4 & X5 & X6 & _) & [X7 X8] & X9 & X10). split_and!; congruence.
    - intros (X1 & X2 & X3 & X4). injection X1 as ????. injection X2 as ????. split_and!; try congruence. constructor. }
  rewrite <- Hs. clear. destruct (assertSameComparison a1 a2 d) as [[]|e].
  - split; [done|]. intros _. by eexists.
  - split; [by intros [? [=]]|done].
Qed.

Lemma sides_partition a f dims : agg_ok a -> recordCount a < 2 ^ 53 ->
  map (map f) dims = map (shares (recordCount a)) [decision_parts (decisions a); risk_parts (risks a); approval_parts (approvals a); policy_parts (agg_policy a)] ->
  Forall (fun l : list RateComparison => partitions (recordCount a) (map f l)) dims.
Proof.
  intros Ha Hn E. pose proof (ao_parts a Ha) as Hp. apply (List.Forall_map (map f)). rewrite E, List.Forall_map.
  eapply Forall_impl; [exact Hp|]. intros parts Hparts.
  exact (parts_partition _ parts _ Hparts Hn eq_refl).
Qed.

Lemma sides_means a f (l : list MetricComparison) : agg_ok a -> recordCount a < 2 ^ 53 ->
  map f l = agg_metrics a -> Forall (fun m => mean_in_unit (recordCount a) (f m)) l.
Proof.
  intros Ha Hn E. apply (List.Forall_map f). rewrite E. eapply Forall_impl; [exact (ao_metrics a Ha)|].
  intros m Hm Hp. apply (mean_in01 m (recordCount a) Hm). lia.
Qed.

(** ** Properties *)

(** C18: two runs whose evidence was collected record by record (fewer than 2^53 records
    each), and the comparison of that evidence, with or without correlation, always assemble
    into a scorecard.  In every dimension (decision, risk, approval, policy selection) the
    buckets of each side sum to exactly that run's record count, the share of every bucket of
    a run that has records is defined and lies in the unit interval whatever the rounding, and
    so are the metric means; the behavior summary balances on both sides, counts as added
    exactly the candidate's identities the reference never showed, and never reports more
    changes than added identities, nor none when there are some. *)
Theorem scorecard_built r1 a1 c1 r2 a2 c2 d :
  evidence r1 a1 c1 -> evidence r2 a2 c2 -> compared c1 c2 d ->
  exists s, NewEvaluationScorecard a1 a2 d = Ok s /\
    sc_referenceRecords s = col_observations c1 /\ sc_candidateRecords s = col_observations c2 /\
    Forall (fun l => partitions (col_observations c1) (map RC_reference l) /\
    partitions (col_observations c2) (map RC_candidate l)) (dimensions s) /\
    Forall (fun m => mean_in_unit (col_observations c1) (MC_reference m) /\
    mean_in_unit (col_observations c2) (MC_candidate m)) (score_metrics s) /\
    (let b := sc_behavior s in
     AddedCount b + SharedCount b = CandidateDistinctCount b /\
    RemovedCount b + SharedCount b = ReferenceDistinctCount b /\
    AddedCount b = countb (fun id => negb (bool_decide (id ∈ ids (Snapshot c1)))) (ids (Snapshot c2)) /\
    BS_AddedChangeCount b <= AddedCount b /\ (0 < AddedCount b -> 0 < BS_AddedChangeCount b)).
Proof.
  intros H1%evidence_reachable_ok H2%evidence_reachable_ok Hd.
  pose proof (compared_ok _ _ _ (ev_col _ _ _ H1) (ev_col _ _ _ H2) Hd) as D.
  pose proof (scorecard_ok_iff _ _ _ _ _ _ _ _ _ _ _ _ d H1 H2 H1 H2 D) as Hok.
  destruct (NewEvaluationScorecard a1 a2 d) as [s|e] eqn:E; [|assert (false = true) by (by apply Hok); done].
  exists s. split; [done|].
  destruct (scorecard_shape _ _ _ _ E) as (_ & -> & -> & P1 & P2 & M1 & M2 & _ & _ & _ & ->). cbn zeta.
  cbn [AddedCount SharedCount CandidateDistinctCount RemovedCount ReferenceDistinctCount BS_AddedChangeCount].
  destruct (df_complete _ _ _ D) as [Q1 Q2]. rewrite <- (ev_count _ _ _ H1 Q1), <- (ev_count _ _ _ H2 Q2). split; [done|]. split; [done|].
  destruct (df_counts _ _ _ D) as (D1 & D2 & _), (df_changes _ _ _ D) as [D3 D4].
  split; [|split; [|by rewrite (df_added _ _ _ D) in *]].
  - apply Forall_and. split.
    + eapply sides_partition; [apply H1|apply H1|exact P1].
    + eapply sides_partition; [apply H2|apply H2|exact P2].
  - apply Forall_and. split.
    + eapply sides_means; [apply H1|apply H1|exact M1].
    + eapply sides_means; [apply H2|apply H2|exact M2].
Qed.

(** a scorecard never mixes evidence: aggregates of two runs and a comparison of (the
    same or other) runs' behavior assemble exactly when the comparison is of those two runs -
    the same run, candidate, environment and profile on each side - and of the same number of
    records on each side.  Everything else is refused. *)
Theorem scorecard_refuses_mixed r1 a1 c1 r2 a2 c2 r1' a1' c1' r2' a2' c2' d :
  evidence r1 a1 c1 -> evidence r2 a2 c2 -> evidence r1' a1' c1' -> evidence r2' a2' c2' ->
  compared c1' c2' d ->
  is_ok (NewEvaluationScorecard a1 a2 d) = true <->
    run_ids r1 = run_ids r1' /\ run_ids r2 = run_ids r2' /\
    recordCount a1 = recordCount a1' /\ recordCount a2 = recordCount a2'.
Proof.
  intros H1%evidence_reachable_ok H2%evidence_reachable_ok H1'%evidence_reachable_ok H2'%evidence_reachable_ok Hd.
  pose proof (compared_ok _ _ _ (ev_col _ _ _ H1') (ev_col _ _ _ H2') Hd) as D.
  exact (scorecard_ok_iff _ _ _ _ _ _ _ _ _ _ _ _ d H1 H2 H1' H2' D).
Qed.

(** ** Witnesses *)
Definition example_candidate_run : EvaluationRun :=
  {| run_id := "r2"; run_candidateID := "c2"; run_environment := "prod"; run_profile := "p";
     status := RunRunning; createdAt := day 1; startedAt := day 2; finishedAt := zero_time; failureReason := "" |}.
Definition grown (run : EvaluationRun) : option (EvaluationAggregate * BehaviorCollector) :=
  match NewEvaluationAggregate run, NewBehaviorCollector run with
  | Ok a, Ok c =>
      match AddRecord a (example_record "1500" "ok"), ObserveOperational c (example_record "1500" "ok") example_facts with
      | Ok a', (c', Ok tt) => Some (a', c')
      | _, _ => None
      end
  | _, _ => None
  end.

Lemma grown_evidence run a c : grown run = Some (a, c) -> evidence run a c.
Proof.
  unfold grown. destruct (NewEvaluationAggregate run) as [a0|] eqn:Ea; [|done].
  destruct (NewBehaviorCollector run) as [c0|] eqn:Ec; [|done].
  destruct (AddRecord a0 _) as [a'|] eqn:Ha; [|done].
  destruct (ObserveOperational c0 _ _) as [c' [[]|]] eqn:Hc; [|done]. intros [= <- <-].
  destruct (NewEvaluationAggregate_ok _ _ Ea) as [_ Hz].
  refine (ev_record _ _ _ _ _ _ _ _ (ev_new _ _ _ Ea Ec) _ _ _ Ha Hc (or_introl eq_refl)); [done|by repeat split|rewrite Hz; lia].
Qed.

Definition grown_example (a1 : EvaluationAggregate) (c1 : BehaviorCollector) (a2 : EvaluationAggregate)
    (c2 : BehaviorCollector) (d : BehaviorDiff) : Prop :=
  evidence example_run a1 c1 /\ evidence example_candidate_run a2 c2 /\ compared c1 c2 d /\ col_observations c2 = 1.

(** Both example runs take one record, and their evidence compares. *)
Lemma grown_examples : exists a1 c1 a2 c2 d, grown_example a1 c1 a2 c2 d.
Proof.
  assert (Hc : match grown example_run, grown example_candidate_run with
               | Some (_, c1), Some (_, c2) => is_ok (CompareBehaviorSnapshots (Snapshot c1) (Snapshot c2)) && (col_observations c2 =? 1)
               | _, _ => false end = true) by by vm_compute.
  destruct (grown example_run) as [[a1 c1]|] eqn:E1; [|discriminate Hc].
  destruct (grown example_candidate_run) as [[a2 c2]|] eqn:E2; [|discriminate Hc].
  apply andb_true_iff in Hc as [Hc Hn%Z.eqb_eq].
  destruct (CompareBehaviorSnapshots (Snapshot c1) (Snapshot c2)) as [d|] eqn:Ed; [|discriminate Hc].
  exists a1, c1, a2, c2, d. split; [exact (grown_evidence _ _ _ E1)|]. split; [exact (grown_evidence _ _ _ E2)|].
  split; [|exact Hn]. exists d. split; [exact Ed|by left].
Qed.

Lemma scorecard_built_witness : exists a1 c1 a2 c2 d s,
  grown_example a1 c1 a2 c2 d /\ NewEvaluationScorecard a1 a2 d = Ok s /\ sc_candidateRecords s = 1.
Proof.
  destruct grown_examples as (a1 & c1 & a2 & c2 & d & H). pose proof H as (E1 & E2 & Hcmp & Hn).
  destruct (scorecard_built example_run a1 c1 example_candidate_run a2 c2 d E1 E2 Hcmp) as (s & Hs & _ & Hr & _).
  exists a1, c1, a2, c2, d, s. refine (conj H (conj Hs _)). rewrite Hr. exact Hn.
Defined.

(** Swapping the two aggregates is refused. *)
Lemma scorecard_refuses_mixed_witness : exists a1 c1 a2 c2 d,
  grown_example a1 c1 a2 c2 d /\ is_ok (NewEvaluationScorecard a2 a1 d) = false.
Proof.
  destruct grown_examples as (a1 & c1 & a2 & c2 & d & H). pose proof H as (E1 & E2 & Hcmp & Hn).
  exists a1, c1, a2, c2, d. refine (conj H _). apply not_true_iff_false. intros Hok.
  assert (Hids : run_ids example_candidate_run <> run_ids example_run) by (intros E; injection E; discriminate).
  apply Hids. apply (scorecard_refuses_mixed _ a2 c2 _ a1 c1 _ a1 c1 _ a2 c2 d E2 E1 E1 E2 Hcmp).
  exact Hok.
Defined.
