(* ===== verification/Gate.v ===== *)
(** * Package platform: the evaluation gate (gate.go)

    Fixed limits over a scorecard: which evaluations pass, which fail, and which evidence the
    gate refuses to judge. *)
From S2P Require Import Prelude GoText GoTime GoFloat FloatBounds Event Fingerprint DecisionRecord.
From S2P Require Import Domain Counters Operational Fidelity Aggregate Observation Counting Behavior Scorecard.

Open Scope string_scope.
Open Scope Z_scope.

Definition GateVerdict := string.
Definition GateVerdictPass : GateVerdict := "pass".
Definition GateVerdictFail : GateVerdict := "fail".

Record OptionalGateLimit : Type := { maximum : Z; set : bool }.
Definition NewOptionalGateLimit (maximum : Z) : OptionalGateLimit := {| maximum := maximum; set := true |}.
Definition OptionalGateLimit_Maximum (l : OptionalGateLimit) : Z * bool := (maximum l, set l).

(** uint64 maxima. *)
Record EvaluationGateLimits : Type := {
  MaxAddedBehaviors : Z;
  MaxBlockDecisions : Z;
  MaxCriticalRiskObservations : Z;
  MaxAddedBehaviorChanges : OptionalGateLimit;
}.

Record EvaluationGatePolicy : Type := { gp_bound : bool; limits : EvaluationGateLimits }.
Definition NewEvaluationGatePolicy (limits : EvaluationGateLimits) : EvaluationGatePolicy :=
  {| gp_bound := true; limits := limits |}.

Definition GateCheckState := string.
Definition GateCheckEvaluated : GateCheckState := "evaluated".
Definition GateCheckNotEvaluated : GateCheckState := "not_evaluated".
Definition GateCheckNotRecorded : GateCheckState := "not_recorded".
Definition GateCheckState_valid (s : GateCheckState) : bool :=
  (s =s GateCheckEvaluated) || (s =s GateCheckNotEvaluated) || (s =s GateCheckNotRecorded).

Record ChangeCountGate : Type := {
  State : GateCheckState;
  CG_Actual : Z;
  CG_Maximum : Z;
  CG_Passed : bool;
  CG_CorrelationState : CorrelationState;
  CG_CountingPolicyVersion : string;
}.
#[export] Instance ChangeCountGate_eq_dec : EqDecision ChangeCountGate.
Proof. solve_decision. Defined.
Definition Evaluated (g : ChangeCountGate) : bool := State g =s GateCheckEvaluated.
(** [ChangeCountGate{State: s}]: every other field zero. *)
Definition bare_change_gate (s : GateCheckState) : ChangeCountGate :=
  {| State := s; CG_Actual := 0; CG_Maximum := 0; CG_Passed := false; CG_CorrelationState := "";
     CG_CountingPolicyVersion := "" |}.

Record MinimumCountGate : Type := { MI_Actual : Z; Minimum : Z; MI_Passed : bool }.
Record MaximumCountGate : Type := { MA_Actual : Z; Maximum : Z; MA_Passed : bool }.
Definition minimumGate (actual minimum : Z) : MinimumCountGate :=
  {| MI_Actual := actual; Minimum := minimum; MI_Passed := minimum <=? actual |}.
Definition maximumGate (actual maximum : Z) : MaximumCountGate :=
  {| MA_Actual := actual; Maximum := maximum; MA_Passed := actual <=? maximum |}.

Record EvaluationGateResult : Type := {
  gr_bound : bool;
  gr_referenceRunID : EvaluationRunID;
  gr_referenceCandidate : CandidateID;
  gr_candidateRunID : EvaluationRunID;
  gr_candidateCandidate : CandidateID;
  gr_environment : EnvironmentRef;
  referenceEvidence : MinimumCountGate;
  candidateEvidence : MinimumCountGate;
  addedBehaviors : MaximumCountGate;
  blockDecisions : MaximumCountGate;
  criticalRiskObservations : MaximumCountGate;
  addedBehaviorChanges : ChangeCountGate;
  verdict : GateVerdict;
}.

(** The counted-change evidence, read when its optional limit is set. *)
Definition validateChangeCountEvidence (s : BehaviorSummary) : res unit :=
  let changes := BS_AddedChangeCount s in let added := AddedCount s in
  if changes <? 0 then Err [ErrInvalidGateEvidence]
  else if added <? changes then Err [ErrInvalidGateEvidence]
  else if (0 <? added) && (changes =? 0) then Err [ErrInvalidGateEvidence]
  else
    (let c := BS_CorrelationState s in
     if c =s CorrelationComplete then Ok tt
     else if (c =s CorrelationPartial) || (c =s CorrelationUnavailable)
          then fail_if (negb (changes =? added)) [ErrInvalidGateEvidence]
     else Err [ErrInvalidGateEvidence]);;
    fail_if (BS_CountingPolicyVersion s =s "") [ErrInvalidGateEvidence].

Definition validateBehaviorSummaryArithmetic (s : BehaviorSummary) : res unit :=
  fail_if ((AddedCount s <? 0) || (RemovedCount s <? 0) || (SharedCount s <? 0) ||
           (ReferenceDistinctCount s <? 0) || (CandidateDistinctCount s <? 0)) [ErrInvalidGateEvidence];;
  fail_if (negb (i64 (AddedCount s + SharedCount s) =? CandidateDistinctCount s)) [ErrInvalidGateEvidence];;
  fail_if (negb (i64 (RemovedCount s + SharedCount s) =? ReferenceDistinctCount s)) [ErrInvalidGateEvidence].

Definition EvaluateEvaluationGate (scorecard : EvaluationScorecard) (policy : EvaluationGatePolicy)
    : res EvaluationGateResult :=
  fail_if (negb (gp_bound policy)) [ErrInvalidGatePolicy];;
  fail_if (negb (sc_bound scorecard)) [ErrInvalidGateEvidence];;
  let behavior := sc_behavior scorecard in
  validateBehaviorSummaryArithmetic behavior;;
  let limits := limits policy in
  let referenceEvidence := minimumGate (sc_referenceRecords scorecard) 1 in
  let candidateEvidence := minimumGate (sc_candidateRecords scorecard) 1 in
  let addedBehaviors := maximumGate (u64 (AddedCount behavior)) (MaxAddedBehaviors limits) in
  let blockDecisions :=
    maximumGate (ER_count (RC_candidate (DC_Block (sc_decisions scorecard)))) (MaxBlockDecisions limits) in
  let criticalRisk :=
    maximumGate (ER_count (RC_candidate (RK_Critical (sc_risks scorecard)))) (MaxCriticalRiskObservations limits) in
  changes ← (let '(maximum, set) := OptionalGateLimit_Maximum (MaxAddedBehaviorChanges limits) in
             if set then
               validateChangeCountEvidence behavior;;
               let actual := u64 (BS_AddedChangeCount behavior) in
               Ok {| State := GateCheckEvaluated; CG_Actual := actual; CG_Maximum := maximum;
                     CG_Passed := actual <=? maximum; CG_CorrelationState := BS_CorrelationState behavior;
                     CG_CountingPolicyVersion := BS_CountingPolicyVersion behavior |}
             else Ok (bare_change_gate GateCheckNotEvaluated));
  let verdict :=
    if MI_Passed referenceEvidence && MI_Passed candidateEvidence && MA_Passed addedBehaviors &&
       MA_Passed blockDecisions && MA_Passed criticalRisk && (negb (Evaluated changes) || CG_Passed changes)
    then GateVerdictPass else GateVerdictFail in
  Ok {| gr_bound := true;
        gr_referenceRunID := sc_referenceRunID scorecard; gr_referenceCandidate := sc_referenceCandidate scorecard;
        gr_candidateRunID := sc_candidateRunID scorecard; gr_candidateCandidate := sc_candidateCandidate scorecard;
        gr_environment := sc_environment scorecard;
        referenceEvidence := referenceEvidence; candidateEvidence := candidateEvidence;
        addedBehaviors := addedBehaviors; blockDecisions := blockDecisions;
        criticalRiskObservations := criticalRisk; addedBehaviorChanges := changes; verdict := verdict |}.

(** ** Reading a stored result back *)
Definition validateStoredChangeGate (g : ChangeCountGate) : res unit :=
  fail_if (negb (GateCheckState_valid (State g))) [ErrInvalidGateEvidence];;
  if Evaluated g then
    fail_if (negb ((CG_CorrelationState g =s CorrelationComplete) || (CG_CorrelationState g =s CorrelationPartial) ||
                   (CG_CorrelationState g =s CorrelationUnavailable))) [ErrInvalidGateEvidence];;
    fail_if (CG_CountingPolicyVersion g =s "") [ErrInvalidGateEvidence]
  else fail_if (negb (bool_decide (g = bare_change_gate (State g)))) [ErrInvalidGateEvidence].

Definition restoreEvaluationGateResult (referenceRunID : EvaluationRunID) (referenceCandidate : CandidateID)
    (candidateRunID : EvaluationRunID) (candidateCandidate : CandidateID) (environment : EnvironmentRef)
    (refEvidence candEvidence : MinimumCountGate) (added_ blocks critical : MaximumCountGate)
    (changes : ChangeCountGate) (v : GateVerdict) : res EvaluationGateResult :=
  fail_if ((v <>s GateVerdictPass) && (v <>s GateVerdictFail)) [ErrInvalidGateEvidence];;
  validateStoredChangeGate changes;;
  Ok {| gr_bound := true; gr_referenceRunID := referenceRunID; gr_referenceCandidate := referenceCandidate;
        gr_candidateRunID := candidateRunID; gr_candidateCandidate := candidateCandidate;
        gr_environment := environment; referenceEvidence := refEvidence; candidateEvidence := candEvidence;
        addedBehaviors := added_; blockDecisions := blocks; criticalRiskObservations := critical;
        addedBehaviorChanges := changes; verdict := v |}.

(** ** Lemmas *)

(** What a pass asks of a card, as the code conjoins it. *)
Definition passes (s : EvaluationScorecard) (l : EvaluationGateLimits) : Prop :=
  1 <= sc_referenceRecords s /\ 1 <= sc_candidateRecords s /\
  u64 (AddedCount (sc_behavior s)) <= MaxAddedBehaviors l /\
  ER_count (RC_candidate (DC_Block (sc_decisions s))) <= MaxBlockDecisions l /\
  ER_count (RC_candidate (RK_Critical (sc_risks s))) <= MaxCriticalRiskObservations l /\
  (set (MaxAddedBehaviorChanges l) = true -> u64 (BS_AddedChangeCount (sc_behavior s)) <= maximum (MaxAddedBehaviorChanges l)).

Lemma gate_cases s p r : EvaluateEvaluationGate s p = Ok r ->
  gp_bound p = true /\ sc_bound s = true /\ gr_bound r = true /\ validateBehaviorSummaryArithmetic (sc_behavior s) = Ok tt /\
  (verdict r = GateVerdictPass /\ passes s (limits p) \/ verdict r = GateVerdictFail /\ ~ passes s (limits p)) /\
  (set (MaxAddedBehaviorChanges (limits p)) = true ->
     validateChangeCountEvidence (sc_behavior s) = Ok tt /\ Evaluated (addedBehaviorChanges r) = true /\
     CG_CorrelationState (addedBehaviorChanges r) = BS_CorrelationState (sc_behavior s) /\
     CG_CountingPolicyVersion (addedBehaviorChanges r) = BS_CountingPolicyVersion (sc_behavior s)) /\
  (set (MaxAddedBehaviorChanges (limits p)) = false -> addedBehaviorChanges r = bare_change_gate GateCheckNotEvaluated).
Proof.
  intros H. unfold EvaluateEvaluationGate in H. res_inv. apply negb_false_iff in Hok. apply negb_false_iff in Hok0.
  unfold OptionalGateLimit_Maximum in Hok2. split; [done|]. split; [done|]. split; [by subst r|]. split; [done|].
  assert (Hv : forall g : ChangeCountGate, a2 = g ->
    (negb (Evaluated g) || CG_Passed g = true <->
      (set (MaxAddedBehaviorChanges (limits p)) = true -> u64 (BS_AddedChangeCount (sc_behavior s)) <= maximum (MaxAddedBehaviorChanges (limits p))))).
  { intros g <-. destruct (set (MaxAddedBehaviorChanges (limits p))); res_inv; subst a2; [|by split].
    cbn [Evaluated State CG_Passed]. change (negb (Evaluated _)) with false. rewrite orb_false_l, Z.leb_le. naive_solver. }
  specialize (Hv a2 eq_refl). subst r. cbn [verdict addedBehaviorChanges]. split.
  - unfold passes. cbn [MI_Passed MA_Passed minimumGate maximumGate]. rewrite <- Hv.
    destruct (_ && _ && _ && _ && _ && _) eqn:E; [left|right]; (split; [done|]).
    + rewrite !andb_true_iff, !Z.leb_le in E. tauto.
    + intros F. apply not_true_iff_false in E. apply E. rewrite !andb_true_iff, !Z.leb_le. tauto.
  - destruct (set (MaxAddedBehaviorChanges (limits p))); res_inv; subst a2; by split.
Qed.

(** The checks a result records, from its own definition. *)
Lemma gate_fields s p r : EvaluateEvaluationGate s p = Ok r ->
  let l := limits p in let optional := MaxAddedBehaviorChanges l in
  referenceEvidence r = minimumGate (sc_referenceRecords s) 1 /\
  candidateEvidence r = minimumGate (sc_candidateRecords s) 1 /\
  addedBehaviors r = maximumGate (u64 (AddedCount (sc_behavior s))) (MaxAddedBehaviors l) /\
  blockDecisions r = maximumGate (ER_count (RC_candidate (DC_Block (sc_decisions s)))) (MaxBlockDecisions l) /\
  criticalRiskObservations r = maximumGate (ER_count (RC_candidate (RK_Critical (sc_risks s)))) (MaxCriticalRiskObservations l) /\
  CG_Actual (addedBehaviorChanges r) = (if set optional then u64 (BS_AddedChangeCount (sc_behavior s)) else 0) /\
  CG_Maximum (addedBehaviorChanges r) = (if set optional then maximum optional else 0) /\
  (gr_referenceRunID r, gr_referenceCandidate r, gr_candidateRunID r, gr_candidateCandidate r, gr_environment r) =
  (sc_referenceRunID s, sc_referenceCandidate s, sc_candidateRunID s, sc_candidateCandidate s, sc_environment s).
Proof.
  intros H. unfold EvaluateEvaluationGate, OptionalGateLimit_Maximum in H. res_inv. subst r.
  destruct (set (MaxAddedBehaviorChanges (limits p))) eqn:E; res_inv; subst; cbn; rewrite E; split_and!; done.
Qed.

Lemma gate_total s p : gp_bound p = true -> sc_bound s = true ->
  validateBehaviorSummaryArithmetic (sc_behavior s) = Ok tt -> validateChangeCountEvidence (sc_behavior s) = Ok tt ->
  exists r, EvaluateEvaluationGate s p = Ok r.
Proof.
  intros Hp Hs Ha Hc. unfold EvaluateEvaluationGate. rewrite Hp, Hs, Ha. unfold OptionalGateLimit_Maximum.
  destruct (set _); [rewrite Hc|]; by eexists.
Qed.

Lemma summary_evidence s : 0 <= AddedCount s -> 0 <= RemovedCount s -> 0 <= SharedCount s ->
  AddedCount s + SharedCount s = CandidateDistinctCount s -> RemovedCount s + SharedCount s = ReferenceDistinctCount s ->
  is_i64 (CandidateDistinctCount s) -> is_i64 (ReferenceDistinctCount s) -> validateBehaviorSummaryArithmetic s = Ok tt.
Proof.
  intros H1 H2 H3 H4 H5 H6 H7. unfold validateBehaviorSummaryArithmetic. rewrite H4, H5, !i64_small by done.
  rewrite !bind_unit_iff, !fail_if_iff, !orb_false_iff, !Z.ltb_ge, !negb_false_iff, !Z.eqb_refl. ulia.
Qed.

Lemma change_evidence s : 0 <= BS_AddedChangeCount s <= AddedCount s -> (0 < AddedCount s -> 0 < BS_AddedChangeCount s) ->
  In (BS_CorrelationState s) [CorrelationComplete; CorrelationPartial; CorrelationUnavailable] ->
  (BS_CorrelationState s <> CorrelationComplete -> BS_AddedChangeCount s = AddedCount s) ->
  BS_CountingPolicyVersion s <> "" -> validateChangeCountEvidence s = Ok tt.
Proof.
  intros H1 H2 H3 H4 H5. unfold validateChangeCountEvidence.
  destruct (Z.ltb_spec (BS_AddedChangeCount s) 0); [lia|]. destruct (Z.ltb_spec (AddedCount s) (BS_AddedChangeCount s)); [lia|].
  assert (E : (0 <? AddedCount s) && (BS_AddedChangeCount s =? 0) = false).
  { rewrite andb_false_iff, Z.ltb_ge, Z.eqb_neq. lia. }
  rewrite E, bind_unit_iff, fail_if_iff, String.eqb_neq. split; [|done].
  destruct (String.eqb_spec (BS_CorrelationState s) CorrelationComplete); [done|]. rewrite H4, Z.eqb_refl by done.
  destruct H3 as [E3|[<-|[<-|[]]]]; [congruence|done..].
Qed.

(** A scorecard built from evidence is one the gate can always judge. *)
Lemma evidence_card_judged r1 a1 c1 r2 a2 c2 d s :
  evidence_ok r1 a1 c1 -> evidence_ok r2 a2 c2 -> compared c1 c2 d -> NewEvaluationScorecard a1 a2 d = Ok s ->
  sc_bound s = true /\ validateBehaviorSummaryArithmetic (sc_behavior s) = Ok tt /\
  validateChangeCountEvidence (sc_behavior s) = Ok tt /\
  u64 (AddedCount (sc_behavior s)) = added d /\ u64 (BS_AddedChangeCount (sc_behavior s)) = AddedChangeCount d.
Proof.
  intros H1 H2 Hd Hs. pose proof (compared_ok _ _ _ (ev_col _ _ _ H1) (ev_col _ _ _ H2) Hd) as D.
  destruct (scorecard_shape _ _ _ _ Hs) as (Hb & _ & _ & _ & _ & _ & _ & _ & _ & _ & Ebh).
  destruct (df_counts _ _ _ D) as (D1 & D2 & D3 & D4 & D5), (df_changes _ _ _ D) as [D6 D7], (df_correlation _ _ _ D) as [D8 D9].
  destruct (df_distinct _ _ _ D) as [N1 N2].
  pose proof (sn_size _ (Snapshot_ok _ (ev_col _ _ _ H1))) as S1. pose proof (sn_size _ (Snapshot_ok _ (ev_col _ _ _ H2))) as S2.
  unfold ids in N1, N2. rewrite length_fmap in N1, N2. unfold maxBehaviorEntries in S1, S2.
  assert (0 <= AddedChangeCount d) by (unfold AddedChangeCount; lia). rewrite Ebh.
  split; [done|]. split; [|split; [|split]].
  - apply summary_evidence; cbn; try done; ulia.
  - apply change_evidence; cbn; try done; lia.
  - apply u64_small. cbn. ulia.
  - apply u64_small. cbn. ulia.
Qed.

(** What a pass asks of the evidence, and the verdict decided by it. *)
Lemma passes_counts r1 a1 c1 r2 a2 c2 d s l :
  evidence_ok r1 a1 c1 -> evidence_ok r2 a2 c2 -> compared c1 c2 d -> NewEvaluationScorecard a1 a2 d = Ok s ->
  passes s l <->
    1 <= col_observations c1 /\ 1 <= col_observations c2 /\ added d <= MaxAddedBehaviors l /\
    Block (decisions a2) <= MaxBlockDecisions l /\ Critical (risks a2) <= MaxCriticalRiskObservations l /\
    (set (MaxAddedBehaviorChanges l) = true -> AddedChangeCount d <= maximum (MaxAddedBehaviorChanges l)).
Proof.
  intros H1 H2 Hd Hs. destruct (evidence_card_judged _ _ _ _ _ _ _ _ H1 H2 Hd Hs) as (_ & _ & _ & Ead & Ech).
  unfold passes. rewrite Ead, Ech.
  destruct (df_complete _ _ _ (compared_ok _ _ _ (ev_col _ _ _ H1) (ev_col _ _ _ H2) Hd)) as [Q1 Q2].
  rewrite <- (ev_count _ _ _ H1 Q1), <- (ev_count _ _ _ H2 Q2).
  unfold NewEvaluationScorecard in Hs. res_inv. subst s. done.
Qed.

Lemma verdict_of_counts r1 a1 c1 r2 a2 c2 d s l r :
  evidence_ok r1 a1 c1 -> evidence_ok r2 a2 c2 -> compared c1 c2 d -> NewEvaluationScorecard a1 a2 d = Ok s ->
  EvaluateEvaluationGate s (NewEvaluationGatePolicy l) = Ok r ->
  (verdict r = GateVerdictPass \/ verdict r = GateVerdictFail) /\
  (verdict r = GateVerdictPass <->
     1 <= col_observations c1 /\ 1 <= col_observations c2 /\ added d <= MaxAddedBehaviors l /\
     Block (decisions a2) <= MaxBlockDecisions l /\ Critical (risks a2) <= MaxCriticalRiskObservations l /\
     (set (MaxAddedBehaviorChanges l) = true -> AddedChangeCount d <= maximum (MaxAddedBehaviorChanges l))).
Proof.
  intros H1 H2 Hd Hs Hr. rewrite <- (passes_counts _ _ _ _ _ _ _ _ l H1 H2 Hd Hs).
  destruct (gate_cases _ _ _ Hr) as (_ & _ & _ & _ & Hv & _). change (limits (NewEvaluationGatePolicy l)) with l in Hv.
  split; [tauto|]. destruct Hv as [[-> Hv]|[-> Hv]]; by split.
Qed.

Lemma gate_result_restores_raw s p r : EvaluateEvaluationGate s p = Ok r ->
  restoreEvaluationGateResult (gr_referenceRunID r) (gr_referenceCandidate r) (gr_candidateRunID r)
    (gr_candidateCandidate r) (gr_environment r) (referenceEvidence r) (candidateEvidence r) (addedBehaviors r)
    (blockDecisions r) (criticalRiskObservations r) (addedBehaviorChanges r) (verdict r) = Ok r /\
  (forall a b c d e f g h i j g' v, g' <> bare_change_gate (State g') -> Evaluated g' = false ->
     is_ok (restoreEvaluationGateResult a b c d e f g h i j g' v) = false).
Proof.
  intros Hr. destruct (gate_cases _ _ _ Hr) as (_ & _ & Hb & _ & Hv & Hset & Hunset). split.
  - unfold restoreEvaluationGateResult.
    assert (E1 : ((verdict r <>s GateVerdictPass) && (verdict r <>s GateVerdictFail))%go = false) by by destruct Hv as [[-> _]|[-> _]].
    rewrite E1. cbn [fail_if].
    assert (E2 : validateStoredChangeGate (addedBehaviorChanges r) = Ok tt).
    { destruct (set (MaxAddedBehaviorChanges (limits p))); [|by rewrite (Hunset eq_refl)].
      destruct (Hset eq_refl) as (Hc & Hev & Es & Ev). unfold validateStoredChangeGate. rewrite Hev, Es, Ev.
      unfold Evaluated in Hev. apply String.eqb_eq in Hev. rewrite Hev. unfold validateChangeCountEvidence in Hc.
      repeat match type of Hc with (if ?b then _ else _) = _ => destruct b; [discriminate|] end.
      destruct (BS_CorrelationState (sc_behavior s) =s CorrelationComplete)%go eqn:E.
      - apply String.eqb_eq in E. rewrite E. cbn in Hc. by rewrite Hc.
      - destruct (_ || _)%go eqn:E'; [|discriminate]. cbn [GateCheckState_valid].
        apply bind_unit_iff in Hc as [_ Hc]. by rewrite Hc. }
    rewrite E2. clear -Hb. destruct r; cbn in *. by subst.
  - intros a b c d e f g h i j g' v Hne Hev. apply not_true_iff_false. rewrite is_ok_spec. intros [x Hx].
    unfold restoreEvaluationGateResult, validateStoredChangeGate in Hx. rewrite Hev in Hx. res_inv.
    rewrite bool_decide_false in Hok0 by done. discriminate.
Qed.

(** ** Properties *)

(** C17: over the evidence of two runs and the comparison of their behavior, a gate with any
    limits always reaches a verdict, and it is pass exactly when both runs have at least one
    record, the candidate added no more behavior identities than the limit, the candidate's
    records hold no more Block decisions and no more Critical risks than their limits and -
    only when the optional limit is set - no more counted changes than that limit; it is fail
    in every other case, never anything else. *)
Theorem gate_verdict_exact r1 a1 c1 r2 a2 c2 d s l :
  evidence r1 a1 c1 -> evidence r2 a2 c2 -> compared c1 c2 d -> NewEvaluationScorecard a1 a2 d = Ok s ->
  exists r, EvaluateEvaluationGate s (NewEvaluationGatePolicy l) = Ok r /\
    (verdict r = GateVerdictPass \/ verdict r = GateVerdictFail) /\
    (verdict r = GateVerdictPass <->
       1 <= col_observations c1 /\ 1 <= col_observations c2 /\
       added d <= MaxAddedBehaviors l /\
       Block (decisions a2) <= MaxBlockDecisions l /\
       Critical (risks a2) <= MaxCriticalRiskObservations l /\
       (set (MaxAddedBehaviorChanges l) = true -> AddedChangeCount d <= maximum (MaxAddedBehaviorChanges l))).
Proof.
  intros H1%evidence_reachable_ok H2%evidence_reachable_ok Hd Hs.
  destruct (evidence_card_judged _ _ _ _ _ _ _ _ H1 H2 Hd Hs) as (Hb & Ha & Hc & _).
  destruct (gate_total s (NewEvaluationGatePolicy l) eq_refl Hb Ha Hc) as [r Hr]. exists r. split; [exact Hr|].
  exact (verdict_of_counts _ _ _ _ _ _ _ _ _ _ H1 H2 Hd Hs Hr).
Qed.

(** the gate judges nothing it was not given properly: a policy or a scorecard not made
    by its constructor is an error, and so is a behavior summary whose counts do not balance;
    and whenever it answers, the answer is bound and names the two runs, their candidates and
    the environment of the scorecard it judged. *)
Theorem gate_refuses_unbound s p :
  (gp_bound p = false -> EvaluateEvaluationGate s p = Err [ErrInvalidGatePolicy]) /\
  (gp_bound p = true -> sc_bound s = false -> EvaluateEvaluationGate s p = Err [ErrInvalidGateEvidence]) /\
  (forall r, EvaluateEvaluationGate s p = Ok r ->
     validateBehaviorSummaryArithmetic (sc_behavior s) = Ok tt /\ gr_bound r = true /\
     (gr_referenceRunID r, gr_referenceCandidate r, gr_candidateRunID r, gr_candidateCandidate r, gr_environment r) =
     (sc_referenceRunID s, sc_referenceCandidate s, sc_candidateRunID s, sc_candidateCandidate s, sc_environment s)).
Proof.
  split; [|split].
  - intros E. unfold EvaluateEvaluationGate. by rewrite E.
  - intros E1 E2. unfold EvaluateEvaluationGate. by rewrite E1, E2.
  - intros r Hr. destruct (gate_cases _ _ _ Hr) as (_ & _ & Hb & Ha & _). split; [done|]. split; [done|].
    apply (gate_fields _ _ _ Hr).
Qed.

(** A limit at least as permissive: every maximum no smaller, and an unset optional limit
    above every set one. *)
Definition looser (l l' : EvaluationGateLimits) : Prop :=
  MaxAddedBehaviors l <= MaxAddedBehaviors l' /\ MaxBlockDecisions l <= MaxBlockDecisions l' /\
  MaxCriticalRiskObservations l <= MaxCriticalRiskObservations l' /\
  (set (MaxAddedBehaviorChanges l') = true -> set (MaxAddedBehaviorChanges l) = true /\
     maximum (MaxAddedBehaviorChanges l) <= maximum (MaxAddedBehaviorChanges l')).

(** the gate is monotone in its limits: raising a limit, or removing the optional
    counted-change limit, never turns a pass into a fail or an error.  In particular the
    counted-change check can only fail an evaluation the identity limits pass; it never
    rescues one they fail. *)
Theorem gate_monotone s l l' r :
  looser l l' -> EvaluateEvaluationGate s (NewEvaluationGatePolicy l) = Ok r -> verdict r = GateVerdictPass ->
  exists r', EvaluateEvaluationGate s (NewEvaluationGatePolicy l') = Ok r' /\ verdict r' = GateVerdictPass.
Proof.
  intros (L1 & L2 & L3 & L4) Hr Hpass. destruct (gate_cases _ _ _ Hr) as (_ & Hb & _ & Ha & Hv & Hset & _).
  change (limits (NewEvaluationGatePolicy l)) with l in *.
  destruct Hv as [[_ Hp]|[Hf _]]; [|rewrite Hf in Hpass; discriminate].
  assert (Hp' : passes s l') by (unfold passes in *; destruct Hp as (P1 & P2 & P3 & P4 & P5 & P6); split_and!; try lia;
    intros E; destruct (L4 E) as [E' ?]; specialize (P6 E'); lia).
  assert (Hr' : exists r', EvaluateEvaluationGate s (NewEvaluationGatePolicy l') = Ok r').
  { unfold EvaluateEvaluationGate. cbn [gp_bound NewEvaluationGatePolicy limits negb]. rewrite Hb, Ha. unfold OptionalGateLimit_Maximum.
    destruct (set (MaxAddedBehaviorChanges l')) eqn:E; [|by eexists].
    destruct (L4 eq_refl) as [E' _]. destruct (Hset E') as [-> _]. by eexists. }
  destruct Hr' as [r' Hr']. exists r'. split; [done|].
  destruct (gate_cases _ _ _ Hr') as (_ & _ & _ & _ & [[Hv _]|[_ Hv]] & _); [done|by destruct Hv].
Qed.

(** every gate result is restored exactly from its stored columns, and a stored result
    with a tampered verdict or a counted-change check carrying an outcome in a state that has
    none is refused. *)
Theorem gate_result_restores s p r : EvaluateEvaluationGate s p = Ok r ->
  restoreEvaluationGateResult (gr_referenceRunID r) (gr_referenceCandidate r) (gr_candidateRunID r)
    (gr_candidateCandidate r) (gr_environment r) (referenceEvidence r) (candidateEvidence r) (addedBehaviors r)
    (blockDecisions r) (criticalRiskObservations r) (addedBehaviorChanges r) (verdict r) = Ok r /\
  (forall a b c d e f g h i j g' v, g' <> bare_change_gate (State g') -> Evaluated g' = false ->
     is_ok (restoreEvaluationGateResult a b c d e f g h i j g' v) = false).
Proof. exact (gate_result_restores_raw s p r). Qed.

(** ** Witnesses *)
Definition example_limits : EvaluationGateLimits :=
  {| MaxAddedBehaviors := 5; MaxBlockDecisions := 0; MaxCriticalRiskObservations := 0;
     MaxAddedBehaviorChanges := NewOptionalGateLimit 3 |}.

(** A card of one record on each side, one added behavior and one removed. *)
Definition example_gate_card (added_ : Z) : EvaluationScorecard :=
  let z := compareRates 0 1 0 1 in let o := compareRates 1 1 1 1 in
  let m := {| MC_reference := zero_metric; MC_candidate := zero_metric |} in
  {| sc_bound := true; sc_referenceRunID := "r"; sc_referenceCandidate := "c"; sc_referenceProfile := "p";
     sc_referenceRecords := 1; sc_candidateRunID := "r2"; sc_candidateCandidate := "c2"; sc_candidateProfile := "p";
     sc_candidateRecords := 1; sc_environment := "prod";
     sc_decisions := {| DC_Allow := o; DC_ObserveOnly := z; DC_Alert := z; DC_Challenge := z; DC_RequireApproval := z; DC_Block := z |};
     sc_risks := {| RK_Low := o; RK_Medium := z; RK_High := z; RK_Critical := z |};
     sc_approvals := {| AC_Unspecified := o; AC_NotRequired := z; AC_Required := z; AC_Approved := z; AC_Denied := z |};
     sc_policy := {| PC_MatchedRule := z; PC_MatchedDefault := o |};
     sc_metrics := {| MS_IdentityConfidence := m; MS_AnomalyScore := m; MS_AnomalyConfidence := m; MS_TrustScore := m; MS_ContextRisk := m |};
     sc_behavior := {| ReferenceDistinctCount := 1; CandidateDistinctCount := added_; AddedCount := added_; RemovedCount := 1;
       SharedCount := 0; BS_AddedChangeCount := 1; BS_CorrelationState := CorrelationComplete; BS_CountingPolicyVersion := CountingPolicyVersion |};
     sc_operational := compareOperational zero_side zero_side |}.

(** The example runs' evidence, their comparison and its scorecard. *)
Lemma example_scorecard : exists a1 c1 a2 c2 d s,
  grown_example a1 c1 a2 c2 d /\ NewEvaluationScorecard a1 a2 d = Ok s.
Proof.
  destruct grown_examples as (a1 & c1 & a2 & c2 & d & H). pose proof H as (E1%evidence_reachable_ok & E2%evidence_reachable_ok & Hcmp & _).
  pose proof (scorecard_ok_iff _ _ _ _ _ _ _ _ _ _ _ _ d E1 E2 E1 E2 (compared_ok _ _ _ (ev_col _ _ _ E1) (ev_col _ _ _ E2) Hcmp)) as Hok.
  destruct (NewEvaluationScorecard a1 a2 d) as [s|e] eqn:Es; [|assert (false = true) by (by apply Hok); done].
  by exists a1, c1, a2, c2, d, s.
Qed.

Lemma gate_verdict_exact_witness : exists a1 c1 a2 c2 d s r,
  grown_example a1 c1 a2 c2 d /\ NewEvaluationScorecard a1 a2 d = Ok s /\
  EvaluateEvaluationGate s (NewEvaluationGatePolicy example_limits) = Ok r /\
  (verdict r = GateVerdictPass \/ verdict r = GateVerdictFail).
Proof.
  destruct example_scorecard as (a1 & c1 & a2 & c2 & d & s & H & Es). pose proof H as (E1 & E2 & Hcmp & _).
  destruct (gate_verdict_exact _ a1 c1 _ a2 c2 d s example_limits E1 E2 Hcmp Es) as (r & Hr & Hv & _).
  exists a1, c1, a2, c2, d, s, r. exact (conj H (conj Es (conj Hr Hv))).
Defined.

Definition example_result (added_ : Z) : EvaluationGateResult :=
  match EvaluateEvaluationGate (example_gate_card added_) (NewEvaluationGatePolicy example_limits) with
  | Ok r => r
  | Err _ => {| gr_bound := false; gr_referenceRunID := ""; gr_referenceCandidate := ""; gr_candidateRunID := "";
      gr_candidateCandidate := ""; gr_environment := ""; referenceEvidence := minimumGate 0 0; candidateEvidence := minimumGate 0 0;
      addedBehaviors := maximumGate 0 0; blockDecisions := maximumGate 0 0; criticalRiskObservations := maximumGate 0 0;
      addedBehaviorChanges := bare_change_gate ""; verdict := "" |}
  end.

(** Five added identities of one change pass; six fail, whatever their change count. *)
Example gate_examples : verdict (example_result 5) = GateVerdictPass /\ verdict (example_result 6) = GateVerdictFail.
Proof. by vm_compute. Qed.

Lemma gate_monotone_witness : exists r',
  EvaluateEvaluationGate (example_gate_card 5) (NewEvaluationGatePolicy
    {| MaxAddedBehaviors := 6; MaxBlockDecisions := 0; MaxCriticalRiskObservations := 1;
       MaxAddedBehaviorChanges := {| maximum := 0; set := false |} |}) = Ok r' /\ verdict r' = GateVerdictPass.
Proof.
  apply (gate_monotone (example_gate_card 5) example_limits _ (example_result 5)); [|by vm_compute..].
  split; [cbn; lia|]. split; [cbn; lia|]. split; [cbn; lia|done].
Defined.

Lemma gate_result_restores_witness :
  restoreEvaluationGateResult "r" "c" "r2" "c2" "prod" (minimumGate 1 1) (minimumGate 1 1) (maximumGate 5 5)
    (maximumGate 0 0) (maximumGate 0 0) (addedBehaviorChanges (example_result 5)) GateVerdictPass = Ok (example_result 5).
Proof.
  apply (gate_result_restores (example_gate_card 5) (NewEvaluationGatePolicy example_limits) (example_result 5)). by vm_compute.
Defined.

Lemma gate_refuses_unbound_witness :
  EvaluateEvaluationGate (example_gate_card 5) {| gp_bound := false; limits := example_limits |} = Err [ErrInvalidGatePolicy].
Proof. by apply (gate_refuses_unbound (example_gate_card 5) {| gp_bound := false; limits := example_limits |}). Defined.
