(* ===== verification/Promotion.v ===== *)
(** * Package platform: promotions (promotion.go, promotion_store.go)

    The immutable record of one gated decision to advance a candidate from one environment to
    another, and the row it is stored as.  Counters are stored as canonical decimal text,
    flags as 0 or 1; the decision time's column is the time it denotes. *)
From S2P Require Import Prelude GoText GoTime GoFloat FloatBounds Event Fingerprint DecisionRecord.
From S2P Require Import Domain Counters Environment Operational Fidelity Aggregate Observation Counting.
From S2P Require Import Behavior Scorecard Gate.

Open Scope string_scope.
Open Scope Z_scope.

Definition MaxPromotionPage : Z := 64.

Definition PromotionOutcome := string.
Definition PromotionAccepted : PromotionOutcome := "accepted".
Definition PromotionRejected : PromotionOutcome := "rejected".
Definition PromotionOutcome_valid (o : PromotionOutcome) : bool := (o =s PromotionAccepted) || (o =s PromotionRejected).

Definition outcomeFor (verdict : GateVerdict) : res PromotionOutcome :=
  if verdict =s GateVerdictPass then Ok PromotionAccepted
  else if verdict =s GateVerdictFail then Ok PromotionRejected
  else Err [ErrInvalidGateEvidence].

Record EnvironmentPosition : Type := { Ref : EnvironmentRef; Rank : Z; Revision : Z }.

Record Promotion : Type := {
  pr_id : PromotionID;
  pr_projectID : ProjectID;
  pr_candidateID : CandidateID;
  pr_referenceRunID : EvaluationRunID;
  pr_candidateRunID : EvaluationRunID;
  source : EnvironmentPosition;
  target : EnvironmentPosition;
  pr_limits : EvaluationGateLimits;
  gateResult : EvaluationGateResult;
  outcome : PromotionOutcome;
  decidedAt : time;
}.

Record PromotionDecision : Type := {
  PD_ID : PromotionID; Source : Environment; Target : Environment;
  GateResult : EvaluationGateResult; DecidedAt : time }.

Definition changeLimitOf (g : ChangeCountGate) : OptionalGateLimit :=
  if negb (Evaluated g) then {| maximum := 0; set := false |} else NewOptionalGateLimit (CG_Maximum g).

(** [Environment.Rank] of the position: the rank, zero for an unranked environment. *)
Definition position_of (e : Environment) : EnvironmentPosition :=
  {| Ref := env_ref e; Rank := rank e; Revision := revision e |}.

Definition limits_of (g : EvaluationGateResult) : EvaluationGateLimits :=
  {| MaxAddedBehaviors := Maximum (addedBehaviors g); MaxBlockDecisions := Maximum (blockDecisions g);
     MaxCriticalRiskObservations := Maximum (criticalRiskObservations g);
     MaxAddedBehaviorChanges := changeLimitOf (addedBehaviorChanges g) |}.

Definition NewPromotion (d : PromotionDecision) : res Promotion :=
  validateID (PD_ID d);;
  fail_if (time_is_zero (DecidedAt d)) [ErrInvalidTimestamp];;
  let g := GateResult d in
  fail_if (negb (gr_bound g)) [ErrInvalidGateEvidence];;
  fail_if (negb (CanPromote (Source d) (Target d))) [ErrPromotionOrder];;
  fail_if (gr_environment g <>s env_ref (Source d)) [ErrInvalidGateEvidence];;
  fail_if (gr_referenceRunID g =s gr_candidateRunID g) [ErrInvalidGateEvidence];;
  outcome ← outcomeFor (verdict g);
  Ok {| pr_id := PD_ID d; pr_projectID := env_projectID (Source d); pr_candidateID := gr_candidateCandidate g;
        pr_referenceRunID := gr_referenceRunID g; pr_candidateRunID := gr_candidateRunID g;
        source := position_of (Source d); target := position_of (Target d); pr_limits := limits_of g;
        gateResult := g; outcome := outcome; decidedAt := DecidedAt d |}.

Definition restorePromotion (id : PromotionID) (projectID : ProjectID) (candidateID : CandidateID)
    (source target : EnvironmentPosition) (limits : EvaluationGateLimits) (gate : EvaluationGateResult)
    (outcome : PromotionOutcome) (decidedAt : time) : res Promotion :=
  corrupt
    (foldM (fun _ value => validateID value) tt [id; projectID; candidateID; Ref source; Ref target];;
     fail_if (time_is_zero decidedAt) [];;
     fail_if (negb (PromotionOutcome_valid outcome)) [];;
     fail_if (negb (gr_bound gate)) [];;
     expected ← outcomeFor (verdict gate);
     fail_if (expected <>s outcome) [];;
     sourceEnv ← restoreEnvironment (Ref source) projectID (Ref source) (Rank source) true EnvironmentActive (Revision source);
     targetEnv ← restoreEnvironment (Ref target) projectID (Ref target) (Rank target) true EnvironmentActive (Revision target);
     fail_if (negb (CanPromote sourceEnv targetEnv)) [];;
     Ok {| pr_id := id; pr_projectID := projectID; pr_candidateID := candidateID;
           pr_referenceRunID := gr_referenceRunID gate; pr_candidateRunID := gr_candidateRunID gate;
           source := source; target := target; pr_limits := limits; gateResult := gate; outcome := outcome;
           decidedAt := decidedAt |}).

Definition validatePromotionPage (after : PromotionID) (limit : Z) : res unit :=
  fail_if ((limit <? 1) || (MaxPromotionPage <? limit)) [ErrInvalidID];;
  if after <>s "" then validateID after else Ok tt.

(** ** Rows *)
Record changeGateRow : Type := {
  check : GateCheckState; cr_maximum : option string; cr_actual : option string; cr_passed : option Z;
  cr_correlation : option string; cr_policy : option string }.

Definition changeGateColumns (g : ChangeCountGate) : changeGateRow :=
  if negb (Evaluated g) then
    {| check := State g; cr_maximum := None; cr_actual := None; cr_passed := None; cr_correlation := None; cr_policy := None |}
  else
    {| check := State g; cr_maximum := Some (uint64Text (CG_Maximum g)); cr_actual := Some (uint64Text (CG_Actual g));
       cr_passed := Some (boolInt (CG_Passed g)); cr_correlation := Some (CG_CorrelationState g);
       cr_policy := Some (CG_CountingPolicyVersion g) |}.

(** A row of platform_promotions.  The integer columns are ranks and flags. *)
Record promotionRow : Type := {
  p_id : string; p_projectID : string; p_candidateID : string; referenceCandidateID : string;
  p_referenceRunID : string; p_candidateRunID : string;
  sourceRef : string; sourceRank : Z; sourceRevision : string;
  targetRef : string; targetRank : Z; targetRevision : string;
  maxAdded : string; maxBlock : string; maxCritical : string;
  refEvidenceActual : string; refEvidenceMinimum : string; refEvidencePassed : Z;
  candEvidenceActual : string; candEvidenceMin : string; candEvidencePassed : Z;
  addedActual : string; addedPassed : Z;
  blockActual : string; blockPassed : Z;
  criticalActual : string; criticalPassed : Z;
  p_verdict : string; p_outcome : string; p_decidedAt : time;
  p_changes : changeGateRow;
}.

Definition promotion_columns (p : Promotion) : promotionRow :=
  let gate := gateResult p in let l := pr_limits p in
  {| p_id := pr_id p; p_projectID := pr_projectID p; p_candidateID := pr_candidateID p;
     referenceCandidateID := gr_referenceCandidate gate;
     p_referenceRunID := pr_referenceRunID p; p_candidateRunID := pr_candidateRunID p;
     sourceRef := Ref (source p); sourceRank := Rank (source p); sourceRevision := uint64Text (Revision (source p));
     targetRef := Ref (target p); targetRank := Rank (target p); targetRevision := uint64Text (Revision (target p));
     maxAdded := uint64Text (MaxAddedBehaviors l); maxBlock := uint64Text (MaxBlockDecisions l);
     maxCritical := uint64Text (MaxCriticalRiskObservations l);
     refEvidenceActual := uint64Text (MI_Actual (referenceEvidence gate));
     refEvidenceMinimum := uint64Text (Minimum (referenceEvidence gate));
     refEvidencePassed := boolInt (MI_Passed (referenceEvidence gate));
     candEvidenceActual := uint64Text (MI_Actual (candidateEvidence gate));
     candEvidenceMin := uint64Text (Minimum (candidateEvidence gate));
     candEvidencePassed := boolInt (MI_Passed (candidateEvidence gate));
     addedActual := uint64Text (MA_Actual (addedBehaviors gate)); addedPassed := boolInt (MA_Passed (addedBehaviors gate));
     blockActual := uint64Text (MA_Actual (blockDecisions gate)); blockPassed := boolInt (MA_Passed (blockDecisions gate));
     criticalActual := uint64Text (MA_Actual (criticalRiskObservations gate));
     criticalPassed := boolInt (MA_Passed (criticalRiskObservations gate));
     p_verdict := verdict gate; p_outcome := outcome p; p_decidedAt := decidedAt p;
     p_changes := changeGateColumns (addedBehaviorChanges gate) |}.

Definition restoreChangeGate (r : changeGateRow) : res (ChangeCountGate * OptionalGateLimit) :=
  fail_if (negb (GateCheckState_valid (check r))) [];;
  if check r <>s GateCheckEvaluated then
    match cr_maximum r, cr_actual r, cr_passed r, cr_correlation r, cr_policy r with
    | None, None, None, None, None => Ok (bare_change_gate (check r), {| maximum := 0; set := false |})
    | _, _, _, _, _ => Err []
    end
  else
    match cr_maximum r, cr_actual r, cr_passed r, cr_correlation r, cr_policy r with
    | Some maximumText, Some actualText, Some passedInt, Some correlation, Some policy =>
        maximum ← parseUint64Text maximumText;
        actual ← parseUint64Text actualText;
        fail_if ((passedInt <? 0) || (1 <? passedInt)) [];;
        passed ← parseStoredBool passedInt;
        Ok ({| State := GateCheckEvaluated; CG_Actual := actual; CG_Maximum := maximum; CG_Passed := passed;
               CG_CorrelationState := correlation; CG_CountingPolicyVersion := policy |},
            NewOptionalGateLimit maximum)
    | _, _, _, _, _ => Err []
    end.

Definition stored_rank (v : Z) : res Z := fail_if ((v <? 0) || (maxEnvironmentRank <? v)) [];; Ok v.

Definition restorePromotionRow (r : promotionRow) : res Promotion :=
  '(sourceRank, targetRank, changeLimit, gate, l) ← corrupt (
    sourceRank ← stored_rank (sourceRank r);
    targetRank ← stored_rank (targetRank r);
    sourceRev ← parseUint64Text (sourceRevision r);
    targetRev ← parseUint64Text (targetRevision r);
    maxAdded ← parseUint64Text (maxAdded r);
    maxBlock ← parseUint64Text (maxBlock r);
    maxCritical ← parseUint64Text (maxCritical r);
    refActual ← parseUint64Text (refEvidenceActual r);
    refMinimum ← parseUint64Text (refEvidenceMinimum r);
    candActual ← parseUint64Text (candEvidenceActual r);
    candMinimum ← parseUint64Text (candEvidenceMin r);
    addedActual ← parseUint64Text (addedActual r);
    blockActual ← parseUint64Text (blockActual r);
    criticalActual ← parseUint64Text (criticalActual r);
    refPassed ← parseStoredBool (refEvidencePassed r);
    candPassed ← parseStoredBool (candEvidencePassed r);
    addedPassed ← parseStoredBool (addedPassed r);
    blockPassed ← parseStoredBool (blockPassed r);
    criticalPassed ← parseStoredBool (criticalPassed r);
    '(changes, changeLimit) ← restoreChangeGate (p_changes r);
    gate ← restoreEvaluationGateResult (p_referenceRunID r) (referenceCandidateID r) (p_candidateRunID r) (p_candidateID r)
      (sourceRef r)
      {| MI_Actual := refActual; Minimum := refMinimum; MI_Passed := refPassed |}
      {| MI_Actual := candActual; Minimum := candMinimum; MI_Passed := candPassed |}
      {| MA_Actual := addedActual; Maximum := maxAdded; MA_Passed := addedPassed |}
      {| MA_Actual := blockActual; Maximum := maxBlock; MA_Passed := blockPassed |}
      {| MA_Actual := criticalActual; Maximum := maxCritical; MA_Passed := criticalPassed |}
      changes (p_verdict r);
    Ok (sourceRank, targetRank, changeLimit, gate, (sourceRev, targetRev, maxAdded, maxBlock, maxCritical)));
  let '(sourceRev, targetRev, maxAdded, maxBlock, maxCritical) := l in
  restorePromotion (p_id r) (p_projectID r) (p_candidateID r)
    {| Ref := sourceRef r; Rank := sourceRank; Revision := sourceRev |}
    {| Ref := targetRef r; Rank := targetRank; Revision := targetRev |}
    {| MaxAddedBehaviors := maxAdded; MaxBlockDecisions := maxBlock; MaxCriticalRiskObservations := maxCritical;
       MaxAddedBehaviorChanges := changeLimit |}
    gate (p_outcome r) (p_decidedAt r).

(** ** Lemmas *)
Lemma validateID_name v : validateID v = Ok tt -> validateName v = Ok tt.
Proof.
  unfold validateID, validateName. rewrite !bind_unit_iff, !fail_if_iff, !validateText_Ok.
  intros (H1 & H2 & H3%negb_false_iff%String.eqb_eq). by rewrite H3.
Qed.

(** The gate results a promotion stores: answered by the gate over counters in range. *)
Record gate_row_ok (g : EvaluationGateResult) : Prop := {
  go_candidate : validateID (gr_candidateCandidate g) = Ok tt;
  go_counters : Forall is_u64 [MI_Actual (referenceEvidence g); Minimum (referenceEvidence g);
    MI_Actual (candidateEvidence g); Minimum (candidateEvidence g); MA_Actual (addedBehaviors g); Maximum (addedBehaviors g);
    MA_Actual (blockDecisions g); Maximum (blockDecisions g); MA_Actual (criticalRiskObservations g);
    Maximum (criticalRiskObservations g); CG_Actual (addedBehaviorChanges g); CG_Maximum (addedBehaviorChanges g)];
  go_restores : restoreEvaluationGateResult (gr_referenceRunID g) (gr_referenceCandidate g) (gr_candidateRunID g)
    (gr_candidateCandidate g) (gr_environment g) (referenceEvidence g) (candidateEvidence g) (addedBehaviors g)
    (blockDecisions g) (criticalRiskObservations g) (addedBehaviorChanges g) (verdict g) = Ok g;
}.

Lemma restore_change_columns g : is_u64 (CG_Actual g) -> is_u64 (CG_Maximum g) -> validateStoredChangeGate g = Ok tt ->
  restoreChangeGate (changeGateColumns g) = Ok (g, changeLimitOf g).
Proof.
  intros Ha Hm Hv. unfold validateStoredChangeGate in Hv. unfold restoreChangeGate, changeGateColumns, changeLimitOf.
  destruct (GateCheckState_valid (State g)) eqn:Es; [|discriminate]. cbn in Hv.
  destruct (Evaluated g) eqn:Ee; cbn [negb check cr_maximum cr_actual cr_passed cr_correlation cr_policy].
  - rewrite Es. unfold Evaluated in Ee. rewrite Ee. apply String.eqb_eq in Ee. cbn [negb fail_if mbind res_bind].
    rewrite !parseUint64Text_format by done. cbn [mbind res_bind]. rewrite parseStoredBool_int.
    assert (E : (boolInt (CG_Passed g) <? 0) || (1 <? boolInt (CG_Passed g)) = false) by by destruct (CG_Passed g).
    rewrite E. cbn. rewrite <- Ee. by destruct g.
  - rewrite Es. unfold Evaluated in Ee. rewrite Ee. cbn. unfold fail_if in Hv. case_bool_decide as E; [|discriminate Hv].
    by rewrite <- E.
Qed.

Lemma restored_position projectID e : validateID projectID = Ok tt -> validateID (env_ref e) = Ok tt -> 0 <= rank e <= maxEnvironmentRank ->
  0 < revision e -> exists e', restoreEnvironment (env_ref e) projectID (env_ref e) (rank e) true EnvironmentActive (revision e) = Ok e' /\
    env_projectID e' = projectID /\ env_status e' = EnvironmentActive /\ ranked e' = true /\ rank e' = rank e.
Proof.
  intros Hp Hr Hk Hv. unfold restoreEnvironment, NewEnvironment. rewrite Hp, Hr, validateID_name by done. cbn.
  destruct (Z.ltb_spec maxEnvironmentRank (rank e)); [lia|]. cbn. destruct (Z.eqb_spec (revision e) 0); [lia|]. cbn. by eexists.
Qed.

Lemma restoreEnvironment_fields ref projectID name r k st rev e : restoreEnvironment ref projectID name r k st rev = Ok e ->
  rank e = r /\ revision e = rev /\ rev <> 0.
Proof.
  intros H. unfold restoreEnvironment in H. res_inv. subst e. split; [done|]. split; [done|]. by apply Z.eqb_neq.
Qed.

Lemma outcomeFor_cases v o : outcomeFor v = Ok o -> (v = GateVerdictPass /\ o = PromotionAccepted) \/ (v = GateVerdictFail /\ o = PromotionRejected).
Proof.
  unfold outcomeFor. destruct (String.eqb_spec v GateVerdictPass); [intros [= <-]; by left|].
  destruct (String.eqb_spec v GateVerdictFail); [intros [= <-]; by right|done].
Qed.

Lemma NewPromotion_spec d p : NewPromotion d = Ok p ->
  let g := GateResult d in
  validateID (PD_ID d) = Ok tt /\ time_is_zero (DecidedAt d) = false /\ gr_bound g = true /\
  CanPromote (Source d) (Target d) = true /\ gr_environment g = env_ref (Source d) /\ gr_referenceRunID g <> gr_candidateRunID g /\
  outcomeFor (verdict g) = Ok (outcome p) /\
  p = {| pr_id := PD_ID d; pr_projectID := env_projectID (Source d); pr_candidateID := gr_candidateCandidate g;
         pr_referenceRunID := gr_referenceRunID g; pr_candidateRunID := gr_candidateRunID g;
         source := position_of (Source d); target := position_of (Target d); pr_limits := limits_of g;
         gateResult := g; outcome := outcome p; decidedAt := DecidedAt d |}.
Proof.
  intros H. unfold NewPromotion in H. res_inv. subst p. cbn.
  repeat match goal with
  | H : negb _ = false |- _ => apply negb_false_iff in H
  | H : String.eqb _ _ = true |- _ => apply String.eqb_eq in H
  | H : String.eqb _ _ = false |- _ => apply String.eqb_neq in H
  end. done.
Qed.

Lemma min_eta m : {| MI_Actual := MI_Actual m; Minimum := Minimum m; MI_Passed := MI_Passed m |} = m.
Proof. by destruct m. Qed.
Lemma max_eta m : {| MA_Actual := MA_Actual m; Maximum := Maximum m; MA_Passed := MA_Passed m |} = m.
Proof. by destruct m. Qed.

Lemma NewPromotion_total d : let g := GateResult d in
  validateID (PD_ID d) = Ok tt -> time_is_zero (DecidedAt d) = false -> gr_bound g = true ->
  CanPromote (Source d) (Target d) = true -> gr_environment g = env_ref (Source d) ->
  gr_referenceRunID g <> gr_candidateRunID g -> verdict g = GateVerdictPass \/ verdict g = GateVerdictFail ->
  exists p, NewPromotion d = Ok p.
Proof.
  cbn zeta. intros H1 H2 H3 H4 H5 H6 H7. unfold NewPromotion. rewrite H1, H2, H3, H4, H5, String.eqb_refl.
  rewrite (proj2 (String.eqb_neq _ _) H6). cbn. destruct H7 as [-> | ->]; by eexists.
Qed.

(** A promotion's row reads back as the promotion. *)
Lemma promotion_columns_restore d p : NewPromotion d = Ok p -> env_ok (Source d) -> env_ok (Target d) ->
  gate_row_ok (GateResult d) -> restorePromotionRow (promotion_columns p) = Ok p.
Proof.
  intros H Hs Ht [Gc Gn Gr]. apply NewPromotion_spec in H. cbn zeta in H.
  destruct H as (D1 & D2 & D3 & D4 & D5 & D6 & D7 & Ep). set (g := GateResult d) in *.
  destruct Hs as [S1 S2 S3 S4 S5 S6], Ht as [T1 T2 T3 T4 T5 T6].
  rewrite CanPromote_iff in D4. destruct D4 as (C1 & C2 & C3 & C4 & C5 & C6). rewrite C4 in S4. rewrite C5 in T4.
  rewrite !Forall_cons in Gn. destruct Gn as (G1 & G2 & G3 & G4 & G5 & G6 & G7 & G8 & G9 & G10 & G11 & G12 & _).
  assert (Gv : validateStoredChangeGate (addedBehaviorChanges g) = Ok tt).
  { unfold restoreEvaluationGateResult in Gr. by res_inv. }
  pose proof (restore_change_columns _ G11 G12 Gv) as Gch.
  destruct (restored_position (env_projectID (Source d)) (Source d) S2 S1 S4 ltac:(lia)) as (se & Hse & E1 & E2 & E3 & E4).
  destruct (restored_position (env_projectID (Source d)) (Target d) S2 T1 T4 ltac:(lia)) as (te & Hte & F1 & F2 & F3 & F4).
  assert (Hcan : CanPromote se te = true) by (rewrite CanPromote_iff; split_and!; congruence || lia).
  assert (Eo : (negb (PromotionOutcome_valid (outcome p)) = false) /\ (outcome p <>s outcome p)%go = false).
  { rewrite String.eqb_refl. by destruct (outcomeFor_cases _ _ D7) as [[_ ->]|[_ ->]]. }
  destruct Eo as [Eo1 Eo2].
  assert (Hrank : forall v, 0 <= v <= maxEnvironmentRank -> stored_rank v = Ok v).
  { intros v Hv. unfold stored_rank. destruct (Z.ltb_spec v 0), (Z.ltb_spec maxEnvironmentRank v); try lia. done. }
  rewrite Ep. unfold restorePromotionRow, promotion_columns.
  cbn [p_id p_projectID p_candidateID referenceCandidateID p_referenceRunID p_candidateRunID sourceRef sourceRank sourceRevision
    targetRef targetRank targetRevision maxAdded maxBlock maxCritical refEvidenceActual refEvidenceMinimum refEvidencePassed
    candEvidenceActual candEvidenceMin candEvidencePassed addedActual addedPassed blockActual blockPassed criticalActual
    criticalPassed p_verdict p_outcome p_decidedAt p_changes pr_id pr_projectID pr_candidateID pr_referenceRunID pr_candidateRunID
    source target pr_limits gateResult outcome decidedAt position_of Ref Rank Revision limits_of MaxAddedBehaviors MaxBlockDecisions
    MaxCriticalRiskObservations].
  rewrite !Hrank by done. rewrite !parseUint64Text_format by (done || ulia). rewrite !parseStoredBool_int, Gch.
  cbn [corrupt mbind res_bind map_err]. rewrite <- D5.
  rewrite !min_eta, !max_eta, Gr.
  cbn [corrupt mbind res_bind map_err]. unfold restorePromotion. cbn [Ref Rank Revision foldM].
  rewrite D5, D1, S2, Gc, S1, T1, D2, Eo1, D3, D7. cbn [corrupt mbind res_bind fail_if negb]. rewrite Eo2. cbn [fail_if mbind res_bind].
  rewrite Hse. cbn [mbind res_bind]. rewrite Hte. cbn [mbind res_bind]. by rewrite Hcan.
Qed.

Definition limits_range (l : EvaluationGateLimits) : Prop :=
  is_u64 (MaxAddedBehaviors l) /\ is_u64 (MaxBlockDecisions l) /\ is_u64 (MaxCriticalRiskObservations l) /\
  is_u64 (maximum (MaxAddedBehaviorChanges l)).

Lemma restorePromotion_truthful id projectID candidateID src tgt l g o t q :
  restorePromotion id projectID candidateID src tgt l g o t = Ok q ->
  (outcome q = PromotionAccepted <-> verdict (gateResult q) = GateVerdictPass) /\
  (outcome q = PromotionRejected <-> verdict (gateResult q) = GateVerdictFail) /\
  Rank (source q) < Rank (target q) /\ Revision (source q) <> 0 /\ Revision (target q) <> 0.
Proof.
  intros H. unfold restorePromotion, corrupt in H. res_inv. subst q. cbn.
  repeat match goal with
  | H : negb _ = false |- _ => apply negb_false_iff in H
  | H : String.eqb _ _ = true |- _ => apply String.eqb_eq in H
  | H : restoreEnvironment _ _ _ _ _ _ _ = Ok _ |- _ => apply restoreEnvironment_fields in H as (? & ? & ?)
  | H : CanPromote _ _ = true |- _ => apply CanPromote_iff in H as (_ & _ & _ & _ & _ & H)
  | H : outcomeFor _ = Ok _ |- _ => apply outcomeFor_cases in H
  end.
  subst. split; [|split; [|split_and!; congruence || lia]];
    match goal with H : _ \/ _ |- _ => destruct H as [[-> ->]|[-> ->]] end; done.
Qed.

(** What the gate answers over the evidence of two runs is what a promotion row can hold. *)
Lemma evidence_gate_row_ok r1 a1 c1 r2 a2 c2 d s l g :
  evidence_ok r1 a1 c1 -> evidence_ok r2 a2 c2 -> compared c1 c2 d -> NewEvaluationScorecard a1 a2 d = Ok s ->
  limits_range l -> EvaluateEvaluationGate s (NewEvaluationGatePolicy l) = Ok g -> gate_row_ok g.
Proof.
  intros H1 H2 Hd Hs (L1 & L2 & L3 & L4) Hg. destruct (gate_result_restores_raw _ _ _ Hg) as [Hr _].
  destruct (evidence_card_judged _ _ _ _ _ _ _ _ H1 H2 Hd Hs) as (_ & _ & _ & Ead & Ech).
  pose proof (ao_parts a2 (ev_agg _ _ _ H2)) as Hp. rewrite !Forall_cons in Hp. destruct Hp as ((P1 & _) & (P2 & _) & _).
  unfold decision_parts, risk_parts in P1, P2. rewrite !Forall_cons in P1. rewrite !Forall_cons in P2.
  destruct P1 as (_ & _ & _ & _ & _ & P1 & _), P2 as (_ & _ & _ & P2 & _).
  pose proof (ao_count a1 (ev_agg _ _ _ H1)) as N1. pose proof (ao_count a2 (ev_agg _ _ _ H2)) as N2.
  pose proof (ao_ids a2 (ev_agg _ _ _ H2)) as Hids. rewrite !Forall_cons in Hids. destruct Hids as (_ & I2 & _).
  assert (Hu : is_u64 (u64 (AddedCount (sc_behavior s)))) by apply u64_range.
  assert (Hu' : is_u64 (u64 (BS_AddedChangeCount (sc_behavior s)))) by apply u64_range.
  destruct (gate_fields _ _ _ Hg) as (F1 & F2 & F3 & F4 & F5 & F6 & F7 & F8). cbn [limits NewEvaluationGatePolicy] in *.
  unfold NewEvaluationScorecard in Hs. res_inv. subst s. cbn in F1, F2, F3, F4, F5, F6, F8, Hu, Hu'.
  injection F8 as _ _ _ F8 _. split; [rewrite F8; exact I2| |exact Hr].
  rewrite F1, F2, F3, F4, F5, F6, F7. cbn.
  assert (is_u64 1 /\ is_u64 0) as [? ?] by ulia. destruct (set (MaxAddedBehaviorChanges l));
    repeat (apply Forall_cons; split; [done|]); constructor.
Qed.

Lemma scorecard_environment a1 a2 d s : NewEvaluationScorecard a1 a2 d = Ok s -> agg_environment a1 = agg_environment a2.
Proof.
  intros Hs. assert (Hc : assertSameComparison a1 a2 d = Ok tt).
  { unfold NewEvaluationScorecard in Hs. res_inv. by repeat match goal with x : unit |- _ => destruct x end. }
  unfold assertSameComparison in Hc. rewrite !bind_unit_iff, !fail_if_iff, orb_false_iff, !negb_false_iff, !String.eqb_eq in Hc.
  by destruct Hc as (_ & [E _] & _).
Qed.

Lemma outcome_verdict v o : outcomeFor v = Ok o ->
  (o = PromotionAccepted <-> v = GateVerdictPass) /\ (o = PromotionRejected <-> v <> GateVerdictPass).
Proof. by intros [[-> ->]|[-> ->]]%outcomeFor_cases. Qed.

(** Which runs a gate's result is about. *)
Lemma gate_of_evidence r1 a1 c1 r2 a2 c2 d s l g :
  evidence_ok r1 a1 c1 -> evidence_ok r2 a2 c2 -> NewEvaluationScorecard a1 a2 d = Ok s ->
  EvaluateEvaluationGate s (NewEvaluationGatePolicy l) = Ok g ->
  gr_bound g = true /\
  (gr_referenceRunID g, gr_referenceCandidate g, gr_candidateRunID g, gr_candidateCandidate g, gr_environment g) =
    (run_id r1, run_candidateID r1, run_id r2, run_candidateID r2, run_environment r1) /\
  run_environment r2 = run_environment r1.
Proof.
  intros H1 H2 Hs Hg. destruct (gate_cases _ _ _ Hg) as (_ & _ & Hb & _).
  destruct (gate_fields _ _ _ Hg) as (_ & _ & _ & _ & _ & _ & _ & ->).
  destruct (ev_ids _ _ _ H1) as (<- & <- & <- & _), (ev_ids _ _ _ H2) as (<- & <- & <- & _).
  destruct (scorecard_shape _ _ _ _ Hs) as (_ & _ & _ & _ & _ & _ & _ & S1 & S2 & _).
  injection S1 as -> -> -> _. injection S2 as -> -> _. split; [done|]. split; [done|]. by rewrite (scorecard_environment _ _ _ _ Hs).
Qed.

(** The limits a result records are the policy's. *)
Lemma limits_of_gate s l g : EvaluateEvaluationGate s (NewEvaluationGatePolicy l) = Ok g ->
  let l' := limits_of g in
  MaxAddedBehaviors l' = MaxAddedBehaviors l /\ MaxBlockDecisions l' = MaxBlockDecisions l /\
  MaxCriticalRiskObservations l' = MaxCriticalRiskObservations l /\
  set (MaxAddedBehaviorChanges l') = set (MaxAddedBehaviorChanges l) /\
  (set (MaxAddedBehaviorChanges l) = true -> maximum (MaxAddedBehaviorChanges l') = maximum (MaxAddedBehaviorChanges l)).
Proof.
  intros Hg. destruct (gate_fields _ _ _ Hg) as (_ & _ & F3 & F4 & F5 & _ & F7 & _).
  destruct (gate_cases _ _ _ Hg) as (_ & _ & _ & _ & _ & Hset & Hunset).
  cbn [limits NewEvaluationGatePolicy] in *. unfold limits_of, changeLimitOf. rewrite F3, F4, F5. cbn [MaxAddedBehaviors
    MaxBlockDecisions MaxCriticalRiskObservations MaxAddedBehaviorChanges Maximum maximumGate]. split_and!; try done.
  - destruct (set (MaxAddedBehaviorChanges l)); [by destruct (Hset eq_refl) as (_ & -> & _)|by rewrite Hunset].
  - intros E. rewrite E in *. destruct (Hset eq_refl) as (_ & -> & _). exact F7.
Qed.

(** ** Properties *)

(** C38: a promotion of the candidate run's evidence over the reference run's is made exactly
    when its identity and time are valid, its environments are two active, ranked
    environments of one project with the source below the target, the runs were made in the
    source environment, and they are two runs.  It is accepted exactly when both runs have at
    least one record and the candidate's added identities, Block decisions, Critical risks
    and - when that limit is set - counted changes are within the limits the gate was asked
    with, and rejected in every other case; it names the two runs and the promoted candidate,
    the environments with the ranks and revisions they had, and those limits; and when the
    two environments are ones the store holds, its row reads back as the promotion. *)
Theorem promotion_of_evidence r1 a1 c1 r2 a2 c2 d s l dec :
  evidence r1 a1 c1 -> evidence r2 a2 c2 -> compared c1 c2 d -> NewEvaluationScorecard a1 a2 d = Ok s ->
  limits_range l -> EvaluateEvaluationGate s (NewEvaluationGatePolicy l) = Ok (GateResult dec) ->
  let src := Source dec in let tgt := Target dec in
  let within := 1 <= col_observations c1 /\ 1 <= col_observations c2 /\ added d <= MaxAddedBehaviors l /\
    Block (decisions a2) <= MaxBlockDecisions l /\ Critical (risks a2) <= MaxCriticalRiskObservations l /\
    (set (MaxAddedBehaviorChanges l) = true -> AddedChangeCount d <= maximum (MaxAddedBehaviorChanges l)) in
  (is_ok (NewPromotion dec) = true <->
     validateID (PD_ID dec) = Ok tt /\ time_is_zero (DecidedAt dec) = false /\
     env_projectID src = env_projectID tgt /\ env_status src = EnvironmentActive /\ env_status tgt = EnvironmentActive /\
     ranked src = true /\ ranked tgt = true /\ rank src < rank tgt /\
     run_environment r1 = env_ref src /\ run_environment r2 = env_ref src /\ run_id r1 <> run_id r2) /\
  (forall p, NewPromotion dec = Ok p ->
     (outcome p = PromotionAccepted <-> within) /\ (outcome p = PromotionRejected <-> ~ within) /\
     (pr_id p, pr_projectID p, pr_candidateID p, decidedAt p) =
       (PD_ID dec, env_projectID src, run_candidateID r2, DecidedAt dec) /\
     (pr_referenceRunID p, pr_candidateRunID p) = (run_id r1, run_id r2) /\
     (Ref (source p), Rank (source p), Revision (source p)) = (env_ref src, rank src, revision src) /\
     (Ref (target p), Rank (target p), Revision (target p)) = (env_ref tgt, rank tgt, revision tgt) /\
     (MaxAddedBehaviors (pr_limits p), MaxBlockDecisions (pr_limits p), MaxCriticalRiskObservations (pr_limits p)) =
       (MaxAddedBehaviors l, MaxBlockDecisions l, MaxCriticalRiskObservations l) /\
     set (MaxAddedBehaviorChanges (pr_limits p)) = set (MaxAddedBehaviorChanges l) /\
     (set (MaxAddedBehaviorChanges l) = true ->
        maximum (MaxAddedBehaviorChanges (pr_limits p)) = maximum (MaxAddedBehaviorChanges l)) /\
     (env_ok src -> env_ok tgt -> restorePromotionRow (promotion_columns p) = Ok p)).
Proof.
  intros H1%evidence_reachable_ok H2%evidence_reachable_ok Hd Hs Hl Hg. cbv zeta.
  destruct (gate_of_evidence _ _ _ _ _ _ _ _ _ _ H1 H2 Hs Hg) as (Hb & Hi & He).
  destruct (verdict_of_counts _ _ _ _ _ _ _ _ _ _ H1 H2 Hd Hs Hg) as [Hv Hw]. split.
  - rewrite is_ok_spec. injection Hi as I1 _ I3 _ I5. split.
    + intros [p Hp]. destruct (NewPromotion_spec _ _ Hp) as (D1 & D2 & _ & D4%CanPromote_iff & D5 & D6 & _).
      destruct D4 as (? & ? & ? & ? & ? & ?). split_and!; congruence.
    + intros (D1 & D2 & D3 & D4 & D5 & D6 & D7 & D8 & D9 & D10 & D11).
      apply NewPromotion_total; try done; [by apply CanPromote_iff|congruence..].
  - intros p Hp. destruct (NewPromotion_spec _ _ Hp) as (_ & _ & _ & _ & D5 & _ & D7 & Ep). rewrite <- Hw.
    destruct (outcome_verdict _ _ D7) as [O1 O2]. split; [exact O1|]. split; [exact O2|].
    assert (Hrow : env_ok (Source dec) -> env_ok (Target dec) -> restorePromotionRow (promotion_columns p) = Ok p).
    { intros Hso Hta. apply (promotion_columns_restore dec); try done.
      exact (evidence_gate_row_ok _ _ _ _ _ _ _ _ _ _ H1 H2 Hd Hs Hl Hg). }
    injection Hi as I1 I2 I3 I4 I5. destruct (limits_of_gate _ _ _ Hg) as (L1 & L2 & L3 & L4 & L5).
    assert (Ef : pr_limits p = limits_of (GateResult dec) /\ source p = position_of (Source dec) /\
      target p = position_of (Target dec)) by by rewrite Ep.
    destruct Ef as (-> & -> & ->). split_and!; try done; [by rewrite Ep, <- I4|by rewrite Ep, <- I1, <- I3|by rewrite L1, L2, L3].
Qed.

(** a promotion over the evidence of two runs is read back from its row exactly; and no
    row of the promotions table, however it came to hold what it holds, is read back as a
    promotion whose outcome contradicts its gate verdict, whose target is not forward of its
    source, or whose revisions are zero. *)
Theorem promotion_rows_truthful r1 a1 c1 r2 a2 c2 d s l g dec p :
  evidence r1 a1 c1 -> evidence r2 a2 c2 -> compared c1 c2 d -> NewEvaluationScorecard a1 a2 d = Ok s ->
  limits_range l -> EvaluateEvaluationGate s (NewEvaluationGatePolicy l) = Ok g -> GateResult dec = g ->
  env_ok (Source dec) -> env_ok (Target dec) -> NewPromotion dec = Ok p ->
  restorePromotionRow (promotion_columns p) = Ok p /\
  (forall row q, restorePromotionRow row = Ok q ->
     (outcome q = PromotionAccepted <-> verdict (gateResult q) = GateVerdictPass) /\
     (outcome q = PromotionRejected <-> verdict (gateResult q) = GateVerdictFail) /\
     Rank (source q) < Rank (target q) /\ Revision (source q) <> 0 /\ Revision (target q) <> 0).
Proof.
  intros H1%evidence_reachable_ok H2%evidence_reachable_ok Hd Hs Hl Hg <- Hso Hta Hp. split.
  - apply (promotion_columns_restore dec); try done. exact (evidence_gate_row_ok _ _ _ _ _ _ _ _ _ _ H1 H2 Hd Hs Hl Hg).
  - intros row q Hq. unfold restorePromotionRow in Hq. res_inv.
    repeat match goal with p : prod _ _ |- _ => destruct p end.
    exact (restorePromotion_truthful _ _ _ _ _ _ _ _ _ _ Hq).
Qed.

(** ** Witnesses *)
Definition example_decision (g : EvaluationGateResult) : PromotionDecision :=
  {| PD_ID := "promo"; Source := example_environment "prod" 10; Target := example_environment "global" 20;
     GateResult := g; DecidedAt := day 5 |}.

(** The gate's answer over the example runs. *)
Lemma example_gate : exists a1 c1 a2 c2 d s g, grown_example a1 c1 a2 c2 d /\ NewEvaluationScorecard a1 a2 d = Ok s /\
  EvaluateEvaluationGate s (NewEvaluationGatePolicy example_limits) = Ok g /\ gr_bound g = true /\ gr_environment g = "prod" /\
  gr_referenceRunID g <> gr_candidateRunID g /\ gr_referenceCandidate g = "c" /\ gr_candidateCandidate g = "c2" /\
  (verdict g = GateVerdictPass \/ verdict g = GateVerdictFail).
Proof.
  destruct example_scorecard as (a1 & c1 & a2 & c2 & d & s & H & Es). pose proof H as (E1 & E2 & Hcmp & _).
  pose proof (evidence_card_judged _ _ _ _ _ _ _ _ (evidence_reachable_ok _ _ _ E1) (evidence_reachable_ok _ _ _ E2) Hcmp Es)
    as (J1 & J2 & J3 & _).
  destruct (gate_total s (NewEvaluationGatePolicy example_limits) eq_refl J1 J2 J3) as [g Hg].
  destruct (gate_fields _ _ _ Hg) as (_ & _ & _ & _ & _ & _ & _ & F8).
  destruct (scorecard_shape _ _ _ _ Es) as (_ & _ & _ & _ & _ & _ & _ & S1 & S2 & _).
  destruct (ev_ids _ _ _ (evidence_reachable_ok _ _ _ E1)) as (A1 & A2 & A3 & A4).
  destruct (ev_ids _ _ _ (evidence_reachable_ok _ _ _ E2)) as (B1 & B2 & B3 & B4).
  injection F8 as F1 F2 F3 F4 F5. injection S1 as S11 S12 S13 S14. injection S2 as S21 S22 S23.
  destruct (gate_cases _ _ _ Hg) as (_ & _ & Hb & _ & Hv & _).
  exists a1, c1, a2, c2, d, s, g. rewrite F1, F2, F3, F4, F5, S11, S12, S13, S21, S22, A1, A2, A3, B1, B2.
  split_and!; [done..|]. destruct Hv as [[Hv _]|[Hv _]]; [left|right]; exact Hv.
Qed.

Lemma promotion_rows_truthful_witness : exists g p,
  NewPromotion (example_decision g) = Ok p /\ restorePromotionRow (promotion_columns p) = Ok p.
Proof.
  destruct example_gate as (a1 & c1 & a2 & c2 & d & s & g & (E1 & E2 & Hcmp & _) & Es & Hg & Hb & He & Hd & _ & _ & Hv).
  destruct (NewPromotion_total (example_decision g)) as [p Hp]; try reflexivity; try assumption.
  exists g, p. split; [exact Hp|].
  apply (promotion_rows_truthful _ a1 c1 _ a2 c2 d s example_limits g (example_decision g) p E1 E2 Hcmp Es); try exact Hg; try exact Hp;
    try reflexivity; try (by apply example_environment_ok); unfold limits_range; cbn; ulia.
Defined.

Lemma promotion_of_evidence_witness : exists a1 c1 a2 c2 d s g p,
  grown_example a1 c1 a2 c2 d /\ NewEvaluationScorecard a1 a2 d = Ok s /\
  EvaluateEvaluationGate s (NewEvaluationGatePolicy example_limits) = Ok g /\ NewPromotion (example_decision g) = Ok p /\
  (outcome p = PromotionAccepted <->
     1 <= col_observations c1 /\ 1 <= col_observations c2 /\ added d <= 5 /\ Block (decisions a2) <= 0 /\
     Critical (risks a2) <= 0 /\ (true = true -> AddedChangeCount d <= 3)).
Proof.
  destruct example_gate as (a1 & c1 & a2 & c2 & d & s & g & H & Es & Hg & Hb & He & Hd & _ & _ & Hv).
  destruct (NewPromotion_total (example_decision g)) as [p Hp]; try reflexivity; try assumption.
  exists a1, c1, a2, c2, d, s, g, p. refine (conj H (conj Es (conj Hg (conj Hp _)))). destruct H as (E1 & E2 & Hcmp & _).
  destruct (promotion_of_evidence _ a1 c1 _ a2 c2 d s example_limits (example_decision g) E1 E2 Hcmp Es) as [_ Hm];
    [unfold limits_range; cbn; ulia|exact Hg|].
  destruct (Hm p Hp) as [Hacc _]. exact Hacc.
Defined.
