(* ===== verification/RunStore.v ===== *)
(** * Package platform: stored evaluation runs (sqlite.go)

    The table of evaluation runs: a row per run, the run a row is rehydrated to by replaying
    its lifecycle, creation, and the compare-and-set update of a transition.  The theorems
    show that the table is a map from identifiers to run values that changes only along the
    lifecycle of [Domain]. *)
From S2P Require Import Prelude GoText GoTime Domain Aggregate Recency.

Open Scope string_scope.
Open Scope Z_scope.

(** ** Rows *)
Definition time_equal (t u : time) : bool := instant t =? instant u.
Definition nullTime (t : time) : option time := if time_is_zero t then None else Some t.
Definition parseNullTime (c : option time) : time := match c with None => zero_time | Some t => t end.

Record storedRun : Type := {
  sr_candidateID : CandidateID;
  sr_environment : EnvironmentRef;
  sr_profile : BehavioralProfileRef;
  sr_status : RunStatus;
  sr_createdAt : time;
  sr_startedAt : option time;
  sr_finishedAt : option time;
  sr_failureReason : string;
}.

(** A row is a stored run and its created_order. *)
Notation run_table := (gmap EvaluationRunID (storedRun * string)).

Definition run_columns (r : EvaluationRun) : storedRun :=
  {| sr_candidateID := run_candidateID r; sr_environment := run_environment r; sr_profile := run_profile r;
     sr_status := status r; sr_createdAt := createdAt r; sr_startedAt := nullTime (startedAt r);
     sr_finishedAt := nullTime (finishedAt r); sr_failureReason := failureReason r |}.

(** The errors of the replay are printed, not wrapped. *)
Definition replayed {A} (m : res A) : res A := map_err (fun _ => [ErrStoreCorrupt]) m.

Definition rehydrateRun (id : EvaluationRunID) (stored : storedRun) : res EvaluationRun :=
  let started := parseNullTime (sr_startedAt stored) in
  let finished := parseNullTime (sr_finishedAt stored) in
  run ← replayed (NewEvaluationRun id (sr_candidateID stored) (sr_environment stored) (sr_profile stored)
                    (sr_createdAt stored));
  run ← (if sr_status stored =s RunPending then
           fail_if (negb (time_is_zero started) || negb (time_is_zero finished) ||
                    (sr_failureReason stored <>s "")) [ErrStoreCorrupt];;
           Ok run
         else if sr_status stored =s RunRunning then
           fail_if (negb (time_is_zero finished) || (sr_failureReason stored <>s "")) [ErrStoreCorrupt];;
           replayed (Start run started)
         else if sr_status stored =s RunCompleted then
           fail_if (sr_failureReason stored <>s "") [ErrStoreCorrupt];;
           run ← replayed (Start run started);
           replayed (Complete run finished)
         else if sr_status stored =s RunFailed then
           run ← replayed (Start run started);
           replayed (Fail_ run finished (sr_failureReason stored))
         else if sr_status stored =s RunCancelled then
           run ← (if negb (time_is_zero started) then replayed (Start run started) else Ok run);
           run ← replayed (Cancel run finished);
           fail_if (sr_failureReason stored <>s "") [ErrStoreCorrupt];;
           Ok run
         else Err [ErrStoreCorrupt]);
  fail_if (status run <>s sr_status stored) [ErrStoreCorrupt];;
  fail_if (negb (time_equal (startedAt run) started) || negb (time_equal (finishedAt run) finished))
    [ErrStoreCorrupt];;
  Ok run.

Definition loadRun (t : run_table) (id : EvaluationRunID) : res EvaluationRun :=
  match t !! id with
  | None => Err [ErrStoreNotFound]
  | Some (stored, _) => rehydrateRun id stored
  end.

(** ** Creation and update *)
Definition requireExists {A} (table : gmap string A) (id : string) : res unit :=
  fail_if (negb (bool_decide (is_Some (table !! id)))) [ErrStoreNotFound].

(** INSERT, with the PRIMARY KEY constraint as writeError reports it. *)
Definition insert_row {A} (table : gmap string A) (id : string) (row : A) : res (gmap string A) :=
  fail_if (bool_decide (is_Some (table !! id))) [ErrStoreAlreadyExists];; Ok (<[id := row]> table).

Definition Store_CreateEvaluationRun {A} (candidates : gmap string A) (t : run_table) (run : EvaluationRun)
    : res run_table :=
  validateRunBinding run;;
  requireExists candidates (run_candidateID run);;
  key ← recencyKey (createdAt run);
  insert_row t (run_id run) (run_columns run, key).

Definition sameRun (a b : EvaluationRun) : bool :=
  (run_id a =s run_id b) && (run_candidateID a =s run_candidateID b) &&
  (run_environment a =s run_environment b) && (run_profile a =s run_profile b) &&
  (status a =s status b) && time_equal (createdAt a) (createdAt b) &&
  time_equal (startedAt a) (startedAt b) && time_equal (finishedAt a) (finishedAt b) &&
  (failureReason a =s failureReason b).

Definition validTransition (previous next : EvaluationRun) : res unit :=
  let conflict {A} (m : res A) := map_err (fun e => ErrStoreConflict :: e) m in
  produced ← (if status next =s RunRunning then conflict (Start previous (startedAt next))
              else if status next =s RunCompleted then conflict (Complete previous (finishedAt next))
              else if status next =s RunFailed then
                conflict (Fail_ previous (finishedAt next) (failureReason next))
              else if status next =s RunCancelled then conflict (Cancel previous (finishedAt next))
              else Err [ErrStoreConflict]);
  fail_if (negb (sameRun produced next)) [ErrStoreConflict].

(** The row an UPDATE leaves: the immutable columns and created_order stay. *)
Definition with_lifecycle (stored : storedRun) (next : EvaluationRun) : storedRun :=
  {| sr_candidateID := sr_candidateID stored; sr_environment := sr_environment stored;
     sr_profile := sr_profile stored; sr_status := status next; sr_createdAt := sr_createdAt stored;
     sr_startedAt := nullTime (startedAt next); sr_finishedAt := nullTime (finishedAt next);
     sr_failureReason := failureReason next |}.

Definition UpdateEvaluationRun (t : run_table) (previous next : EvaluationRun) : res run_table :=
  validateRunBinding previous;;
  validateRunBinding next;;
  fail_if (run_id previous <>s run_id next) [ErrStoreConflict];;
  fail_if ((run_candidateID previous <>s run_candidateID next) ||
           (run_environment previous <>s run_environment next) ||
           (run_profile previous <>s run_profile next) ||
           negb (time_equal (createdAt previous) (createdAt next))) [ErrStoreConflict];;
  validTransition previous next;;
  stored ← loadRun t (run_id previous);
  fail_if (negb (sameRun stored previous)) [ErrStoreConflict];;
  match t !! run_id next with
  | Some (row, order) =>
      fail_if (sr_status row <>s status previous) [ErrStoreConflict];;
      Ok (<[run_id next := (with_lifecycle row next, order)]> t)
  | None => Err [ErrStoreConflict]
  end.

(** ** Rehydration *)
Definition created_as (r : EvaluationRun) : res EvaluationRun :=
  NewEvaluationRun (run_id r) (run_candidateID r) (run_environment r) (run_profile r) (createdAt r).

(** The four lives a run can have had, which are the four replays of a row. *)
Variant history (r : EvaluationRun) : Prop :=
| h_pending : created_as r = Ok r -> history r
| h_running r0 : created_as r = Ok r0 -> Start r0 (startedAt r) = Ok r -> history r
| h_finished r0 r1 : created_as r = Ok r0 -> Start r0 (startedAt r) = Ok r1 ->
    finish r1 (status r) (finishedAt r) (failureReason r) = Ok r ->
    (failureReason r <> "" -> status r = RunFailed) -> history r
| h_cancelled r0 : created_as r = Ok r0 -> Cancel r0 (finishedAt r) = Ok r -> history r.

Lemma created_fields r r0 : created_as r = Ok r0 ->
  status r0 = RunPending /\ startedAt r0 = zero_time /\ finishedAt r0 = zero_time /\ failureReason r0 = "".
Proof. unfold created_as, NewEvaluationRun. intros H. res_inv. by subst r0. Qed.

Lemma finish_history r to at_ reason r' : history r -> run_ok r -> to <> RunRunning ->
  (reason <> "" -> to = RunFailed) -> finish r to at_ reason = Ok r' -> history r'.
Proof.
  intros Hh Hok Hto Hreason H. pose proof H as (Hs & _ & _ & E)%finish_spec. destruct Hh as [Hc|r0 Hc H0|r0 r1 Hc H0 H1 _|r0 Hc H0].
  - destruct (created_fields _ _ Hc) as (Hp & _). destruct Hs as [[_ ->]|[[Hs _]|[_ ->]]]; [|by rewrite Hp in Hs|done].
    destruct (decide (reason = "")) as [->|Hr]; [|by specialize (Hreason Hr)].
    apply (h_cancelled r' r); [unfold created_as in *; by subst r'|]. unfold Cancel. by subst r'.
  - apply (h_finished r' r0 r); unfold created_as in *; by subst r'.
  - pose proof H1 as (Ht & _ & _ & E1)%finish_spec. exfalso.
    assert (Hs1 : status r1 = RunRunning) by (apply Start_spec in H0 as (_ & _ & _ & ->); done).
    rewrite Hs1 in Ht. destruct Hs as [[Hs _]|[[Hs _]|[Hs _]]]; rewrite Hs in Ht; clear -Ht; destruct_or?; destruct_and?; destruct_or?; done.
  - pose proof H0 as (_ & _ & _ & E1)%finish_spec. exfalso. assert (E2 : status r = RunCancelled) by (rewrite E1; done).
    rewrite E2 in Hs. clear -Hs. destruct_or?; destruct_and?; destruct_or?; done.
Qed.

Lemma reachable_history r : run_reachable r -> history r.
Proof.
  induction 1 as [id candidate environment profile created r H|r r' Hr IH Hs].
  - apply h_pending. assert (E : run_id r = id /\ run_candidateID r = candidate /\ run_environment r = environment /\
      run_profile r = profile /\ createdAt r = created) by (unfold NewEvaluationRun in H; res_inv; by subst r).
    unfold created_as. by destruct E as (-> & -> & -> & -> & ->).
  - pose proof (run_lifecycle_consistent r Hr) as Hok.
    destruct Hs as [r1 at_ r2 H|r1 at_ r2 H|r1 at_ reason r2 H|r1 at_ r2 H].
    + pose proof H as (Hp & _ & _ & E)%Start_spec. destruct IH as [Hc|r0 Hc H0|r0 r3 Hc H0 H1 _|r0 Hc H0].
      * apply (h_running r2 r1); unfold created_as in *; by subst r2.
      * apply Start_spec in H0 as (_ & _ & _ & E0). by rewrite E0 in Hp.
      * apply finish_spec in H1 as (Hs & _). exfalso. apply Start_spec in H0 as (_ & _ & _ & ->). rewrite Hp in Hs. clear -Hs. destruct_or?; destruct_and?; destruct_or?; done.
      * apply finish_spec in H0 as (_ & _ & _ & E0). by rewrite E0 in Hp.
    + by apply (finish_history r1 RunCompleted at_ "" r2).
    + by apply (finish_history r1 RunFailed at_ reason r2).
    + by apply (finish_history r1 RunCancelled at_ "" r2).
Qed.

Lemma null_roundtrip t : (time_is_zero t = true -> t = zero_time) -> parseNullTime (nullTime t) = t.
Proof. unfold nullTime. intros H. destruct (time_is_zero t); [by rewrite H|done]. Qed.

Lemma time_equal_refl t : time_equal t t = true.
Proof. apply Z.eqb_refl. Qed.

Lemma rehydrate_columns r : run_reachable r -> rehydrateRun (run_id r) (run_columns r) = Ok r.
Proof.
  intros Hr. pose proof (run_lifecycle_consistent r Hr) as Hok. pose proof (reachable_history r Hr) as Hh.
  assert (Hz : (time_is_zero (startedAt r) = true -> startedAt r = zero_time) /\
               (time_is_zero (finishedAt r) = true -> finishedAt r = zero_time)).
  { destruct Hh as [Hc|r0 Hc H0|r0 r1 Hc H0 H1 _|r0 Hc H0]; destruct (created_fields _ _ Hc) as (_ & Es & Ef & _).
    - by rewrite Es, Ef.
    - apply Start_spec in H0 as (_ & Hn & _ & E). rewrite E. cbn. by rewrite Hn.
    - apply Start_spec in H0 as (_ & Hn & _ & E). apply finish_spec in H1 as (_ & Hn' & _ & E'). rewrite Hn, Hn'. done.
    - apply finish_spec in H0 as (_ & Hn & _ & E). rewrite Hn. rewrite E. cbn. by rewrite Es. }
  destruct Hz as [Hz1 Hz2]. unfold rehydrateRun. cbn [sr_candidateID sr_environment sr_profile sr_status sr_createdAt sr_startedAt sr_finishedAt sr_failureReason run_columns].
  rewrite !null_roundtrip by done. destruct Hh as [Hc|r0 Hc H0|r0 r1 Hc H0 H1 Hreason|r0 Hc H0];
    pose proof (created_fields _ _ Hc) as (Es & Est & Ef & Er); unfold created_as in Hc; rewrite Hc; cbn [replayed map_err mbind res_bind].
  - rewrite Es, Est, Ef, Er. cbn. by rewrite Es, Est, Ef.
  - pose proof H0 as (_ & Hn & _ & E)%Start_spec.
    assert (Es' : status r = RunRunning) by (by rewrite E). assert (Ef' : finishedAt r = zero_time) by (rewrite E; done).
    assert (Er' : failureReason r = "") by (rewrite E; done). rewrite Es', Ef', Er'. cbn. rewrite H0. cbn.
    rewrite Es'. cbn. by rewrite !time_equal_refl, Ef'.
  - pose proof H0 as (_ & Hn & _ & E)%Start_spec. pose proof H1 as (Hs & Hn' & _ & E')%finish_spec.
    assert (Hs1 : status r1 = RunRunning) by (by rewrite E). rewrite H0. cbn [replayed map_err mbind res_bind].
    assert (Hst : status r = RunCompleted \/ status r = RunFailed \/ status r = RunCancelled).
    { rewrite Hs1 in Hs. clear -Hs. destruct_or?; destruct_and?; destruct_or?; try done; auto. }
    assert (Hr0 : status r <> RunFailed -> failureReason r = "").
    { intros Hf. destruct (decide (failureReason r = "")); [done|]. by destruct Hf; apply Hreason. }
    destruct Hst as [Hst|[Hst|Hst]]; rewrite Hst in *.
    + rewrite Hr0 in * by done. cbn. unfold Complete. rewrite H1. cbn. by rewrite Hst, !time_equal_refl.
    + cbn. unfold Fail_. rewrite H1. cbn. by rewrite Hst, !time_equal_refl.
    + rewrite Hr0 in * by done. cbn. rewrite Hn. cbn. unfold Cancel. rewrite H1. cbn. by rewrite Hst, !time_equal_refl.
  - pose proof H0 as (_ & Hn & _ & E)%finish_spec.
    assert (Es' : status r = RunCancelled) by (by rewrite E). assert (Est' : startedAt r = zero_time) by (rewrite E; done).
    assert (Er' : failureReason r = "") by (rewrite E; done). rewrite Es', Est', Er'. cbn. rewrite H0. cbn.
    by rewrite Es', Est', !time_equal_refl.
Qed.

(** ** Runs up to the zones of their times *)
Lemma time_equal_iff t u : time_equal t u = true <-> instant t = instant u.
Proof. apply Z.eqb_eq. Qed.

Definition run_ids4 (r : EvaluationRun) := (run_id r, run_candidateID r, run_environment r, run_profile r).

Lemma sameRun_iff a b : sameRun a b = true <->
  run_ids4 a = run_ids4 b /\ status a = status b /\ failureReason a = failureReason b /\
  instant (createdAt a) = instant (createdAt b) /\ instant (startedAt a) = instant (startedAt b) /\
  instant (finishedAt a) = instant (finishedAt b).
Proof.
  unfold sameRun, run_ids4. rewrite !andb_true_iff, !String.eqb_eq, !time_equal_iff. split.
  - intros H. destruct_and!. split_and!; congruence.
  - intros (E & ? & ? & ? & ? & ?). injection E as E1 E2 E3 E4. by split_and!.
Qed.

Definition same_run (a b : EvaluationRun) : Prop := sameRun a b = true.
#[export] Instance same_run_equivalence : Equivalence same_run.
Proof.
  split.
  - intros a. by apply sameRun_iff.
  - intros a b H. unfold same_run in *. rewrite sameRun_iff in *. destruct_and!. by split_and!.
  - intros a b c H1 H2. unfold same_run in *. rewrite sameRun_iff in *. destruct_and!. split_and!; congruence.
Qed.

Lemma transitionAllowed_same a b to : status a = status b -> transitionAllowed a to = transitionAllowed b to.
Proof. unfold transitionAllowed. by intros ->. Qed.
Lemma notBefore_same t u t' u' : instant t = instant u -> instant t' = instant u' -> notBefore t t' = notBefore u u'.
Proof. unfold notBefore, time_is_zero, time_before. by intros -> ->. Qed.

Lemma Start_same a b t u a' : same_run a b -> instant t = instant u -> Start a t = Ok a' ->
  exists b', Start b u = Ok b' /\ same_run a' b'.
Proof.
  intros (Hi & Hs & Hr & Hc & Hst & Hf)%sameRun_iff Ht H. pose proof H as (_ & _ & _ & E)%Start_spec.
  unfold Start in H |- *. rewrite <- (transitionAllowed_same a b), <- (notBefore_same t u (createdAt a) (createdAt b)) by done.
  res_inv. rewrite Hok, Hok0. eexists. split; [reflexivity|]. apply sameRun_iff. rewrite E. cbn. by split_and!.
Qed.

Lemma finish_same a b to t u reason a' : same_run a b -> instant t = instant u -> finish a to t reason = Ok a' ->
  exists b', finish b to u reason = Ok b' /\ same_run a' b'.
Proof.
  intros (Hi & Hs & Hr & Hc & Hst & Hf)%sameRun_iff Ht H. pose proof H as (_ & _ & _ & E)%finish_spec.
  unfold finish in H |- *. rewrite <- (transitionAllowed_same a b) by done.
  rewrite <- (notBefore_same t u (if time_is_zero (startedAt a) then createdAt a else startedAt a)); [|done|].
  2: { unfold time_is_zero. rewrite Hst. by destruct (instant (startedAt b) =? 0). }
  res_inv. rewrite Hok, Hok0, Hok1. eexists. split; [reflexivity|]. apply sameRun_iff. rewrite E. cbn. by split_and!.
Qed.

Lemma run_step_same a b a' : same_run a b -> run_step a a' -> exists b', run_step b b' /\ same_run a' b'.
Proof.
  intros Hab Hs. destruct Hs as [a t a' H|a t a' H|a t reason a' H|a t a' H].
  - destruct (Start_same a b t t a' Hab eq_refl H) as (b' & Hb & He). exists b'. split; [by eapply step_start|done].
  - destruct (finish_same a b RunCompleted t t "" a' Hab eq_refl H) as (b' & Hb & He). exists b'. split; [by eapply step_complete|done].
  - destruct (finish_same a b RunFailed t t reason a' Hab eq_refl H) as (b' & Hb & He). exists b'. split; [by eapply step_fail|done].
  - destruct (finish_same a b RunCancelled t t "" a' Hab eq_refl H) as (b' & Hb & He). exists b'. split; [by eapply step_cancel|done].
Qed.

Lemma validTransition_iff previous next : validTransition previous next = Ok tt <->
  exists p, run_step previous p /\ same_run p next.
Proof.
  unfold validTransition. split.
  - intros H. res_inv. apply negb_false_iff in H. exists a. split; [|done].
    repeat match goal with Hok : (if ?c then _ else _) = Ok _ |- _ => destruct c end; res_inv; try done;
      [by eapply step_start|by eapply step_complete|by eapply step_fail|by eapply step_cancel].
  - intros (p & Hs & Hp). pose proof Hp as (_ & Est & Er & _ & Hst & Hf)%sameRun_iff.
    destruct Hs as [a t a' H|a t a' H|a t reason a' H|a t a' H].
    + pose proof H as (_ & _ & _ & E)%Start_spec. rewrite <- Est, E. cbn [status].
      destruct (Start_same a a t (startedAt next) a' (reflexivity _)) as (b' & Hb & He); [|done|].
      { rewrite <- Hst, E. done. }
      cbn. rewrite Hb. cbn. assert (Hn : same_run b' next) by (transitivity a'; [by symmetry|done]). by rewrite Hn.
    + pose proof H as (_ & _ & _ & E)%finish_spec. rewrite <- Est, E. cbn [status].
      destruct (finish_same a a RunCompleted t (finishedAt next) "" a' (reflexivity _)) as (b' & Hb & He); [|done|].
      { rewrite <- Hf, E. done. }
      cbn. unfold Complete. rewrite Hb. cbn. assert (Hn : same_run b' next) by (transitivity a'; [by symmetry|done]). by rewrite Hn.
    + pose proof H as (_ & _ & _ & E)%finish_spec. rewrite <- Est, <- Er, E. cbn [status failureReason].
      destruct (finish_same a a RunFailed t (finishedAt next) reason a' (reflexivity _)) as (b' & Hb & He); [|done|].
      { rewrite <- Hf, E. done. }
      cbn. unfold Fail_. rewrite Hb. cbn. assert (Hn : same_run b' next) by (transitivity a'; [by symmetry|done]). by rewrite Hn.
    + pose proof H as (_ & _ & _ & E)%finish_spec. rewrite <- Est, E. cbn [status].
      destruct (finish_same a a RunCancelled t (finishedAt next) "" a' (reflexivity _)) as (b' & Hb & He); [|done|].
      { rewrite <- Hf, E. done. }
      cbn. unfold Cancel. rewrite Hb. cbn. assert (Hn : same_run b' next) by (transitivity a'; [by symmetry|done]). by rewrite Hn.
Qed.

(** ** The table's invariant

    Every row is the row of a run value some lifecycle produced. *)
Definition runs_ok (t : run_table) : Prop :=
  forall id stored order, t !! id = Some (stored, order) ->
    exists r, run_reachable r /\ run_id r = id /\ stored = run_columns r /\ recencyKey (createdAt r) = Ok order.

Lemma runs_ok_load t id stored order : runs_ok t -> t !! id = Some (stored, order) ->
  exists r, run_reachable r /\ run_id r = id /\ stored = run_columns r /\ recencyKey (createdAt r) = Ok order /\
    loadRun t id = Ok r.
Proof.
  intros Ht E. destruct (Ht _ _ _ E) as (r & Hr & <- & -> & Hk). exists r. split_and!; try done.
  unfold loadRun. rewrite E. by apply rehydrate_columns.
Qed.

Lemma loadRun_Ok t id r : runs_ok t -> loadRun t id = Ok r ->
  run_reachable r /\ run_id r = id /\ exists order, t !! id = Some (run_columns r, order) /\ recencyKey (createdAt r) = Ok order.
Proof.
  intros Ht H. destruct (t !! id) as [[stored order]|] eqn:E; [|by unfold loadRun in H; rewrite E in H].
  destruct (runs_ok_load _ _ _ _ Ht E) as (r' & Hr & Hid & -> & Hk & Hl). rewrite Hl in H. injection H as <-. eauto.
Qed.

Lemma loadRun_Err t id e : runs_ok t -> loadRun t id = Err e -> t !! id = None /\ e = [ErrStoreNotFound].
Proof.
  intros Ht H. destruct (t !! id) as [[stored order]|] eqn:E.
  - destruct (runs_ok_load _ _ _ _ Ht E) as (r' & _ & _ & _ & _ & Hl). by rewrite Hl in H.
  - unfold loadRun in H. rewrite E in H. by injection H as <-.
Qed.

Lemma loadRun_insert_ne t id id' row : id <> id' -> loadRun (<[id := row]> t) id' = loadRun t id'.
Proof. intros H. unfold loadRun. by rewrite lookup_insert_ne. Qed.

Lemma reachable_binding r : run_reachable r -> validateRunBinding r = Ok tt.
Proof.
  intros Hr. pose proof (run_lifecycle_consistent r Hr) as [Hs Hc _ _ _ _ _ _].
  assert (Hi : validateID (run_id r) = Ok tt /\ validateID (run_candidateID r) = Ok tt /\
               validateID (run_environment r) = Ok tt /\ validateID (run_profile r) = Ok tt).
  { clear Hs Hc. induction Hr as [id candidate environment profile created r H|r r' Hr IH Hs].
    - unfold NewEvaluationRun in H. res_inv. by subst r.
    - apply run_step_frame in Hs as (_ & -> & -> & -> & -> & _). done. }
  unfold validateRunBinding. destruct Hi as (-> & -> & -> & ->). cbn. by rewrite Hc, Hs.
Qed.

Lemma run_step_status r p : run_step r p -> status p <> status r.
Proof.
  intros Hs. destruct Hs as [a t a' H|a t a' H|a t reason a' H|a t a' H].
  - apply Start_spec in H as (E & _ & _ & ->). cbn. by rewrite E.
  - apply finish_spec in H as (E & _ & _ & ->). cbn. intros F. rewrite <- F in E. destruct_or?; destruct_and?; destruct_or?; done.
  - apply finish_spec in H as (E & _ & _ & ->). cbn. intros F. rewrite <- F in E. destruct_or?; destruct_and?; destruct_or?; done.
  - apply finish_spec in H as (E & _ & _ & ->). cbn. intros F. rewrite <- F in E. destruct_or?; destruct_and?; destruct_or?; done.
Qed.

(** A run recreated with its times in other zones is a run of the same lifecycle. *)
Definition with_created (r : EvaluationRun) (c : time) : EvaluationRun :=
  {| run_id := run_id r; run_candidateID := run_candidateID r; run_environment := run_environment r;
     run_profile := run_profile r; status := status r; createdAt := c; startedAt := startedAt r;
     finishedAt := finishedAt r; failureReason := failureReason r |}.

Lemma with_created_reachable r c : run_reachable r -> instant c = instant (createdAt r) -> run_reachable (with_created r c).
Proof.
  intros Hr. revert c. induction Hr as [id candidate environment profile created r H|r r' Hr IH Hs]; intros c Hc.
  - apply (reach_new id candidate environment profile c). unfold NewEvaluationRun in *. res_inv. subst r.
    cbn in Hc. rewrite Hok, Hok0, Hok1, Hok2. cbn. unfold time_is_zero in *. rewrite Hc, Hok3. done.
  - pose proof (run_step_frame _ _ Hs) as (_ & _ & _ & _ & _ & Ec). rewrite Ec in Hc.
    specialize (IH c Hc). refine (reach_step _ _ IH _).
    assert (Hw : forall to at_ reason r2, finish r to at_ reason = Ok r2 -> finish (with_created r c) to at_ reason = Ok (with_created r2 c)).
    { intros to at_ reason r2 H. pose proof H as (_ & _ & _ & E)%finish_spec. unfold finish in *.
      change (transitionAllowed (with_created r c) to) with (transitionAllowed r to). cbn [startedAt createdAt with_created].
      rewrite (notBefore_same at_ at_ (if time_is_zero (startedAt r) then c else startedAt r)
                 (if time_is_zero (startedAt r) then createdAt r else startedAt r) eq_refl) by by destruct (time_is_zero (startedAt r)).
      res_inv. rewrite Hok, Hok0, Hok1. by rewrite E. }
    destruct Hs as [a t a' H|a t a' H|a t reason a' H|a t a' H].
    + eapply (step_start _ t). pose proof H as (_ & _ & _ & E)%Start_spec. unfold Start in *.
      change (transitionAllowed (with_created a c) RunRunning) with (transitionAllowed a RunRunning). cbn [createdAt with_created].
      rewrite (notBefore_same t t c (createdAt a)) by done. res_inv. rewrite Hok, Hok0. by rewrite E.
    + eapply (step_complete _ t). by apply Hw.
    + eapply (step_fail _ t reason). by apply Hw.
    + eapply (step_cancel _ t). by apply Hw.
Qed.

(** What a successful update leaves in the row it changed. *)
Lemma update_row t previous next t' : runs_ok t -> run_reachable next -> UpdateEvaluationRun t previous next = Ok t' ->
  exists r order, loadRun t (run_id previous) = Ok r /\ same_run r previous /\ (exists p, run_step previous p /\ same_run p next) /\
    run_id next = run_id previous /\
    t' = <[run_id previous := (run_columns (with_created next (createdAt r)), order)]> t /\
    same_run (with_created next (createdAt r)) next /\ run_reachable (with_created next (createdAt r)) /\
    recencyKey (createdAt r) = Ok order.
Proof.
  intros Ht Hn H. unfold UpdateEvaluationRun in H. res_inv.
  match goal with H : validTransition _ _ = _ |- _ => apply validTransition_iff in H as Hstep end.
  repeat match goal with
  | H : (_ <>s _)%go = false |- _ => apply negb_false_iff, String.eqb_eq in H
  | H : _ || _ = false |- _ => apply orb_false_iff in H as [? ?]
  | H : negb _ = false |- _ => apply negb_false_iff in H
  | H : time_equal _ _ = true |- _ => apply time_equal_iff in H
  end.
  match goal with H : loadRun _ _ = Ok ?x |- _ => rename x into r; pose proof (loadRun_Ok _ _ _ Ht H) as (Hr & Hid & order & El & Hk) end.
  match goal with H : sameRun _ _ = true |- _ => pose proof H as (Ei & Es & _ & Ec & _ & _)%sameRun_iff end.
  injection Ei as E1 E2 E3 E4. assert (En : run_id next = run_id previous) by congruence. rewrite En, El in H. res_inv.
  exists r, order. split; [done|]. split; [done|]. split; [done|]. split; [done|].
  assert (Eq : with_lifecycle (run_columns r) next = run_columns (with_created next (createdAt r))).
  { unfold with_lifecycle, run_columns. cbn. f_equal; congruence. }
  rewrite <- Eq. split; [done|]. split; [apply sameRun_iff; split_and!; (reflexivity || (cbn; congruence))|].
  split; [|done]. apply with_created_reachable; [done|congruence].
Qed.

(** How creation and update move the table: rows are never removed and keep the identity of
    their run. *)
Record runs_evolve (t t' : run_table) : Prop := {
  rv_ok : runs_ok t';
  rv_keep : forall id r, loadRun t id = Ok r -> exists r', loadRun t' id = Ok r' /\ run_ids4 r' = run_ids4 r;
  rv_new : forall id r', loadRun t' id = Ok r' ->
    (exists r, loadRun t id = Ok r /\ run_ids4 r' = run_ids4 r) \/ t !! id = None;
}.

Lemma create_evolves {A} (candidates : gmap string A) t r t' : runs_ok t -> run_reachable r ->
  Store_CreateEvaluationRun candidates t r = Ok t' ->
  runs_evolve t t' /\ t !! run_id r = None /\ loadRun t' (run_id r) = Ok r.
Proof.
  intros Ht Hr H. unfold Store_CreateEvaluationRun, requireExists, insert_row in H. res_inv.
  apply bool_decide_eq_false in Hok2. subst t'. assert (Hnone : t !! run_id r = None) by by apply eq_None_not_Some.
  assert (Hl : loadRun (<[run_id r := (run_columns r, a1)]> t) (run_id r) = Ok r).
  { unfold loadRun. rewrite lookup_insert_eq. by apply rehydrate_columns. }
  split; [|done]. split.
  - intros id stored order [[<- [= <- <-]]|[_ E]]%lookup_insert_Some; [eauto|by eapply Ht].
  - intros id r0 H0. exists r0. split; [|done]. rewrite loadRun_insert_ne; [done|]. intros <-.
    unfold loadRun in H0. by rewrite Hnone in H0.
  - intros id r0 H0. destruct (decide (run_id r = id)) as [<-|Hne]; [by right|]. left.
    rewrite loadRun_insert_ne in H0 by done. eauto.
Qed.

Lemma update_evolves t previous next t' : runs_ok t -> run_reachable next -> UpdateEvaluationRun t previous next = Ok t' ->
  runs_evolve t t'.
Proof.
  intros Ht Hn H. destruct (update_row _ _ _ _ Ht Hn H) as (r & order & Hl & Hs & (p & Hstep & Hpn) & Hid & -> & Hsn & Hrn & Hk).
  set (r' := with_created next (createdAt r)) in *.
  assert (Hids : run_ids4 r' = run_ids4 r).
  { apply sameRun_iff in Hs as (Hs & _). apply sameRun_iff in Hpn as (Hp & _). apply sameRun_iff in Hsn as (Hsn & _).
    rewrite Hsn, <- Hp, Hs. apply run_step_frame in Hstep as (_ & E1 & E2 & E3 & E4 & _). unfold run_ids4. by rewrite E1, E2, E3, E4. }
  assert (Hl' : loadRun (<[run_id previous := (run_columns r', order)]> t) (run_id previous) = Ok r').
  { unfold loadRun. rewrite lookup_insert_eq. rewrite <- Hid. exact (rehydrate_columns r' Hrn). }
  split.
  - intros id stored o [[<- [= <- <-]]|[_ E]]%lookup_insert_Some; [|by eapply Ht]. exists r'. by split_and!.
  - intros id r0 H0. destruct (decide (run_id previous = id)) as [<-|Hne].
    + rewrite Hl in H0. injection H0 as <-. eauto.
    + exists r0. by rewrite loadRun_insert_ne.
  - intros id r0 H0. left. destruct (decide (run_id previous = id)) as [<-|Hne].
    + rewrite Hl' in H0. injection H0 as <-. eauto.
    + exists r0. by rewrite loadRun_insert_ne in H0.
Qed.

(** ** Properties *)

(** a run that is created is stored as it is: in a consistent table, creating a run whose
    candidate exists succeeds exactly when its identifier is new and its creation time has a
    recency key; the run read back is then the very value that was created, whatever its
    state, every other run reads as before, and the table is still consistent. *)
Theorem run_creation {A} (candidates : gmap string A) t r : runs_ok t -> run_reachable r ->
  (is_ok (Store_CreateEvaluationRun candidates t r) = true <->
     is_Some (candidates !! run_candidateID r) /\ t !! run_id r = None /\ keyed_time (createdAt r)) /\
  (forall t', Store_CreateEvaluationRun candidates t r = Ok t' ->
     runs_ok t' /\ loadRun t' (run_id r) = Ok r /\ forall id, id <> run_id r -> loadRun t' id = loadRun t id).
Proof.
  intros Ht Hr. unfold Store_CreateEvaluationRun. rewrite (reachable_binding r Hr). cbn [mbind res_bind]. split.
  - unfold requireExists, insert_row. destruct (decide (is_Some (candidates !! run_candidateID r))) as [Hc|Hc].
    2: { rewrite (bool_decide_eq_false_2 _ Hc). cbn. naive_solver. }
    rewrite (bool_decide_eq_true_2 _ Hc). cbn [negb fail_if mbind res_bind].
    destruct (recencyKey (createdAt r)) as [k|e] eqn:Ek; cbn [mbind res_bind].
    + pose proof Ek as [Hk _]%recencyKey_Ok. destruct (t !! run_id r) as [x|] eqn:El.
      * assert (Hx : is_Some (t !! run_id r)) by by eexists. rewrite (bool_decide_eq_true_2 _ Hx). cbn. naive_solver.
      * assert (Hx : ~ is_Some (t !! run_id r)) by (rewrite El; by intros [? ?]).
        rewrite (bool_decide_eq_false_2 _ Hx). cbn. naive_solver.
    + split; [done|]. intros (_ & _ & Hk).
      assert (E : recencyKey (createdAt r) = Ok (fixed_digits 20 (instant (createdAt r) - unix_epoch))) by by apply recencyKey_Ok.
      congruence.
  - intros t' H. unfold requireExists, insert_row in H. res_inv. apply bool_decide_eq_false in Hok1. subst t'.
    assert (Hl : loadRun (<[run_id r := (run_columns r, a0)]> t) (run_id r) = Ok r).
    { unfold loadRun. rewrite lookup_insert_eq. by apply rehydrate_columns. }
    split; [|split; [done|intros; by apply loadRun_insert_ne]].
    intros id stored order [[<- [= <- <-]]|[_ E]]%lookup_insert_Some; [eauto|by eapply Ht].
Qed.

(** C3: updating a run is an atomic compare-and-set along its lifecycle.  In a consistent
    table, and for any two run values a lifecycle produced, the update from [previous] to
    [next] succeeds exactly when the stored run is [previous] and [next] is one lifecycle
    step away (times compared as instants); it then stores [next], leaves every other run
    alone and keeps the table consistent; and no second update from the same [previous] can
    succeed after it, so of two writers that read the same run at most one wins. *)
Theorem run_update_cas t previous next : runs_ok t -> run_reachable previous -> run_reachable next ->
  (is_ok (UpdateEvaluationRun t previous next) = true <->
     exists r p, loadRun t (run_id previous) = Ok r /\ same_run r previous /\ run_step r p /\ same_run p next) /\
  (forall t', UpdateEvaluationRun t previous next = Ok t' ->
     runs_ok t' /\
     (exists r', loadRun t' (run_id previous) = Ok r' /\ same_run r' next) /\
     (forall id, id <> run_id previous -> loadRun t' id = loadRun t id) /\
     (forall next', run_reachable next' -> is_ok (UpdateEvaluationRun t' previous next') = false)).
Proof.
  intros Ht Hp Hn. split.
  - split.
    + intros [t' H]%is_ok_spec. destruct (update_row _ _ _ _ Ht Hn H) as (r & order & Hl & Hs & (p & Hstep & Hpn) & _).
      destruct (run_step_same previous r p) as (p' & Hp' & He); [by symmetry|done|].
      exists r, p'. split_and!; try done. transitivity p; [by symmetry|done].
    + intros (r & p & Hl & Hs & Hstep & Hpn). destruct (run_step_same r previous p Hs Hstep) as (p' & Hp' & He).
      assert (Hpn' : same_run p' next) by (transitivity p; [by symmetry|done]).
      assert (Hv : validTransition previous next = Ok tt) by (apply validTransition_iff; eauto).
      pose proof (run_step_frame _ _ Hp') as (_ & F1 & F2 & F3 & F4 & F5).
      pose proof Hpn' as (Ei & _ & _ & Ec & _)%sameRun_iff. injection Ei as E1 E2 E3 E4.
      destruct (loadRun_Ok _ _ _ Ht Hl) as (Hr & Hid & order & El & _).
      unfold UpdateEvaluationRun. rewrite !reachable_binding by done. cbn [mbind res_bind].
      rewrite <- E1, F1, <- E2, F2, <- E3, F3, <- E4, F4, !String.eqb_refl.
      rewrite (proj2 (time_equal_iff (createdAt previous) (createdAt next))) by congruence.
      cbn [negb orb fail_if mbind res_bind]. rewrite Hv. cbn [mbind res_bind]. rewrite Hl. cbn [mbind res_bind].
      rewrite Hs, El. cbn [negb fail_if mbind res_bind]. apply sameRun_iff in Hs as (_ & Es & _). cbn.
      rewrite Es, String.eqb_refl. done.
  - intros t' H. destruct (update_row _ _ _ _ Ht Hn H) as (r & order & Hl & Hs & (p & Hstep & Hpn) & Hid & -> & Hsn & Hrn & Hk).
    set (r' := with_created next (createdAt r)) in *.
    assert (Ht' : runs_ok (<[run_id previous := (run_columns r', order)]> t)).
    { intros id stored o [[<- [= <- <-]]|[_ E]]%lookup_insert_Some; [|by eapply Ht]. exists r'. by split_and!. }
    assert (Hl' : loadRun (<[run_id previous := (run_columns r', order)]> t) (run_id previous) = Ok r').
    { unfold loadRun. rewrite lookup_insert_eq. rewrite <- Hid. exact (rehydrate_columns r' Hrn). }
    split; [done|]. split; [eauto|]. split; [intros; by apply loadRun_insert_ne|].
    intros next' Hn'. destruct (UpdateEvaluationRun _ previous next') as [t2|] eqn:H2; [exfalso|done].
    destruct (update_row _ _ _ _ Ht' Hn' H2) as (r2 & _ & Hl2 & Hs2 & _). rewrite Hl' in Hl2. injection Hl2 as <-.
    assert (E : same_run next previous) by (transitivity r'; [by symmetry|done]).
    apply sameRun_iff in E as (_ & E & _). apply sameRun_iff in Hpn as (_ & E' & _). apply run_step_status in Hstep. congruence.
Qed.

Definition pending_example : EvaluationRun :=
  {| run_id := "run-1"; run_candidateID := "cand-1"; run_environment := "staging"; run_profile := "default";
     status := RunPending; createdAt := Time (unix_epoch + 1000) 0; startedAt := zero_time; finishedAt := zero_time;
     failureReason := "" |}.
Definition running_example : EvaluationRun :=
  {| run_id := "run-1"; run_candidateID := "cand-1"; run_environment := "staging"; run_profile := "default";
     status := RunRunning; createdAt := Time (unix_epoch + 1000) 0; startedAt := Time (unix_epoch + 2000) 0;
     finishedAt := zero_time; failureReason := "" |}.

Lemma pending_example_reachable : run_reachable pending_example.
Proof. apply (reach_new "run-1" "cand-1" "staging" "default" (Time (unix_epoch + 1000) 0)). by vm_compute. Qed.
Lemma running_example_step : run_step pending_example running_example.
Proof. apply (step_start _ (Time (unix_epoch + 2000) 0)). by vm_compute. Qed.

Definition example_table : run_table := {["run-1" := (run_columns pending_example, "00000000000000001000")]}.
Lemma example_table_ok : runs_ok example_table.
Proof.
  unfold example_table. intros id stored order [<- [= <- <-]]%lookup_singleton_Some. exists pending_example.
  split; [exact pending_example_reachable|]. split_and!; by vm_compute.
Qed.

Lemma run_creation_witness : exists t, Store_CreateEvaluationRun {["cand-1" := tt]} ∅ pending_example = Ok t /\
  loadRun t "run-1" = Ok pending_example.
Proof.
  destruct (Store_CreateEvaluationRun {["cand-1" := tt]} ∅ pending_example) as [t|] eqn:E; [|by vm_compute in E].
  exists t. split; [done|].
  apply (run_creation {["cand-1" := tt]} ∅ pending_example) in E as (? & ? & _); [done|by intros ???|exact pending_example_reachable].
Defined.

Lemma run_update_cas_witness : is_ok (UpdateEvaluationRun example_table pending_example running_example) = true.
Proof.
  assert (H : run_reachable running_example) by exact (reach_step _ _ pending_example_reachable running_example_step).
  apply (run_update_cas example_table pending_example running_example example_table_ok pending_example_reachable H).
  exists pending_example, running_example. split; [by vm_compute|]. split; [by vm_compute|].
  split; [exact running_example_step|]. by vm_compute.
Defined.
