(* ===== verification/EvidenceStore.v ===== *)
(** * Package platform: stored evidence (sqlite.go, evidence_columns.go, observation_store.go)

    The tables a run's evidence is kept in - the aggregate row, the snapshot header with its
    behavior entries, the ingest cursor and the retained observations - how evidence is
    written to them and read back, and the transaction that commits one ingested record.

    A counter column is its decimal text, a REAL column the float, a time column the time it
    denotes.  The rows of the entry table are grouped by run. *)
From S2P Require Import Prelude GoText GoTime GoFloat FloatBounds Fingerprint Domain Paging Counters Operational.
From S2P Require Import Environment Fidelity Aggregate Observation Behavior Scorecard Recency RunStore.

Open Scope string_scope.
Open Scope Z_scope.

(** ** Rows *)
Record aggregate_row : Type := {
  ar_candidateID : CandidateID;
  ar_environment : EnvironmentRef;
  ar_profile : BehavioralProfileRef;
  ar_recordCount : string;
  ar_firstObserved : option time;
  ar_lastObserved : option time;
  ar_counts : list string;                              (* 17 *)
  ar_metrics : list (string * float * float * float);   (* 5 *)
  ar_operational : list string;                         (* 9 *)
}.

Record snapshot_row : Type := {
  sn_candidateID : CandidateID;
  sn_environment : EnvironmentRef;
  sn_profile : BehavioralProfileRef;
  sn_observationCount : string;
  sn_distinctCount : Z;
  sn_complete : Z;
}.

Record entry_row : Type := {
  en_behavior : StableFeatures;
  en_observations : string;
  en_operational : string;
  en_fidelity : string;
}.

Record evidence_tables : Type := {
  et_aggregates : gmap EvaluationRunID aggregate_row;
  et_snapshots : gmap EvaluationRunID snapshot_row;
  et_entries : gmap EvaluationRunID (gmap string entry_row);
  et_ingest : gmap EvaluationRunID (string * string);
  et_histories : gmap EvaluationRunID run_history;
}.
Definition no_evidence : evidence_tables := Build_evidence_tables ∅ ∅ ∅ ∅ ∅.

(** ** Writing *)
Definition aggregateInsertArgs (a : EvaluationAggregate) : aggregate_row :=
  {| ar_candidateID := agg_candidateID a; ar_environment := agg_environment a; ar_profile := agg_profile a;
     ar_recordCount := uint64Text (recordCount a);
     ar_firstObserved := nullTime (firstObservedAt a); ar_lastObserved := nullTime (lastObservedAt a);
     ar_counts := uint64Text <$> (decision_parts (decisions a) ++ risk_parts (risks a) ++
                                  approval_parts (approvals a) ++ policy_parts (agg_policy a))%list;
     ar_metrics := (fun m => (uint64Text (M_Count m), M_Sum m, M_Min m, M_Max m)) <$> agg_metrics a;
     ar_operational := uint64Text <$>
       [D_Count (durations a); D_Unobserved (durations a); D_Sum (durations a); D_Min (durations a); D_Max (durations a);
        S_Unavailable (statuses a); S_Unset (statuses a); S_OK (statuses a); S_Error (statuses a)] |}.

Definition snapshot_columns (s : BehaviorSnapshot) : snapshot_row :=
  {| sn_candidateID := snap_candidateID s; sn_environment := snap_environment s; sn_profile := snap_profile s;
     sn_observationCount := uint64Text (snap_observations s);
     sn_distinctCount := Z.of_nat (length (snap_entries s)); sn_complete := boolInt (snap_complete s) |}.

Definition behaviorEntryInsertArgs (e : BehaviorEntry) : entry_row :=
  {| en_behavior := BE_Behavior e; en_observations := uint64Text (BE_Observations e);
     en_operational := encodeOperationalCounts (BE_Operational e);
     en_fidelity := encodeFidelityCounts (BE_Fidelity e) |}.

(** The snapshot's upsert keeps the identity columns of a row it finds. *)
Definition upsert_snapshot (old : option snapshot_row) (row : snapshot_row) : snapshot_row :=
  match old with
  | None => row
  | Some o => {| sn_candidateID := sn_candidateID o; sn_environment := sn_environment o; sn_profile := sn_profile o;
                 sn_observationCount := sn_observationCount row; sn_distinctCount := sn_distinctCount row;
                 sn_complete := sn_complete row |}
  end.

(** The entries are deleted and inserted again; a repeated fingerprint breaks the key. *)
Definition insert_entry (rows : gmap string entry_row) (e : BehaviorEntry) : res (gmap string entry_row) :=
  fail_if (bool_decide (is_Some (rows !! BE_FingerprintID e))) [];;
  Ok (<[BE_FingerprintID e := behaviorEntryInsertArgs e]> rows).

Definition writeEvidence (t : evidence_tables) (a : EvaluationAggregate) (s : BehaviorSnapshot) : res evidence_tables :=
  entries ← foldM insert_entry ∅ (snap_entries s);
  Ok {| et_aggregates := <[agg_runID a := aggregateInsertArgs a]> (et_aggregates t);
        et_snapshots := <[snap_runID s := upsert_snapshot (et_snapshots t !! snap_runID s) (snapshot_columns s)]>
                          (et_snapshots t);
        et_entries := <[snap_runID s := entries]> (et_entries t);
        et_ingest := et_ingest t; et_histories := et_histories t |}.

(** ** Reading *)
Definition load_metric (row : string * float * float * float) : res MetricSummary :=
  let '(count, sum, mn, mx) := row in
  count ← parseUint64Text count;
  Ok {| M_Count := count; M_Sum := sum; M_Min := mn; M_Max := mx |}.

Definition loadAggregate (t : evidence_tables) (id : EvaluationRunID) : res EvaluationAggregate :=
  match et_aggregates t !! id with
  | None => Err [ErrStoreNotFound]
  | Some row =>
      parsed ← mapM parseUint64Text (ar_counts row);
      records ← parseUint64Text (ar_recordCount row);
      op ← mapM parseUint64Text (ar_operational row);
      metrics ← mapM load_metric (ar_metrics row);
      let n i := nth i parsed 0 in
      let o i := nth i op 0 in
      let m i := nth i metrics zero_metric in
      let aggregate bound :=
        {| bound := bound; agg_runID := id; agg_candidateID := ar_candidateID row;
           agg_environment := ar_environment row; agg_profile := ar_profile row; recordCount := records;
           firstObservedAt := parseNullTime (ar_firstObserved row);
           lastObservedAt := parseNullTime (ar_lastObserved row);
           decisions := {| Allow := n 0%nat; ObserveOnly := n 1%nat; Alert := n 2%nat; Challenge := n 3%nat;
                           RequireApproval := n 4%nat; Block := n 5%nat |};
           risks := {| Low := n 6%nat; Medium := n 7%nat; High := n 8%nat; Critical := n 9%nat |};
           approvals := {| Unspecified := n 10%nat; NotRequired := n 11%nat; Required := n 12%nat;
                           Approved := n 13%nat; Denied := n 14%nat |};
           agg_policy := {| MatchedRule := n 15%nat; PS_MatchedDefault := n 16%nat |};
           durations := {| D_Count := o 0%nat; D_Unobserved := o 1%nat; D_Sum := o 2%nat; D_Min := o 3%nat;
                           D_Max := o 4%nat |};
           statuses := {| S_Unavailable := o 5%nat; S_Unset := o 6%nat; S_OK := o 7%nat; S_Error := o 8%nat |};
           identityConfidence := m 0%nat; anomalyScore := m 1%nat; anomalyConfidence := m 2%nat;
           trustScore := m 3%nat; agg_contextRisk := m 4%nat |} in
      corrupt (validateRestoredAggregate (aggregate false));;
      Ok (aggregate true)
  end.

Definition load_entry (row : string * entry_row) : res BehaviorEntry :=
  let '(fingerprint, r) := row in
  observations ← parseUint64Text (en_observations r);
  operational ← decodeOperationalCounts (en_operational r);
  fidelity ← decodeFidelityCounts (en_fidelity r);
  Ok {| BE_FingerprintID := fingerprint; BE_Behavior := en_behavior r; BE_Observations := observations;
        BE_Operational := operational; BE_Fidelity := fidelity |}.

(** [SELECT ... WHERE run_id = ? ORDER BY fingerprint_id ASC]. *)
Definition entry_rows (t : evidence_tables) (id : EvaluationRunID) : list (string * entry_row) :=
  sort_by fst (map_to_list (default ∅ (et_entries t !! id))).
Definition loadBehaviorEntries (t : evidence_tables) (id : EvaluationRunID) : res (list BehaviorEntry) :=
  mapM load_entry (entry_rows t id).

(** The loop over the entries, with the previous fingerprint, the fingerprints and behaviors
    seen, and the observations counted. *)
Definition restored_state : Type := option string * gmap string unit * gmap StableFeatures string * Z.
Definition validate_restored_entry (environment : EnvironmentRef) (st : restored_state) (e : BehaviorEntry)
    : res restored_state :=
  let '(prev, seenFingerprints, seenBehaviors, observed) := st in
  validateBehaviorIdentity (BE_FingerprintID e) (BE_Behavior e);;
  fail_if (BE_Observations e =? 0) [];;
  validateOperationalSummary (BE_Operational e) (BE_Observations e);;
  validateBehaviorFidelity (BE_Fidelity e) (BE_Observations e);;
  fail_if (SF_Environment (BE_Behavior e) <>s environment) [];;
  fail_if (match prev with Some p => negb (string_lt p (BE_FingerprintID e)) | None => false end) [];;
  fail_if (bool_decide (is_Some (seenFingerprints !! BE_FingerprintID e))) [];;
  fail_if (bool_decide (is_Some (seenBehaviors !! BE_Behavior e))) [];;
  fail_if (max_u64 - BE_Observations e <? observed) [];;
  Ok (Some (BE_FingerprintID e), <[BE_FingerprintID e := tt]> seenFingerprints,
      <[BE_Behavior e := BE_FingerprintID e]> seenBehaviors, observed + BE_Observations e).

Definition validateRestoredSnapshot (s : BehaviorSnapshot) (storedDistinctCount : Z) : res unit :=
  foldM (fun _ v => validateID v) tt [snap_runID s; snap_candidateID s; snap_environment s; snap_profile s];;
  fail_if (maxBehaviorEntries <? Z.of_nat (length (snap_entries s))) [];;
  fail_if (negb (Z.of_nat (length (snap_entries s)) =? storedDistinctCount)) [];;
  '(_, _, _, observed) ← foldM (validate_restored_entry (snap_environment s)) (None, ∅, ∅, 0) (snap_entries s);
  fail_if (negb (observed =? snap_observations s)) [].

Definition loadSnapshot (t : evidence_tables) (id : EvaluationRunID) : res BehaviorSnapshot :=
  match et_snapshots t !! id with
  | None => Err [ErrStoreNotFound]
  | Some row =>
      observations ← parseUint64Text (sn_observationCount row);
      entries ← loadBehaviorEntries t id;
      complete ← parseStoredBool (sn_complete row);
      let snapshot bound :=
        {| snap_bound := bound; snap_runID := id; snap_candidateID := sn_candidateID row;
           snap_environment := sn_environment row; snap_profile := sn_profile row;
           snap_observations := observations; snap_entries := entries; snap_complete := complete |} in
      corrupt (validateRestoredSnapshot (snapshot false) (sn_distinctCount row));;
      Ok (snapshot true)
  end.

Definition validateEvidencePair (a : EvaluationAggregate) (s : BehaviorSnapshot) : res unit :=
  fail_if (negb (bound a)) [ErrUnboundAggregate];;
  fail_if (negb (snap_bound s)) [ErrUnboundCollector];;
  fail_if ((agg_runID a <>s snap_runID s) || (agg_candidateID a <>s snap_candidateID s) ||
           (agg_environment a <>s snap_environment s) || (agg_profile a <>s snap_profile s)) [ErrStoreConflict];;
  if snap_complete s then fail_if (negb (recordCount a =? snap_observations s)) [ErrStoreConflict]
  else fail_if (recordCount a <? snap_observations s) [ErrStoreConflict].

Definition validateRestoredEvidenceAgainstRun (run : EvaluationRun) (a : EvaluationAggregate) (s : BehaviorSnapshot)
    : res unit :=
  foldM (fun _ (f : string * string * string) =>
           let '(runValue, aggValue, snapValue) := f in
           fail_if ((aggValue <>s runValue) || (snapValue <>s runValue)) [ErrStoreCorrupt]) tt
    [(run_id run, agg_runID a, snap_runID s); (run_candidateID run, agg_candidateID a, snap_candidateID s);
     (run_environment run, agg_environment a, snap_environment s); (run_profile run, agg_profile a, snap_profile s)].

Record evidencePresence : Type := { has_aggregate : bool; has_snapshot : bool }.
Definition both (p : evidencePresence) : bool := has_aggregate p && has_snapshot p.
Definition neither (p : evidencePresence) : bool := negb (has_aggregate p) && negb (has_snapshot p).
Definition evidenceRowsPresent (t : evidence_tables) (id : EvaluationRunID) : evidencePresence :=
  {| has_aggregate := bool_decide (is_Some (et_aggregates t !! id));
     has_snapshot := bool_decide (is_Some (et_snapshots t !! id)) |}.

Definition loadEvidence (runs : run_table) (t : evidence_tables) (id : EvaluationRunID)
    : res (EvaluationAggregate * BehaviorSnapshot) :=
  let present := evidenceRowsPresent t id in
  fail_if (neither present) [ErrStoreNotFound];;
  fail_if (negb (both present)) [ErrStoreCorrupt];;
  a ← loadAggregate t id;
  s ← loadSnapshot t id;
  corrupt (validateEvidencePair a s);;
  run ← map_err (fun e => if errors_is e ErrStoreNotFound then [ErrStoreCorrupt] else e) (loadRun runs id);
  validateRestoredEvidenceAgainstRun run a s;;
  Ok (a, s).

(** ** Staleness *)
Definition metric_equal (m m' : MetricSummary) : bool :=
  (M_Count m =? M_Count m') && (M_Sum m =? M_Sum m')%float && (M_Min m =? M_Min m')%float && (M_Max m =? M_Max m')%float.

Definition sameAggregate (a b : EvaluationAggregate) : bool :=
  (agg_runID a =s agg_runID b) && (agg_candidateID a =s agg_candidateID b) &&
  (agg_environment a =s agg_environment b) && (agg_profile a =s agg_profile b) &&
  (recordCount a =? recordCount b) && time_equal (firstObservedAt a) (firstObservedAt b) &&
  time_equal (lastObservedAt a) (lastObservedAt b) &&
  bool_decide (decision_parts (decisions a) = decision_parts (decisions b)) &&
  bool_decide (risk_parts (risks a) = risk_parts (risks b)) &&
  bool_decide (approval_parts (approvals a) = approval_parts (approvals b)) &&
  bool_decide (policy_parts (agg_policy a) = policy_parts (agg_policy b)) &&
  metric_equal (identityConfidence a) (identityConfidence b) && metric_equal (anomalyScore a) (anomalyScore b) &&
  metric_equal (anomalyConfidence a) (anomalyConfidence b) && metric_equal (trustScore a) (trustScore b) &&
  metric_equal (agg_contextRisk a) (agg_contextRisk b).

#[export] Instance DurationSummary_eq_dec : EqDecision DurationSummary.
Proof. solve_decision. Defined.
#[export] Instance SpanStatusCounts_eq_dec : EqDecision SpanStatusCounts.
Proof. solve_decision. Defined.
#[export] Instance HTTPStatusClassCounts_eq_dec : EqDecision HTTPStatusClassCounts.
Proof. solve_decision. Defined.
#[export] Instance TokenCounts_eq_dec : EqDecision TokenCounts.
Proof. solve_decision. Defined.
#[export] Instance OperationalSummary_eq_dec : EqDecision OperationalSummary.
Proof. solve_decision. Defined.
#[export] Instance BehaviorFidelity_eq_dec : EqDecision BehaviorFidelity.
Proof. solve_decision. Defined.
#[export] Instance BehaviorEntry_eq_dec : EqDecision BehaviorEntry.
Proof. solve_decision. Defined.

Definition sameSnapshot (a b : BehaviorSnapshot) : bool :=
  (snap_runID a =s snap_runID b) && (snap_candidateID a =s snap_candidateID b) &&
  (snap_environment a =s snap_environment b) && (snap_profile a =s snap_profile b) &&
  (snap_observations a =? snap_observations b) && Bool.eqb (snap_complete a) (snap_complete b) &&
  bool_decide (snap_entries a = snap_entries b).

Definition checkEvidenceNotStale (runs : run_table) (t : evidence_tables) (a : EvaluationAggregate) (s : BehaviorSnapshot)
    : res unit :=
  let present := evidenceRowsPresent t (agg_runID a) in
  if neither present then Ok tt
  else
    fail_if (negb (both present)) [ErrStoreCorrupt];;
    '(storedAggregate, storedSnapshot) ← loadEvidence runs t (agg_runID a);
    fail_if (negb (snap_complete storedSnapshot) && snap_complete s) [ErrStoreConflict];;
    if recordCount a <? recordCount storedAggregate then Err [ErrStoreConflict]
    else if recordCount a =? recordCount storedAggregate then
      fail_if (negb (sameAggregate storedAggregate a) || negb (sameSnapshot storedSnapshot s)) [ErrStoreConflict]
    else Ok tt.

Definition identity_conflict (run : EvaluationRun) (a : EvaluationAggregate) : bool :=
  (run_candidateID run <>s agg_candidateID a) || (run_environment run <>s agg_environment a) ||
  (run_profile run <>s agg_profile a).

Definition SaveEvaluationEvidence (runs : run_table) (t : evidence_tables) (a : EvaluationAggregate) (s : BehaviorSnapshot)
    : res evidence_tables :=
  validateEvidencePair a s;;
  run ← loadRun runs (agg_runID a);
  fail_if (identity_conflict run a) [ErrStoreConflict];;
  checkEvidenceNotStale runs t a s;;
  writeEvidence t a s.

(** ** The ingest cursor (ingest.go, sqlite.go) *)
Record EvaluationIngestState : Type := {
  nextSequence : Z;
  lastDigest : string;
  is_recordCount : Z;
  behaviorObservationCount : Z;
  distinctBehaviorCount : Z;
  behaviorComplete : bool;
}.

(** Lowercase and decodable: every byte is one of 0-9 and a-f. *)
Fixpoint lower_hex (s : string) : bool :=
  match s with
  | EmptyString => true
  | String c s => (((48 <=? byte_of c) && (byte_of c <=? 57)) || ((97 <=? byte_of c) && (byte_of c <=? 102))) && lower_hex s
  end.
Definition validateDigestShape (digest : string) : res unit :=
  fail_if (negb (len digest =? 64)) [ErrStoreCorrupt];;
  fail_if (negb (lower_hex digest)) [ErrStoreCorrupt].
Definition validatePersistedDigest (digest : string) : res unit :=
  fail_if (digest =s "") [ErrStoreCorrupt];; validateDigestShape digest.

Definition nextSequenceAfter (sequence : Z) : res Z :=
  fail_if (sequence =? max_u64) [ErrIngestSequence];; Ok (sequence + 1).
Definition initialSequenceFor (recordCount : Z) : res Z :=
  map_err (fun _ => [ErrIngestSequence]) (nextSequenceAfter recordCount).

Definition state_of (next : Z) (digest : string) (a : EvaluationAggregate) (s : BehaviorSnapshot) : EvaluationIngestState :=
  {| nextSequence := next; lastDigest := digest; is_recordCount := recordCount a;
     behaviorObservationCount := snap_observations s; distinctBehaviorCount := Z.of_nat (length (snap_entries s));
     behaviorComplete := snap_complete s |}.

Definition derivedIngestState (runs : run_table) (t : evidence_tables) (id : EvaluationRunID) : res EvaluationIngestState :=
  match loadEvidence runs t id with
  | Err e =>
      if errors_is e ErrStoreNotFound then
        Ok {| nextSequence := 1; lastDigest := ""; is_recordCount := 0; behaviorObservationCount := 0;
              distinctBehaviorCount := 0; behaviorComplete := true |}
      else Err e
  | Ok (a, s) => next ← initialSequenceFor (recordCount a); Ok (state_of next "" a s)
  end.

Definition ingestState (runs : run_table) (t : evidence_tables) (id : EvaluationRunID) : res EvaluationIngestState :=
  loadRun runs id;;
  match et_ingest t !! id with
  | None => derivedIngestState runs t id
  | Some (next, digest) =>
      sequence ← parseUint64Text next;
      fail_if (sequence =? 0) [ErrStoreCorrupt];;
      validatePersistedDigest digest;;
      '(a, s) ← map_err (fun e => if errors_is e ErrStoreNotFound then [ErrStoreCorrupt] else e) (loadEvidence runs t id);
      expected ← corrupt (initialSequenceFor (recordCount a));
      fail_if (negb (sequence =? expected)) [ErrStoreCorrupt];;
      Ok (state_of sequence digest a s)
  end.

(** ** Retention *)
Definition loadObservationHistoryRow (t : evidence_tables) (id : EvaluationRunID) : res run_history :=
  let h := default no_history (et_histories t !! id) in
  fail_if (match history_row h with Some (retained, _) => MaxRetainedObservations <? retained | None => false end)
    [ErrStoreCorrupt];;
  Ok h.

Definition observationRecordCount (t : evidence_tables) (id : EvaluationRunID) : res Z :=
  match et_aggregates t !! id with
  | None => Ok 0
  | Some row => parseUint64Text (ar_recordCount row)
  end.

Definition Store_observationHistoryFor (t : evidence_tables) (id : EvaluationRunID) : res ObservationHistory :=
  h ← loadObservationHistoryRow t id;
  recordCount ← observationRecordCount t id;
  Ok (observationHistoryFor h recordCount).

Definition with_history (t : evidence_tables) (id : EvaluationRunID) (h : run_history) : evidence_tables :=
  {| et_aggregates := et_aggregates t; et_snapshots := et_snapshots t; et_entries := et_entries t;
     et_ingest := et_ingest t; et_histories := <[id := h]> (et_histories t) |}.

(** The observation row's key is its run and sequence. *)
Definition Store_retainObservation (t : evidence_tables) (id : EvaluationRunID) (o : Observation)
    : res (evidence_tables * ObservationHistory) :=
  h ← loadObservationHistoryRow t id;
  let h' := retainObservation h o in
  fail_if (negb (Nat.eqb (length (rows h')) (length (rows h))) &&
           existsb (fun o' => Sequence o' =? Sequence o) (rows h)) [];;
  Ok (with_history t id h', observationHistoryFor h' 0).

(** ** The commit of one record *)
Record EvaluationIngestCommit : Type := {
  PreviousNextSequence : Z;
  IC_Sequence : Z;
  RecordDigest_ : string;
  IC_Aggregate : EvaluationAggregate;
  IC_Snapshot : BehaviorSnapshot;
  IC_Observation : Observation;
}.

Inductive EvaluationIngestDisposition : Type := EvaluationIngestCommitted | EvaluationIngestAlreadyCommitted.

Record EvaluationIngestCommitResult : Type := {
  CR_Disposition : EvaluationIngestDisposition;
  CR_NextSequence : Z;
  CR_RecordCount : Z;
  CR_BehaviorComplete : bool;
  CR_History : ObservationHistory;
}.

Definition validateCommitObservation (commit : EvaluationIngestCommit) : res unit :=
  fail_if (negb (Sequence (IC_Observation commit) =? IC_Sequence commit)) [ErrInvalidObservation].

Definition with_cursor (t : evidence_tables) (id : EvaluationRunID) (next : Z) (digest : string) : evidence_tables :=
  {| et_aggregates := et_aggregates t; et_snapshots := et_snapshots t; et_entries := et_entries t;
     et_ingest := <[id := (uint64Text next, digest)]> (et_ingest t); et_histories := et_histories t |}.

Definition CommitEvaluationIngest (runs : run_table) (t : evidence_tables) (commit : EvaluationIngestCommit)
    : res (evidence_tables * EvaluationIngestCommitResult) :=
  let a := IC_Aggregate commit in
  let s := IC_Snapshot commit in
  validateEvidencePair a s;;
  validatePersistedDigest (RecordDigest_ commit);;
  validateCommitObservation commit;;
  next ← nextSequenceAfter (IC_Sequence commit);
  fail_if (negb (IC_Sequence commit =? PreviousNextSequence commit)) [ErrIngestSequence];;
  let runID := agg_runID a in
  current ← ingestState runs t runID;
  if negb (nextSequence current =? PreviousNextSequence commit) then
    if (nextSequence current =? next) && (lastDigest current =s RecordDigest_ commit) then
      history ← Store_observationHistoryFor t runID;
      Ok (t, {| CR_Disposition := EvaluationIngestAlreadyCommitted; CR_NextSequence := nextSequence current;
                CR_RecordCount := is_recordCount current; CR_BehaviorComplete := behaviorComplete current;
                CR_History := history |})
    else Err [ErrIngestSequence]
  else
    run ← loadRun runs runID;
    fail_if (status run <>s RunRunning) [ErrEvaluationState];;
    fail_if (identity_conflict run a) [ErrStoreConflict];;
    checkEvidenceNotStale runs t a s;;
    t ← writeEvidence t a s;
    '(t, history) ← Store_retainObservation t runID (IC_Observation commit);
    Ok (with_cursor t runID next (RecordDigest_ commit),
        {| CR_Disposition := EvaluationIngestCommitted; CR_NextSequence := next; CR_RecordCount := recordCount a;
           CR_BehaviorComplete := snap_complete s; CR_History := history |}).

(** ** Reading back what was written *)
Lemma mapM_res_Ok {A B} (f : A -> res B) (g : B -> A) l : Forall (fun y => f (g y) = Ok y) l -> mapM f (g <$> l) = Ok l.
Proof. induction 1 as [|y l Hy _ IH]; [done|]. cbn. rewrite Hy. cbn. by rewrite IH. Qed.

Lemma parse_all l : Forall is_u64 l -> mapM parseUint64Text (uint64Text <$> l) = Ok l.
Proof. intros H. apply mapM_res_Ok. eapply Forall_impl; [exact H|]. intros v. apply parseUint64Text_format. Qed.

Lemma parts_u64 parts n : parts_ok parts n -> Forall is_u64 parts.
Proof. by intros [H _]. Qed.

Lemma loadAggregate_write t a : agg_ok a ->
  et_aggregates t !! agg_runID a = Some (aggregateInsertArgs a) -> loadAggregate t (agg_runID a) = Ok a.
Proof.
  intros Ha E. unfold loadAggregate. rewrite E. unfold aggregateInsertArgs.
  cbn [ar_counts ar_recordCount ar_operational ar_metrics ar_candidateID ar_environment ar_profile ar_firstObserved ar_lastObserved].
  pose proof (ao_parts a Ha) as Hp. rewrite !Forall_cons in Hp. destruct Hp as (P1 & P2 & P3 & P4 & _).
  rewrite (parse_all (_ ++ _)%list) by (rewrite !Forall_app; split_and!; eauto using parts_u64). cbn [mbind res_bind].
  rewrite parseUint64Text_format by apply Ha. cbn [mbind res_bind].
  destruct (ao_dr a Ha) as [d1 d2 d3 d4 d5], (ao_sr a Ha) as [s1 s2 s3 s4].
  rewrite parse_all by (repeat (constructor; [done|]); constructor). cbn [mbind res_bind].
  assert (Hm : mapM load_metric ((fun m => (uint64Text (M_Count m), M_Sum m, M_Min m, M_Max m)) <$> agg_metrics a) = Ok (agg_metrics a)).
  { apply mapM_res_Ok. eapply Forall_impl; [exact (ao_metrics a Ha)|]. intros m Hm. unfold load_metric.
    rewrite parseUint64Text_format by (rewrite (mo_count _ _ Hm); apply Ha). by destruct m. }
  rewrite Hm. cbn [mbind res_bind].
  assert (Ht : parseNullTime (nullTime (firstObservedAt a)) = firstObservedAt a /\
               parseNullTime (nullTime (lastObservedAt a)) = lastObservedAt a).
  { destruct (decide (recordCount a = 0)) as [Hz|Hz]; [by destruct (ao_times_empty a Ha Hz) as [-> ->]|].
    pose proof (ao_count a Ha) as Hc. unfold is_u64 in Hc. destruct (ao_times a Ha ltac:(lia)) as [T1 T2].
    split; apply null_roundtrip; unfold time_is_zero; intros ?%Z.eqb_eq; lia. }
  destruct Ht as [-> ->]. pose proof (agg_ok_restores a Ha) as Hv. pose proof (ao_bound a Ha) as Hb.
  destruct a as [b ? ? ? ? ? ? ? [] [] [] [] [] [] ? ? ? ? ?]. cbn in Hv, Hb |- *. subst b.
  unfold corrupt. unfold validateRestoredAggregate in *. cbn in Hv |- *. by rewrite Hv.
Qed.

Lemma insert_fresh m e : m !! BE_FingerprintID e = None ->
  insert_entry m e = Ok (<[BE_FingerprintID e := behaviorEntryInsertArgs e]> m).
Proof. intros H. unfold insert_entry. rewrite H. done. Qed.

Lemma insert_entries l : NoDup (BE_FingerprintID <$> l) -> forall m,
  (forall e, e ∈ l -> m !! BE_FingerprintID e = None) ->
  exists m', foldM insert_entry m l = Ok m' /\
    map_to_list m' ≡ₚ ((fun e => (BE_FingerprintID e, behaviorEntryInsertArgs e)) <$> l) ++ map_to_list m.
Proof.
  induction l as [|e l IH]; intros Hnd m Hm; cbn [foldM].
  - by exists m.
  - cbn in Hnd. apply NoDup_cons in Hnd as [Hn Hnd]. rewrite insert_fresh by (apply Hm; by left). cbn [mbind res_bind].
    destruct (IH Hnd (<[BE_FingerprintID e := behaviorEntryInsertArgs e]> m)) as (m' & Hf & Hp).
    { intros e' He'. rewrite lookup_insert_ne; [apply Hm; by right|]. intros E. apply Hn. rewrite E. by apply list_elem_of_fmap_2. }
    exists m'. split; [done|]. rewrite Hp, map_to_list_insert by (apply Hm; by left). cbn. by rewrite Permutation_middle.
Qed.

Lemma written_entries s m : snapshot_ok s -> foldM insert_entry ∅ (snap_entries s) = Ok m ->
  sort_by fst (map_to_list m) = (fun e => (BE_FingerprintID e, behaviorEntryInsertArgs e)) <$> snap_entries s.
Proof.
  intros Hs Hm. destruct (insert_entries _ (sn_ids s Hs) ∅) as (m' & Hf & Hp); [intros; apply lookup_empty|].
  rewrite Hm in Hf. injection Hf as <-. rewrite map_to_list_empty, app_nil_r in Hp.
  apply (StronglySorted_unique_strong (key_le fst)).
  - intros x y Hx Hy H1 H2. unfold key_le in *. assert (E : x.1 = y.1) by by apply (anti_symm String.le).
    rewrite elem_of_sort_by, Hp in Hx. apply list_elem_of_fmap in Hx as (e & -> & He). apply list_elem_of_fmap in Hy as (e' & -> & He').
    cbn in E. by rewrite (entry_unique s e e' Hs He He' E).
  - apply sort_by_sorted.
  - pose proof (sn_sorted s Hs) as Hss. clear Hm Hp. induction Hss as [|e l Hl IH He]; cbn; constructor; [done|].
    apply Forall_fmap. eapply Forall_impl; [exact He|]. done.
  - by rewrite sort_by_perm.
Qed.

Lemma load_entry_write env e : entry_ok env (BE_FingerprintID e) e ->
  load_entry (BE_FingerprintID e, behaviorEntryInsertArgs e) = Ok e.
Proof.
  intros [_ _ _ Ho [Sr So] [Fr Fo]]. unfold load_entry, behaviorEntryInsertArgs.
  cbn [en_observations en_operational en_fidelity en_behavior].
  rewrite parseUint64Text_format by ulia. cbn [mbind res_bind].
  rewrite encode_decode_summary by (done || apply So). cbn [mbind res_bind]. rewrite encode_decode_fidelity by done.
  by destruct e.
Qed.

Lemma restored_entry env prev fps behaviors observed e : entry_ok env (BE_FingerprintID e) e ->
  (forall p, prev = Some p -> string_lt p (BE_FingerprintID e) = true) ->
  fps !! BE_FingerprintID e = None -> behaviors !! BE_Behavior e = None -> observed + BE_Observations e <= max_u64 ->
  validate_restored_entry env (prev, fps, behaviors, observed) e =
    Ok (Some (BE_FingerprintID e), <[BE_FingerprintID e := tt]> fps, <[BE_Behavior e := BE_FingerprintID e]> behaviors,
        observed + BE_Observations e).
Proof.
  intros He Hp F1 F2 Hsum. pose proof (entry_validates _ _ _ He) as [V1 V2]. destruct He as [_ Hid Henv Hobs _ _].
  unfold validate_restored_entry. rewrite Hid. cbn [mbind res_bind].
  destruct (Z.eqb_spec (BE_Observations e) 0); [lia|]. cbn [fail_if mbind res_bind]. rewrite V1, V2, Henv, String.eqb_refl.
  cbn [mbind res_bind negb fail_if].
  assert (E : match prev with Some p => negb (string_lt p (BE_FingerprintID e)) | None => false end = false).
  { destruct prev as [p|]; [|done]. by rewrite (Hp p eq_refl). }
  rewrite E, F1, F2. destruct (Z.ltb_spec (max_u64 - BE_Observations e) observed); [lia|]. done.
Qed.

(** The entries of a consistent snapshot pass the validation of restored entries. *)
Lemma restored_entries env l : forall prev fps behaviors observed,
  Forall (fun e => entry_ok env (BE_FingerprintID e) e) l ->
  StronglySorted (key_le BE_FingerprintID) l -> NoDup (BE_FingerprintID <$> l) -> NoDup (BE_Behavior <$> l) ->
  (forall p, prev = Some p -> Forall (fun e => string_lt p (BE_FingerprintID e) = true) l) ->
  (forall e, e ∈ l -> fps !! BE_FingerprintID e = None /\ behaviors !! BE_Behavior e = None) ->
  0 <= observed -> observed + sumZ (BE_Observations <$> l) <= max_u64 ->
  exists prev' fps' behaviors',
    foldM (validate_restored_entry env) (prev, fps, behaviors, observed) l =
      Ok (prev', fps', behaviors', observed + sumZ (BE_Observations <$> l)).
Proof.
  induction l as [|e l IH]; intros prev fps behaviors observed He Hs Hn Hb Hp Hf Ho Hsum; cbn [foldM].
  - exists prev, fps, behaviors. unfold sumZ. cbn. by rewrite Z.add_0_r.
  - rewrite fmap_cons, sumZ_cons in Hsum |- *. apply Forall_cons in He as [He Hl]. cbn in Hn, Hb.
    apply NoDup_cons in Hn as [Hn1 Hn2]. apply NoDup_cons in Hb as [Hb1 Hb2]. inversion_clear Hs as [|?? Hs' Hle].
    destruct (Hf e) as [F1 F2]; [by left|].
    assert (Hpos : 0 <= sumZ (BE_Observations <$> l)).
    { clear -Hl. induction Hl as [|x l Hx _ IH]; [done|]. rewrite fmap_cons, sumZ_cons. destruct Hx as [_ _ _ ? _ _]. lia. }
    assert (Hobs : 1 <= BE_Observations e) by apply He.
    rewrite restored_entry; [|done| |done|done|lia]; [cbn [mbind res_bind]|].
    2: { intros p Ep. specialize (Hp p Ep). by apply Forall_cons in Hp as [-> _]. }
    edestruct (IH (Some (BE_FingerprintID e)) (<[BE_FingerprintID e := tt]> fps) (<[BE_Behavior e := BE_FingerprintID e]> behaviors)
      (observed + BE_Observations e)) as (p' & f' & b' & Hfold); [done..| | | | |].
    + intros p [= <-]. apply Forall_forall. intros x Hx. apply string_lt_iff. split.
      * rewrite Forall_forall in Hle. by apply Hle.
      * intros Eq. apply Hn1. rewrite Eq. by apply list_elem_of_fmap_2.
    + intros x Hx. destruct (Hf x) as [G1 G2]; [by right|]. split.
      * rewrite lookup_insert_ne; [done|]. intros Eq. apply Hn1. rewrite Eq. by apply list_elem_of_fmap_2.
      * rewrite lookup_insert_ne; [done|]. intros Eq. apply Hb1. rewrite Eq. by apply list_elem_of_fmap_2.
    + lia.
    + lia.
    + exists p', f', b'. rewrite Hfold. do 2 f_equal. lia.
Qed.

Lemma snapshot_restores s : snapshot_ok s ->
  Forall (fun v => validateID v = Ok tt) [snap_runID s; snap_candidateID s; snap_environment s; snap_profile s] ->
  validateRestoredSnapshot s (Z.of_nat (length (snap_entries s))) = Ok tt.
Proof.
  intros Hs Hids. unfold validateRestoredSnapshot. rewrite (proj2 (foldM_Forall _ _) Hids). cbn [mbind res_bind].
  pose proof (sn_size s Hs) as Hz. destruct (Z.ltb_spec maxBehaviorEntries (Z.of_nat (length (snap_entries s)))); [lia|].
  cbn [fail_if mbind res_bind]. rewrite Z.eqb_refl. cbn [negb fail_if mbind res_bind].
  pose proof (sn_total s Hs) as Ht. pose proof (sn_range s Hs) as Hr.
  destruct (restored_entries (snap_environment s) (snap_entries s) None ∅ ∅ 0) as (p & f & b & E);
    [apply Hs|apply Hs|apply Hs|apply Hs|done| |done|rewrite Ht; ulia|].
  - intros e _. by rewrite !lookup_empty.
  - rewrite E. cbn [mbind res_bind]. rewrite Ht, Z.add_0_l, Z.eqb_refl. done.
Qed.

Lemma loadSnapshot_write t s row m : snapshot_ok s ->
  Forall (fun v => validateID v = Ok tt) [snap_runID s; snap_candidateID s; snap_environment s; snap_profile s] ->
  et_snapshots t !! snap_runID s = Some row -> row = snapshot_columns s ->
  et_entries t !! snap_runID s = Some m -> foldM insert_entry ∅ (snap_entries s) = Ok m ->
  loadSnapshot t (snap_runID s) = Ok s.
Proof.
  intros Hs Hids E -> Em Hm. unfold loadSnapshot. rewrite E. unfold snapshot_columns.
  cbn [sn_observationCount sn_complete sn_candidateID sn_environment sn_profile sn_distinctCount].
  rewrite parseUint64Text_format by apply Hs. cbn [mbind res_bind].
  assert (El : loadBehaviorEntries t (snap_runID s) = Ok (snap_entries s)).
  { unfold loadBehaviorEntries, entry_rows. rewrite Em. change (default ∅ (Some m)) with m. rewrite (written_entries s m Hs Hm).
    apply mapM_res_Ok. eapply Forall_impl; [exact (sn_entries s Hs)|]. intros e He. exact (load_entry_write _ _ He). }
  rewrite El. cbn [mbind res_bind]. rewrite parseStoredBool_int. cbn [mbind res_bind].
  pose proof (snapshot_restores s Hs Hids) as Hv. pose proof (sn_bound s Hs) as Hb.
  destruct s as [b ? ? ? ? ? ? ?]. cbn in Hv, Hb |- *. subst b. unfold corrupt.
  unfold validateRestoredSnapshot in *. cbn in Hv |- *. by rewrite Hv.
Qed.
