(* ===== verification/Ingest.v ===== *)
(** * Package platform: ingestion of decision records (controlplane.go, ingest.go)

    What the control plane does with one decision record of a running evaluation: three
    reads of the store, the evidence the record would make, and the transaction that commits
    it - composed as one call, and as separate steps that may interleave with those of other
    calls and with the lifecycle of the runs.

    The digest of a record (SHA-256 of its JSON) is a parameter; the code relies on it being
    64 lowercase hexadecimal digits. *)
From S2P Require Import Prelude GoText GoTime GoFloat FloatBounds Event Fingerprint DecisionRecord Domain Paging Counters Operational.
From S2P Require Import Environment Fidelity Aggregate Observation Behavior Scorecard Recency RunStore EvidenceStore.

Open Scope string_scope.
Open Scope Z_scope.

Record IngestRequest : Type := {
  IR_RunID : EvaluationRunID;
  IR_Sequence : Z;
  IR_BehavioralProfile : BehavioralProfileRef;
  IR_Fidelity : Fidelity;
  IR_BehaviorLayer : Layer;
  IR_Operational : OperationalFacts;
  ReceivedAt : time;
  IR_Record : DecisionRecord;
}.

Inductive IngestDisposition : Type := IngestApplied | IngestReplayed.

Record IngestResult : Type := {
  IRes_Disposition : IngestDisposition;
  IRes_NextSequence : Z;
  IRes_RecordCount : Z;
  IRes_BehaviorComplete : bool;
}.

(** The durable tables ingestion works on, and the control plane's last_ingest_at. *)
Record ingest_system : Type := {
  sys_runs : run_table;
  sys_evidence : evidence_tables;
  lastIngest : Z;
}.

(** ** Evidence a record makes *)
Definition facts_of (request : IngestRequest) : OperationalFacts :=
  {| HTTPStatusCode := HTTPStatusCode (IR_Operational request); F_Usage := F_Usage (IR_Operational request);
     F_Fidelity := IR_Fidelity request; F_Layer := IR_BehaviorLayer request |}.

Definition knows (c : BehaviorCollector) (fingerprintID : string) : bool :=
  col_bound c && bool_decide (is_Some (col_entries c !! fingerprintID)).

(** A record refused at capacity still counts: the collector only says it is incomplete. *)
Definition unless_capacity (r : res unit) : res unit :=
  match r with
  | Err e => if errors_is e ErrBehaviorCapacity then Ok tt else Err e
  | Ok _ => Ok tt
  end.

Definition apply_evidence (a : EvaluationAggregate) (c : BehaviorCollector) (sequence : Z) (request : IngestRequest)
    : res (EvaluationAggregate * BehaviorCollector * Observation) :=
  let record := IR_Record request in
  let newBehavior := negb (knows c (DR_FingerprintID record)) in
  a ← AddRecord a record;
  let '(c, observed) := Behavior.ObserveOperational c record (facts_of request) in
  unless_capacity observed;;
  observation ← ObservationFromRecord sequence record newBehavior;
  Ok (a, c, observation).

Definition currentEvidence (runs : run_table) (t : evidence_tables) (run : EvaluationRun)
    : res (EvaluationAggregate * BehaviorCollector) :=
  match loadEvidence runs t (run_id run) with
  | Err e =>
      if errors_is e ErrStoreNotFound then
        a ← NewEvaluationAggregate run;
        c ← NewBehaviorCollector run;
        Ok (a, c)
      else Err e
  | Ok (a, s) => c ← behaviorCollectorFromSnapshot s; Ok (a, c)
  end.

(** status.go: only forward, and nothing for the zero time. *)
Definition noteIngest (last : Z) (at_ : time) : Z :=
  if time_is_zero at_ then last
  else let next := unix_nano at_ in if next <=? last then last else next.

Section ingest.
Context (RecordDigest : DecisionRecord -> res string).

(** ** The call, in its steps *)
Definition read_run (runs : run_table) (request : IngestRequest) : res EvaluationRun :=
  run ← loadRun runs (IR_RunID request);
  fail_if (status run <>s RunRunning) [ErrEvaluationState];;
  fail_if (IR_BehavioralProfile request <>s run_profile run) [ErrInvalidBehaviorRecord];;
  Ok run.

(** [Some]: the answer to a retried request. *)
Definition check_sequence (request : IngestRequest) (digest : string) (state : EvaluationIngestState)
    : res (option IngestResult) :=
  if IR_Sequence request =? nextSequence state then Ok None
  else if u64 (IR_Sequence request + 1) =? nextSequence state then
    if (lastDigest state <>s "") && (lastDigest state =s digest) then
      Ok (Some {| IRes_Disposition := IngestReplayed; IRes_NextSequence := nextSequence state;
                  IRes_RecordCount := is_recordCount state; IRes_BehaviorComplete := behaviorComplete state |})
    else Err [ErrIngestSequence]
  else Err [ErrIngestSequence].

Definition prepare (runs : run_table) (t : evidence_tables) (run : EvaluationRun) (request : IngestRequest)
    (digest : string) (state : EvaluationIngestState) : res EvaluationIngestCommit :=
  OperationalFacts_Validate (facts_of request);;
  '(a, c) ← currentEvidence runs t run;
  '(a, c, observation) ← apply_evidence a c (IR_Sequence request) request;
  Ok {| PreviousNextSequence := nextSequence state; IC_Sequence := IR_Sequence request; RecordDigest_ := digest;
        IC_Aggregate := a; IC_Snapshot := Snapshot c; IC_Observation := observation |}.

Definition commit_record (s : ingest_system) (request : IngestRequest) (commit : EvaluationIngestCommit)
    : res (ingest_system * IngestResult) :=
  '(t, committed) ← CommitEvaluationIngest (sys_runs s) (sys_evidence s) commit;
  let applied := match CR_Disposition committed with
                 | EvaluationIngestCommitted => true
                 | EvaluationIngestAlreadyCommitted => false
                 end in
  Ok ({| sys_runs := sys_runs s; sys_evidence := t;
         lastIngest := if applied then noteIngest (lastIngest s) (ReceivedAt request) else lastIngest s |},
      {| IRes_Disposition := if applied then IngestApplied else IngestReplayed;
         IRes_NextSequence := CR_NextSequence committed; IRes_RecordCount := CR_RecordCount committed;
         IRes_BehaviorComplete := CR_BehaviorComplete committed |}).

Definition IngestDecisionRecord (s : ingest_system) (request : IngestRequest) : res (ingest_system * IngestResult) :=
  run ← read_run (sys_runs s) request;
  digest ← RecordDigest (IR_Record request);
  state ← ingestState (sys_runs s) (sys_evidence s) (IR_RunID request);
  answered ← check_sequence request digest state;
  match answered with
  | Some result => Ok (s, result)
  | None =>
      commit ← prepare (sys_runs s) (sys_evidence s) run request digest state;
      commit_record s request commit
  end.

(** ** What a run's log of accepted requests amounts to *)
Definition accumulate_step (acc : EvaluationAggregate * BehaviorCollector * list Observation) (request : IngestRequest)
    : res (EvaluationAggregate * BehaviorCollector * list Observation) :=
  let '(a, c, observations) := acc in
  '(a, c, o) ← apply_evidence a c (Z.of_nat (length observations) + 1) request;
  Ok (a, c, (observations ++ [o])%list).

Definition accumulate (run : EvaluationRun) (log : list IngestRequest)
    : res (EvaluationAggregate * BehaviorCollector * list Observation) :=
  a ← NewEvaluationAggregate run;
  c ← NewBehaviorCollector run;
  foldM accumulate_step (a, c, []) log.

(** Requests the store's arithmetic is exact for: a time after year 1, counters of a
    machine word, and fewer than 2^53 records. *)
Definition request_ok (request : IngestRequest) : Prop :=
  0 < instant (DR_Timestamp (IR_Record request)) /\ usage_range (F_Usage (IR_Operational request)).
Definition log_ok (log : list IngestRequest) : Prop :=
  Forall request_ok log /\ Z.of_nat (length log) < 2 ^ 53.

Lemma apply_evidence_cases a c n request a' c' o : apply_evidence a c n request = Ok (a', c', o) ->
  AddRecord a (IR_Record request) = Ok a' /\ Sequence o = n /\
  exists r, Behavior.ObserveOperational c (IR_Record request) (facts_of request) = (c', r) /\
    (r = Ok tt \/ exists e, r = Err e /\ errors_is e ErrBehaviorCapacity = true).
Proof.
  intros H. unfold apply_evidence in H. res_inv.
  destruct (Behavior.ObserveOperational c (IR_Record request) (facts_of request)) as [c1 r] eqn:E. res_inv.
  unfold ObservationFromRecord in *. res_inv. subst. split; [done|]. split; [done|]. exists r. split; [done|].
  unfold unless_capacity in *. destruct r as [[]|e]; [by left|]. right. exists e. split; [done|].
  by destruct (errors_is e ErrBehaviorCapacity).
Qed.

Lemma accumulate_snoc run log request : accumulate run (log ++ [request]) =
  (acc ← accumulate run log; accumulate_step acc request).
Proof.
  unfold accumulate. destruct (NewEvaluationAggregate run); [|done]. destruct (NewBehaviorCollector run); [|done].
  cbn [mbind res_bind]. rewrite foldM_app. destruct (foldM _ _ log) as [acc|]; [|done]. cbn. by destruct (accumulate_step acc request).
Qed.

Lemma accumulate_evidence run log : forall a c os, log_ok log -> accumulate run log = Ok (a, c, os) ->
  evidence run a c /\ recordCount a = Z.of_nat (length log) /\ length os = length log /\
  (Sequence <$> os) = seqZ 1 (Z.of_nat (length os)).
Proof.
  induction log as [|request log IH] using rev_ind; intros a c os [Hf Hn] H.
  - unfold accumulate in H. res_inv. cbn in H. injection H as <- <- <-. split; [by apply ev_new|].
    split; [|done]. by apply NewEvaluationAggregate_ok in Hok as [_ ->].
  - rewrite accumulate_snoc in H. res_inv. destruct a0 as [[a0 c0] os0]. cbn [accumulate_step] in H. unfold accumulate_step in H. res_inv.
    destruct a1 as [[a1 c1] o1]. res_inv. subst. apply Forall_app in Hf as [Hf Hr]. apply Forall_cons in Hr as [[Ht Hu] _].
    rewrite length_app in Hn. cbn [length] in Hn. destruct (IH a0 c0 os0) as (He & Hc & Hl & Hs); [split; [done|lia]|done|].
    apply apply_evidence_cases in Hok0 as (Ha & Ho & r & Hcol & Hr').
    pose proof (AddRecord_count _ _ _ Ha) as (Hc' & _ & _). split.
    { apply (ev_record run a0 c0 (IR_Record request) (facts_of request) a c r); try done. lia. }
    rewrite !length_app, Hl. cbn [length]. split.
    { rewrite Hc', Hc. unfold incr. rewrite u64_small by (unfold is_u64, max_u64; lia). lia. }
    split; [lia|].
    rewrite fmap_app, Hs, Hl. rewrite Nat2Z.inj_add, seqZ_app by lia. f_equal. rewrite seqZ_cons, seqZ_nil by lia. cbn. rewrite Ho, Hl. f_equal. lia.
Qed.

(** ** The tables a log leaves *)
Definition no_rows (t : evidence_tables) (id : EvaluationRunID) : Prop :=
  et_aggregates t !! id = None /\ et_snapshots t !! id = None /\ et_entries t !! id = None /\
  et_ingest t !! id = None /\ et_histories t !! id = None.

Variant run_log (t : evidence_tables) (run : EvaluationRun) : list IngestRequest -> Prop :=
| rl_empty : no_rows t (run_id run) -> run_log t run []
| rl_some log request a c os m d :
    log_ok (log ++ [request]) -> accumulate run (log ++ [request]) = Ok (a, c, os) ->
    RecordDigest (IR_Record request) = Ok d ->
    et_aggregates t !! run_id run = Some (aggregateInsertArgs a) ->
    et_snapshots t !! run_id run = Some (snapshot_columns (Snapshot c)) ->
    et_entries t !! run_id run = Some m -> foldM insert_entry ∅ (snap_entries (Snapshot c)) = Ok m ->
    et_ingest t !! run_id run = Some (uint64Text (Z.of_nat (length log) + 2), d) ->
    et_histories t !! run_id run = Some (foldl retainObservation no_history os) ->
    run_log t run (log ++ [request]).

Lemma accumulate_same_run r r' log : run_ids4 r = run_ids4 r' ->
  validateRunBinding r = Ok tt -> validateRunBinding r' = Ok tt -> accumulate r log = accumulate r' log.
Proof.
  intros [= E1 E2 E3 E4] H H'. unfold accumulate, NewEvaluationAggregate, NewBehaviorCollector.
  by rewrite H, H', E1, E2, E3, E4.
Qed.

Lemma run_log_same t r r' log : run_ids4 r = run_ids4 r' -> run_reachable r -> run_reachable r' ->
  run_log t r log -> run_log t r' log.
Proof.
  intros E Hr Hr' H. pose proof E as [= E1 _ _ _]. destruct H as [H|log request a c os m d Hl Ha].
  - apply rl_empty. by rewrite <- E1.
  - rewrite (accumulate_same_run r r') in Ha by (done || by apply reachable_binding).
    apply (rl_some t r' log request a c os m d); try done; by rewrite <- E1.
Qed.

Definition same_rows (t t' : evidence_tables) (id : EvaluationRunID) : Prop :=
  et_aggregates t' !! id = et_aggregates t !! id /\ et_snapshots t' !! id = et_snapshots t !! id /\
  et_entries t' !! id = et_entries t !! id /\ et_ingest t' !! id = et_ingest t !! id /\
  et_histories t' !! id = et_histories t !! id.

Lemma run_log_frame t t' r log : same_rows t t' (run_id r) -> run_log t r log -> run_log t' r log.
Proof.
  intros (F1 & F2 & F3 & F4 & F5) H. destruct H as [(H1 & H2 & H3 & H4 & H5)|log request a c os m d].
  - apply rl_empty. unfold no_rows. by rewrite F1, F2, F3, F4, F5.
  - apply (rl_some t' r log request a c os m d); try done; congruence.
Qed.

Context (digest_shape : forall record d, RecordDigest record = Ok d -> validateDigestShape d = Ok tt).

Lemma digest_persisted record d : RecordDigest record = Ok d -> validatePersistedDigest d = Ok tt /\ d <> "".
Proof.
  intros H. pose proof (digest_shape _ _ H) as Hd. assert (Hne : d <> "") by (intros ->; by vm_compute in Hd).
  split; [|done]. unfold validatePersistedDigest. by rewrite (proj2 (String.eqb_neq d "") Hne).
Qed.

Lemma evidence_ids run a c : evidence_ok run a c ->
  Forall (fun v => validateID v = Ok tt)
    [snap_runID (Snapshot c); snap_candidateID (Snapshot c); snap_environment (Snapshot c); snap_profile (Snapshot c)] /\
  agg_runID a = snap_runID (Snapshot c) /\ agg_candidateID a = snap_candidateID (Snapshot c) /\
  agg_environment a = snap_environment (Snapshot c) /\ agg_profile a = snap_profile (Snapshot c) /\
  snap_runID (Snapshot c) = run_id run.
Proof.
  intros [Ha Hc _ _ _ (A1 & A2 & A3 & A4) (C1 & C2 & C3 & C4)]. pose proof (ao_ids a Ha) as Hi.
  rewrite A1, A2, A3, A4 in *. unfold Snapshot. rewrite (co_bound c Hc).
  cbn [negb snap_runID snap_candidateID snap_environment snap_profile]. rewrite C1, C2, C3, C4. done.
Qed.

Lemma evidence_pair run a c : evidence_ok run a c -> validateEvidencePair a (Snapshot c) = Ok tt.
Proof.
  intros He. destruct (evidence_ids run a c He) as (_ & E1 & E2 & E3 & E4 & _). unfold validateEvidencePair.
  rewrite E1, E2, E3, E4, !String.eqb_refl. destruct He as [Ha Hc Hn Hb _ _ _]. rewrite (ao_bound a Ha).
  unfold Snapshot. rewrite (co_bound c Hc). cbn [negb fail_if mbind res_bind orb snap_bound snap_complete snap_observations].
  destruct (col_complete c); [rewrite Hn by done; by rewrite Z.eqb_refl|]. destruct (Z.ltb_spec (recordCount a) (col_observations c)); [lia|done].
Qed.

(** What the readers of the store see of a run with a log. *)
Lemma read_log runs t r log : loadRun runs (run_id r) = Ok r -> run_reachable r -> run_log t r log ->
  exists a c os st, accumulate r log = Ok (a, c, os) /\ evidence r a c /\ log_ok log /\
    currentEvidence runs t r = Ok (a, c) /\
    ingestState runs t (run_id r) = Ok st /\ nextSequence st = Z.of_nat (length log) + 1 /\
    is_recordCount st = Z.of_nat (length log) /\ behaviorComplete st = col_complete c /\
    (log = [] -> loadEvidence runs t (run_id r) = Err [ErrStoreNotFound] /\ lastDigest st = "") /\
    (forall l q, log = (l ++ [q])%list -> loadEvidence runs t (run_id r) = Ok (a, Snapshot c) /\
       RecordDigest (IR_Record q) = Ok (lastDigest st)).
Proof.
  intros Hl Hr H. destruct H as [(H1 & H2 & H3 & H4 & H5)|log request a c os m d Hok Ha Hd H1 H2 H3 Hm H4 H5].
  - pose proof (reachable_binding r Hr) as Hb.
    destruct (NewEvaluationAggregate r) as [a|] eqn:Ea; [|unfold NewEvaluationAggregate in Ea; by rewrite Hb in Ea].
    destruct (NewBehaviorCollector r) as [c|] eqn:Ec; [|unfold NewBehaviorCollector in Ec; by rewrite Hb in Ec].
    assert (Hn : loadEvidence runs t (run_id r) = Err [ErrStoreNotFound]).
    { unfold loadEvidence, evidenceRowsPresent. by rewrite H1, H2. }
    eexists a, c, [], _. unfold accumulate. rewrite Ea, Ec. split; [done|]. split; [by apply ev_new|]. split; [by split|].
    split; [unfold currentEvidence; rewrite Hn, Ea, Ec; done|].
    split; [unfold ingestState; rewrite Hl; cbn [mbind res_bind]; rewrite H4; unfold derivedIngestState; rewrite Hn; reflexivity|].
    split; [done|]. split; [done|]. split; [unfold NewBehaviorCollector in Ec; rewrite Hb in Ec; by injection Ec as <-|].
    split; [done|]. intros l q E. by destruct l.
  - destruct (accumulate_evidence _ _ _ _ _ Hok Ha) as (Hev & Hcount & _ & _). pose proof (evidence_reachable_ok _ _ _ Hev) as He.
    destruct (evidence_ids r a c He) as (Hids & E1 & E2 & E3 & E4 & Erun). pose proof He as [Hao Hco _ _ _ (A1 & A2 & A3 & A4) _].
    assert (Hlo : loadEvidence runs t (run_id r) = Ok (a, Snapshot c)).
    { unfold loadEvidence, evidenceRowsPresent. rewrite H1, H2. cbn [neither both has_aggregate has_snapshot bool_decide].
      rewrite <- A1, (loadAggregate_write t a Hao) by by rewrite A1. cbn [mbind res_bind]. rewrite E1.
      rewrite (loadSnapshot_write t (Snapshot c) (snapshot_columns (Snapshot c)) m); try (done || by rewrite Erun);
        [|by apply Snapshot_ok].
      cbn [mbind res_bind]. rewrite (evidence_pair r a c He). cbn [corrupt map_err mbind res_bind]. rewrite Erun, Hl.
      cbn [map_err mbind res_bind]. unfold validateRestoredEvidenceAgainstRun.
      rewrite <- E1, <- E2, <- E3, <- E4, A1, A2, A3, A4. cbn [foldM]. by rewrite !String.eqb_refl. }
    rewrite length_app in Hcount. cbn [length] in Hcount. destruct (digest_persisted _ _ Hd) as [Hdp _].
    pose proof (proj2 Hok) as Hlen. rewrite length_app in Hlen. cbn [length] in Hlen.
    assert (Hcur : currentEvidence runs t r = Ok (a, c)).
    { unfold currentEvidence. rewrite Hlo. by rewrite restore_Snapshot. }
    exists a, c, os, (state_of (Z.of_nat (length log) + 2) d a (Snapshot c)).
    split; [done|]. split; [done|]. split; [done|]. split; [done|].
    split.
    { unfold ingestState. rewrite Hl. cbn [mbind res_bind]. rewrite H4, parseUint64Text_format by (unfold is_u64, max_u64; lia).
      cbn [mbind res_bind]. destruct (Z.eqb_spec (Z.of_nat (length log) + 2) 0); [lia|]. cbn [fail_if mbind res_bind].
      rewrite Hdp, Hlo. cbn [map_err mbind res_bind]. unfold initialSequenceFor, nextSequenceAfter. rewrite Hcount.
      destruct (Z.eqb_spec (Z.of_nat (length log + 1)) max_u64); [unfold max_u64 in *; lia|]. cbn [fail_if mbind res_bind map_err corrupt].
      destruct (Z.eqb_spec (Z.of_nat (length log) + 2) (Z.of_nat (length log + 1) + 1)); [done|lia]. }
    rewrite length_app. cbn [length nextSequence state_of is_recordCount behaviorComplete lastDigest].
    split; [lia|]. split; [done|]. split; [unfold Snapshot; by rewrite (co_bound c Hco)|].
    split; [intros E; by destruct log|]. intros l q [-> [= ->]]%app_inj_2; done.
Qed.

(** ** Committing the next record *)
Lemma incomplete_stays a c n request a' c' o : col_complete c = false -> col_bound c = true ->
  apply_evidence a c n request = Ok (a', c', o) -> c' = c.
Proof.
  intros Hc Hb H. apply apply_evidence_cases in H as (_ & _ & r & H & _).
  unfold Behavior.ObserveOperational, check_record in H. rewrite Hb, Hc in H. cbn in H. by injection H as <- _.
Qed.

Lemma upsert_same r a c a' c' : evidence_ok r a c -> evidence_ok r a' c' ->
  upsert_snapshot (Some (snapshot_columns (Snapshot c))) (snapshot_columns (Snapshot c')) = snapshot_columns (Snapshot c').
Proof.
  intros He He'. pose proof (ev_cids _ _ _ He) as (_ & C2 & C3 & C4). pose proof (ev_cids _ _ _ He') as (_ & D2 & D3 & D4).
  pose proof (co_bound _ (ev_col _ _ _ He)) as B. pose proof (co_bound _ (ev_col _ _ _ He')) as B'.
  unfold upsert_snapshot, snapshot_columns, Snapshot. rewrite B, B'. cbn. by rewrite C2, C3, C4, D2, D3, D4.
Qed.

Lemma retained_history r log a c os : log_ok log -> accumulate r log = Ok (a, c, os) ->
  let h := foldl retainObservation no_history os in
  (match history_row h with Some (retained, _) => MaxRetainedObservations <? retained | None => false end) = false /\
  existsb (fun o' => Sequence o' =? Z.of_nat (length os) + 1) (rows h) = false.
Proof.
  intros Hok Ha h. destruct (accumulate_evidence _ _ _ _ _ Hok Ha) as (_ & _ & _ & Hs).
  destruct (retained_rows 0 os ltac:(lia) Hs) as [Hr Hh]. fold h in Hr, Hh. split.
  - rewrite Hh. destruct os as [|o os]; [done|]. apply Z.ltb_ge. rewrite length_take. pose proof cap_Z. unfold MaxRetainedObservations. lia.
  - rewrite Hr. apply not_true_is_false. intros (o & Hin & Ho%Z.eqb_eq)%List.existsb_exists.
    apply list_elem_of_In, (subseteq_take cap os) in Hin.
    assert (Hseq : Sequence o ∈ seqZ 1 (Z.of_nat (length os))) by (rewrite <- Hs; by apply list_elem_of_fmap_2).
    apply elem_of_seqZ in Hseq. lia.
Qed.

Definition next_commit (n : Z) (d : string) (a : EvaluationAggregate) (c : BehaviorCollector) (o : Observation) : EvaluationIngestCommit :=
  {| PreviousNextSequence := n; IC_Sequence := n; RecordDigest_ := d; IC_Aggregate := a; IC_Snapshot := Snapshot c;
     IC_Observation := o |}.

Lemma not_stale runs t r log a c os request a' c' o : loadRun runs (run_id r) = Ok r -> run_reachable r -> run_log t r log ->
  log_ok (log ++ [request]) -> accumulate r log = Ok (a, c, os) ->
  apply_evidence a c (Z.of_nat (length os) + 1) request = Ok (a', c', o) ->
  agg_runID a' = run_id r -> checkEvidenceNotStale runs t a' (Snapshot c') = Ok tt.
Proof.
  intros Hl Hr H Hok Ha Hap Hid. destruct (read_log _ _ _ _ Hl Hr H) as (a0 & c0 & os0 & st & Ha0 & Hev & _ & _ & _ & _ & _ & _ & He & Hne).
  rewrite Ha in Ha0. injection Ha0 as <- <- <-. unfold checkEvidenceNotStale. rewrite Hid.
  destruct H as [(H1 & H2 & _)|l q a0 c0 os0 m d _ _ _ H1 H2]; [unfold evidenceRowsPresent; by rewrite H1, H2|].
  destruct (Hne l q eq_refl) as [Hlo _]. unfold evidenceRowsPresent. rewrite H1, H2, Hlo.
  cbn [neither both has_aggregate has_snapshot bool_decide is_Some_dec andb negb fail_if mbind res_bind].
  pose proof (evidence_reachable_ok _ _ _ Hev) as Hevo. pose proof (co_bound _ (ev_col _ _ _ Hevo)) as Hb.
  pose proof (apply_evidence_cases _ _ _ _ _ _ _ Hap) as (Hadd & _). pose proof (AddRecord_count _ _ _ Hadd) as (Hc & Hm & _).
  pose proof (ao_count _ (ev_agg _ _ _ Hevo)) as Hu. unfold incr in Hc. rewrite u64_small in Hc by ulia.
  assert (Hcomp : negb (snap_complete (Snapshot c)) && snap_complete (Snapshot c') = false).
  { destruct (col_complete c) eqn:E; [unfold Snapshot; rewrite Hb; cbn; by rewrite E|].
    rewrite (incomplete_stays _ _ _ _ _ _ _ E Hb Hap). unfold Snapshot. rewrite Hb. cbn. by rewrite E. }
  cbn. rewrite Hcomp. cbn. rewrite Hc. destruct (Z.ltb_spec (recordCount a + 1) (recordCount a)); [lia|].
  destruct (Z.eqb_spec (recordCount a + 1) (recordCount a)); [lia|done].
Qed.

Lemma written s : snapshot_ok s -> exists m, foldM insert_entry ∅ (snap_entries s) = Ok m.
Proof. intros Hs. destruct (insert_entries _ (sn_ids s Hs) ∅) as (m & Hm & _); [intros; apply lookup_empty|eauto]. Qed.

Lemma stored_history t r log os a c : run_log t r log -> accumulate r log = Ok (a, c, os) ->
  default no_history (et_histories t !! run_id r) = foldl retainObservation no_history os.
Proof.
  intros H Ha. destruct H as [(_ & _ & _ & _ & H)|l q a0 c0 os0 m d _ Ha0 _ _ _ _ _ _ H].
  - rewrite H. unfold accumulate in Ha. res_inv. cbn in Ha. by injection Ha as _ _ <-.
  - rewrite H. rewrite Ha in Ha0. by injection Ha0 as _ _ <-.
Qed.

Lemma stored_snapshot t r log os a c a' c' : run_log t r log -> accumulate r log = Ok (a, c, os) ->
  evidence_ok r a c -> evidence_ok r a' c' ->
  upsert_snapshot (et_snapshots t !! run_id r) (snapshot_columns (Snapshot c')) = snapshot_columns (Snapshot c').
Proof.
  intros H Ha He He'. destruct H as [(_ & H & _)|l q a0 c0 os0 m d _ Ha0 _ _ H _ _ _ _]; rewrite H; [done|].
  rewrite Ha in Ha0. injection Ha0 as <- <- <-. by eapply upsert_same.
Qed.

Lemma commit_next runs t r log request a c os a' c' o d :
  loadRun runs (run_id r) = Ok r -> run_reachable r -> run_log t r log -> log_ok (log ++ [request]) ->
  accumulate r log = Ok (a, c, os) -> apply_evidence a c (Z.of_nat (length os) + 1) request = Ok (a', c', o) ->
  RecordDigest (IR_Record request) = Ok d ->
  let commit := next_commit (Z.of_nat (length log) + 1) d a' c' o in
  (status r <> RunRunning -> CommitEvaluationIngest runs t commit = Err [ErrEvaluationState]) /\
  (status r = RunRunning -> exists t' result, CommitEvaluationIngest runs t commit = Ok (t', result) /\
     run_log t' r (log ++ [request]) /\ (forall id, id <> run_id r -> same_rows t t' id) /\
     CR_Disposition result = EvaluationIngestCommitted /\ CR_NextSequence result = Z.of_nat (length log) + 2 /\
     CR_RecordCount result = Z.of_nat (length log) + 1 /\ CR_BehaviorComplete result = col_complete c').
Proof.
  intros Hl Hr H Hok Ha Hap Hd commit.
  destruct (read_log _ _ _ _ Hl Hr H) as (a0 & c0 & os0 & st & Ha0 & Hev & Hlog & _ & Hst & Hnext & _).
  rewrite Ha in Ha0. injection Ha0 as <- <- <-.
  assert (Hacc : accumulate r (log ++ [request]) = Ok (a', c', (os ++ [o])%list)).
  { rewrite accumulate_snoc, Ha. cbn [mbind res_bind accumulate_step]. by rewrite Hap. }
  destruct (accumulate_evidence _ _ _ _ _ Hlog Ha) as (_ & _ & Hlen & _).
  destruct (accumulate_evidence _ _ _ _ _ Hok Hacc) as (Hev' & Hcount & _ & _). pose proof (evidence_reachable_ok _ _ _ Hev') as He'.
  pose proof (evidence_reachable_ok _ _ _ Hev) as He.
  destruct (ev_ids _ _ _ He') as (A1 & A2 & A3 & A4). destruct (evidence_ids _ _ _ He') as (_ & E1 & _).
  pose proof (apply_evidence_cases _ _ _ _ _ _ _ Hap) as (_ & Ho & _).
  destruct (digest_persisted _ _ Hd) as [Hdp _]. pose proof (proj2 Hok) as Hsmall. rewrite length_app in Hsmall, Hcount. cbn [length] in Hsmall, Hcount.
  assert (Hhead : forall k, CommitEvaluationIngest runs t commit = k <->
    (fail_if (status r <>s RunRunning) [ErrEvaluationState];;
     t ← writeEvidence t a' (Snapshot c');
     '(t, history) ← Store_retainObservation t (run_id r) o;
     Ok (with_cursor t (run_id r) (Z.of_nat (length log) + 2) d,
         {| CR_Disposition := EvaluationIngestCommitted; CR_NextSequence := Z.of_nat (length log) + 2;
            CR_RecordCount := recordCount a'; CR_BehaviorComplete := snap_complete (Snapshot c'); CR_History := history |})) = k).
  { intros k. unfold CommitEvaluationIngest, commit, next_commit.
    cbn [IC_Aggregate IC_Snapshot RecordDigest_ IC_Sequence PreviousNextSequence IC_Observation].
    rewrite (evidence_pair _ _ _ He'). cbn [mbind res_bind]. rewrite Hdp. cbn [mbind res_bind].
    unfold validateCommitObservation. cbn [IC_Observation IC_Sequence]. rewrite Ho, Hlen, Z.eqb_refl. cbn [negb fail_if mbind res_bind].
    unfold nextSequenceAfter. destruct (Z.eqb_spec (Z.of_nat (length log) + 1) max_u64); [unfold max_u64 in *; lia|].
    cbn [fail_if mbind res_bind]. rewrite A1, Hst. cbn [mbind res_bind].
    rewrite Hnext, Z.eqb_refl. cbn [negb]. rewrite Hl. cbn [mbind res_bind]. unfold identity_conflict.
    rewrite A2, A3, A4, !String.eqb_refl. cbn [negb orb].
    rewrite (not_stale runs t r log a c os request a' c' o) by done.
    replace (Z.of_nat (length log) + 1 + 1) with (Z.of_nat (length log) + 2) by lia.
    by destruct (status r <>s RunRunning). }
  split; intros Hs.
  - apply Hhead. by rewrite (proj2 (String.eqb_neq _ _) Hs).
  - pose proof (proj1 (Hhead _) eq_refl) as Hc. rewrite Hs, String.eqb_refl in Hc. cbn [negb fail_if mbind res_bind] in Hc. 
    destruct (written (Snapshot c') (Snapshot_ok _ (ev_col _ _ _ He'))) as [m Hm]. unfold writeEvidence in Hc. rewrite Hm in Hc.
    cbn [mbind res_bind] in Hc. unfold Store_retainObservation, loadObservationHistoryRow in Hc. cbn [et_histories] in Hc.
    rewrite (stored_history _ _ _ _ _ _ H Ha) in Hc. destruct (retained_history _ _ _ _ _ Hlog Ha) as [R1 R2].
    rewrite R1 in Hc. cbn [fail_if mbind res_bind] in Hc. rewrite Ho, R2, andb_false_r in Hc. cbn [fail_if mbind res_bind] in Hc.
    rewrite <- E1, A1 in Hc. symmetry in Hc. eexists _, _. split; [exact Hc|]. split; [|split].
    + apply (rl_some _ r log request a' c' (os ++ [o]) m d); try done; cbn; rewrite ?lookup_insert_eq; try done.
      * by rewrite (stored_snapshot _ _ _ _ _ _ _ _ H Ha He He').
      * by rewrite foldl_app.
    + intros id Hid. unfold same_rows. cbn. by rewrite !lookup_insert_ne by congruence.
    + cbn. split; [done|]. split; [done|]. split; [lia|]. unfold Snapshot. by rewrite (co_bound _ (ev_col _ _ _ He')).
Qed.

(** ** Calls in flight

    Between its reads and its commit a call of [IngestDecisionRecord] holds what it read;
    other calls, lifecycle transitions and failures may come in between. *)
Variant in_flight : Type :=
| fl_run (request : IngestRequest) (run : EvaluationRun)
| fl_state (request : IngestRequest) (run : EvaluationRun) (digest : string) (state : EvaluationIngestState)
| fl_commit (request : IngestRequest) (commit : EvaluationIngestCommit).

Definition with_runs (s : ingest_system) (t : run_table) : ingest_system :=
  {| sys_runs := t; sys_evidence := sys_evidence s; lastIngest := lastIngest s |}.

Inductive ingest_step : ingest_system * list in_flight -> ingest_system * list in_flight -> Prop :=
| is_read s fs request run :
    request_ok request -> read_run (sys_runs s) request = Ok run ->
    ingest_step (s, fs) (s, fl_run request run :: fs)
| is_state s l1 l2 request run digest state :
    RecordDigest (IR_Record request) = Ok digest ->
    ingestState (sys_runs s) (sys_evidence s) (IR_RunID request) = Ok state ->
    check_sequence request digest state = Ok None ->
    ingest_step (s, (l1 ++ fl_run request run :: l2)%list) (s, (l1 ++ fl_state request run digest state :: l2)%list)
| is_prepare s l1 l2 request run digest state commit :
    prepare (sys_runs s) (sys_evidence s) run request digest state = Ok commit ->
    ingest_step (s, (l1 ++ fl_state request run digest state :: l2)%list) (s, (l1 ++ fl_commit request commit :: l2)%list)
| is_commit s l1 l2 request commit s' result :
    commit_record s request commit = Ok (s', result) -> recordCount (IC_Aggregate commit) < 2 ^ 53 ->
    ingest_step (s, (l1 ++ fl_commit request commit :: l2)%list) (s', (l1 ++ l2)%list)
| is_abandon s l1 l2 f : ingest_step (s, (l1 ++ f :: l2)%list) (s, (l1 ++ l2)%list)
| is_create s fs (candidates : gmap CandidateID unit) run t :
    run_reachable run -> Store_CreateEvaluationRun candidates (sys_runs s) run = Ok t ->
    ingest_step (s, fs) (with_runs s t, fs)
| is_update s fs previous next t :
    run_reachable previous -> run_reachable next -> UpdateEvaluationRun (sys_runs s) previous next = Ok t ->
    ingest_step (s, fs) (with_runs s t, fs).

Definition empty_system : ingest_system := {| sys_runs := ∅; sys_evidence := no_evidence; lastIngest := 0 |}.
Definition ingest_reachable (s : ingest_system) (fs : list in_flight) : Prop := rtc ingest_step (empty_system, []) (s, fs).

(** ** The invariant of every interleaving *)
Record sys_ok (s : ingest_system) (logs : EvaluationRunID -> list IngestRequest) : Prop := {
  so_runs : runs_ok (sys_runs s);
  so_logs : forall id r, loadRun (sys_runs s) id = Ok r -> run_log (sys_evidence s) r (logs id);
  so_none : forall id, sys_runs s !! id = None -> no_rows (sys_evidence s) id /\ logs id = [];
}.

Definition holds_run (s : ingest_system) (request : IngestRequest) (run : EvaluationRun) : Prop :=
  request_ok request /\ run_reachable run /\
  exists r, loadRun (sys_runs s) (IR_RunID request) = Ok r /\ run_ids4 r = run_ids4 run.

Definition flight_ok (s : ingest_system) (logs : EvaluationRunID -> list IngestRequest) (f : in_flight) : Prop :=
  match f with
  | fl_run q run => holds_run s q run
  | fl_state q run d st =>
      holds_run s q run /\ RecordDigest (IR_Record q) = Ok d /\ nextSequence st = IR_Sequence q /\
      IR_Sequence q <= Z.of_nat (length (logs (IR_RunID q))) + 1
  | fl_commit q commit =>
      exists run, holds_run s q run /\ agg_runID (IC_Aggregate commit) = IR_RunID q /\
        PreviousNextSequence commit = IR_Sequence q /\
        IR_Sequence q <= Z.of_nat (length (logs (IR_RunID q))) + 1 /\
        (IR_Sequence q = Z.of_nat (length (logs (IR_RunID q))) + 1 ->
           exists a c os a' c' o d, accumulate run (logs (IR_RunID q)) = Ok (a, c, os) /\
             apply_evidence a c (Z.of_nat (length os) + 1) q = Ok (a', c', o) /\
             RecordDigest (IR_Record q) = Ok d /\ commit = next_commit (IR_Sequence q) d a' c' o)
  end.

Definition config_ok (s : ingest_system) (fs : list in_flight) (logs : EvaluationRunID -> list IngestRequest) : Prop :=
  sys_ok s logs /\ Forall (flight_ok s logs) fs.

Lemma sys_ok_run s logs id r : sys_ok s logs -> loadRun (sys_runs s) id = Ok r ->
  run_reachable r /\ run_id r = id /\ run_log (sys_evidence s) r (logs id).
Proof.
  intros [Hr Hl _] E. destruct (loadRun_Ok _ _ _ Hr E) as (? & ? & _). split_and!; try done. by apply Hl.
Qed.

Lemma evolve_sys_ok s logs t : sys_ok s logs -> runs_evolve (sys_runs s) t -> sys_ok (with_runs s t) logs.
Proof.
  intros Hs [V1 V2 V3]. pose proof Hs as [Hr Hl Hn]. split; cbn; [done| |].
  - intros id r' E. destruct (loadRun_Ok _ _ _ V1 E) as (Hr' & Hid & _). destruct (V3 _ _ E) as [(r & E' & Ei)|E'].
    + destruct (sys_ok_run _ _ _ _ Hs E') as (Hrr & _ & H). by apply (run_log_same _ r r').
    + destruct (Hn _ E') as [Hno ->]. apply rl_empty. by rewrite Hid.
  - intros id E. apply Hn. destruct (sys_runs s !! id) as [[stored order]|] eqn:E'; [|done]. exfalso.
    destruct (runs_ok_load _ _ _ _ Hr E') as (r & _ & _ & _ & _ & Hload). destruct (V2 _ _ Hload) as (r' & H' & _).
    unfold loadRun in H'. by rewrite E in H'.
Qed.

Lemma evolve_holds s t q run : runs_evolve (sys_runs s) t -> holds_run s q run -> holds_run (with_runs s t) q run.
Proof.
  intros [_ V2 _] (Hq & Hr & r & E & Ei). destruct (V2 _ _ E) as (r' & E' & Ei'). split; [done|]. split; [done|].
  exists r'. split; [done|congruence].
Qed.

Lemma evolve_config s fs logs t : config_ok s fs logs -> runs_evolve (sys_runs s) t -> config_ok (with_runs s t) fs logs.
Proof.
  intros [Hs Hf] Hv. split; [by apply evolve_sys_ok|]. eapply Forall_impl; [exact Hf|]. intros [q run|q run d st|q commit]; cbn.
  - by apply evolve_holds.
  - intros [H1 H2]. split; [by apply evolve_holds|done].
  - intros (run & H1 & H2). exists run. split; [by apply evolve_holds|done].
Qed.

Definition append_log (logs : EvaluationRunID -> list IngestRequest) (q : IngestRequest) (id : EvaluationRunID) : list IngestRequest :=
  if decide (id = IR_RunID q) then (logs id ++ [q])%list else logs id.

Lemma append_log_eq logs q : append_log logs q (IR_RunID q) = (logs (IR_RunID q) ++ [q])%list.
Proof. unfold append_log. by rewrite decide_True. Qed.
Lemma append_log_ne logs q id : id <> IR_RunID q -> append_log logs q id = logs id.
Proof. intros H. unfold append_log. by rewrite decide_False. Qed.

Lemma read_run_Ok runs q run : read_run runs q = Ok run ->
  loadRun runs (IR_RunID q) = Ok run /\ status run = RunRunning /\ run_profile run = IR_BehavioralProfile q.
Proof.
  intros H. unfold read_run in H. res_inv. subst. apply negb_false_iff, String.eqb_eq in Hok0, Hok1. done.
Qed.

Lemma holds_accumulate s logs q run : sys_ok s logs -> holds_run s q run ->
  exists r, loadRun (sys_runs s) (IR_RunID q) = Ok r /\ run_reachable r /\ run_id r = IR_RunID q /\
    run_log (sys_evidence s) r (logs (IR_RunID q)) /\ run_ids4 r = run_ids4 run /\
    forall log, accumulate r log = accumulate run log.
Proof.
  intros Hs (_ & Hr & r & E & Ei). destruct (sys_ok_run _ _ _ _ Hs E) as (Hrr & Hid & Hl).
  exists r. split_and!; try done. intros log. apply accumulate_same_run; [done|by apply reachable_binding..].
Qed.

(** The commit a call prepares is for the log it read, or its sequence is already taken. *)
Lemma prepare_ok s logs q run d st commit : sys_ok s logs -> flight_ok s logs (fl_state q run d st) ->
  prepare (sys_runs s) (sys_evidence s) run q d st = Ok commit -> flight_ok s logs (fl_commit q commit).
Proof.
  intros Hs (Hh & Hd & Hn & Hle) H. destruct (holds_accumulate _ _ _ _ Hs Hh) as (r & El & Hr & Hid & Hlog & Hids & Hacc).
  rewrite <- Hid in El. destruct (read_log _ _ _ _ El Hr Hlog) as (a & c & os & st' & Ha & Hev & Hlo & Hcur & _).
  assert (Hcur' : currentEvidence (sys_runs s) (sys_evidence s) run = Ok (a, c)).
  { unfold currentEvidence in *. pose proof Hids as [= E1 E2 E3 E4]. rewrite <- E1.
    destruct (loadEvidence (sys_runs s) (sys_evidence s) (run_id r)) as [[]|]; [done|].
    destruct (errors_is _ _); [|done]. unfold NewEvaluationAggregate, NewBehaviorCollector in *.
    rewrite !(reachable_binding run) by apply Hh. rewrite !(reachable_binding r) in Hcur by done. by rewrite <- E1, <- E2, <- E3, <- E4. }
  unfold prepare in H. rewrite Hcur' in H. res_inv. subst. res_inv.
  match goal with H : apply_evidence _ _ _ _ = Ok ?x |- _ => destruct x as [[a' c'] o] end. res_inv. subst.
  assert (Hap : apply_evidence a c (IR_Sequence q) q = Ok (a', c', o)) by done.
  exists run. split; [done|]. cbn [IC_Aggregate PreviousNextSequence]. split; [|split; [done|split; [done|]]].
  - apply apply_evidence_cases in Hap as (Hadd & _). apply AddRecord_identity in Hadd as (-> & _).
    pose proof (evidence_reachable_ok _ _ _ Hev) as He. destruct (ev_ids _ _ _ He) as (-> & _). done.
  - intros Heq. destruct (accumulate_evidence _ _ _ _ _ Hlo Ha) as (_ & _ & Hlen & _).
    exists a, c, os, a', c', o, d. rewrite <- Hacc. split; [done|]. rewrite Hlen, <- Heq. split; [done|].
    split; [done|]. unfold next_commit. by rewrite Hn.
Qed.

Lemma AlreadyCommitted_same runs t commit t' result : CommitEvaluationIngest runs t commit = Ok (t', result) ->
  (t' = t /\ CR_Disposition result = EvaluationIngestAlreadyCommitted /\
     exists st, ingestState runs t (agg_runID (IC_Aggregate commit)) = Ok st /\ nextSequence st = IC_Sequence commit + 1 /\
       lastDigest st = RecordDigest_ commit /\ CR_NextSequence result = nextSequence st) \/
  exists st, ingestState runs t (agg_runID (IC_Aggregate commit)) = Ok st /\ nextSequence st = PreviousNextSequence commit.
Proof.
  intros H. unfold CommitEvaluationIngest in H. res_inv.
  match goal with H : ingestState _ _ _ = Ok ?x |- _ => rename x into st; rename H into Hst end.
  destruct (Z.eqb_spec (nextSequence st) (PreviousNextSequence commit)) as [E|E]; cbn [negb] in H; [right; eauto|left].
  destruct ((_ =? _) && _)%go eqn:E2; [|done]. res_inv. subst. split; [done|]. split; [done|]. exists st. 
  apply andb_true_iff in E2 as [E2%Z.eqb_eq E3%String.eqb_eq]. unfold nextSequenceAfter in *. res_inv. subst. split_and!; done.
Qed.

(** Rows of one run written for its longer log keep the invariant. *)
Lemma committed_sys_ok s logs q r t' last : sys_ok s logs -> loadRun (sys_runs s) (IR_RunID q) = Ok r -> run_id r = IR_RunID q ->
  run_log t' r (logs (IR_RunID q) ++ [q]) -> (forall id, id <> run_id r -> same_rows (sys_evidence s) t' id) ->
  sys_ok {| sys_runs := sys_runs s; sys_evidence := t'; lastIngest := last |} (append_log logs q).
Proof.
  intros Hs El Hrid Hl2 Hfr. pose proof Hs as [S1 S2 S3]. split; cbn; [done| |].
  - intros id r0 E0. destruct (decide (id = IR_RunID q)) as [->|Hne].
    + rewrite append_log_eq. rewrite El in E0. injection E0 as <-. done.
    + rewrite append_log_ne by done. destruct (sys_ok_run _ _ _ _ Hs E0) as (_ & Hid0 & Hl0).
      apply (run_log_frame (sys_evidence s)); [|done]. apply Hfr. rewrite Hid0, Hrid. done.
  - intros id E0. assert (Hne : id <> IR_RunID q).
    { intros ->. unfold loadRun in El. by rewrite E0 in El. }
    rewrite append_log_ne by done. destruct (S3 _ E0) as [Hno ->]. split; [|done].
    destruct (Hfr id) as (F1 & F2 & F3 & F4 & F5); [by rewrite Hrid|]. unfold no_rows in *. by rewrite F1, F2, F3, F4, F5.
Qed.

Lemma commit_flight_ok s logs q commit s' result l : config_ok s (fl_commit q commit :: l) logs ->
  commit_record s q commit = Ok (s', result) -> recordCount (IC_Aggregate commit) < 2 ^ 53 ->
  (sys_evidence s' = sys_evidence s /\ sys_runs s' = sys_runs s /\ IRes_Disposition result = IngestReplayed) \/
  (sys_ok s' (append_log logs q) /\ sys_runs s' = sys_runs s /\ IRes_Disposition result = IngestApplied).
Proof.
  intros [Hs Hf] H Hsmall. apply Forall_cons in Hf as [(run & Hh & Hid & Hprev & Hle & Hnext) _].
  unfold commit_record in H. res_inv. destruct a as [t' committed]. res_inv. subst s' result. cbn [sys_evidence sys_runs IRes_Disposition].
  destruct (holds_accumulate _ _ _ _ Hs Hh) as (r & El & Hr & Hrid & Hlog & Hids & Hacc). rewrite <- Hrid in El.
  destruct (AlreadyCommitted_same _ _ _ _ _ Hok) as [(-> & -> & _)|(st & Hst & Hcas)]; [by left|right].
  destruct (read_log _ _ _ _ El Hr Hlog) as (a0 & c0 & os0 & st' & _ & _ & Hlo & _ & Hst' & Hn' & _).
  rewrite Hid, <- Hrid, Hst' in Hst. injection Hst as <-. rewrite Hn', Hprev in Hcas.
  destruct (Hnext (eq_sym Hcas)) as (a & c & os & a' & c' & o & d & Ha & Hap & Hd & ->). rewrite <- Hacc in Ha.
  assert (Hok' : log_ok (logs (IR_RunID q) ++ [q])).
  { destruct Hlo as [L1 L2]. split; [apply Forall_app; split; [done|by constructor; [apply Hh|]]|].
    destruct (accumulate_evidence _ _ _ _ _ (conj L1 L2) Ha) as (Hev & Hc & _). cbn [IC_Aggregate next_commit] in Hsmall.
    apply apply_evidence_cases in Hap as (Hadd & _). apply AddRecord_count in Hadd as (Hc' & _).
    rewrite Hc', Hc in Hsmall. unfold incr in Hsmall. rewrite u64_small in Hsmall by (unfold is_u64, max_u64; lia).
    rewrite length_app. cbn [length]. lia. }
  rewrite <- Hcas in Hok. destruct (commit_next _ _ r _ q a c os a' c' o d El Hr Hlog Hok' Ha Hap Hd) as [C1 C2].
  destruct (decide (status r = RunRunning)) as [Hrun|Hrun]; [|by rewrite C1 in Hok].
  destruct (C2 Hrun) as (t2 & res2 & Hc & Hl2 & Hfr & Hdisp & _). rewrite Hc in Hok. injection Hok as <- <-. rewrite Hdisp.
  split; [|done]. rewrite Hrid in El. by apply (committed_sys_ok s logs q r).
Qed.

Lemma append_flight s s' logs q f : sys_ok s logs -> sys_runs s' = sys_runs s -> flight_ok s logs f ->
  flight_ok s' (append_log logs q) f.
Proof.
  intros Hs E. assert (Hh : forall q' run, holds_run s q' run -> holds_run s' q' run) by (intros ? ?; unfold holds_run; by rewrite E).
  assert (Hlen : forall id, logs id = append_log logs q id \/ length (append_log logs q id) = S (length (logs id))).
  { intros id. unfold append_log. destruct (decide _); [right; rewrite length_app; cbn; lia|by left]. }
  destruct f as [q' run|q' run d st|q' commit]; cbn; [by apply Hh| |].
  - intros (H1 & H2 & H3 & H4). split; [by apply Hh|]. split; [done|]. split; [done|].
    destruct (Hlen (IR_RunID q')) as [<-| ->]; lia.
  - intros (run & H1 & H2 & H3 & H4 & H5). exists run. split; [by apply Hh|]. split; [done|]. split; [done|].
    destruct (Hlen (IR_RunID q')) as [<-|Hl]; [done|]. rewrite Hl. split; lia.
Qed.

Lemma flight_at s logs f l1 l2 : config_ok s (l1 ++ f :: l2) logs ->
  flight_ok s logs f /\ Forall (flight_ok s logs) (l1 ++ l2) /\
  forall f', flight_ok s logs f' -> config_ok s (l1 ++ f' :: l2) logs.
Proof.
  intros [Hs Hf]. apply Forall_app in Hf as [H1 H2]. apply Forall_cons in H2 as [H2 H3]. split; [done|].
  split; [by apply Forall_app|]. intros f' H'. split; [done|]. apply Forall_app. split; [done|]. by constructor.
Qed.

(** Every step keeps the invariant; it appends at most one request to one log. *)
Lemma step_config s fs s' fs' logs : config_ok s fs logs -> ingest_step (s, fs) (s', fs') ->
  exists logs', config_ok s' fs' logs' /\ forall id, exists more, logs' id = (logs id ++ more)%list.
Proof.
  intros Hc H. assert (Hsame : forall id, exists more, logs id = (logs id ++ more)%list) by (intros; exists []; by rewrite app_nil_r).
  inversion H as [s1 f1 q run Hq Hread|s1 l1 l2 q run d st Hd Hst Hck|s1 l1 l2 q run d st commit Hp
    |s1 l1 l2 q commit s2 result Hcm Hsmall|s1 l1 l2 f|s1 f1 cands run t Hr Ht|s1 f1 prev next t Hpr Hn Ht]; subst.
  - exists logs. split; [|done]. destruct Hc as [Hs Hf]. split; [done|]. constructor; [|done]. cbn.
    destruct (read_run_Ok _ _ _ Hread) as (El & _). destruct (sys_ok_run _ _ _ _ Hs El) as (Hr & _). by split_and!; eauto.
  - destruct (flight_at _ _ _ _ _ Hc) as (Hh & _ & Hput). exists logs. split; [|done]. apply Hput. cbn in *.
    split; [done|]. split; [done|]. destruct Hc as [Hs _]. destruct (holds_accumulate _ _ _ _ Hs Hh) as (r & El & Hr & Hid & Hlog & _).
    rewrite <- Hid in El. destruct (read_log _ _ _ _ El Hr Hlog) as (a & c & os & st' & _ & _ & _ & _ & Hst' & Hn' & _).
    rewrite Hid in Hst'. rewrite Hst' in Hst. injection Hst as <-. unfold check_sequence in Hck.
    destruct (Z.eqb_spec (IR_Sequence q) (nextSequence st')) as [E|E]; [lia|].
    destruct (_ =? _); [destruct (_ && _)|]; done.
  - destruct (flight_at _ _ _ _ _ Hc) as (Hh & _ & Hput). exists logs. split; [|done]. apply Hput.
    destruct Hc as [Hs _]. by apply (prepare_ok _ _ _ run d st).
  - destruct (flight_at _ _ _ _ _ Hc) as (Hh & Hrest & _). destruct Hc as [Hs _].
    destruct (commit_flight_ok s logs q commit s' result nil) as [(E1 & E2 & _)|(Hs' & E2 & _)]; try done.
    { split; [done|]. by constructor. }
    + exists logs. split; [|done]. destruct s, s'. cbn in *. subst. split; [by destruct Hs|]. exact Hrest.
    + exists (append_log logs q). split; [|intros id; unfold append_log; destruct (decide _); eauto].
      split; [done|]. eapply Forall_impl; [exact Hrest|]. intros f. by apply append_flight.
  - destruct (flight_at _ _ _ _ _ Hc) as (_ & Hrest & _). exists logs. split; [|done]. by split; [apply Hc|].
  - exists logs. split; [|done]. apply evolve_config; [done|]. destruct Hc as [[S1 _ _] _]. by apply (create_evolves _ _ _ _ S1 Hr) in Ht as (? & _).
  - exists logs. split; [|done]. apply evolve_config; [done|]. destruct Hc as [[S1 _ _] _]. by apply (update_evolves _ _ _ _ S1 Hn) in Ht.
Qed.

Lemma empty_config : config_ok empty_system [] (fun _ => []).
Proof.
  split; [|done]. split; cbn.
  - intros id stored order E. by rewrite lookup_empty in E.
  - intros id r E. by cbn in E.
  - intros id _. done.
Qed.

Lemma reachable_config s fs : ingest_reachable s fs -> exists logs, config_ok s fs logs.
Proof.
  intros H. refine (rtc_ind_r (R := ingest_step) (fun x => exists logs, config_ok x.1 x.2 logs) (empty_system, [])
    (ex_intro _ _ empty_config) _ (s, fs) H).
  intros [s1 f1] [s2 f2] _ Hstep [logs Hc]. destruct (step_config _ _ _ _ _ Hc Hstep) as (logs' & Hc' & _). by exists logs'.
Qed.

Lemma log_history t r log os a c : log_ok log -> run_log t r log -> accumulate r log = Ok (a, c, os) ->
  Store_observationHistoryFor t (run_id r) =
  Ok (observationHistoryFor (foldl retainObservation no_history os) (Z.of_nat (length log))).
Proof.
  intros Hok H Ha. unfold Store_observationHistoryFor, loadObservationHistoryRow.
  rewrite (stored_history _ _ _ _ _ _ H Ha). destruct (retained_history _ _ _ _ _ Hok Ha) as [-> _].
  cbn [fail_if mbind res_bind]. unfold observationRecordCount.
  destruct (accumulate_evidence _ _ _ _ _ Hok Ha) as (Hev & Hc & _).
  destruct H as [(-> & _)|l q a0 c0 os0 m d _ Ha0 _ -> _ _ _ _ _]; [done|]. rewrite Ha in Ha0. injection Ha0 as <- <- <-.
  unfold aggregateInsertArgs. cbn [ar_recordCount]. rewrite parseUint64Text_format; [cbn; by rewrite Hc|].
  rewrite Hc. destruct Hok as [_ Hn]. unfold is_u64, max_u64. lia.
Qed.

(** C1: in every state any interleaving of the steps reaches, the stored evidence of a run is
    what one pass over some log of requests, numbered from 1 without a gap, makes of it: the
    aggregate and the snapshot that load, the cursor, the count, the digest of the last record
    and the retained observations all belong to the same log. *)
Theorem ingest_serializable s fs id r : ingest_reachable s fs -> loadRun (sys_runs s) id = Ok r ->
  exists log a c os st, accumulate r log = Ok (a, c, os) /\
    (Sequence <$> os) = seqZ 1 (Z.of_nat (length log)) /\
    ingestState (sys_runs s) (sys_evidence s) id = Ok st /\
    nextSequence st = Z.of_nat (length log) + 1 /\ is_recordCount st = Z.of_nat (length log) /\
    Store_observationHistoryFor (sys_evidence s) id =
      Ok (observationHistoryFor (foldl retainObservation no_history os) (Z.of_nat (length log))) /\
    match last log with
    | None => loadEvidence (sys_runs s) (sys_evidence s) id = Err [ErrStoreNotFound] /\ lastDigest st = ""
    | Some q => loadEvidence (sys_runs s) (sys_evidence s) id = Ok (a, Snapshot c) /\
                RecordDigest (IR_Record q) = Ok (lastDigest st)
    end.
Proof.
  intros H Hl. destruct (reachable_config _ _ H) as [logs [Hs _]].
  destruct (sys_ok_run _ _ _ _ Hs Hl) as (Hr & <- & Hlog).
  destruct (read_log _ _ _ _ Hl Hr Hlog) as (a & c & os & st & Ha & _ & Hok & _ & Hst & Hn & Hc & _ & Hnone & Hsome).
  destruct (accumulate_evidence _ _ _ _ _ Hok Ha) as (_ & _ & Hlen & Hseq). rewrite Hlen in Hseq.
  exists (logs (run_id r)), a, c, os, st. split; [done|]. split; [done|]. split; [done|]. split; [done|].
  split; [done|]. split; [by apply (log_history _ _ _ _ a c)|].
  destruct (logs (run_id r)) as [|q log _] using rev_ind; [by apply Hnone|]. rewrite last_snoc. by apply (Hsome log q).
Qed.

(** A request prepared on the log it continues commits it. *)
Lemma commit_prepared s logs q r d st commit : config_ok s [] logs -> request_ok q ->
  read_run (sys_runs s) q = Ok r -> RecordDigest (IR_Record q) = Ok d ->
  ingestState (sys_runs s) (sys_evidence s) (IR_RunID q) = Ok st -> IR_Sequence q = nextSequence st ->
  is_recordCount st + 1 < 2 ^ 53 -> prepare (sys_runs s) (sys_evidence s) r q d st = Ok commit ->
  exists s' result st', commit_record s q commit = Ok (s', result) /\ config_ok s' [] (append_log logs q) /\
    sys_runs s' = sys_runs s /\
    result = {| IRes_Disposition := IngestApplied; IRes_NextSequence := nextSequence st + 1;
                IRes_RecordCount := is_recordCount st + 1; IRes_BehaviorComplete := behaviorComplete st' |} /\
    ingestState (sys_runs s') (sys_evidence s') (IR_RunID q) = Ok st' /\ nextSequence st' = nextSequence st + 1 /\
    is_recordCount st' = is_recordCount st + 1 /\ lastDigest st' = d.
Proof.
  intros [Hs Hf] Hq Hread Hd Hst Hseq Hsmall Hp. destruct (read_run_Ok _ _ _ Hread) as (El & Hrun & _).
  destruct (sys_ok_run _ _ _ _ Hs El) as (Hr & Hrid & Hlog). 
  assert (Hh : holds_run s q r) by (by split_and!; eauto). pose proof El as El'. rewrite <- Hrid in El.
  destruct (read_log _ _ _ _ El Hr Hlog) as (a0 & c0 & os0 & st0 & Ha0 & _ & Hlo & _ & Hst0 & Hn0 & Hc0 & _).
  rewrite Hrid, Hst in Hst0. injection Hst0 as <-. rewrite Hn0 in Hseq.
  destruct (prepare_ok s logs q r d st commit) as (run & Hh' & _ & _ & _ & Hnext); [done| |done|].
  { split; [done|]. split; [done|]. split; [by rewrite Hn0|lia]. }
  destruct (holds_accumulate _ _ _ _ Hs Hh') as (r' & El2 & _ & _ & _ & _ & Hacc). rewrite El' in El2. injection El2 as <-.
  destruct (Hnext Hseq) as (a & c & os & a' & c' & o & d' & Ha & Hap & Hd' & ->). rewrite Hd in Hd'. injection Hd' as <-.
  rewrite <- Hacc in Ha. assert (Hok : log_ok (logs (IR_RunID q) ++ [q])).
  { destruct Hlo as [L1 L2]. split; [apply Forall_app; split; [done|by constructor]|]. rewrite length_app. cbn [length]. lia. }
  destruct (commit_next _ _ r _ q a c os a' c' o d El Hr Hlog Hok Ha Hap Hd) as [_ C].
  destruct (C Hrun) as (t' & res & Hc & Hlog' & Hfr & Hdisp & Hnx & Hct & Hbc). rewrite <- Hseq in Hc.
  destruct (read_log _ t' r _ El Hr Hlog') as (a1 & c1 & os1 & st' & Ha1 & _ & _ & _ & Hst' & Hn' & Hc' & Hb' & _ & Hl').
  rewrite length_app in Hn', Hc'. cbn [length] in Hn', Hc'. rewrite Nat2Z.inj_add in Hn', Hc'.
  assert (c1 = c') as ->.
  { rewrite accumulate_snoc, Ha in Ha1. cbn [mbind res_bind accumulate_step] in Ha1. rewrite Hap in Ha1. by injection Ha1. }
  destruct (Hl' _ _ eq_refl) as [_ Hd1]. rewrite Hd in Hd1. injection Hd1 as Hd1.
  unfold commit_record. rewrite Hc. cbn [mbind res_bind]. rewrite Hdisp, Hnx, Hct, Hbc. rewrite Hrid in Hst'.
  eexists _, _, st'. split; [reflexivity|]. cbn [sys_runs sys_evidence]. split; [|split; [done|split; [|split; [done|]]]].
  - split; [|done]. by apply (committed_sys_ok s logs q r).
  - f_equal; [lia..|done].
  - split; [lia|]. split; [lia|done].
Qed.

Lemma check_sequence_last q d st : IR_Sequence q <> nextSequence st -> is_u64 (IR_Sequence q) ->
  1 <= nextSequence st <= max_u64 -> d <> "" ->
  check_sequence q d st =
  if (IR_Sequence q + 1 =? nextSequence st) && (lastDigest st =s d) then
    Ok (Some {| IRes_Disposition := IngestReplayed; IRes_NextSequence := nextSequence st;
                IRes_RecordCount := is_recordCount st; IRes_BehaviorComplete := behaviorComplete st |})
  else Err [ErrIngestSequence].
Proof.
  intros Hn Hu H1 Hd. unfold check_sequence. rewrite (proj2 (Z.eqb_neq _ _) Hn).
  assert ((u64 (IR_Sequence q + 1) =? nextSequence st) = (IR_Sequence q + 1 =? nextSequence st)) as ->.
  { destruct (Z.eq_dec (IR_Sequence q) max_u64) as [->|]; [|by rewrite u64_small by (unfold is_u64, max_u64 in *; lia)].
    unfold is_u64, max_u64 in *. change (u64 (18446744073709551615 + 1)) with 0.
    by rewrite !(proj2 (Z.eqb_neq _ _)) by lia. }
  destruct (_ =? _); [|done]. cbn [andb]. destruct (String.eqb_spec (lastDigest st) d) as [->|]; [|by rewrite andb_false_r].
  by rewrite (proj2 (String.eqb_neq d "") Hd).
Qed.

(** C2: a record is counted exactly once. In every reachable state, for a request to a running
    run with the right profile: one that carries the next sequence number either fails without
    a trace, for the reason its evidence cannot be made, or is applied - the cursor and the
    count advance by one, and sending the same request again is answered from the stored state
    and changes nothing; one that carries the last number is answered that way when its digest
    is the stored one; every other number is refused. *)
Theorem ingest_exactly_once s fs q r d st : ingest_reachable s fs -> request_ok q ->
  read_run (sys_runs s) q = Ok r -> RecordDigest (IR_Record q) = Ok d ->
  ingestState (sys_runs s) (sys_evidence s) (IR_RunID q) = Ok st ->
  is_recordCount st + 1 < 2 ^ 53 -> is_u64 (IR_Sequence q) ->
  let replayed st := {| IRes_Disposition := IngestReplayed; IRes_NextSequence := nextSequence st;
                        IRes_RecordCount := is_recordCount st; IRes_BehaviorComplete := behaviorComplete st |} in
  (IR_Sequence q = nextSequence st ->
     (exists e, prepare (sys_runs s) (sys_evidence s) r q d st = Err e /\ IngestDecisionRecord s q = Err e) \/
     (exists s' st', IngestDecisionRecord s q =
          Ok (s', {| IRes_Disposition := IngestApplied; IRes_NextSequence := nextSequence st + 1;
                     IRes_RecordCount := is_recordCount st + 1; IRes_BehaviorComplete := behaviorComplete st' |}) /\
        ingestState (sys_runs s') (sys_evidence s') (IR_RunID q) = Ok st' /\
        nextSequence st' = nextSequence st + 1 /\ is_recordCount st' = is_recordCount st + 1 /\
        IngestDecisionRecord s' q = Ok (s', replayed st'))) /\
  (IR_Sequence q + 1 = nextSequence st ->
     IngestDecisionRecord s q = if lastDigest st =s d then Ok (s, replayed st) else Err [ErrIngestSequence]) /\
  (IR_Sequence q <> nextSequence st -> IR_Sequence q + 1 <> nextSequence st ->
     IngestDecisionRecord s q = Err [ErrIngestSequence]).
Proof.
  intros H Hq Hread Hd Hst Hsmall Hu replayed. destruct (reachable_config _ _ H) as [logs [Hs _]].
  destruct (digest_persisted _ _ Hd) as [_ Hne]. assert (Hc : config_ok s [] logs) by by split.
  assert (Hcall : forall s' st', sys_runs s' = sys_runs s ->
    ingestState (sys_runs s') (sys_evidence s') (IR_RunID q) = Ok st' ->
    IngestDecisionRecord s' q = (answered ← check_sequence q d st';
      match answered with
      | Some result => Ok (s', result)
      | None => commit ← prepare (sys_runs s') (sys_evidence s') r q d st'; commit_record s' q commit
      end)).
  { intros s' st' E Hst'. unfold IngestDecisionRecord. rewrite E, Hread, Hd. rewrite E in Hst'. cbn [mbind res_bind].
    by rewrite Hst'. }
  assert (Hnext : 1 <= nextSequence st < 2 ^ 53 + 1).
  { destruct (read_run_Ok _ _ _ Hread) as (El & _). destruct (sys_ok_run _ _ _ _ Hs El) as (Hr & Hrid & Hlog).
    rewrite <- Hrid in El. destruct (read_log _ _ _ _ El Hr Hlog) as (? & ? & ? & st0 & _ & _ & Hlo & _ & Hst0 & Hn0 & _).
    rewrite Hrid, Hst in Hst0. injection Hst0 as <-. destruct Hlo. lia. }
  rewrite (Hcall s st) by done. split; [|split].
  - intros Hseq. assert (check_sequence q d st = Ok None) as ->.
    { unfold check_sequence. by rewrite (proj2 (Z.eqb_eq _ _) Hseq). }
    cbn [mbind res_bind]. destruct (prepare _ _ r q d st) as [commit|e] eqn:Hp; [right|left; by exists e]. cbn [mbind res_bind].
    destruct (commit_prepared s logs q r d st commit) as (s' & result & st' & -> & _ & E & -> & Hst' & Hn' & Hc' & Hd'); try done.
    exists s', st'. split_and!; try done. rewrite (Hcall s' st') by done.
    rewrite check_sequence_last; [|lia|done|unfold max_u64; lia|done].
    by rewrite (proj2 (Z.eqb_eq (IR_Sequence q + 1) _)), Hd', String.eqb_refl by lia.
  - intros Hseq. rewrite check_sequence_last; [|lia|done|unfold max_u64; lia|done].
    rewrite (proj2 (Z.eqb_eq _ _) Hseq). cbn [andb]. by destruct (_ =s _).
  - intros H1 H2. rewrite check_sequence_last; [|lia|done|unfold max_u64; lia|done].
    by rewrite (proj2 (Z.eqb_neq _ _) H2).
Qed.
End ingest.

(** ** Witnesses *)
Definition example_digest (_ : DecisionRecord) : res string :=
  Ok "0123456789abcdef0123456789abcdef0123456789abcdef0123456789abcdef".
Definition with_environment (run : EvaluationRun) (env : string) : EvaluationRun :=
  {| run_id := run_id run; run_candidateID := run_candidateID run; run_environment := env; run_profile := run_profile run;
     status := status run; createdAt := createdAt run; startedAt := startedAt run; finishedAt := finishedAt run;
     failureReason := failureReason run |}.
Definition example_pending : EvaluationRun := with_environment pending_example "prod".
Definition example_running : EvaluationRun := with_environment running_example "prod".
Definition example_request : IngestRequest :=
  {| IR_RunID := "run-1"; IR_Sequence := 1; IR_BehavioralProfile := "default"; IR_Fidelity := F_Fidelity example_facts;
     IR_BehaviorLayer := F_Layer example_facts; IR_Operational := example_facts; ReceivedAt := Time (unix_epoch + 3000) 0;
     IR_Record := example_record "1500" "ok" |}.

Definition ok_or {A} (d : A) (r : res A) : A := match r with Ok x => x | Err _ => d end.
Definition example_runs : run_table :=
  ok_or ∅ (t ← Store_CreateEvaluationRun {["cand-1" := tt]} ∅ example_pending; UpdateEvaluationRun t example_pending example_running).
Definition example_system : ingest_system := with_runs empty_system example_runs.
Definition example_after : ingest_system :=
  ok_or (empty_system) (r ← IngestDecisionRecord example_digest example_system example_request; Ok r.1).

Lemma example_digest_shape record d : example_digest record = Ok d -> validateDigestShape d = Ok tt.
Proof. intros [= <-]. by vm_compute. Qed.

Lemma example_system_reachable : ingest_reachable example_digest example_system [].
Proof.
  assert (H0 : run_reachable example_pending).
  { apply (reach_new "run-1" "cand-1" "prod" "default" (Time (unix_epoch + 1000) 0)). by vm_compute. }
  assert (H1 : run_reachable example_running).
  { apply (reach_step _ _ H0). apply (step_start _ (Time (unix_epoch + 2000) 0)). by vm_compute. }
  unfold example_system, example_runs.
  destruct (Store_CreateEvaluationRun {["cand-1" := tt]} ∅ example_pending) as [t|] eqn:Ec; [|by vm_compute in Ec].
  destruct (UpdateEvaluationRun t example_pending example_running) as [t'|] eqn:Eu;
    [|vm_compute in Ec; injection Ec as <-; by vm_compute in Eu].
  cbn [mbind res_bind]. rewrite Eu. cbn [ok_or].
  eapply rtc_l; [exact (is_create _ empty_system [] _ _ t H0 Ec)|].
  eapply rtc_l; [exact (is_update _ (with_runs empty_system t) [] _ _ t' H0 H1 Eu)|]. apply rtc_refl.
Qed.

Lemma example_read : read_run (sys_runs example_system) example_request = Ok example_running.
Proof. by vm_compute. Qed.

Lemma ingest_exactly_once_witness :
  exists s' st', IngestDecisionRecord example_digest example_system example_request =
    Ok (s', {| IRes_Disposition := IngestApplied; IRes_NextSequence := 2; IRes_RecordCount := 1;
               IRes_BehaviorComplete := behaviorComplete st' |}) /\ nextSequence st' = 2.
Proof.
  destruct (ingestState (sys_runs example_system) (sys_evidence example_system) "run-1") as [st|] eqn:Est; [|by vm_compute in Est].
  assert (Hn : nextSequence st = 1 /\ is_recordCount st = 0) by (vm_compute in Est; by injection Est as <-). destruct Hn as [Hn Hc].
  assert (Hq : request_ok example_request) by by repeat split.
  destruct (ingest_exactly_once example_digest example_digest_shape example_system [] example_request example_running _ st
    example_system_reachable Hq example_read eq_refl Est ltac:(by rewrite Hc) ltac:(done)) as (H & _ & _).
  destruct H as [(e & He & _)|(s' & st' & H & _ & Hn' & _)]; [by rewrite Hn| |].
  - vm_compute in Est. injection Est as <-. by vm_compute in He.
  - exists s', st'. rewrite Hn in H, Hn'. rewrite Hc in H. by split.
Defined.

Lemma commit_record_count s q commit s' result : commit_record s q commit = Ok (s', result) ->
  s' = s \/ IRes_RecordCount result = recordCount (IC_Aggregate commit).
Proof.
  intros H. unfold commit_record, CommitEvaluationIngest in H. res_inv.
  match goal with H : (if ?b then _ else _) = Ok ?x |- _ => destruct b; [destruct (_ && _)%go; [left|]|right] end;
    res_inv; subst; res_inv.
  - subst. by destruct s.
  - match goal with x : (evidence_tables * _)%type |- _ => destruct x end. res_inv. subst. res_inv. by subst.
Qed.

(** A call that runs alone is a run of the steps. *)
Lemma call_steps RecordDigest s q s' result : request_ok q -> IngestDecisionRecord RecordDigest s q = Ok (s', result) ->
  IRes_RecordCount result < 2 ^ 53 -> rtc (ingest_step RecordDigest) (s, []) (s', []).
Proof.
  intros Hq H Hsmall. unfold IngestDecisionRecord in H. res_inv.
  match goal with H : (match ?x with Some _ => _ | None => _ end) = Ok _ |- _ => destruct x as [answer|] end.
  { res_inv. subst. apply rtc_refl. }
  res_inv. match goal with H : commit_record _ _ _ = _ |- _ => rename H into Hcm end.
  destruct (commit_record_count _ _ _ _ _ Hcm) as [->|Hc]; [apply rtc_refl|].
  eapply rtc_l; [by eapply is_read|]. eapply rtc_l; [by eapply (is_state _ _ [] [])|].
  eapply rtc_l; [by eapply (is_prepare _ _ [] [])|]. apply rtc_once. eapply (is_commit _ _ [] []); [exact Hcm|lia].
Qed.

Lemma example_after_reachable : ingest_reachable example_digest example_after [].
Proof.
  unfold example_after. destruct (IngestDecisionRecord example_digest example_system example_request) as [[s' result]|] eqn:E;
    [|exfalso; by vm_compute in E].
  cbn [mbind res_bind ok_or fst]. unfold ingest_reachable. etrans; [exact example_system_reachable|].
  apply (call_steps example_digest example_system example_request s' result); [by repeat split|done|].
  assert (IRes_RecordCount result = 1) as ->; [|done].
  assert (Hv : (r ← IngestDecisionRecord example_digest example_system example_request; Ok (IRes_RecordCount r.2)) = Ok 1) by by vm_compute.
  rewrite E in Hv. cbn in Hv. by injection Hv.
Qed.

Lemma ingest_serializable_witness : exists st, is_recordCount st = 1 /\ nextSequence st = 2 /\
  ingestState (sys_runs example_after) (sys_evidence example_after) "run-1" = Ok st.
Proof.
  assert (Hl : loadRun (sys_runs example_after) "run-1" = Ok example_running) by by vm_compute.
  destruct (ingest_serializable example_digest example_digest_shape example_after [] "run-1" example_running
    example_after_reachable Hl) as (log & a & c & os & st & _ & _ & Hst & Hn & Hc & _).
  exists st. assert (Hv : (st ← ingestState (sys_runs example_after) (sys_evidence example_after) "run-1"; Ok (nextSequence st)) = Ok 2)
    by by vm_compute.
  rewrite Hst in Hv. cbn in Hv. injection Hv as Hv. rewrite Hn in Hv. split; [lia|]. split; [lia|done].
Defined.
