(* ===== verification/Provenance.v ===== *)
(** * Package platform: what a scenario execution ran with (scenario_provenance.go, sameness.go)

    The declared provenance of each side, its nullable columns, and whether two sides ran the
    same scenario, inputs, model and prompt. *)
From Stdlib Require Import Ascii.
From S2P Require Import Prelude GoText Domain.

Open Scope string_scope.
Open Scope Z_scope.

Definition ComparisonSide := string.
Definition SideReference : ComparisonSide := "reference".
Definition SideCandidate : ComparisonSide := "candidate".

(** ** The two patterns *)
Definition is_alphanumeric (a : ascii) : bool := in_range 65 90 a || in_range 97 122 a || in_range 48 57 a.
(** [A-Za-z0-9._:/@+-] *)
Definition is_identifier_byte (a : ascii) : bool :=
  is_alphanumeric a || existsb (fun c => byte_of a =? c) [46; 95; 58; 47; 64; 43; 45].

Definition provenanceDigestPattern (s : string) : bool :=
  String.prefix "sha256:" s &&
  (let digits := String.substring 7 (String.length s - 7) s in (len digits =? 64) && forall_bytes is_hex_digit digits).
Definition provenanceIdentifierPattern (s : string) : bool :=
  match s with
  | EmptyString => false
  | String a rest => is_alphanumeric a && forall_bytes is_identifier_byte rest && (len rest <=? 127)
  end.

(** ** Declarations *)
Record PromptRef : Type := { PR_Name : string; PR_Digest : string }.
#[export] Instance prompt_ref_eq_dec : EqDecision PromptRef.
Proof. solve_decision. Defined.
Definition no_prompt : PromptRef := {| PR_Name := ""; PR_Digest := "" |}.
Definition Stated (p : PromptRef) : bool := bool_decide (p <> no_prompt).

Record SideDeclaration : Type := { SD_Model : string; SD_PromptRef : PromptRef }.
#[export] Instance side_declaration_eq_dec : EqDecision SideDeclaration.
Proof. solve_decision. Defined.
Definition no_declaration : SideDeclaration := {| SD_Model := ""; SD_PromptRef := no_prompt |}.

Record SideProvenance : Type := {
  ScenarioDigest : string;
  InputsDeclared : bool;
  InputDigest : string;
  Declaration : SideDeclaration;
}.
#[export] Instance side_provenance_eq_dec : EqDecision SideProvenance.
Proof. solve_decision. Defined.
Definition no_provenance : SideProvenance :=
  {| ScenarioDigest := ""; InputsDeclared := false; InputDigest := ""; Declaration := no_declaration |}.
Definition ScenarioRecorded (p : SideProvenance) : bool := ScenarioDigest p <>s "".

Record ExecutionProvenance : Type := {
  EP_ScenarioDigest : string;
  EP_InputsDeclared : bool;
  EP_InputDigest : string;
  EP_Reference : SideDeclaration;
  EP_Candidate : SideDeclaration;
}.
Definition ExecutionProvenance_side (p : ExecutionProvenance) (d : SideDeclaration) : SideProvenance :=
  {| ScenarioDigest := EP_ScenarioDigest p; InputsDeclared := EP_InputsDeclared p;
     InputDigest := EP_InputDigest p; Declaration := d |}.

Definition SideProvenance_validate (p : SideProvenance) : res unit :=
  (if ScenarioDigest p =s "" then fail_if (InputsDeclared p || (InputDigest p <>s "")) [ErrInvalidRepeatedRequest]
   else fail_if (negb (provenanceDigestPattern (ScenarioDigest p))) [ErrInvalidRepeatedRequest]);;
  fail_if (negb (Bool.eqb (InputsDeclared p) (InputDigest p <>s ""))) [ErrInvalidRepeatedRequest];;
  fail_if ((InputDigest p <>s "") && negb (provenanceDigestPattern (InputDigest p))) [ErrInvalidRepeatedRequest];;
  let model := SD_Model (Declaration p) in let prompt := SD_PromptRef (Declaration p) in
  fail_if ((model <>s "") && negb (provenanceIdentifierPattern model)) [ErrInvalidRepeatedRequest];;
  if Stated prompt then
    fail_if (negb (provenanceIdentifierPattern (PR_Name prompt))) [ErrInvalidRepeatedRequest];;
    fail_if (negb (provenanceDigestPattern (PR_Digest prompt))) [ErrInvalidRepeatedRequest]
  else Ok tt.

Definition ExecutionProvenance_validate (p : ExecutionProvenance) : res unit :=
  foldM (fun _ side => SideProvenance_validate side) tt
    [ExecutionProvenance_side p (EP_Reference p); ExecutionProvenance_side p (EP_Candidate p)].

(** ** Columns: NULL for what is not stated *)
Definition null_text (s : string) : option string := if s =s "" then None else Some s.
Definition column_text (c : option string) : string := default "" c.

Definition provenanceColumnValues (p : SideProvenance) : list (option string) :=
  [null_text (ScenarioDigest p); null_text (InputDigest p); null_text (SD_Model (Declaration p));
   null_text (PR_Name (SD_PromptRef (Declaration p))); null_text (PR_Digest (SD_PromptRef (Declaration p)))].

Definition sideProvenanceFromColumns (c : list (option string)) : SideProvenance :=
  let col i := nth i c None in
  {| ScenarioDigest := column_text (col 0%nat); InputDigest := column_text (col 1%nat);
     InputsDeclared := match col 1%nat with Some _ => true | None => false end;
     Declaration := {| SD_Model := column_text (col 2%nat);
                       SD_PromptRef := {| PR_Name := column_text (col 3%nat); PR_Digest := column_text (col 4%nat) |} |} |}.

(** A stored column is never the empty string (both loaders). *)
Definition empty_column (c : option string) : bool := match c with Some s => s =s "" | None => false end.

(** ** Sameness *)
Definition SamenessState := string.
Definition SameTrue : SamenessState := "true".
Definition SameFalse : SamenessState := "false".
Definition SameNotRecorded : SamenessState := "not_recorded".

Record ComparisonSameness : Type := {
  SameScenario : SamenessState;
  SameInputs : SamenessState;
  SameModel : SamenessState;
  SamePromptRef : SamenessState;
  SN_Reference : SideProvenance;
  SN_Candidate : SideProvenance;
}.
Record ComparisonWarning : Type := { CW_Code : string; CW_Text : string }.
Definition WarningScenarioDiffers : string := "scenario_differs".
Definition WarningInputsDiffer : string := "inputs_differ".
Definition WarningModelDiffers : string := "model_differs".
Definition WarningPromptRefDiffers : string := "prompt_ref_differs".

Definition sameWhen (recorded equal : bool) : SamenessState :=
  if negb recorded then SameNotRecorded else if equal then SameTrue else SameFalse.

Definition newComparisonSameness (reference candidate : SideProvenance) : ComparisonSameness * list ComparisonWarning :=
  let scenarios := ScenarioRecorded reference && ScenarioRecorded candidate in
  let r := Declaration reference in let c := Declaration candidate in
  let s :=
    {| SameScenario := sameWhen scenarios (ScenarioDigest reference =s ScenarioDigest candidate);
       SameInputs := sameWhen scenarios (Bool.eqb (InputsDeclared reference) (InputsDeclared candidate) &&
                                         (InputDigest reference =s InputDigest candidate));
       SameModel := sameWhen ((SD_Model r <>s "") && (SD_Model c <>s "")) (SD_Model r =s SD_Model c);
       SamePromptRef := sameWhen (Stated (SD_PromptRef r) && Stated (SD_PromptRef c))
                          (bool_decide (SD_PromptRef r = SD_PromptRef c));
       SN_Reference := reference; SN_Candidate := candidate |} in
  let rows :=
    [(SameScenario s, WarningScenarioDiffers, "The reference and candidate sides ran different scenario definitions.");
     (SameInputs s, WarningInputsDiffer, "The reference and candidate sides ran with different inputs.");
     (SameModel s, WarningModelDiffers, "The reference and candidate sides declared different models.");
     (SamePromptRef s, WarningPromptRefDiffers, "The reference and candidate sides declared different prompt references.")] in
  (s, (fun w => {| CW_Code := w.1.2; CW_Text := w.2 |}) <$> List.filter (fun w => w.1.1 =s SameFalse) rows).

(** The provenance all the runs of a side share; none when any run has several or another. *)
Fixpoint side_runs (i : nat) (out : SideProvenance) (ids : list EvaluationRunID)
    (recorded : gmap EvaluationRunID (list SideProvenance)) : SideProvenance :=
  match ids with
  | [] => out
  | id :: ids =>
      match default [] (recorded !! id) with
      | [p] => if (0 <? Z.of_nat i) && bool_decide (p <> out) then no_provenance else side_runs (S i) p ids recorded
      | _ => no_provenance
      end
  end.
Definition sideProvenanceOfRuns (ids : list EvaluationRunID) (recorded : gmap EvaluationRunID (list SideProvenance)) : SideProvenance :=
  side_runs 0 no_provenance ids recorded.

(** ** Lemmas *)
Definition agreed (ids : list EvaluationRunID) (recorded : gmap EvaluationRunID (list SideProvenance)) (p : SideProvenance) : Prop :=
  ids <> [] /\ Forall (fun id => recorded !! id = Some [p]) ids.

Lemma side_runs_agreed ids recorded : forall i out, (0 < i)%nat ->
  (side_runs i out ids recorded = out /\ Forall (fun id => recorded !! id = Some [out]) ids) \/
  (side_runs i out ids recorded = no_provenance /\ ~ Forall (fun id => recorded !! id = Some [out]) ids).
Proof.
  induction ids as [|run ids IH]; intros i out Hi; [by left|]. cbn [side_runs].
  destruct (recorded !! run) as [[|p [|q l]]|] eqn:E; cbn [default from_option id].
  1, 3, 4: right; split; [done|]; rewrite Forall_cons, E; by intros [? _].
  rewrite (proj2 (Z.ltb_lt 0 (Z.of_nat i))) by lia. cbn [andb]. case_bool_decide as Hp.
  - right. split; [done|]. rewrite Forall_cons, E. intros [[= <-] _]. done.
  - subst p. destruct (IH (S i) out ltac:(lia)) as [[-> H]|[-> H]]; [left|right]; rewrite Forall_cons, E; tauto.
Qed.

(** The answer is the provenance every run of the side recorded alone, or none. *)
Lemma side_provenance_cases ids recorded :
  agreed ids recorded (sideProvenanceOfRuns ids recorded) \/
  (sideProvenanceOfRuns ids recorded = no_provenance /\ forall p, ~ agreed ids recorded p).
Proof.
  unfold sideProvenanceOfRuns, agreed. destruct ids as [|run ids]; [right; split; [done|by intros p []]|]. cbn [side_runs].
  destruct (recorded !! run) as [[|p [|q l]]|] eqn:E; cbn [default from_option id].
  1, 3, 4: right; split; [done|]; intros p' [_ H]; rewrite Forall_cons, E in H; by destruct H.
  change (0 <? Z.of_nat 0) with false. cbn [andb].
  destruct (side_runs_agreed ids recorded 1 p ltac:(lia)) as [[-> H]|[-> H]].
  - left. split; [done|]. by constructor.
  - right. split; [done|]. intros p' [_ H']. rewrite Forall_cons, E in H'. destruct H' as [[= <-] H']. done.
Qed.

Lemma agreed_unique ids recorded p q : agreed ids recorded p -> agreed ids recorded q -> p = q.
Proof.
  intros [Hn Hp] [_ Hq]. destruct ids as [|run ids]; [done|]. apply Forall_cons in Hp as [Hp _]. apply Forall_cons in Hq as [Hq _]. congruence.
Qed.

(** What each warning says of two sides. *)
Definition differs (code : string) (r c : SideProvenance) : Prop :=
  (code = WarningScenarioDiffers /\ ScenarioDigest r <> "" /\ ScenarioDigest c <> "" /\ ScenarioDigest r <> ScenarioDigest c) \/
  (code = WarningInputsDiffer /\ ScenarioDigest r <> "" /\ ScenarioDigest c <> "" /\
     (InputsDeclared r, InputDigest r) <> (InputsDeclared c, InputDigest c)) \/
  (code = WarningModelDiffers /\ SD_Model (Declaration r) <> "" /\ SD_Model (Declaration c) <> "" /\
     SD_Model (Declaration r) <> SD_Model (Declaration c)) \/
  (code = WarningPromptRefDiffers /\ SD_PromptRef (Declaration r) <> no_prompt /\ SD_PromptRef (Declaration c) <> no_prompt /\
     SD_PromptRef (Declaration r) <> SD_PromptRef (Declaration c)).

Lemma same_false recorded equal : sameWhen recorded equal =s SameFalse = true <-> recorded = true /\ equal = false.
Proof. destruct recorded, equal; cbn; naive_solver. Qed.

Lemma warns_iff r c code : code ∈ CW_Code <$> (newComparisonSameness r c).2 <-> differs code r c.
Proof.
  unfold newComparisonSameness. cbn [snd SameScenario SameInputs SameModel SamePromptRef].
  rewrite <- list_fmap_compose, list_elem_of_fmap. unfold compose.
  setoid_rewrite list_elem_of_In. setoid_rewrite filter_In. cbn [In]. unfold differs, ScenarioRecorded, Stated.
  split.
  - intros (w & -> & [<-|[<-|[<-|[<-|[]]]]] & Hw); cbn [fst snd] in Hw; apply same_false in Hw as [Hw Hd];
      apply andb_true_iff in Hw as [H1 H2]; cbn [fst snd CW_Code].
    + left. rewrite !negb_true_iff, !String.eqb_neq in *. done.
    + right; left. rewrite !negb_true_iff, !String.eqb_neq in *. split_and!; try done. intros [= E1 E2].
      by rewrite E1, E2, eqb_reflx, String.eqb_refl in Hd.
    + right; right; left. rewrite !negb_true_iff, !String.eqb_neq in *. done.
    + right; right; right. by rewrite !bool_decide_eq_true, bool_decide_eq_false in *.
  - intros [(-> & H1 & H2 & H3)|[(-> & H1 & H2 & H3)|[(-> & H1 & H2 & H3)|(-> & H1 & H2 & H3)]]].
    + eexists. split; [|split; [left; reflexivity|]]; [done|]. cbn [fst snd]. apply same_false.
      by rewrite andb_true_iff, !negb_true_iff, !String.eqb_neq.
    + eexists. split; [|split; [right; left; reflexivity|]]; [done|]. cbn [fst snd]. apply same_false.
      rewrite andb_true_iff, !negb_true_iff, !String.eqb_neq, andb_false_iff, eqb_false_iff, String.eqb_neq. split; [done|].
      destruct (decide (InputsDeclared r = InputsDeclared c)); [right|by left]. congruence.
    + eexists. split; [|split; [right; right; left; reflexivity|]]; [done|]. cbn [fst snd]. apply same_false.
      by rewrite andb_true_iff, !negb_true_iff, !String.eqb_neq.
    + eexists. split; [|split; [right; right; right; left; reflexivity|]]; [done|]. cbn [fst snd]. apply same_false.
      by rewrite andb_true_iff, !bool_decide_eq_true, bool_decide_eq_false.
Qed.

Lemma none_never_differs code p : ~ differs code no_provenance p /\ ~ differs code p no_provenance.
Proof. unfold differs. cbn. naive_solver. Qed.

(** ** Properties *)

(** the warnings of a comparison of runs are exactly the differences of what was recorded:
    there is a warning when, and only when, every run of each side recorded one provenance,
    the same on the whole side, both sides state the value the warning names, and the two
    values differ. A side whose runs disagree, or record nothing, warns of nothing. *)
Theorem sameness_warns references candidates recorded code :
  code ∈ CW_Code <$> (newComparisonSameness (sideProvenanceOfRuns references recorded) (sideProvenanceOfRuns candidates recorded)).2 <->
  exists r c, agreed references recorded r /\ agreed candidates recorded c /\ differs code r c.
Proof.
  rewrite warns_iff.
  destruct (side_provenance_cases references recorded) as [Hr|[-> Hr]], (side_provenance_cases candidates recorded) as [Hc|[-> Hc]].
  - split; [eauto|]. intros (r & c & H1 & H2 & H3). by rewrite (agreed_unique _ _ _ _ Hr H1), (agreed_unique _ _ _ _ Hc H2).
  - split; [by intros ?%none_never_differs|]. intros (r & c & _ & H2 & _). by destruct (Hc c).
  - split; [by intros ?%none_never_differs|]. intros (r & c & H1 & _ & _). by destruct (Hr r).
  - split; [by intros ?%none_never_differs|]. intros (r & c & H1 & _ & _). by destruct (Hr r).
Qed.

Lemma null_text_back s : column_text (null_text s) = s /\ empty_column (null_text s) = false.
Proof.
  unfold null_text. destruct (String.eqb_spec s "") as [->|E]; [done|]. cbn. by rewrite (proj2 (String.eqb_neq _ _) E).
Qed.
Lemma column_text_back c : empty_column c = false -> null_text (column_text c) = c.
Proof. destruct c as [s|]; cbn; [|done]. intros E. unfold null_text. by rewrite E. Qed.

Lemma columns_back p : SideProvenance_validate p = Ok tt ->
  sideProvenanceFromColumns (provenanceColumnValues p) = p /\ Forall (fun c => empty_column c = false) (provenanceColumnValues p).
Proof.
  destruct p as [digest declared input [model [name prompt]]]. intros H. unfold SideProvenance_validate in H.
  rewrite !bind_unit_iff in H. destruct H as (_ & Hi & _). apply fail_if_Ok, negb_false_iff, eqb_prop in Hi.
  unfold sideProvenanceFromColumns, provenanceColumnValues. cbn in *. rewrite !(proj1 (null_text_back _)). split.
  - f_equal. subst declared. unfold null_text. by destruct (input =s "").
  - repeat constructor; apply null_text_back.
Qed.

(** a valid provenance is written to its columns and read back unchanged, with no column
    empty text; and any five columns without an empty text are what their reading is written
    as, so no two rows read alike. *)
Theorem provenance_roundtrip :
  (forall p, SideProvenance_validate p = Ok tt ->
     sideProvenanceFromColumns (provenanceColumnValues p) = p /\ Forall (fun c => empty_column c = false) (provenanceColumnValues p)) /\
  (forall a b c d e, let columns := [a; b; c; d; e] in
     Forall (fun c => empty_column c = false) columns -> provenanceColumnValues (sideProvenanceFromColumns columns) = columns).
Proof.
  split; [apply columns_back|].
  intros a b c d e columns H. subst columns. rewrite !Forall_cons in H. destruct H as (H1 & H2 & H3 & H4 & H5 & _).
  unfold provenanceColumnValues, sideProvenanceFromColumns. cbn. by rewrite !column_text_back.
Qed.

Definition example_digest : string := String.append "sha256:" (String.concat "" (repeat "0a" 32)).
Definition example_provenance : SideProvenance :=
  {| ScenarioDigest := example_digest; InputsDeclared := true; InputDigest := example_digest;
     Declaration := {| SD_Model := "model-1"; SD_PromptRef := no_prompt |} |}.
Lemma provenance_roundtrip_witness :
  sideProvenanceFromColumns (provenanceColumnValues example_provenance) = example_provenance.
Proof. apply (proj1 provenance_roundtrip). vm_compute. reflexivity. Defined.
