(* ===== verification/Cost.v ===== *)
(** * Package platform: estimated cost (cost.go)

    Token counters of two sets of runs, priced by model.  The sums are unsigned 64-bit and
    checked; one model's cost is a 128-bit product divided by a million.  Go ranges over the
    model maps in an order it does not specify: the order is a parameter, and the results are
    shown not to depend on it. *)
From S2P Require Import Prelude Event Fingerprint Counters Operational Fidelity Behavior.

Open Scope string_scope.
Open Scope Z_scope.

Record ModelPrice : Type := { InputMicrosPerMillion : Z; OutputMicrosPerMillion : Z }.

(** [models] is nil in the zero value. *)
Record Pricing : Type := {
  pr_version : string;
  pr_source : string;
  pr_currency : string;
  pr_digest : string;
  models : option (gmap string ModelPrice);
}.

Definition NewPricing (pricingVersion source currency digest : string) (ms : gmap string ModelPrice) : res Pricing :=
  fail_if ((pricingVersion =s "") || (source =s "") || (currency =s "") || (digest =s "") ||
           bool_decide (ms = ∅)) [];;
  Ok {| pr_version := pricingVersion; pr_source := source; pr_currency := currency; pr_digest := digest;
        models := Some ms |}.

Definition Configured (p : Pricing) : bool := match models p with Some _ => true | None => false end.

Record CostEvidence : Type := {
  RunsWithEvidence : Z;
  CostMicros : Z;
  PricedTokens : Z;
  UnpricedTokens : Z;
  TokenObservations : Z;
  ObservationsWithoutTokens : Z;
}.
Definition CostEvidence_Available (e : CostEvidence) : bool := 0 <? RunsWithEvidence e.

Record CostComparison : Type := {
  PricingVersion : string;
  PricingDigest : string;
  CC_Source : string;
  Currency : string;
  CC_Reference : CostEvidence;
  CC_Candidate : CostEvidence;
  CC_Unavailable : OperationalUnavailability;
}.
Definition CostComparison_Comparable (c : CostComparison) : bool := CC_Unavailable c =s "".

Record costSide : Type := {
  cs_runs : Z;
  cs_tokenObservations : Z;
  cs_withoutTokens : Z;
  cs_input : gmap string Z;
  cs_output : gmap string Z;
  cs_unpaid : Z;
  cs_unsplit : Z;
}.
Definition no_side : costSide :=
  {| cs_runs := 0; cs_tokenObservations := 0; cs_withoutTokens := 0; cs_input := ∅; cs_output := ∅;
     cs_unpaid := 0; cs_unsplit := 0 |}.

Definition addCost (field n : Z) : res Z :=
  fail_if (u64 (max_u64 - n) <? field) [ErrCostOverflow];;
  Ok (u64 (field + n)).

Definition price_of (p : Pricing) (model : string) : option ModelPrice := models p ≫= (fun ms => ms !! model).

(** One entry of the loop of [addRun], with its [observed] flag. *)
Definition add_entry (p : Pricing) (acc : costSide * bool) (e : BehaviorEntry) : res (costSide * bool) :=
  let '(s, observed) := acc in
  let t := Tokens (BE_Operational e) in
  tokenObservations ← addCost (cs_tokenObservations s) (T_Observed t);
  withoutTokens ← addCost (cs_withoutTokens s) (T_Unobserved t);
  if T_Observed t =? 0 then
    Ok ({| cs_runs := cs_runs s; cs_tokenObservations := tokenObservations; cs_withoutTokens := withoutTokens;
           cs_input := cs_input s; cs_output := cs_output s; cs_unpaid := cs_unpaid s; cs_unsplit := cs_unsplit s |},
        observed)
  else
    unsplit ← addCost (cs_unsplit s) (T_Unsplit t);
    let model := SF_OperationName (BE_Behavior e) in
    match price_of p model with
    | None =>
        unpaid ← addCost (cs_unpaid s) (T_Input t);
        unpaid ← addCost unpaid (T_Output t);
        Ok ({| cs_runs := cs_runs s; cs_tokenObservations := tokenObservations; cs_withoutTokens := withoutTokens;
               cs_input := cs_input s; cs_output := cs_output s; cs_unpaid := unpaid; cs_unsplit := unsplit |}, true)
    | Some _ =>
        in_ ← addCost (default 0 (cs_input s !! model)) (T_Input t);
        out ← addCost (default 0 (cs_output s !! model)) (T_Output t);
        Ok ({| cs_runs := cs_runs s; cs_tokenObservations := tokenObservations; cs_withoutTokens := withoutTokens;
               cs_input := <[model := in_]> (cs_input s); cs_output := <[model := out]> (cs_output s);
               cs_unpaid := cs_unpaid s; cs_unsplit := unsplit |}, true)
    end.

Definition addRun (p : Pricing) (s : costSide) (entries : list BehaviorEntry) : res costSide :=
  '(s, observed) ← foldM (add_entry p) (s, false) entries;
  Ok {| cs_runs := if observed : bool then u64 (cs_runs s + 1) else cs_runs s;
        cs_tokenObservations := cs_tokenObservations s; cs_withoutTokens := cs_withoutTokens s;
        cs_input := cs_input s; cs_output := cs_output s; cs_unpaid := cs_unpaid s; cs_unsplit := cs_unsplit s |}.

(** math/bits, on 64-bit words. *)
Definition word : Z := 18446744073709551616.
Definition Mul64 (x y : Z) : Z * Z := (x * y / word, x * y mod word).
Definition Add64 (x y carry : Z) : Z * Z := ((x + y + carry) mod word, (x + y + carry) / word).
Definition Div64 (hi lo y : Z) : Z := (hi * word + lo) / y.

Definition modelCost (input inPrice output outPrice : Z) : res Z :=
  let '(hiIn, loIn) := Mul64 input inPrice in
  let '(hiOut, loOut) := Mul64 output outPrice in
  let '(lo, carry) := Add64 loIn loOut 0 in
  let '(hi, overflow) := Add64 hiIn hiOut carry in
  fail_if (negb (overflow =? 0)) [ErrCostOverflow];;
  fail_if (1000000 <=? hi) [ErrCostOverflow];;
  Ok (Div64 hi lo 1000000).

Definition evidence_step (p : Pricing) (s : costSide) (out : CostEvidence) (item : string * Z) : res CostEvidence :=
  let '(model, in_) := item in
  let price := default {| InputMicrosPerMillion := 0; OutputMicrosPerMillion := 0 |} (price_of p model) in
  let output := default 0 (cs_output s !! model) in
  cost ← modelCost in_ (InputMicrosPerMillion price) output (OutputMicrosPerMillion price);
  micros ← addCost (CostMicros out) cost;
  tokens ← addCost (PricedTokens out) in_;
  tokens ← addCost tokens output;
  Ok {| RunsWithEvidence := RunsWithEvidence out; CostMicros := micros; PricedTokens := tokens;
        UnpricedTokens := UnpricedTokens out; TokenObservations := TokenObservations out;
        ObservationsWithoutTokens := ObservationsWithoutTokens out |}.

Section cost.
Context `{order : MapOrder}.

Definition cost_evidence (p : Pricing) (s : costSide) : res CostEvidence :=
  unpriced ← addCost (cs_unpaid s) (cs_unsplit s);
  foldM (evidence_step p s)
    {| RunsWithEvidence := cs_runs s; CostMicros := 0; PricedTokens := 0; UnpricedTokens := unpriced;
       TokenObservations := cs_tokenObservations s; ObservationsWithoutTokens := cs_withoutTokens s |}
    (range (cs_input s)).

Definition compareCost (p : Pricing) (reference candidate : list (list BehaviorEntry)) : res (option CostComparison) :=
  if negb (Configured p) then Ok None
  else
    ref ← foldM (addRun p) no_side reference;
    cand ← foldM (addRun p) no_side candidate;
    refEvidence ← cost_evidence p ref;
    candEvidence ← cost_evidence p cand;
    Ok (Some {| PricingVersion := pr_version p; PricingDigest := pr_digest p; CC_Source := pr_source p;
                Currency := pr_currency p; CC_Reference := refEvidence; CC_Candidate := candEvidence;
                CC_Unavailable := unavailability (CostEvidence_Available refEvidence)
                                                 (CostEvidence_Available candEvidence) |}).
End cost.

(** ** What the cost should be *)
Notation tok e := (Tokens (BE_Operational e)).
Definition total (f : BehaviorEntry -> Z) (es : list BehaviorEntry) : Z := sumZ (f <$> es).
Definition reports (e : BehaviorEntry) : bool := negb (T_Observed (tok e) =? 0).
Definition model_of (e : BehaviorEntry) : string := SF_OperationName (BE_Behavior e).
Definition priced (p : Pricing) (e : BehaviorEntry) : bool :=
  reports e && bool_decide (is_Some (price_of p (model_of e))).
Definition unpriced_tokens (p : Pricing) (e : BehaviorEntry) : Z :=
  if reports e then T_Unsplit (tok e) + (if priced p e then 0 else T_Input (tok e) + T_Output (tok e)) else 0.
Definition of_model (p : Pricing) (model : string) (f : TokenCounts -> Z) (e : BehaviorEntry) : Z :=
  if priced p e && (model_of e =s model) then f (tok e) else 0.
Definition priced_models (p : Pricing) (es : list BehaviorEntry) : list string :=
  remove_dups (model_of <$> List.filter (priced p) es).
(** Whole micro-units, rounded down once for each model. *)
Definition model_cost (p : Pricing) (es : list BehaviorEntry) (model : string) : Z :=
  match price_of p model with
  | Some price => (total (of_model p model T_Input) es * InputMicrosPerMillion price +
                   total (of_model p model T_Output) es * OutputMicrosPerMillion price) / 1000000
  | None => 0
  end.
Definition cost_of (p : Pricing) (runs : list (list BehaviorEntry)) : CostEvidence :=
  let es := concat runs in
  {| RunsWithEvidence := Z.of_nat (length (List.filter (existsb reports) runs));
     CostMicros := sumZ (model_cost p es <$> priced_models p es);
     PricedTokens := total (fun e => if priced p e then T_Input (tok e) + T_Output (tok e) else 0) es;
     UnpricedTokens := total (unpriced_tokens p) es;
     TokenObservations := total (fun e => T_Observed (tok e)) es;
     ObservationsWithoutTokens := total (fun e => T_Unobserved (tok e)) es |}.
(** Every total is a 64-bit number. *)
Definition fits (c : CostEvidence) : Prop :=
  CostMicros c <= max_u64 /\ PricedTokens c <= max_u64 /\ UnpricedTokens c <= max_u64 /\
  TokenObservations c <= max_u64 /\ ObservationsWithoutTokens c <= max_u64.

Definition entry_tokens_ok (e : BehaviorEntry) : Prop := tokens_range (Tokens (BE_Operational e)).
Definition prices_ok (p : Pricing) : Prop :=
  forall model price, price_of p model = Some price ->
    is_u64 (InputMicrosPerMillion price) /\ is_u64 (OutputMicrosPerMillion price).

(** ** Sums *)
Lemma total_snoc f es e : total f (es ++ [e]) = total f es + f e.
Proof. unfold total. rewrite fmap_app, sumZ_app. cbn. lia. Qed.
Lemma total_app f es es' : total f (es ++ es') = total f es + total f es'.
Proof. unfold total. by rewrite fmap_app, sumZ_app. Qed.
Lemma total_le f g es : (forall e, e ∈ es -> f e <= g e) -> total f es <= total g es.
Proof.
  unfold total. induction es as [|e es IH]; intros H; [done|]. rewrite !fmap_cons, !sumZ_cons.
  pose proof (H e ltac:(by left)). assert (sumZ (f <$> es) <= sumZ (g <$> es)) by (apply IH; intros; apply H; by right). lia.
Qed.
Lemma total_ext f g es : (forall e, e ∈ es -> f e = g e) -> total f es = total g es.
Proof. intros H. apply Z.le_antisymm; apply total_le; intros e He; rewrite (H e He); lia. Qed.
Lemma total_add f g es : total (fun e => f e + g e) es = total f es + total g es.
Proof. unfold total. induction es as [|e es IH]; [done|]. rewrite !fmap_cons, !sumZ_cons. lia. Qed.
Lemma total_nonneg f es : (forall e, e ∈ es -> 0 <= f e) -> 0 <= total f es.
Proof. intros H. apply sumZ_nonneg, Forall_fmap, Forall_forall. exact H. Qed.

(** ** Checked arithmetic *)
Lemma addCost_Ok field n v : is_u64 field -> is_u64 n -> addCost field n = Ok v <-> v = field + n /\ field + n <= max_u64.
Proof.
  intros Hf Hn. unfold addCost. rewrite (u64_small (max_u64 - n)) by ulia.
  destruct (Z.ltb_spec (max_u64 - n) field); cbn [fail_if mbind res_bind].
  - split; [done|ulia].
  - rewrite u64_small by ulia. split; [intros [= <-]|intros [-> _]]; [ulia|done].
Qed.
Lemma addCost_Err field n e : addCost field n = Err e -> e = [ErrCostOverflow].
Proof. unfold addCost. destruct (_ <? _); [by intros [= <-]|done]. Qed.

(** The 128-bit arithmetic is exact: the cost, or a refusal exactly when it has no 64 bits. *)
Lemma modelCost_exact input inPrice output outPrice :
  is_u64 input -> is_u64 inPrice -> is_u64 output -> is_u64 outPrice ->
  let cost := (input * inPrice + output * outPrice) / 1000000 in
  modelCost input inPrice output outPrice = if cost <=? max_u64 then Ok cost else Err [ErrCostOverflow].
Proof.
  intros H1 H2 H3 H4 cost. unfold modelCost, Mul64, Add64, Div64.
  set (x := input * inPrice). set (y := output * outPrice).
  assert (Hx : 0 <= x <= max_u64 * max_u64) by (unfold x, is_u64, max_u64 in *; nia).
  assert (Hy : 0 <= y <= max_u64 * max_u64) by (unfold y, is_u64, max_u64 in *; nia).
  unfold word, max_u64 in *. set (w := 18446744073709551616) in *.
  pose proof (Z.div_mod x w ltac:(lia)) as Dx. pose proof (Z.mod_pos_bound x w ltac:(lia)).
  pose proof (Z.div_mod y w ltac:(lia)) as Dy. pose proof (Z.mod_pos_bound y w ltac:(lia)).
  pose proof (Z.div_mod (x mod w + y mod w + 0) w ltac:(lia)) as Dl.
  pose proof (Z.mod_pos_bound (x mod w + y mod w + 0) w ltac:(lia)).
  set (lo := (x mod w + y mod w + 0) mod w) in *. set (carry := (x mod w + y mod w + 0) / w) in *.
  set (h := x / w + y / w + carry). pose proof (Z.div_mod h w ltac:(lia)) as Dh. pose proof (Z.mod_pos_bound h w ltac:(lia)).
  assert (Hsum : x + y = h * w + lo) by (unfold h; lia).
  assert (Hh : 0 <= h) by (assert (0 <= x / w) by (apply Z.div_pos; lia); assert (0 <= y / w) by (apply Z.div_pos; lia);
    assert (0 <= carry) by (apply Z.div_pos; lia); unfold h; lia).
  assert (Hc : cost = (h * w + lo) / 1000000) by (unfold cost; fold x y; by rewrite Hsum).
  destruct (Z.leb_spec cost 18446744073709551615) as [Hle|Hgt].
  - assert (h < 1000000).
    { destruct (Z.lt_ge_cases h 1000000); [done|]. assert (w <= cost); [|lia]. rewrite Hc. apply Z.div_le_lower_bound; lia. }
    rewrite (Z.div_small h w), (Z.mod_small h w) by lia. cbn [Z.eqb negb fail_if mbind res_bind].
    rewrite (proj2 (Z.leb_gt 1000000 h)) by lia. cbn [fail_if mbind res_bind]. by rewrite Hc.
  - destruct (Z.eqb_spec (h / w) 0) as [E|E]; cbn [negb fail_if mbind res_bind]; [|done].
    assert (1000000 <= h).
    { destruct (Z.le_gt_cases 1000000 h); [done|]. assert (cost < w); [|lia]. rewrite Hc. apply Z.div_lt_upper_bound; nia. }
    rewrite (proj2 (Z.leb_le 1000000 (h mod w))) by (rewrite E in Dh; lia). done.
Qed.

(** ** The sums of one side *)
Definition unsplit_tokens (e : BehaviorEntry) : Z := if reports e then T_Unsplit (tok e) else 0.
Definition unpaid_tokens (p : Pricing) (e : BehaviorEntry) : Z :=
  if reports e && negb (priced p e) then T_Input (tok e) + T_Output (tok e) else 0.
Definition by_model (p : Pricing) (f : TokenCounts -> Z) (es : list BehaviorEntry) (k : string) : option Z :=
  if decide (k ∈ priced_models p es) then Some (total (of_model p k f) es) else None.

Record side_is (p : Pricing) (r : Z) (es : list BehaviorEntry) (s : costSide) : Prop := {
  si_runs : cs_runs s = r;
  si_obs : cs_tokenObservations s = total (fun e => T_Observed (tok e)) es;
  si_unobs : cs_withoutTokens s = total (fun e => T_Unobserved (tok e)) es;
  si_input : forall k, cs_input s !! k = by_model p T_Input es k;
  si_output : forall k, cs_output s !! k = by_model p T_Output es k;
  si_unpaid : cs_unpaid s = total (unpaid_tokens p) es;
  si_unsplit : cs_unsplit s = total unsplit_tokens es;
}.

Record side_fits (p : Pricing) (es : list BehaviorEntry) : Prop := {
  sf_obs : total (fun e => T_Observed (tok e)) es <= max_u64;
  sf_unobs : total (fun e => T_Unobserved (tok e)) es <= max_u64;
  sf_input : forall k, total (of_model p k T_Input) es <= max_u64;
  sf_output : forall k, total (of_model p k T_Output) es <= max_u64;
  sf_unpaid : total (unpaid_tokens p) es <= max_u64;
  sf_unsplit : total unsplit_tokens es <= max_u64;
}.

Lemma elem_priced_models p es k : k ∈ priced_models p es <-> exists e, e ∈ es /\ priced p e = true /\ model_of e = k.
Proof.
  unfold priced_models. rewrite elem_of_remove_dups, list_elem_of_fmap. split.
  - intros (e & -> & H%list_elem_of_In%filter_In). destruct H as [H1%list_elem_of_In H2]. by exists e.
  - intros (e & H1 & H2 & <-). exists e. split; [done|]. apply list_elem_of_In, filter_In. split; [by apply list_elem_of_In|done].
Qed.

Lemma not_priced_total p f es k : k ∉ priced_models p es -> total (of_model p k f) es = 0.
Proof.
  intros H. transitivity (total (fun _ => 0) es).
  - apply total_ext. intros e He. unfold of_model. destruct (priced p e) eqn:E; [|done]. cbn.
    destruct (String.eqb_spec (model_of e) k) as [<-|]; [|done]. destruct H. apply elem_priced_models. eauto.
  - unfold total. clear. induction es; [done|]. by rewrite fmap_cons, sumZ_cons, IHes.
Qed.

Lemma by_model_default p f es k : default 0 (by_model p f es k) = total (of_model p k f) es.
Proof. unfold by_model. destruct (decide _) as [|H]; [done|]. by rewrite (not_priced_total p f es k H). Qed.

Lemma by_model_snoc p f es e k : by_model p f (es ++ [e]) k =
  if priced p e && (model_of e =s k) then Some (total (of_model p k f) es + f (tok e)) else by_model p f es k.
Proof.
  unfold by_model. rewrite total_snoc. unfold of_model at 2.
  destruct (priced p e && (model_of e =s k)) eqn:E.
  - apply andb_true_iff in E as [E1 E2%String.eqb_eq]. rewrite decide_True; [done|]. apply elem_priced_models.
    exists e. split; [apply elem_of_app; right; by left|done].
  - assert (Hiff : k ∈ priced_models p (es ++ [e]) <-> k ∈ priced_models p es).
    { rewrite !elem_priced_models. split.
      - intros (e' & [H|H%list_elem_of_singleton]%elem_of_app & H2 & H3); [eauto|]. subst.
        by rewrite H2, String.eqb_refl in E.
      - intros (e' & H & H2). exists e'. split; [|done]. apply elem_of_app. by left. }
    rewrite Z.add_0_r. destruct (decide (k ∈ priced_models p es)); [rewrite decide_True by tauto|rewrite decide_False by tauto]; done.
Qed.

Lemma entry_nonneg p e : entry_tokens_ok e ->
  0 <= T_Observed (tok e) /\ 0 <= T_Unobserved (tok e) /\ 0 <= unsplit_tokens e /\ 0 <= unpaid_tokens p e /\
  (forall k, 0 <= of_model p k T_Input e) /\ (forall k, 0 <= of_model p k T_Output e).
Proof.
  intros []. unfold is_u64 in *. unfold unsplit_tokens, unpaid_tokens, of_model.
  split_and!; try lia; intros; repeat case_match; lia.
Qed.

Lemma side_fits_snoc p es e : entry_tokens_ok e -> side_fits p (es ++ [e]) -> side_fits p es.
Proof.
  intros He H. destruct (entry_nonneg p e He) as (N1 & N2 & N3 & N4 & Hi & Ho).
  destruct H as [H1 H2 H3 H4 H5 H6]; rewrite ?total_snoc in *. split; try lia.
  - intros k. specialize (H3 k). rewrite total_snoc in H3. specialize (Hi k). lia.
  - intros k. specialize (H4 k). rewrite total_snoc in H4. specialize (Ho k). lia.
Qed.

Lemma side_fits_app p es run : Forall entry_tokens_ok run -> side_fits p (es ++ run) -> side_fits p es.
Proof.
  induction run as [|e run IH] using rev_ind; intros Hr H; [by rewrite app_nil_r in H|].
  apply Forall_app in Hr as [Hr [He _]%Forall_cons]. apply IH; [done|]. rewrite app_assoc in H. by apply side_fits_snoc in H.
Qed.

Lemma side_words p es : Forall entry_tokens_ok es -> side_fits p es ->
  is_u64 (total (fun e => T_Observed (tok e)) es) /\ is_u64 (total (fun e => T_Unobserved (tok e)) es) /\
  is_u64 (total unsplit_tokens es) /\ is_u64 (total (unpaid_tokens p) es) /\
  (forall k, is_u64 (total (of_model p k T_Input) es)) /\ (forall k, is_u64 (total (of_model p k T_Output) es)).
Proof.
  rewrite Forall_forall. intros Hf []. assert (Hn : forall g, (forall e, entry_tokens_ok e -> 0 <= g e) -> 0 <= total g es).
  { intros g Hg. apply total_nonneg. intros e He. by apply Hg, (Hf e He). }
  unfold is_u64. split_and!; try done; try (intros k; split; [|done]); apply Hn; intros e He; by apply (entry_nonneg p e He).
Qed.

Lemma add_entry_Ok p r es s b e x : Forall entry_tokens_ok es -> entry_tokens_ok e -> side_is p r es s -> side_fits p es ->
  add_entry p (s, b) e = Ok x ->
  exists s', x = (s', b || reports e) /\ side_is p r (es ++ [e]) s' /\ side_fits p (es ++ [e]).
Proof.
  intros Hes He Hs Hf H. destruct (side_words p es Hes Hf) as (W1 & W2 & W3 & W4 & W5 & W6).
  pose proof He as [R1 R2 R3 R4 R5]. destruct Hs as [S1 S2 S3 S4 S5 S6 S7]. destruct Hf as [F1 F2 F3 F4 F5 F6].
  unfold add_entry in H. rewrite S2, S3 in H. res_inv.
  apply addCost_Ok in Hok as [-> L1]; [|done..]. apply addCost_Ok in Hok0 as [-> L2]; [|done..].
  assert (Hsnoc : forall r' i o up us, (forall k, i !! k = by_model p T_Input (es ++ [e]) k) ->
    (forall k, o !! k = by_model p T_Output (es ++ [e]) k) -> up = total (unpaid_tokens p) es + unpaid_tokens p e ->
    us = total unsplit_tokens es + unsplit_tokens e -> r' = r ->
    side_is p r (es ++ [e]) {| cs_runs := r'; cs_tokenObservations := total (fun e => T_Observed (tok e)) es + T_Observed (tok e);
      cs_withoutTokens := total (fun e => T_Unobserved (tok e)) es + T_Unobserved (tok e); cs_input := i; cs_output := o;
      cs_unpaid := up; cs_unsplit := us |}).
  { intros r' i o up us Hi Ho -> -> ->. split; cbn; rewrite ?total_snoc; done. }
  assert (Hfit : (forall k, total (of_model p k T_Input) es + of_model p k T_Input e <= max_u64) ->
    (forall k, total (of_model p k T_Output) es + of_model p k T_Output e <= max_u64) ->
    total (unpaid_tokens p) es + unpaid_tokens p e <= max_u64 -> total unsplit_tokens es + unsplit_tokens e <= max_u64 ->
    side_fits p (es ++ [e])).
  { intros. split; intros; rewrite ?total_snoc; auto. }
  destruct (Z.eqb_spec (T_Observed (tok e)) 0) as [E|E].
  { assert (Hr : reports e = false) by (unfold reports; by rewrite E). injection H as <-. eexists. rewrite Hr, orb_false_r.
    assert (Hz : unpaid_tokens p e = 0 /\ unsplit_tokens e = 0 /\ (forall k f, of_model p k f e = 0) /\ priced p e = false)
      by (unfold unpaid_tokens, unsplit_tokens, of_model, priced; by rewrite Hr).
    destruct Hz as (Z1 & Z2 & Z3 & Z4). split; [done|]. split.
    - apply Hsnoc; [intros k; rewrite by_model_snoc, Z4; by apply S4|intros k; rewrite by_model_snoc, Z4; by apply S5|lia..].
    - apply Hfit; [intros k; rewrite Z3; specialize (F3 k); lia|intros k; rewrite Z3; specialize (F4 k); lia|lia..]. }
  assert (Hr : reports e = true) by (unfold reports; by rewrite (proj2 (Z.eqb_neq _ _) E)). rewrite Hr, orb_true_r.
  rewrite S7 in H. res_inv. match goal with H : addCost (total unsplit_tokens es) _ = _ |- _ => apply addCost_Ok in H as [-> L3]; [|done..] end.
  assert (Us : unsplit_tokens e = T_Unsplit (tok e)) by (unfold unsplit_tokens; by rewrite Hr).
  fold (model_of e) in H. destruct (price_of p (model_of e)) as [price|] eqn:Ep.
  - assert (Hp : priced p e = true) by (unfold priced; rewrite Hr, Ep; by apply bool_decide_eq_true_2).
    rewrite S4, S5, !by_model_default in H. res_inv.
    repeat match goal with H : addCost _ _ = Ok _ |- _ => apply addCost_Ok in H as [-> ?]; [|done..] end.
    assert (Up : unpaid_tokens p e = 0) by (unfold unpaid_tokens; by rewrite Hr, Hp).
    subst x. eexists. split; [reflexivity|]. split.
    + apply Hsnoc; [| |lia..|done].
      * intros k. rewrite by_model_snoc, Hp. cbn [andb]. destruct (String.eqb_spec (model_of e) k) as [<-|Hne];
          [by rewrite lookup_insert_eq|rewrite lookup_insert_ne by done; apply S4].
      * intros k. rewrite by_model_snoc, Hp. cbn [andb]. destruct (String.eqb_spec (model_of e) k) as [<-|Hne];
          [by rewrite lookup_insert_eq|rewrite lookup_insert_ne by done; apply S5].
    + apply Hfit; [| |lia..].
      * intros k. unfold of_model at 2. rewrite Hp. cbn [andb]. destruct (String.eqb_spec (model_of e) k) as [<-|Hne]; [done|].
        specialize (F3 k). lia.
      * intros k. unfold of_model at 2. rewrite Hp. cbn [andb]. destruct (String.eqb_spec (model_of e) k) as [<-|Hne]; [done|].
        specialize (F4 k). lia.
  - assert (Hp : priced p e = false) by (unfold priced; rewrite Hr, Ep; by apply bool_decide_eq_false_2; intros []).
    assert (Up : unpaid_tokens p e = T_Input (tok e) + T_Output (tok e)) by (unfold unpaid_tokens; by rewrite Hr, Hp).
    assert (Z3 : forall k f, of_model p k f e = 0) by (intros; unfold of_model; by rewrite Hp).
    rewrite S6 in H. res_inv. match goal with H : addCost (total (unpaid_tokens p) es) _ = _ |- _ => apply addCost_Ok in H as [-> L4]; [|done..] end.
    match goal with H : addCost _ _ = Ok _ |- _ => apply addCost_Ok in H as [-> L5]; [|unfold is_u64 in *; lia|done] end.
    subst x. eexists. split; [reflexivity|]. split.
    + apply Hsnoc; [intros k; rewrite by_model_snoc, Hp; apply S4|intros k; rewrite by_model_snoc, Hp; apply S5|lia..].
    + apply Hfit; [intros k; rewrite Z3; specialize (F3 k); lia|intros k; rewrite Z3; specialize (F4 k); lia|lia..].
Qed.

Lemma add_entry_total p r es s b e : Forall entry_tokens_ok es -> entry_tokens_ok e -> side_is p r es s ->
  side_fits p (es ++ [e]) -> is_ok (add_entry p (s, b) e) = true.
Proof.
  intros Hes He Hs Hf'. pose proof (side_fits_snoc p es e He Hf') as Hf.
  destruct (side_words p es Hes Hf) as (W1 & W2 & W3 & W4 & W5 & W6).
  pose proof He as [R1 R2 R3 R4 R5]. destruct Hs as [S1 S2 S3 S4 S5 S6 S7]. destruct Hf' as [F1 F2 F3 F4 F5 F6].
  rewrite total_snoc in F1, F2, F5, F6. specialize (F3 (model_of e)). specialize (F4 (model_of e)). rewrite total_snoc in F3, F4.
  cbv beta in *. assert (Hok : forall field n, is_u64 field -> is_u64 n -> field + n <= max_u64 -> addCost field n = Ok (field + n))
    by (intros; by apply addCost_Ok).
  unfold add_entry. rewrite S2, S3, (Hok _ _ W1 R4 F1), (Hok _ _ W2 R5 F2). cbn [mbind res_bind].
  destruct (Z.eqb_spec (T_Observed (tok e)) 0) as [E|E]; [done|].
  assert (Hr : reports e = true) by (unfold reports; by rewrite (proj2 (Z.eqb_neq _ _) E)).
  unfold unsplit_tokens at 2 in F6. rewrite Hr in F6. rewrite S7, (Hok _ _ W3 R3 F6). cbn [mbind res_bind]. fold (model_of e).
  destruct (price_of p (model_of e)) as [price|] eqn:Ep.
  - assert (Hp : priced p e = true) by (unfold priced; rewrite Hr, Ep; by apply bool_decide_eq_true_2).
    unfold of_model at 2 in F3. unfold of_model at 2 in F4. rewrite Hp, String.eqb_refl in F3, F4. cbn [andb] in F3, F4.
    rewrite S4, S5, !by_model_default, (Hok _ _ (W5 _) R1 F3), (Hok _ _ (W6 _) R2 F4). done.
  - assert (Hp : priced p e = false) by (unfold priced; rewrite Hr, Ep; by apply bool_decide_eq_false_2; intros []).
    unfold unpaid_tokens at 2 in F5. rewrite Hr, Hp in F5. cbn [andb negb] in F5.
    rewrite S6, (Hok _ (T_Input (tok e)) W4 R1) by (unfold is_u64 in *; lia). cbn [mbind res_bind].
    rewrite (Hok _ (T_Output (tok e))); [done|unfold is_u64 in *; lia..].
Qed.

Lemma add_entry_Err p acc e x : add_entry p acc e = Err x -> x = [ErrCostOverflow].
Proof.
  destruct acc as [s b]. unfold add_entry. intros H.
  repeat (apply bind_Err in H as [H|(? & _ & H)]; [by apply addCost_Err in H|]).
  destruct (_ =? 0); [done|]. apply bind_Err in H as [H|(? & _ & H)]; [by apply addCost_Err in H|].
  destruct (price_of _ _); repeat (apply bind_Err in H as [H|(? & _ & H)]; [by apply addCost_Err in H|]); done.
Qed.

(** A run's entries, on top of those already counted. *)
Lemma add_entries p r es run : forall s b, Forall entry_tokens_ok es -> Forall entry_tokens_ok run -> side_is p r es s -> side_fits p es ->
  match foldM (add_entry p) (s, b) run with
  | Ok (s', b') => side_is p r (es ++ run) s' /\ side_fits p (es ++ run) /\ b' = b || existsb reports run
  | Err x => x = [ErrCostOverflow] /\ ~ side_fits p (es ++ run)
  end.
Proof.
  revert es. induction run as [|e run IH]; intros es s b Hes Hrun Hs Hf; cbn [foldM].
  - rewrite app_nil_r, orb_false_r. done.
  - apply Forall_cons in Hrun as [He Hrun]. change (e :: run) with ([e] ++ run)%list. rewrite app_assoc.
    destruct (add_entry p (s, b) e) as [x|x] eqn:E.
    + destruct (add_entry_Ok p r es s b e x Hes He Hs Hf E) as (s' & -> & Hs' & Hf'). cbn [mbind res_bind].
      assert (Hes' : Forall entry_tokens_ok (es ++ [e])) by (apply Forall_app; split; [done|by constructor]).
      specialize (IH _ s' (b || reports e) Hes' Hrun Hs' Hf'). destruct (foldM _ _ run) as [[s2 b2]|]; [|done].
      cbn [app existsb]. by rewrite orb_assoc.
    + split; [by apply add_entry_Err in E|]. intros H. assert (Hf' : side_fits p (es ++ [e])).
      { by apply (side_fits_app p _ run). }
      pose proof (add_entry_total p r es s b e Hes He Hs Hf') as Hok. by rewrite E in Hok.
Qed.

Lemma concat_ok (runs : list (list BehaviorEntry)) : Forall (Forall entry_tokens_ok) runs -> Forall entry_tokens_ok (concat runs).
Proof. induction runs; intros H; [constructor|]. apply Forall_cons in H as [H1 H2]. cbn. apply Forall_app. auto. Qed.

Definition reporting_runs (runs : list (list BehaviorEntry)) : Z := Z.of_nat (length (List.filter (existsb reports) runs)).

Lemma add_run p r es run s : Forall entry_tokens_ok es -> Forall entry_tokens_ok run -> side_is p r es s -> side_fits p es ->
  0 <= r -> r + 1 <= max_u64 ->
  match addRun p s run with
  | Ok s' => side_is p (r + (if existsb reports run then 1 else 0)) (es ++ run) s' /\ side_fits p (es ++ run)
  | Err x => x = [ErrCostOverflow] /\ ~ side_fits p (es ++ run)
  end.
Proof.
  intros Hes Hrun Hs Hf Hr Hl. unfold addRun. pose proof (add_entries p r es run s false Hes Hrun Hs Hf) as H.
  destruct (foldM (add_entry p) (s, false) run) as [[s1 b]|x]; [|done]. cbn [mbind res_bind].
  destruct H as ([H1 H2 H3 H4 H5 H6 H7] & Hf1 & ->). cbn [orb]. split; [|done]. split; cbn; try done. rewrite H1.
  destruct (existsb reports run); [|lia]. apply u64_small. unfold is_u64. lia.
Qed.

Lemma add_runs p runs : forall r es s, Forall entry_tokens_ok es -> Forall (Forall entry_tokens_ok) runs ->
  side_is p r es s -> side_fits p es -> 0 <= r -> r + Z.of_nat (length runs) <= max_u64 ->
  match foldM (addRun p) s runs with
  | Ok s' => side_is p (r + reporting_runs runs) (es ++ concat runs) s' /\ side_fits p (es ++ concat runs)
  | Err x => x = [ErrCostOverflow] /\ ~ side_fits p (es ++ concat runs)
  end.
Proof.
  induction runs as [|run runs IH]; intros r es s Hes Hruns Hs Hf Hr Hl; cbn [foldM concat].
  - rewrite app_nil_r, Z.add_0_r. done.
  - apply Forall_cons in Hruns as [Hrun Hruns]. rewrite app_assoc. cbn [length] in Hl.
    pose proof (add_run p r es run s Hes Hrun Hs Hf Hr ltac:(lia)) as H.
    destruct (addRun p s run) as [s1|x]; cbn [mbind res_bind].
    + destruct H as [Hs1 Hf1]. set (r1 := r + (if existsb reports run then 1 else 0)) in *.
      assert (Hr1 : r1 + reporting_runs runs = r + reporting_runs (run :: runs)).
      { unfold r1, reporting_runs. cbn [List.filter]. destruct (existsb reports run); cbn [length]; lia. }
      rewrite <- Hr1. assert (r <= r1 <= r + 1) by (unfold r1; destruct (existsb reports run); lia).
      apply (IH r1); try done; [by apply Forall_app|lia..].
    + destruct H as [-> H]. split; [done|]. intros Hfit. apply H. apply (side_fits_app p _ (concat runs)); [|done].
      by apply concat_ok.
Qed.

Lemma sum_models p f ks es : NoDup ks -> (forall e, e ∈ es -> priced p e = true -> model_of e ∈ ks) ->
  sumZ ((fun k => total (of_model p k f) es) <$> ks) = total (fun e => if priced p e then f (tok e) else 0) es.
Proof.
  intros Hnd. induction es as [|e es IH]; intros H.
  { unfold total. cbn. clear. induction ks; [done|]. by rewrite fmap_cons, sumZ_cons, IHks. }
  assert (Hone : forall l, NoDup l -> sumZ ((fun k => of_model p k f e) <$> l) =
    if priced p e && bool_decide (model_of e ∈ l) then f (tok e) else 0).
  { clear. intros l Hl. induction Hl as [|k l Hk Hl IH].
    - cbn. destruct (priced p e); [|done]. cbn. by rewrite bool_decide_eq_false_2 by apply not_elem_of_nil.
    - rewrite fmap_cons, sumZ_cons, IH. unfold of_model. destruct (priced p e); cbn [andb]; [|done].
      destruct (String.eqb_spec (model_of e) k) as [<-|Hne].
      + assert (Hin : model_of e ∈ model_of e :: l) by by left.
        rewrite (bool_decide_eq_false_2 _ Hk), (bool_decide_eq_true_2 _ Hin). lia.
      + destruct (decide (model_of e ∈ l)) as [Hin|Hin].
        * assert (Hin' : model_of e ∈ k :: l) by by right. rewrite (bool_decide_eq_true_2 _ Hin), (bool_decide_eq_true_2 _ Hin'). lia.
        * assert (Hin' : model_of e ∉ k :: l) by (intros [?|?]%elem_of_cons; done).
          rewrite (bool_decide_eq_false_2 _ Hin), (bool_decide_eq_false_2 _ Hin'). lia. }
  assert (Hsplit : sumZ ((fun k => total (of_model p k f) (e :: es)) <$> ks) =
    sumZ ((fun k => of_model p k f e) <$> ks) + sumZ ((fun k => total (of_model p k f) es) <$> ks)).
  { clear. induction ks as [|k ks IH]; [done|]. rewrite !fmap_cons, !sumZ_cons, IH. unfold total at 1. rewrite fmap_cons, sumZ_cons. unfold total. lia. }
  rewrite Hsplit, IH by (intros; apply H; [by right|done]). rewrite Hone by done.
  unfold total at 2. rewrite fmap_cons, sumZ_cons. fold (total (fun e => if priced p e then f (tok e) else 0) es).
  destruct (priced p e) eqn:E; cbn [andb]; [|done].
  assert (Hin : model_of e ∈ ks) by (apply H; [by left|done]). by rewrite (bool_decide_eq_true_2 _ Hin).
Qed.

(** ** The evidence of one side *)
Lemma addCost_spec field n : is_u64 field -> is_u64 n ->
  addCost field n = if field + n <=? max_u64 then Ok (field + n) else Err [ErrCostOverflow].
Proof.
  intros Hf Hn. destruct (addCost field n) as [v|e] eqn:E.
  - apply addCost_Ok in E as [-> H]; [|done..]. by rewrite (proj2 (Z.leb_le _ _) H).
  - pose proof (addCost_Err _ _ _ E) as ->. destruct (Z.leb_spec (field + n) max_u64) as [H|]; [|done].
    assert (addCost field n = Ok (field + n)) by by apply addCost_Ok. congruence.
Qed.

Definition both_tokens (p : Pricing) (es : list BehaviorEntry) (k : string) : Z :=
  total (of_model p k T_Input) es + total (of_model p k T_Output) es.

Definition with_sums (out : CostEvidence) (c t : Z) : CostEvidence :=
  {| RunsWithEvidence := RunsWithEvidence out; CostMicros := c; PricedTokens := t; UnpricedTokens := UnpricedTokens out;
     TokenObservations := TokenObservations out; ObservationsWithoutTokens := ObservationsWithoutTokens out |}.

Lemma model_cost_nonneg p es k : Forall entry_tokens_ok es -> side_fits p es -> prices_ok p -> 0 <= model_cost p es k.
Proof.
  intros Hes Hf Hp. destruct (side_words p es Hes Hf) as (_ & _ & _ & _ & W5 & W6). unfold model_cost.
  destruct (price_of p k) as [price|] eqn:E; [|lia]. destruct (Hp _ _ E) as [P1 P2]. specialize (W5 k). specialize (W6 k).
  unfold is_u64 in *. apply Z.div_pos; nia.
Qed.

Lemma both_nonneg p es k : Forall entry_tokens_ok es -> side_fits p es -> 0 <= both_tokens p es k.
Proof.
  intros Hes Hf. destruct (side_words p es Hes Hf) as (_ & _ & _ & _ & W5 & W6). unfold both_tokens.
  specialize (W5 k). specialize (W6 k). unfold is_u64 in *. lia.
Qed.

Lemma evidence_fold p r es s l : Forall entry_tokens_ok es -> side_fits p es -> prices_ok p -> side_is p r es s ->
  forall out, Forall (fun kv => kv.1 ∈ priced_models p es /\ kv.2 = total (of_model p kv.1 T_Input) es) l ->
  is_u64 (CostMicros out) -> is_u64 (PricedTokens out) ->
  let c := CostMicros out + sumZ (model_cost p es <$> l.*1) in
  let t := PricedTokens out + sumZ (both_tokens p es <$> l.*1) in
  foldM (evidence_step p s) out l =
    if (c <=? max_u64) && (t <=? max_u64) then Ok (with_sums out c t) else Err [ErrCostOverflow].
Proof.
  intros Hes Hf Hp Hs. destruct (side_words p es Hes Hf) as (_ & _ & _ & _ & W5 & W6).
  induction l as [|[k v] l IH]; intros out Hl Hc Ht; cbn zeta.
  - cbn [foldM fmap list_fmap]. unfold sumZ. cbn [foldr]. rewrite !Z.add_0_r, !(proj2 (Z.leb_le _ _)) by (unfold is_u64 in *; lia).
    by destruct out.
  - apply Forall_cons in Hl as [[Hk Hv] Hl]. cbn [fst snd] in *. rewrite !fmap_cons, !sumZ_cons. cbn [fst foldM].
    assert (Hpr : exists price, price_of p k = Some price).
    { apply elem_priced_models in Hk as (e & _ & Hpe & <-). unfold priced in Hpe.
      apply andb_true_iff in Hpe as [_ [price ?]%bool_decide_eq_true]. eauto. }
    destruct Hpr as [price Hpr]. destruct (Hp _ _ Hpr) as [P1 P2].
    pose proof (model_cost_nonneg p es k Hes Hf Hp) as Hmc. 
    assert (Hrest : 0 <= sumZ (model_cost p es <$> l.*1)).
    { apply sumZ_nonneg, Forall_fmap, Forall_forall. intros k' _. by apply model_cost_nonneg. }
    assert (Hrest2 : 0 <= sumZ (both_tokens p es <$> l.*1)).
    { apply sumZ_nonneg, Forall_fmap, Forall_forall. intros k' _. by apply both_nonneg. }
    assert (Hstep : evidence_step p s out (k, v) =
      if (CostMicros out + model_cost p es k <=? max_u64) && (PricedTokens out + both_tokens p es k <=? max_u64)
      then Ok (with_sums out (CostMicros out + model_cost p es k) (PricedTokens out + both_tokens p es k))
      else Err [ErrCostOverflow]).
    { unfold evidence_step. rewrite Hpr. cbn [default from_option id]. rewrite (si_output _ _ _ _ Hs k), by_model_default, Hv.
      specialize (W5 k). specialize (W6 k). rewrite modelCost_exact by done.
      assert (Hmk : model_cost p es k = (total (of_model p k T_Input) es * InputMicrosPerMillion price +
        total (of_model p k T_Output) es * OutputMicrosPerMillion price) / 1000000) by (unfold model_cost; by rewrite Hpr).
      rewrite <- Hmk. unfold both_tokens, with_sums. destruct (Z.leb_spec (model_cost p es k) max_u64) as [H1|H1]; cbn [mbind res_bind].
      2: { rewrite (proj2 (Z.leb_gt (CostMicros out + model_cost p es k) max_u64)) by (unfold is_u64 in *; lia). done. }
      rewrite (addCost_spec _ _ Hc (conj Hmc H1)). destruct (Z.leb_spec (CostMicros out + model_cost p es k) max_u64) as [H2|H2];
        cbn [mbind res_bind andb]; [|done].
      rewrite (addCost_spec _ _ Ht W5).
      destruct (Z.leb_spec (PricedTokens out + total (of_model p k T_Input) es) max_u64) as [H3|H3]; cbn [mbind res_bind].
      2: { rewrite (proj2 (Z.leb_gt (PricedTokens out + (total (of_model p k T_Input) es + total (of_model p k T_Output) es)) max_u64))
             by (unfold is_u64 in *; lia). done. }
      rewrite addCost_spec by (done || unfold is_u64 in *; lia). rewrite Z.add_assoc.
      by destruct (PricedTokens out + _ + _ <=? max_u64). }
    rewrite Hstep. destruct (Z.leb_spec (CostMicros out + model_cost p es k) max_u64) as [H1|H1]; cbn [andb].
    2: { cbn [mbind res_bind]. rewrite (proj2 (Z.leb_gt (CostMicros out + (model_cost p es k + _)) max_u64)) by lia. done. }
    destruct (Z.leb_spec (PricedTokens out + both_tokens p es k) max_u64) as [H2|H2].
    2: { cbn [mbind res_bind]. rewrite (proj2 (Z.leb_gt (PricedTokens out + (both_tokens p es k + _)) max_u64)), andb_false_r by lia. done. }
    cbn [mbind res_bind]. pose proof (both_nonneg p es k Hes Hf).
    rewrite IH by (done || cbn; unfold is_u64 in *; lia). cbn [with_sums CostMicros PricedTokens]. by rewrite !Z.add_assoc.
Qed.

Lemma unpriced_split p es : total (unpriced_tokens p) es = total (unpaid_tokens p) es + total unsplit_tokens es.
Proof.
  rewrite <- total_add. apply total_ext. intros e _. unfold unpriced_tokens, unpaid_tokens, unsplit_tokens, priced.
  destruct (reports e); [|done]. cbn [andb]. destruct (bool_decide _); cbn [negb]; lia.
Qed.

Lemma priced_split p es : Forall entry_tokens_ok es ->
  total (fun e => if priced p e then T_Input (tok e) + T_Output (tok e) else 0) es =
    sumZ (both_tokens p es <$> priced_models p es) /\
  forall k, 0 <= both_tokens p es k <= sumZ (both_tokens p es <$> priced_models p es) /\
    0 <= total (of_model p k T_Input) es <= both_tokens p es k /\ 0 <= total (of_model p k T_Output) es <= both_tokens p es k.
Proof.
  intros Hes. assert (Hnd : NoDup (priced_models p es)) by apply NoDup_remove_dups.
  assert (Hall : forall e, e ∈ es -> priced p e = true -> model_of e ∈ priced_models p es)
    by (intros e H1 H2; apply elem_priced_models; eauto).
  assert (Hn : forall k, 0 <= total (of_model p k T_Input) es /\ 0 <= total (of_model p k T_Output) es).
  { intros k. rewrite Forall_forall in Hes. split; apply total_nonneg; intros e He; by apply (entry_nonneg p e (Hes e He)). }
  assert (Hb : forall k, 0 <= both_tokens p es k) by (intros k; destruct (Hn k); unfold both_tokens; lia).
  split.
  - rewrite (total_ext _ (fun e => (if priced p e then T_Input (tok e) else 0) + (if priced p e then T_Output (tok e) else 0)))
      by (intros e _; destruct (priced p e); lia).
    rewrite total_add, <- (sum_models p T_Input (priced_models p es)), <- (sum_models p T_Output (priced_models p es)) by done.
    clear. induction (priced_models p es) as [|k l IH]; [done|]. rewrite !fmap_cons, !sumZ_cons. unfold both_tokens at 1. lia.
  - intros k. destruct (Hn k). assert (E : both_tokens p es k = total (of_model p k T_Input) es + total (of_model p k T_Output) es) by done.
    split; [|lia]. split; [done|]. clear E.
    destruct (decide (k ∈ priced_models p es)) as [Hk|Hk].
    + apply sumZ_elem; [apply Forall_fmap, Forall_forall; intros ? _; apply Hb|]. apply list_elem_of_fmap. by exists k.
    + unfold both_tokens at 1. rewrite !not_priced_total by done. apply sumZ_nonneg, Forall_fmap, Forall_forall. intros ? _. apply Hb.
Qed.

Lemma fits_side p runs : Forall (Forall entry_tokens_ok) runs -> fits (cost_of p runs) -> side_fits p (concat runs).
Proof.
  intros Hr (_ & F2 & F3 & F4 & F5). cbn in F2, F3, F4, F5.
  assert (Hes : Forall entry_tokens_ok (concat runs)) by by apply concat_ok.
  rewrite unpriced_split in F3. destruct (priced_split p _ Hes) as [E Hk]. rewrite E in F2.
  assert (N1 : 0 <= total (unpaid_tokens p) (concat runs)).
  { rewrite Forall_forall in Hes. apply total_nonneg. intros e He. by apply (entry_nonneg p e (Hes e He)). }
  assert (N2 : 0 <= total unsplit_tokens (concat runs)).
  { rewrite Forall_forall in Hes. apply total_nonneg. intros e He. by apply (entry_nonneg p e (Hes e He)). }
  split; try lia; intros k; destruct (Hk k) as (? & ? & ?); lia.
Qed.

Lemma available_iff p runs : CostEvidence_Available (cost_of p runs) = true <->
  exists run e, run ∈ runs /\ e ∈ run /\ T_Observed (tok e) <> 0.
Proof.
  unfold CostEvidence_Available, cost_of. cbn [RunsWithEvidence]. rewrite Z.ltb_lt.
  transitivity (exists run, run ∈ runs /\ existsb reports run = true).
  - split.
    + intros H. destruct (List.filter (existsb reports) runs) as [|run l] eqn:E; [cbn in H; lia|]. exists run.
      assert (Hin : In run (List.filter (existsb reports) runs)) by (rewrite E; by left).
      apply filter_In in Hin as [Hin ?]. split; [by apply list_elem_of_In|done].
    + intros (run & Hin & Hr). assert (Hin' : In run (List.filter (existsb reports) runs))
        by (apply filter_In; split; [by apply list_elem_of_In|done]).
      destruct (List.filter (existsb reports) runs); [done|cbn; lia].
  - split.
    + intros (run & Hin & (e & He & Hr)%existsb_exists). exists run, e. split; [done|]. split; [by apply list_elem_of_In|].
      unfold reports in Hr. by destruct (Z.eqb_spec (T_Observed (tok e)) 0).
    + intros (run & e & Hin & He & Hr). exists run. split; [done|]. apply existsb_exists. exists e.
      split; [by apply list_elem_of_In|]. unfold reports. by rewrite (proj2 (Z.eqb_neq _ _) Hr).
Qed.

Section exact.
Context `{order : MapOrder}.

Lemma side_cost p runs : Forall (Forall entry_tokens_ok) runs -> prices_ok p -> Z.of_nat (length runs) <= max_u64 ->
  match (s ← foldM (addRun p) no_side runs; cost_evidence p s) with
  | Ok c => c = cost_of p runs /\ fits c
  | Err x => x = [ErrCostOverflow] /\ ~ fits (cost_of p runs)
  end.
Proof.
  intros Hr Hp Hl. assert (Hes : Forall entry_tokens_ok (concat runs)) by by apply concat_ok.
  assert (H0 : side_is p 0 [] no_side) by (split; done).
  assert (F0 : side_fits p []) by (split; intros; unfold total; cbn; unfold max_u64; lia).
  pose proof (add_runs p runs 0 [] no_side ltac:(constructor) Hr H0 F0 ltac:(lia) Hl) as H. cbn [app] in H.
  destruct (foldM (addRun p) no_side runs) as [s|x]; cbn [mbind res_bind].
  2: { destruct H as [-> H]. split; [done|]. intros Hf. by apply H, fits_side. }
  destruct H as [Hs Hf]. rewrite Z.add_0_l in Hs. set (es := concat runs) in *.
  destruct (side_words p es Hes Hf) as (_ & _ & W3 & W4 & _ & _).
  unfold cost_evidence. rewrite (si_unpaid _ _ _ _ Hs), (si_unsplit _ _ _ _ Hs).
  rewrite addCost_spec by done. rewrite <- unpriced_split.
  destruct (Z.leb_spec (total (unpriced_tokens p) es) max_u64) as [Hu|Hu]; cbn [mbind res_bind].
  2: { split; [done|]. intros (_ & _ & F & _). cbn in F. fold es in F. lia. }
  assert (Hks : (range (cs_input s)).*1 ≡ₚ priced_models p es).
  { rewrite range_perm. apply NoDup_Permutation; [apply NoDup_fst_map_to_list|apply NoDup_remove_dups|].
    intros k. rewrite list_elem_of_fmap. split.
    - intros ([k' v] & -> & Hin%elem_of_map_to_list). rewrite (si_input _ _ _ _ Hs) in Hin. unfold by_model in Hin. by case_decide.
    - intros Hk. exists (k, total (of_model p k T_Input) es). split; [done|]. apply elem_of_map_to_list.
      rewrite (si_input _ _ _ _ Hs). unfold by_model. by rewrite decide_True. }
  assert (Hl2 : Forall (fun kv => kv.1 ∈ priced_models p es /\ kv.2 = total (of_model p kv.1 T_Input) es) (range (cs_input s))).
  { apply Forall_forall. intros [k v] Hin. rewrite range_perm in Hin. apply elem_of_map_to_list in Hin.
    rewrite (si_input _ _ _ _ Hs) in Hin. unfold by_model in Hin. case_decide; [|done]. by injection Hin as <-. }
  rewrite (evidence_fold p _ es s _ Hes Hf Hp Hs _ Hl2) by (cbn; unfold is_u64, max_u64; lia).
  rewrite !(sumZ_perm _ _ (fmap_Permutation _ _ _ Hks)). cbn [CostMicros PricedTokens]. rewrite !Z.add_0_l.
  destruct (priced_split p es Hes) as [<- _].
  assert (Hc : with_sums {| RunsWithEvidence := cs_runs s; CostMicros := 0; PricedTokens := 0; UnpricedTokens := total (unpriced_tokens p) es;
       TokenObservations := cs_tokenObservations s; ObservationsWithoutTokens := cs_withoutTokens s |}
     (sumZ (model_cost p es <$> priced_models p es)) (total (fun e => if priced p e then T_Input (tok e) + T_Output (tok e) else 0) es)
     = cost_of p runs).
  { unfold with_sums, cost_of. cbn. rewrite (si_runs _ _ _ _ Hs), (si_obs _ _ _ _ Hs), (si_unobs _ _ _ _ Hs). done. }
  rewrite Hc. destruct Hf as [F1 F2 _ _ _ _].
  destruct (Z.leb_spec (sumZ (model_cost p es <$> priced_models p es)) max_u64) as [C1|C1]; cbn [andb].
  - destruct (Z.leb_spec (total (fun e => if priced p e then T_Input (tok e) + T_Output (tok e) else 0) es) max_u64) as [C2|C2].
    + split; [done|]. unfold fits. cbn. fold es. done.
    + split; [done|]. intros (_ & F & _). cbn in F. fold es in F. lia.
  - split; [done|]. intros (F & _). cbn in F. fold es in F. lia.
Qed.

(** C27: the cost of a comparison is exact. Whatever order Go ranges over its maps in, the
    evidence of each side is the true totals - tokens of priced models, tokens without a
    price, whole micro-units of each model's 128-bit product divided by a million - and every
    reported token is either priced or unpriced; the comparison is refused exactly when one of
    these totals has no 64-bit value. *)
Theorem compareCost_exact p reference candidate :
  prices_ok p -> Configured p = true -> Forall (Forall entry_tokens_ok) reference -> Forall (Forall entry_tokens_ok) candidate ->
  Z.of_nat (length reference) <= max_u64 -> Z.of_nat (length candidate) <= max_u64 ->
  match compareCost p reference candidate with
  | Ok (Some c) =>
      CC_Reference c = cost_of p reference /\ CC_Candidate c = cost_of p candidate /\
      fits (CC_Reference c) /\ fits (CC_Candidate c) /\
      (CostComparison_Comparable c = true <-> (exists run e, run ∈ reference /\ e ∈ run /\ T_Observed (tok e) <> 0) /\
                                              exists run e, run ∈ candidate /\ e ∈ run /\ T_Observed (tok e) <> 0)
  | Ok None => False
  | Err e => e = [ErrCostOverflow] /\ (~ fits (cost_of p reference) \/ ~ fits (cost_of p candidate))
  end /\
  forall runs, PricedTokens (cost_of p runs) + UnpricedTokens (cost_of p runs) =
    total (fun e => if reports e then T_Input (tok e) + T_Output (tok e) + T_Unsplit (tok e) else 0) (concat runs).
Proof.
  intros Hp Hc Hr1 Hr2 L1 L2. split.
  2: { intros runs. cbn [cost_of PricedTokens UnpricedTokens]. rewrite <- total_add. apply total_ext. intros e _.
       unfold unpriced_tokens, priced. destruct (reports e); [|done]. cbn [andb]. destruct (bool_decide _); lia. }
  pose proof (side_cost p reference Hr1 Hp L1) as H1. pose proof (side_cost p candidate Hr2 Hp L2) as H2.
  unfold compareCost. rewrite Hc. cbn [negb].
  destruct (foldM (addRun p) no_side reference) as [s1|x1]; cbn [mbind res_bind] in *; [|by destruct H1; auto].
  destruct (foldM (addRun p) no_side candidate) as [s2|x2]; cbn [mbind res_bind] in *; [|by destruct H2; auto].
  destruct (cost_evidence p s1) as [c1|x1]; cbn [mbind res_bind] in *; [|by destruct H1; auto].
  destruct (cost_evidence p s2) as [c2|x2]; cbn [mbind res_bind] in *; [|by destruct H2; auto].
  destruct H1 as [-> F1], H2 as [-> F2]. split_and!; try done.
  unfold CostComparison_Comparable. cbn [CC_Unavailable]. rewrite <- (available_iff p reference), <- (available_iff p candidate).
  unfold unavailability. destruct (CostEvidence_Available _), (CostEvidence_Available _); cbn; naive_solver.
Qed.
End exact.

(** ** Witness *)
Definition example_price : ModelPrice := {| InputMicrosPerMillion := 3000000; OutputMicrosPerMillion := 15000000 |}.
Definition example_pricing : Pricing :=
  {| pr_version := "v1"; pr_source := "list"; pr_currency := "USD"; pr_digest := "d"; models := Some {["read" := example_price]} |}.
Definition token_entry (name : string) (input output : Z) : BehaviorEntry :=
  {| BE_FingerprintID := name; BE_Behavior := sample_stable name "db"; BE_Observations := 1;
     BE_Operational :=
       {| Buckets := zero_buckets; Durations := zero_durations; SpanStatus_ := zero_statuses; HTTPStatus := zero_http; HTTP429 := 0;
          Tokens := {| T_Input := input; T_Output := output; T_Unsplit := 0; T_Observed := 1; T_Unobserved := 0 |} |};
     BE_Fidelity := zero_fidelity |}.

Lemma compareCost_exact_witness : exists c,
  @compareCost key_order example_pricing [[token_entry "read" 1000 10]] [[token_entry "read" 7 1]; [token_entry "other" 5 5]] = Ok (Some c) /\ CostMicros (CC_Reference c) = 3150 /\ UnpricedTokens (CC_Candidate c) = 10 /\ CC_Reference c = cost_of example_pricing [[token_entry "read" 1000 10]].
Proof.
  assert (Hp : prices_ok example_pricing).
  { intros m price H. unfold price_of in H. cbn in H. apply lookup_singleton_Some in H as [_ <-]. by split. }
  pose proof (@compareCost_exact key_order example_pricing
    [[token_entry "read" 1000 10]] [[token_entry "read" 7 1]; [token_entry "other" 5 5]] Hp eq_refl
    ltac:(by repeat constructor) ltac:(by repeat constructor) ltac:(by vm_compute) ltac:(by vm_compute)) as [H _].
  revert H. set (r := compareCost _ _ _). assert (Hr : exists c, r = Ok (Some c)) by (eexists; vm_compute; reflexivity).
  destruct Hr as [c ->]. intros (H1 & H2 & _). exists c. split; [done|]. rewrite H1, H2. split; [by vm_compute|]. split; [by vm_compute|done].
Defined.
