(* ===== verification/Frequency.v ===== *)
(** * Package platform: call frequency over repetitions (frequency.go, operational_targets.go)

    How often each behavior, each target and each target name is called in the runs of one
    side: totals, extrema and the mean in thousandths, with a run that never calls counting
    as zero calls. *)
From S2P Require Import Prelude GoText Event Fingerprint Counters Operational Fidelity Behavior Cost.

Open Scope string_scope.
Open Scope Z_scope.

Record OperationalTarget : Type := { OT_Name : string; OT_Category : string }.
#[export] Instance target_eq_dec : EqDecision OperationalTarget.
Proof. solve_decision. Defined.
#[export] Instance target_countable : Countable OperationalTarget.
Proof.
  refine (inj_countable' (fun t => (OT_Name t, OT_Category t)) (fun p => {| OT_Name := p.1; OT_Category := p.2 |}) _).
  by intros [].
Defined.

Record FrequencyStats : Type := {
  FS_Runs : Z;
  CallsTotal : Z;
  CallsPerRunMin : Z;
  CallsPerRunMax : Z;
  CallsPerRunMeanMilli : Z;
}.
Definition no_stats : FrequencyStats :=
  {| FS_Runs := 0; CallsTotal := 0; CallsPerRunMin := 0; CallsPerRunMax := 0; CallsPerRunMeanMilli := 0 |}.
Definition FrequencyStats_Available (s : FrequencyStats) : bool := 0 <? FS_Runs s.

Record frequencyAccumulator : Type := { fa_total : Z; fa_max : Z; fa_minPresent : Z; fa_presentRuns : Z }.
Definition no_calls : frequencyAccumulator := {| fa_total := 0; fa_max := 0; fa_minPresent := 0; fa_presentRuns := 0 |}.

Definition accumulator_addRun (a : frequencyAccumulator) (calls : Z) : res frequencyAccumulator :=
  fail_if (u64 (max_u64 - calls) <? fa_total a) [ErrFrequencyOverflow];;
  Ok {| fa_total := u64 (fa_total a + calls);
        fa_max := Z.max (fa_max a) calls;
        fa_minPresent := if (fa_presentRuns a =? 0) || (calls <? fa_minPresent a) then calls else fa_minPresent a;
        fa_presentRuns := u64 (fa_presentRuns a + 1) |}.

Definition floorDivTimes1000 (n d : Z) : res Z :=
  let '(hi, lo) := Mul64 n 1000 in
  fail_if (d <=? hi) [ErrFrequencyOverflow];;
  Ok (Div64 hi lo d).

Definition accumulator_stats (a : frequencyAccumulator) (runs : Z) : res FrequencyStats :=
  if runs =? 0 then Ok no_stats
  else
    mean ← floorDivTimes1000 (fa_total a) runs;
    Ok {| FS_Runs := runs; CallsTotal := fa_total a;
          CallsPerRunMin := if fa_presentRuns a <? runs then 0 else fa_minPresent a;
          CallsPerRunMax := fa_max a; CallsPerRunMeanMilli := mean |}.

Record RepeatedTargetFrequency : Type := {
  TF_Target : OperationalTarget;
  TF_Reference : FrequencyStats;
  TF_Candidate : FrequencyStats;
  CallRatioPermille : Z;
  RatioAvailable : bool;
  CandidateHTTP429 : Z;
  CandidateHTTPStated : Z;
}.

Record frequencySide : Type := {
  fs_runs : Z;
  fs_behaviors : gmap string frequencyAccumulator;
  fs_targets : gmap OperationalTarget frequencyAccumulator;
  fs_byName : gmap string frequencyAccumulator;
  fs_http429 : gmap OperationalTarget Z;
  fs_httpSaid : gmap OperationalTarget Z;
}.
Definition newFrequencySide : frequencySide :=
  {| fs_runs := 0; fs_behaviors := ∅; fs_targets := ∅; fs_byName := ∅; fs_http429 := ∅; fs_httpSaid := ∅ |}.

Definition target_of (e : BehaviorEntry) : OperationalTarget :=
  {| OT_Name := SF_TargetName (BE_Behavior e); OT_Category := SF_TargetCategory (BE_Behavior e) |}.

(** [m[k]] of a map of counters, and the checked [m[k] += n]. *)
Definition count_at {K} `{Countable K} (m : gmap K Z) (k : K) : Z := default 0 (m !! k).
Definition add_at {K} `{Countable K} (m : gmap K Z) (k : K) (n : Z) : res (gmap K Z) :=
  fail_if (u64 (max_u64 - n) <? count_at m k) [ErrFrequencyOverflow];;
  Ok (<[k := u64 (count_at m k + n)]> m).
(** The accumulator of a key, created when absent, counts one more run. *)
Definition accumulate_at {K} `{Countable K} (m : gmap K frequencyAccumulator) (k : K) (calls : Z)
    : res (gmap K frequencyAccumulator) :=
  a ← accumulator_addRun (default no_calls (m !! k)) calls;
  Ok (<[k := a]> m).

(** One entry of a run: the side and the run's [perTarget]. *)
Definition frequency_entry (acc : frequencySide * gmap OperationalTarget Z) (e : BehaviorEntry)
    : res (frequencySide * gmap OperationalTarget Z) :=
  let '(s, perTarget) := acc in
  if BE_Observations e =? 0 then Ok (s, perTarget)
  else
    behaviors ← accumulate_at (fs_behaviors s) (BE_FingerprintID e) (BE_Observations e);
    let t := target_of e in
    perTarget ← add_at perTarget t (BE_Observations e);
    http429 ← add_at (fs_http429 s) t (HTTP429 (BE_Operational e));
    httpSaid ← add_at (fs_httpSaid s) t (HTTP_Stated (HTTPStatus (BE_Operational e)));
    Ok ({| fs_runs := fs_runs s; fs_behaviors := behaviors; fs_targets := fs_targets s; fs_byName := fs_byName s;
           fs_http429 := http429; fs_httpSaid := httpSaid |}, perTarget).

(** One target of the run: the targets and the run's [perName]. *)
Definition frequency_target (acc : gmap OperationalTarget frequencyAccumulator * gmap string Z) (item : OperationalTarget * Z)
    : res (gmap OperationalTarget frequencyAccumulator * gmap string Z) :=
  let '(targets, perName) := acc in
  let '(t, calls) := item in
  targets ← accumulate_at targets t calls;
  perName ← add_at perName (OT_Name t) calls;
  Ok (targets, perName).

Definition side_behaviorStats (s : frequencySide) (fingerprint : string) : res FrequencyStats :=
  accumulator_stats (default no_calls (fs_behaviors s !! fingerprint)) (fs_runs s).
Definition side_targetStats (s : frequencySide) (t : OperationalTarget) : res FrequencyStats :=
  accumulator_stats (default no_calls (fs_targets s !! t)) (fs_runs s).

(** [compare] orders by category, then by name. *)
Definition target_le (a b : OperationalTarget) : Prop :=
  (OT_Category a <> OT_Category b /\ String.le (OT_Category a) (OT_Category b)) \/
  (OT_Category a = OT_Category b /\ String.le (OT_Name a) (OT_Name b)).
#[export] Instance target_le_dec : RelDecision target_le.
Proof. intros a b. unfold target_le. apply _. Defined.
#[export] Instance target_le_total : base.Total target_le.
Proof.
  intros a b. unfold target_le. destruct (decide (OT_Category a = OT_Category b)) as [E|E].
  - destruct (base.total String.le (OT_Name a) (OT_Name b)); [left|right]; right; by split.
  - destruct (base.total String.le (OT_Category a) (OT_Category b)); [left|right]; left; by split.
Qed.
#[export] Instance target_le_trans : Transitive target_le.
Proof.
  intros a b c. unfold target_le. intros [[N1 H1]|[E1 H1]] [[N2 H2]|[E2 H2]].
  - left. split; [|by transitivity (OT_Category b)]. intros E. rewrite E in *. apply N1. by apply (anti_symm String.le).
  - left. by rewrite <- E2.
  - left. by rewrite E1.
  - right. split; [congruence|]. by transitivity (OT_Name b).
Qed.

Section frequency.
Context `{order : MapOrder}.

Definition frequency_addRun (s : frequencySide) (entries : list BehaviorEntry) : res frequencySide :=
  '(s, perTarget) ← foldM frequency_entry
     ({| fs_runs := u64 (fs_runs s + 1); fs_behaviors := fs_behaviors s; fs_targets := fs_targets s;
         fs_byName := fs_byName s; fs_http429 := fs_http429 s; fs_httpSaid := fs_httpSaid s |}, ∅) entries;
  '(targets, perName) ← foldM frequency_target (fs_targets s, ∅) (range perTarget);
  byName ← foldM (fun m item => accumulate_at m item.1 item.2) (fs_byName s) (range perName);
  Ok {| fs_runs := fs_runs s; fs_behaviors := fs_behaviors s; fs_targets := targets; fs_byName := byName;
        fs_http429 := fs_http429 s; fs_httpSaid := fs_httpSaid s |}.

Definition target_keys (reference candidate : frequencySide) : list OperationalTarget :=
  merge_sort target_le ((range (fs_targets reference)).*1 ++
    List.filter (fun t => bool_decide (fs_targets reference !! t = None)) (range (fs_targets candidate)).*1)%list.

Definition target_row (reference candidate : frequencySide) (t : OperationalTarget) : res RepeatedTargetFrequency :=
  ref ← side_targetStats reference t;
  cand ← side_targetStats candidate t;
  '(ratio, available) ← (if 0 <? CallsTotal ref then
                           ratio ← floorDivTimes1000 (CallsTotal cand) (CallsTotal ref); Ok (ratio, true)
                         else Ok (0, false));
  Ok {| TF_Target := t; TF_Reference := ref; TF_Candidate := cand; CallRatioPermille := ratio;
        RatioAvailable := available; CandidateHTTP429 := count_at (fs_http429 candidate) t;
        CandidateHTTPStated := count_at (fs_httpSaid candidate) t |}.

Definition targetFrequencies (reference candidate : frequencySide) : res (list RepeatedTargetFrequency) :=
  mapM (target_row reference candidate) (target_keys reference candidate).

End frequency.

Definition isLost (referencePresent candidatePresent runs : Z) : bool :=
  (0 <? runs) && (referencePresent =? runs) && (candidatePresent <? runs).

(** ** What the statistics should be *)
Definition calls_where (p : BehaviorEntry -> bool) (run : list BehaviorEntry) : Z :=
  total (fun e => if p e then BE_Observations e else 0) run.
Definition calls_of_behavior (fp : string) : list BehaviorEntry -> Z := calls_where (fun e => BE_FingerprintID e =s fp).
Definition calls_to_target (t : OperationalTarget) : list BehaviorEntry -> Z := calls_where (fun e => bool_decide (target_of e = t)).
Definition calls_to_name (n : string) : list BehaviorEntry -> Z := calls_where (fun e => OT_Name (target_of e) =s n).

Definition greatest (cs : list Z) : Z := foldr Z.max 0 cs.
Definition least (cs : list Z) : Z := match cs with [] => 0 | c :: cs => foldr Z.min c cs end.
(** Of the calls of each run, a run without one included. *)
Definition stats_of (cs : list Z) : FrequencyStats :=
  {| FS_Runs := Z.of_nat (length cs); CallsTotal := sumZ cs; CallsPerRunMin := least cs; CallsPerRunMax := greatest cs;
     CallsPerRunMeanMilli := sumZ cs * 1000 / Z.of_nat (length cs) |}.

Record frequency_entry_ok (e : BehaviorEntry) : Prop := {
  fe_observations : is_u64 (BE_Observations e);
  fe_http429 : is_u64 (HTTP429 (BE_Operational e));
}.
Record frequency_run_ok (run : list BehaviorEntry) : Prop := {
  fr_entries : Forall frequency_entry_ok run;
  fr_distinct : NoDup (BE_FingerprintID <$> run);
}.

(** ** Lists of calls *)
Definition present (cs : list Z) : list Z := List.filter (fun c => 0 <? c) cs.
Definition acc_of (cs : list Z) : option frequencyAccumulator :=
  match present cs with
  | [] => None
  | _ => Some {| fa_total := sumZ cs; fa_max := greatest cs; fa_minPresent := least (present cs);
                 fa_presentRuns := Z.of_nat (length (present cs)) |}
  end.

Lemma greatest_snoc cs c : 0 <= c -> greatest (cs ++ [c]) = Z.max (greatest cs) c.
Proof. intros Hc. unfold greatest. induction cs as [|x cs IH]; cbn [app foldr]; lia. Qed.
Lemma least_snoc cs c : cs <> [] -> least (cs ++ [c]) = Z.min (least cs) c.
Proof.
  destruct cs as [|x cs]; [done|]. intros _. cbn [app least]. induction cs as [|y cs IH]; cbn [app foldr]; lia.
Qed.
Lemma least_le cs c : c ∈ cs -> least cs <= c.
Proof.
  destruct cs as [|x cs]; [by intros ?%elem_of_nil|]. cbn [least]. intros [->|H]%elem_of_cons.
  - induction cs; cbn [foldr]; lia.
  - induction cs as [|y cs IH]; [by apply elem_of_nil in H|]. cbn [foldr]. apply elem_of_cons in H as [->|H]; [lia|].
    specialize (IH H). lia.
Qed.
Lemma least_nonneg cs : Forall (fun c => 0 <= c) cs -> 0 <= least cs.
Proof.
  destruct 1 as [|x cs Hx Hcs]; [done|]. cbn [least]. induction Hcs; cbn [foldr]; lia.
Qed.
Lemma greatest_ge cs c : c ∈ cs -> c <= greatest cs.
Proof.
  unfold greatest. induction cs as [|x cs IH]; [by intros ?%elem_of_nil|]. cbn [foldr]. intros [->|H%IH]%elem_of_cons; lia.
Qed.
Lemma present_snoc cs c : present (cs ++ [c]) = if 0 <? c then (present cs ++ [c])%list else present cs.
Proof. unfold present. rewrite List.filter_app. cbn. destruct (0 <? c); [done|]. by rewrite app_nil_r. Qed.
Lemma acc_of_zero cs : acc_of (cs ++ [0]) = acc_of cs.
Proof. unfold acc_of. rewrite present_snoc. cbn [Z.ltb Z.compare]. rewrite sumZ_app, greatest_snoc by done.
  replace (sumZ cs + sumZ [0]) with (sumZ cs) by (cbn; lia).
  assert (0 <= greatest cs) by (unfold greatest; clear; induction cs; cbn [foldr]; lia). by rewrite Z.max_l.
Qed.
Lemma acc_of_some cs : is_Some (acc_of cs) <-> exists c, c ∈ cs /\ 0 < c.
Proof.
  unfold acc_of, present. split.
  - destruct (List.filter _ cs) as [|c l] eqn:E; [by intros []|]. intros _. exists c.
    assert (Hin : In c (List.filter (fun c => 0 <? c) cs)) by (rewrite E; by left). apply filter_In in Hin as [Hin Hc%Z.ltb_lt].
    split; [by apply list_elem_of_In|done].
  - intros (c & Hin & Hc). assert (Hin' : In c (List.filter (fun c => 0 <? c) cs)).
    { apply filter_In. split; [by apply list_elem_of_In|by apply Z.ltb_lt]. }
    destruct (List.filter _ cs); [done|by eexists].
Qed.
Lemma acc_of_max cs a : acc_of cs = Some a -> fa_max a = greatest cs.
Proof. unfold acc_of. by destruct (present cs); [|intros [= <-]]. Qed.
Lemma present_length cs : (length (present cs) <= length cs)%nat.
Proof. unfold present. induction cs as [|c cs IH]; [done|]. cbn. destruct (0 <? c); cbn; lia. Qed.
Lemma present_nil cs : Forall (fun c => 0 <= c) cs -> present cs = [] -> sumZ cs = 0 /\ greatest cs = 0.
Proof.
  induction 1 as [|c cs Hc Hcs IH]; [done|]. unfold present in *. cbn [List.filter]. destruct (Z.ltb_spec 0 c); [done|]. intros E.
  destruct (IH E) as [E1 E2]. rewrite sumZ_cons. change (greatest (c :: cs)) with (Z.max c (greatest cs)). lia.
Qed.

(** One more run of calls. *)
Lemma accumulator_addRun_Ok cs c a' : Forall (fun c => 0 <= c) cs -> sumZ cs <= max_u64 -> Z.of_nat (length cs) < max_u64 ->
  is_u64 c -> 0 < c -> accumulator_addRun (default no_calls (acc_of cs)) c = Ok a' ->
  acc_of (cs ++ [c]) = Some a' /\ sumZ cs + c <= max_u64.
Proof.
  intros Hn Hs Hl Hu Hc H. unfold accumulator_addRun in H. res_inv.
  assert (Ht : fa_total (default no_calls (acc_of cs)) = sumZ cs).
  { unfold acc_of. destruct (present cs) eqn:E; [|done]. by destruct (present_nil cs Hn E) as [-> _]. }
  rewrite Ht, u64_small in * by ulia. bool_prop. split; [|lia]. subst a'.
  pose proof (present_length cs). pose proof (sumZ_nonneg cs Hn).
  unfold acc_of. rewrite present_snoc. rewrite (proj2 (Z.ltb_lt 0 c) Hc). rewrite sumZ_app, greatest_snoc by lia.
  replace (sumZ [c]) with c by (cbn; lia).
  destruct (present cs) as [|p ps] eqn:E.
  - cbn [app length default from_option id no_calls fa_max fa_presentRuns fa_minPresent least foldr Z.eqb orb]. f_equal.
    destruct (present_nil cs Hn E) as [E1 E2]. rewrite E1, E2, (u64_small (0 + c)), u64_small by ulia. done.
  - rewrite <- E in *. assert (Hne : present cs <> []) by by rewrite E.
    cbn [default from_option id fa_max fa_presentRuns fa_minPresent].
    destruct (present cs ++ [c])%list as [|q qs] eqn:E'; [by destruct (present cs)|]. rewrite <- E'. f_equal.
    rewrite least_snoc, length_app by done. cbn [length].
    rewrite !u64_small by ulia. rewrite (proj2 (Z.eqb_neq _ 0)) by (rewrite E; cbn [length]; lia). cbn [orb]. f_equal.
    + destruct (Z.ltb_spec c (least (present cs))); lia.
    + lia.
Qed.

(** ** Maps of accumulators and of counters *)
Section maps.
Context {K : Type} `{Countable K}.

(** The accumulator of every key is that of its calls in each run. *)
Definition accs (m : gmap K frequencyAccumulator) (cs : K -> list Z) : Prop :=
  forall k, m !! k = acc_of (cs k) /\ Forall (fun c => 0 <= c) (cs k) /\ sumZ (cs k) <= max_u64 /\
            Z.of_nat (length (cs k)) <= max_u64.

Lemma accs_ext m cs cs' : (forall k, cs k = cs' k) -> accs m cs -> accs m cs'.
Proof. intros E Ha k. rewrite <- E. apply Ha. Qed.

(** A key's last run has no calls yet; now it has [c]. *)
Lemma accumulate_accs m cs k l c m' : accs m cs -> cs k = (l ++ [0])%list -> is_u64 c -> 0 < c ->
  accumulate_at m k c = Ok m' -> accs m' (fun k' => if decide (k' = k) then l ++ [c] else cs k')%list.
Proof.
  intros Ha E Hu Hc Hm. unfold accumulate_at in Hm. res_inv. subst m'. destruct (Ha k) as (H1 & H2 & H3 & H4).
  rewrite E in H1, H2, H3, H4. rewrite acc_of_zero in H1. apply Forall_app in H2 as [H2 _].
  rewrite sumZ_app in H3. cbn [sumZ foldr] in H3. rewrite length_app in H4. cbn [length] in H4.
  rewrite H1 in Hok. replace (sumZ [0]) with 0 in H3 by done.
  apply accumulator_addRun_Ok in Hok as [Hok1 Hok2]; [|done|lia|lia|done|done].
  intros k'. case_decide as Ek; [subst k'; rewrite lookup_insert_eq|rewrite lookup_insert_ne by done; apply Ha].
  split; [done|]. split; [apply Forall_app; split; [done|by repeat constructor; lia]|].
  rewrite sumZ_app, length_app. cbn [length]. replace (sumZ [c]) with c by (cbn; lia). split; lia.
Qed.

(** A new run begins with no calls. *)
Lemma accs_new_run m cs : accs m cs -> (forall k, Z.of_nat (length (cs k)) < max_u64) -> accs m (fun k => cs k ++ [0])%list.
Proof.
  intros Ha Hl k. destruct (Ha k) as (H1 & H2 & H3 & H4). specialize (Hl k). rewrite acc_of_zero, sumZ_app, length_app. cbn [length].
  replace (sumZ [0]) with 0 by done. split; [done|]. split; [apply Forall_app; split; [done|by repeat constructor]|lia].
Qed.

(** Every counter has the given value; a key is present exactly when its value is not zero. *)
Definition counts (m : gmap K Z) (f : K -> Z) : Prop :=
  forall k, is_u64 (f k) /\ m !! k = if 0 <? f k then Some (f k) else None.

Lemma counts_count m f k : counts m f -> count_at m k = f k.
Proof. intros Hm. destruct (Hm k) as [Hu E]. unfold count_at. rewrite E. destruct (Z.ltb_spec 0 (f k)); cbn; ulia. Qed.

Lemma counts_ext m f g : (forall k, f k = g k) -> counts m f -> counts m g.
Proof. intros E Hm k. rewrite <- E. apply Hm. Qed.

Lemma add_counts m f k n m' : counts m f -> is_u64 n -> 0 < n -> add_at m k n = Ok m' ->
  counts m' (fun k' => f k' + if decide (k' = k) then n else 0).
Proof.
  intros Hm Hn Hpos Ha. unfold add_at in Ha. res_inv. rewrite (counts_count m f k Hm) in *. destruct (Hm k) as [Hk _].
  rewrite u64_small in * by ulia. bool_prop. subst m'. rewrite u64_small in * by ulia.
  intros k'. case_decide as Ek.
  - subst k'. rewrite lookup_insert_eq. split; [ulia|]. rewrite (proj2 (Z.ltb_lt _ _)); [done|ulia].
  - rewrite lookup_insert_ne by done. rewrite Z.add_0_r. apply Hm.
Qed.

(** The same for counters that may stay at zero: only the value read matters. *)
Definition reads (m : gmap K Z) (f : K -> Z) : Prop := forall k, is_u64 (f k) /\ count_at m k = f k.
Lemma add_reads m f k n m' : reads m f -> is_u64 n -> add_at m k n = Ok m' ->
  reads m' (fun k' => f k' + if decide (k' = k) then n else 0).
Proof.
  intros Hm Hn Ha. unfold add_at in Ha. res_inv. destruct (Hm k) as [Hk E]. rewrite E in *.
  rewrite u64_small in * by ulia. bool_prop. subst m'. rewrite u64_small in * by ulia.
  intros k'. unfold count_at. case_decide as Ek.
  - subst k'. rewrite lookup_insert_eq. cbn. split; [ulia|done].
  - rewrite lookup_insert_ne by done. rewrite Z.add_0_r. apply Hm.
Qed.
End maps.

(** ** One side of runs *)
Definition http_to (f : BehaviorEntry -> Z) (t : OperationalTarget) (e : BehaviorEntry) : Z :=
  if negb (BE_Observations e =? 0) && bool_decide (target_of e = t) then f e else 0.
Definition said_429 (e : BehaviorEntry) : Z := HTTP429 (BE_Operational e).
Definition said_status (e : BehaviorEntry) : Z := HTTP_Stated (HTTPStatus (BE_Operational e)).

Record frequency_is (runs : list (list BehaviorEntry)) (s : frequencySide) : Prop := {
  fi_runs : fs_runs s = Z.of_nat (length runs);
  fi_behaviors : accs (fs_behaviors s) (fun k => calls_of_behavior k <$> runs);
  fi_targets : accs (fs_targets s) (fun k => calls_to_target k <$> runs);
  fi_names : accs (fs_byName s) (fun k => calls_to_name k <$> runs);
  fi_429 : reads (fs_http429 s) (fun t => total (http_to said_429 t) (concat runs));
  fi_said : reads (fs_httpSaid s) (fun t => total (http_to said_status t) (concat runs));
}.

(** Within a run: [es] of its entries are counted. *)
Record entries_are (runs : list (list BehaviorEntry)) (s0 : frequencySide) (es : list BehaviorEntry)
    (s : frequencySide) (perTarget : gmap OperationalTarget Z) : Prop := {
  ea_frame : fs_runs s = fs_runs s0 /\ fs_targets s = fs_targets s0 /\ fs_byName s = fs_byName s0;
  ea_behaviors : accs (fs_behaviors s) (fun k => (calls_of_behavior k <$> runs) ++ [calls_of_behavior k es])%list;
  ea_targets : counts perTarget (fun t => calls_to_target t es);
  ea_429 : reads (fs_http429 s) (fun t => total (http_to said_429 t) (concat runs ++ es));
  ea_said : reads (fs_httpSaid s) (fun t => total (http_to said_status t) (concat runs ++ es));
}.

Lemma calls_snoc p es e : calls_where p (es ++ [e]) = calls_where p es + if p e then BE_Observations e else 0.
Proof. unfold calls_where. by rewrite total_snoc. Qed.

Lemma calls_behavior_snoc k es e :
  calls_of_behavior k (es ++ [e]) = calls_of_behavior k es + if BE_FingerprintID e =s k then BE_Observations e else 0.
Proof. apply calls_snoc. Qed.

Lemma calls_none fp es : fp ∉ BE_FingerprintID <$> es -> calls_of_behavior fp es = 0.
Proof.
  intros H. unfold calls_of_behavior, calls_where. transitivity (total (fun _ => 0) es).
  - apply total_ext. intros e He. destruct (String.eqb_spec (BE_FingerprintID e) fp) as [<-|]; [|done].
    destruct H. apply list_elem_of_fmap. by exists e.
  - unfold total. clear. induction es; [done|]. by rewrite fmap_cons, sumZ_cons, IHes.
Qed.

Lemma http_to_zero f t e : BE_Observations e = 0 -> http_to f t e = 0.
Proof. intros E. unfold http_to. by rewrite E. Qed.
Lemma http_to_at f t e : BE_Observations e <> 0 -> http_to f t e = if decide (t = target_of e) then f e else 0.
Proof.
  intros E. unfold http_to. rewrite (proj2 (Z.eqb_neq _ _) E). cbn [negb andb]. case_decide as Et.
  - subst t. by rewrite bool_decide_eq_true_2.
  - by rewrite bool_decide_eq_false_2 by congruence.
Qed.

Lemma frequency_entry_Ok runs s0 es e s pt x : entries_are runs s0 es s pt -> frequency_entry_ok e ->
  BE_FingerprintID e ∉ BE_FingerprintID <$> es -> frequency_entry (s, pt) e = Ok x ->
  entries_are runs s0 (es ++ [e]) x.1 x.2.
Proof.
  intros [F B T H4 Hs] [O1 O2] Hfp H. unfold frequency_entry in H.
  destruct (Z.eqb_spec (BE_Observations e) 0) as [E|E].
  - injection H as <-. cbn [fst snd]. split; [done| | | |].
    + eapply accs_ext; [|exact B]. intros k. rewrite calls_behavior_snoc, E.
      f_equal. f_equal. destruct (_ =s _); lia.
    + eapply counts_ext; [|exact T]. intros t. unfold calls_to_target. rewrite calls_snoc, E. destruct (bool_decide _); lia.
    + intros t. rewrite app_assoc, total_snoc, http_to_zero, Z.add_0_r by done. apply H4.
    + intros t. rewrite app_assoc, total_snoc, http_to_zero, Z.add_0_r by done. apply Hs.
  - res_inv. subst x. cbn [fst snd]. assert (Hpos : 0 < BE_Observations e) by (unfold is_u64 in O1; lia).
    split; cbn [fs_runs fs_targets fs_byName fs_behaviors fs_http429 fs_httpSaid].
    + done.
    + eapply accs_ext; [|eapply (accumulate_accs _ _ (BE_FingerprintID e)); [exact B| |exact O1|exact Hpos|exact Hok]].
      2: { cbv beta. by rewrite (calls_none _ es Hfp). }
      intros k. cbv beta. rewrite calls_behavior_snoc. case_decide as Ek.
      * subst k. by rewrite String.eqb_refl, (calls_none _ es Hfp).
      * rewrite (proj2 (String.eqb_neq _ _)) by congruence. by rewrite Z.add_0_r.
    + eapply counts_ext; [|eapply add_counts; [exact T|exact O1|exact Hpos|exact Hok0]].
      intros t. cbv beta. unfold calls_to_target. rewrite calls_snoc. f_equal. case_decide as Et.
      * subst t. by rewrite bool_decide_eq_true_2.
      * by rewrite bool_decide_eq_false_2 by congruence.
    + intros t. rewrite app_assoc, total_snoc, http_to_at by done. exact (add_reads _ _ _ _ _ H4 O2 Hok1 t).
    + intros t. rewrite app_assoc, total_snoc, http_to_at by done. exact (add_reads _ _ _ _ _ Hs (u64_range _) Hok2 t).
Qed.

Lemma entries_fold runs s0 rest : forall es s pt s' pt', entries_are runs s0 es s pt ->
  Forall frequency_entry_ok rest -> NoDup (BE_FingerprintID <$> (es ++ rest)%list) ->
  foldM frequency_entry (s, pt) rest = Ok (s', pt') -> entries_are runs s0 (es ++ rest) s' pt'.
Proof.
  induction rest as [|e rest IH]; intros es s pt s' pt' He Hok Hnd H; cbn [foldM] in H.
  - injection H as <- <-. by rewrite app_nil_r.
  - apply Forall_cons in Hok as [Ho Hok]. res_inv. destruct a as [s1 pt1]. change (e :: rest) with ([e] ++ rest)%list in *.
    rewrite app_assoc in *. assert (Hfp : BE_FingerprintID e ∉ BE_FingerprintID <$> es).
    { rewrite !fmap_app in Hnd. apply NoDup_app in Hnd as [Hnd _]. apply NoDup_app in Hnd as (_ & Hd & _). intros Hin.
      by apply (Hd _ Hin); left. }
    apply (IH _ s1 pt1); try done. by apply (frequency_entry_Ok _ _ _ _ _ _ _ He Ho Hfp Hok0).
Qed.

(** The sum over the keys is the sum over the entries. *)
Lemma sum_switch {K} `{EqDecision K} (g : BehaviorEntry -> K) (f : BehaviorEntry -> Z) (sel : K -> bool) ks es : NoDup ks ->
  (forall e, e ∈ es -> f e <> 0 -> g e ∈ ks) ->
  sumZ ((fun k => if sel k then total (fun e => if bool_decide (g e = k) then f e else 0) es else 0) <$> ks) =
  total (fun e => if sel (g e) then f e else 0) es.
Proof.
  intros Hnd. induction es as [|e es IH]; intros H.
  { unfold total. cbn. clear. induction ks; [done|]. rewrite fmap_cons, sumZ_cons, IHks. by destruct (sel a). }
  assert (Hone : forall l, NoDup l -> sumZ ((fun k => if sel k then if bool_decide (g e = k) then f e else 0 else 0) <$> l) =
    if bool_decide (g e ∈ l) then (if sel (g e) then f e else 0) else 0).
  { clear. intros l Hl. induction Hl as [|k l Hk Hl IH].
    - cbn. by rewrite bool_decide_eq_false_2 by apply not_elem_of_nil.
    - rewrite fmap_cons, sumZ_cons, IH. destruct (decide (g e = k)) as [<-|Hne].
      + assert (Hin : g e ∈ g e :: l) by by left.
        rewrite (bool_decide_eq_true_2 (g e = g e)), (bool_decide_eq_false_2 _ Hk), (bool_decide_eq_true_2 _ Hin) by done. lia.
      + rewrite (bool_decide_eq_false_2 _ Hne). assert (Hiff : g e ∈ k :: l <-> g e ∈ l) by (rewrite elem_of_cons; tauto).
        rewrite (bool_decide_ext _ _ Hiff). destruct (sel k); lia. }
  assert (Hsplit : sumZ ((fun k => if sel k then total (fun e => if bool_decide (g e = k) then f e else 0) (e :: es) else 0) <$> ks) =
    sumZ ((fun k => if sel k then if bool_decide (g e = k) then f e else 0 else 0) <$> ks) +
    sumZ ((fun k => if sel k then total (fun e => if bool_decide (g e = k) then f e else 0) es else 0) <$> ks)).
  { clear. induction ks as [|k ks IH]; [done|]. rewrite !fmap_cons, !sumZ_cons, IH. destruct (sel k); [|lia].
    unfold total. rewrite fmap_cons, sumZ_cons. lia. }
  rewrite Hsplit, IH by (intros; apply H; [by right|done]). rewrite Hone by done.
  unfold total at 2. rewrite fmap_cons, sumZ_cons. fold (total (fun e => if sel (g e) then f e else 0) es).
  destruct (decide (g e ∈ ks)) as [Hin|Hin]; [by rewrite (bool_decide_eq_true_2 _ Hin)|].
  rewrite (bool_decide_eq_false_2 _ Hin). destruct (Z.eq_dec (f e) 0) as [->|Hf]; [by destruct (sel (g e))|].
  destruct Hin. apply H; [by left|done].
Qed.

(** ** The targets and names of a run *)
Definition from_target (n : string) (item : OperationalTarget * Z) : Z := if OT_Name item.1 =s n then item.2 else 0.

Lemma target_fold runs run rest : forall seen targets perName targets' perName',
  accs targets (fun t => (calls_to_target t <$> runs) ++ [if decide (t ∈ seen.*1) then calls_to_target t run else 0])%list ->
  counts perName (fun n => sumZ (from_target n <$> seen)) ->
  NoDup (seen ++ rest)%list.*1 -> (forall t c, (t, c) ∈ rest -> c = calls_to_target t run /\ is_u64 c /\ 0 < c) ->
  foldM frequency_target (targets, perName) rest = Ok (targets', perName') ->
  accs targets' (fun t => (calls_to_target t <$> runs) ++ [if decide (t ∈ (seen ++ rest)%list.*1) then calls_to_target t run else 0])%list /\
  counts perName' (fun n => sumZ (from_target n <$> (seen ++ rest)%list)).
Proof.
  induction rest as [|[t c] rest IH]; intros seen targets perName targets' perName' Ha Hc Hnd Hr H; cbn [foldM] in H.
  - injection H as <- <-. by rewrite app_nil_r.
  - res_inv. destruct a as [tg pn]. unfold frequency_target in Hok. res_inv. subst.
    destruct (Hr t c ltac:(by left)) as (Ec & Hu & Hpos). change ((t, c) :: rest) with ([(t, c)] ++ rest)%list in *. rewrite app_assoc in *.
    assert (Hnew : t ∉ seen.*1).
    { rewrite !fmap_app in Hnd. apply NoDup_app in Hnd as [Hnd _]. apply NoDup_app in Hnd as (_ & Hd & _). intros Hin. by apply (Hd _ Hin); left. }
    apply (IH _ tg pn targets' perName'); try done; [| |intros; apply Hr; by right].
    + eapply accs_ext; [|eapply (accumulate_accs _ _ t); [exact Ha| |exact Hu|exact Hpos|exact Hok0]].
      2: { cbv beta. by rewrite decide_False. }
      intros k. cbv beta. rewrite fmap_app. cbn [fmap list_fmap fst]. case_decide as Ek.
      * subst k. rewrite decide_True; [by rewrite Ec|]. apply elem_of_app. right. by left.
      * f_equal. f_equal. destruct (decide (k ∈ seen.*1)) as [Hin|Hin];
          [rewrite decide_True; [done|by apply elem_of_app; left]|rewrite decide_False; [done|]].
        intros [?|[?|?%elem_of_nil]%elem_of_cons]%elem_of_app; done.
    + eapply counts_ext; [|eapply add_counts; [exact Hc|exact Hu|exact Hpos|exact Hok1]].
      intros n. cbv beta. rewrite fmap_app, sumZ_app. f_equal. cbn. unfold from_target. cbn.
      case_decide as En; [subst n; rewrite String.eqb_refl; lia|]. rewrite (proj2 (String.eqb_neq _ _)) by congruence. lia.
Qed.

Lemma name_fold runs run rest : forall seen names names',
  accs names (fun n => (calls_to_name n <$> runs) ++ [if decide (n ∈ seen.*1) then calls_to_name n run else 0])%list ->
  NoDup (seen ++ rest)%list.*1 -> (forall n c, (n, c) ∈ rest -> c = calls_to_name n run /\ is_u64 c /\ 0 < c) ->
  foldM (fun m item => accumulate_at m item.1 item.2) names rest = Ok names' ->
  accs names' (fun n => (calls_to_name n <$> runs) ++ [if decide (n ∈ (seen ++ rest)%list.*1) then calls_to_name n run else 0])%list.
Proof.
  induction rest as [|[t c] rest IH]; intros seen names names' Ha Hnd Hr H; cbn [foldM] in H.
  - injection H as <-. by rewrite app_nil_r.
  - res_inv. destruct (Hr t c ltac:(by left)) as (Ec & Hu & Hpos).
    change ((t, c) :: rest) with ([(t, c)] ++ rest)%list in *. rewrite app_assoc in *.
    assert (Hnew : t ∉ seen.*1).
    { rewrite !fmap_app in Hnd. apply NoDup_app in Hnd as [Hnd _]. apply NoDup_app in Hnd as (_ & Hd & _). intros Hin. by apply (Hd _ Hin); left. }
    eapply IH; try done; [|intros; apply Hr; by right].
    eapply accs_ext; [|eapply (accumulate_accs _ _ t); [exact Ha| |exact Hu|exact Hpos|exact Hok]].
    2: { cbv beta. by rewrite decide_False. }
    intros k. cbv beta. rewrite fmap_app. cbn [fmap list_fmap fst]. case_decide as Ek.
    * subst k. rewrite decide_True; [by rewrite Ec|]. apply elem_of_app. right. by left.
    * f_equal. f_equal. destruct (decide (k ∈ seen.*1)) as [Hin|Hin];
        [rewrite decide_True; [done|by apply elem_of_app; left]|rewrite decide_False; [done|]].
      intros [?|[?|?%elem_of_nil]%elem_of_cons]%elem_of_app; done.
Qed.

Lemma calls_nonneg p run : Forall frequency_entry_ok run -> 0 <= calls_where p run.
Proof.
  intros H. apply total_nonneg. intros e He. rewrite Forall_forall in H. destruct (H e He) as [O _]. unfold is_u64 in O.
  destruct (p e); lia.
Qed.

Section sides.
Context `{order : MapOrder}.

Lemma perTarget_names run pt : Forall frequency_entry_ok run -> counts pt (fun t => calls_to_target t run) ->
  forall n, sumZ (from_target n <$> range pt) = calls_to_name n run.
Proof.
  intros Hok Hpt n. transitivity (sumZ ((fun t => if OT_Name t =s n then total (fun e => if bool_decide (target_of e = t) then BE_Observations e else 0) run else 0) <$> (range pt).*1)).
  - rewrite <- list_fmap_compose. f_equal. apply list_fmap_ext. intros i [t c] Hi. apply list_elem_of_lookup_2, elem_of_range in Hi.
    destruct (Hpt t) as [_ E]. rewrite E in Hi. destruct (Z.ltb_spec 0 (calls_to_target t run)); [|done]. injection Hi as <-. done.
  - rewrite (sum_switch target_of BE_Observations (fun t => OT_Name t =s n)); [done|apply NoDup_range|].
    intros e He Hne. apply elem_of_range_keys. destruct (Hpt (target_of e)) as [_ ->].
    rewrite (proj2 (Z.ltb_lt _ _)); [by eexists|]. rewrite Forall_forall in Hok. destruct (Hok e He) as [O _].
    assert (Hle : BE_Observations e <= calls_to_target (target_of e) run); [|unfold is_u64 in O; lia].
    unfold calls_to_target, calls_where, total. apply sumZ_elem.
    + apply Forall_fmap, Forall_forall. intros e' He'. destruct (Hok e' He') as [O' _]. unfold is_u64 in O'. cbn. destruct (bool_decide _); lia.
    + apply list_elem_of_fmap. exists e. by rewrite bool_decide_eq_true_2.
Qed.

Lemma new_run_zero {K} `{Countable K} (m : gmap K frequencyAccumulator) (cs : K -> list Z) :
  accs m cs -> (forall k, Z.of_nat (length (cs k)) < max_u64) -> accs m (fun k => cs k ++ [if decide (k ∈ ([] : list (K * Z)).*1) then 0 else 0])%list.
Proof. intros Ha Hl. eapply accs_ext; [|by apply accs_new_run]. intros k. cbv beta. by destruct (decide _). Qed.

Lemma frequency_addRun_Ok runs s run s' : frequency_is runs s -> frequency_run_ok run -> Z.of_nat (length runs) < max_u64 ->
  frequency_addRun s run = Ok s' -> frequency_is (runs ++ [run]) s'.
Proof.
  intros [F1 F2 F3 F4 F5 F6] [Hok Hnd] Hl H. unfold frequency_addRun in H. res_inv.
  destruct a as [s1 pt]. res_inv. destruct a as [tg pn]. res_inv. subst s'.
  assert (Hlen : forall A (f : list BehaviorEntry -> A), Z.of_nat (length (f <$> runs)) < max_u64) by (intros; by rewrite length_fmap).
  set (s0 := {| fs_runs := u64 (fs_runs s + 1); fs_behaviors := fs_behaviors s; fs_targets := fs_targets s;
    fs_byName := fs_byName s; fs_http429 := fs_http429 s; fs_httpSaid := fs_httpSaid s |}) in *.
  assert (H0 : entries_are runs s0 [] s0 ∅).
  { split; cbn; [done|by apply accs_new_run| |intros t; rewrite app_nil_r; apply F5|intros t; rewrite app_nil_r; apply F6].
    intros t. split; [done|]. by rewrite lookup_empty. }
  destruct (entries_fold runs s0 run [] s0 ∅ s1 pt H0 Hok Hnd Hok0) as [(E1 & E2 & E3) B T H4 Hs]. cbn [app] in *.
  rewrite E2 in Hok1. cbn [s0 fs_targets] in Hok1.
  assert (Hpt : forall t c, (t, c) ∈ range pt -> c = calls_to_target t run /\ is_u64 c /\ 0 < c).
  { intros t c Hin%elem_of_range. destruct (T t) as [Hu E]. rewrite E in Hin.
    destruct (Z.ltb_spec 0 (calls_to_target t run)); [|done]. by injection Hin as <-. }
  destruct (target_fold runs run (range pt) [] (fs_targets s) ∅ tg pn) as [Ht Hn]; try done.
  { apply new_run_zero; [done|]. intros. apply Hlen. }
  { cbn [app]. apply NoDup_range. }
  cbn [app] in Ht, Hn. assert (Hn' : counts pn (fun n => calls_to_name n run)).
  { eapply counts_ext; [|exact Hn]. intros n. cbv beta. by apply perTarget_names. }
  rewrite E3 in Hok2. cbn [s0 fs_byName] in Hok2.
  assert (Hna : accs a (fun n => (calls_to_name n <$> runs) ++ [if decide (n ∈ ([] ++ range pn)%list.*1) then calls_to_name n run else 0])%list).
  { apply (name_fold runs run (range pn) [] (fs_byName s)); [apply new_run_zero; [done|intros; apply Hlen]|apply NoDup_range| |done].
    intros n c Hin%elem_of_range. destruct (Hn' n) as [Hu E]. rewrite E in Hin.
    destruct (Z.ltb_spec 0 (calls_to_name n run)); [|done]. by injection Hin as <-. }
  cbn [app] in Hna. split; cbn [fs_runs fs_behaviors fs_targets fs_byName fs_http429 fs_httpSaid].
  - rewrite E1. cbn [s0 fs_runs]. rewrite F1, length_app. cbn [length]. rewrite u64_small by ulia. lia.
  - eapply accs_ext; [|exact B]. intros k. cbv beta. by rewrite fmap_app.
  - eapply accs_ext; [|exact Ht]. intros t. cbv beta. rewrite fmap_app. f_equal. cbn [fmap list_fmap]. f_equal.
    destruct (decide _) as [Hin|Hin]; [done|]. destruct (T t) as [_ E]. destruct (Z.ltb_spec 0 (calls_to_target t run)) as [L|L].
    + destruct Hin. apply elem_of_range_keys. by rewrite E.
    + pose proof (calls_nonneg (fun e => bool_decide (target_of e = t)) run Hok). unfold calls_to_target in *. lia.
  - eapply accs_ext; [|exact Hna]. intros n. cbv beta. rewrite fmap_app. f_equal. cbn [fmap list_fmap]. f_equal.
    destruct (decide _) as [Hin|Hin]; [done|]. destruct (Hn' n) as [_ E]. destruct (Z.ltb_spec 0 (calls_to_name n run)) as [L|L].
    + destruct Hin. apply elem_of_range_keys. by rewrite E.
    + pose proof (calls_nonneg (fun e => OT_Name (target_of e) =s n) run Hok). unfold calls_to_name in *. lia.
  - intros t. rewrite concat_app. cbn [concat]. rewrite app_nil_r. apply H4.
  - intros t. rewrite concat_app. cbn [concat]. rewrite app_nil_r. apply Hs.
Qed.
Lemma frequency_runs_Ok rest : forall runs s s', frequency_is runs s -> Forall frequency_run_ok rest ->
  Z.of_nat (length runs) + Z.of_nat (length rest) <= max_u64 ->
  foldM frequency_addRun s rest = Ok s' -> frequency_is (runs ++ rest) s'.
Proof.
  induction rest as [|run rest IH]; intros runs s s' Hs Hok Hl H; cbn [foldM] in H.
  - injection H as <-. by rewrite app_nil_r.
  - apply Forall_cons in Hok as [Hr Hok]. res_inv. change (run :: rest) with ([run] ++ rest)%list. rewrite app_assoc.
    cbn [length] in Hl. apply (IH _ a); try done; [|rewrite length_app; cbn [length]; lia].
    apply (frequency_addRun_Ok _ s); try done. lia.
Qed.

Lemma new_side_is : frequency_is [] newFrequencySide.
Proof. split; try done; intros k; cbn; by rewrite ?lookup_empty. Qed.
End sides.

(** ** The statistics are those of the calls *)
Lemma floorDivTimes1000_exact n d : is_u64 n -> 0 < d -> is_u64 d ->
  floorDivTimes1000 n d = if n * 1000 / d <=? max_u64 then Ok (n * 1000 / d) else Err [ErrFrequencyOverflow].
Proof.
  intros Hn Hd Hu. unfold floorDivTimes1000, Mul64, Div64, word, max_u64 in *. set (x := n * 1000). set (w := 18446744073709551616).
  pose proof (Z.div_mod x w ltac:(lia)) as D. pose proof (Z.mod_pos_bound x w ltac:(lia)) as M.
  replace (x / w * w + x mod w) with x by lia. destruct (Z.leb_spec (x / d) 18446744073709551615) as [H|H].
  - rewrite (proj2 (Z.leb_gt d (x / w))); [done|]. destruct (Z.lt_ge_cases (x / w) d); [done|]. exfalso.
    assert (w <= x / d); [apply Z.div_le_lower_bound; nia|lia].
  - rewrite (proj2 (Z.leb_le d (x / w))); [done|]. destruct (Z.le_gt_cases d (x / w)); [done|]. exfalso.
    assert (x / d < w); [apply Z.div_lt_upper_bound; nia|lia].
Qed.

Definition reported (cs : list Z) : res FrequencyStats :=
  if CallsPerRunMeanMilli (stats_of cs) <=? max_u64 then Ok (stats_of cs) else Err [ErrFrequencyOverflow].

Lemma present_or_zero cs : Forall (fun c => 0 <= c) cs ->
  present cs = cs \/ (length (present cs) < length cs)%nat /\ least cs = 0.
Proof.
  intros Hn. assert (H : present cs = cs \/ (length (present cs) < length cs)%nat /\ 0 ∈ cs).
  { induction Hn as [|x l Hx Hl IH]; [by left|]. unfold present in *. cbn [List.filter length]. destruct (Z.ltb_spec 0 x).
    - destruct IH as [->|[H1 H2]]; [by left|right]. cbn [length]. split; [lia|by right].
    - right. pose proof (present_length l). unfold present in *. split; [lia|]. assert (x = 0) as -> by lia. by left. }
  destruct H as [?|[? Hin]]; [by left|right]. split; [done|].
  pose proof (least_le _ _ Hin). pose proof (least_nonneg cs Hn). lia.
Qed.

Lemma acc_stats cs : Forall (fun c => 0 <= c) cs -> sumZ cs <= max_u64 -> Z.of_nat (length cs) <= max_u64 ->
  accumulator_stats (default no_calls (acc_of cs)) (Z.of_nat (length cs)) = reported cs.
Proof.
  intros Hn Hs Hl. unfold accumulator_stats. destruct cs as [|c cs]; [done|]. set (all := c :: cs) in *.
  rewrite (proj2 (Z.eqb_neq _ 0)) by (unfold all; cbn [length]; lia).
  assert (Ht : fa_total (default no_calls (acc_of all)) = sumZ all /\ fa_max (default no_calls (acc_of all)) = greatest all).
  { unfold acc_of. destruct (present all) eqn:E; [|done]. by destruct (present_nil all Hn E) as [-> ->]. }
  destruct Ht as [-> ->]. pose proof (sumZ_nonneg all Hn).
  rewrite floorDivTimes1000_exact by (unfold is_u64; try lia; unfold all; cbn [length]; lia).
  unfold reported, stats_of. cbn [CallsPerRunMeanMilli]. destruct (Z.leb_spec (sumZ all * 1000 / Z.of_nat (length all)) max_u64); [|done].
  cbn [mbind res_bind]. do 2 f_equal. unfold acc_of. destruct (present_or_zero all Hn) as [->|[Hlt Hz]].
  - unfold all at 1. cbn [default from_option id fa_presentRuns fa_minPresent]. by rewrite Z.ltb_irrefl.
  - rewrite Hz. destruct (present all) eqn:E; cbn [default from_option id no_calls fa_presentRuns fa_minPresent].
    + by rewrite (proj2 (Z.ltb_lt 0 _)) by (unfold all; cbn [length]; lia).
    + by rewrite (proj2 (Z.ltb_lt _ _)) by lia.
Qed.

Lemma accs_stats {K} `{Countable K} (m : gmap K frequencyAccumulator) (f : K -> list BehaviorEntry -> Z) runs k :
  accs m (fun k => f k <$> runs) ->
  accumulator_stats (default no_calls (m !! k)) (Z.of_nat (length runs)) = reported (f k <$> runs).
Proof.
  intros Hm. destruct (Hm k) as (-> & H2 & H3 & H4). rewrite <- (acc_stats (f k <$> runs)) by done. by rewrite length_fmap.
Qed.

Lemma mapM_res_Forall2 {A B} (f : A -> res B) l l' : mapM f l = Ok l' -> Forall2 (fun x y => f x = Ok y) l l'.
Proof.
  revert l'. induction l as [|x l IH]; intros l' H; cbn in H; [injection H as <-; constructor|]. res_inv. subst l'.
  constructor; [done|]. by apply IH.
Qed.

(** ** Properties *)
Definition called (t : OperationalTarget) (runs : list (list BehaviorEntry)) : Prop :=
  exists run e, run ∈ runs /\ e ∈ run /\ target_of e = t /\ BE_Observations e <> 0.

Section exact.
Context `{order : MapOrder}.

Lemma called_iff t runs : Forall frequency_run_ok runs ->
  (is_Some (acc_of (calls_to_target t <$> runs)) <-> called t runs).
Proof.
  intros Hok. assert (Hpos : forall run, run ∈ runs -> (0 < calls_to_target t run <-> exists e, e ∈ run /\ target_of e = t /\ BE_Observations e <> 0)).
  { intros run Hr. rewrite Forall_forall in Hok. destruct (Hok run Hr) as [He _]. rewrite Forall_forall in He. split.
    - intros Hp. destruct (decide (Exists (fun e => target_of e = t /\ BE_Observations e <> 0) run)) as [Hx|Hx].
      + apply Exists_exists in Hx as (e & ? & ? & ?). eauto.
      + exfalso. apply not_Exists_Forall in Hx; [|apply _]. assert (calls_to_target t run = 0); [|lia].
        unfold calls_to_target, calls_where. transitivity (total (fun _ => 0) run).
        * apply total_ext. intros e Hin. destruct (decide (target_of e = t)) as [E|E]; [|by rewrite bool_decide_eq_false_2].
          rewrite bool_decide_eq_true_2 by done. rewrite Forall_forall in Hx. specialize (Hx e Hin). cbv beta in Hx.
          destruct (Z.eq_dec (BE_Observations e) 0); [done|]. by destruct Hx.
        * unfold total. clear. induction run; [done|]. by rewrite fmap_cons, sumZ_cons, IHrun.
    - intros (e & Hin & Ht & Hne). destruct (He e Hin) as [O _].
      assert (BE_Observations e <= calls_to_target t run); [|unfold is_u64 in O; lia].
      unfold calls_to_target, calls_where, total. apply sumZ_elem.
      + apply Forall_fmap, Forall_forall. intros e' He'. destruct (He e' He') as [O' _]. unfold is_u64 in O'. cbn. destruct (bool_decide _); lia.
      + apply list_elem_of_fmap. exists e. by rewrite bool_decide_eq_true_2. }
  rewrite acc_of_some. split.
  - intros (c & (run & -> & Hr)%list_elem_of_fmap & Hc). apply (Hpos run Hr) in Hc as (e & ? & ? & ?). by exists run, e.
  - intros (run & e & Hr & He & Ht & Hne). exists (calls_to_target t run). split; [apply list_elem_of_fmap; eauto|].
    apply Hpos; [done|]. eauto.
Qed.

(** The statistics a side reports are those of its runs. *)
Lemma reported_Ok cs s : reported cs = Ok s -> s = stats_of cs.
Proof. unfold reported. destruct (_ <=? _); [by intros [= <-]|done]. Qed.
Lemma side_targetStats_Ok runs side t s : frequency_is runs side -> side_targetStats side t = Ok s -> s = stats_of (calls_to_target t <$> runs).
Proof.
  intros Hi Hs. unfold side_targetStats in Hs. rewrite (fi_runs _ _ Hi) in Hs.
  rewrite (accs_stats _ _ _ _ (fi_targets _ _ Hi)) in Hs. by apply reported_Ok.
Qed.
Lemma side_behaviorStats_Ok runs side fp s : frequency_is runs side -> side_behaviorStats side fp = Ok s -> s = stats_of (calls_of_behavior fp <$> runs).
Proof.
  intros Hi Hs. unfold side_behaviorStats in Hs. rewrite (fi_runs _ _ Hi) in Hs.
  rewrite (accs_stats _ _ _ _ (fi_behaviors _ _ Hi)) in Hs. by apply reported_Ok.
Qed.

(** What one row says of a target. *)
Record row_exact (reference candidate : list (list BehaviorEntry)) (row : RepeatedTargetFrequency) : Prop := {
  re_reference : TF_Reference row = stats_of (calls_to_target (TF_Target row) <$> reference);
  re_candidate : TF_Candidate row = stats_of (calls_to_target (TF_Target row) <$> candidate);
  re_ratio : RatioAvailable row = true <-> 0 < CallsTotal (TF_Reference row);
  re_permille : RatioAvailable row = true ->
    CallRatioPermille row = CallsTotal (TF_Candidate row) * 1000 / CallsTotal (TF_Reference row);
  re_429 : CandidateHTTP429 row = total (http_to said_429 (TF_Target row)) (concat candidate);
  re_stated : CandidateHTTPStated row = total (http_to said_status (TF_Target row)) (concat candidate);
}.

(** the frequency evidence of two sides is that of their runs. Once the sides are built,
    the statistics of every behavior are the number of runs, the total, least and greatest
    calls of a run - a run without the behavior counting as zero - and the floor of the mean
    in thousandths; the target rows are in order without repetition, one for each target some
    run calls, with the exact statistics, ratio and status counts. Go's map order plays no
    part. *)
Theorem frequency_exact reference candidate r c rows :
  Forall frequency_run_ok reference -> Forall frequency_run_ok candidate ->
  Z.of_nat (length reference) <= max_u64 -> Z.of_nat (length candidate) <= max_u64 ->
  foldM frequency_addRun newFrequencySide reference = Ok r ->
  foldM frequency_addRun newFrequencySide candidate = Ok c ->
  targetFrequencies r c = Ok rows ->
  (forall fp s, side_behaviorStats r fp = Ok s -> s = stats_of (calls_of_behavior fp <$> reference)) /\
  (forall fp s, side_behaviorStats c fp = Ok s -> s = stats_of (calls_of_behavior fp <$> candidate)) /\
  StronglySorted target_le (TF_Target <$> rows) /\ NoDup (TF_Target <$> rows) /\
  (forall t, t ∈ TF_Target <$> rows <-> called t reference \/ called t candidate) /\
  Forall (row_exact reference candidate) rows.
Proof.
  intros O1 O2 L1 L2 H1 H2 H.
  pose proof (frequency_runs_Ok reference [] _ _ new_side_is O1 L1 H1) as R. cbn [app] in R.
  pose proof (frequency_runs_Ok candidate [] _ _ new_side_is O2 L2 H2) as C. cbn [app] in C.
  pose proof side_targetStats_Ok as Hst. pose proof side_behaviorStats_Ok as Hbs.
  split; [intros; by apply (Hbs _ r)|]. split; [intros; by apply (Hbs _ c)|].
  assert (Hrows : Forall2 (fun t row => target_row r c t = Ok row) (target_keys r c) rows) by by apply mapM_res_Forall2.
  assert (Hkeys : TF_Target <$> rows = target_keys r c).
  { clear - Hrows. induction Hrows as [|t row ts rows Ht _ IH]; [done|]. rewrite fmap_cons, IH. f_equal.
    unfold target_row in Ht. res_inv. destruct a1 as [ratio av]. res_inv. by subst row. }
  rewrite Hkeys. split; [apply (StronglySorted_merge_sort _)|]. split; [|split].
  - unfold target_keys. rewrite merge_sort_Permutation. apply NoDup_app. split; [apply NoDup_range|]. split.
    + intros t Hr Hf. apply list_elem_of_In, filter_In in Hf as [_ Hf%bool_decide_eq_true]. apply elem_of_range_keys in Hr as [a Ha]. congruence.
    + apply NoDup_ListNoDup, List.NoDup_filter, NoDup_ListNoDup, NoDup_range.
  - intros t. unfold target_keys. rewrite merge_sort_Permutation, elem_of_app, elem_of_range_keys.
    rewrite list_elem_of_In, filter_In, <- list_elem_of_In, elem_of_range_keys, bool_decide_eq_true.
    destruct (fi_targets _ _ R t) as [E1 _]. destruct (fi_targets _ _ C t) as [E2 _]. rewrite E1, E2, <- !called_iff by done.
    destruct (acc_of (calls_to_target t <$> reference)); naive_solver.
  - apply Forall_forall. intros row Hin. apply list_elem_of_lookup in Hin as [i Hi].
    destruct (Forall2_lookup_r _ _ _ _ _ Hrows Hi) as (t & _ & Ht). unfold target_row in Ht. res_inv. destruct a1 as [ratio av]. res_inv. subst row.
    pose proof (Hst _ _ _ _ R Hok) as E1. pose proof (Hst _ _ _ _ C Hok0) as E2. 
    destruct (fi_429 _ _ C t) as [_ E3]. destruct (fi_said _ _ C t) as [_ E4].
    destruct (Z.ltb_spec 0 (CallsTotal a)) as [L|L]; res_inv; subst ratio av.
    + split; cbn [TF_Target TF_Reference TF_Candidate CallRatioPermille RatioAvailable CandidateHTTP429 CandidateHTTPStated]; try done.
      intros _. assert (Hu : forall runs side, frequency_is runs side -> is_u64 (sumZ (calls_to_target t <$> runs))).
      { intros runs side Hfi. destruct (fi_targets _ _ Hfi t) as (_ & Hn & Hs & _). split; [by apply sumZ_nonneg|done]. }
      match goal with H : floorDivTimes1000 _ _ = Ok _ |- _ => rename H into Hd end.
      rewrite floorDivTimes1000_exact in Hd; [|rewrite E2; exact (Hu _ _ C)|lia|rewrite E1; exact (Hu _ _ R)].
      destruct (_ <=? _); [by injection Hd|done].
    + split; cbn; try done. split; [done|lia].
Qed.
End exact.

Definition call_entry (fp target : string) (n limited : Z) : BehaviorEntry :=
  {| BE_FingerprintID := fp; BE_Behavior := sample_stable fp target; BE_Observations := n;
     BE_Operational :=
       {| Buckets := zero_buckets; Durations := zero_durations; SpanStatus_ := zero_statuses; HTTPStatus := zero_http; HTTP429 := limited;
          Tokens := zero_tokens |};
     BE_Fidelity := zero_fidelity |}.
Definition example_reference : list (list BehaviorEntry) := [[call_entry "a" "db" 2 0]; [call_entry "b" "db" 1 0; call_entry "c" "api" 4 0]].
Definition example_candidate : list (list BehaviorEntry) := [[call_entry "a" "db" 6 1]; []].

Lemma frequency_exact_witness : exists r c rows,
  foldM (@frequency_addRun key_order) newFrequencySide example_reference = Ok r /\
  foldM (@frequency_addRun key_order) newFrequencySide example_candidate = Ok c /\
  @targetFrequencies key_order r c = Ok rows /\ NoDup (TF_Target <$> rows) /\
  Forall (row_exact example_reference example_candidate) rows.
Proof.
  destruct (foldM (@frequency_addRun key_order) newFrequencySide example_reference) as [r|] eqn:Er; [|by vm_compute in Er].
  destruct (foldM (@frequency_addRun key_order) newFrequencySide example_candidate) as [c|] eqn:Ec; [|by vm_compute in Ec].
  destruct (@targetFrequencies key_order r c) as [rows|] eqn:Et.
  2: { exfalso. vm_compute in Er, Ec. injection Er as <-. injection Ec as <-. by vm_compute in Et. }
  assert (O1 : Forall frequency_run_ok example_reference).
  { repeat constructor; cbn; try (unfold is_u64, max_u64; lia); rewrite ?list_elem_of_singleton; try apply not_elem_of_nil; done. }
  assert (O2 : Forall frequency_run_ok example_candidate).
  { repeat constructor; cbn; try (unfold is_u64, max_u64; lia); try apply not_elem_of_nil; done. }
  destruct (@frequency_exact key_order _ _ _ _ _ O1 O2 ltac:(done) ltac:(done) Er Ec Et) as (_ & _ & _ & H1 & _ & H2).
  exists r, c, rows. by split_and!.
Defined.
