(* ===== verification/Preview.v ===== *)
(** * Package platform: bounded previews of untrusted text (aggregate.go)

    [preview] and the [strconv.Quote] it calls.  Most previews end in error text, which is not
    modelled; the one that is stored - the missing evidence of a deferred gate check - is
    why they are here.  Which runes above ASCII print is the Unicode tables', a parameter. *)
From Stdlib Require Import Ascii.
From S2P Require Import Prelude GoText Domain.

Open Scope string_scope.
Open Scope Z_scope.

(** [strconv.IsPrint]. *)
Class Unicode : Type := {
  is_print : Z -> bool;
  is_print_ascii r : 0 <= r < 128 -> is_print r = (32 <=? r) && (r <? 127);
}.

Definition hex_char (d : Z) : ascii :=
  if d <? 10 then ascii_of_N (Z.to_N (48 + d)) else ascii_of_N (Z.to_N (87 + d)).
Fixpoint hex_digits (n : nat) (v : Z) : string :=
  match n with
  | O => EmptyString
  | S n => String (hex_char (Z.land (Z.shiftr v (4 * Z.of_nat n)) 15)) (hex_digits n v)
  end.

Definition backslash (s : string) : string := String "092" s.
Definition quotation : string := String "034" EmptyString.

Section quote.
Context `{unicode : Unicode}.

(** [appendEscapedRune], the rune already decoded; an undecodable byte is escaped as itself. *)
Definition quote_chunk (c : chunk) : string :=
  if negb (valid_rune c) then
    match raw c with
    | String a _ => backslash (String "120" (hex_digits 2 (byte_of a)))
    | EmptyString => EmptyString
    end
  else
    let r := rune c in
    if (r =? 34) || (r =? 92) then backslash (raw c)
    else if is_print r then raw c
    else if r =? 7 then backslash "a" else if r =? 8 then backslash "b" else if r =? 12 then backslash "f"
    else if r =? 10 then backslash "n" else if r =? 13 then backslash "r" else if r =? 9 then backslash "t"
    else if r =? 11 then backslash "v"
    else if (r <? 32) || (r =? 127) then backslash (String "120" (hex_digits 2 r))
    else if r <? 65536 then backslash (String "117" (hex_digits 4 r))
    else backslash (String "085" (hex_digits 8 r)).

Definition Quote (s : string) : string :=
  String.append quotation (String.append (foldr (fun c acc => String.append (quote_chunk c) acc) EmptyString (chunks s)) quotation).

Definition maxPreviewBytes : Z := 64.

(** The cut backs off to the start of a rune. *)
Fixpoint rune_boundary (s : string) (cut : nat) : nat :=
  match cut with
  | O => O
  | S cut' =>
      match String.get cut s with
      | Some a => if rune_start a then cut else rune_boundary s cut'
      | None => cut
      end
  end.

Definition preview (s : string) : string :=
  if len s <=? maxPreviewBytes then Quote s
  else
    let cut := rune_boundary s 64 in
    let cut := match cut with O => 64%nat | _ => cut end in
    String.append (Quote (String.substring 0 cut s))
      (String.append "... (truncated, " (String.append (format_uint 10 (len s)) " bytes total)")).
End quote.

(** ** Plain text: printable ASCII without quotation mark or backslash *)
Definition printable_byte (a : ascii) : bool := in_range 32 126 a.
Definition plain_byte (a : ascii) : bool := printable_byte a && negb (byte_of a =? 34) && negb (byte_of a =? 92).
Definition plain (s : string) : bool := forall_bytes plain_byte s.

Lemma printable_range a : printable_byte a = true <-> 32 <= byte_of a <= 126.
Proof. unfold printable_byte, in_range. rewrite andb_true_iff, !Z.leb_le. done. Qed.

Lemma printable_chunks s : forall_bytes printable_byte s = true ->
  Forall (fun c => valid_rune c = true /\ exists a, c = rune1 a /\ printable_byte a = true) (chunks s) /\ concat_raw (chunks s) = s.
Proof.
  induction s as [|a s IH]; intros H; [done|]. cbn [forall_bytes] in H. apply andb_true_iff in H as [Ha H]. destruct (IH H) as [IH1 IH2].
  cbn [chunks]. pose proof (proj1 (printable_range a) Ha). rewrite (proj2 (Z.ltb_lt (byte_of a) 128)) by lia.
  split; [constructor; [split; [done|by exists a]|done]|]. unfold concat_raw in *. cbn [foldr rune1 raw]. by rewrite IH2.
Qed.

Lemma plain_printable s : plain s = true -> forall_bytes printable_byte s = true.
Proof.
  unfold plain. induction s as [|a s IH]; [done|]. cbn [forall_bytes]. rewrite !andb_true_iff. intros [Ha H]. split; [|by apply IH].
  unfold plain_byte in Ha. rewrite !andb_true_iff in Ha. tauto.
Qed.

(** Printable ASCII of bounded length is valid text. *)
Lemma printable_text kind s : forall_bytes printable_byte s = true -> len s <= maxIdentifierLength -> validateText kind s = Ok tt.
Proof.
  intros H Hl. apply validateText_Ok. destruct (printable_chunks s H) as [Hc _]. split; [done|]. split.
  - unfold valid_string. apply forallb_forall. intros c Hin. rewrite Forall_forall in Hc. apply Hc. by apply list_elem_of_In.
  - eapply Forall_impl; [exact Hc|]. intros c (_ & a & -> & Ha%printable_range). cbn [rune rune1]. unfold is_control.
    rewrite !orb_false_iff, andb_false_iff, Z.ltb_ge, Z.eqb_neq, !Z.leb_gt. lia.
Qed.

Section plain_text.
Context `{unicode : Unicode}.

Lemma quote_plain_byte a : plain_byte a = true -> quote_chunk (rune1 a) = String a EmptyString.
Proof.
  unfold plain_byte. rewrite !andb_true_iff, !negb_true_iff. intros [[Ha H1] H2]. apply printable_range in Ha.
  unfold quote_chunk. cbn [valid_rune rune1 rune raw negb]. rewrite H1, H2. cbn [orb].
  rewrite is_print_ascii by lia. rewrite (proj2 (Z.leb_le _ _)), (proj2 (Z.ltb_lt _ _)) by lia. done.
Qed.

(** Plain text is quoted as it is, between quotation marks. *)
Lemma Quote_plain s : plain s = true -> Quote s = String.append quotation (String.append s quotation).
Proof.
  intros H. unfold Quote. f_equal. f_equal. induction s as [|a s IH]; [done|]. unfold plain in H. cbn [forall_bytes] in H.
  apply andb_true_iff in H as [Ha H]. cbn [chunks].
  assert (Hr : 32 <= byte_of a <= 126). { apply printable_range. unfold plain_byte in Ha. rewrite !andb_true_iff in Ha. tauto. }
  rewrite (proj2 (Z.ltb_lt (byte_of a) 128)) by lia. cbn [foldr]. rewrite quote_plain_byte, IH by done. done.
Qed.

Lemma plain_get s n a : plain s = true -> String.get n s = Some a -> plain_byte a = true.
Proof.
  unfold plain. revert n. induction s as [|x s IH]; intros n; [by destruct n|]. cbn [forall_bytes]. rewrite andb_true_iff. intros [Hx H].
  destruct n as [|n]; cbn [String.get]; [intros [= <-]; exact Hx|by apply IH].
Qed.

Lemma plain_front s n : plain s = true -> plain (String.substring 0 n s) = true /\ (String.length (String.substring 0 n s) <= n)%nat.
Proof.
  unfold plain. revert n. induction s as [|x s IH]; intros n H; [destruct n; cbn; (split; [done|lia])|].
  cbn [forall_bytes] in H. apply andb_true_iff in H as [Hx H]. destruct n as [|n]; [done|]. cbn [String.substring forall_bytes String.length].
  destruct (IH n H) as [-> Hl]. rewrite Hx. split; [done|lia].
Qed.

Lemma plain_boundary s n : plain s = true -> (n < String.length s)%nat -> rune_boundary s n = n.
Proof.
  intros H Hn. destruct n as [|n]; [done|]. cbn [rune_boundary].
  destruct (String.get (S n) s) as [a|] eqn:E; [|done]. pose proof (plain_get s (S n) a H E) as Ha.
  assert (Hr : 32 <= byte_of a <= 126). { apply printable_range. unfold plain_byte in Ha. rewrite !andb_true_iff in Ha. tauto. }
  unfold rune_start, is_cont, in_range. rewrite (proj2 (Z.leb_gt 128 (byte_of a))) by lia. done.
Qed.

(** Small numbers are short and printable. *)
Lemma small_number n : 0 <= n < 1000 -> forall_bytes printable_byte (format_uint 10 n) = true /\ len (format_uint 10 n) <= 3.
Proof.
  intros Hn. assert (A : forallb (fun k => forall_bytes printable_byte (format_uint 10 k) && (len (format_uint 10 k) <=? 3)) (seqZ 0 1000) = true)
    by (vm_compute; reflexivity).
  rewrite forallb_forall in A. specialize (A n). rewrite <- list_elem_of_In, elem_of_seqZ, andb_true_iff, Z.leb_le in A. apply A. lia.
Qed.

(** The preview of a plain identifier is printable, and short. *)
Lemma preview_plain s : plain s = true -> len s < 1000 ->
  forall_bytes printable_byte (preview s) = true /\ len (preview s) <= 98.
Proof.
  intros H Hl. assert (Q : forall t, plain t = true -> forall_bytes printable_byte (Quote t) = true /\ len (Quote t) = len t + 2).
  { intros t Ht. rewrite Quote_plain by done. rewrite !forall_bytes_app, (plain_printable t Ht), !len_append. split; [done|].
    change (len quotation) with 1. lia. }
  unfold preview. destruct (Z.leb_spec (len s) maxPreviewBytes) as [L|L]; unfold maxPreviewBytes in L.
  - destruct (Q s H) as [Q1 Q2]. split; [done|lia].
  - rewrite plain_boundary by (try done; unfold len in L; lia). cbn zeta iota.
    destruct (plain_front s 64 H) as [P1 P2], (small_number (len s) ltac:(unfold len in *; lia)) as [N1 N2]. destruct (Q _ P1) as [Q1 Q2].
    rewrite !forall_bytes_app, Q1, N1, !len_append, Q2. split; [done|].
    change (len "... (truncated, ") with 16. change (len " bytes total)") with 13. unfold len in *. lia.
Qed.
End plain_text.

Definition ascii_only : Unicode.
Proof. refine {| is_print r := (32 <=? r) && (r <? 127) |}. by intros. Defined.

Example quote_ex : @Quote ascii_only "a b" = String "034" (String.append "a b" quotation).
Proof. reflexivity. Qed.
Example preview_long : len (@preview ascii_only (String.concat EmptyString (repeat (String "a" EmptyString) 70))) = 64 + 2 + 31.
Proof. vm_compute. reflexivity. Qed.
