(* ===== verification/FrequencyGate.v ===== *)
(** * Package platform: the frequency gates of a repeated comparison (frequency_gate.go)

    Four optional checks over the repetitions of a scenario: each is not evaluated, evaluated,
    or deferred with the evidence it lacks.  The rows of the comparison they read
    ([RepeatedBehaviorPresence], repeated.go) are declared here, as are its limits. *)
From S2P Require Import Prelude GoText Event Fingerprint Counters Operational Fidelity Behavior Domain Gate.
From S2P Require Import Cost Frequency Preview.

Open Scope string_scope.
Open Scope Z_scope.

Definition MaxCallsPerRunTargets : Z := 16.
Definition maxCallTargetLength : Z := 255.
Definition GateCheckDeferred : GateCheckState := "deferred".

Definition RepeatedCheckRule := string.
Definition RuleEquals : RepeatedCheckRule := "equals".
Definition RuleAtMost : RepeatedCheckRule := "at_most".
Definition RuleAtLeast : RepeatedCheckRule := "at_least".

Definition FrequencyCheckName := string.
Definition CheckMinCandidateFrequency : FrequencyCheckName := "min_candidate_frequency".
Definition CheckMaxLostBehaviors : FrequencyCheckName := "max_lost_behaviors".
Definition CheckMaxCallsPerRun : FrequencyCheckName := "max_calls_per_run".
Definition CheckMaxLLMCallsPerRun : FrequencyCheckName := "max_llm_calls_per_run".

Record TargetCallLimit : Type := { TL_Target : string; TL_Max : Z }.

Definition TargetCallOutcome := string.
Definition TargetCallPass : TargetCallOutcome := "pass".
Definition TargetCallFail : TargetCallOutcome := "fail".
Definition TargetCallNotObserved : TargetCallOutcome := "not_observed".

Record TargetCallCheck : Type := { TC_Target : string; TC_Actual : Z; TC_Max : Z; TC_Outcome : TargetCallOutcome }.

Record FrequencyGateCheck : Type := {
  FC_Name : FrequencyCheckName;
  FC_State : GateCheckState;
  FC_Rule : RepeatedCheckRule;
  FC_Actual : Z;
  FC_Bound : Z;
  FC_Passed : bool;
  FC_Targets : list TargetCallCheck;
  FC_MissingEvidence : string;
}.
#[export] Instance target_check_eq_dec : EqDecision TargetCallCheck.
Proof. solve_decision. Defined.
#[export] Instance frequency_check_eq_dec : EqDecision FrequencyGateCheck.
Proof. solve_decision. Defined.

(** [MaxCallsPerRun] is nil when the limit is omitted. *)
Record RepeatedEvaluationGateLimits : Type := {
  AddedCandidatePresenceMinimum : Z;
  AddedReferencePresenceMaximum : Z;
  MaxRepeatedAddedBehaviors : Z;
  MaxBlockDecisionsPerRun : Z;
  MaxCriticalRiskObservationsPerRun : Z;
  MinCandidateFrequency : OptionalGateLimit;
  MaxLostBehaviors : OptionalGateLimit;
  MaxCallsPerRun : option (list TargetCallLimit);
  MaxLLMCallsPerRun : OptionalGateLimit;
}.

Definition RepeatedClassification := string.
Definition RepeatedAdded : RepeatedClassification := "added".
Definition RepeatedRemoved : RepeatedClassification := "removed".
Definition RepeatedNeither : RepeatedClassification := "neither".

Record RepeatedBehaviorPresence : Type := {
  RB_FingerprintID : string;
  RB_Behavior : StableFeatures;
  ReferenceRunsPresent : Z;
  CandidateRunsPresent : Z;
  Classification : RepeatedClassification;
  RB_Reference : FrequencyStats;
  RB_Candidate : FrequencyStats;
  Lost : bool;
  ReferenceFidelity : BehaviorFidelity;
  CandidateFidelity : BehaviorFidelity;
}.

Definition failsVerdict (c : FrequencyGateCheck) : bool :=
  if FC_State c =s GateCheckDeferred then true
  else if FC_State c =s GateCheckEvaluated then negb (FC_Passed c)
  else false.

(** One entry of [MaxCallsPerRun], with the targets already seen. *)
Definition validate_target_limit (seen : gset string) (entry : TargetCallLimit) : res (gset string) :=
  fail_if ((TL_Target entry =s "") || (maxCallTargetLength <? len (TL_Target entry))) [ErrInvalidRepeatedRequest];;
  validateText ErrInvalidRepeatedRequest (TL_Target entry);;
  fail_if (bool_decide (TL_Target entry ∈ seen)) [ErrInvalidRepeatedRequest];;
  Ok ({[TL_Target entry]} ∪ seen).

Definition validateFrequencyLimits (l : RepeatedEvaluationGateLimits) (runs : Z) : res unit :=
  let '(minimum, set) := OptionalGateLimit_Maximum (MinCandidateFrequency l) in
  fail_if (set && (u64 runs <? minimum)) [ErrInvalidRepeatedRequest];;
  match MaxCallsPerRun l with
  | None => Ok tt
  | Some targets =>
      let n := Z.of_nat (length targets) in
      fail_if ((n =? 0) || (MaxCallsPerRunTargets <? n)) [ErrInvalidRepeatedRequest];;
      _ ← foldM validate_target_limit ∅ targets;
      Ok tt
  end.

Record runLayerEvidence : Type := { RL_runID : EvaluationRunID; modelCalls : Z }.

Definition layerEvidenceOf (runID : EvaluationRunID) (entries : list BehaviorEntry) : res runLayerEvidence :=
  n ← foldM (fun n e => addCount n (LModel (BE_Fidelity e))) 0 entries;
  Ok {| RL_runID := runID; modelCalls := n |}.

Record frequencyGateInputs : Type := {
  in_runs : Z;
  referenceRuns : Z;
  candidateRuns : Z;
  in_behaviors : list RepeatedBehaviorPresence;
  referenceByName : gmap string frequencyAccumulator;
  candidByName : gmap string frequencyAccumulator;
  candidateLayers : list runLayerEvidence;
}.

Definition missingSide (i : frequencyGateInputs) : string :=
  if (referenceRuns i =? 0) && (candidateRuns i =? 0) then "no completed repetition on either side"
  else if referenceRuns i =? 0 then "no completed reference repetition"
  else if candidateRuns i =? 0 then "no completed candidate repetition"
  else "".

Definition not_evaluated (name : FrequencyCheckName) : FrequencyGateCheck :=
  {| FC_Name := name; FC_State := GateCheckNotEvaluated; FC_Rule := ""; FC_Actual := 0; FC_Bound := 0;
     FC_Passed := false; FC_Targets := []; FC_MissingEvidence := "" |}.
Definition deferred (name : FrequencyCheckName) (missing : string) : FrequencyGateCheck :=
  {| FC_Name := name; FC_State := GateCheckDeferred; FC_Rule := ""; FC_Actual := 0; FC_Bound := 0;
     FC_Passed := false; FC_Targets := []; FC_MissingEvidence := missing |}.
Definition evaluated (name : FrequencyCheckName) (rule : RepeatedCheckRule) (actual bound : Z) (passed : bool)
    (targets : list TargetCallCheck) : FrequencyGateCheck :=
  {| FC_Name := name; FC_State := GateCheckEvaluated; FC_Rule := rule; FC_Actual := actual; FC_Bound := bound;
     FC_Passed := passed; FC_Targets := targets; FC_MissingEvidence := "" |}.

(** The loop of the first check: the lowest presence, and whether any behavior qualifies. *)
Definition lowest_step (runs : Z) (acc : Z * bool) (b : RepeatedBehaviorPresence) : Z * bool :=
  let '(lowest, qualifying) := acc in
  if negb (ReferenceRunsPresent b =? runs) then acc
  else ((if negb qualifying || (CandidateRunsPresent b <? lowest) then CandidateRunsPresent b else lowest), true).

Definition min_frequency_check (l : RepeatedEvaluationGateLimits) (i : frequencyGateInputs) : FrequencyGateCheck :=
  let '(minimum, set) := OptionalGateLimit_Maximum (MinCandidateFrequency l) in
  if negb set then not_evaluated CheckMinCandidateFrequency
  else
    let '(lowest, qualifying) := fold_left (lowest_step (in_runs i)) (in_behaviors i) (0, false) in
    let missing := missingSide i in
    if missing <>s "" then deferred CheckMinCandidateFrequency missing
    else if negb qualifying then
      deferred CheckMinCandidateFrequency "no behavior was present in every reference run"
    else evaluated CheckMinCandidateFrequency RuleAtLeast lowest minimum (minimum <=? lowest) [].

Definition max_lost_check (l : RepeatedEvaluationGateLimits) (i : frequencyGateInputs) : FrequencyGateCheck :=
  let '(maximum, set) := OptionalGateLimit_Maximum (MaxLostBehaviors l) in
  if negb set then not_evaluated CheckMaxLostBehaviors
  else
    let missing := missingSide i in
    if missing <>s "" then deferred CheckMaxLostBehaviors missing
    else
      let lost := fold_left (fun n b => if Lost b then u64 (n + 1) else n) (in_behaviors i) 0 in
      evaluated CheckMaxLostBehaviors RuleAtMost lost maximum (lost <=? maximum) [].

Definition target_call_check (i : frequencyGateInputs) (limit : TargetCallLimit) : TargetCallCheck :=
  let candidate := candidByName i !! TL_Target limit in
  let called := bool_decide (is_Some candidate) in
  let referenced := bool_decide (is_Some (referenceByName i !! TL_Target limit)) in
  if negb called && negb referenced then
    {| TC_Target := TL_Target limit; TC_Actual := 0; TC_Max := TL_Max limit; TC_Outcome := TargetCallNotObserved |}
  else
    let actual := match candidate with Some a => fa_max a | None => 0 end in
    {| TC_Target := TL_Target limit; TC_Actual := actual; TC_Max := TL_Max limit;
       TC_Outcome := if TL_Max limit <? actual then TargetCallFail else TargetCallPass |}.

Definition max_calls_check (l : RepeatedEvaluationGateLimits) (i : frequencyGateInputs) : FrequencyGateCheck :=
  match MaxCallsPerRun l with
  | None => not_evaluated CheckMaxCallsPerRun
  | Some limits =>
      if candidateRuns i =? 0 then deferred CheckMaxCallsPerRun "no completed candidate repetition"
      else
        let targets := target_call_check i <$> limits in
        evaluated CheckMaxCallsPerRun RuleAtMost 0 0 (forallb (fun t => TC_Outcome t =s TargetCallPass) targets) targets
  end.

(** The loop of the last check. *)
Record llm_scan : Type := { worst : Z; lacking : Z; first : EvaluationRunID }.
Definition llm_step (s : llm_scan) (run : runLayerEvidence) : llm_scan :=
  if modelCalls run =? 0 then
    {| worst := worst s; lacking := u64 (lacking s + 1);
       first := if (lacking s =? 0) || bool_decide (String.le (RL_runID run) (first s) /\ RL_runID run <> first s)
                then RL_runID run else first s |}
  else {| worst := Z.max (worst s) (modelCalls run); lacking := lacking s; first := first s |}.
Definition scan_layers (runs : list runLayerEvidence) : llm_scan :=
  fold_left llm_step runs {| worst := 0; lacking := 0; first := "" |}.

Section gates.
Context `{unicode : Unicode}.

Definition lacking_message (s : llm_scan) (runs : Z) : string :=
  let message := String.append "run " (String.append (preview (first s))
                   " has no model-layer observation; model calls cannot be counted") in
  if 1 <? lacking s then
    String.append message (String.append " (" (String.append (format_uint 10 (lacking s)) (String.append " of "
      (String.append (format_uint 10 runs) " candidate runs have none)"))))
  else message.

Definition max_llm_check (l : RepeatedEvaluationGateLimits) (i : frequencyGateInputs) : FrequencyGateCheck :=
  let '(maximum, set) := OptionalGateLimit_Maximum (MaxLLMCallsPerRun l) in
  if negb set then not_evaluated CheckMaxLLMCallsPerRun
  else
    let s := scan_layers (candidateLayers i) in
    if 0 <? lacking s then
      deferred CheckMaxLLMCallsPerRun (lacking_message s (Z.of_nat (length (candidateLayers i))))
    else if candidateRuns i =? 0 then deferred CheckMaxLLMCallsPerRun "no completed candidate repetition"
    else evaluated CheckMaxLLMCallsPerRun RuleAtMost (worst s) maximum (worst s <=? maximum) [].

Definition evaluateFrequencyGates (l : RepeatedEvaluationGateLimits) (i : frequencyGateInputs) : list FrequencyGateCheck :=
  [min_frequency_check l i; max_lost_check l i; max_calls_check l i; max_llm_check l i].
End gates.

(** ** What each check decides *)
Definition qualifying (i : frequencyGateInputs) : list RepeatedBehaviorPresence :=
  List.filter (fun b => ReferenceRunsPresent b =? in_runs i) (in_behaviors i).
Definition both_sides (i : frequencyGateInputs) : Prop := referenceRuns i <> 0 /\ candidateRuns i <> 0.
Definition frequent (minimum : Z) (i : frequencyGateInputs) : Prop :=
  both_sides i /\ qualifying i <> [] /\ Forall (fun b => minimum <= CandidateRunsPresent b) (qualifying i).
Definition few_lost (maximum : Z) (i : frequencyGateInputs) : Prop :=
  both_sides i /\ Z.of_nat (length (List.filter Lost (in_behaviors i))) <= maximum.
(** A target nobody calls is not within its limit. *)
Definition within_target (i : frequencyGateInputs) (limit : TargetCallLimit) : Prop :=
  (is_Some (candidByName i !! TL_Target limit) \/ is_Some (referenceByName i !! TL_Target limit)) /\
  forall a, candidByName i !! TL_Target limit = Some a -> fa_max a <= TL_Max limit.
Definition few_calls (limits : list TargetCallLimit) (i : frequencyGateInputs) : Prop :=
  candidateRuns i <> 0 /\ Forall (within_target i) limits.
Definition few_llm_calls (maximum : Z) (i : frequencyGateInputs) : Prop :=
  candidateRuns i <> 0 /\ Forall (fun r => modelCalls r <> 0 /\ modelCalls r <= maximum) (candidateLayers i).

Definition when_set (o : OptionalGateLimit) (P : Z -> Prop) : Prop := set o = true -> P (maximum o).
Record frequency_limits_hold (l : RepeatedEvaluationGateLimits) (i : frequencyGateInputs) : Prop := {
  fh_frequent : when_set (MinCandidateFrequency l) (fun m => frequent m i);
  fh_lost : when_set (MaxLostBehaviors l) (fun m => few_lost m i);
  fh_calls : forall limits, MaxCallsPerRun l = Some limits -> few_calls limits i;
  fh_llm : when_set (MaxLLMCallsPerRun l) (fun m => few_llm_calls m i);
}.

Lemma failsVerdict_not_evaluated name : failsVerdict (not_evaluated name) = false.
Proof. done. Qed.
Lemma failsVerdict_deferred name missing : failsVerdict (deferred name missing) = true.
Proof. done. Qed.
Lemma failsVerdict_evaluated name rule actual bound passed targets :
  failsVerdict (evaluated name rule actual bound passed targets) = negb passed.
Proof. done. Qed.

Lemma missingSide_none i : missingSide i = "" <-> both_sides i.
Proof.
  unfold missingSide, both_sides. destruct (Z.eqb_spec (referenceRuns i) 0), (Z.eqb_spec (candidateRuns i) 0); cbn; naive_solver.
Qed.

Lemma lowest_fold runs bs : forall acc, fold_left (lowest_step runs) bs acc =
  let cs := CandidateRunsPresent <$> List.filter (fun b => ReferenceRunsPresent b =? runs) bs in
  match cs with
  | [] => acc
  | c :: cs' => (if acc.2 then foldr Z.min acc.1 cs else least cs, true)
  end.
Proof.
  induction bs as [|b bs IH]; intros [lowest q]; [done|]. cbn [fold_left List.filter]. rewrite IH. clear IH.
  unfold lowest_step. destruct (Z.eqb_spec (ReferenceRunsPresent b) runs); cbn [negb].
  2: { done. }
  rewrite fmap_cons. cbn zeta. destruct (CandidateRunsPresent <$> List.filter _ bs) as [|c cs] eqn:E; cbn [fst snd].
  - cbn [foldr least]. destruct q; cbn [negb orb]; [|done]. destruct (Z.ltb_spec (CandidateRunsPresent b) lowest); f_equal; lia.
  - assert (Hm : forall x y l, foldr Z.min (Z.min x y) l = Z.min x (foldr Z.min y l)).
    { clear. intros x y l. induction l as [|z l IHl]; cbn [foldr]; [done|]. rewrite IHl. lia. }
    f_equal. destruct q; cbn [negb orb fst snd].
    + assert (R : (if CandidateRunsPresent b <? lowest then CandidateRunsPresent b else lowest) = Z.min (CandidateRunsPresent b) lowest).
      { destruct (Z.ltb_spec (CandidateRunsPresent b) lowest); lia. }
      rewrite R, Hm. done.
    + cbn [least]. clear. induction cs as [|d cs IH]; cbn [foldr] in *; lia.
Qed.

Lemma min_frequency_passes l i :
  failsVerdict (min_frequency_check l i) = false <-> when_set (MinCandidateFrequency l) (fun m => frequent m i).
Proof.
  unfold min_frequency_check, when_set, OptionalGateLimit_Maximum. destruct (set _) eqn:Hs; cbn [negb].
  2: { by rewrite failsVerdict_not_evaluated. }
  rewrite lowest_fold. cbn zeta. fold (qualifying i). unfold frequent. rewrite <- missingSide_none.
  destruct (String.eqb_spec (missingSide i) "") as [E|E]; cbn [negb].
  2: { destruct (CandidateRunsPresent <$> qualifying i); cbn [fst snd]; rewrite failsVerdict_deferred; naive_solver. }
  destruct (qualifying i) as [|b bs] eqn:Q; cbn [fmap list_fmap].
  { cbn [fst snd negb]. rewrite failsVerdict_deferred. naive_solver. }
  cbn [snd fst negb]. rewrite failsVerdict_evaluated, negb_false_iff, Z.leb_le.
  assert (K : maximum (MinCandidateFrequency l) <= least (CandidateRunsPresent <$> b :: bs) <->
              Forall (fun b => maximum (MinCandidateFrequency l) <= CandidateRunsPresent b) (b :: bs)).
  { clear. rewrite fmap_cons. cbn [least]. induction bs as [|c bs IH].
    - cbn. by rewrite Forall_singleton.
    - rewrite fmap_cons. cbn [foldr]. rewrite !Forall_cons in *. rewrite Z.min_glb_iff, IH. tauto. }
  cbn [fmap list_fmap] in K. naive_solver.
Qed.

Lemma count_where {A} (p : A -> bool) l : forall n, 0 <= n -> n + Z.of_nat (length l) <= max_u64 ->
  fold_left (fun n b => if p b then u64 (n + 1) else n) l n = n + Z.of_nat (length (List.filter p l)).
Proof.
  induction l as [|b bs IH]; intros n Hn Hl; [cbn; lia|]. cbn [fold_left List.filter length] in *.
  destruct (p b); [rewrite u64_small by ulia|]; rewrite IH by lia; cbn [length]; lia.
Qed.

Lemma max_lost_passes l i : Z.of_nat (length (in_behaviors i)) <= max_u64 ->
  failsVerdict (max_lost_check l i) = false <-> when_set (MaxLostBehaviors l) (fun m => few_lost m i).
Proof.
  intros Hl. unfold max_lost_check, when_set, OptionalGateLimit_Maximum. destruct (set _) eqn:Hs; cbn [negb].
  2: { by rewrite failsVerdict_not_evaluated. }
  unfold few_lost. rewrite <- missingSide_none. destruct (String.eqb_spec (missingSide i) "") as [E|E]; cbn [negb].
  2: { rewrite failsVerdict_deferred. naive_solver. }
  rewrite failsVerdict_evaluated, negb_false_iff, Z.leb_le, (count_where Lost) by lia. naive_solver.
Qed.

Lemma target_call_passes i limit : 0 <= TL_Max limit ->
  TC_Outcome (target_call_check i limit) = TargetCallPass <-> within_target i limit.
Proof.
  intros Hm. unfold target_call_check, within_target.
  destruct (candidByName i !! TL_Target limit) as [a|] eqn:C, (referenceByName i !! TL_Target limit) as [b|] eqn:R;
    repeat (rewrite bool_decide_eq_true_2 by by eexists); repeat (rewrite bool_decide_eq_false_2 by by intros []); cbn [negb andb TC_Outcome].
  4: { split; [done|]. by intros [[[]|[]] _]. }
  1, 2: destruct (Z.ltb_spec (TL_Max limit) (fa_max a));
    [split; [done|intros [_ F]; specialize (F _ eq_refl); lia]|split; [|done]; intros _; split; [by left|by intros ? [= <-]]].
  rewrite (proj2 (Z.ltb_ge _ _)) by lia. split; [|done]. intros _. split; [by right|done].
Qed.

Lemma max_calls_passes l i : (forall limits, MaxCallsPerRun l = Some limits -> Forall (fun t => 0 <= TL_Max t) limits) ->
  failsVerdict (max_calls_check l i) = false <-> forall limits, MaxCallsPerRun l = Some limits -> few_calls limits i.
Proof.
  intros Hl. unfold max_calls_check. destruct (MaxCallsPerRun l) as [limits|]; [|by rewrite failsVerdict_not_evaluated].
  specialize (Hl _ eq_refl). transitivity (few_calls limits i); [|naive_solver]. unfold few_calls.
  destruct (Z.eqb_spec (candidateRuns i) 0) as [E|E]; [rewrite failsVerdict_deferred; naive_solver|].
  rewrite failsVerdict_evaluated, negb_false_iff, forallb_forall. transitivity (Forall (within_target i) limits); [|naive_solver].
  rewrite Forall_forall. split.
  - intros H t Ht. apply target_call_passes; [by rewrite Forall_forall in Hl; apply Hl|]. apply String.eqb_eq, H.
    apply list_elem_of_In, list_elem_of_fmap. by exists t.
  - intros H x Hx. apply list_elem_of_In, list_elem_of_fmap in Hx as (t & -> & Ht). apply String.eqb_eq, target_call_passes; [|by apply H].
    rewrite Forall_forall in Hl. by apply Hl.
Qed.

(** ** The scan of the candidate runs *)
Definition lacks (r : runLayerEvidence) : bool := modelCalls r =? 0.
(** What the scan ends with, whatever the order of the runs. *)
Record scan_of (runs : list runLayerEvidence) (s : llm_scan) : Prop := {
  so_worst : worst s = greatest (modelCalls <$> runs);
  so_lacking : lacking s = Z.of_nat (length (List.filter lacks runs));
  so_first : 0 < lacking s -> first s ∈ RL_runID <$> List.filter lacks runs;
  so_least : forall r, r ∈ List.filter lacks runs -> String.le (first s) (RL_runID r);
}.

Lemma filter_snoc {A} (p : A -> bool) l x : List.filter p (l ++ [x]) = (List.filter p l ++ if p x then [x] else [])%list.
Proof. rewrite List.filter_app. cbn. by destruct (p x). Qed.

Lemma scan_step runs s r : scan_of runs s -> 0 <= modelCalls r -> Z.of_nat (length runs) < max_u64 -> scan_of (runs ++ [r]) (llm_step s r).
Proof.
  intros [W L F M] Hr Hlen. assert (Hf : (length (List.filter lacks runs) <= length runs)%nat) by apply List.filter_length_le.
  unfold llm_step. destruct (Z.eqb_spec (modelCalls r) 0) as [E|E].
  - assert (Hl : lacks r = true) by (unfold lacks; by apply Z.eqb_eq).
    split; cbn [worst lacking first].
    + rewrite W, fmap_app. cbn [fmap list_fmap]. rewrite greatest_snoc, E by done. rewrite Z.max_l; [done|].
      clear. unfold greatest. induction runs as [|x runs IH]; cbn [fmap list_fmap foldr] in *; lia.
    + rewrite filter_snoc, Hl, length_app, u64_small by ulia. cbn [length]. lia.
    + intros _. rewrite filter_snoc, Hl, fmap_app, elem_of_app. destruct ((lacking s =? 0) || _) eqn:Hc.
      * right. by apply list_elem_of_singleton.
      * left. apply F. apply orb_false_iff in Hc as [Hc _]. apply Z.eqb_neq in Hc. lia.
    + intros r'. rewrite filter_snoc, Hl, elem_of_app, list_elem_of_singleton. intros [Hin| ->].
      * destruct ((lacking s =? 0) || _) eqn:Hc; [|by apply M]. apply orb_true_iff in Hc as [Hc|Hc].
        -- apply Z.eqb_eq in Hc. destruct (List.filter lacks runs); [by apply elem_of_nil in Hin|]. cbn [length] in L. lia.
        -- apply bool_decide_eq_true in Hc as [Hc _]. transitivity (first s); [done|by apply M].
      * destruct ((lacking s =? 0) || _) eqn:Hc; [done|]. apply orb_false_iff in Hc as [_ Hc]. apply bool_decide_eq_false in Hc.
        destruct (decide (RL_runID r = first s)) as [->|Hn]; [done|]. destruct (base.total String.le (RL_runID r) (first s)); [|done]. by destruct Hc.
  - assert (Hl : lacks r = false) by (unfold lacks; by apply Z.eqb_neq).
    split; cbn [worst lacking first]; rewrite ?filter_snoc, ?Hl, ?app_nil_r; try done.
    rewrite W, fmap_app. cbn [fmap list_fmap]. by rewrite greatest_snoc.
Qed.

Lemma scan_layers_of runs : Forall (fun r => 0 <= modelCalls r) runs -> Z.of_nat (length runs) <= max_u64 ->
  scan_of runs (scan_layers runs).
Proof.
  induction runs as [|r runs IH] using rev_ind; intros Hr Hl.
  - split; try done. intros r Hr'. by apply elem_of_nil in Hr'.
  - apply Forall_app in Hr as [Hr H1]. rewrite Forall_singleton in H1. rewrite length_app in Hl. cbn [length] in Hl.
    unfold scan_layers. rewrite fold_left_app. apply scan_step; [apply IH; [done|lia]|done|lia].
Qed.

Lemma greatest_perm l l' : l ≡ₚ l' -> greatest l = greatest l'.
Proof. unfold greatest. induction 1; cbn [foldr]; lia. Qed.

Lemma filter_perm {A} (p : A -> bool) l l' : l ≡ₚ l' -> List.filter p l ≡ₚ List.filter p l'.
Proof.
  induction 1 as [|x l l' H IH|x y l|l1 l2 l3 H1 IH1 H2 IH2]; cbn [List.filter]; [done| | |by rewrite IH1].
  - destruct (p x); [by rewrite IH|done].
  - destruct (p x), (p y); try done. apply perm_swap.
Qed.

Lemma scan_of_perm runs runs' s s' : runs ≡ₚ runs' -> scan_of runs s -> scan_of runs' s' ->
  worst s = worst s' /\ lacking s = lacking s' /\ (0 < lacking s -> first s = first s').
Proof.
  intros P [W L F M] [W' L' F' M']. assert (Pf := filter_perm lacks _ _ P).
  split; [rewrite W, W'; by apply greatest_perm; rewrite P|]. assert (E : lacking s = lacking s') by (rewrite L, L'; by rewrite Pf).
  split; [done|]. intros Hpos. specialize (F Hpos). rewrite E in Hpos. specialize (F' Hpos).
  apply list_elem_of_fmap in F as (r & E1 & R1). apply list_elem_of_fmap in F' as (r' & E2 & R2).
  rewrite Pf in R1. rewrite <- Pf in R2. apply (anti_symm String.le).
  - rewrite E2. by apply M.
  - rewrite E1. by apply M'.
Qed.

Section gates_exact.
Context `{unicode : Unicode}.

Lemma max_llm_passes l i : Forall (fun r => 0 <= modelCalls r) (candidateLayers i) -> Z.of_nat (length (candidateLayers i)) <= max_u64 ->
  0 <= maximum (MaxLLMCallsPerRun l) ->
  failsVerdict (max_llm_check l i) = false <-> when_set (MaxLLMCallsPerRun l) (fun m => few_llm_calls m i).
Proof.
  intros Hr Hl Hm. destruct (scan_layers_of _ Hr Hl) as [W L _ _]. unfold max_llm_check, when_set, OptionalGateLimit_Maximum.
  destruct (set _) eqn:Hs; cbn [negb]; [|by rewrite failsVerdict_not_evaluated]. unfold few_llm_calls.
  assert (Hlack : 0 < lacking (scan_layers (candidateLayers i)) <-> ~ Forall (fun r => modelCalls r <> 0) (candidateLayers i)).
  { rewrite L. clear. induction (candidateLayers i) as [|r rs IH]; cbn [List.filter length]; [split; [lia|intros []; by constructor]|].
    rewrite Forall_cons. unfold lacks at 1. destruct (Z.eqb_spec (modelCalls r) 0); cbn [length]; [split; [tauto|lia]|rewrite IH; tauto]. }
  destruct (Z.ltb_spec 0 (lacking (scan_layers (candidateLayers i)))) as [Hk|Hk].
  { rewrite failsVerdict_deferred. split; [done|]. intros H. apply Hlack in Hk. destruct Hk. destruct (H eq_refl) as [_ H'].
    eapply Forall_impl; [exact H'|]. by intros r [? _]. }
  destruct (Z.eqb_spec (candidateRuns i) 0) as [E|E]; [rewrite failsVerdict_deferred; naive_solver|].
  rewrite failsVerdict_evaluated, negb_false_iff, Z.leb_le, W.
  assert (Hn : Forall (fun r => modelCalls r <> 0) (candidateLayers i)).
  { destruct (decide (Forall (fun r => modelCalls r <> 0) (candidateLayers i))); [done|]. apply Z.le_ngt in Hk. destruct Hk. by apply Hlack. }
  assert (K : greatest (modelCalls <$> candidateLayers i) <= maximum (MaxLLMCallsPerRun l) <->
              Forall (fun r => modelCalls r <= maximum (MaxLLMCallsPerRun l)) (candidateLayers i)).
  { clear -Hm. unfold greatest. induction (candidateLayers i) as [|r rs IH]; cbn [fmap list_fmap foldr]; [by split|].
    rewrite Forall_cons, Z.max_lub_iff. unfold fmap in IH. by rewrite IH. }
  rewrite K. split.
  - intros H _. split; [done|]. apply Forall_forall. intros r Hin. rewrite Forall_forall in Hn. rewrite Forall_forall in H. split; [by apply Hn|by apply H].
  - intros H. destruct (H eq_refl) as [_ H']. eapply Forall_impl; [exact H'|]. by intros r [_ ?].
Qed.

(** The checks pass together exactly when every limit the caller set holds. *)
Lemma frequency_gates_pass l i : Z.of_nat (length (in_behaviors i)) <= max_u64 ->
  (forall limits, MaxCallsPerRun l = Some limits -> Forall (fun t => 0 <= TL_Max t) limits) ->
  Forall (fun r => 0 <= modelCalls r) (candidateLayers i) -> Z.of_nat (length (candidateLayers i)) <= max_u64 ->
  0 <= maximum (MaxLLMCallsPerRun l) ->
  existsb failsVerdict (evaluateFrequencyGates l i) = false <-> frequency_limits_hold l i.
Proof.
  intros H1 H2 H3 H4 H5. unfold evaluateFrequencyGates. cbn [existsb].
  rewrite !orb_false_iff, min_frequency_passes, max_lost_passes, max_calls_passes, max_llm_passes by done.
  split; [intros (? & ? & ? & ? & _); by split|]. by intros [].
Qed.
End gates_exact.
