(* ===== verification/Repeated.v ===== *)
(** * Package platform: comparing repeated evaluations (repeated.go, comparison_rules.go)

    The repetitions of a scenario, one side against the other: in how many runs of each side
    every behavior is present, the fixed checks and the verdict, and the suggestions. *)
From S2P Require Import Prelude GoText Event Fingerprint Counters Operational Fidelity Behavior Domain Gate.
From S2P Require Import Suggestions Provenance Cost Frequency Preview FrequencyGate.

Open Scope string_scope.
Open Scope Z_scope.

Definition MaxRepetitions : Z := 64.

(** ** Requests and limits *)
Record RepeatedEvaluationRequest : Type := {
  ReferenceRunIDs : list EvaluationRunID;
  CandidateRunIDs : list EvaluationRunID;
  Limits : RepeatedEvaluationGateLimits;
}.
Definition Runs (r : RepeatedEvaluationRequest) : Z := Z.of_nat (length (ReferenceRunIDs r)).

Definition validateRepeatedLimits (l : RepeatedEvaluationGateLimits) (n : Z) : res unit :=
  let k := AddedCandidatePresenceMinimum l in let j := AddedReferencePresenceMaximum l in
  fail_if ((k <? 1) || (u64 n <? k)) [ErrInvalidRepeatedRequest];;
  fail_if (k <=? j) [ErrInvalidRepeatedRequest];;
  validateFrequencyLimits l n.

(** One identifier of the request, with those already seen. *)
Definition validate_run_id (seen : gset EvaluationRunID) (id : EvaluationRunID) : res (gset EvaluationRunID) :=
  validateID id;;
  fail_if (bool_decide (id ∈ seen)) [ErrInvalidRepeatedRequest];;
  Ok ({[id]} ∪ seen).

Definition RepeatedEvaluationRequest_Validate (r : RepeatedEvaluationRequest) : res unit :=
  let n := Runs r in
  fail_if ((n <? 1) || (MaxRepetitions <? n)) [ErrInvalidRepeatedRequest];;
  fail_if (negb (Z.of_nat (length (CandidateRunIDs r)) =? n)) [ErrInvalidRepeatedRequest];;
  _ ← foldM validate_run_id ∅ (ReferenceRunIDs r ++ CandidateRunIDs r)%list;
  validateRepeatedLimits (Limits r) n.

(** ** Evidence *)
Record RepetitionEvidence : Type := {
  RE_Side : ComparisonSide;
  RE_Index : Z;
  RE_RunID : EvaluationRunID;
  RE_Status : RunStatus;
  RE_BehavioralProfile : BehavioralProfileRef;
  RE_RecordCount : Z;
  RE_DistinctBehaviors : Z;
  RE_BlockDecisions : Z;
  RE_CriticalRiskObservations : Z;
}.
Definition Completed (e : RepetitionEvidence) : bool := RE_Status e =s RunCompleted.

Record repetitionInput : Type := { evidence : RepetitionEvidence; ri_entries : list BehaviorEntry }.

Definition RepeatedCheckName := string.
Definition CheckReferenceRepetitionsCompleted : RepeatedCheckName := "reference_repetitions_completed".
Definition CheckCandidateRepetitionsCompleted : RepeatedCheckName := "candidate_repetitions_completed".
Definition CheckRepetitionsFailingMinimum : RepeatedCheckName := "repetitions_failing_minimum_evidence".
Definition CheckRepeatedlyAddedBehaviors : RepeatedCheckName := "repeatedly_added_behaviors".
Definition CheckWorstCandidateBlockDecisions : RepeatedCheckName := "worst_candidate_block_decisions".
Definition CheckWorstCandidateCriticalRiskCount : RepeatedCheckName := "worst_candidate_critical_risk_observations".
Definition AdvisoryFreshScope : string := "fresh_scope".

Record RepeatedGateCheck : Type := {
  RC_Name : RepeatedCheckName;
  RC_Actual : Z;
  RC_Rule : RepeatedCheckRule;
  RC_Bound : Z;
  RC_Passed : bool;
  RC_Advisory : string;
}.
#[export] Instance repeated_check_eq_dec : EqDecision RepeatedGateCheck.
Proof. solve_decision. Defined.

(** The six checks and the four frequency checks, in their fixed order. *)
Record RepeatedEvaluationGateResult : Type := {
  rg_bound : bool;
  rg_checks : list RepeatedGateCheck;
  rg_verdict : GateVerdict;
  rg_frequency : list FrequencyGateCheck;
}.

(** [Sameness] and [Warnings] are the control plane's to set; the reduction leaves them zero. *)
Record RepeatedEvaluationComparison : Type := {
  RX_Runs : Z;
  RX_Limits : RepeatedEvaluationGateLimits;
  Repetitions : list RepetitionEvidence;
  RX_Behaviors : list RepeatedBehaviorPresence;
  RX_Gate : RepeatedEvaluationGateResult;
  RX_Operational : OperationalComparison;
  RX_Cost : option CostComparison;
  RX_Targets : list RepeatedTargetFrequency;
  LostTransitions : string;
  Suggestions : list Suggestion;
  SuggestionsTruncated : bool;
  Sameness : ComparisonSameness;
  Warnings : list ComparisonWarning;
}.
Definition no_sameness : ComparisonSameness :=
  {| SameScenario := ""; SameInputs := ""; SameModel := ""; SamePromptRef := "";
     SN_Reference := no_provenance; SN_Candidate := no_provenance |}.
Definition LostTransitionsNotRecorded : string := "not_recorded".

Definition classifyPresence (referencePresent candidatePresent k j : Z) : RepeatedClassification :=
  if (k <=? candidatePresent) && (referencePresent <=? j) then RepeatedAdded
  else if (k <=? referencePresent) && (candidatePresent <=? j) then RepeatedRemoved
  else RepeatedNeither.

Definition equalsCheck (name : RepeatedCheckName) (actual bound : Z) : RepeatedGateCheck :=
  {| RC_Name := name; RC_Actual := actual; RC_Rule := RuleEquals; RC_Bound := bound;
     RC_Passed := actual =? bound; RC_Advisory := "" |}.
Definition atMostCheck (name : RepeatedCheckName) (actual bound : Z) (advisory : string) : RepeatedGateCheck :=
  {| RC_Name := name; RC_Actual := actual; RC_Rule := RuleAtMost; RC_Bound := bound;
     RC_Passed := actual <=? bound; RC_Advisory := advisory |}.

(** ** The reduction *)
Record tally : Type := {
  t_behavior : StableFeatures;
  t_reference : Z;
  t_candidate : Z;
  t_referenceFidelity : BehaviorFidelity;
  t_candidateFidelity : BehaviorFidelity;
}.

(** A map from the two sides. The inputs name no other side. *)
Record per_side (A : Type) : Type := { on_reference : A; on_candidate : A }.
Arguments on_reference {A} _.
Arguments on_candidate {A} _.
Arguments Build_per_side {A} _ _.
Definition at_side {A} (p : per_side A) (side : ComparisonSide) : A :=
  if side =s SideReference then on_reference p else on_candidate p.
Definition set_side {A} (p : per_side A) (side : ComparisonSide) (a : A) : per_side A :=
  if side =s SideReference then {| on_reference := a; on_candidate := on_candidate p |}
  else {| on_reference := on_reference p; on_candidate := a |}.

Record reduction : Type := {
  seen : gmap string tally;
  fingerprintOf : gmap StableFeatures string;
  completed : per_side Z;
  failingMinimum : Z;
  worstBlock : Z;
  worstCR : Z;
  repetitions : list RepetitionEvidence;
  rd_candidateLayers : list runLayerEvidence;
  operational : per_side operationalSide;
  frequency : per_side frequencySide;
}.
Definition initial_reduction : reduction :=
  {| seen := ∅; fingerprintOf := ∅; completed := {| on_reference := 0; on_candidate := 0 |};
     failingMinimum := 0; worstBlock := 0; worstCR := 0; repetitions := []; rd_candidateLayers := [];
     operational := {| on_reference := zero_side; on_candidate := zero_side |};
     frequency := {| on_reference := newFrequencySide; on_candidate := newFrequencySide |} |}.

(** One entry of a completed run. *)
Definition tally_entry (side : ComparisonSide) (acc : gmap string tally * gmap StableFeatures string) (entry : BehaviorEntry)
    : res (gmap string tally * gmap StableFeatures string) :=
  let '(seen, fingerprintOf) := acc in
  if BE_Observations entry =? 0 then Ok acc
  else
    t ← (match seen !! BE_FingerprintID entry with
         | None =>
             fail_if (maxBehaviorEntries <=? Z.of_nat (size seen)) [ErrIncompleteSnapshot];;
             Ok {| t_behavior := BE_Behavior entry; t_reference := 0; t_candidate := 0;
                   t_referenceFidelity := zero_fidelity; t_candidateFidelity := zero_fidelity |}
         | Some t => fail_if (bool_decide (t_behavior t <> BE_Behavior entry)) [ErrFingerprintConflict];; Ok t
         end);
    fail_if (match fingerprintOf !! BE_Behavior entry with
             | Some other => other <>s BE_FingerprintID entry
             | None => false
             end) [ErrFingerprintConflict];;
    t ← (if side =s SideReference then
           f ← BehaviorFidelity_Add (t_referenceFidelity t) (BE_Fidelity entry);
           Ok {| t_behavior := t_behavior t; t_reference := u64 (t_reference t + 1); t_candidate := t_candidate t;
                 t_referenceFidelity := f; t_candidateFidelity := t_candidateFidelity t |}
         else
           f ← BehaviorFidelity_Add (t_candidateFidelity t) (BE_Fidelity entry);
           Ok {| t_behavior := t_behavior t; t_reference := t_reference t; t_candidate := u64 (t_candidate t + 1);
                 t_referenceFidelity := t_referenceFidelity t; t_candidateFidelity := f |});
    Ok (<[BE_FingerprintID entry := t]> seen, <[BE_Behavior entry := BE_FingerprintID entry]> fingerprintOf).

Section reduce.
Context `{order : MapOrder} `{unicode : Unicode}.

(** One repetition. *)
Definition reduce_input (d : reduction) (i : repetitionInput) : res reduction :=
  let e := evidence i in
  let repetitions := (repetitions d ++ [e])%list in
  if negb (Completed e) then
    Ok {| seen := seen d; fingerprintOf := fingerprintOf d; completed := completed d; failingMinimum := failingMinimum d;
          worstBlock := worstBlock d; worstCR := worstCR d; repetitions := repetitions;
          rd_candidateLayers := rd_candidateLayers d; operational := operational d; frequency := frequency d |}
  else
    let side := RE_Side e in
    op ← Operational.addRun (at_side (operational d) side) (BE_Operational <$> ri_entries i);
    fr ← frequency_addRun (at_side (frequency d) side) (ri_entries i);
    layers ← (if side =s SideCandidate then
                layers ← layerEvidenceOf (RE_RunID e) (ri_entries i); Ok (rd_candidateLayers d ++ [layers])%list
              else Ok (rd_candidateLayers d));
    '(seen, fingerprintOf) ← foldM (tally_entry side) (seen d, fingerprintOf d) (ri_entries i);
    Ok {| seen := seen; fingerprintOf := fingerprintOf;
          completed := set_side (completed d) side (u64 (at_side (completed d) side + 1));
          failingMinimum := if RE_RecordCount e =? 0 then u64 (failingMinimum d + 1) else failingMinimum d;
          worstBlock := if side =s SideCandidate then Z.max (worstBlock d) (RE_BlockDecisions e) else worstBlock d;
          worstCR := if side =s SideCandidate then Z.max (worstCR d) (RE_CriticalRiskObservations e) else worstCR d;
          repetitions := repetitions; rd_candidateLayers := layers;
          operational := set_side (operational d) side op; frequency := set_side (frequency d) side fr |}.

(** The row of one behavior. *)
Definition behavior_row (k j runs : Z) (frequency : per_side frequencySide) (item : string * tally) : res RepeatedBehaviorPresence :=
  let '(fp, t) := item in
  ref ← side_behaviorStats (on_reference frequency) fp;
  cand ← side_behaviorStats (on_candidate frequency) fp;
  Ok {| RB_FingerprintID := fp; RB_Behavior := t_behavior t;
        ReferenceRunsPresent := t_reference t; CandidateRunsPresent := t_candidate t;
        Classification := classifyPresence (t_reference t) (t_candidate t) k j;
        RB_Reference := ref; RB_Candidate := cand;
        Lost := isLost (t_reference t) (t_candidate t) (u64 runs);
        ReferenceFidelity := t_referenceFidelity t; CandidateFidelity := t_candidateFidelity t |}.

(** Everything after the loop. *)
Definition reduced (limits : RepeatedEvaluationGateLimits) (runs : Z) (d : reduction) : res RepeatedEvaluationComparison :=
  let k := AddedCandidatePresenceMinimum limits in let j := AddedReferencePresenceMaximum limits in
  rows ← mapM (behavior_row k j runs (frequency d)) (range (seen d));
  let added := fold_left (fun n b => if Classification b =s RepeatedAdded then u64 (n + 1) else n) rows 0 in
  targets ← targetFrequencies (on_reference (frequency d)) (on_candidate (frequency d));
  let behaviors := sort_by RB_FingerprintID rows in
  let n := u64 runs in
  let advisory := if 1 <? runs then AdvisoryFreshScope else "" in
  let checks :=
    [equalsCheck CheckReferenceRepetitionsCompleted (on_reference (completed d)) n;
     equalsCheck CheckCandidateRepetitionsCompleted (on_candidate (completed d)) n;
     atMostCheck CheckRepetitionsFailingMinimum (failingMinimum d) 0 "";
     atMostCheck CheckRepeatedlyAddedBehaviors added (MaxRepeatedAddedBehaviors limits) "";
     atMostCheck CheckWorstCandidateBlockDecisions (worstBlock d) (MaxBlockDecisionsPerRun limits) advisory;
     atMostCheck CheckWorstCandidateCriticalRiskCount (worstCR d) (MaxCriticalRiskObservationsPerRun limits) advisory] in
  let frequencyChecks := evaluateFrequencyGates limits
    {| in_runs := n; referenceRuns := on_reference (completed d); candidateRuns := on_candidate (completed d);
       in_behaviors := behaviors; referenceByName := fs_byName (on_reference (frequency d));
       candidByName := fs_byName (on_candidate (frequency d)); candidateLayers := rd_candidateLayers d |} in
  let verdict :=
    if existsb (fun c => negb (RC_Passed c)) checks || existsb failsVerdict frequencyChecks
    then GateVerdictFail else GateVerdictPass in
  Ok {| RX_Runs := runs; RX_Limits := limits; Repetitions := repetitions d; RX_Behaviors := behaviors;
        RX_Gate := {| rg_bound := true; rg_checks := checks; rg_verdict := verdict; rg_frequency := frequencyChecks |};
        RX_Operational := compareOperational (on_reference (operational d)) (on_candidate (operational d));
        RX_Cost := None; RX_Targets := targets; LostTransitions := LostTransitionsNotRecorded;
        Suggestions := []; SuggestionsTruncated := false; Sameness := no_sameness; Warnings := [] |}.
End reduce.

(** ** Suggestions *)
Definition MaxComparisonSuggestions : nat := 64.
Definition LoadRatioThresholdPermille : Z := 2000.
Definition uint64Text (v : Z) : string := format_uint 10 v.

Definition describeBehavior (b : RepeatedBehaviorPresence) : string :=
  let f := RB_Behavior b in
  text ([SF_OperationCategory f; "/"; SF_OperationName f] ++ if SF_TargetName f <>s "" then [" → "; SF_TargetName f] else [])%list.

Definition RenderRatio (permille : Z) : string :=
  text [uint64Text (permille / 1000); "."; uint64Text (permille mod 1000 / 100); "×"].

Definition ruleAddedInAllRuns (c : RepeatedEvaluationComparison) : list Suggestion :=
  let n := u64 (RX_Runs c) in
  flat_map (fun b =>
    if negb (CandidateRunsPresent b =? n) || negb (ReferenceRunsPresent b =? 0) then []
    else
      let behavior := describeBehavior b in
      [suggest [("fingerprint_id", RB_FingerprintID b); ("behavior", behavior);
                ("candidate_runs_present", uint64Text (CandidateRunsPresent b)); ("reference_runs_present", "0");
                ("runs", uint64Text n)]
         [behavior; " was added in "; uint64Text n; "/"; uint64Text n; " candidate runs. If this was expected, add it to the ";
          "scenario; otherwise investigate before promoting."]]) (RX_Behaviors c).

Definition ruleTargetLoadWith429 (c : RepeatedEvaluationComparison) : list Suggestion :=
  flat_map (fun t =>
    if negb (RatioAvailable t) || (CallRatioPermille t <? LoadRatioThresholdPermille) || (CandidateHTTP429 t =? 0) then []
    else
      let ratio := RenderRatio (CallRatioPermille t) in
      [suggest [("target_name", OT_Name (TF_Target t)); ("target_category", OT_Category (TF_Target t));
                ("call_ratio_permille", uint64Text (CallRatioPermille t));
                ("candidate_http_429", uint64Text (CandidateHTTP429 t));
                ("threshold_permille", uint64Text LoadRatioThresholdPermille)]
         [OT_Name (TF_Target t); " received "; ratio; " the reference's calls and returned "; uint64Text (CandidateHTTP429 t);
          " 429 responses. "; "Check its rate limit."]]) (RX_Targets c).

Definition ruleLostInHalf (c : RepeatedEvaluationComparison) : list Suggestion :=
  let n := u64 (RX_Runs c) in
  flat_map (fun b =>
    if (n =? 0) || negb (ReferenceRunsPresent b =? n) || (n <? u64 (CandidateRunsPresent b * 2)) then []
    else
      let behavior := describeBehavior b in
      let missing := u64 (n - CandidateRunsPresent b) in
      [suggest [("fingerprint_id", RB_FingerprintID b); ("behavior", behavior);
                ("reference_runs_present", uint64Text (ReferenceRunsPresent b));
                ("candidate_runs_present", uint64Text (CandidateRunsPresent b)); ("runs", uint64Text n)]
         [behavior; " was in every reference run and is missing from "; uint64Text missing; " of "; uint64Text n;
          " candidate runs. "; "Task completion may have regressed."]]) (RX_Behaviors c).

Definition comparisonRule : Type := rule_table_row RepeatedEvaluationComparison.
Definition comparisonRules : list comparisonRule :=
  [{| cr_id := "compare.added_in_all_runs"; cr_version := 1; fire := ruleAddedInAllRuns |};
   {| cr_id := "compare.target_load_with_429"; cr_version := 1; fire := ruleTargetLoadWith429 |};
   {| cr_id := "compare.lost_in_half"; cr_version := 1; fire := ruleLostInHalf |}].

Definition evaluateComparisonRules (c : RepeatedEvaluationComparison) : list Suggestion * bool := run_rules MaxComparisonSuggestions comparisonRules c [].

(** [comparison.Suggestions, comparison.SuggestionsTruncated = evaluateComparisonRules(comparison)]. *)
Definition with_suggestions (c : RepeatedEvaluationComparison) : RepeatedEvaluationComparison :=
  let '(s, truncated) := evaluateComparisonRules c in
  {| RX_Runs := RX_Runs c; RX_Limits := RX_Limits c; Repetitions := Repetitions c; RX_Behaviors := RX_Behaviors c;
     RX_Gate := RX_Gate c; RX_Operational := RX_Operational c; RX_Cost := RX_Cost c; RX_Targets := RX_Targets c;
     LostTransitions := LostTransitions c; Suggestions := s; SuggestionsTruncated := truncated;
     Sameness := Sameness c; Warnings := Warnings c |}.

Definition reduceRepeated `{order : MapOrder} `{unicode : Unicode} (limits : RepeatedEvaluationGateLimits) (runs : Z)
    (inputs : list repetitionInput) : res RepeatedEvaluationComparison :=
  d ← foldM reduce_input initial_reduction inputs;
  c ← reduced limits runs d;
  Ok (with_suggestions c).

(** ** Presence *)
Definition observed (fp : string) (e : BehaviorEntry) : bool := (BE_FingerprintID e =s fp) && negb (BE_Observations e =? 0).
Definition presence (fp : string) (runs : list (list BehaviorEntry)) : Z :=
  Z.of_nat (length (List.filter (existsb (observed fp)) runs)).
Definition fid (i : nat) (f : BehaviorFidelity) : Z := nth i (fidelityCounters f) 0.
Definition fidelity_in (i : nat) (fp : string) (e : BehaviorEntry) : Z := if observed fp e then fid i (BE_Fidelity e) else 0.
(** [f] is the sum of the fidelity of every observed entry of the behavior. *)
Definition fidelity_sum (f : BehaviorFidelity) (fp : string) (runs : list (list BehaviorEntry)) : Prop :=
  forall i, fid i f = total (fidelity_in i fp) (concat runs).

Definition t_runs (t : tally) (side : ComparisonSide) : Z := if side =s SideReference then t_reference t else t_candidate t.
Definition t_fidelity (t : tally) (side : ComparisonSide) : BehaviorFidelity :=
  if side =s SideReference then t_referenceFidelity t else t_candidateFidelity t.

Record tallied (fp : string) (runs : per_side (list (list BehaviorEntry))) (t : tally) : Prop := {
  ta_runs : forall side, t_runs t side = presence fp (at_side runs side);
  ta_fidelity : forall side, fidelity_sum (t_fidelity t side) fp (at_side runs side) /\ fidelity_range (t_fidelity t side);
}.
(** What the maps hold after some entries: one tally for each behavior observed in some run. *)
Record seen_is (runs : per_side (list (list BehaviorEntry))) (acc : gmap string tally * gmap StableFeatures string) : Prop := {
  si_tally : forall fp, match acc.1 !! fp with
             | Some t => tallied fp runs t /\ exists side, presence fp (at_side runs side) <> 0
             | None => forall side, presence fp (at_side runs side) = 0
             end;
  si_behavior : forall side run e, run ∈ at_side runs side -> e ∈ run -> BE_Observations e <> 0 ->
    (exists t, acc.1 !! BE_FingerprintID e = Some t /\ t_behavior t = BE_Behavior e) /\ acc.2 !! BE_Behavior e = Some (BE_FingerprintID e);
  si_size : Z.of_nat (size acc.1) <= maxBehaviorEntries;
}.

Record repeated_entry_ok (e : BehaviorEntry) : Prop := {
  ro_entry : frequency_entry_ok e;
  ro_fidelity : fidelity_range (BE_Fidelity e);
}.

Lemma at_set {A} (p : per_side A) s a s' :
  at_side (set_side p s a) s' = if Bool.eqb (s =s SideReference) (s' =s SideReference) then a else at_side p s'.
Proof. unfold at_side, set_side. by destruct (s =s SideReference), (s' =s SideReference). Qed.
Lemma at_set_same {A} (p : per_side A) s a : at_side (set_side p s a) s = a.
Proof. by rewrite at_set, eqb_reflx. Qed.

Lemma fid_add f o t i : fidelity_range f -> fidelity_range o -> BehaviorFidelity_Add f o = Ok t ->
  fid i t = fid i f + fid i o /\ fidelity_range t.
Proof.
  intros Rf Ro H. unfold BehaviorFidelity_Add in H. res_inv. subst t.
  match goal with H : add_all _ _ = Ok _ |- _ => apply add_all_spec in H as [-> Hu]; [|done..] end.
  split; [|exact Hu]. unfold fid, fidelityCounters. by do 9 (destruct i as [|i]; [done|]); destruct i.
Qed.

Lemma presence_snoc fp runs run : presence fp (runs ++ [run]) = presence fp runs + if existsb (observed fp) run then 1 else 0.
Proof. unfold presence. rewrite filter_snoc, length_app. destruct (existsb _ _); cbn [length]; lia. Qed.
Lemma presence_nonneg fp runs : 0 <= presence fp runs.
Proof. unfold presence. lia. Qed.
Lemma presence_le fp runs : presence fp runs <= Z.of_nat (length runs).
Proof. unfold presence. pose proof (List.filter_length_le (existsb (observed fp)) runs). lia. Qed.

Lemma existsb_snoc {A} (p : A -> bool) l x : existsb p (l ++ [x]) = existsb p l || p x.
Proof. rewrite existsb_app. cbn. by rewrite orb_false_r. Qed.

Lemma observed_none fp es : fp ∉ BE_FingerprintID <$> es -> existsb (observed fp) es = false.
Proof.
  intros H. apply not_true_iff_false. intros (e & He & Ho)%existsb_exists. apply H. apply list_elem_of_In in He.
  unfold observed in Ho. apply andb_true_iff in Ho as [Ho%String.eqb_eq _]. subst fp. by apply list_elem_of_fmap_2.
Qed.

(** One more entry of the run being read. *)
Section one_entry.
Variables (runs : per_side (list (list BehaviorEntry))) (side : ComparisonSide) (es : list BehaviorEntry) (e : BehaviorEntry).
Hypothesis Hlast : exists rs, at_side runs side = (rs ++ [es])%list /\ Z.of_nat (length rs) < max_u64.
Hypothesis Hnew : BE_FingerprintID e ∉ BE_FingerprintID <$> es.
Hypothesis Hok : repeated_entry_ok e.

Definition with_entry : per_side (list (list BehaviorEntry)) :=
  set_side runs side (removelast (at_side runs side) ++ [es ++ [e]])%list.

Lemma with_entry_at s : exists rs, at_side with_entry s = (if Bool.eqb (side =s SideReference) (s =s SideReference) then rs ++ [es ++ [e]] else at_side runs s)%list /\
  (Bool.eqb (side =s SideReference) (s =s SideReference) = true -> at_side runs s = (rs ++ [es])%list /\ Z.of_nat (length rs) < max_u64).
Proof.
  destruct Hlast as (rs & E & Hl). exists rs. unfold with_entry. rewrite at_set, E, removelast_last. split; [done|].
  intros Es%eqb_prop. split; [|done]. rewrite <- E. unfold at_side. by rewrite Es.
Qed.

Lemma with_entry_presence fp s : presence fp (at_side with_entry s) =
  presence fp (at_side runs s) + if Bool.eqb (side =s SideReference) (s =s SideReference) && observed fp e then 1 else 0.
Proof.
  destruct (with_entry_at s) as (rs & -> & H). destruct (Bool.eqb _ _); [|cbn [andb]; lia]. destruct (H eq_refl) as [-> _].
  rewrite !presence_snoc, existsb_snoc. cbn [andb]. destruct (observed fp e) eqn:Ho; [|rewrite orb_false_r; lia].
  rewrite observed_none; [cbn; lia|]. unfold observed in Ho. apply andb_true_iff in Ho as [Ho%String.eqb_eq _]. by subst fp.
Qed.

Lemma with_entry_total g s : total g (concat (at_side with_entry s)) =
  total g (concat (at_side runs s)) + if Bool.eqb (side =s SideReference) (s =s SideReference) then g e else 0.
Proof.
  destruct (with_entry_at s) as (rs & -> & H). destruct (Bool.eqb _ _); [|lia]. destruct (H eq_refl) as [-> _].
  rewrite !concat_app. cbn [concat]. rewrite !app_nil_r, !total_app.
  assert (Ee : total g [e] = g e) by (unfold total; cbn; lia). lia.
Qed.

Lemma with_entry_elem s run x : run ∈ at_side with_entry s -> x ∈ run ->
  (exists run, run ∈ at_side runs s /\ x ∈ run) \/ x = e.
Proof.
  destruct (with_entry_at s) as (rs & -> & H). destruct (Bool.eqb _ _); [|eauto]. destruct (H eq_refl) as [E _].
  rewrite elem_of_app, list_elem_of_singleton. intros [Hr| ->] Hx.
  - left. exists run. rewrite E. split; [by apply elem_of_app; left|done].
  - apply elem_of_app in Hx as [Hx|Hx%list_elem_of_singleton]; [left|by right]. exists es. rewrite E. split; [|done]. apply elem_of_app. right. by left.
Qed.
End one_entry.

Lemma presence_zero_total i fp runs : presence fp runs = 0 -> total (fidelity_in i fp) (concat runs) = 0.
Proof.
  intros H. transitivity (total (fun _ => 0) (concat runs)).
  - apply total_ext. intros e He. unfold fidelity_in. destruct (observed fp e) eqn:Ho; [|done]. exfalso.
    apply list_elem_of_In, in_concat in He as (run & Hr & He). unfold presence in H.
    assert (Hin : In run (List.filter (existsb (observed fp)) runs)).
    { apply filter_In. split; [done|]. apply existsb_exists. by exists e. }
    destruct (List.filter _ runs); [done|cbn [length] in H; lia].
  - unfold total. clear. induction (concat runs); [done|]. by rewrite fmap_cons, sumZ_cons, IHl.
Qed.

Definition fresh_tally (e : BehaviorEntry) : tally :=
  {| t_behavior := BE_Behavior e; t_reference := 0; t_candidate := 0; t_referenceFidelity := zero_fidelity; t_candidateFidelity := zero_fidelity |}.

Lemma fresh_tallied e fp runs : (forall side, presence fp (at_side runs side) = 0) -> tallied fp runs (fresh_tally e).
Proof.
  intros H. split; intros side.
  - rewrite H. unfold t_runs. by destruct (side =s _).
  - assert (E : t_fidelity (fresh_tally e) side = zero_fidelity) by (unfold t_fidelity; by destruct (side =s _)). rewrite E. split.
    + intros i. rewrite presence_zero_total by done. unfold fid. by do 9 (destruct i as [|i]; [done|]); destruct i.
    + unfold fidelity_range, fidelityCounters. cbn. by repeat constructor.
Qed.

(** What a successful [tally_entry] did. *)
Lemma tally_entry_inv side acc e acc' : BE_Observations e <> 0 -> tally_entry side acc e = Ok acc' ->
  exists t0 t1 f,
    ((acc.1 !! BE_FingerprintID e = None /\ t0 = fresh_tally e /\ Z.of_nat (size acc.1) < maxBehaviorEntries) \/
     (acc.1 !! BE_FingerprintID e = Some t0 /\ t_behavior t0 = BE_Behavior e)) /\
    (forall other, acc.2 !! BE_Behavior e = Some other -> other = BE_FingerprintID e) /\
    BehaviorFidelity_Add (t_fidelity t0 side) (BE_Fidelity e) = Ok f /\
    t_behavior t1 = t_behavior t0 /\
    (forall s, let same := Bool.eqb (side =s SideReference) (s =s SideReference) in
       t_runs t1 s = (if same then u64 (t_runs t0 s + 1) else t_runs t0 s) /\ t_fidelity t1 s = (if same then f else t_fidelity t0 s)) /\
    acc' = (<[BE_FingerprintID e := t1]> acc.1, <[BE_Behavior e := BE_FingerprintID e]> acc.2).
Proof.
  intros Hne H. destruct acc as [seen fpOf]. unfold tally_entry in H. rewrite (proj2 (Z.eqb_neq _ _) Hne) in H. res_inv.
  subst acc'. cbn [fst snd].
  assert (Ht : (seen !! BE_FingerprintID e = None /\ a = fresh_tally e /\ Z.of_nat (size seen) < maxBehaviorEntries) \/
    (seen !! BE_FingerprintID e = Some a /\ t_behavior a = BE_Behavior e)).
  { destruct (seen !! BE_FingerprintID e) as [t|]; res_inv; subst a; [right|left].
    - split; [done|]. match goal with H : bool_decide _ = false |- _ => apply bool_decide_eq_false in H; by apply dec_stable end.
    - bool_prop. split_and!; try done; lia. }
  assert (Ho : forall other, fpOf !! BE_Behavior e = Some other -> other = BE_FingerprintID e).
  { intros other E. rewrite E in *. bool_prop. match goal with H : (_ =s _) = true |- _ => by apply String.eqb_eq in H | _ => done end. }
  unfold t_fidelity, t_runs. destruct (side =s SideReference) eqn:Es; res_inv; subst; (eexists a, _, _; split; [exact Ht|]; split; [exact Ho|]; split; [eassumption|]); 
    (split; [|split; [|reflexivity]]; [done|]); intros s; cbn; by destruct (s =s SideReference).
Qed.

Lemma observed_self e : BE_Observations e <> 0 -> observed (BE_FingerprintID e) e = true.
Proof. intros H. unfold observed. by rewrite String.eqb_refl, (proj2 (Z.eqb_neq _ _) H). Qed.
Lemma observed_zero fp e : BE_Observations e = 0 -> observed fp e = false.
Proof. intros H. unfold observed. by rewrite H, andb_false_r. Qed.
Lemma observed_other fp e : BE_FingerprintID e <> fp -> observed fp e = false.
Proof. intros H. unfold observed. by rewrite (proj2 (String.eqb_neq _ _) H). Qed.

Lemma tallied_ext fp runs runs' t :
  (forall s, presence fp (at_side runs' s) = presence fp (at_side runs s)) ->
  (forall i s, total (fidelity_in i fp) (concat (at_side runs' s)) = total (fidelity_in i fp) (concat (at_side runs s))) ->
  tallied fp runs t -> tallied fp runs' t.
Proof. intros Hp Hf [T1 T2]. split; intros s; [by rewrite Hp|]. destruct (T2 s) as [F R]. split; [|done]. intros i. by rewrite Hf. Qed.

Lemma tally_entry_Ok runs side es e acc acc' :
  (exists rs, at_side runs side = (rs ++ [es])%list /\ Z.of_nat (length rs) < max_u64) ->
  BE_FingerprintID e ∉ BE_FingerprintID <$> es -> repeated_entry_ok e ->
  seen_is runs acc -> tally_entry side acc e = Ok acc' -> seen_is (with_entry runs side es e) acc'.
Proof.
  intros Hlast Hnew Hok [T B S] H.
  pose proof (with_entry_presence runs side es e Hlast Hnew) as P.
  pose proof (fun g => with_entry_total runs side es e Hlast g) as Q.
  pose proof (with_entry_elem runs side es e Hlast) as M.
  destruct (Z.eq_dec (BE_Observations e) 0) as [Hz|Hz].
  { unfold tally_entry in H. rewrite (proj2 (Z.eqb_eq _ _) Hz) in H. destruct acc as [sn fo]. injection H as <-.
    assert (P0 : forall fp s, presence fp (at_side (with_entry runs side es e) s) = presence fp (at_side runs s)).
    { intros fp s. rewrite P, observed_zero by done. rewrite andb_false_r. lia. }
    split; [| |done].
    - intros fp. specialize (T fp). destruct ((sn, fo).1 !! fp); [|intros s; by rewrite P0].
      destruct T as [T [s0 N]]. split; [|exists s0; by rewrite P0]. apply (tallied_ext _ runs); [apply P0| |done]. intros i s. rewrite Q. unfold fidelity_in at 2. rewrite observed_zero by done.
      destruct (Bool.eqb _ _); lia.
    - intros s run x Hr Hx Hne. destruct (M s run x Hr Hx) as [(run' & Hr' & Hx')| ->]; [by apply (B s run')|done]. }
  destruct (tally_entry_inv _ _ _ _ Hz H) as (t0 & t1 & f & H0 & Hfp & Hf & Hb & H1 & ->). clear H.
  assert (T0 : tallied (BE_FingerprintID e) runs t0).
  { specialize (T (BE_FingerprintID e)). destruct H0 as [(E & -> & _)|[E _]]; rewrite E in T; [by apply fresh_tallied|by destruct T]. }
  assert (B0 : t_behavior t0 = BE_Behavior e) by (by destruct H0 as [(_ & -> & _)|[_ ?]]).
  destruct T0 as [T1 T2]. destruct Hok as [_ Hfid].
  split; cbn [fst snd].
  - intros fp. destruct (decide (fp = BE_FingerprintID e)) as [->|Hne].
    + rewrite lookup_insert_eq. split.
      2: { exists side. rewrite P, eqb_reflx, observed_self by done. cbn [andb]. pose proof (presence_nonneg (BE_FingerprintID e) (at_side runs side)). lia. }
      split; intros s; destruct (H1 s) as [R1 R2].
      * rewrite P, R1, T1, observed_self, andb_true_r by done. destruct (Bool.eqb _ _) eqn:Es; [|lia].
        rewrite u64_small; [done|]. destruct Hlast as (rs & E & Hl).
        assert (Ea : at_side runs s = (rs ++ [es])%list).
        { rewrite <- E. apply eqb_prop in Es. unfold at_side. by rewrite Es. }
        rewrite Ea, presence_snoc, observed_none by done. pose proof (presence_le (BE_FingerprintID e) rs).
        pose proof (presence_nonneg (BE_FingerprintID e) rs). ulia.
      * rewrite R2. destruct (T2 s) as [F R]. destruct (Bool.eqb _ _) eqn:Es.
        -- assert (Ef : t_fidelity t0 side = t_fidelity t0 s) by (apply eqb_prop in Es; unfold t_fidelity; by rewrite Es).
           rewrite Ef in Hf. split; [|by apply (fid_add _ _ f 0 R Hfid)]. intros i.
           destruct (fid_add _ _ f i R Hfid Hf) as [-> _]. rewrite Q, Es, F. unfold fidelity_in at 3. by rewrite observed_self.
        -- split; [|done]. intros i. rewrite Q, Es, F. lia.
    + rewrite lookup_insert_ne by done. specialize (T fp).
      assert (P0 : forall s, presence fp (at_side (with_entry runs side es e) s) = presence fp (at_side runs s)).
      { intros s. rewrite P, observed_other by done. rewrite andb_false_r. lia. }
      destruct (acc.1 !! fp); [|intros s; by rewrite P0]. destruct T as [T [s0 N]]. split; [|exists s0; by rewrite P0].
      apply (tallied_ext _ runs); [done| |done].
      intros i s. rewrite Q. unfold fidelity_in at 2. rewrite observed_other by done. destruct (Bool.eqb _ _); lia.
  - intros s run x Hr Hx Hne. destruct (M s run x Hr Hx) as [(run' & Hr' & Hx')| ->].
    + destruct (B s run' x Hr' Hx' Hne) as [(t & Et & Eb) Eo]. split.
      * destruct (decide (BE_FingerprintID x = BE_FingerprintID e)) as [E|E].
        -- rewrite E, lookup_insert_eq in *. exists t1. split; [done|]. rewrite Hb. destruct H0 as [(E' & _)|[E' _]]; congruence.
        -- rewrite lookup_insert_ne by done. by exists t.
      * destruct (decide (BE_Behavior x = BE_Behavior e)) as [E|E]; [|by rewrite lookup_insert_ne].
        rewrite E, lookup_insert_eq. rewrite E in Eo. by rewrite (Hfp _ Eo).
    + rewrite !lookup_insert_eq. split; [|done]. exists t1. split; [done|]. by rewrite Hb, B0.
  - destruct H0 as [(E & _ & Hs)|[E _]].
    + rewrite map_size_insert_None by done. lia.
    + rewrite map_size_insert_Some by by eexists. done.
Qed.

Lemma tally_entries runs side rest : forall es acc acc',
  (exists rs, at_side runs side = (rs ++ [es])%list /\ Z.of_nat (length rs) < max_u64) ->
  NoDup (BE_FingerprintID <$> (es ++ rest)%list) -> Forall repeated_entry_ok rest -> seen_is runs acc ->
  foldM (tally_entry side) acc rest = Ok acc' ->
  exists runs', seen_is runs' acc' /\ forall rs, at_side runs side = (rs ++ [es])%list ->
    forall s, at_side runs' s = if Bool.eqb (side =s SideReference) (s =s SideReference) then (rs ++ [es ++ rest])%list else at_side runs s.
Proof.
  revert runs. induction rest as [|e rest IH]; intros runs es acc acc' Hl Hnd Hok Hs H; cbn [foldM] in H.
  - injection H as <-. exists runs. split; [done|]. intros rs E s. rewrite app_nil_r. destruct (Bool.eqb _ _) eqn:Es; [|done].
    apply eqb_prop in Es. rewrite <- E. unfold at_side. by rewrite Es.
  - res_inv. apply Forall_cons in Hok as [Ho Hok]. change (e :: rest) with ([e] ++ rest)%list in *. rewrite app_assoc in *.
    assert (Hfp : BE_FingerprintID e ∉ BE_FingerprintID <$> es).
    { rewrite !fmap_app in Hnd. apply NoDup_app in Hnd as [Hnd _]. apply NoDup_app in Hnd as (_ & Hd & _). intros Hin.
      by apply (Hd _ Hin); left. }
    pose proof (tally_entry_Ok _ _ _ _ _ _ Hl Hfp Ho Hs Hok0) as Hs'. pose proof (with_entry_at runs side es e Hl) as W.
    destruct (IH (with_entry runs side es e) (es ++ [e])%list a acc') as (runs' & Hr & He); try done.
    + destruct (W side) as (rs & E & F). rewrite eqb_reflx in E, F. exists rs. split; [done|]. by apply F.
    + exists runs'. split; [done|]. intros rs E s. destruct (W side) as (rs' & E1 & F1). rewrite eqb_reflx in E1, F1.
      destruct (F1 eq_refl) as [F2 _]. rewrite E in F2. apply app_inj_tail in F2 as [<- _]. rewrite (He rs E1).
      destruct (Bool.eqb _ _) eqn:Es; [done|]. destruct (W s) as (rs2 & -> & _). by rewrite Es.
Qed.

(** ** The runs of a request *)
Definition on_side (side : ComparisonSide) (i : repetitionInput) : bool :=
  Completed (evidence i) && Bool.eqb (RE_Side (evidence i) =s SideReference) (side =s SideReference).
Definition completed_on (side : ComparisonSide) (inputs : list repetitionInput) : list repetitionInput :=
  List.filter (on_side side) inputs.
Definition runs_by (inputs : list repetitionInput) : per_side (list (list BehaviorEntry)) :=
  {| on_reference := ri_entries <$> completed_on SideReference inputs; on_candidate := ri_entries <$> completed_on SideCandidate inputs |}.
Definition model_calls (run : list BehaviorEntry) : Z := total (fun e => LModel (BE_Fidelity e)) run.
Definition layer_of (i : repetitionInput) : runLayerEvidence :=
  {| RL_runID := RE_RunID (evidence i); modelCalls := model_calls (ri_entries i) |}.
Definition empty_run (i : repetitionInput) : bool := Completed (evidence i) && (RE_RecordCount (evidence i) =? 0).

Record input_ok (i : repetitionInput) : Prop := {
  io_side : RE_Side (evidence i) = SideReference \/ RE_Side (evidence i) = SideCandidate;
  io_entries : Completed (evidence i) = true -> Forall repeated_entry_ok (ri_entries i);
  io_distinct : Completed (evidence i) = true -> NoDup (BE_FingerprintID <$> ri_entries i);
  io_block : is_u64 (RE_BlockDecisions (evidence i));
  io_critical : is_u64 (RE_CriticalRiskObservations (evidence i));
}.

Record reduction_is (inputs : list repetitionInput) (d : reduction) : Prop := {
  rr_completed : forall s, at_side (completed d) s = Z.of_nat (length (completed_on s inputs));
  rr_failing : failingMinimum d = Z.of_nat (length (List.filter empty_run inputs));
  rr_block : worstBlock d = greatest ((fun i => RE_BlockDecisions (evidence i)) <$> completed_on SideCandidate inputs);
  rr_cr : worstCR d = greatest ((fun i => RE_CriticalRiskObservations (evidence i)) <$> completed_on SideCandidate inputs);
  rr_layers : rd_candidateLayers d = layer_of <$> completed_on SideCandidate inputs;
  rr_words : Forall (fun l => is_u64 (modelCalls l)) (rd_candidateLayers d);
  rr_repetitions : repetitions d = evidence <$> inputs;
  rr_frequency : forall s, frequency_is (at_side (runs_by inputs) s) (at_side (frequency d) s);
  rr_seen : seen_is (runs_by inputs) (seen d, fingerprintOf d);
}.

Lemma runs_by_at inputs s : at_side (runs_by inputs) s = ri_entries <$> completed_on s inputs.
Proof. unfold at_side, runs_by, completed_on, on_side. cbn. by destruct (s =s SideReference). Qed.

Lemma per_side_ext {A} (p q : per_side A) : (forall s, at_side p s = at_side q s) -> p = q.
Proof. intros H. pose proof (H SideReference) as H1. pose proof (H SideCandidate) as H2. destruct p, q. cbn in *. by subst. Qed.

Lemma completed_snoc s inputs i : completed_on s (inputs ++ [i]) = (completed_on s inputs ++ if on_side s i then [i] else [])%list.
Proof. apply filter_snoc. Qed.

Lemma completed_length s inputs : (length (completed_on s inputs) <= length inputs)%nat.
Proof. apply List.filter_length_le. Qed.

Lemma entry_frequency_ok es : Forall repeated_entry_ok es -> Forall frequency_entry_ok es.
Proof. intros H. eapply Forall_impl; [exact H|]. by intros e []. Qed.

Lemma layers_total es : forall n m, Forall repeated_entry_ok es -> is_u64 n ->
  foldM (fun n e => addCount n (LModel (BE_Fidelity e))) n es = Ok m -> m = n + model_calls es /\ is_u64 m.
Proof.
  induction es as [|e es IH]; intros n m Ho Hn H; cbn [foldM] in H.
  - injection H as <-. unfold model_calls, total. cbn. split; [lia|done].
  - apply Forall_cons in Ho as [[_ He] Ho]. res_inv. apply fidelity_range_inv in He as (_ & _ & _ & He & _).
    apply addCount_Ok in Hok as [-> Hu]; [|done..]. destruct (IH _ _ Ho Hu H) as [-> Hm]. split; [|done].
    unfold model_calls, total. rewrite fmap_cons, sumZ_cons. lia.
Qed.

Lemma layerEvidenceOf_Ok i l : Forall repeated_entry_ok (ri_entries i) -> layerEvidenceOf (RE_RunID (evidence i)) (ri_entries i) = Ok l ->
  l = layer_of i /\ is_u64 (modelCalls l).
Proof.
  intros Ho H. unfold layerEvidenceOf in H. res_inv. subst l. destruct (layers_total _ _ _ Ho ltac:(done) Hok) as [-> Hu]. done.
Qed.

Lemma candidate_reference side : side = SideReference \/ side = SideCandidate -> side =s SideCandidate = negb (side =s SideReference).
Proof. by intros [->| ->]. Qed.

Section fold.
Context `{order : MapOrder} `{unicode : Unicode}.

Lemma initial_reduction_is : reduction_is [] initial_reduction.
Proof.
  split; try done.
  - intros s. unfold at_side. by destruct (s =s _).
  - intros s. unfold at_side. by destruct (s =s SideReference); apply new_side_is.
  - split; cbn; [|intros s run e Hr; unfold at_side in Hr; destruct (s =s _); by apply elem_of_nil in Hr|done].
    intros fp. rewrite lookup_empty. intros s. unfold at_side. by destruct (s =s _).
Qed.

Lemma seen_input inputs i seen fp acc' : seen_is (runs_by inputs) (seen, fp) -> Completed (evidence i) = true -> input_ok i ->
  Z.of_nat (length inputs) < max_u64 ->
  foldM (tally_entry (RE_Side (evidence i))) (seen, fp) (ri_entries i) = Ok acc' -> seen_is (runs_by (inputs ++ [i])) acc'.
Proof.
  intros [T B S] Hc Hi Hl H. set (side := RE_Side (evidence i)) in *.
  set (runs := set_side (runs_by inputs) side (at_side (runs_by inputs) side ++ [[]])%list).
  assert (R : forall s, at_side runs s = (at_side (runs_by inputs) s ++ if Bool.eqb (side =s SideReference) (s =s SideReference) then [[]] else [])%list).
  { intros s. unfold runs. rewrite at_set. destruct (Bool.eqb _ _) eqn:E; [|by rewrite app_nil_r].
    apply eqb_prop in E. unfold at_side. by rewrite E. }
  assert (S0 : seen_is runs (seen, fp)).
  { assert (P : forall f s, presence f (at_side runs s) = presence f (at_side (runs_by inputs) s)).
    { intros f s. rewrite R. destruct (Bool.eqb _ _); [|by rewrite app_nil_r]. rewrite presence_snoc. cbn. lia. }
    assert (C : forall s, concat (at_side runs s) = concat (at_side (runs_by inputs) s)).
    { intros s. rewrite R, concat_app. destruct (Bool.eqb _ _); cbn; by rewrite app_nil_r. }
    split; [| |done].
    - intros f. specialize (T f). destruct ((seen, fp).1 !! f); [|intros s; by rewrite P].
      destruct T as [T [s0 N]]. split; [|exists s0; by rewrite P]. by apply (tallied_ext _ (runs_by inputs)); [|intros; rewrite C|].
    - intros s run e Hr He. rewrite R in Hr. apply elem_of_app in Hr as [Hr|Hr]; [by apply (B s run)|].
      destruct (Bool.eqb _ _); [apply list_elem_of_singleton in Hr; subst run|]; by apply elem_of_nil in He || apply elem_of_nil in Hr. }
  assert (E0 : at_side runs side = (at_side (runs_by inputs) side ++ [[]])%list) by (by rewrite R, eqb_reflx).
  destruct (tally_entries runs side (ri_entries i) [] (seen, fp) acc') as (runs' & Hs' & He); [| |by apply (io_entries i Hi)|done|done|].
  { exists (at_side (runs_by inputs) side). split; [done|]. rewrite runs_by_at, length_fmap. pose proof (completed_length side inputs). lia. }
  { by apply (io_distinct i Hi). }
  assert (Er : runs' = runs_by (inputs ++ [i])); [|by rewrite <- Er]. apply per_side_ext. intros s. rewrite (He _ E0 s).
  rewrite (runs_by_at (inputs ++ [i])), completed_snoc, fmap_app. unfold on_side at 1. rewrite Hc. cbn [andb app]. fold side.
  destruct (Bool.eqb _ _) eqn:Es; cbn [fmap list_fmap].
  - rewrite <- runs_by_at. f_equal. apply eqb_prop in Es. unfold at_side. by rewrite Es.
  - by rewrite R, Es, !app_nil_r, runs_by_at.
Qed.

Lemma reduce_input_Ok inputs d i d' : reduction_is inputs d -> input_ok i -> Z.of_nat (length inputs) < max_u64 ->
  reduce_input d i = Ok d' -> reduction_is (inputs ++ [i]) d'.
Proof.
  intros [C F B R L W E Q S] Hi Hl H. unfold reduce_input in H.
  destruct (Completed (evidence i)) eqn:Hc; cbn [negb] in H.
  2: { injection H as <-. assert (N : forall s, on_side s i = false) by (intros s; unfold on_side; by rewrite Hc).
       assert (Nr : runs_by (inputs ++ [i]) = runs_by inputs).
       { apply per_side_ext. intros s. by rewrite !runs_by_at, completed_snoc, N, app_nil_r. }
       assert (Nf : List.filter empty_run (inputs ++ [i]) = List.filter empty_run inputs).
       { rewrite filter_snoc. unfold empty_run at 2. rewrite Hc. cbn. by rewrite app_nil_r. }
       split; cbn; rewrite ?completed_snoc, ?N, ?app_nil_r, ?Nr, ?Nf; try done.
       - intros s. rewrite completed_snoc, N, app_nil_r. apply C.
       - by rewrite E, fmap_app. }
  res_inv. destruct a2 as [sn fo]. injection H as <-. set (side := RE_Side (evidence i)) in *.
  assert (Hon : forall s, on_side s i = Bool.eqb (side =s SideReference) (s =s SideReference)).
  { intros s. unfold on_side. by rewrite Hc. }
  assert (Hcand : on_side SideCandidate i = (side =s SideCandidate)).
  { rewrite Hon, (candidate_reference side) by apply Hi. by destruct (side =s SideReference). }
  assert (Hlen : forall s, (length (completed_on s inputs) <= length inputs)%nat) by (intros; apply completed_length).
  assert (Hin : forall s, Bool.eqb (side =s SideReference) (s =s SideReference) = true -> forall A (p : per_side A), at_side p s = at_side p side).
  { intros s E'%eqb_prop A p. unfold at_side. by rewrite E'. }
  split; cbn [completed failingMinimum worstBlock worstCR rd_candidateLayers repetitions frequency seen fingerprintOf].
  - intros s. rewrite at_set, completed_snoc, length_app, Hon. specialize (Hlen s). pose proof (C s) as Cs.
    destruct (Bool.eqb _ _) eqn:Es; cbn [length]; [|lia]. rewrite <- (Hin s Es), Cs, u64_small by ulia. lia.
  - rewrite filter_snoc, length_app. unfold empty_run at 2. rewrite Hc. cbn [andb].
    pose proof (List.filter_length_le empty_run inputs). destruct (_ =? 0); cbn [length]; [rewrite u64_small by ulia|]; lia.
  - rewrite completed_snoc, Hcand, fmap_app. destruct (side =s SideCandidate); [|by rewrite app_nil_r].
    cbn [fmap list_fmap]. rewrite greatest_snoc, B by apply Hi. done.
  - rewrite completed_snoc, Hcand, fmap_app. destruct (side =s SideCandidate); [|by rewrite app_nil_r].
    cbn [fmap list_fmap]. rewrite greatest_snoc, R by apply Hi. done.
  - rewrite completed_snoc, Hcand, fmap_app. destruct (side =s SideCandidate); [|injection Hok1 as <-; by rewrite app_nil_r].
    res_inv. subst a1. cbn [fmap list_fmap]. rewrite L. f_equal. f_equal. by eapply layerEvidenceOf_Ok; [apply Hi|].
  - destruct (side =s SideCandidate); [|by injection Hok1 as <-]. res_inv. subst a1. apply Forall_app. split; [done|]. apply Forall_singleton.
    by eapply layerEvidenceOf_Ok; [apply Hi|].
  - by rewrite E, fmap_app.
  - intros s. rewrite at_set, runs_by_at, completed_snoc, fmap_app, Hon. specialize (Q s). rewrite runs_by_at in Q.
    destruct (Bool.eqb _ _) eqn:Es; cbn [fmap list_fmap]; [|by rewrite app_nil_r].
    rewrite <- (Hin s Es) in Hok0. eapply frequency_addRun_Ok; [exact Q| | |exact Hok0].
    + split; [apply entry_frequency_ok|]; by apply Hi.
    + rewrite length_fmap. specialize (Hlen s). lia.
  - by apply (seen_input inputs i (seen d) (fingerprintOf d)).
Qed.

Lemma reduce_inputs_Ok inputs d : Forall input_ok inputs -> Z.of_nat (length inputs) <= max_u64 ->
  foldM reduce_input initial_reduction inputs = Ok d -> reduction_is inputs d.
Proof.
  assert (K : forall rest done d0 d1, reduction_is done d0 -> Forall input_ok rest -> Z.of_nat (length (done ++ rest)) <= max_u64 ->
    foldM reduce_input d0 rest = Ok d1 -> reduction_is (done ++ rest) d1).
  { induction rest as [|i rest IH]; intros done_ d0 d1 Hd Ho Hl H; cbn [foldM] in H.
    - injection H as <-. by rewrite app_nil_r.
    - apply Forall_cons in Ho as [Hi Ho]. res_inv. change (i :: rest) with ([i] ++ rest)%list in *. rewrite app_assoc in *.
      apply (IH (done_ ++ [i])%list a d1); try done. apply (reduce_input_Ok done_ d0); try done.
      rewrite !length_app in Hl. cbn [length] in Hl. lia. }
  intros. by apply (K inputs [] initial_reduction); [apply initial_reduction_is|..].
Qed.
End fold.

(** ** The rows *)
Definition seen_in (fp : string) (runs : list (list BehaviorEntry)) : Prop := exists run e, run ∈ runs /\ e ∈ run /\ observed fp e = true.

(** What one row says of a behavior. *)
Record presence_exact (limits : RepeatedEvaluationGateLimits) (runs : Z) (sides : per_side (list (list BehaviorEntry)))
    (b : RepeatedBehaviorPresence) : Prop := {
  px_reference : ReferenceRunsPresent b = presence (RB_FingerprintID b) (on_reference sides);
  px_candidate : CandidateRunsPresent b = presence (RB_FingerprintID b) (on_candidate sides);
  px_class : Classification b = classifyPresence (ReferenceRunsPresent b) (CandidateRunsPresent b)
               (AddedCandidatePresenceMinimum limits) (AddedReferencePresenceMaximum limits);
  px_lost : Lost b = isLost (ReferenceRunsPresent b) (CandidateRunsPresent b) (u64 runs);
  px_stats : RB_Reference b = stats_of (calls_of_behavior (RB_FingerprintID b) <$> on_reference sides) /\
             RB_Candidate b = stats_of (calls_of_behavior (RB_FingerprintID b) <$> on_candidate sides);
  px_fidelity : fidelity_sum (ReferenceFidelity b) (RB_FingerprintID b) (on_reference sides) /\
                fidelity_sum (CandidateFidelity b) (RB_FingerprintID b) (on_candidate sides);
  px_behavior : forall run e, run ∈ on_reference sides \/ run ∈ on_candidate sides -> e ∈ run -> observed (RB_FingerprintID b) e = true ->
                BE_Behavior e = RB_Behavior b;
}.

(** The rows of a comparison: in order, one for each behavior some completed run observed. *)
Record rows_exact (limits : RepeatedEvaluationGateLimits) (runs : Z) (sides : per_side (list (list BehaviorEntry)))
    (rows : list RepeatedBehaviorPresence) : Prop := {
  rx_sorted : StronglySorted String.le (RB_FingerprintID <$> rows);
  rx_distinct : NoDup (RB_FingerprintID <$> rows);
  rx_elem : forall fp, fp ∈ RB_FingerprintID <$> rows <-> seen_in fp (on_reference sides) \/ seen_in fp (on_candidate sides);
  rx_rows : Forall (presence_exact limits runs sides) rows;
}.

Lemma presence_pos fp runs : presence fp runs <> 0 <-> seen_in fp runs.
Proof.
  unfold presence, seen_in. split.
  - intros H. destruct (List.filter (existsb (observed fp)) runs) as [|run l] eqn:E; [done|].
    assert (Hin : In run (List.filter (existsb (observed fp)) runs)) by (rewrite E; by left).
    apply filter_In in Hin as [Hr He]. apply existsb_exists in He as (e & He & Ho). exists run, e. by rewrite !list_elem_of_In.
  - intros (run & e & Hr & He & Ho) H. assert (Hin : In run (List.filter (existsb (observed fp)) runs)).
    { apply filter_In. rewrite <- list_elem_of_In. split; [done|]. apply existsb_exists. exists e. by rewrite <- list_elem_of_In. }
    destruct (List.filter _ runs); [done|]. cbn [length] in H. lia.
Qed.

Lemma seen_tally sides acc fp : seen_is sides acc ->
  is_Some (acc.1 !! fp) <-> seen_in fp (on_reference sides) \/ seen_in fp (on_candidate sides).
Proof.
  intros [T B _]. rewrite <- !presence_pos. specialize (T fp). destruct (acc.1 !! fp) as [t|] eqn:E.
  - destruct T as [_ [s N]]. split; [intros _|by eexists]. unfold at_side in N. destruct (s =s _); [by left|by right].
  - split; [by intros []|]. pose proof (T SideReference) as T1. pose proof (T SideCandidate) as T2. cbn in T1, T2. by intros [].
Qed.

Section rows.
Context `{order : MapOrder}.

Lemma behavior_row_Ok limits runs sides fr acc fp t b : seen_is sides acc -> acc.1 !! fp = Some t ->
  (forall s, frequency_is (at_side sides s) (at_side fr s)) ->
  behavior_row (AddedCandidatePresenceMinimum limits) (AddedReferencePresenceMaximum limits) runs fr (fp, t) = Ok b ->
  RB_FingerprintID b = fp /\ presence_exact limits runs sides b.
Proof.
  intros [T B _] Et Hf H. unfold behavior_row in H. res_inv. subst b. specialize (T fp). rewrite Et in T. destruct T as [[T1 T2] _].
  pose proof (Hf SideReference) as F1. pose proof (Hf SideCandidate) as F2. unfold at_side in F1, F2. cbn in F1, F2.
  split; [done|]. split; cbn [RB_FingerprintID RB_Behavior ReferenceRunsPresent CandidateRunsPresent Classification RB_Reference RB_Candidate Lost ReferenceFidelity CandidateFidelity].
  - exact (T1 SideReference).
  - exact (T1 SideCandidate).
  - done.
  - done.
  - split; by eapply side_behaviorStats_Ok.
  - split; [exact (proj1 (T2 SideReference))|exact (proj1 (T2 SideCandidate))].
  - intros run e Hr He Ho. unfold observed in Ho. apply andb_true_iff in Ho as [<-%String.eqb_eq Hz%negb_true_iff%Z.eqb_neq].
    assert (Hs : exists s, run ∈ at_side sides s) by (destruct Hr; [by exists SideReference|by exists SideCandidate]).
    destruct Hs as [s Hs]. destruct (B s run e Hs He Hz) as [(t' & Et' & Eb) _]. congruence.
Qed.

Lemma rows_Ok limits runs sides fr acc rows : seen_is sides acc -> (forall s, frequency_is (at_side sides s) (at_side fr s)) ->
  mapM (behavior_row (AddedCandidatePresenceMinimum limits) (AddedReferencePresenceMaximum limits) runs fr) (range acc.1) = Ok rows ->
  rows_exact limits runs sides (sort_by RB_FingerprintID rows) /\ RB_FingerprintID <$> rows = (range acc.1).*1.
Proof.
  intros Hs Hf H. apply mapM_res_Forall2 in H.
  assert (K : RB_FingerprintID <$> rows = (range acc.1).*1 /\ Forall (presence_exact limits runs sides) rows).
  { assert (Hr : forall item, item ∈ range acc.1 -> acc.1 !! item.1 = Some item.2) by (intros [fp t]; apply elem_of_range).
    revert Hr. induction H as [|[fp t] b items rows Hb _ IH]; intros Hr; [done|].
    destruct IH as [IH1 IH2]; [intros item Hi; apply Hr; by right|].
    destruct (behavior_row_Ok limits runs sides fr acc fp t b Hs (Hr (fp, t) ltac:(by left)) Hf Hb) as [E Hp].
    rewrite !fmap_cons, IH1, E. split; [done|by constructor]. }
  destruct K as [K1 K2]. split; [|done]. pose proof (sort_by_perm RB_FingerprintID rows) as P.
  split.
  - pose proof (sort_by_sorted RB_FingerprintID rows) as S. clear -S. induction S as [|b l S IH F]; [constructor|].
    rewrite fmap_cons. constructor; [done|]. apply Forall_fmap. eapply Forall_impl; [exact F|]. done.
  - rewrite P, K1. apply NoDup_range.
  - intros fp. rewrite P, K1, elem_of_range_keys. by apply seen_tally.
  - by rewrite P.
Qed.
End rows.

(** ** What a passing verdict asks *)
Definition named_in (target : string) (runs : list (list BehaviorEntry)) : Prop := exists run, run ∈ runs /\ 0 < calls_to_name target run.

Record repetitions_pass (limits : RepeatedEvaluationGateLimits) (runs : Z) (inputs : list repetitionInput)
    (rows : list RepeatedBehaviorPresence) : Prop := {
  rp_reference : Z.of_nat (length (completed_on SideReference inputs)) = runs;
  rp_candidate : Z.of_nat (length (completed_on SideCandidate inputs)) = runs;
  rp_records : forall i, i ∈ inputs -> Completed (evidence i) = true -> RE_RecordCount (evidence i) <> 0;
  rp_added : Z.of_nat (length (List.filter (fun b => Classification b =s RepeatedAdded) rows)) <= MaxRepeatedAddedBehaviors limits;
  rp_block : forall i, i ∈ completed_on SideCandidate inputs -> RE_BlockDecisions (evidence i) <= MaxBlockDecisionsPerRun limits;
  rp_critical : forall i, i ∈ completed_on SideCandidate inputs -> RE_CriticalRiskObservations (evidence i) <= MaxCriticalRiskObservationsPerRun limits;
  rp_frequent : when_set (MinCandidateFrequency limits) (fun m =>
    (exists b, b ∈ rows /\ ReferenceRunsPresent b = runs) /\
    forall b, b ∈ rows -> ReferenceRunsPresent b = runs -> m <= CandidateRunsPresent b);
  rp_lost : when_set (MaxLostBehaviors limits) (fun m => Z.of_nat (length (List.filter Lost rows)) <= m);
  rp_calls : forall ts, MaxCallsPerRun limits = Some ts -> Forall (fun t =>
    (named_in (TL_Target t) (on_reference (runs_by inputs)) \/ named_in (TL_Target t) (on_candidate (runs_by inputs))) /\
    forall run, run ∈ on_candidate (runs_by inputs) -> calls_to_name (TL_Target t) run <= TL_Max t) ts;
  rp_llm : when_set (MaxLLMCallsPerRun limits) (fun m =>
    forall run, run ∈ on_candidate (runs_by inputs) -> 0 < model_calls run <= m);
}.

Record limits_ok (l : RepeatedEvaluationGateLimits) : Prop := {
  lo_added : 0 <= MaxRepeatedAddedBehaviors l;
  lo_block : 0 <= MaxBlockDecisionsPerRun l;
  lo_critical : 0 <= MaxCriticalRiskObservationsPerRun l;
  lo_calls : forall ts, MaxCallsPerRun l = Some ts -> Forall (fun t => 0 <= TL_Max t) ts;
  lo_llm : 0 <= maximum (MaxLLMCallsPerRun l);
}.

Lemma greatest_le cs m : 0 <= m -> greatest cs <= m <-> forall c, c ∈ cs -> c <= m.
Proof.
  intros Hm. unfold greatest. induction cs as [|c cs IH]; cbn [foldr].
  - split; [|lia]. by intros _ c ?%elem_of_nil.
  - rewrite Z.max_lub_iff, IH. setoid_rewrite elem_of_cons. split; [intros [H1 H2] c' [->|H]; [done|by apply H2]|].
    intros H. split; [by apply H; left|]. intros c' Hc. apply H. by right.
Qed.

Lemma greatest_fmap_le {A} (f : A -> Z) l m : 0 <= m -> greatest (f <$> l) <= m <-> forall x, x ∈ l -> f x <= m.
Proof.
  intros Hm. rewrite greatest_le by done. setoid_rewrite list_elem_of_fmap. split.
  - intros H x Hx. apply H. by exists x.
  - intros H c (x & -> & Hx). by apply H.
Qed.

Lemma filter_none {A} (p : A -> bool) l : Z.of_nat (length (List.filter p l)) = 0 <-> forall x, x ∈ l -> p x = false.
Proof.
  induction l as [|a l IH]; cbn [List.filter].
  - split; [by intros _ x ?%elem_of_nil|done].
  - setoid_rewrite elem_of_cons. destruct (p a) eqn:E; cbn [length].
    + split; [lia|]. intros H. specialize (H a ltac:(by left)). congruence.
    + rewrite IH. split; [by intros H x [->|Hx]; [|apply H]|]. intros H x Hx. apply H. by right.
Qed.

Lemma name_present runs s n : frequency_is runs s -> is_Some (fs_byName s !! n) <-> named_in n runs.
Proof.
  intros H. destruct (fi_names _ _ H n) as [-> _]. rewrite acc_of_some. unfold named_in. split.
  - intros (c & (run & -> & Hr)%list_elem_of_fmap & Hc). eauto.
  - intros (run & Hr & Hc). exists (calls_to_name n run). split; [apply list_elem_of_fmap; eauto|done].
Qed.

Lemma model_calls_nonneg es : Forall repeated_entry_ok es -> 0 <= model_calls es.
Proof.
  intros H. apply total_nonneg. intros e He. rewrite Forall_forall in H. destruct (H e He) as [_ Hf].
  apply fidelity_range_inv in Hf as (_ & _ & _ & Hf & _). apply Hf.
Qed.

Lemma runs_u64 runs : 1 <= runs <= MaxRepetitions -> u64 runs = runs.
Proof. intros H. apply u64_small. unfold MaxRepetitions in H. ulia. Qed.

Section verdict.
Context `{order : MapOrder} `{unicode : Unicode}.
Variables (limits : RepeatedEvaluationGateLimits) (runs : Z) (inputs : list repetitionInput) (d : reduction).
Hypothesis Hruns : 1 <= runs <= MaxRepetitions.
Hypothesis Hlen : Z.of_nat (length inputs) <= max_u64.
Hypothesis Hok : Forall input_ok inputs.
Hypothesis Hlim : limits_ok limits.
Hypothesis Hd : reduction_is inputs d.

Lemma side_frequency : frequency_is (on_reference (runs_by inputs)) (on_reference (frequency d)) /\
  frequency_is (on_candidate (runs_by inputs)) (on_candidate (frequency d)).
Proof. split; [exact (rr_frequency _ _ Hd SideReference)|exact (rr_frequency _ _ Hd SideCandidate)]. Qed.

Lemma completed_counts : on_reference (completed d) = Z.of_nat (length (completed_on SideReference inputs)) /\
  on_candidate (completed d) = Z.of_nat (length (completed_on SideCandidate inputs)).
Proof. split; [exact (rr_completed _ _ Hd SideReference)|exact (rr_completed _ _ Hd SideCandidate)]. Qed.

Lemma candidate_entries_ok i : i ∈ completed_on SideCandidate inputs -> input_ok i /\ Forall repeated_entry_ok (ri_entries i).
Proof.
  intros Hi. apply list_elem_of_In, filter_In in Hi as [Hi Hon]. apply list_elem_of_In in Hi. rewrite Forall_forall in Hok.
  pose proof (Hok i Hi) as Ho. split; [done|]. apply (io_entries i Ho). unfold on_side in Hon. by apply andb_true_iff in Hon as [? _].
Qed.

Definition gate_inputs (rows : list RepeatedBehaviorPresence) : frequencyGateInputs :=
  {| in_runs := u64 runs; referenceRuns := on_reference (completed d); candidateRuns := on_candidate (completed d);
     in_behaviors := rows; referenceByName := fs_byName (on_reference (frequency d));
     candidByName := fs_byName (on_candidate (frequency d)); candidateLayers := rd_candidateLayers d |}.

Lemma frequent_iff rows m : on_reference (completed d) = runs -> on_candidate (completed d) = runs ->
  frequent m (gate_inputs rows) <->
  (exists b, b ∈ rows /\ ReferenceRunsPresent b = runs) /\ forall b, b ∈ rows -> ReferenceRunsPresent b = runs -> m <= CandidateRunsPresent b.
Proof.
  intros E1 E2. unfold frequent, both_sides, qualifying. cbn. rewrite E1, E2, (runs_u64 runs Hruns), Forall_forall.
  assert (Q : forall b, b ∈ List.filter (fun b => ReferenceRunsPresent b =? runs) rows <-> b ∈ rows /\ ReferenceRunsPresent b = runs).
  { intros b. rewrite list_elem_of_In, filter_In, <- list_elem_of_In. by rewrite Z.eqb_eq. }
  split.
  - intros (_ & Hn & H). split; [|intros b Hb Hr; apply H; by apply Q].
    destruct (List.filter _ rows) as [|b l]; [done|]. exists b. apply Q. by left.
  - intros [(b & Hb & Hr) H]. split; [lia|]. split; [|intros b' Hb'%Q; naive_solver].
    intros E. assert (Hin : b ∈ List.filter (fun b => ReferenceRunsPresent b =? runs) rows) by by apply Q. rewrite E in Hin. by eapply not_elem_of_nil.
Qed.

Lemma within_iff rows t : 0 <= TL_Max t -> within_target (gate_inputs rows) t <->
  (named_in (TL_Target t) (on_reference (runs_by inputs)) \/ named_in (TL_Target t) (on_candidate (runs_by inputs))) /\
  forall run, run ∈ on_candidate (runs_by inputs) -> calls_to_name (TL_Target t) run <= TL_Max t.
Proof.
  intros Hm. destruct side_frequency as [F1 F2]. unfold within_target. cbn [gate_inputs candidByName referenceByName].
  rewrite (name_present _ _ _ F1), (name_present _ _ _ F2).
  assert (M : (forall a, fs_byName (on_candidate (frequency d)) !! TL_Target t = Some a -> fa_max a <= TL_Max t) <->
    forall run, run ∈ on_candidate (runs_by inputs) -> calls_to_name (TL_Target t) run <= TL_Max t).
  { rewrite <- (greatest_fmap_le _ _ _ Hm). destruct (fi_names _ _ F2 (TL_Target t)) as [-> _]. split.
    - intros H. destruct (acc_of _) as [a|] eqn:E; [rewrite <- (acc_of_max _ _ E); by apply H|].
      apply greatest_fmap_le; [done|]. intros run Hr. destruct (Z.leb_spec (calls_to_name (TL_Target t) run) 0); [lia|]. exfalso.
      assert (Hs : is_Some (acc_of (calls_to_name (TL_Target t) <$> on_candidate (runs_by inputs)))); [|rewrite E in Hs; by destruct Hs].
      apply acc_of_some. exists (calls_to_name (TL_Target t) run). split; [by apply list_elem_of_fmap_2|done].
    - intros H a E. by rewrite (acc_of_max _ _ E). }
  rewrite M. tauto.
Qed.

Lemma llm_iff rows m : on_candidate (completed d) = runs -> few_llm_calls m (gate_inputs rows) <->
  forall run, run ∈ on_candidate (runs_by inputs) -> 0 < model_calls run <= m.
Proof.
  intros E. unfold few_llm_calls. cbn [gate_inputs candidateRuns candidateLayers]. rewrite (rr_layers _ _ Hd), E, Forall_fmap, Forall_forall.
  unfold runs_by. cbn [on_candidate]. setoid_rewrite list_elem_of_fmap. split.
  - intros [_ H] run (i & -> & Hi). specialize (H i Hi). cbn in H. destruct (candidate_entries_ok i Hi) as [_ Ho].
    pose proof (model_calls_nonneg _ Ho). lia.
  - intros H. split; [lia|]. intros i Hi. specialize (H (ri_entries i) ltac:(eauto)). cbn. lia.
Qed.

Lemma frequency_limits_iff rows : on_reference (completed d) = runs -> on_candidate (completed d) = runs ->
  frequency_limits_hold limits (gate_inputs rows) <->
  when_set (MinCandidateFrequency limits) (fun m =>
    (exists b, b ∈ rows /\ ReferenceRunsPresent b = runs) /\
    forall b, b ∈ rows -> ReferenceRunsPresent b = runs -> m <= CandidateRunsPresent b) /\
  when_set (MaxLostBehaviors limits) (fun m => Z.of_nat (length (List.filter Lost rows)) <= m) /\
  (forall ts, MaxCallsPerRun limits = Some ts -> Forall (fun t =>
    (named_in (TL_Target t) (on_reference (runs_by inputs)) \/ named_in (TL_Target t) (on_candidate (runs_by inputs))) /\
    forall run, run ∈ on_candidate (runs_by inputs) -> calls_to_name (TL_Target t) run <= TL_Max t) ts) /\
  when_set (MaxLLMCallsPerRun limits) (fun m => forall run, run ∈ on_candidate (runs_by inputs) -> 0 < model_calls run <= m).
Proof.
  intros E1 E2.
  assert (L : forall m, few_lost m (gate_inputs rows) <-> Z.of_nat (length (List.filter Lost rows)) <= m).
  { intros m. unfold few_lost, both_sides. cbn. rewrite E1, E2. lia. }
  assert (C : forall ts, MaxCallsPerRun limits = Some ts -> few_calls ts (gate_inputs rows) <-> Forall (fun t =>
    (named_in (TL_Target t) (on_reference (runs_by inputs)) \/ named_in (TL_Target t) (on_candidate (runs_by inputs))) /\
    forall run, run ∈ on_candidate (runs_by inputs) -> calls_to_name (TL_Target t) run <= TL_Max t) ts).
  { intros ts Et. pose proof (lo_calls _ Hlim ts Et) as Hts. unfold few_calls. cbn [gate_inputs candidateRuns]. rewrite E2.
    rewrite !Forall_forall. rewrite Forall_forall in Hts. split.
    - intros [_ H] t Ht. by apply (within_iff rows t (Hts t Ht)), H.
    - intros H. split; [lia|]. intros t Ht. by apply (within_iff rows t (Hts t Ht)), H. }
  split.
  - intros [H1 H2 H3 H4]. split_and!.
    + intros Hs. apply (frequent_iff rows _ E1 E2). by apply H1.
    + intros Hs. apply L. by apply H2.
    + intros ts Et. apply (C ts Et). by apply H3.
    + intros Hs. apply (llm_iff rows _ E2). by apply H4.
  - intros (H1 & H2 & H3 & H4). split.
    + intros Hs. apply (frequent_iff rows _ E1 E2). by apply H1.
    + intros Hs. apply L. by apply H2.
    + intros ts Et. apply (C ts Et). by apply H3.
    + intros Hs. apply (llm_iff rows _ E2). by apply H4.
Qed.

Lemma checks_pass rows added : on_reference (completed d) = runs /\ on_candidate (completed d) = runs /\ failingMinimum d = 0 /\
    added <= MaxRepeatedAddedBehaviors limits /\ worstBlock d <= MaxBlockDecisionsPerRun limits /\
    worstCR d <= MaxCriticalRiskObservationsPerRun limits /\ frequency_limits_hold limits (gate_inputs rows) ->
  added = Z.of_nat (length (List.filter (fun b => Classification b =s RepeatedAdded) rows)) ->
  repetitions_pass limits runs inputs rows.
Proof.
  intros (E1 & E2 & E3 & H1 & H2 & H3 & H4) ->. destruct completed_counts as [C1 C2].
  apply (frequency_limits_iff rows E1 E2) in H4 as (H4 & H5 & H6 & H7).
  split; try done; try lia.
  - intros i Hi Hc Hz. rewrite (rr_failing _ _ Hd) in E3. apply (proj1 (filter_none _ _) E3) in Hi.
    unfold empty_run in Hi. by rewrite Hc, Hz in Hi.
  - rewrite (rr_block _ _ Hd) in H2. exact (proj1 (greatest_fmap_le _ _ _ (lo_block _ Hlim)) H2).
  - rewrite (rr_cr _ _ Hd) in H3. exact (proj1 (greatest_fmap_le _ _ _ (lo_critical _ Hlim)) H3).
Qed.

Lemma pass_checks rows : repetitions_pass limits runs inputs rows ->
  on_reference (completed d) = runs /\ on_candidate (completed d) = runs /\ failingMinimum d = 0 /\
  worstBlock d <= MaxBlockDecisionsPerRun limits /\ worstCR d <= MaxCriticalRiskObservationsPerRun limits /\
  frequency_limits_hold limits (gate_inputs rows).
Proof.
  intros [P1 P2 P3 P4 P5 P6 P7 P8 P9 P10]. destruct completed_counts as [C1 C2].
  assert (E1 : on_reference (completed d) = runs) by lia. assert (E2 : on_candidate (completed d) = runs) by lia.
  split_and!; try done.
  - rewrite (rr_failing _ _ Hd). apply filter_none. intros i Hi. unfold empty_run.
    destruct (Completed (evidence i)) eqn:Hc; [|done]. by apply Z.eqb_neq, P3.
  - rewrite (rr_block _ _ Hd). exact (proj2 (greatest_fmap_le _ _ _ (lo_block _ Hlim)) P5).
  - rewrite (rr_cr _ _ Hd). exact (proj2 (greatest_fmap_le _ _ _ (lo_critical _ Hlim)) P6).
  - by apply (frequency_limits_iff rows E1 E2).
Qed.

Lemma layers_nonneg : Forall (fun r => 0 <= modelCalls r) (rd_candidateLayers d) /\ Z.of_nat (length (rd_candidateLayers d)) <= max_u64.
Proof.
  rewrite (rr_layers _ _ Hd). split.
  - apply Forall_fmap, Forall_forall. intros i Hi. apply model_calls_nonneg. by apply candidate_entries_ok.
  - rewrite length_fmap. pose proof (completed_length SideCandidate inputs). lia.
Qed.

Lemma rows_bounded k j fr rows : mapM (behavior_row k j runs fr) (range (seen d)) = Ok rows -> Z.of_nat (length rows) <= max_u64.
Proof.
  intros H%mapM_res_Forall2%Forall2_length. rewrite <- H, (range_perm (seen d)), length_map_to_list.
  pose proof (si_size _ _ (rr_seen _ _ Hd)). cbn [fst] in *. unfold maxBehaviorEntries in *. ulia.
Qed.

(** The verdict of a reduction, and its rows. *)
Lemma reduced_Ok c : reduced limits runs d = Ok c ->
  rows_exact limits runs (runs_by inputs) (RX_Behaviors c) /\
  RX_Runs c = runs /\ RX_Limits c = limits /\ Repetitions c = evidence <$> inputs /\
  (rg_verdict (RX_Gate c) = GateVerdictPass \/ rg_verdict (RX_Gate c) = GateVerdictFail) /\
  (rg_verdict (RX_Gate c) = GateVerdictPass <-> repetitions_pass limits runs inputs (RX_Behaviors c)).
Proof.
  intros H. unfold reduced in H. res_inv. subst c. cbn [RX_Behaviors RX_Gate RX_Runs RX_Limits Repetitions rg_verdict].
  destruct (rows_Ok limits runs (runs_by inputs) (frequency d) (seen d, fingerprintOf d) a) as [Hrows Hkeys]; [apply Hd|apply Hd|done|].
  assert (La : Z.of_nat (length a) <= max_u64) by by eapply rows_bounded.
  split; [done|]. split; [done|]. split; [done|]. split; [apply Hd|]. split; [by destruct (_ || _); [right|left]|].
  rewrite (count_where (fun b => Classification b =s RepeatedAdded)) by lia.
  set (rows := sort_by RB_FingerprintID a). assert (P : rows ≡ₚ a) by apply sort_by_perm.
  assert (Ea : Z.of_nat (length (List.filter (fun b => Classification b =s RepeatedAdded) a)) =
               Z.of_nat (length (List.filter (fun b => Classification b =s RepeatedAdded) rows))) by by rewrite (filter_perm _ _ _ P).
  rewrite Z.add_0_l, Ea. fold (gate_inputs rows). destruct layers_nonneg as [L1 L2].
  assert (Hfg : existsb failsVerdict (evaluateFrequencyGates limits (gate_inputs rows)) = false <-> frequency_limits_hold limits (gate_inputs rows)).
  { apply frequency_gates_pass; try done; [cbn; rewrite P; lia|apply Hlim|apply Hlim]. }
  set (fg := existsb failsVerdict (evaluateFrequencyGates limits (gate_inputs rows))) in *.
  match goal with |- context [failsVerdict (min_frequency_check limits (gate_inputs rows)) || ?b] =>
    change (failsVerdict (min_frequency_check limits (gate_inputs rows)) || b) with fg end.
  rewrite (runs_u64 runs Hruns).
  transitivity (((negb (on_reference (completed d) =? runs) || (negb (on_candidate (completed d) =? runs) || (negb (failingMinimum d <=? 0) ||
     (negb (Z.of_nat (length (List.filter (fun b => Classification b =s RepeatedAdded) rows)) <=? MaxRepeatedAddedBehaviors limits) ||
     (negb (worstBlock d <=? MaxBlockDecisionsPerRun limits) || (negb (worstCR d <=? MaxCriticalRiskObservationsPerRun limits) || false))))))
     || fg = false)).
  { destruct (_ || fg); split; done. }
  rewrite !orb_false_iff, Hfg, !negb_false_iff, !Z.eqb_eq, !Z.leb_le.
  assert (F0 : 0 <= failingMinimum d) by (rewrite (rr_failing _ _ Hd); lia). split.
  - intros H. apply (checks_pass rows _) with (2 := eq_refl). split_and!; try tauto. lia.
  - intros Hp. pose proof (rp_added _ _ _ _ Hp). destruct (pass_checks rows Hp) as (? & ? & ? & ? & ? & ?). split_and!; try done; lia.
Qed.
End verdict.

(** ** The order of the repetitions *)
Definition same_runs (p q : per_side (list (list BehaviorEntry))) : Prop :=
  on_reference p ≡ₚ on_reference q /\ on_candidate p ≡ₚ on_candidate q.

Lemma presence_perm fp l l' : l ≡ₚ l' -> presence fp l = presence fp l'.
Proof. intros P. unfold presence. by rewrite (filter_perm _ _ _ P). Qed.

Lemma least_perm l l' : l ≡ₚ l' -> least l = least l'.
Proof.
  assert (M : forall x y s, foldr Z.min (Z.min x y) s = Z.min x (foldr Z.min y s)).
  { intros x y s. induction s as [|z s IH]; cbn [foldr]; [done|]. rewrite IH. lia. }
  assert (F : forall c s s', s ≡ₚ s' -> foldr Z.min c s = foldr Z.min c s').
  { intros c s s'. induction 1; cbn [foldr]; lia. }
  induction 1 as [|x l l' P IH|x y l|l1 l2 l3 P1 IH1 P2 IH2]; [done| | |congruence].
  - cbn [least]. by apply F.
  - cbn [least foldr]. rewrite <- !M. by rewrite Z.min_comm.
Qed.

Lemma stats_perm l l' : l ≡ₚ l' -> stats_of l = stats_of l'.
Proof. intros P. unfold stats_of. by rewrite (sumZ_perm _ _ P), (least_perm _ _ P), (greatest_perm _ _ P), P. Qed.

Lemma total_concat_perm f l l' : l ≡ₚ l' -> total f (concat l) = total f (concat l').
Proof. intros P. unfold total. apply sumZ_perm. apply fmap_Permutation. induction P; cbn [concat]; [done|by rewrite IHP| |by etrans]. rewrite !app_assoc. apply Permutation_app_tail, Permutation_app_comm. Qed.

Lemma fidelity_unique f g : (forall i, fid i f = fid i g) -> f = g.
Proof.
  intros H. rewrite <- (of_counters_fidelityCounters f), <- (of_counters_fidelityCounters g). unfold of_counters.
  pose proof (H 0%nat) as H0. pose proof (H 1%nat) as H1. pose proof (H 2%nat) as H2. pose proof (H 3%nat) as H3. pose proof (H 4%nat) as H4.
  pose proof (H 5%nat) as H5. pose proof (H 6%nat) as H6. pose proof (H 7%nat) as H7. pose proof (H 8%nat) as H8.
  unfold fid in *. congruence.
Qed.

Lemma seen_in_perm fp l l' : l ≡ₚ l' -> seen_in fp l <-> seen_in fp l'.
Proof. intros P. unfold seen_in. by setoid_rewrite P. Qed.

Lemma row_unique limits runs p q b b' : same_runs p q -> presence_exact limits runs p b -> presence_exact limits runs q b' ->
  RB_FingerprintID b = RB_FingerprintID b' -> seen_in (RB_FingerprintID b) (on_reference p) \/ seen_in (RB_FingerprintID b) (on_candidate p) -> b = b'.
Proof.
  intros [P1 P2] [R C K L [S1 S2] [F1 F2] B] [R' C' K' L' [S1' S2'] [F1' F2'] B'] E Hs.
  assert (Er : ReferenceRunsPresent b = ReferenceRunsPresent b') by (by rewrite R, R', E, (presence_perm _ _ _ P1)).
  assert (Ec : CandidateRunsPresent b = CandidateRunsPresent b') by (by rewrite C, C', E, (presence_perm _ _ _ P2)).
  assert (Eb : RB_Behavior b = RB_Behavior b').
  { destruct Hs as [(run & e & Hr & He & Ho)|(run & e & Hr & He & Ho)].
    - rewrite <- (B run e (or_introl Hr) He Ho). apply (B' run); [left; by rewrite <- P1|done|by rewrite <- E].
    - rewrite <- (B run e (or_intror Hr) He Ho). apply (B' run); [right; by rewrite <- P2|done|by rewrite <- E]. }
  assert (Ef1 : ReferenceFidelity b = ReferenceFidelity b').
  { apply fidelity_unique. intros i. by rewrite F1, F1', E, (total_concat_perm _ _ _ P1). }
  assert (Ef2 : CandidateFidelity b = CandidateFidelity b').
  { apply fidelity_unique. intros i. by rewrite F2, F2', E, (total_concat_perm _ _ _ P2). }
  assert (Es1 : RB_Reference b = RB_Reference b').
  { rewrite S1, S1', E. by apply stats_perm, fmap_Permutation. }
  assert (Es2 : RB_Candidate b = RB_Candidate b').
  { rewrite S2, S2', E. by apply stats_perm, fmap_Permutation. }
  rewrite Er, Ec in K, L. rewrite <- K' in K. rewrite <- L' in L. destruct b, b'. cbn in *. congruence.
Qed.

Lemma rows_unique limits runs p q rows rows' : same_runs p q -> rows_exact limits runs p rows -> rows_exact limits runs q rows' -> rows = rows'.
Proof.
  intros Hs [S D E R] [S' D' E' R'].
  assert (Ek : RB_FingerprintID <$> rows = RB_FingerprintID <$> rows').
  { apply (StronglySorted_unique String.le); [done..|]. apply NoDup_Permutation; [done..|]. intros fp. rewrite E, E'.
    destruct Hs as [P1 P2]. by rewrite (seen_in_perm _ _ _ P1), (seen_in_perm _ _ _ P2). }
  assert (Hseen : Forall (fun b => seen_in (RB_FingerprintID b) (on_reference p) \/ seen_in (RB_FingerprintID b) (on_candidate p)) rows).
  { apply Forall_forall. intros b Hb. apply E. by apply list_elem_of_fmap_2. }
  clear - Hs Ek R R' Hseen. revert rows' Ek R'. induction rows as [|b rows IH]; intros [|b' rows'] Ek R'; try done.
  rewrite !fmap_cons in Ek. injection Ek as E Ek. apply Forall_cons in R as [R1 R2], R' as [R1' R2'], Hseen as [H1 H2].
  f_equal; [by apply (row_unique limits runs p q)|by apply IH].
Qed.

Section order_free.
Context `{order : MapOrder} `{unicode : Unicode}.
Variables (limits : RepeatedEvaluationGateLimits) (runs : Z) (inputs inputs' : list repetitionInput) (d d' : reduction).
Hypothesis P : inputs ≡ₚ inputs'.
Hypothesis Hlen : Z.of_nat (length inputs) <= max_u64.
Hypothesis Hok : Forall input_ok inputs.
Hypothesis Hd : reduction_is inputs d.
Hypothesis Hd' : reduction_is inputs' d'.

Lemma completed_perm s : completed_on s inputs ≡ₚ completed_on s inputs'.
Proof. by apply filter_perm. Qed.

Lemma same_runs_perm : same_runs (runs_by inputs) (runs_by inputs').
Proof. split; apply fmap_Permutation, completed_perm. Qed.

Lemma counts_perm : on_reference (completed d) = on_reference (completed d') /\ on_candidate (completed d) = on_candidate (completed d') /\
  failingMinimum d = failingMinimum d' /\ worstBlock d = worstBlock d' /\ worstCR d = worstCR d'.
Proof.
  destruct (completed_counts inputs d Hd) as [E1 E2], (completed_counts inputs' d' Hd') as [E1' E2'].
  rewrite E1, E2, E1', E2', (rr_failing _ _ Hd), (rr_failing _ _ Hd'), (rr_block _ _ Hd), (rr_block _ _ Hd'), (rr_cr _ _ Hd), (rr_cr _ _ Hd').
  assert (L : forall s, length (completed_on s inputs) = length (completed_on s inputs')) by (intros s; by rewrite (completed_perm s)).
  rewrite !L, (filter_perm empty_run _ _ P). split_and!; try done; by apply greatest_perm, fmap_Permutation, completed_perm.
Qed.

Lemma name_maps_perm n l l' s s' : l ≡ₚ l' -> frequency_is l s -> frequency_is l' s' ->
  (is_Some (fs_byName s !! n) <-> is_Some (fs_byName s' !! n)) /\
  match fs_byName s !! n with Some a => fa_max a | None => 0 end = match fs_byName s' !! n with Some a => fa_max a | None => 0 end.
Proof.
  intros Q F F'. rewrite (name_present _ _ _ F), (name_present _ _ _ F'). split; [unfold named_in; by setoid_rewrite Q|].
  assert (M : forall r t, frequency_is r t -> match fs_byName t !! n with Some a => fa_max a | None => 0 end = greatest (calls_to_name n <$> r)).
  { intros r t Ft. destruct (fi_names _ _ Ft n) as (E & Hn & _). rewrite E. destruct (acc_of _) as [a|] eqn:Ea; [by apply acc_of_max|].
    symmetry. unfold acc_of in Ea. destruct (present _) eqn:Ep; [|done]. by apply present_nil. }
  rewrite (M _ _ F), (M _ _ F'). by apply greatest_perm, fmap_Permutation.
Qed.

Lemma gates_perm rows : evaluateFrequencyGates limits (gate_inputs runs d rows) = evaluateFrequencyGates limits (gate_inputs runs d' rows).
Proof.
  destruct counts_perm as (E1 & E2 & _). destruct (side_frequency inputs d Hd) as [F1 F2], (side_frequency inputs' d' Hd') as [F1' F2'].
  destruct same_runs_perm as [Q1 Q2]. unfold evaluateFrequencyGates. f_equal; [|f_equal; [|f_equal; [|f_equal]]].
  - unfold min_frequency_check, missingSide. cbn [gate_inputs in_runs in_behaviors referenceRuns candidateRuns]. by rewrite E1, E2.
  - unfold max_lost_check, missingSide. cbn [gate_inputs in_behaviors referenceRuns candidateRuns]. by rewrite E1, E2.
  - unfold max_calls_check. cbn [gate_inputs candidateRuns]. rewrite E2. destruct (MaxCallsPerRun limits) as [ts|]; [|done]. destruct (_ =? 0); [done|].
    assert (Et : target_call_check (gate_inputs runs d rows) <$> ts = target_call_check (gate_inputs runs d' rows) <$> ts); [|by rewrite Et].
    apply list_fmap_ext. intros j t _. destruct (name_maps_perm (TL_Target t) _ _ _ _ Q1 F1 F1') as [N1 _].
    destruct (name_maps_perm (TL_Target t) _ _ _ _ Q2 F2 F2') as [N2 M2]. unfold target_call_check. cbn [gate_inputs candidByName referenceByName].
    by rewrite M2, (bool_decide_ext _ _ N1), (bool_decide_ext _ _ N2).
  - unfold max_llm_check. cbn [gate_inputs candidateLayers candidateRuns]. destruct (OptionalGateLimit_Maximum _) as [m b]. destruct b; [|done]. cbn [negb].
    destruct (layers_nonneg inputs d Hlen Hok Hd) as [L1 L2].
    assert (QL : rd_candidateLayers d ≡ₚ rd_candidateLayers d').
    { rewrite (rr_layers _ _ Hd), (rr_layers _ _ Hd'). apply fmap_Permutation, completed_perm. }
    pose proof (scan_layers_of _ L1 L2) as S1. rewrite QL in L1, L2. pose proof (scan_layers_of _ L1 L2) as S2.
    destruct (scan_of_perm _ _ _ _ QL S1 S2) as (W & K & Fi).
    assert (Ll : length (rd_candidateLayers d) = length (rd_candidateLayers d')) by (by rewrite QL). rewrite Ll, W, K, E2.
    destruct (Z.ltb_spec 0 (lacking (scan_layers (rd_candidateLayers d')))) as [Hk|Hk]; [|done].
    unfold lacking_message. rewrite K, Fi by lia. done.
Qed.

End order_free.


(** ** Suggestions *)
Definition all_suggestions (c : RepeatedEvaluationComparison) : list Suggestion := flat_map (labelled c) comparisonRules.

(** ** Properties *)
Section properties.
Context `{order : MapOrder} `{unicode : Unicode}.

Lemma with_suggestions_fields c : RX_Behaviors (with_suggestions c) = RX_Behaviors c /\ RX_Gate (with_suggestions c) = RX_Gate c /\
  RX_Runs (with_suggestions c) = RX_Runs c /\ RX_Limits (with_suggestions c) = RX_Limits c /\ Repetitions (with_suggestions c) = Repetitions c /\
  RX_Targets (with_suggestions c) = RX_Targets c.
Proof. unfold with_suggestions. by destruct (evaluateComparisonRules c). Qed.

Lemma reduced_gate limits ins r dd c : reduction_is ins dd -> reduced limits r dd = Ok c ->
  RX_Gate c =
    let n := u64 r in let advisory := if 1 <? r then AdvisoryFreshScope else "" in
    let checks :=
      [equalsCheck CheckReferenceRepetitionsCompleted (on_reference (completed dd)) n;
       equalsCheck CheckCandidateRepetitionsCompleted (on_candidate (completed dd)) n;
       atMostCheck CheckRepetitionsFailingMinimum (failingMinimum dd) 0 "";
       atMostCheck CheckRepeatedlyAddedBehaviors
         (Z.of_nat (length (List.filter (fun b => Classification b =s RepeatedAdded) (RX_Behaviors c)))) (MaxRepeatedAddedBehaviors limits) "";
       atMostCheck CheckWorstCandidateBlockDecisions (worstBlock dd) (MaxBlockDecisionsPerRun limits) advisory;
       atMostCheck CheckWorstCandidateCriticalRiskCount (worstCR dd) (MaxCriticalRiskObservationsPerRun limits) advisory] in
    let frequencyChecks := evaluateFrequencyGates limits (gate_inputs r dd (RX_Behaviors c)) in
    {| rg_bound := true; rg_checks := checks; rg_frequency := frequencyChecks;
       rg_verdict := if existsb (fun c => negb (RC_Passed c)) checks || existsb failsVerdict frequencyChecks
                     then GateVerdictFail else GateVerdictPass |}.
Proof.
  intros Hi H. unfold reduced in H. res_inv. subst c. cbn zeta. cbn [RX_Behaviors RX_Gate] in *.
  assert (Hl : Z.of_nat (length a) <= max_u64) by exact (rows_bounded _ ins dd Hi _ _ _ _ Hok). rewrite (count_where (fun b => Classification b =s RepeatedAdded)) by lia.
  rewrite (filter_perm _ _ _ (sort_by_perm RB_FingerprintID a)), Z.add_0_l. done.
Qed.

Lemma reduceRepeated_inv limits runs inputs c : reduceRepeated limits runs inputs = Ok c -> Z.of_nat (length inputs) <= max_u64 ->
  Forall input_ok inputs -> exists d c0, reduction_is inputs d /\ reduced limits runs d = Ok c0 /\ c = with_suggestions c0.
Proof.
  intros H Hl Ho. unfold reduceRepeated in H. res_inv. subst c. exists a, a0. split; [by apply reduce_inputs_Ok|done].
Qed.

(** C22: the verdict of a repeated comparison is exactly the conjunction of its conditions. It
    is always pass or fail, and it passes when and only when both sides completed every
    repetition, every completed one recorded something, at most the allowed number of
    behaviors is repeatedly added, no candidate repetition exceeds the bounds on blocks and
    critical risks, and every optional frequency limit the caller set holds - on evidence that
    is there: a limit whose evidence is absent, a target nobody calls, a run without a model
    call, never passes. *)
Theorem repeated_verdict limits runs inputs c :
  1 <= runs <= MaxRepetitions -> Z.of_nat (length inputs) <= max_u64 -> Forall input_ok inputs -> limits_ok limits ->
  reduceRepeated limits runs inputs = Ok c ->
  (rg_verdict (RX_Gate c) = GateVerdictPass \/ rg_verdict (RX_Gate c) = GateVerdictFail) /\
  (rg_verdict (RX_Gate c) = GateVerdictPass <-> repetitions_pass limits runs inputs (RX_Behaviors c)).
Proof.
  intros Hr Hl Ho Hlim H. destruct (reduceRepeated_inv _ _ _ _ H Hl Ho) as (d & c0 & Hd & Hc & ->).
  destruct (with_suggestions_fields c0) as (E1 & E2 & _). rewrite E1, E2. by apply (reduced_Ok limits runs inputs d Hr Hl Ho Hlim Hd).
Qed.

(** the rows of a repeated comparison are exact. They are in order without repetition, one
    for each behavior some completed repetition observed, and each holds in how many runs of
    each side the behavior is present, its classification, whether it was lost, the
    statistics of its calls in every run of each side, the sum of its fidelity, and the
    descriptor every one of its entries carries. *)
Theorem repeated_rows limits runs inputs c :
  1 <= runs <= MaxRepetitions -> Z.of_nat (length inputs) <= max_u64 -> Forall input_ok inputs -> limits_ok limits ->
  reduceRepeated limits runs inputs = Ok c ->
  rows_exact limits runs (runs_by inputs) (RX_Behaviors c) /\ Repetitions c = evidence <$> inputs /\
  (Suggestions c, SuggestionsTruncated c) =
    (take MaxComparisonSuggestions (all_suggestions c), bool_decide (MaxComparisonSuggestions < length (all_suggestions c))%nat).
Proof.
  intros Hr Hl Ho Hlim H. destruct (reduceRepeated_inv _ _ _ _ H Hl Ho) as (d & c0 & Hd & Hc & ->).
  destruct (reduced_Ok limits runs inputs d Hr Hl Ho Hlim Hd c0 Hc) as (R & _ & _ & E & _).
  destruct (with_suggestions_fields c0) as (E1 & _ & E3 & _ & E5 & E6). rewrite E1, E5. split; [done|]. split; [done|].
  assert (Ea : all_suggestions (with_suggestions c0) = all_suggestions c0).
  { unfold all_suggestions, labelled, comparisonRules. cbn [flat_map fire].
    unfold ruleAddedInAllRuns, ruleTargetLoadWith429, ruleLostInHalf. by rewrite E1, E3, E6. }
  rewrite Ea. unfold with_suggestions, evaluateComparisonRules. by rewrite run_rules_spec by (cbn; unfold MaxComparisonSuggestions; lia).
Qed.

(** C23: the order in which the repetitions are listed decides nothing: when both orders
    reduce, the rows, every check with the evidence it names, and the verdict are the same. *)
Theorem repeated_order_free limits runs inputs inputs' c c' :
  inputs ≡ₚ inputs' -> 1 <= runs <= MaxRepetitions -> Z.of_nat (length inputs) <= max_u64 -> Forall input_ok inputs -> limits_ok limits ->
  reduceRepeated limits runs inputs = Ok c -> reduceRepeated limits runs inputs' = Ok c' ->
  RX_Behaviors c = RX_Behaviors c' /\ RX_Gate c = RX_Gate c'.
Proof.
  intros P Hr Hl Ho Hlim H H'. assert (Hl' : Z.of_nat (length inputs') <= max_u64) by (by rewrite <- P).
  assert (Ho' : Forall input_ok inputs') by (by rewrite <- P).
  destruct (reduceRepeated_inv _ _ _ _ H Hl Ho) as (d & c0 & Hd & Hc & ->), (reduceRepeated_inv _ _ _ _ H' Hl' Ho') as (d' & c0' & Hd' & Hc' & ->).
  destruct (with_suggestions_fields c0) as (E1 & E2 & _), (with_suggestions_fields c0') as (E1' & E2' & _). rewrite E1, E2, E1', E2'.
  destruct (reduced_Ok limits runs inputs d Hr Hl Ho Hlim Hd c0 Hc) as (R & _).
  destruct (reduced_Ok limits runs inputs' d' Hr Hl' Ho' Hlim Hd' c0' Hc') as (R' & _).
  assert (E : RX_Behaviors c0 = RX_Behaviors c0') by (apply (rows_unique limits runs _ _ _ _ (same_runs_perm inputs inputs' P) R R')).
  split; [done|]. rewrite (reduced_gate limits inputs runs d c0 Hd Hc), (reduced_gate limits inputs' runs d' c0' Hd' Hc'), <- E.
  destruct (counts_perm inputs inputs' d d' P Hd Hd') as (-> & -> & -> & -> & ->).
  by rewrite (gates_perm limits runs inputs inputs' d d' P Hl Ho Hd Hd').
Qed.
End properties.

(** ** Witnesses *)
Definition repeated_entry (fp target : string) (n : Z) : BehaviorEntry :=
  let e := call_entry fp target n 0 in
  {| BE_FingerprintID := BE_FingerprintID e; BE_Behavior := BE_Behavior e; BE_Observations := n; BE_Operational := BE_Operational e;
     BE_Fidelity := {| Semantic := n; Transport := 0; Unrecorded := 0; LModel := n; LTool := 0; LRetrieval := 0; LTransport := 0;
                       LUnclassified := 0; LUnrecorded := 0 |} |}.
Definition example_input (side : ComparisonSide) (run : string) (entries : list BehaviorEntry) : repetitionInput :=
  {| evidence := {| RE_Side := side; RE_Index := 1; RE_RunID := run; RE_Status := RunCompleted; RE_BehavioralProfile := run;
                    RE_RecordCount := 3; RE_DistinctBehaviors := 1; RE_BlockDecisions := 0; RE_CriticalRiskObservations := 0 |};
     ri_entries := entries |}.
Definition example_inputs : list repetitionInput :=
  [example_input SideReference "r1" [repeated_entry "a" "db" 2; repeated_entry "b" "db" 1];
   example_input SideCandidate "c1" [repeated_entry "a" "db" 1; repeated_entry "c" "api" 4]].
Definition example_limits : RepeatedEvaluationGateLimits :=
  {| AddedCandidatePresenceMinimum := 1; AddedReferencePresenceMaximum := 0; MaxRepeatedAddedBehaviors := 1;
     MaxBlockDecisionsPerRun := 0; MaxCriticalRiskObservationsPerRun := 0; MinCandidateFrequency := NewOptionalGateLimit 0;
     MaxLostBehaviors := NewOptionalGateLimit 1; MaxCallsPerRun := Some [{| TL_Target := "db"; TL_Max := 3 |}];
     MaxLLMCallsPerRun := NewOptionalGateLimit 5 |}.

Lemma repeated_entry_is_ok fp target n : is_u64 n -> repeated_entry_ok (repeated_entry fp target n).
Proof.
  intros Hn. split; [by split|]. unfold fidelity_range, fidelityCounters, repeated_entry. cbn. rewrite !Forall_cons. by split_and!.
Qed.
Lemma example_input_ok side run e1 e2 : side = SideReference \/ side = SideCandidate -> repeated_entry_ok e1 -> repeated_entry_ok e2 ->
  BE_FingerprintID e1 <> BE_FingerprintID e2 -> input_ok (example_input side run [e1; e2]).
Proof.
  intros Hs H1 H2 Hn. split; cbn; [done| | |ulia|ulia]; intros _; [rewrite !Forall_cons, Forall_nil; done|].
  repeat constructor; rewrite ?list_elem_of_singleton; try apply not_elem_of_nil; done.
Qed.
Lemma example_inputs_ok : Forall input_ok example_inputs.
Proof.
  unfold example_inputs. rewrite !Forall_cons, Forall_nil. split_and!; [| |done]; apply example_input_ok;
    try (apply repeated_entry_is_ok; unfold is_u64, max_u64; lia); try done; [by left|by right].
Qed.
Lemma example_limits_ok : limits_ok example_limits.
Proof. split; cbn; try lia. intros ts [= <-]. rewrite Forall_singleton. cbn. lia. Qed.

Lemma example_bounds : 1 <= 1 <= MaxRepetitions /\ Z.of_nat (length example_inputs) <= max_u64.
Proof. unfold MaxRepetitions, max_u64. cbn. lia. Qed.

#[local] Notation example_reduce := (@reduceRepeated key_order ascii_only example_limits 1).

Lemma repeated_verdict_witness : exists c, example_reduce example_inputs = Ok c /\
  (rg_verdict (RX_Gate c) = GateVerdictPass <-> repetitions_pass example_limits 1 example_inputs (RX_Behaviors c)) /\
  rg_verdict (RX_Gate c) = GateVerdictPass.
Proof.
  destruct (example_reduce example_inputs) as [c|] eqn:E; [|by vm_compute in E]. exists c. split; [reflexivity|].
  destruct (@repeated_verdict key_order ascii_only example_limits 1 example_inputs c (proj1 example_bounds) (proj2 example_bounds) example_inputs_ok example_limits_ok E) as [_ H].
  split; [exact H|]. assert (V : (fun r => match r with Ok c => rg_verdict (RX_Gate c) =s GateVerdictPass | _ => false end) (example_reduce example_inputs) = true) by by vm_compute.
  rewrite E in V. by apply String.eqb_eq.
Defined.

Lemma repeated_rows_witness : exists c, example_reduce example_inputs = Ok c /\
  rows_exact example_limits 1 (runs_by example_inputs) (RX_Behaviors c) /\ length (RX_Behaviors c) = 3%nat.
Proof.
  destruct (example_reduce example_inputs) as [c|] eqn:E; [|by vm_compute in E]. exists c. split; [reflexivity|].
  split; [apply (@repeated_rows key_order ascii_only example_limits 1 example_inputs c (proj1 example_bounds) (proj2 example_bounds) example_inputs_ok example_limits_ok E)|].
  assert (V : (fun r => match r with Ok c => (length (RX_Behaviors c) =? 3)%nat | _ => false end) (example_reduce example_inputs) = true) by by vm_compute.
  rewrite E in V. by apply Nat.eqb_eq.
Defined.

Lemma repeated_order_free_witness : exists c c', example_reduce example_inputs = Ok c /\ example_reduce (rev example_inputs) = Ok c' /\
  RX_Gate c = RX_Gate c'.
Proof.
  destruct (example_reduce example_inputs) as [c|] eqn:E; [|by vm_compute in E].
  destruct (example_reduce (rev example_inputs)) as [c'|] eqn:E'; [|by vm_compute in E']. exists c, c'. split; [reflexivity|]. split; [reflexivity|].
  apply (@repeated_order_free key_order ascii_only example_limits 1 example_inputs (rev example_inputs) c c'
    (perm_swap _ _ _) (proj1 example_bounds) (proj2 example_bounds) example_inputs_ok example_limits_ok E E').
Defined.
