(* ===== verification/GateRecord.v ===== *)
(** * Package platform: the recorded gate of a scenario (scenario_gate_record.go)

    The limits and outcome of a repeated comparison as one record, its validation against the
    limits it claims, and its stored text.  The JSON of the text is encoding/json's, a
    parameter ([GateJSON]); which numbers and names it holds is the code's and modelled. *)
From Stdlib Require Import Ascii.
From S2P Require Import Prelude GoText Event Fingerprint Counters Operational Fidelity Behavior Domain Gate.
From S2P Require Import Provenance Cost Frequency Preview FrequencyGate Repeated.

Open Scope string_scope.
Open Scope Z_scope.

Definition scenarioGateRecordVersion : string := "1".

Record ScenarioGateRecord : Type := {
  recorded : bool;
  sg_limits : RepeatedEvaluationGateLimits;
  sg_gate : RepeatedEvaluationGateResult;
}.

Definition ruleHolds (rule : RepeatedCheckRule) (actual bound : Z) : bool :=
  if rule =s RuleEquals then actual =? bound
  else if rule =s RuleAtMost then actual <=? bound
  else if rule =s RuleAtLeast then bound <=? actual
  else false.

Definition blank (c : FrequencyGateCheck) : bool :=
  (FC_Rule c =s "") && (FC_Actual c =? 0) && (FC_Bound c =? 0) && negb (FC_Passed c) && (length (FC_Targets c) =? 0)%nat.

(** One target of an evaluated [max_calls_per_run], with the conjunction so far. *)
Definition validate_target (passed : bool) (item : TargetCallCheck * TargetCallLimit) : res bool :=
  let '(t, limit) := item in
  fail_if ((TC_Target t <>s TL_Target limit) || negb (TC_Max t =? TL_Max limit)) [];;
  let holds :=
    if TC_Outcome t =s TargetCallPass then TC_Actual t <=? TC_Max t
    else if TC_Outcome t =s TargetCallFail then TC_Max t <? TC_Actual t
    else if TC_Outcome t =s TargetCallNotObserved then TC_Actual t =? 0
    else false in
  fail_if (negb holds) [];;
  Ok (passed && (TC_Outcome t =s TargetCallPass)).

Definition validateEvaluated (c : FrequencyGateCheck) (l : RepeatedEvaluationGateLimits) (limit runs : Z) : res unit :=
  if FC_Name c <>s CheckMaxCallsPerRun then
    let min := FC_Name c =s CheckMinCandidateFrequency in
    let rule := if min then RuleAtLeast else RuleAtMost in
    fail_if (min && (runs <? FC_Actual c)) [];;
    fail_if ((FC_Rule c <>s rule) || negb (FC_Bound c =? limit) || negb (length (FC_Targets c) =? 0)%nat) [];;
    fail_if (negb (Bool.eqb (FC_Passed c) (ruleHolds (FC_Rule c) (FC_Actual c) (FC_Bound c)))) []
  else
    let limits := default [] (MaxCallsPerRun l) in
    fail_if ((FC_Rule c <>s RuleAtMost) || negb (FC_Actual c =? 0) || negb (FC_Bound c =? 0) ||
             negb (length (FC_Targets c) =? length limits)%nat) [];;
    passed ← foldM validate_target true (zip (FC_Targets c) limits);
    fail_if (negb (Bool.eqb (FC_Passed c) passed)) [].

(** What each of the six checks must be. *)
Record wanted : Type := { w_name : RepeatedCheckName; w_rule : RepeatedCheckRule; w_bound : Z; w_advisory : string }.
Definition want (l : RepeatedEvaluationGateLimits) (runs : Z) : list wanted :=
  let n := u64 runs in let advisory := if 1 <? runs then AdvisoryFreshScope else "" in
  [{| w_name := CheckReferenceRepetitionsCompleted; w_rule := RuleEquals; w_bound := n; w_advisory := "" |};
   {| w_name := CheckCandidateRepetitionsCompleted; w_rule := RuleEquals; w_bound := n; w_advisory := "" |};
   {| w_name := CheckRepetitionsFailingMinimum; w_rule := RuleAtMost; w_bound := 0; w_advisory := "" |};
   {| w_name := CheckRepeatedlyAddedBehaviors; w_rule := RuleAtMost; w_bound := MaxRepeatedAddedBehaviors l; w_advisory := "" |};
   {| w_name := CheckWorstCandidateBlockDecisions; w_rule := RuleAtMost; w_bound := MaxBlockDecisionsPerRun l; w_advisory := advisory |};
   {| w_name := CheckWorstCandidateCriticalRiskCount; w_rule := RuleAtMost; w_bound := MaxCriticalRiskObservationsPerRun l;
      w_advisory := advisory |}].

Definition validate_check (item : RepeatedGateCheck * wanted) : res unit :=
  let '(c, w) := item in
  fail_if ((RC_Name c <>s w_name w) || (RC_Rule c <>s w_rule w) || negb (RC_Bound c =? w_bound w) ||
           (RC_Advisory c <>s w_advisory w)) [ErrInvalidRepeatedRequest];;
  fail_if (negb (Bool.eqb (RC_Passed c) (ruleHolds (RC_Rule c) (RC_Actual c) (RC_Bound c)))) [ErrInvalidRepeatedRequest].

Definition frequency_names : list FrequencyCheckName :=
  [CheckMinCandidateFrequency; CheckMaxLostBehaviors; CheckMaxCallsPerRun; CheckMaxLLMCallsPerRun].
Definition no_limit : OptionalGateLimit := {| maximum := 0; set := false |}.
Definition optional_limits (l : RepeatedEvaluationGateLimits) : list OptionalGateLimit :=
  [MinCandidateFrequency l; MaxLostBehaviors l;
   match MaxCallsPerRun l with Some _ => NewOptionalGateLimit 0 | None => no_limit end; MaxLLMCallsPerRun l].

Definition validate_frequency (l : RepeatedEvaluationGateLimits) (n : Z)
    (item : FrequencyGateCheck * (FrequencyCheckName * OptionalGateLimit)) : res unit :=
  let '(c, (name, optional)) := item in
  fail_if (FC_Name c <>s name) [ErrInvalidRepeatedRequest];;
  let '(limit, set) := OptionalGateLimit_Maximum optional in
  if negb set then
    fail_if (FC_State c <>s GateCheckNotEvaluated) [ErrInvalidRepeatedRequest];;
    fail_if (negb (blank c) || (FC_MissingEvidence c <>s "")) [ErrInvalidRepeatedRequest]
  else if FC_State c =s GateCheckDeferred then
    fail_if (negb (blank c) || (FC_MissingEvidence c =s "")) [ErrInvalidRepeatedRequest];;
    validateText ErrInvalidRepeatedRequest (FC_MissingEvidence c)
  else if FC_State c =s GateCheckEvaluated then
    fail_if (FC_MissingEvidence c <>s "") [ErrInvalidRepeatedRequest];;
    map_err (fun _ => [ErrInvalidRepeatedRequest]) (validateEvaluated c l limit n)
  else Err [ErrInvalidRepeatedRequest].

Definition ScenarioGateRecord_validate (r : ScenarioGateRecord) (runs : Z) : res unit :=
  fail_if (negb (recorded r)) [ErrInvalidRepeatedRequest];;
  let l := sg_limits r in
  validateRepeatedLimits l runs;;
  _ ← foldM (fun _ item => validate_check item) tt (zip (rg_checks (sg_gate r)) (want l runs));
  _ ← foldM (fun _ item => validate_frequency l (u64 runs) item) tt
        (zip (rg_frequency (sg_gate r)) (zip frequency_names (optional_limits l)));
  let passed := forallb RC_Passed (rg_checks (sg_gate r)) && negb (existsb failsVerdict (rg_frequency (sg_gate r))) in
  fail_if (rg_verdict (sg_gate r) <>s (if passed then GateVerdictPass else GateVerdictFail)) [ErrInvalidRepeatedRequest].

Definition NewScenarioGateRecord (runs : Z) (limits : RepeatedEvaluationGateLimits) (checks : list RepeatedGateCheck)
    (frequency : list FrequencyGateCheck) (verdict : GateVerdict) : res ScenarioGateRecord :=
  fail_if (negb (length checks =? 6)%nat || negb (length frequency =? 4)%nat) [ErrInvalidRepeatedRequest];;
  let r := {| recorded := true; sg_limits := limits;
              sg_gate := {| rg_bound := true; rg_checks := checks; rg_verdict := verdict; rg_frequency := frequency |} |} in
  ScenarioGateRecord_validate r runs;;
  Ok r.

Definition gateRecord (c : RepeatedEvaluationComparison) : res ScenarioGateRecord :=
  NewScenarioGateRecord (RX_Runs c) (RX_Limits c) (rg_checks (RX_Gate c)) (rg_frequency (RX_Gate c)) (rg_verdict (RX_Gate c)).

(** ** The stored text *)
Record gateRecordTargetText : Type := { TT_Target : string; TT_Max : string }.
Record gateRecordLimitsText : Type := {
  LT_AddedCandidatePresenceMinimum : string;
  LT_AddedReferencePresenceMaximum : string;
  LT_MaxRepeatedAddedBehaviors : string;
  LT_MaxBlockDecisionsPerRun : string;
  LT_MaxCriticalRiskObservationsPerRun : string;
  LT_MinCandidateFrequency : option string;
  LT_MaxLostBehaviors : option string;
  LT_MaxCallsPerRun : option (list gateRecordTargetText);
  LT_MaxLLMCallsPerRun : option string;
}.
Record gateRecordCheckText : Type := {
  CT_Name : string; CT_Actual : string; CT_Rule : string; CT_Bound : string; CT_Passed : bool; CT_Advisory : string }.
Record gateRecordTargetCheckText : Type := { CK_Target : string; CK_Actual : string; CK_Max : string; CK_Outcome : string }.
Record gateRecordFrequencyText : Type := {
  FT_Name : string; FT_State : string; FT_Rule : string; FT_Actual : string; FT_Bound : string; FT_Passed : bool;
  FT_Targets : list gateRecordTargetCheckText; FT_MissingEvidence : string }.
Record gateRecordText : Type := {
  GT_Version : string;
  GT_Limits : gateRecordLimitsText;
  GT_Checks : list gateRecordCheckText;
  GT_FrequencyChecks : list gateRecordFrequencyText;
  GT_Verdict : string;
}.

Definition optional_text (l : OptionalGateLimit) : option string :=
  let '(v, set) := OptionalGateLimit_Maximum l in if set : bool then Some (uint64Text v) else None.

Definition limits_text (l : RepeatedEvaluationGateLimits) : gateRecordLimitsText :=
  {| LT_AddedCandidatePresenceMinimum := uint64Text (AddedCandidatePresenceMinimum l);
     LT_AddedReferencePresenceMaximum := uint64Text (AddedReferencePresenceMaximum l);
     LT_MaxRepeatedAddedBehaviors := uint64Text (MaxRepeatedAddedBehaviors l);
     LT_MaxBlockDecisionsPerRun := uint64Text (MaxBlockDecisionsPerRun l);
     LT_MaxCriticalRiskObservationsPerRun := uint64Text (MaxCriticalRiskObservationsPerRun l);
     LT_MinCandidateFrequency := optional_text (MinCandidateFrequency l);
     LT_MaxLostBehaviors := optional_text (MaxLostBehaviors l);
     LT_MaxCallsPerRun := (fun ts : list TargetCallLimit => (fun t => {| TT_Target := TL_Target t; TT_Max := uint64Text (TL_Max t) |}) <$> ts) <$> MaxCallsPerRun l;
     LT_MaxLLMCallsPerRun := optional_text (MaxLLMCallsPerRun l) |}.
Definition check_text (c : RepeatedGateCheck) : gateRecordCheckText :=
  {| CT_Name := RC_Name c; CT_Actual := uint64Text (RC_Actual c); CT_Rule := RC_Rule c; CT_Bound := uint64Text (RC_Bound c);
     CT_Passed := RC_Passed c; CT_Advisory := RC_Advisory c |}.
Definition target_text (t : TargetCallCheck) : gateRecordTargetCheckText :=
  {| CK_Target := TC_Target t; CK_Actual := uint64Text (TC_Actual t); CK_Max := uint64Text (TC_Max t); CK_Outcome := TC_Outcome t |}.
Definition frequency_text (c : FrequencyGateCheck) : gateRecordFrequencyText :=
  {| FT_Name := FC_Name c; FT_State := FC_State c; FT_Rule := FC_Rule c; FT_Actual := uint64Text (FC_Actual c);
     FT_Bound := uint64Text (FC_Bound c); FT_Passed := FC_Passed c; FT_Targets := target_text <$> FC_Targets c;
     FT_MissingEvidence := FC_MissingEvidence c |}.
Definition record_text (r : ScenarioGateRecord) : gateRecordText :=
  {| GT_Version := scenarioGateRecordVersion; GT_Limits := limits_text (sg_limits r);
     GT_Checks := check_text <$> rg_checks (sg_gate r); GT_FrequencyChecks := frequency_text <$> rg_frequency (sg_gate r);
     GT_Verdict := rg_verdict (sg_gate r) |}.

(** encoding/json on this struct: [json.Marshal]; and [Decode] with unknown fields refused and
    nothing after the value.  Text that is valid UTF-8 is read back as it was written. *)
Definition text_strings (t : gateRecordText) : list string :=
  ([GT_Version t; GT_Verdict t] ++
  (let l := GT_Limits t in
   [LT_AddedCandidatePresenceMinimum l; LT_AddedReferencePresenceMaximum l; LT_MaxRepeatedAddedBehaviors l; LT_MaxBlockDecisionsPerRun l;
    LT_MaxCriticalRiskObservationsPerRun l; default "" (LT_MinCandidateFrequency l); default "" (LT_MaxLostBehaviors l);
    default "" (LT_MaxLLMCallsPerRun l)] ++ flat_map (fun t => [TT_Target t; TT_Max t]) (default [] (LT_MaxCallsPerRun l))) ++
  flat_map (fun c => [CT_Name c; CT_Actual c; CT_Rule c; CT_Bound c; CT_Advisory c]) (GT_Checks t) ++
  flat_map (fun c => [FT_Name c; FT_State c; FT_Rule c; FT_Actual c; FT_Bound c; FT_MissingEvidence c] ++
    flat_map (fun t => [CK_Target t; CK_Actual t; CK_Max t; CK_Outcome t]) (FT_Targets c)) (GT_FrequencyChecks t))%list.

Class GateJSON : Type := {
  marshal_gate : gateRecordText -> string;
  unmarshal_gate : string -> option gateRecordText;
  gate_json_roundtrip : forall t, Forall (fun s => valid_string s = true) (text_strings t) -> unmarshal_gate (marshal_gate t) = Some t;
}.

Definition number (s : string) : res Z :=
  match parseCanonicalUint64 s with Some v => Ok v | None => Err [ErrStoreCorrupt] end.
Definition optional_number (s : option string) : res OptionalGateLimit :=
  match s with
  | None => Ok no_limit
  | Some s => v ← number s; Ok (NewOptionalGateLimit v)
  end.

Definition read_limits (t : gateRecordLimitsText) : res RepeatedEvaluationGateLimits :=
  k ← number (LT_AddedCandidatePresenceMinimum t);
  j ← number (LT_AddedReferencePresenceMaximum t);
  added ← number (LT_MaxRepeatedAddedBehaviors t);
  blocks ← number (LT_MaxBlockDecisionsPerRun t);
  critical ← number (LT_MaxCriticalRiskObservationsPerRun t);
  frequency ← optional_number (LT_MinCandidateFrequency t);
  lost ← optional_number (LT_MaxLostBehaviors t);
  llm ← optional_number (LT_MaxLLMCallsPerRun t);
  calls ← (match LT_MaxCallsPerRun t with
           | None => Ok None
           | Some ts => ts ← mapM (fun t => v ← number (TT_Max t); Ok {| TL_Target := TT_Target t; TL_Max := v |}) ts; Ok (Some ts)
           end);
  Ok {| AddedCandidatePresenceMinimum := k; AddedReferencePresenceMaximum := j; MaxRepeatedAddedBehaviors := added;
        MaxBlockDecisionsPerRun := blocks; MaxCriticalRiskObservationsPerRun := critical; MinCandidateFrequency := frequency;
        MaxLostBehaviors := lost; MaxCallsPerRun := calls; MaxLLMCallsPerRun := llm |}.

Definition read_check (c : gateRecordCheckText) : res RepeatedGateCheck :=
  actual ← number (CT_Actual c);
  bound ← number (CT_Bound c);
  Ok {| RC_Name := CT_Name c; RC_Actual := actual; RC_Rule := CT_Rule c; RC_Bound := bound; RC_Passed := CT_Passed c;
        RC_Advisory := CT_Advisory c |}.
Definition read_target (t : gateRecordTargetCheckText) : res TargetCallCheck :=
  actual ← number (CK_Actual t);
  max ← number (CK_Max t);
  Ok {| TC_Target := CK_Target t; TC_Actual := actual; TC_Max := max; TC_Outcome := CK_Outcome t |}.
Definition read_frequency (c : gateRecordFrequencyText) : res FrequencyGateCheck :=
  actual ← number (FT_Actual c);
  bound ← number (FT_Bound c);
  targets ← mapM read_target (FT_Targets c);
  Ok {| FC_Name := FT_Name c; FC_State := FT_State c; FC_Rule := FT_Rule c; FC_Actual := actual; FC_Bound := bound;
        FC_Passed := FT_Passed c; FC_Targets := targets; FC_MissingEvidence := FT_MissingEvidence c |}.

Section text.
Context `{json : GateJSON}.

Definition encodeScenarioGateRecord (r : ScenarioGateRecord) : string := marshal_gate (record_text r).

Definition decodeScenarioGateRecord (stored : string) (runs : Z) : res ScenarioGateRecord :=
  text ← (match unmarshal_gate stored with Some t => Ok t | None => Err [ErrStoreCorrupt] end);
  fail_if (GT_Version text <>s scenarioGateRecordVersion) [ErrStoreCorrupt];;
  limits ← read_limits (GT_Limits text);
  checks ← mapM read_check (GT_Checks text);
  frequency ← mapM read_frequency (GT_FrequencyChecks text);
  record ← map_err (fun _ => [ErrStoreCorrupt]) (NewScenarioGateRecord runs limits checks frequency (GT_Verdict text));
  let canonical := encodeScenarioGateRecord record in
  fail_if (canonical <>s stored) [ErrStoreCorrupt];;
  Ok record.
End text.

(** ** Every reduction is recorded *)
Lemma forallb_existsb {A} (p : A -> bool) l : forallb p l = negb (existsb (fun x => negb (p x)) l).
Proof. induction l as [|x l IH]; [done|]. cbn. rewrite IH. by destruct (p x). Qed.

Lemma iterate_ok {A} (f : A -> res unit) l : Forall (fun x => f x = Ok tt) l -> foldM (fun _ x => f x) tt l = Ok tt.
Proof. induction 1 as [|x l Hx _ IH]; [done|]. cbn [foldM]. by rewrite Hx. Qed.
Lemma iterate_inv {A} (f : A -> res unit) l u : foldM (fun _ x => f x) tt l = Ok u -> Forall (fun x => f x = Ok tt) l.
Proof.
  induction l as [|x l IH]; intros H; [constructor|]. cbn [foldM] in H. apply bind_Ok in H as ([] & Hx & H). constructor; [done|by apply IH].
Qed.

Lemma validate_targets i ts : forall b, foldM validate_target b (zip (target_call_check i <$> ts) ts) =
  Ok (b && forallb (fun t => TC_Outcome t =s TargetCallPass) (target_call_check i <$> ts)).
Proof.
  induction ts as [|t ts IH]; intros b; cbn [fmap list_fmap zip zip_with foldM forallb]; [by rewrite andb_true_r|].
  assert (E : validate_target b (target_call_check i t, t) = Ok (b && (TC_Outcome (target_call_check i t) =s TargetCallPass))).
  { unfold validate_target. assert (E1 : TC_Target (target_call_check i t) = TL_Target t /\ TC_Max (target_call_check i t) = TL_Max t).
    { unfold target_call_check. by destruct (negb _ && _). }
    destruct E1 as [-> ->]. rewrite String.eqb_refl, Z.eqb_refl. cbn [negb orb fail_if mbind res_bind].
    unfold target_call_check. destruct (negb _ && _); [done|]. cbn [TC_Outcome TC_Actual].
    destruct (Z.ltb_spec (TL_Max t) (match candidByName i !! TL_Target t with Some a => fa_max a | None => 0 end)) as [L|L].
    - change (TargetCallFail =s TargetCallPass) with false. change (TargetCallFail =s TargetCallFail) with true. cbv iota.
      done.
    - change (TargetCallPass =s TargetCallPass) with true. cbv iota. by rewrite (proj2 (Z.leb_le _ _) L). }
  rewrite E. cbn [mbind res_bind]. rewrite IH. by rewrite andb_assoc.
Qed.

Lemma text_ok s : forall_bytes printable_byte s && (len s <=? maxIdentifierLength) = true -> validateText ErrInvalidRepeatedRequest s = Ok tt.
Proof. rewrite andb_true_iff, Z.leb_le. intros [H1 H2]. by apply printable_text. Qed.

Lemma not_evaluated_ok l n name o : set o = false -> validate_frequency l n (not_evaluated name, (name, o)) = Ok tt.
Proof. intros E. unfold validate_frequency, OptionalGateLimit_Maximum. rewrite E. cbn [FC_Name not_evaluated]. by rewrite !String.eqb_refl. Qed.
Lemma deferred_ok l n name o missing : set o = true -> missing <> "" -> validateText ErrInvalidRepeatedRequest missing = Ok tt ->
  validate_frequency l n (deferred name missing, (name, o)) = Ok tt.
Proof.
  intros E Hm Ht. unfold validate_frequency, OptionalGateLimit_Maximum. rewrite E. cbn [FC_Name deferred]. rewrite (String.eqb_refl name).
  cbn [negb fail_if mbind res_bind FC_State FC_MissingEvidence deferred]. change (GateCheckDeferred =s GateCheckDeferred) with true. cbv iota.
  change (blank (deferred name missing)) with true. cbn [negb orb]. rewrite (proj2 (String.eqb_neq _ _) Hm). exact Ht.
Qed.
Lemma evaluated_ok l n name o c : set o = true -> FC_Name c = name -> FC_State c = GateCheckEvaluated -> FC_MissingEvidence c = "" ->
  validateEvaluated c l (maximum o) n = Ok tt -> validate_frequency l n (c, (name, o)) = Ok tt.
Proof.
  intros E <- Hs Hm Hv. unfold validate_frequency, OptionalGateLimit_Maximum. rewrite E, (String.eqb_refl (FC_Name c)). cbn [negb fail_if mbind res_bind].
  rewrite Hs, Hm. change (GateCheckEvaluated =s GateCheckDeferred) with false. change (GateCheckEvaluated =s GateCheckEvaluated) with true. cbv iota.
  rewrite Hv. done.
Qed.

Section accepted.
Context `{unicode : Unicode}.
Variables (l : RepeatedEvaluationGateLimits) (i : frequencyGateInputs).
Hypothesis Hruns : Forall (fun b => CandidateRunsPresent b <= in_runs i) (in_behaviors i).
Hypothesis Hlayers : (length (candidateLayers i) <= 64)%nat.
Hypothesis Hcalls : Forall (fun r => 0 <= modelCalls r) (candidateLayers i).
Hypothesis Hplain : Forall (fun r => plain (RL_runID r) = true /\ len (RL_runID r) < 1000) (candidateLayers i).

Lemma missing_text name o : set o = true -> missingSide i <> "" -> validate_frequency l (in_runs i) (deferred name (missingSide i), (name, o)) = Ok tt.
Proof.
  intros E H. apply deferred_ok; [done..|]. apply text_ok. unfold missingSide in *.
  destruct (_ && _); [by vm_compute|]. destruct (_ =? 0); [by vm_compute|]. destruct (candidateRuns i =? 0); [by vm_compute|done].
Qed.

Lemma min_frequency_ok : validate_frequency l (in_runs i) (min_frequency_check l i, (CheckMinCandidateFrequency, MinCandidateFrequency l)) = Ok tt.
Proof.
  unfold min_frequency_check, OptionalGateLimit_Maximum. destruct (set (MinCandidateFrequency l)) eqn:E; cbn [negb]; [|by apply not_evaluated_ok].
  rewrite lowest_fold. cbn zeta. fold (qualifying i).
  destruct (String.eqb_spec (missingSide i) "") as [Em|Em]; cbn [negb].
  2: { destruct (CandidateRunsPresent <$> qualifying i); cbn [fst snd]; by apply missing_text. }
  destruct (qualifying i) as [|b bs] eqn:Q; cbn [fmap list_fmap fst snd negb].
  - apply deferred_ok; [done..|]. by apply text_ok; vm_compute.
  - apply evaluated_ok; try done. unfold validateEvaluated. cbn [evaluated FC_Name FC_Rule FC_Actual FC_Bound FC_Passed FC_Targets length].
    change (CheckMinCandidateFrequency =s CheckMaxCallsPerRun) with false.
    change (CheckMinCandidateFrequency =s CheckMinCandidateFrequency) with true. cbn [negb andb]. cbv iota.
    change (ruleHolds RuleAtLeast) with (fun actual bound => bound <=? actual). cbv beta.
    rewrite Z.eqb_refl, eqb_reflx. cbn [negb orb Nat.eqb].
    assert (Hle : least (CandidateRunsPresent <$> b :: bs) <= in_runs i).
    { transitivity (CandidateRunsPresent b); [apply least_le; by left|]. rewrite Forall_forall in Hruns. apply Hruns.
      assert (Hin : b ∈ qualifying i) by (rewrite Q; by left). unfold qualifying in Hin. apply list_elem_of_In, filter_In in Hin as [Hin _].
      by apply list_elem_of_In. }
    cbn [fmap list_fmap] in Hle. rewrite (proj2 (Z.ltb_ge _ _)) by exact Hle. done.
Qed.

Lemma simple_ok name o actual passed : name = CheckMaxLostBehaviors \/ name = CheckMaxLLMCallsPerRun -> set o = true -> passed = (actual <=? maximum o) ->
  validate_frequency l (in_runs i) (evaluated name RuleAtMost actual (maximum o) passed [], (name, o)) = Ok tt.
Proof.
  intros Hn E ->. apply evaluated_ok; try done. unfold validateEvaluated. cbn [evaluated FC_Name FC_Rule FC_Actual FC_Bound FC_Passed FC_Targets length].
  assert (En : name =s CheckMaxCallsPerRun = false /\ name =s CheckMinCandidateFrequency = false) by by destruct Hn as [->| ->].
  destruct En as [-> ->]. cbn [negb andb]. cbv iota. change (ruleHolds RuleAtMost) with Z.leb. by rewrite Z.eqb_refl, eqb_reflx.
Qed.

Lemma max_lost_ok : validate_frequency l (in_runs i) (max_lost_check l i, (CheckMaxLostBehaviors, MaxLostBehaviors l)) = Ok tt.
Proof.
  unfold max_lost_check, OptionalGateLimit_Maximum. destruct (set (MaxLostBehaviors l)) eqn:E; cbn [negb]; [|by apply not_evaluated_ok].
  destruct (String.eqb_spec (missingSide i) "") as [Em|Em]; cbn [negb]; [|by apply missing_text].
  apply simple_ok; [by left|done|done].
Qed.

Lemma max_calls_ok : validate_frequency l (in_runs i) (max_calls_check l i,
  (CheckMaxCallsPerRun, match MaxCallsPerRun l with Some _ => NewOptionalGateLimit 0 | None => no_limit end)) = Ok tt.
Proof.
  unfold max_calls_check. destruct (MaxCallsPerRun l) as [ts|] eqn:E; [|by apply not_evaluated_ok].
  destruct (candidateRuns i =? 0); [apply deferred_ok; [done..|]; by apply text_ok; vm_compute|].
  apply evaluated_ok; try done. unfold validateEvaluated. rewrite E. cbn [evaluated FC_Name FC_Rule FC_Actual FC_Bound FC_Passed FC_Targets default from_option id].
  change (CheckMaxCallsPerRun =s CheckMaxCallsPerRun) with true. cbn [negb]. cbv iota.
  rewrite length_fmap, Nat.eqb_refl. cbn [Z.eqb negb orb String.eqb]. rewrite String.eqb_refl. cbn [negb orb fail_if mbind res_bind].
  rewrite validate_targets. cbn [mbind res_bind andb]. by rewrite eqb_reflx.
Qed.

Lemma max_llm_ok : validate_frequency l (in_runs i) (max_llm_check l i, (CheckMaxLLMCallsPerRun, MaxLLMCallsPerRun l)) = Ok tt.
Proof.
  unfold max_llm_check, OptionalGateLimit_Maximum. destruct (set (MaxLLMCallsPerRun l)) eqn:E; cbn [negb]; [|by apply not_evaluated_ok].
  assert (Hl : Z.of_nat (length (candidateLayers i)) <= max_u64) by (unfold max_u64; lia).
  destruct (scan_layers_of _ Hcalls Hl) as [_ L F _]. set (s := scan_layers (candidateLayers i)) in *.
  destruct (Z.ltb_spec 0 (lacking s)) as [Hk|Hk].
  - specialize (F Hk). apply list_elem_of_fmap in F as (r & Er & Hr). apply list_elem_of_In, filter_In in Hr as [Hr _]. apply list_elem_of_In in Hr.
    rewrite Forall_forall in Hplain. destruct (Hplain r Hr) as [P1 P2]. rewrite <- Er in P1, P2.
    destruct (preview_plain _ P1 P2) as [Q1 Q2].
    assert (Hlack : lacking s <= 64). { rewrite L. pose proof (List.filter_length_le lacks (candidateLayers i)). lia. }
    destruct (small_number (lacking s) ltac:(lia)) as [N1 N2], (small_number (Z.of_nat (length (candidateLayers i))) ltac:(lia)) as [M1 M2].
    assert (T : forall_bytes printable_byte (lacking_message s (Z.of_nat (length (candidateLayers i)))) = true /\
                len (lacking_message s (Z.of_nat (length (candidateLayers i)))) <= 256).
    { unfold lacking_message. destruct (1 <? lacking s); rewrite !forall_bytes_app, !len_append, Q1, ?N1, ?M1; (split; [done|]);
        change (len "run ") with 4; change (len " has no model-layer observation; model calls cannot be counted") with 62; [|lia].
      change (len " (") with 2. change (len " of ") with 4. change (len " candidate runs have none)") with 26. lia. }
    apply deferred_ok; [done| |apply printable_text; apply T].
    intros Em. apply (f_equal len) in Em. unfold lacking_message in Em. change (len "") with 0 in Em.
    destruct (1 <? lacking s); rewrite !len_append in Em; change (len "run ") with 4 in Em; unfold len in Em; lia.
  - destruct (candidateRuns i =? 0); [apply deferred_ok; [done..|]; by apply text_ok; vm_compute|].
    apply simple_ok; [by right|done|done].
Qed.
End accepted.

(** ** The text of a valid record *)
Record optional_ok (o : OptionalGateLimit) : Prop := { oo_range : is_u64 (maximum o); oo_unset : set o = false -> maximum o = 0 }.
Record limits_range (l : RepeatedEvaluationGateLimits) : Prop := {
  lr_k : is_u64 (AddedCandidatePresenceMinimum l);
  lr_j : is_u64 (AddedReferencePresenceMaximum l);
  lr_added : is_u64 (MaxRepeatedAddedBehaviors l);
  lr_block : is_u64 (MaxBlockDecisionsPerRun l);
  lr_critical : is_u64 (MaxCriticalRiskObservationsPerRun l);
  lr_frequency : optional_ok (MinCandidateFrequency l);
  lr_lost : optional_ok (MaxLostBehaviors l);
  lr_llm : optional_ok (MaxLLMCallsPerRun l);
  lr_calls : forall ts, MaxCallsPerRun l = Some ts -> Forall (fun t => is_u64 (TL_Max t)) ts;
}.
(** The counters of a record are 64-bit words, as its fields' types have it. *)
Record record_range (r : ScenarioGateRecord) : Prop := {
  rc_limits : limits_range (sg_limits r);
  rc_checks : Forall (fun c => is_u64 (RC_Actual c) /\ is_u64 (RC_Bound c)) (rg_checks (sg_gate r));
  rc_frequency : Forall (fun c => is_u64 (FC_Actual c) /\ is_u64 (FC_Bound c) /\
                                  Forall (fun t => is_u64 (TC_Actual t) /\ is_u64 (TC_Max t)) (FC_Targets c)) (rg_frequency (sg_gate r));
}.

Lemma number_text v : is_u64 v -> number (uint64Text v) = Ok v.
Proof. intros H. unfold number, uint64Text. by rewrite parseCanonical_format. Qed.
Lemma optional_number_text o : optional_ok o -> optional_number (optional_text o) = Ok o.
Proof.
  intros [R U]. unfold optional_number, optional_text, OptionalGateLimit_Maximum. destruct o as [v []]; cbn [maximum set] in *.
  - by rewrite number_text.
  - by rewrite U.
Qed.

Lemma mapM_back {A B} (f : A -> B) (g : B -> res A) l : Forall (fun x => g (f x) = Ok x) l -> mapM g (f <$> l) = Ok l.
Proof. induction 1 as [|x l Hx _ IH]; [done|]. rewrite fmap_cons. cbn [mapM]. rewrite Hx. cbn [mbind res_bind]. by rewrite IH. Qed.

Lemma read_limits_text l : limits_range l -> read_limits (limits_text l) = Ok l.
Proof.
  intros [H1 H2 H3 H4 H5 H6 H7 H8 H9]. unfold read_limits, limits_text.
  cbn [LT_AddedCandidatePresenceMinimum LT_AddedReferencePresenceMaximum LT_MaxRepeatedAddedBehaviors LT_MaxBlockDecisionsPerRun
    LT_MaxCriticalRiskObservationsPerRun LT_MinCandidateFrequency LT_MaxLostBehaviors LT_MaxCallsPerRun LT_MaxLLMCallsPerRun].
  rewrite !number_text, !optional_number_text by done. cbn [mbind res_bind].
  destruct l as [k j a b c mf ml [ts|] llm]; cbn in *; [|done].
  rewrite (mapM_back (fun t => {| TT_Target := TL_Target t; TT_Max := uint64Text (TL_Max t) |})); [done|].
  eapply Forall_impl; [by apply H9|]. intros [t m] Hm. cbn [TT_Max TT_Target TL_Target TL_Max] in *. by rewrite number_text.
Qed.
#[local] Arguments uint64Text : simpl never.
Lemma read_check_text c : is_u64 (RC_Actual c) -> is_u64 (RC_Bound c) -> read_check (check_text c) = Ok c.
Proof. intros H1 H2. unfold read_check, check_text. cbn [CT_Actual CT_Bound]. rewrite !number_text by done. by destruct c. Qed.
Lemma read_frequency_text c : is_u64 (FC_Actual c) -> is_u64 (FC_Bound c) ->
  Forall (fun t => is_u64 (TC_Actual t) /\ is_u64 (TC_Max t)) (FC_Targets c) -> read_frequency (frequency_text c) = Ok c.
Proof.
  intros H1 H2 H3. unfold read_frequency, frequency_text. cbn [FT_Actual FT_Bound FT_Targets]. rewrite !number_text by done. cbn [mbind res_bind]. rewrite mapM_back; [by destruct c|].
  eapply Forall_impl; [exact H3|]. intros t [T1 T2]. unfold read_target, target_text. cbn [CK_Actual CK_Max]. rewrite !number_text by done. by destruct t.
Qed.

Lemma printable_valid s : forall_bytes printable_byte s = true -> valid_string s = true.
Proof.
  intros H. destruct (printable_chunks s H) as [Hc _]. unfold valid_string. apply forallb_forall. intros c Hin.
  rewrite Forall_forall in Hc. apply Hc. by apply list_elem_of_In.
Qed.
Lemma number_valid v : 0 <= v -> valid_string (uint64Text v) = true.
Proof.
  intros Hv. apply printable_valid. unfold uint64Text, format_uint. apply format_digits_all; [|lia|done|done].
  intros d Hd. pose proof (digit_char_is_digit d Hd) as H. apply printable_range. unfold is_digit in H. bool_prop. lia.
Qed.

(** What a valid record looks like. *)
Record record_valid (r : ScenarioGateRecord) (runs : Z) : Prop := {
  rv_limits : validateRepeatedLimits (sg_limits r) runs = Ok tt;
  rv_checks : Forall (fun item => validate_check item = Ok tt) (zip (rg_checks (sg_gate r)) (want (sg_limits r) runs));
  rv_frequency : Forall (fun item => validate_frequency (sg_limits r) (u64 runs) item = Ok tt)
                   (zip (rg_frequency (sg_gate r)) (zip frequency_names (optional_limits (sg_limits r))));
  rv_verdict : rg_verdict (sg_gate r) =
    if forallb RC_Passed (rg_checks (sg_gate r)) && negb (existsb failsVerdict (rg_frequency (sg_gate r))) then GateVerdictPass else GateVerdictFail;
}.

Lemma validate_inv r runs : ScenarioGateRecord_validate r runs = Ok tt -> recorded r = true /\ record_valid r runs.
Proof.
  intros H. unfold ScenarioGateRecord_validate in H. res_inv. repeat match goal with u : unit |- _ => destruct u end.
  split; [by apply negb_false_iff|]. split; [done|by eapply iterate_inv|by eapply iterate_inv|].
  match goal with H : fail_if _ _ = Ok tt |- _ => apply fail_if_Ok in H | _ => idtac end.
  match goal with H : negb (_ =s _) = false |- _ => apply negb_false_iff, String.eqb_eq in H; exact H end.
Qed.

Lemma new_record_inv runs limits checks frequency v r : NewScenarioGateRecord runs limits checks frequency v = Ok r ->
  recorded r = true /\ rg_bound (sg_gate r) = true /\ length (rg_checks (sg_gate r)) = 6%nat /\ length (rg_frequency (sg_gate r)) = 4%nat /\
  sg_limits r = limits /\ rg_checks (sg_gate r) = checks /\ rg_frequency (sg_gate r) = frequency /\ rg_verdict (sg_gate r) = v /\
  ScenarioGateRecord_validate r runs = Ok tt.
Proof.
  intros H. unfold NewScenarioGateRecord in H. res_inv. subst r. bool_prop.
  repeat match goal with u : unit |- _ => destruct u end. split_and!; try done; by apply Nat.eqb_eq.
Qed.

Notation valid s := (valid_string s = true).

Lemma zip_Forall {A B} (P : A * B -> Prop) (Q : A -> Prop) l k : (length l <= length k)%nat ->
  (forall a b, a ∈ l -> b ∈ k -> P (a, b) -> Q a) -> Forall P (zip l k) -> Forall Q l.
Proof.
  revert k. induction l as [|a l IH]; intros [|b k] Hl HQ H; try (constructor; fail); [cbn in Hl; lia|].
  cbn [zip zip_with] in H. apply Forall_cons in H as [H1 H2]. constructor; [apply (HQ a b); [by left|by left|done]|].
  apply (IH k); [cbn in Hl; lia| |done]. intros a' b' Ha Hb. apply HQ; by right.
Qed.

Lemma limit_targets_valid l runs ts : validateRepeatedLimits l runs = Ok tt -> MaxCallsPerRun l = Some ts -> Forall (fun t => valid (TL_Target t)) ts.
Proof.
  intros H E. unfold validateRepeatedLimits in H. res_inv. unfold validateFrequencyLimits in H. destruct (OptionalGateLimit_Maximum _) as [m b].
  rewrite E in H. res_inv. match goal with F : foldM validate_target_limit _ _ = Ok ?a |- _ => clear - F; rename F into H; revert a H end.
  generalize (∅ : gset string). induction ts as [|t ts IH]; intros s a H; [constructor|].
  cbn [foldM] in H. res_inv. unfold validate_target_limit in Hok. res_inv. constructor; [|by eapply IH].
  match goal with T : validateText _ _ = Ok ?u |- _ => destruct u; by apply validateText_Ok in T as (_ & ? & _) end.
Qed.

Lemma check_strings l runs c : (exists w, w ∈ want l runs /\ validate_check (c, w) = Ok tt) -> 0 <= RC_Actual c -> 0 <= RC_Bound c ->
  Forall (fun s => valid s) [CT_Name (check_text c); CT_Actual (check_text c); CT_Rule (check_text c); CT_Bound (check_text c); CT_Advisory (check_text c)].
Proof.
  intros (w & Hw & H) Ha Hb.
  assert (W : Forall (fun w => valid (w_name w) /\ valid (w_rule w) /\ valid (w_advisory w)) (want l runs)).
  { unfold want. cbn zeta. rewrite !Forall_cons, Forall_nil. cbn [w_name w_rule w_advisory].
    split_and!; try done; try (by vm_compute); by destruct (1 <? runs). }
  rewrite Forall_forall in W. specialize (W w Hw). cbv beta in W.
  unfold validate_check in H. res_inv. repeat match goal with H : _ || _ = false |- _ => apply orb_false_iff in H as [H ?] end.
  repeat match goal with H : negb (_ =s _) = false |- _ => apply negb_false_iff, String.eqb_eq in H end.
  unfold check_text. cbn [CT_Name CT_Actual CT_Rule CT_Bound CT_Advisory]. rewrite !Forall_cons, Forall_nil.
  split_and!; try done; try (by apply number_valid); destruct W as (? & ? & ?); congruence.
Qed.
Lemma target_strings ts : forall ls b b', foldM validate_target b (zip ts ls) = Ok b' -> length ts = length ls ->
  Forall (fun t => valid (TL_Target t)) ls -> Forall (fun t => valid (TC_Target t) /\ valid (TC_Outcome t)) ts.
Proof.
  induction ts as [|t ts IH]; intros [|l ls] b b' H Hl Hv; try done. cbn [zip zip_with foldM] in H. res_inv.
  apply Forall_cons in Hv as [Hv1 Hv2]. constructor; [|by eapply (IH ls); [eassumption|injection Hl|]].
  unfold validate_target in Hok. res_inv. bool_prop. split; [congruence|].
  destruct (String.eqb_spec (TC_Outcome t) TargetCallPass) as [->|]; [by vm_compute|].
  destruct (String.eqb_spec (TC_Outcome t) TargetCallFail) as [->|]; [by vm_compute|].
  destruct (String.eqb_spec (TC_Outcome t) TargetCallNotObserved) as [->|]; [by vm_compute|done].
Qed.

Lemma blank_inv c : blank c = true -> FC_Rule c = "" /\ FC_Targets c = [].
Proof.
  unfold blank. rewrite !andb_true_iff. intros ((((H & _) & _) & _) & Ht). split; [by apply String.eqb_eq|].
  apply Nat.eqb_eq in Ht. by destruct (FC_Targets c).
Qed.

Lemma evaluated_strings l runs n limit c : (forall ts, MaxCallsPerRun l = Some ts -> Forall (fun t => valid (TL_Target t)) ts) ->
  validateEvaluated c l limit n = Ok runs -> valid (FC_Rule c) /\ Forall (fun t => valid (TC_Target t) /\ valid (TC_Outcome t)) (FC_Targets c).
Proof.
  intros Hts H. unfold validateEvaluated in H. destruct (FC_Name c <>s CheckMaxCallsPerRun).
  - res_inv. repeat match goal with H : _ || _ = false |- _ => apply orb_false_iff in H as [H ?] end.
    repeat match goal with H : negb _ = false |- _ => apply negb_false_iff in H end.
    match goal with H : (length _ =? 0)%nat = true |- _ => apply Nat.eqb_eq in H; destruct (FC_Targets c); [|done] end.
    split; [|constructor]. match goal with H : (FC_Rule c =s _) = true |- _ => apply String.eqb_eq in H; rewrite H end.
    by destruct (FC_Name c =s CheckMinCandidateFrequency).
  - res_inv. repeat match goal with H : _ || _ = false |- _ => apply orb_false_iff in H as [H ?] end.
    repeat match goal with H : negb _ = false |- _ => apply negb_false_iff in H end.
    match goal with H : (FC_Rule c =s _) = true |- _ => apply String.eqb_eq in H; rewrite H end. split; [by vm_compute|].
    match goal with H : (length _ =? length _)%nat = true |- _ => apply Nat.eqb_eq in H; rename H into Hl end.
    eapply target_strings; [eassumption|exact Hl|]. destruct (MaxCallsPerRun l) as [ts|]; [by apply Hts|constructor].
Qed.

Lemma frequency_strings l n c : (forall ts, MaxCallsPerRun l = Some ts -> Forall (fun t => valid (TL_Target t)) ts) ->
  (exists name o, name ∈ frequency_names /\ validate_frequency l n (c, (name, o)) = Ok tt) ->
  valid (FC_Name c) /\ valid (FC_State c) /\ valid (FC_Rule c) /\ valid (FC_MissingEvidence c) /\
  Forall (fun t => valid (TC_Target t) /\ valid (TC_Outcome t)) (FC_Targets c).
Proof.
  intros Hts (name & o & Hn & H). unfold validate_frequency, OptionalGateLimit_Maximum in H. apply bind_unit_iff in H as [Hname H].
  apply fail_if_Ok, negb_false_iff, String.eqb_eq in Hname.
  assert (Vn : Forall (fun s => valid s) frequency_names) by (unfold frequency_names; rewrite !Forall_cons, Forall_nil; split_and!; done).
  split. { rewrite Hname. rewrite Forall_forall in Vn. by apply Vn. }
  destruct (set o); cbn [negb] in H.
  - destruct (String.eqb_spec (FC_State c) GateCheckDeferred) as [Es|Es].
    + apply bind_unit_iff in H as [Hb Ht]. apply fail_if_Ok, orb_false_iff in Hb as [Hb _]. apply negb_false_iff, blank_inv in Hb as [-> ->].
      apply validateText_Ok in Ht as (_ & Ht & _). rewrite Es. split_and!; try done. 
    + destruct (String.eqb_spec (FC_State c) GateCheckEvaluated) as [Es'|Es']; [|done].
      apply bind_unit_iff in H as [Hm Hv]. apply fail_if_Ok, negb_false_iff, String.eqb_eq in Hm.
      apply map_err_Ok in Hv. destruct (evaluated_strings _ _ _ _ _ Hts Hv) as [Hr Ht]. rewrite Es', Hm. by split_and!.
  - apply bind_unit_iff in H as [Hs Hb]. apply fail_if_Ok, negb_false_iff, String.eqb_eq in Hs.
    apply fail_if_Ok, orb_false_iff in Hb as [Hb Hm]. apply negb_false_iff, blank_inv in Hb as [-> ->].
    apply negb_false_iff, String.eqb_eq in Hm. rewrite Hs, Hm. by split_and!.
Qed.

Lemma flat_map_Forall {A B} (P : B -> Prop) (f : A -> list B) l : Forall (fun x => Forall P (f x)) l -> Forall P (flat_map f l).
Proof. induction 1; cbn; [constructor|]. by apply Forall_app. Qed.

(** Every string of a valid record's text is valid UTF-8. *)
Lemma record_strings r runs : record_valid r runs -> record_range r -> length (rg_checks (sg_gate r)) = 6%nat ->
  length (rg_frequency (sg_gate r)) = 4%nat -> Forall (fun s => valid s) (text_strings (record_text r)).
Proof.
  intros [Vl Vc Vf Vv] [[R1 R2 R3 R4 R5 [R6 _] [R7 _] [R8 _] R9] Rc Rf] Lc Lf.
  pose proof (fun ts => limit_targets_valid _ _ ts Vl) as Hts.
  assert (N : forall v, is_u64 v -> valid (uint64Text v)) by (intros v [Hv _]; by apply number_valid).
  assert (O : forall o, is_u64 (maximum o) -> valid (default "" (optional_text o))).
  { intros [m []] Ho; cbn in *; [by apply N|done]. }
  unfold text_strings. rewrite !Forall_app. split_and!.
  - rewrite !Forall_cons, Forall_nil. split_and!; [done| |done]. cbn [record_text GT_Verdict]. rewrite Vv. by destruct (_ && _).
  - cbn [record_text GT_Limits limits_text LT_AddedCandidatePresenceMinimum LT_AddedReferencePresenceMaximum LT_MaxRepeatedAddedBehaviors
      LT_MaxBlockDecisionsPerRun LT_MaxCriticalRiskObservationsPerRun LT_MinCandidateFrequency LT_MaxLostBehaviors LT_MaxLLMCallsPerRun].
    rewrite !Forall_cons, Forall_nil. split_and!; done || (by apply N) || by apply O.
  - cbn [record_text GT_Limits limits_text LT_MaxCallsPerRun]. destruct (MaxCallsPerRun (sg_limits r)) as [ts|] eqn:E; [|constructor].
    cbn [fmap option_fmap option_map default from_option id]. apply flat_map_Forall, Forall_fmap. specialize (Hts ts eq_refl). specialize (R9 ts eq_refl).
    apply Forall_forall. intros t Ht. rewrite Forall_forall in Hts. rewrite Forall_forall in R9. cbn.
    rewrite !Forall_cons, Forall_nil. split_and!; [by apply Hts|by apply N, R9|done].
  - cbn [record_text GT_Checks]. apply flat_map_Forall, Forall_fmap.
    assert (K : Forall (fun c => exists w, w ∈ want (sg_limits r) runs /\ validate_check (c, w) = Ok tt) (rg_checks (sg_gate r))).
    { eapply zip_Forall; [|intros a b _ Hb H; exists b; split; [exact Hb|exact H]|exact Vc]. rewrite Lc. cbn. lia. }
    apply Forall_forall. intros c Hc. rewrite Forall_forall in K, Rc. destruct (Rc c Hc) as [[? _] [? _]]. by apply (check_strings (sg_limits r) runs); [apply K| |].
  - cbn [record_text GT_FrequencyChecks]. apply flat_map_Forall, Forall_fmap.
    assert (K : Forall (fun c => exists name o, name ∈ frequency_names /\ validate_frequency (sg_limits r) (u64 runs) (c, (name, o)) = Ok tt)
      (rg_frequency (sg_gate r))).
    { eapply zip_Forall; [| |exact Vf]; [rewrite Lf; cbn; lia|]. intros a [name o] _ Hb H. exists name, o. split; [|done].
      revert Hb. unfold frequency_names, optional_limits. cbn [zip zip_with]. rewrite !elem_of_cons.
      intros [[= -> _]|[[= -> _]|[[= -> _]|[[= -> _]|?%elem_of_nil]]]]; [tauto..|done]. }
    apply Forall_forall. intros c Hc. rewrite Forall_forall in K, Rf. destruct (Rf c Hc) as (F1 & F2 & F3).
    destruct (frequency_strings _ _ c Hts (K c Hc)) as (S1 & S2 & S3 & S4 & S5). unfold compose. cbv beta.
    unfold frequency_text. cbn [FT_Name FT_State FT_Rule FT_Actual FT_Bound FT_MissingEvidence FT_Targets].
    rewrite Forall_app. split; [rewrite !Forall_cons, Forall_nil; split_and!; try done; by apply N|].
    apply flat_map_Forall, Forall_fmap. apply Forall_forall. intros t Ht. rewrite Forall_forall in F3. rewrite Forall_forall in S5.
    destruct (F3 t Ht), (S5 t Ht). unfold compose, target_text. cbn [CK_Target CK_Actual CK_Max CK_Outcome]. rewrite !Forall_cons, Forall_nil. split_and!; try done; by apply N.
Qed.

Section properties.
Context `{order : MapOrder} `{unicode : Unicode}.

(** C24: the gate of every repeated comparison can be recorded, when the run identifiers are
    plain: whatever the repetitions contained and whichever checks passed, failed or were
    deferred, the record of the comparison passes its own validation and holds the limits and
    outcome unchanged. *)
Theorem gate_record_accepted limits runs inputs c :
  1 <= runs <= MaxRepetitions -> Z.of_nat (length inputs) <= max_u64 -> Forall input_ok inputs -> limits_ok limits ->
  Z.of_nat (length (completed_on SideCandidate inputs)) <= runs ->
  Forall (fun i => plain (RE_RunID (evidence i)) = true /\ len (RE_RunID (evidence i)) <= maxIdentifierLength) inputs ->
  validateRepeatedLimits limits runs = Ok tt -> reduceRepeated limits runs inputs = Ok c ->
  gateRecord c = Ok {| recorded := true; sg_limits := limits; sg_gate := RX_Gate c |}.
Proof.
  intros Hr Hl Ho Hlim Hc Hp Hv H. destruct (reduceRepeated_inv _ _ _ _ H Hl Ho) as (d & c0 & Hd & Hred & ->).
  destruct (with_suggestions_fields c0) as (_ & E2 & E3 & E4 & _). unfold gateRecord. rewrite E2, E3, E4.
  destruct (reduced_Ok limits runs inputs d Hr Hl Ho Hlim Hd c0 Hred) as (R & -> & -> & _).
  rewrite (reduced_gate limits inputs runs d c0 Hd Hred). cbn zeta. set (rows := RX_Behaviors c0) in *.
  cbn [rg_checks rg_frequency rg_verdict rg_bound]. pose proof (runs_u64 runs Hr) as Hu.
  set (i := gate_inputs runs d rows). assert (Ei : in_runs i = u64 runs) by done.
  assert (B : Forall (fun b => CandidateRunsPresent b <= in_runs i) (in_behaviors i)).
  { rewrite Ei, Hu. apply Forall_forall. intros b Hb. pose proof (rx_rows _ _ _ _ R) as Hx. rewrite Forall_forall in Hx.
    rewrite (px_candidate _ _ _ _ (Hx b Hb)). etrans; [apply presence_le|]. cbn. by rewrite length_fmap. }
  destruct (layers_nonneg inputs d Hl Ho Hd) as [L1 _].
  assert (L2 : (length (candidateLayers i) <= 64)%nat).
  { cbn. rewrite (rr_layers _ _ Hd), length_fmap. unfold MaxRepetitions in Hr. lia. }
  assert (L3 : Forall (fun r => plain (RL_runID r) = true /\ len (RL_runID r) < 1000) (candidateLayers i)).
  { cbn. rewrite (rr_layers _ _ Hd). apply Forall_fmap, Forall_forall. intros x Hx. cbn. apply list_elem_of_In, filter_In in Hx as [Hx _].
    rewrite Forall_forall in Hp. destruct (Hp x) as [P1 P2]; [by apply list_elem_of_In|]. unfold maxIdentifierLength in P2. split; [done|lia]. }
  pose proof (min_frequency_ok limits i B) as F1. pose proof (max_lost_ok limits i) as F2. pose proof (max_calls_ok limits i) as F3.
  pose proof (max_llm_ok limits i L2 L1 L3) as F4. rewrite Ei in F1, F2, F3, F4.
  unfold NewScenarioGateRecord, evaluateFrequencyGates. cbn [length Nat.eqb negb orb fail_if mbind res_bind].
  unfold ScenarioGateRecord_validate. cbn [recorded sg_limits sg_gate rg_checks rg_frequency rg_verdict negb fail_if mbind res_bind].
  rewrite Hv. cbn [mbind res_bind]. rewrite (iterate_ok validate_check).
  2: { unfold want. cbn zeta. cbn [zip zip_with]. rewrite !Forall_cons, Forall_nil. unfold validate_check, equalsCheck, atMostCheck.
       cbn [RC_Name RC_Rule RC_Bound RC_Advisory RC_Passed RC_Actual w_name w_rule w_bound w_advisory].
       rewrite !String.eqb_refl, !Z.eqb_refl. change (ruleHolds RuleEquals) with Z.eqb. change (ruleHolds RuleAtMost) with Z.leb. by rewrite !eqb_reflx. }
  cbn [mbind res_bind]. rewrite (iterate_ok (validate_frequency limits (u64 runs))); [|unfold frequency_names, optional_limits; cbn [zip zip_with]; by rewrite !Forall_cons, Forall_nil].
  cbn [mbind res_bind]. rewrite forallb_existsb.
  match goal with |- context [existsb ?f ?l || ?b] => set (x := existsb f l); set (y := b) end.
  assert (V : (if x || y then GateVerdictFail else GateVerdictPass) = (if negb x && negb y then GateVerdictPass else GateVerdictFail)) by (by destruct x, y).
  rewrite V, String.eqb_refl. done.
Qed.
(** The counters of a comparison's gate are 64-bit words. *)
Definition words (c : FrequencyGateCheck) : Prop :=
  is_u64 (FC_Actual c) /\ is_u64 (FC_Bound c) /\ Forall (fun t => is_u64 (TC_Actual t) /\ is_u64 (TC_Max t)) (FC_Targets c).

Lemma count_u64 {A} (p : A -> bool) l : forall n, is_u64 n -> is_u64 (fold_left (fun n b => if p b then u64 (n + 1) else n) l n).
Proof. induction l as [|a l IH]; intros n Hn; cbn [fold_left]; [done|]. apply IH. destruct (p a); [apply u64_range|done]. Qed.
Lemma lowest_u64 runs l : Forall (fun b => is_u64 (CandidateRunsPresent b)) l -> forall acc, is_u64 acc.1 -> is_u64 (fold_left (lowest_step runs) l acc).1.
Proof.
  induction 1 as [|b l Hb _ IH]; intros [n q] Hn; cbn [fold_left]; [done|]. apply IH. unfold lowest_step.
  destruct (negb _); [done|]. cbn [fst]. by destruct (negb q || _).
Qed.
Lemma scan_u64 l : Forall (fun r => is_u64 (modelCalls r)) l -> is_u64 (worst (scan_layers l)).
Proof.
  unfold scan_layers. assert (H : forall s, is_u64 (worst s) -> Forall (fun r => is_u64 (modelCalls r)) l -> is_u64 (worst (fold_left llm_step l s))); [|by apply H].
  induction l as [|r l IH]; intros s Hs Hl; cbn [fold_left]; [done|]. apply Forall_cons in Hl as [Hr Hl]. apply IH; [|done]. unfold llm_step.
  destruct (_ =? 0); cbn [worst]; [done|]. ulia.
Qed.

Lemma frequency_words limits i : limits_range limits -> Forall (fun b => is_u64 (CandidateRunsPresent b)) (in_behaviors i) ->
  (forall n a, candidByName i !! n = Some a -> is_u64 (fa_max a)) -> Forall (fun r => is_u64 (modelCalls r)) (candidateLayers i) ->
  Forall words (evaluateFrequencyGates limits i).
Proof.
  intros [_ _ _ _ _ H1 H2 H3 H4] Hb Hn Hr. unfold evaluateFrequencyGates. rewrite !Forall_cons, Forall_nil. split_and!; [..|done].
  - unfold min_frequency_check. cbn [OptionalGateLimit_Maximum]. destruct (negb _); [done|]. pose proof (lowest_u64 (in_runs i) _ Hb (0, false) ltac:(done)) as Hl.
    destruct (fold_left _ _ _) as [n q]. destruct (negb _); [done|]. destruct (negb q); [done|]. split; [done|]. split; [apply H1|constructor].
  - unfold max_lost_check. cbn [OptionalGateLimit_Maximum]. destruct (negb _); [done|]. destruct (negb _); [done|]. split; [by apply count_u64|]. split; [apply H2|constructor].
  - unfold max_calls_check. destruct (MaxCallsPerRun limits) as [ts|] eqn:E; [|done]. destruct (_ =? 0); [done|]. split; [done|]. split; [done|].
    apply Forall_fmap. eapply Forall_impl; [exact (H4 ts eq_refl)|]. intros t Ht. cbn. unfold target_call_check. destruct (_ && _); [done|]. split; [|done].
    cbn [TC_Actual]. destruct (candidByName i !! _) eqn:Ec; [by eapply Hn|done].
  - unfold max_llm_check. cbn [OptionalGateLimit_Maximum]. destruct (negb _); [done|]. destruct (_ <? _); [done|]. destruct (_ =? 0); [done|].
    split; [by apply scan_u64|]. split; [apply H3|constructor].
Qed.

Lemma limits_range_ok l : limits_range l -> limits_ok l.
Proof.
  intros [_ _ H1 H2 H3 _ _ [H4 _] H5]. split; [apply H1|apply H2|apply H3| |apply H4]. intros ts Hts. eapply Forall_impl; [by apply H5|]. by intros t [].
Qed.
Lemma greatest_u64 {A} (f : A -> Z) l : Forall (fun x => is_u64 (f x)) l -> is_u64 (greatest (f <$> l)).
Proof. induction 1 as [|x l Hx _ IH]; [done|]. rewrite fmap_cons. change (greatest (f x :: ?cs)) with (Z.max (f x) (greatest cs)). ulia. Qed.

Lemma reduced_rows limits runs inputs d c : reduction_is inputs d -> reduced limits runs d = Ok c -> Z.of_nat (length (RX_Behaviors c)) <= max_u64.
Proof.
  intros Hd H. unfold reduced in H. res_inv. subst c. cbn [RX_Behaviors]. rewrite (sort_by_perm RB_FingerprintID a). by eapply rows_bounded.
Qed.
Lemma greatest_word l : Forall (fun c => 0 <= c) l -> sumZ l <= max_u64 -> is_u64 (greatest l).
Proof.
  intros H Hs. enough (0 <= greatest l <= sumZ l) by ulia. clear Hs. induction H as [|c l Hc _ IH]; [done|].
  rewrite sumZ_cons. change (greatest (c :: l)) with (Z.max c (greatest l)). lia.
Qed.
Lemma reduced_range limits runs inputs d c g : 1 <= runs <= MaxRepetitions -> Z.of_nat (length inputs) <= max_u64 -> Forall input_ok inputs ->
  reduction_is inputs d -> limits_range limits -> reduced limits runs d = Ok c -> gateRecord c = Ok g -> record_range g.
Proof.
  intros Hr Hl Ho Hd Hlim H Hg. pose proof (limits_range_ok _ Hlim) as Hlo. unfold gateRecord in Hg. apply new_record_inv in Hg as (_ & _ & _ & _ & E1 & E2 & E3 & _).
  destruct (reduced_Ok limits runs inputs d Hr Hl Ho Hlo Hd c H) as (R & _ & El & _).
  assert (Hc : Forall (fun i => is_u64 (RE_BlockDecisions (evidence i)) /\ is_u64 (RE_CriticalRiskObservations (evidence i))) (completed_on SideCandidate inputs)).
  { apply Forall_forall. intros i Hi. destruct (candidate_entries_ok inputs Ho i Hi) as [[] _]. done. }
  destruct (completed_counts inputs d Hd) as [C1 C2]. pose proof (completed_length SideReference inputs). pose proof (completed_length SideCandidate inputs).
  pose proof (List.filter_length_le empty_run inputs). pose proof (reduced_rows _ _ _ _ _ Hd H) as Hrows.
  pose proof (List.filter_length_le (fun b => Classification b =s RepeatedAdded) (RX_Behaviors c)).
  rewrite (reduced_gate limits inputs runs d c Hd H) in E2, E3. cbn zeta in E2, E3. cbn [rg_checks rg_frequency] in E2, E3. set (rows := RX_Behaviors c) in *.
  split.
  - by rewrite E1, El.
  - rewrite E2, !Forall_cons, Forall_nil. cbn [equalsCheck atMostCheck RC_Actual RC_Bound]. destruct Hlim.
    split_and!; try done; try apply u64_range.
    all: try (rewrite ?C1, ?C2, ?(rr_failing _ _ Hd); ulia).
    + rewrite (rr_block _ _ Hd). apply greatest_u64. eapply Forall_impl; [exact Hc|]. by intros i [].
    + rewrite (rr_cr _ _ Hd). apply greatest_u64. eapply Forall_impl; [exact Hc|]. by intros i [].
  - rewrite E3. apply frequency_words; [done|..|apply Hd].
    + eapply Forall_impl; [exact (rx_rows _ _ _ _ R)|]. intros b [_ -> _ _ _ _ _]. pose proof (presence_le (RB_FingerprintID b) (on_candidate (runs_by inputs))) as Hp.
      pose proof (presence_nonneg (RB_FingerprintID b) (on_candidate (runs_by inputs))) as Hq.
      change (on_candidate (runs_by inputs)) with (at_side (runs_by inputs) SideCandidate) in *. rewrite runs_by_at in *. rewrite length_fmap in Hp. clear -Hp Hq Hl H1. ulia.
    + intros n a Ha. destruct (fi_names _ _ (proj2 (side_frequency inputs d Hd)) n) as (E & Hn & Hs & _). cbn in Ha. rewrite E in Ha. rewrite (acc_of_max _ _ Ha).
      by apply greatest_word.
Qed.
End properties.

#[local] Notation example_comparison := (@reduceRepeated key_order ascii_only example_limits 1 example_inputs).

Lemma gate_record_accepted_witness : exists c, example_comparison = Ok c /\
  gateRecord c = Ok {| recorded := true; sg_limits := example_limits; sg_gate := RX_Gate c |}.
Proof.
  assert (H1 : Z.of_nat (length (completed_on SideCandidate example_inputs)) <= 1) by (vm_compute; discriminate).
  assert (H2 : Forall (fun i => plain (RE_RunID (evidence i)) = true /\ len (RE_RunID (evidence i)) <= maxIdentifierLength) example_inputs).
  { unfold example_inputs. rewrite !Forall_cons, Forall_nil. by vm_compute. }
  assert (H3 : validateRepeatedLimits example_limits 1 = Ok tt) by (vm_compute; reflexivity).
  destruct example_comparison as [c|] eqn:E; [|by vm_compute in E]. exists c. split; [reflexivity|].
  exact (@gate_record_accepted key_order ascii_only example_limits 1 example_inputs c (proj1 example_bounds) (proj2 example_bounds)
    example_inputs_ok example_limits_ok H1 H2 H3 E).
Defined.

(** An accepted record is read back from its text. *)
Lemma gate_decode_encode `{json : GateJSON} runs limits checks frequency v r :
  NewScenarioGateRecord runs limits checks frequency v = Ok r -> record_range r ->
  decodeScenarioGateRecord (encodeScenarioGateRecord r) runs = Ok r.
Proof.
  intros H Hr. destruct (new_record_inv _ _ _ _ _ _ H) as (Hrec & Hb & Lc & Lf & E1 & E2 & E3 & E4 & Hv).
  destruct (validate_inv _ _ Hv) as [_ V]. pose proof (record_strings _ _ V Hr Lc Lf) as S. destruct Hr as [Rl Rc Rf].
  unfold decodeScenarioGateRecord, encodeScenarioGateRecord. rewrite gate_json_roundtrip by done. cbn [mbind res_bind record_text GT_Version].
  rewrite String.eqb_refl. cbn [negb fail_if mbind res_bind record_text GT_Limits GT_Checks GT_FrequencyChecks GT_Verdict].
  rewrite read_limits_text by done. cbn [mbind res_bind]. rewrite (mapM_back check_text).
  2: { eapply Forall_impl; [exact Rc|]. intros c [? ?]. by apply read_check_text. }
  cbn [mbind res_bind]. rewrite (mapM_back frequency_text).
  2: { eapply Forall_impl; [exact Rf|]. intros c (? & ? & ?). by apply read_frequency_text. }
  cbn [mbind res_bind]. rewrite E1, E2, E3, E4, H. cbn [map_err mbind res_bind]. unfold encodeScenarioGateRecord, record_text.
  rewrite E1, E2, E3, E4, String.eqb_refl. done.
Qed.

(** C25: the stored text of a gate record is one-to-one with valid records. A record that was
    accepted, its counters 64-bit words, is read back from its text unchanged; and whatever
    text reads back is the text of the record it gives, which is valid: a verdict its checks
    do not give, a bound its limits do not state, or a second spelling is refused. *)
Theorem gate_record_text `{json : GateJSON} runs :
  (forall limits checks frequency v r, NewScenarioGateRecord runs limits checks frequency v = Ok r -> record_range r ->
     decodeScenarioGateRecord (encodeScenarioGateRecord r) runs = Ok r) /\
  (forall stored r, decodeScenarioGateRecord stored runs = Ok r ->
     encodeScenarioGateRecord r = stored /\ recorded r = true /\ record_valid r runs).
Proof.
  split.
  - apply gate_decode_encode.
  - intros stored r H. unfold decodeScenarioGateRecord in H. res_inv. subst. bool_prop.
    match goal with H : NewScenarioGateRecord _ _ _ _ _ = Ok _ |- _ => apply new_record_inv in H as (_ & _ & _ & _ & _ & _ & _ & _ & Hv) end.
    split; [done|]. by apply validate_inv.
Qed.

(** ** A legal identifier the record does not survive *)
Definition quoted_id : string := String.concat EmptyString (repeat quotation 65).
Definition refused_inputs : list repetitionInput :=
  [example_input SideReference "r1" []; example_input SideReference "r2" [];
   example_input SideCandidate quoted_id []; example_input SideCandidate "c2" []].
Definition refused_limits : RepeatedEvaluationGateLimits :=
  {| AddedCandidatePresenceMinimum := 1; AddedReferencePresenceMaximum := 0; MaxRepeatedAddedBehaviors := 0;
     MaxBlockDecisionsPerRun := 0; MaxCriticalRiskObservationsPerRun := 0; MinCandidateFrequency := no_limit;
     MaxLostBehaviors := no_limit; MaxCallsPerRun := None; MaxLLMCallsPerRun := NewOptionalGateLimit 5 |}.

(** C26: a comparison of valid requests can have a gate that cannot be recorded: two candidate
    runs without a model call, one named by 65 quotation marks - a valid identifier - defer
    the model-call check with evidence of more than 256 bytes, which the record refuses. *)
Theorem gate_record_refused :
  let request := {| ReferenceRunIDs := ["r1"; "r2"]; CandidateRunIDs := [quoted_id; "c2"]; Limits := refused_limits |} in
  RepeatedEvaluationRequest_Validate request = Ok tt /\
  exists c, @reduceRepeated key_order ascii_only refused_limits 2 refused_inputs = Ok c /\
            gateRecord c = Err [ErrInvalidRepeatedRequest].
Proof.
  split; [by vm_compute|].
  assert (K : (fun r => match r with Ok c => match gateRecord c with Err e => bool_decide (e = [ErrInvalidRepeatedRequest]) | Ok _ => false end | Err _ => false end)
    (@reduceRepeated key_order ascii_only refused_limits 2 refused_inputs) = true) by (vm_compute; reflexivity).
  destruct (@reduceRepeated key_order ascii_only refused_limits 2 refused_inputs) as [c|]; [|discriminate]. exists c. split; [reflexivity|].
  destruct (gateRecord c) as [r|e]; [discriminate|]. f_equal. by apply bool_decide_eq_true in K.
Qed.

(** ** An encoding, for the witness: any countable one *)
Fixpoint bits (p : positive) : string :=
  match p with xH => "" | xO p => String "0" (bits p) | xI p => String "1" (bits p) end.
Fixpoint of_bits (s : string) : positive :=
  match s with
  | EmptyString => xH
  | String a s => if byte_of a =? 48 then xO (of_bits s) else xI (of_bits s)
  end.
Lemma of_bits_bits p : of_bits (bits p) = p.
Proof. induction p as [p IH|p IH|]; cbn; [by rewrite IH..|done]. Qed.

#[local] Instance target_text_eq : EqDecision gateRecordTargetText. Proof. solve_decision. Defined.
#[local] Instance limits_text_eq : EqDecision gateRecordLimitsText. Proof. solve_decision. Defined.
#[local] Instance check_text_eq : EqDecision gateRecordCheckText. Proof. solve_decision. Defined.
#[local] Instance target_check_text_eq : EqDecision gateRecordTargetCheckText. Proof. solve_decision. Defined.
#[local] Instance frequency_text_eq : EqDecision gateRecordFrequencyText. Proof. solve_decision. Defined.
#[local] Instance record_text_eq : EqDecision gateRecordText. Proof. solve_decision. Defined.
#[local] Instance target_text_countable : Countable gateRecordTargetText.
Proof. refine (inj_countable' (fun t => (TT_Target t, TT_Max t)) (fun p => {| TT_Target := p.1; TT_Max := p.2 |}) _). by intros []. Defined.
#[local] Instance limits_text_countable : Countable gateRecordLimitsText.
Proof.
  refine (inj_countable' (fun t => (LT_AddedCandidatePresenceMinimum t, LT_AddedReferencePresenceMaximum t, LT_MaxRepeatedAddedBehaviors t,
    LT_MaxBlockDecisionsPerRun t, LT_MaxCriticalRiskObservationsPerRun t, LT_MinCandidateFrequency t, LT_MaxLostBehaviors t,
    LT_MaxCallsPerRun t, LT_MaxLLMCallsPerRun t)) (fun '(a, b, c, d, e, f, g, h, i) => Build_gateRecordLimitsText a b c d e f g h i) _). by intros [].
Defined.
#[local] Instance check_text_countable : Countable gateRecordCheckText.
Proof.
  refine (inj_countable' (fun t => (CT_Name t, CT_Actual t, CT_Rule t, CT_Bound t, CT_Passed t, CT_Advisory t))
    (fun '(a, b, c, d, e, f) => Build_gateRecordCheckText a b c d e f) _). by intros [].
Defined.
#[local] Instance target_check_text_countable : Countable gateRecordTargetCheckText.
Proof.
  refine (inj_countable' (fun t => (CK_Target t, CK_Actual t, CK_Max t, CK_Outcome t))
    (fun '(a, b, c, d) => Build_gateRecordTargetCheckText a b c d) _). by intros [].
Defined.
#[local] Instance frequency_text_countable : Countable gateRecordFrequencyText.
Proof.
  refine (inj_countable' (fun t => (FT_Name t, FT_State t, FT_Rule t, FT_Actual t, FT_Bound t, FT_Passed t, FT_Targets t, FT_MissingEvidence t))
    (fun '(a, b, c, d, e, f, g, h) => Build_gateRecordFrequencyText a b c d e f g h) _). by intros [].
Defined.
#[local] Instance record_text_countable : Countable gateRecordText.
Proof.
  refine (inj_countable' (fun t => (GT_Version t, GT_Limits t, GT_Checks t, GT_FrequencyChecks t, GT_Verdict t))
    (fun '(a, b, c, d, e) => Build_gateRecordText a b c d e) _). by intros [].
Defined.
Definition example_json : GateJSON.
Proof.
  refine {| marshal_gate t := bits (countable.encode t); unmarshal_gate s := countable.decode (of_bits s) |}.
  intros t _. by rewrite of_bits_bits, countable.decode_encode.
Defined.

Definition example_gate : RepeatedEvaluationGateResult :=
  {| rg_bound := true;
     rg_checks := [equalsCheck CheckReferenceRepetitionsCompleted 1 1; equalsCheck CheckCandidateRepetitionsCompleted 1 1;
       atMostCheck CheckRepetitionsFailingMinimum 0 0 ""; atMostCheck CheckRepeatedlyAddedBehaviors 0 0 "";
       atMostCheck CheckWorstCandidateBlockDecisions 1 0 ""; atMostCheck CheckWorstCandidateCriticalRiskCount 0 0 ""];
     rg_verdict := GateVerdictFail;
     rg_frequency := [not_evaluated CheckMinCandidateFrequency; not_evaluated CheckMaxLostBehaviors; not_evaluated CheckMaxCallsPerRun;
       deferred CheckMaxLLMCallsPerRun "no completed candidate repetition"] |}.
Definition example_gate_record : ScenarioGateRecord := {| recorded := true; sg_limits := refused_limits; sg_gate := example_gate |}.
Lemma example_gate_new :
  NewScenarioGateRecord 1 refused_limits (rg_checks example_gate) (rg_frequency example_gate) (rg_verdict example_gate) = Ok example_gate_record.
Proof. vm_compute. reflexivity. Qed.
Lemma example_gate_range : record_range example_gate_record.
Proof.
  assert (U : forall v, (0 <=? v) && (v <=? 1000) = true -> is_u64 v) by (intros v; rewrite andb_true_iff, !Z.leb_le; unfold is_u64, max_u64; lia).
  split.
  - split; try (by apply U); try (split; [by apply U|done]); done.
  - cbn [sg_gate rg_checks example_gate example_gate_record]. rewrite !Forall_cons, Forall_nil. split_and!; try done; by apply U.
  - cbn [sg_gate rg_frequency example_gate example_gate_record]. rewrite !Forall_cons, Forall_nil. split_and!; try done; try (by apply U); constructor.
Qed.
Lemma gate_record_text_witness :
  @decodeScenarioGateRecord example_json (@encodeScenarioGateRecord example_json example_gate_record) 1 = Ok example_gate_record.
Proof. exact (proj1 (@gate_record_text example_json 1) _ _ _ _ _ example_gate_new example_gate_range). Defined.
