(* ===== verification/Scenario.v ===== *)
(** * Package platform: scenario executions (scenario_execution.go, scenario_execution_producer.go,
      scenario_execution_store.go)

    An execution of a scenario runs N repetitions a side; it is running until it completes,
    with its repetitions and gate, or fails.  The file models the domain value with its
    validation, the two tables that store it, and the transactions on them.  A specification
    - a map of executions and the log of completions - says what the store promises; the
    theorems show that the tables implement it. *)
From S2P Require Import Prelude GoText GoTime Domain Recency Counters Gate RunStore Provenance FrequencyGate Repeated GateRecord.

Open Scope string_scope.
Open Scope Z_scope.

(** ** The execution *)
Definition ScenarioExecutionID := string.
Definition ScenarioExecutionStatus := string.
Definition ScenarioExecutionRunning : ScenarioExecutionStatus := "running".
Definition ScenarioExecutionCompleted : ScenarioExecutionStatus := "completed".
Definition ScenarioExecutionFailed : ScenarioExecutionStatus := "failed".
Definition ScenarioExecutionStatus_valid (s : ScenarioExecutionStatus) : bool :=
  (s =s ScenarioExecutionRunning) || (s =s ScenarioExecutionCompleted) || (s =s ScenarioExecutionFailed).

Record ScenarioScope : Type := { SC_ProjectID : ProjectID; SC_AgentID : AgentID; SC_Environment : EnvironmentRef }.
#[export] Instance scope_eq_dec : EqDecision ScenarioScope.
Proof. solve_decision. Defined.
Definition ScenarioScope_validate (s : ScenarioScope) : res unit :=
  validateID (SC_ProjectID s);; validateID (SC_AgentID s);; validateID (SC_Environment s).

Record ScenarioRepetition : Type := {
  SR_Side : ComparisonSide;
  SR_Index : Z;
  SR_RunID : EvaluationRunID;
  SR_BehavioralProfile : BehavioralProfileRef;
}.

Definition ScenarioReferenceMode := string.
Definition ScenarioReferenceModeExecution : ScenarioReferenceMode := "execution".
Definition ScenarioReferenceModeLast : ScenarioReferenceMode := "last".
Definition ScenarioReferenceMode_valid (m : ScenarioReferenceMode) : bool :=
  (m =s ScenarioReferenceModeExecution) || (m =s ScenarioReferenceModeLast).

Record ScenarioExecution : Type := {
  se_id : ScenarioExecutionID;
  scenarioName : string;
  scope : ScenarioScope;
  se_runs : Z;
  se_reference : ScenarioExecutionID;
  se_status : ScenarioExecutionStatus;
  se_startedAt : time;
  se_finishedAt : time;
  completionSequence : Z;
  se_verdict : GateVerdict;
  se_repetitions : list ScenarioRepetition;
  provenance : SideProvenance * SideProvenance;
  gate : ScenarioGateRecord;
  cliVersion : string;
  referenceMode : ScenarioReferenceMode;
}.

(** The zero values of Go. *)
Definition no_limits : RepeatedEvaluationGateLimits :=
  {| AddedCandidatePresenceMinimum := 0; AddedReferencePresenceMaximum := 0; MaxRepeatedAddedBehaviors := 0;
     MaxBlockDecisionsPerRun := 0; MaxCriticalRiskObservationsPerRun := 0; MinCandidateFrequency := no_limit;
     MaxLostBehaviors := no_limit; MaxCallsPerRun := None; MaxLLMCallsPerRun := no_limit |}.
Definition no_gate : ScenarioGateRecord :=
  {| recorded := false; sg_limits := no_limits;
     sg_gate := {| rg_bound := false; rg_checks := []; rg_verdict := ""; rg_frequency := [] |} |}.

Definition validateCLIVersion (version : string) : res unit :=
  if version =s "" then Ok tt
  else
    validateText ErrInvalidRepeatedRequest version;;
    fail_if ((trim_space version <>s version) || (trim_space version =s "")) [ErrInvalidRepeatedRequest].

Definition validateProducer (e : ScenarioExecution) : res unit :=
  validateCLIVersion (cliVersion e);;
  if referenceMode e =s "" then Ok tt
  else
    fail_if (negb (ScenarioReferenceMode_valid (referenceMode e))) [ErrInvalidRepeatedRequest];;
    fail_if (se_reference e =s "") [ErrInvalidRepeatedRequest].

(** One association of the list, with those before it: its position, the runs and profiles seen. *)
Definition validate_repetition (runs : Z) (acc : Z * gset EvaluationRunID * gset BehavioralProfileRef) (r : ScenarioRepetition)
    : res (Z * gset EvaluationRunID * gset BehavioralProfileRef) :=
  let '(i, runIDs, profiles) := acc in
  let '(wantSide, wantIndex) := if runs <=? i then (SideCandidate, i - runs + 1) else (SideReference, i + 1) in
  fail_if ((SR_Side r <>s wantSide) || negb (SR_Index r =? wantIndex)) [ErrInvalidRepeatedRequest];;
  validateID (SR_RunID r);;
  validateID (SR_BehavioralProfile r);;
  fail_if (bool_decide (SR_RunID r ∈ runIDs) || bool_decide (SR_BehavioralProfile r ∈ profiles)) [ErrRepeatedIsolation];;
  Ok (i + 1, {[SR_RunID r]} ∪ runIDs, {[SR_BehavioralProfile r]} ∪ profiles).

Definition validateScenarioRepetitions (repetitions : list ScenarioRepetition) (runs : Z) : res unit :=
  fail_if (negb (Z.of_nat (length repetitions) =? 2 * runs)) [ErrInvalidRepeatedRequest];;
  _ ← foldM (validate_repetition runs) (0, ∅, ∅) repetitions;
  Ok tt.

(** The last part of [validate]: the state agrees with the status. *)
Definition validate_state (e : ScenarioExecution) : res unit :=
  let running := se_status e =s ScenarioExecutionRunning in
  let completed := se_status e =s ScenarioExecutionCompleted in
  fail_if (negb (Bool.eqb running (time_is_zero (se_finishedAt e)))) [ErrInvalidTimestamp];;
  fail_if (negb running && time_before (se_finishedAt e) (se_startedAt e)) [ErrInvalidTimestamp];;
  if negb completed then
    fail_if (negb (completionSequence e =? 0) || (se_verdict e <>s "") || negb (length (se_repetitions e) =? 0)%nat ||
             recorded (gate e)) [ErrScenarioExecutionState]
  else
    fail_if (completionSequence e =? 0) [ErrScenarioExecutionState];;
    fail_if ((se_verdict e <>s GateVerdictPass) && (se_verdict e <>s GateVerdictFail)) [ErrInvalidID];;
    (if recorded (gate e) then
       ScenarioGateRecord_validate (gate e) (se_runs e);;
       fail_if (rg_verdict (sg_gate (gate e)) <>s se_verdict e) [ErrInvalidRepeatedRequest]
     else Ok tt);;
    validateScenarioRepetitions (se_repetitions e) (se_runs e).

Definition ScenarioExecution_validate (e : ScenarioExecution) : res unit :=
  validateID (se_id e);;
  validateID (scenarioName e);;
  ScenarioScope_validate (scope e);;
  fail_if ((se_runs e <? 1) || (MaxRepetitions <? se_runs e)) [ErrInvalidRepeatedRequest];;
  (if se_reference e <>s "" then
     validateID (se_reference e);; fail_if (se_reference e =s se_id e) [ErrScenarioReference]
   else Ok tt);;
  fail_if (negb (ScenarioExecutionStatus_valid (se_status e))) [ErrInvalidID];;
  fail_if (time_is_zero (se_startedAt e)) [ErrInvalidTimestamp];;
  SideProvenance_validate (fst (provenance e));;
  SideProvenance_validate (snd (provenance e));;
  validateProducer e;;
  validate_state e.

Definition NewScenarioExecution (id : ScenarioExecutionID) (name : string) (scope : ScenarioScope) (runs : Z)
    (reference : ScenarioExecutionID) (startedAt : time) : res ScenarioExecution :=
  let e := {| se_id := id; scenarioName := name; scope := scope; se_runs := runs; se_reference := reference;
              se_status := ScenarioExecutionRunning; se_startedAt := startedAt; se_finishedAt := zero_time;
              completionSequence := 0; se_verdict := ""; se_repetitions := [];
              provenance := (no_provenance, no_provenance); gate := no_gate; cliVersion := ""; referenceMode := "" |} in
  ScenarioExecution_validate e;;
  Ok e.

Definition SideRepetitions (e : ScenarioExecution) (side : ComparisonSide) : list ScenarioRepetition :=
  List.filter (fun r => SR_Side r =s side) (se_repetitions e).
Definition ScenarioExecution_Provenance (e : ScenarioExecution) (side : ComparisonSide) : SideProvenance :=
  if side =s SideReference then fst (provenance e) else snd (provenance e).

Definition withProvenance (e : ScenarioExecution) (reference candidate : SideProvenance) : res ScenarioExecution :=
  let next := {| se_id := se_id e; scenarioName := scenarioName e; scope := scope e; se_runs := se_runs e; se_reference := se_reference e;
                 se_status := se_status e; se_startedAt := se_startedAt e; se_finishedAt := se_finishedAt e;
                 completionSequence := completionSequence e; se_verdict := se_verdict e; se_repetitions := se_repetitions e;
                 provenance := (reference, candidate); gate := gate e; cliVersion := cliVersion e; referenceMode := referenceMode e |} in
  ScenarioExecution_validate next;;
  Ok next.

Definition withProducer (e : ScenarioExecution) (version : string) (mode : ScenarioReferenceMode) : res ScenarioExecution :=
  let next := {| se_id := se_id e; scenarioName := scenarioName e; scope := scope e; se_runs := se_runs e; se_reference := se_reference e;
                 se_status := se_status e; se_startedAt := se_startedAt e; se_finishedAt := se_finishedAt e;
                 completionSequence := completionSequence e; se_verdict := se_verdict e; se_repetitions := se_repetitions e;
                 provenance := provenance e; gate := gate e; cliVersion := version; referenceMode := mode |} in
  ScenarioExecution_validate next;;
  Ok next.

Definition ScenarioExecution_complete (e : ScenarioExecution) (repetitions : list ScenarioRepetition) (g : ScenarioGateRecord)
    (sequence : Z) (at_ : time) : res ScenarioExecution :=
  fail_if (se_status e <>s ScenarioExecutionRunning) [ErrScenarioExecutionState];;
  fail_if (negb (recorded g)) [ErrScenarioExecutionState];;
  let next := {| se_id := se_id e; scenarioName := scenarioName e; scope := scope e; se_runs := se_runs e; se_reference := se_reference e;
                 se_status := ScenarioExecutionCompleted; se_startedAt := se_startedAt e; se_finishedAt := at_;
                 completionSequence := sequence; se_verdict := rg_verdict (sg_gate g); se_repetitions := repetitions;
                 provenance := provenance e; gate := g; cliVersion := cliVersion e; referenceMode := referenceMode e |} in
  ScenarioExecution_validate next;;
  Ok next.

Definition ScenarioExecution_fail (e : ScenarioExecution) (at_ : time) : res ScenarioExecution :=
  if se_status e =s ScenarioExecutionFailed then Ok e
  else if se_status e =s ScenarioExecutionCompleted then Err [ErrScenarioExecutionState]
  else
    let next := {| se_id := se_id e; scenarioName := scenarioName e; scope := scope e; se_runs := se_runs e; se_reference := se_reference e;
                   se_status := ScenarioExecutionFailed; se_startedAt := se_startedAt e; se_finishedAt := at_;
                   completionSequence := completionSequence e; se_verdict := se_verdict e; se_repetitions := se_repetitions e;
                   provenance := provenance e; gate := gate e; cliVersion := cliVersion e; referenceMode := referenceMode e |} in
    ScenarioExecution_validate next;;
    Ok next.

Definition restoreScenarioExecution (e : ScenarioExecution) : res ScenarioExecution :=
  map_err (fun _ => [ErrStoreCorrupt]) (ScenarioExecution_validate e);;
  Ok e.

(** ** The tables *)
Record storedExecution : Type := {
  x_scenario_name : string;
  x_project_id : ProjectID;
  x_agent_id : AgentID;
  x_environment : EnvironmentRef;
  x_runs : Z;
  x_reference_execution_id : option string;
  x_status : ScenarioExecutionStatus;
  x_started_at : time;
  x_started_order : string;
  x_finished_at : option time;
  x_completion_sequence : option Z;
  x_verdict : option string;
  x_provenance : list (option string);
  x_gate_snapshot : option string;
  x_cli_version : option string;
  x_reference_mode : option string;
}.
Record scenario_tables : Type := {
  executions : gmap ScenarioExecutionID storedExecution;
  repetitions : gmap (ScenarioExecutionID * (ComparisonSide * Z)) (EvaluationRunID * BehavioralProfileRef);
}.
Definition no_scenarios : scenario_tables := {| executions := ∅; repetitions := ∅ |}.

(** [CASE side WHEN 'reference' THEN 0 ELSE 1 END, repetition_index]. *)
Definition repetition_le (a b : ScenarioRepetition) : Prop :=
  let rank r := if SR_Side r =s SideReference then 0 else 1 in
  rank a < rank b \/ (rank a = rank b /\ SR_Index a <= SR_Index b).
#[export] Instance repetition_le_dec : RelDecision repetition_le.
Proof. intros a b. unfold repetition_le. apply _. Defined.

Definition repetition_of (item : ScenarioExecutionID * (ComparisonSide * Z) * (EvaluationRunID * BehavioralProfileRef)) : ScenarioRepetition :=
  let '((_, (side, index)), (run, profile)) := item in
  {| SR_Side := side; SR_Index := index; SR_RunID := run; SR_BehavioralProfile := profile |}.
(** The associations of an execution, in order, at most [2*MaxRepetitions+1]. *)
Definition select_repetitions (t : scenario_tables) (id : ScenarioExecutionID) : list ScenarioRepetition :=
  take (Z.to_nat (2 * MaxRepetitions + 1))
    (merge_sort repetition_le (repetition_of <$> List.filter (fun item => fst (fst item) =s id) (map_to_list (repetitions t)))).

Definition producerColumnValues (e : ScenarioExecution) : option string * option string :=
  (null_text (cliVersion e), null_text (referenceMode e)).

(** The writer's project lock: an UPDATE of the project row, which must exist. *)
Definition lockProject {A} (projects : gmap ProjectID A) (project : ProjectID) : res unit :=
  fail_if (negb (bool_decide (is_Some (projects !! project)))) [ErrStoreNotFound].

Section store.
Context `{json : GateJSON}.

Definition insertScenarioExecution (t : scenario_tables) (e : ScenarioExecution) : res scenario_tables :=
  fail_if (se_status e <>s ScenarioExecutionRunning) [ErrScenarioExecutionState];;
  ScenarioExecution_validate e;;
  key ← recencyKey (se_startedAt e);
  let '(version, mode) := producerColumnValues e in
  let row := {| x_scenario_name := scenarioName e; x_project_id := SC_ProjectID (scope e); x_agent_id := SC_AgentID (scope e);
                x_environment := SC_Environment (scope e); x_runs := i64 (se_runs e);
                x_reference_execution_id := null_text (se_reference e); x_status := se_status e;
                x_started_at := se_startedAt e; x_started_order := key; x_finished_at := None; x_completion_sequence := None;
                x_verdict := None;
                x_provenance := provenanceColumnValues (fst (provenance e)) ++ provenanceColumnValues (snd (provenance e));
                x_gate_snapshot := None; x_cli_version := version; x_reference_mode := mode |} in
  executions ← insert_row (executions t) (se_id e) row;
  Ok {| executions := executions; repetitions := repetitions t |}.

Definition loadScenarioExecutionRow (t : scenario_tables) (id : ScenarioExecutionID) : res ScenarioExecution :=
  match executions t !! id with
  | None => Err [ErrStoreNotFound]
  | Some row =>
      let sequence := default 0 (x_completion_sequence row) in
      fail_if (bool_decide (is_Some (x_completion_sequence row)) && (sequence <=? 0)) [ErrStoreCorrupt];;
      fail_if ((x_runs row <? 1) || (MaxRepetitions <? x_runs row)) [ErrStoreCorrupt];;
      fail_if (existsb empty_column (x_provenance row)) [ErrStoreCorrupt];;
      fail_if (empty_column (x_cli_version row)) [ErrStoreCorrupt];;
      fail_if (empty_column (x_reference_mode row)) [ErrStoreCorrupt];;
      gate ← (match x_gate_snapshot row with
              | None => Ok no_gate
              | Some text => decodeScenarioGateRecord text (x_runs row)
              end);
      Ok {| se_id := id; scenarioName := x_scenario_name row;
            scope := {| SC_ProjectID := x_project_id row; SC_AgentID := x_agent_id row; SC_Environment := x_environment row |};
            se_runs := x_runs row; se_reference := column_text (x_reference_execution_id row); se_status := x_status row;
            se_startedAt := x_started_at row; se_finishedAt := parseNullTime (x_finished_at row);
            completionSequence := u64 sequence; se_verdict := column_text (x_verdict row); se_repetitions := [];
            provenance := (sideProvenanceFromColumns (take 5 (x_provenance row)), sideProvenanceFromColumns (drop 5 (x_provenance row)));
            gate := gate; cliVersion := column_text (x_cli_version row); referenceMode := column_text (x_reference_mode row) |}
  end.

Definition with_repetitions (e : ScenarioExecution) (l : list ScenarioRepetition) : ScenarioExecution :=
  {| se_id := se_id e; scenarioName := scenarioName e; scope := scope e; se_runs := se_runs e; se_reference := se_reference e;
     se_status := se_status e; se_startedAt := se_startedAt e; se_finishedAt := se_finishedAt e;
     completionSequence := completionSequence e; se_verdict := se_verdict e; se_repetitions := l;
     provenance := provenance e; gate := gate e; cliVersion := cliVersion e; referenceMode := referenceMode e |}.

Definition loadScenarioExecution (t : scenario_tables) (id : ScenarioExecutionID) : res ScenarioExecution :=
  e ← loadScenarioExecutionRow t id;
  restoreScenarioExecution (with_repetitions e (select_repetitions t id)).

(** [SELECT MAX(completion_sequence)] of a project's rows. *)
Definition max_sequence (t : scenario_tables) (project : ProjectID) : option Z :=
  foldr (fun row acc =>
    if x_project_id row =s project then
      match x_completion_sequence row, acc with
      | Some s, Some m => Some (Z.max s m)
      | Some s, None => Some s
      | None, _ => acc
      end
    else acc) None (snd <$> map_to_list (executions t)).

(** The row the UPDATE of a completion leaves. *)
Definition completed_row (row : storedExecution) (at_ : time) (sequence : Z) (verdict : GateVerdict) (snapshot : string) : storedExecution :=
  {| x_scenario_name := x_scenario_name row; x_project_id := x_project_id row; x_agent_id := x_agent_id row;
     x_environment := x_environment row; x_runs := x_runs row; x_reference_execution_id := x_reference_execution_id row;
     x_status := ScenarioExecutionCompleted; x_started_at := x_started_at row; x_started_order := x_started_order row;
     x_finished_at := Some at_; x_completion_sequence := Some (i64 sequence); x_verdict := Some verdict;
     x_provenance := x_provenance row; x_gate_snapshot := Some snapshot; x_cli_version := x_cli_version row;
     x_reference_mode := x_reference_mode row |}.

(** UNIQUE (project_id, completion_sequence). *)
Definition sequence_taken (t : scenario_tables) (id : ScenarioExecutionID) (project : ProjectID) (sequence : Z) : bool :=
  existsb (fun item => (fst item <>s id) && (x_project_id (snd item) =s project) &&
                       bool_decide (x_completion_sequence (snd item) = Some (i64 sequence)))
    (map_to_list (executions t)).

Definition insert_repetition (id : ScenarioExecutionID)
    (m : gmap (ScenarioExecutionID * (ComparisonSide * Z)) (EvaluationRunID * BehavioralProfileRef)) (r : ScenarioRepetition)
    : res (gmap (ScenarioExecutionID * (ComparisonSide * Z)) (EvaluationRunID * BehavioralProfileRef)) :=
  let key := (id, (SR_Side r, i64 (SR_Index r))) in
  fail_if (bool_decide (is_Some (m !! key))) [ErrStoreAlreadyExists];;
  Ok (<[key := (SR_RunID r, SR_BehavioralProfile r)]> m).

Definition completeScenarioExecutionTx {A} (projects : gmap ProjectID A) (t : scenario_tables) (id : ScenarioExecutionID)
    (reps : list ScenarioRepetition) (g : ScenarioGateRecord) (at_ : time) : res (ScenarioExecution * scenario_tables) :=
  current ← loadScenarioExecutionRow t id;
  let project := SC_ProjectID (scope current) in
  lockProject projects project;;
  let last := max_sequence t project in
  fail_if (default 0 last <? 0) [ErrStoreCorrupt];;
  let sequence := u64 (default 0 last + 1) in
  next ← ScenarioExecution_complete current reps g sequence at_;
  let snapshot := encodeScenarioGateRecord (gate next) in
  match executions t !! id with
  | Some row =>
      fail_if (x_status row <>s ScenarioExecutionRunning) [ErrScenarioExecutionState];;
      fail_if (sequence_taken t id (x_project_id row) sequence) [ErrStoreAlreadyExists];;
      reps ← foldM (insert_repetition id) (repetitions t) (se_repetitions next);
      Ok (next, {| executions := <[id := completed_row row at_ sequence (se_verdict next) snapshot]> (executions t); repetitions := reps |})
  | None => Err [ErrScenarioExecutionState]
  end.

Definition failed_row (row : storedExecution) (at_ : time) : storedExecution :=
  {| x_scenario_name := x_scenario_name row; x_project_id := x_project_id row; x_agent_id := x_agent_id row;
     x_environment := x_environment row; x_runs := x_runs row; x_reference_execution_id := x_reference_execution_id row;
     x_status := ScenarioExecutionFailed; x_started_at := x_started_at row; x_started_order := x_started_order row;
     x_finished_at := Some at_; x_completion_sequence := x_completion_sequence row; x_verdict := x_verdict row;
     x_provenance := x_provenance row; x_gate_snapshot := x_gate_snapshot row; x_cli_version := x_cli_version row;
     x_reference_mode := x_reference_mode row |}.

Definition failScenarioExecutionTx (t : scenario_tables) (id : ScenarioExecutionID) (at_ : time)
    : res (ScenarioExecution * scenario_tables) :=
  current ← loadScenarioExecutionRow t id;
  next ← ScenarioExecution_fail current at_;
  if se_status current =s ScenarioExecutionFailed then Ok (current, t)
  else
    match executions t !! id with
    | Some row =>
        fail_if (x_status row <>s ScenarioExecutionRunning) [ErrScenarioExecutionState];;
        Ok (next, {| executions := <[id := failed_row row at_]> (executions t); repetitions := repetitions t |})
    | None => Err [ErrScenarioExecutionState]
    end.

(** [ORDER BY completion_sequence DESC, id DESC LIMIT 1]: NULL is the least sequence. *)
Definition later (a b : ScenarioExecutionID * storedExecution) : bool :=
  let seq (x : ScenarioExecutionID * storedExecution) := default (min_i64 - 1) (x_completion_sequence (snd x)) in
  (seq b <? seq a) || ((seq a =? seq b) && bool_decide (String.le (fst b) (fst a) /\ fst a <> fst b)).
Definition in_scope (name : string) (scope : ScenarioScope) (row : storedExecution) : bool :=
  (x_project_id row =s SC_ProjectID scope) && (x_scenario_name row =s name) && (x_agent_id row =s SC_AgentID scope) &&
  (x_environment row =s SC_Environment scope) && (x_status row =s ScenarioExecutionCompleted).
Definition latestCompletedScenarioExecutionID (t : scenario_tables) (name : string) (scope : ScenarioScope) : res ScenarioExecutionID :=
  match foldr (fun x best => if in_scope name scope (snd x) then
                 match best with Some b => if later x b then Some x else Some b | None => Some x end else best)
          None (map_to_list (executions t)) with
  | Some (id, _) => Ok id
  | None => Err [ErrStoreNotFound]
  end.

(** What the executions that ran some runs recorded of them: [SELECT DISTINCT] of each association's
    own side's columns. *)
Definition maxRunProvenanceRows : Z := 4 * MaxRepetitions.
Definition provenance_rows (t : scenario_tables) (ids : list EvaluationRunID) : list (EvaluationRunID * list (option string)) :=
  sort_by fst (remove_dups (omap (fun item =>
    let '((execution, (side, _)), (run, _)) := item in
    if bool_decide (run ∈ ids) then
      (fun row => (run, if side =s SideReference then take 5 (x_provenance row) else drop 5 (x_provenance row))) <$> executions t !! execution
    else None) (map_to_list (repetitions t)))).
Definition read_provenance (out : gmap EvaluationRunID (list SideProvenance)) (row : EvaluationRunID * list (option string))
    : res (gmap EvaluationRunID (list SideProvenance)) :=
  let '(run, columns) := row in
  fail_if (existsb empty_column columns) [ErrStoreCorrupt];;
  let p := sideProvenanceFromColumns columns in
  map_err (fun _ => [ErrStoreCorrupt]) (SideProvenance_validate p);;
  Ok (<[run := (default [] (out !! run) ++ [p])%list]> out).
Definition loadRunProvenance (t : scenario_tables) (ids : list EvaluationRunID)
    : res (option (gmap EvaluationRunID (list SideProvenance))) :=
  let rows := provenance_rows t ids in
  out ← foldM read_provenance ∅ (take (Z.to_nat maxRunProvenanceRows) rows);
  if maxRunProvenanceRows <? Z.of_nat (length rows) then Ok None else Ok (Some out).

(** The listing of a project's executions, newest first (scenario_execution_list.go). *)
Record ScenarioExecutionFilter : Type := {
  SF_ProjectID : ProjectID;
  SF_AgentID : AgentID;
  SF_Environment : EnvironmentRef;
  SF_ScenarioName : string;
}.
Definition ScenarioExecutionFilter_validate (f : ScenarioExecutionFilter) : res unit :=
  validateID (SF_ProjectID f);;
  (if SF_AgentID f <>s "" then validateID (SF_AgentID f) else Ok tt);;
  (if SF_Environment f <>s "" then validateID (SF_Environment f) else Ok tt);;
  (if SF_ScenarioName f <>s "" then validateID (SF_ScenarioName f) else Ok tt).
Record RecentScenarioExecution : Type := { RS_Execution : ScenarioExecution; RS_Key : string }.

Definition listed_by (f : ScenarioExecutionFilter) (row : storedExecution) : bool :=
  (x_project_id row =s SF_ProjectID f) &&
  ((SF_AgentID f =s "") || (x_agent_id row =s SF_AgentID f)) &&
  ((SF_Environment f =s "") || (x_environment row =s SF_Environment f)) &&
  ((SF_ScenarioName f =s "") || (x_scenario_name row =s SF_ScenarioName f)).
Definition list_row (item : ScenarioExecutionID * storedExecution) : res RecentScenarioExecution :=
  let '(id, row) := item in
  fail_if (negb (validRecencyKey (x_started_order row))) [ErrStoreCorrupt];;
  fail_if ((x_runs row <? 1) || (MaxRepetitions <? x_runs row) || negb (ScenarioExecutionStatus_valid (x_status row))) [ErrStoreCorrupt];;
  let sequence := default 0 (x_completion_sequence row) in
  fail_if (bool_decide (is_Some (x_completion_sequence row)) && (sequence <=? 0)) [ErrStoreCorrupt];;
  Ok {| RS_Execution :=
          {| se_id := id; scenarioName := x_scenario_name row;
             scope := {| SC_ProjectID := x_project_id row; SC_AgentID := x_agent_id row; SC_Environment := x_environment row |};
             se_runs := x_runs row; se_reference := column_text (x_reference_execution_id row); se_status := x_status row;
             se_startedAt := x_started_at row; se_finishedAt := parseNullTime (x_finished_at row);
             completionSequence := u64 sequence; se_verdict := column_text (x_verdict row); se_repetitions := [];
             provenance := (no_provenance, no_provenance); gate := no_gate; cliVersion := ""; referenceMode := "" |};
        RS_Key := x_started_order row |}.
Definition listed (t : scenario_tables) (f : ScenarioExecutionFilter) : list (ScenarioExecutionID * storedExecution) :=
  List.filter (fun item => listed_by f (snd item)) (map_to_list (executions t)).
Definition queryRecentScenarioExecutions (t : scenario_tables) (f : ScenarioExecutionFilter) (after : RecencyCursor) (limit : Z)
    : res (list RecentScenarioExecution) :=
  mapM list_row (recent_page (fun item => x_started_order (snd item)) fst (listed t f) after limit).

(** ** The store's operations: one transaction each *)
Definition Store_CreateScenarioExecution (t : scenario_tables) (e : ScenarioExecution) : res scenario_tables :=
  insertScenarioExecution t e.
Definition Store_ScenarioExecution (t : scenario_tables) (id : ScenarioExecutionID) : res ScenarioExecution :=
  fail_if (id =s "") [ErrInvalidID];; loadScenarioExecution t id.
Definition Store_CompleteScenarioExecution {A} (projects : gmap ProjectID A) (t : scenario_tables) (id : ScenarioExecutionID)
    (reps : list ScenarioRepetition) (g : ScenarioGateRecord) (at_ : time) : res (ScenarioExecution * scenario_tables) :=
  fail_if (id =s "") [ErrInvalidID];; completeScenarioExecutionTx projects t id reps g at_.
Definition Store_FailScenarioExecution (t : scenario_tables) (id : ScenarioExecutionID) (at_ : time)
    : res (ScenarioExecution * scenario_tables) :=
  fail_if (id =s "") [ErrInvalidID];; failScenarioExecutionTx t id at_.
Definition Store_LatestCompletedScenarioExecution (t : scenario_tables) (name : string) (scope : ScenarioScope) : res ScenarioExecution :=
  id ← latestCompletedScenarioExecutionID t name scope;
  loadScenarioExecution t id.
End store.

(** ** What the store promises

    A map of executions and the log of completions: a completion takes the next number of its
    project, and the latest execution of a scope is the last of the log in that scope. *)
Record scenario_spec : Type := { sp_executions : gmap ScenarioExecutionID ScenarioExecution; sp_log : list ScenarioExecutionID }.
Definition no_spec : scenario_spec := {| sp_executions := ∅; sp_log := [] |}.

Definition log_where (s : scenario_spec) (f : ScenarioExecution -> bool) : list ScenarioExecutionID :=
  List.filter (fun id => match sp_executions s !! id with Some e => f e | None => false end) (sp_log s).
Definition of_project (project : ProjectID) (e : ScenarioExecution) : bool := SC_ProjectID (scope e) =s project.
Definition of_scope (name : string) (sc : ScenarioScope) (e : ScenarioExecution) : bool :=
  (scenarioName e =s name) && bool_decide (scope e = sc).

Definition spec_create (s : scenario_spec) (e : ScenarioExecution) : res scenario_spec :=
  fail_if (se_status e <>s ScenarioExecutionRunning) [ErrScenarioExecutionState];;
  ScenarioExecution_validate e;;
  _ ← recencyKey (se_startedAt e);
  fail_if (bool_decide (is_Some (sp_executions s !! se_id e))) [ErrStoreAlreadyExists];;
  Ok {| sp_executions := <[se_id e := e]> (sp_executions s); sp_log := sp_log s |}.
Definition spec_load (s : scenario_spec) (id : ScenarioExecutionID) : res ScenarioExecution :=
  match sp_executions s !! id with Some e => Ok e | None => Err [ErrStoreNotFound] end.
Definition spec_complete {A} (projects : gmap ProjectID A) (s : scenario_spec) (id : ScenarioExecutionID) (reps : list ScenarioRepetition)
    (g : ScenarioGateRecord) (at_ : time) : res (ScenarioExecution * scenario_spec) :=
  e ← spec_load s id;
  let project := SC_ProjectID (scope e) in
  lockProject projects project;;
  next ← ScenarioExecution_complete e reps g (Z.of_nat (length (log_where s (of_project project))) + 1) at_;
  Ok (next, {| sp_executions := <[id := next]> (sp_executions s); sp_log := sp_log s ++ [id] |}).
Definition spec_fail (s : scenario_spec) (id : ScenarioExecutionID) (at_ : time) : res (ScenarioExecution * scenario_spec) :=
  e ← spec_load s id;
  next ← ScenarioExecution_fail e at_;
  Ok (next, {| sp_executions := <[id := next]> (sp_executions s); sp_log := sp_log s |}).
Definition spec_latest (s : scenario_spec) (name : string) (sc : ScenarioScope) : res ScenarioExecution :=
  match last (log_where s (of_scope name sc)) with Some id => spec_load s id | None => Err [ErrStoreNotFound] end.

(** ** Validated associations *)
Definition place (runs i : Z) : ComparisonSide * Z := if runs <=? i then (SideCandidate, i - runs + 1) else (SideReference, i + 1).
Definition key_of (r : ScenarioRepetition) : ComparisonSide * Z := (SR_Side r, SR_Index r).

Lemma validate_repetition_inv runs i ids ps r acc : validate_repetition runs (i, ids, ps) r = Ok acc ->
  key_of r = place runs i /\ validateID (SR_RunID r) = Ok tt /\ validateID (SR_BehavioralProfile r) = Ok tt /\
  SR_RunID r ∉ ids /\ SR_BehavioralProfile r ∉ ps /\
  acc = (i + 1, {[SR_RunID r]} ∪ ids, {[SR_BehavioralProfile r]} ∪ ps).
Proof.
  unfold validate_repetition, key_of, place. destruct (if runs <=? i then _ else _) as [side index].
  rewrite !bind_unit_iff, !fail_if_iff, !orb_false_iff, !negb_false_iff, !bool_decide_eq_false, String.eqb_eq, Z.eqb_eq.
  intros ([-> ->] & H2 & H3 & [H4 H5] & [= <-]). done.
Qed.

Lemma validate_repetitions_from runs l : forall i ids ps acc, foldM (validate_repetition runs) (i, ids, ps) l = Ok acc ->
  (forall n r, l !! n = Some r -> key_of r = place runs (i + Z.of_nat n)) /\
  NoDup (SR_RunID <$> l) /\ NoDup (SR_BehavioralProfile <$> l) /\
  Forall (fun r => validateID (SR_RunID r) = Ok tt /\ validateID (SR_BehavioralProfile r) = Ok tt /\
                   SR_RunID r ∉ ids /\ SR_BehavioralProfile r ∉ ps) l.
Proof.
  induction l as [|r l IH]; intros i ids ps acc H; [split_and!; [done|constructor|constructor|constructor]|].
  cbn [foldM] in H. apply bind_Ok in H as (acc' & H1 & H2).
  apply validate_repetition_inv in H1 as (K & V1 & V2 & N1 & N2 & ->). apply IH in H2 as (H & D1 & D2 & F).
  rewrite Forall_forall in F. split_and!.
  - intros [|n] x E; cbn in E; [injection E as <-; by rewrite Z.add_0_r|]. rewrite (H n x E). f_equal. lia.
  - rewrite fmap_cons. constructor; [|done]. intros (x & E & Hx)%list_elem_of_fmap. destruct (F x Hx) as (_ & _ & Hn & _). set_solver.
  - rewrite fmap_cons. constructor; [|done]. intros (x & E & Hx)%list_elem_of_fmap. destruct (F x Hx) as (_ & _ & _ & Hn). set_solver.
  - constructor; [done|]. apply Forall_forall. intros x Hx. destruct (F x Hx) as (? & ? & ? & ?). set_solver.
Qed.

Record repetitions_ok (l : list ScenarioRepetition) (runs : Z) : Prop := {
  rl_length : Z.of_nat (length l) = 2 * runs;
  rl_place : forall n r, l !! n = Some r -> key_of r = place runs (Z.of_nat n);
  rl_runs : NoDup (SR_RunID <$> l);
  rl_profiles : NoDup (SR_BehavioralProfile <$> l);
  rl_ids : Forall (fun r => validateID (SR_RunID r) = Ok tt /\ validateID (SR_BehavioralProfile r) = Ok tt) l;
}.
Lemma validateScenarioRepetitions_ok l runs : validateScenarioRepetitions l runs = Ok tt -> repetitions_ok l runs.
Proof.
  unfold validateScenarioRepetitions. rewrite bind_unit_iff, fail_if_iff, negb_false_iff, Z.eqb_eq.
  intros [L H]. apply bind_Ok in H as (acc & H & _). apply validate_repetitions_from in H as (P & D1 & D2 & F).
  split; [done| |done|done|].
  - intros n r E. by rewrite (P n r E).
  - eapply Forall_impl; [exact F|]. naive_solver.
Qed.

#[export] Instance repetition_le_total : base.Total repetition_le.
Proof. intros a b. unfold repetition_le. destruct (SR_Side a =s SideReference), (SR_Side b =s SideReference); lia. Qed.
#[export] Instance repetition_le_trans : Transitive repetition_le.
Proof.
  intros a b c. unfold repetition_le. destruct (SR_Side a =s SideReference), (SR_Side b =s SideReference), (SR_Side c =s SideReference); lia.
Qed.

Lemma place_inj runs i j : place runs i = place runs j -> i = j.
Proof. unfold place. destruct (Z.leb_spec runs i), (Z.leb_spec runs j); intros [=]; lia. Qed.
Lemma place_mono runs n m r r' : (n < m)%nat -> key_of r = place runs (Z.of_nat n) -> key_of r' = place runs (Z.of_nat m) -> repetition_le r r'.
Proof.
  unfold key_of, place, repetition_le. intros L. destruct (Z.leb_spec runs (Z.of_nat n)), (Z.leb_spec runs (Z.of_nat m)); intros [= -> ->] [= -> ->]; cbn; lia.
Qed.

Section ok.
Context l runs (H : repetitions_ok l runs).
Lemma repetitions_keys : NoDup (key_of <$> l).
Proof.
  apply NoDup_alt. intros i j k E1 E2. rewrite !list_lookup_fmap in *.
  destruct (l !! i) as [r1|] eqn:L1; [|done]. destruct (l !! j) as [r2|] eqn:L2; [|done]. injection E1 as E1. injection E2 as E2.
  rewrite (rl_place _ _ H _ _ L1) in E1. rewrite (rl_place _ _ H _ _ L2) in E2. apply Nat2Z.inj, (place_inj runs). congruence.
Qed.
Lemma repetitions_sorted : StronglySorted repetition_le l.
Proof.
  assert (G : forall k l', (forall n r, l' !! n = Some r -> key_of r = place runs (Z.of_nat (k + n))) -> StronglySorted repetition_le l').
  { intros k l'. revert k. induction l' as [|r l' IH]; intros k P; constructor.
    - apply (IH (S k)). intros n x E. rewrite (P (S n) x E). f_equal. lia.
    - apply Forall_forall. intros x Hx. apply list_elem_of_lookup in Hx as [n E].
      apply (place_mono runs (k + 0) (k + S n)); [lia|by apply P|by apply P]. }
  apply (G 0%nat). apply (rl_place _ _ H).
Qed.
Lemma repetitions_key_inj r r' : r ∈ l -> r' ∈ l -> key_of r = key_of r' -> r = r'.
Proof.
  intros [n L1]%list_elem_of_lookup [m L2]%list_elem_of_lookup E.
  rewrite (rl_place _ _ H _ _ L1), (rl_place _ _ H _ _ L2) in E. apply place_inj, Nat2Z.inj in E. congruence.
Qed.
Lemma repetitions_antisym r r' : r ∈ l -> r' ∈ l -> repetition_le r r' -> repetition_le r' r -> r = r'.
Proof.
  intros Hr Hr' L1 L2. apply repetitions_key_inj; [done|done|].
  apply list_elem_of_lookup in Hr as [n Hr], Hr' as [m Hr']. pose proof (rl_place _ _ H _ _ Hr) as P1. pose proof (rl_place _ _ H _ _ Hr') as P2.
  unfold repetition_le in L1, L2. unfold key_of, place in *.
  destruct (runs <=? Z.of_nat n), (runs <=? Z.of_nat m); injection P1 as P1 Q1; injection P2 as P2 Q2; rewrite P1, P2, Q1, Q2 in *; cbn in L1, L2; f_equal; lia.
Qed.
End ok.

(** ** The associations table *)
Notation repetition_table := (gmap (ScenarioExecutionID * (ComparisonSide * Z)) (EvaluationRunID * BehavioralProfileRef)).
Definition value_of (r : ScenarioRepetition) : EvaluationRunID * BehavioralProfileRef := (SR_RunID r, SR_BehavioralProfile r).
Lemma repetition_eq r r' : key_of r = key_of r' -> value_of r = value_of r' -> r = r'.
Proof. destruct r, r'. unfold key_of, value_of. cbn. by intros [= -> ->] [= -> ->]. Qed.
Lemma repetition_of_fields id k v r : repetition_of (id, k, v) = r <-> key_of r = k /\ value_of r = v.
Proof. destruct k as [side index], v as [run profile], r. unfold key_of, value_of. cbn. naive_solver. Qed.

Lemma insert_repetition_fresh (id : ScenarioExecutionID) (m : repetition_table) r : is_i64 (SR_Index r) -> m !! (id, key_of r) = None ->
  insert_repetition id m r = Ok (<[(id, key_of r) := value_of r]> m).
Proof.
  intros R F. unfold insert_repetition. rewrite i64_small by done. fold (key_of r). rewrite F.
  by rewrite bool_decide_eq_false_2 by (by intros []).
Qed.
Lemma insert_repetitions (id : ScenarioExecutionID) l : forall m : repetition_table,
  NoDup (key_of <$> l) -> Forall (fun r => is_i64 (SR_Index r) /\ m !! (id, key_of r) = None) l ->
  exists m', foldM (insert_repetition id) m l = Ok m' /\
    forall id' k v, m' !! (id', k) = Some v <->
      m !! (id', k) = Some v \/ (id' = id /\ exists r, r ∈ l /\ key_of r = k /\ value_of r = v).
Proof.
  induction l as [|r l IH]; intros m N F.
  - exists m. split; [done|]. intros id' k v. split; [by left|]. intros [?|(_ & r & Hr & _)]; [done|]. set_solver.
  - rewrite fmap_cons in N. apply NoDup_cons in N as [Nr N]. apply Forall_cons in F as [[Ri Fr] F].
    cbn [foldM]. rewrite insert_repetition_fresh by done. cbn [mbind res_bind].
    destruct (IH (<[(id, key_of r) := value_of r]> m) N) as (m' & E & L).
    { rewrite Forall_forall in F |- *. intros x Hx. destruct (F x Hx) as [? Fx]. split; [done|].
      rewrite lookup_insert_ne; [done|]. intros Ek%(f_equal snd). cbn [snd] in Ek. apply Nr. rewrite Ek. by apply list_elem_of_fmap_2. }
    exists m'. split; [exact E|]. intros id' k v. rewrite L, lookup_insert_Some. split.
    + intros [[[Ek <-]|[_ ?]]|(-> & x & ? & ? & ?)]; [right|by left|right].
      * apply pair_equal_spec in Ek as [<- <-]. split; [done|]. exists r. split; [left|done].
      * split; [done|]. exists x. split; [by right|done].
    + intros [E'|(-> & x & [->|Hx]%elem_of_cons & <- & <-)].
      * left. right. split; [|done]. intros Ek. congruence.
      * left. by left.
      * right. eauto.
Qed.

(** What is selected is what was inserted, in order. *)
Lemma select_back t id l : (forall k v, repetitions t !! (id, k) = Some v <-> exists r, r ∈ l /\ key_of r = k /\ value_of r = v) ->
  StronglySorted repetition_le l -> NoDup (key_of <$> l) ->
  (forall r r', r ∈ l -> r' ∈ l -> repetition_le r r' -> repetition_le r' r -> r = r') ->
  Z.of_nat (length l) <= 2 * MaxRepetitions -> select_repetitions t id = l.
Proof.
  intros M S N A L. unfold select_repetitions. set (sel := repetition_of <$> _).
  assert (P : sel ≡ₚ l).
  { apply NoDup_Permutation.
    - unfold sel. apply NoDup_fmap_2_strong.
      + intros [[i1 k1] v1] [[i2 k2] v2] H1 H2 E. apply list_elem_of_In, filter_In in H1 as [_ H1], H2 as [_ H2].
        cbn [fst] in H1, H2. apply String.eqb_eq in H1 as ->, H2 as ->.
        destruct (proj1 (repetition_of_fields id k1 v1 _) E) as [<- <-]. by destruct (proj1 (repetition_of_fields id k2 v2 _) eq_refl) as [<- <-].
      + apply NoDup_ListNoDup, List.NoDup_filter, NoDup_ListNoDup, NoDup_map_to_list.
    - by apply NoDup_fmap_1 in N.
    - intros r. unfold sel. rewrite list_elem_of_fmap. split.
      + intros ([[i k] v] & E & H). apply list_elem_of_In, filter_In in H as [H Hi]. cbn [fst] in Hi. apply String.eqb_eq in Hi as ->.
        apply list_elem_of_In, elem_of_map_to_list, M in H as (r' & Hr' & <- & <-).
        symmetry in E. apply repetition_of_fields in E as [E1 E2]. by rewrite (repetition_eq r r').
      + intros Hr. exists (id, key_of r, value_of r). split; [symmetry; by apply repetition_of_fields|].
        apply list_elem_of_In, filter_In. split; [|cbn; apply String.eqb_refl].
        apply list_elem_of_In, elem_of_map_to_list, M. eauto. }
  rewrite take_ge.
  - apply (StronglySorted_unique_strong repetition_le); [|apply (StronglySorted_merge_sort _)|done|by rewrite merge_sort_Permutation].
    intros r r' H1 H2. apply A; [|done]. rewrite merge_sort_Permutation, P in H1. done.
  - rewrite merge_sort_Permutation, P. unfold MaxRepetitions in *. lia.
Qed.

(** ** Valid executions *)
Definition blank_completion (e : ScenarioExecution) : Prop :=
  completionSequence e = 0 /\ se_verdict e = "" /\ se_repetitions e = [] /\ recorded (gate e) = false.
Inductive execution_state (e : ScenarioExecution) : Prop :=
| state_running : se_status e = ScenarioExecutionRunning -> time_is_zero (se_finishedAt e) = true -> blank_completion e -> execution_state e
| state_failed : se_status e = ScenarioExecutionFailed -> time_is_zero (se_finishedAt e) = false -> blank_completion e -> execution_state e
| state_completed : se_status e = ScenarioExecutionCompleted -> time_is_zero (se_finishedAt e) = false -> completionSequence e <> 0 ->
    se_verdict e <> "" -> (recorded (gate e) = true -> ScenarioGateRecord_validate (gate e) (se_runs e) = Ok tt /\
                           se_verdict e = rg_verdict (sg_gate (gate e))) ->
    repetitions_ok (se_repetitions e) (se_runs e) -> execution_state e.

Record execution_valid (e : ScenarioExecution) : Prop := {
  ev_id : validateID (se_id e) = Ok tt;
  ev_runs : 1 <= se_runs e <= MaxRepetitions;
  ev_reference : SideProvenance_validate (fst (provenance e)) = Ok tt;
  ev_candidate : SideProvenance_validate (snd (provenance e)) = Ok tt;
  ev_state : execution_state e;
}.

Lemma length_zero {A} (l : list A) : (length l =? 0)%nat = true -> l = [].
Proof. by destruct l. Qed.
Lemma validate_state_inv e : ScenarioExecutionStatus_valid (se_status e) = true -> validate_state e = Ok tt -> execution_state e.
Proof.
  intros Hs. unfold ScenarioExecutionStatus_valid in Hs. unfold validate_state.
  rewrite !bind_unit_iff, !fail_if_iff, negb_false_iff. intros (Hf & _ & H). apply eqb_prop in Hf.
  destruct (String.eqb_spec (se_status e) ScenarioExecutionRunning) as [E|E]; [|destruct (String.eqb_spec (se_status e) ScenarioExecutionCompleted) as [E'|E']].
  - rewrite E in H. cbn in H. apply fail_if_Ok in H. bool_prop. apply state_running; [done|done|]. unfold blank_completion. auto using length_zero.
  - cbn [negb] in H. rewrite !bind_unit_iff, !fail_if_iff in H. destruct H as (H1 & H2 & H3 & H4).
    apply state_completed; [done|done|by apply Z.eqb_neq| | |by apply validateScenarioRepetitions_ok].
    + intros Ev. rewrite Ev in H2. done.
    + intros Er. rewrite Er, bind_unit_iff, fail_if_iff, negb_false_iff, String.eqb_eq in H3. by destruct H3.
  - cbn [negb orb] in Hs, H. apply fail_if_Ok in H. bool_prop. apply state_failed; [done|done|]. unfold blank_completion. auto using length_zero.
Qed.

Lemma execution_validate_inv e : ScenarioExecution_validate e = Ok tt -> execution_valid e.
Proof.
  unfold ScenarioExecution_validate. rewrite !bind_unit_iff, !fail_if_iff. intros (H1 & _ & _ & H4 & _ & H6 & _ & H8 & H9 & _ & H11).
  apply orb_false_iff in H4 as [?%Z.ltb_ge ?%Z.ltb_ge]. split; [done|lia|done|done|]. apply validate_state_inv; [by apply negb_false_iff|done].
Qed.

(** A gate record as its constructor makes it, its counters 64-bit words. *)
Definition gate_made (g : ScenarioGateRecord) : Prop :=
  record_range g /\ exists runs limits checks frequency v, NewScenarioGateRecord runs limits checks frequency v = Ok g.
Lemma gate_made_at g runs : gate_made g -> ScenarioGateRecord_validate g runs = Ok tt ->
  NewScenarioGateRecord runs (sg_limits g) (rg_checks (sg_gate g)) (rg_frequency (sg_gate g)) (rg_verdict (sg_gate g)) = Ok g.
Proof.
  intros (_ & n & l & c & f & v & H) Hv. destruct (new_record_inv _ _ _ _ _ _ H) as (Hr & Hb & L1 & L2 & _).
  unfold NewScenarioGateRecord. rewrite L1, L2. cbn [Nat.eqb negb orb fail_if mbind res_bind].
  assert (E : {| recorded := true; sg_limits := sg_limits g; sg_gate := {| rg_bound := true; rg_checks := rg_checks (sg_gate g);
    rg_verdict := rg_verdict (sg_gate g); rg_frequency := rg_frequency (sg_gate g) |} |} = g).
  { destruct g as [r ls [b cs vv fs]]. cbn in *. by rewrite Hr, Hb. }
  rewrite E, Hv. done.
Qed.

(** What the store holds an execution to. *)
Record execution_ok (e : ScenarioExecution) : Prop := {
  eo_valid : ScenarioExecution_validate e = Ok tt;
  eo_finished : time_is_zero (se_finishedAt e) = true -> se_finishedAt e = zero_time;
  eo_unrecorded : recorded (gate e) = false -> gate e = no_gate;
  eo_recorded : recorded (gate e) = true -> gate_made (gate e);
  eo_started : keyed_time (se_startedAt e);
  eo_sequence : 0 <= completionSequence e <= max_i64;
}.

Section rows.
Context `{json : GateJSON}.

Definition started_key (e : ScenarioExecution) : string := match recencyKey (se_startedAt e) with Ok k => k | Err _ => "" end.
Definition execution_row (e : ScenarioExecution) : storedExecution :=
  {| x_scenario_name := scenarioName e; x_project_id := SC_ProjectID (scope e); x_agent_id := SC_AgentID (scope e);
     x_environment := SC_Environment (scope e); x_runs := se_runs e; x_reference_execution_id := null_text (se_reference e);
     x_status := se_status e; x_started_at := se_startedAt e; x_started_order := started_key e; x_finished_at := nullTime (se_finishedAt e);
     x_completion_sequence := if completionSequence e =? 0 then None else Some (completionSequence e); x_verdict := null_text (se_verdict e);
     x_provenance := provenanceColumnValues (fst (provenance e)) ++ provenanceColumnValues (snd (provenance e));
     x_gate_snapshot := if recorded (gate e) then Some (encodeScenarioGateRecord (gate e)) else None;
     x_cli_version := null_text (cliVersion e); x_reference_mode := null_text (referenceMode e) |}.

Lemma load_gate e : execution_ok e ->
  (match (if recorded (gate e) then Some (encodeScenarioGateRecord (gate e)) else None) with
   | None => Ok no_gate | Some text => decodeScenarioGateRecord text (se_runs e) end) = Ok (gate e).
Proof.
  intros H. destruct (recorded (gate e)) eqn:E; [|by rewrite (eo_unrecorded _ H E)].
  pose proof (eo_recorded _ H E) as G. destruct (ev_state _ (execution_validate_inv _ (eo_valid _ H))) as [_ _ (_ & _ & _ & B)|_ _ (_ & _ & _ & B)|_ _ _ _ V _]; [congruence|congruence|].
  destruct (V E) as [Hv _]. eapply gate_decode_encode; [by apply gate_made_at|]. apply G.
Qed.

Lemma load_row t e : executions t !! se_id e = Some (execution_row e) -> execution_ok e ->
  loadScenarioExecutionRow t (se_id e) = Ok (with_repetitions e []).
Proof.
  intros L H. pose proof (execution_validate_inv _ (eo_valid _ H)) as V. unfold loadScenarioExecutionRow. rewrite L.
  unfold execution_row. cbn [x_completion_sequence x_runs x_provenance x_cli_version x_reference_mode x_gate_snapshot x_scenario_name x_project_id
    x_agent_id x_environment x_reference_execution_id x_status x_started_at x_finished_at x_verdict].
  pose proof (ev_runs _ V) as R. pose proof (eo_sequence _ H) as Q.
  assert (S1 : default 0 (if completionSequence e =? 0 then None else Some (completionSequence e)) = completionSequence e).
  { destruct (Z.eqb_spec (completionSequence e) 0); cbn; lia. }
  assert (S2 : bool_decide (is_Some (if completionSequence e =? 0 then None else Some (completionSequence e))) && (completionSequence e <=? 0) = false).
  { destruct (Z.eqb_spec (completionSequence e) 0); [by rewrite bool_decide_eq_false_2 by (by intros [])|]. apply andb_false_iff. right. lia. }
  rewrite S1, S2. cbn [fail_if mbind res_bind]. rewrite (proj2 (Z.ltb_ge _ _)), (proj2 (Z.ltb_ge _ _)) by lia. cbn [orb fail_if mbind res_bind].
  destruct (columns_back _ (ev_reference _ V)) as [P1 N1], (columns_back _ (ev_candidate _ V)) as [P2 N2].
  rewrite existsb_app. assert (X : forall l, Forall (fun c => empty_column c = false) l -> existsb empty_column l = false).
  { induction 1 as [|c l Hc _ IH]; [done|]. cbn. by rewrite Hc, IH. }
  rewrite !X by done. rewrite !(proj2 (null_text_back _)). cbn [orb fail_if mbind res_bind]. rewrite load_gate by done. cbn [mbind res_bind].
  unfold mret, res_ret. f_equal. rewrite !(proj1 (null_text_back _)).
  change (take 5 _) with (provenanceColumnValues (fst (provenance e))). change (drop 5 _) with (provenanceColumnValues (snd (provenance e))).
  rewrite P1, P2. rewrite null_roundtrip by apply H. rewrite u64_small by ulia. unfold with_repetitions. destruct e as [? ? [] ? ? ? ? ? ? ? ? [] ? ? ?]. done.
Qed.
End rows.

(** ** Steps of an execution *)
Inductive begun : ScenarioExecution -> Prop :=
| begun_new id name sc runs reference at_ e : NewScenarioExecution id name sc runs reference at_ = Ok e -> begun e
| begun_provenance e reference candidate e' : begun e -> withProvenance e reference candidate = Ok e' -> begun e'
| begun_producer e version mode e' : begun e -> withProducer e version mode = Ok e' -> begun e'.

Lemma begun_blank e : begun e -> ScenarioExecution_validate e = Ok tt /\ se_status e = ScenarioExecutionRunning /\
  se_finishedAt e = zero_time /\ blank_completion e /\ gate e = no_gate.
Proof.
  induction 1 as [id name sc runs reference at_ e H|e r c e' _ IH H|e v m e' _ IH H].
  - unfold NewScenarioExecution in H. apply bind_unit_iff in H as [V [= <-]]. split; [exact V|done].
  - unfold withProvenance in H. apply bind_unit_iff in H as [V [= <-]]. split; [exact V|]. by destruct IH as [_ IH].
  - unfold withProducer in H. apply bind_unit_iff in H as [V [= <-]]. split; [exact V|]. by destruct IH as [_ IH].
Qed.

Lemma complete_inv e reps g n at_ next : ScenarioExecution_complete e reps g n at_ = Ok next ->
  se_status e = ScenarioExecutionRunning /\ recorded g = true /\ ScenarioExecution_validate next = Ok tt /\
  se_id next = se_id e /\ scenarioName next = scenarioName e /\ scope next = scope e /\ se_runs next = se_runs e /\
  se_reference next = se_reference e /\ se_startedAt next = se_startedAt e /\ provenance next = provenance e /\
  cliVersion next = cliVersion e /\ referenceMode next = referenceMode e /\
  se_status next = ScenarioExecutionCompleted /\ se_finishedAt next = at_ /\ completionSequence next = n /\
  se_verdict next = rg_verdict (sg_gate g) /\ se_repetitions next = reps /\ gate next = g.
Proof.
  unfold ScenarioExecution_complete. rewrite !bind_unit_iff, !fail_if_iff, !negb_false_iff, String.eqb_eq.
  intros (H1 & H2 & H3 & [= <-]). by split_and!.
Qed.
Lemma fail_inv e at_ next : ScenarioExecution_fail e at_ = Ok next ->
  (se_status e = ScenarioExecutionFailed /\ next = e) \/
  (se_status e <> ScenarioExecutionFailed /\ se_status e <> ScenarioExecutionCompleted /\ ScenarioExecution_validate next = Ok tt /\
   se_id next = se_id e /\ scenarioName next = scenarioName e /\ scope next = scope e /\ se_runs next = se_runs e /\
   se_reference next = se_reference e /\ se_startedAt next = se_startedAt e /\ provenance next = provenance e /\
   cliVersion next = cliVersion e /\ referenceMode next = referenceMode e /\
   se_status next = ScenarioExecutionFailed /\ se_finishedAt next = at_ /\ completionSequence next = completionSequence e /\
   se_verdict next = se_verdict e /\ se_repetitions next = se_repetitions e /\ gate next = gate e).
Proof.
  unfold ScenarioExecution_fail. destruct (String.eqb_spec (se_status e) ScenarioExecutionFailed) as [E|E]; [intros [= <-]; by left|].
  destruct (String.eqb_spec (se_status e) ScenarioExecutionCompleted) as [E'|E']; [done|].
  rewrite bind_unit_iff. intros (H & [= <-]). right. by split_and!.
Qed.

Lemma running_blank e : ScenarioExecution_validate e = Ok tt -> se_status e <> ScenarioExecutionCompleted -> blank_completion e.
Proof. intros V N. by destruct (ev_state _ (execution_validate_inv _ V)). Qed.
Lemma completed_fields e : ScenarioExecution_validate e = Ok tt -> se_status e = ScenarioExecutionCompleted ->
  time_is_zero (se_finishedAt e) = false /\ completionSequence e <> 0 /\ se_verdict e <> "" /\ repetitions_ok (se_repetitions e) (se_runs e).
Proof.
  intros V E. destruct (ev_state _ (execution_validate_inv _ V)) as [E' _ _|E' _ _|_ ? ? ? _ ?]; [by rewrite E in E'|by rewrite E in E'|done].
Qed.
Lemma failed_fields e : ScenarioExecution_validate e = Ok tt -> se_status e = ScenarioExecutionFailed -> time_is_zero (se_finishedAt e) = false.
Proof. intros V E. destruct (ev_state _ (execution_validate_inv _ V)) as [E' _ _|? ? _|E' _ _ _ _ _]; [by rewrite E in E'|done|by rewrite E in E']. Qed.

(** Outcomes that agree: the same error, or related results. *)
Inductive agree {A B} (R : A -> B -> Prop) : res A -> res B -> Prop :=
| agree_Ok a b : R a b -> agree R (Ok a) (Ok b)
| agree_Err e : agree R (Err e) (Err e).

Lemma agree_inv {A B} (R : A -> B -> Prop) m b : agree R m (Ok b) -> exists a, m = Ok a /\ R a b.
Proof. inversion 1. eauto. Qed.
Lemma agree_inv_l {A B} (R : A -> B -> Prop) a m : agree R (Ok a) m -> exists b, m = Ok b /\ R a b.
Proof. inversion 1. eauto. Qed.

(** ** The tables implement the specification *)
Section refinement.
Context `{json : GateJSON}.

Record implements (t : scenario_tables) (s : scenario_spec) : Prop := {
  im_rows : forall id, executions t !! id = execution_row <$> sp_executions s !! id;
  im_reps : forall id k v, repetitions t !! (id, k) = Some v <->
              exists e r, sp_executions s !! id = Some e /\ r ∈ se_repetitions e /\ key_of r = k /\ value_of r = v;
  im_ok : forall id e, sp_executions s !! id = Some e -> se_id e = id /\ execution_ok e;
  im_log : forall id, id ∈ sp_log s <-> exists e, sp_executions s !! id = Some e /\ se_status e = ScenarioExecutionCompleted;
  im_nodup : NoDup (sp_log s);
  im_seq : forall p n id, log_where s (of_project p) !! n = Some id ->
             exists e, sp_executions s !! id = Some e /\ completionSequence e = Z.of_nat n + 1;
}.

Lemma implements_empty : implements no_scenarios no_spec.
Proof.
  split; cbn; try done.
  - intros id k v. rewrite lookup_empty. split; [done|]. by intros (e & r & H & _).
  - intros id. rewrite elem_of_nil. split; [done|]. by intros (e & H & _).
  - constructor.
Qed.

Lemma load_none t s id : implements t s -> sp_executions s !! id = None -> loadScenarioExecutionRow t id = Err [ErrStoreNotFound].
Proof. intros I E. unfold loadScenarioExecutionRow. by rewrite (im_rows _ _ I), E. Qed.
Lemma load_some t s id e : implements t s -> sp_executions s !! id = Some e -> loadScenarioExecutionRow t id = Ok (with_repetitions e []).
Proof.
  intros I E. destruct (im_ok _ _ I _ _ E) as [<- O]. apply load_row; [|done]. by rewrite (im_rows _ _ I), E.
Qed.

Lemma implements_load t s id : implements t s -> loadScenarioExecution t id = spec_load s id.
Proof.
  intros I. unfold loadScenarioExecution, spec_load. destruct (sp_executions s !! id) as [e|] eqn:E; [|by rewrite (load_none t s)].
  rewrite (load_some t s id e) by done. cbn [mbind res_bind]. destruct (im_ok _ _ I _ _ E) as [<- O].
  assert (M : forall k v, repetitions t !! (se_id e, k) = Some v <-> exists r, r ∈ se_repetitions e /\ key_of r = k /\ value_of r = v).
  { intros k v. rewrite (im_reps _ _ I). naive_solver. }
  assert (S : select_repetitions t (se_id e) = se_repetitions e).
  { pose proof (execution_validate_inv _ (eo_valid _ O)) as V. destruct (decide (se_status e = ScenarioExecutionCompleted)) as [C|C].
    - destruct (completed_fields e (eo_valid _ O) C) as (_ & _ & _ & R).
      apply select_back; [done|by eapply repetitions_sorted|by eapply repetitions_keys| |].
      + intros r r'. by eapply repetitions_antisym. + rewrite (rl_length _ _ R). pose proof (ev_runs _ V). lia.
    - destruct (running_blank e (eo_valid _ O) C) as (_ & _ & B & _). rewrite B in *. apply select_back; [done|constructor|constructor| |].
      + intros r r' Hr. by apply elem_of_nil in Hr. + done. }
  rewrite S. assert (X : with_repetitions (with_repetitions e []) (se_repetitions e) = e) by (by destruct e).
  rewrite X. unfold restoreScenarioExecution. by rewrite (eo_valid _ O).
Qed.

Lemma log_where_agree s s' f : sp_log s' = sp_log s ->
  (forall id, id ∈ sp_log s -> (match sp_executions s' !! id with Some e => f e | None => false end) =
                               (match sp_executions s !! id with Some e => f e | None => false end)) ->
  log_where s' f = log_where s f.
Proof.
  unfold log_where. intros ->. induction (sp_log s) as [|id l IH]; intros H; [done|]. cbn [List.filter]. rewrite (H id) by by left.
  rewrite IH; [done|]. intros x Hx. apply H. by right.
Qed.

Lemma implements_create t s e : implements t s -> begun e ->
  agree implements (insertScenarioExecution t e) (spec_create s e).
Proof.
  intros I B. destruct (begun_blank e B) as (V & R & F & (B1 & B2 & B3 & B4) & G). unfold insertScenarioExecution, spec_create.
  rewrite R, V. cbn [String.eqb negb fail_if mbind res_bind]. destruct (recencyKey (se_startedAt e)) as [key|err] eqn:K; [|constructor].
  cbn [mbind res_bind producerColumnValues]. unfold insert_row. rewrite (im_rows _ _ I).
  destruct (sp_executions s !! se_id e) as [x|] eqn:E; [constructor|].
  cbn [fmap option_fmap option_map]. rewrite bool_decide_eq_false_2 by (by intros []). cbn [fail_if mbind res_bind]. constructor.
  apply recencyKey_Ok in K as K'. destruct K' as [K1 _].
  assert (O : execution_ok e).
  { split; [done| | | |done|].
    - by rewrite F. - done. - by rewrite B4. - rewrite B1. done. }
  assert (Nl : se_id e ∉ sp_log s). { rewrite (im_log _ _ I). intros (x & Hx & _). congruence. }
  split; cbn [executions repetitions sp_executions sp_log].
  - intros id. destruct (decide (id = se_id e)) as [->|N]; [|rewrite !lookup_insert_ne by done; apply I].
    rewrite !lookup_insert, !decide_True by done. cbn [fmap option_fmap option_map]. f_equal. unfold execution_row, started_key.
    rewrite K, B1, B2, B4, F. cbn. rewrite i64_small; [by rewrite R|]. pose proof (ev_runs _ (execution_validate_inv _ V)). unfold MaxRepetitions in *. ulia.
  - intros id k v. rewrite (im_reps _ _ I). split.
    + intros (x & r & H & ?). exists x, r. rewrite lookup_insert_ne by congruence. done.
    + intros (x & r & H & Hr & ?). destruct (decide (id = se_id e)) as [->|N].
      * rewrite lookup_insert, decide_True in H by done. injection H as <-. rewrite B3 in Hr. by apply elem_of_nil in Hr.
      * rewrite lookup_insert_ne in H by done. eauto.
  - intros id x [[<- <-]|[_ H]]%lookup_insert_Some; [done|by apply I].
  - intros id. rewrite (im_log _ _ I). split.
    + intros (x & H & C). exists x. rewrite lookup_insert_ne by congruence. done.
    + intros (x & [[<- <-]|[_ H]]%lookup_insert_Some & C); [|eauto]. rewrite R in C. done.
  - apply I.
  - intros p n id. rewrite (log_where_agree s); [|done|].
    + intros (x & H & C)%(im_seq _ _ I). exists x. rewrite lookup_insert_ne by congruence. done.
    + intros id' Hid. cbn [sp_executions]. rewrite lookup_insert_ne by congruence. done.
Qed.

(** Sequences of a project: at most the length of its log, and the last has it. *)
Lemma log_lookup s f id : id ∈ log_where s f <-> id ∈ sp_log s /\ exists e, sp_executions s !! id = Some e /\ f e = true.
Proof.
  unfold log_where. rewrite list_elem_of_In, filter_In, <- list_elem_of_In. destruct (sp_executions s !! id); naive_solver.
Qed.
Lemma sequence_bound t s id e : implements t s -> sp_executions s !! id = Some e -> completionSequence e <> 0 ->
  1 <= completionSequence e <= Z.of_nat (length (log_where s (of_project (SC_ProjectID (scope e))))).
Proof.
  intros I E N. assert (C : se_status e = ScenarioExecutionCompleted).
  { destruct (decide (se_status e = ScenarioExecutionCompleted)) as [?|C]; [done|].
    destruct (running_blank e (eo_valid _ (proj2 (im_ok _ _ I _ _ E))) C) as [Z _]. done. }
  assert (H : id ∈ log_where s (of_project (SC_ProjectID (scope e)))).
  { apply log_lookup. rewrite (im_log _ _ I). split; [eauto|]. exists e. split; [done|]. apply String.eqb_refl. }
  apply list_elem_of_lookup in H as [n H]. destruct (im_seq _ _ I _ _ _ H) as (e' & E' & S). rewrite E in E'. injection E' as <-.
  apply lookup_lt_Some in H. lia.
Qed.

Lemma max_of_rows (rows : list storedExecution) project : 
  let m := foldr (fun row acc => if x_project_id row =s project then
      match x_completion_sequence row, acc with Some s, Some m => Some (Z.max s m) | Some s, None => Some s | None, _ => acc end else acc) None rows in
  (forall row s, row ∈ rows -> x_project_id row = project -> x_completion_sequence row = Some s -> exists k, m = Some k /\ s <= k) /\
  (forall k, m = Some k -> exists row, row ∈ rows /\ x_project_id row = project /\ x_completion_sequence row = Some k).
Proof.
  induction rows as [|row rows IH]; cbn [foldr]; [split; [intros ? ? H; by apply elem_of_nil in H|done]|]. cbv zeta in *.
  set (m := foldr _ None rows) in *. destruct IH as [U A]. destruct (String.eqb_spec (x_project_id row) project) as [E|E].
  - destruct (x_completion_sequence row) as [s|] eqn:Es.
    + split.
      * intros r x [->|H]%elem_of_cons Ep Ex.
        -- rewrite Es in Ex. injection Ex as <-. destruct m as [k|]; [exists (Z.max s k); split; [done|lia]|exists s; split; [done|lia]].
        -- destruct (U r x H Ep Ex) as (k & -> & L). exists (Z.max s k). split; [done|lia].
      * intros k Hk. destruct m as [k'|]; injection Hk as <-.
        -- destruct (Z.max_spec s k') as [[_ ->]|[_ ->]]; [|exists row; split; [by left|done]].
           destruct (A k' eq_refl) as (r & ? & ? & ?). exists r. split; [by right|done].
        -- exists row. split; [by left|done].
    + split; [intros r x [->|H]%elem_of_cons Ep Ex; [congruence|eauto]|]. intros k Hk. destruct (A k Hk) as (r & ? & ? & ?). exists r. split; [by right|done].
  - split; [intros r x [->|H]%elem_of_cons Ep Ex; [congruence|eauto]|]. intros k Hk. destruct (A k Hk) as (r & ? & ? & ?). exists r. split; [by right|done].
Qed.

Lemma row_of_list t s row : implements t s -> row ∈ (snd <$> map_to_list (executions t)) <-> exists id e, sp_executions s !! id = Some e /\ row = execution_row e.
Proof.
  intros I. rewrite list_elem_of_fmap. split.
  - intros ([id r] & -> & H). apply elem_of_map_to_list in H. rewrite (im_rows _ _ I), fmap_Some in H. destruct H as (e & H & ->). eauto.
  - intros (id & e & H & ->). exists (id, execution_row e). split; [done|]. apply elem_of_map_to_list. by rewrite (im_rows _ _ I), H.
Qed.

Lemma sequence_row e k : x_completion_sequence (execution_row e) = Some k <-> completionSequence e = k /\ k <> 0.
Proof. cbn. destruct (Z.eqb_spec (completionSequence e) 0); naive_solver. Qed.

Lemma max_sequence_log t s project : implements t s ->
  default 0 (max_sequence t project) = Z.of_nat (length (log_where s (of_project project))).
Proof.
  intros I. unfold max_sequence. destruct (max_of_rows (snd <$> map_to_list (executions t)) project) as [U A]. cbv zeta in U, A.
  set (m := foldr _ None _) in *. set (l := log_where s (of_project project)) in *.
  assert (Lo : forall k, m = Some k -> k <= Z.of_nat (length l)).
  { intros k Hk. destruct (A k Hk) as (row & Hr & Ep & Es). apply (row_of_list t s) in Hr as (id & e & He & ->); [|done].
    apply sequence_row in Es as [<- N]. destruct (sequence_bound t s id e I He N) as [_ L]. cbn in Ep. by rewrite Ep in L. }
  destruct (last l) as [id|] eqn:La.
  - rewrite last_lookup in La. pose proof (lookup_lt_Some _ _ _ La). destruct (im_seq _ _ I _ _ _ La) as (e & He & Se).
    assert (Hp : SC_ProjectID (scope e) = project).
    { apply list_elem_of_lookup_2, log_lookup in La as (_ & e' & He' & Hf). rewrite He in He'. injection He' as <-. by apply String.eqb_eq. }
    destruct (U (execution_row e) (completionSequence e)) as (k & Hk & L); [apply (row_of_list t s); eauto|done|apply sequence_row; split; [done|lia]|].
    rewrite Hk. specialize (Lo k Hk). cbn. lia.
  - apply last_None in La. rewrite La in *. destruct m as [k|] eqn:Em; [|done]. destruct (A k eq_refl) as (row & Hr & Ep & Es).
    apply (row_of_list t s) in Hr as (id & e & He & ->); [|done]. apply sequence_row in Es as [E N].
    destruct (sequence_bound t s id e I He) as [L1 L2]; [congruence|]. cbn in Ep. rewrite Ep in L2. fold l in L2. rewrite La in L2. cbn in L2. lia.
Qed.

Lemma sequence_free t s id project n : implements t s -> 0 <= n <= max_i64 ->
  Z.of_nat (length (log_where s (of_project project))) < n -> sequence_taken t id project n = false.
Proof.
  intros I B L. unfold sequence_taken. apply not_true_iff_false. intros H. apply existsb_exists in H as ([id' row] & Hin & H).
  cbn [fst snd] in H. bool_prop. rewrite i64_small in H0 by ulia.
  apply list_elem_of_In, elem_of_map_to_list in Hin. rewrite (im_rows _ _ I), fmap_Some in Hin. destruct Hin as (e & He & ->).
  apply sequence_row in H0 as [<- N]. destruct (sequence_bound t s id' e I He N) as [_ L']. cbn in *. subst project. lia.
Qed.

Lemma log_where_step s s' f id e next : sp_executions s !! id = Some e -> sp_executions s' = <[id := next]> (sp_executions s) -> f next = f e ->
  sp_log s' = sp_log s -> log_where s' f = log_where s f.
Proof.
  intros E E' F L. apply log_where_agree; [done|]. intros x _. rewrite E'. destruct (decide (x = id)) as [->|N].
  - rewrite lookup_insert, decide_True by done. by rewrite E, F.
  - by rewrite lookup_insert_ne.
Qed.
Lemma log_where_push s f id e : sp_executions s !! id = Some e ->
  log_where {| sp_executions := sp_executions s; sp_log := sp_log s ++ [id] |} f = (log_where s f ++ (if f e then [id] else []))%list.
Proof. intros E. unfold log_where. cbn [sp_executions sp_log]. rewrite List.filter_app. cbn [List.filter]. by rewrite E. Qed.

Lemma complete_ok e reps g n at_ next : execution_ok e -> gate_made g -> 0 <= n <= max_i64 ->
  ScenarioExecution_complete e reps g n at_ = Ok next -> execution_ok next.
Proof.
  intros O G B H. apply complete_inv in H as (_ & R & V & _ & _ & _ & _ & _ & E9 & _ & _ & _ & E13 & _ & E15 & _ & _ & E18).
  destruct (completed_fields next V E13) as (F & _). split; [done|congruence|congruence|congruence|rewrite E9; apply O|lia].
Qed.
Lemma completed_row_eq e reps g n at_ next : execution_ok e -> 0 < n <= max_i64 ->
  ScenarioExecution_complete e reps g n at_ = Ok next ->
  completed_row (execution_row e) at_ n (se_verdict next) (encodeScenarioGateRecord (gate next)) = execution_row next.
Proof.
  intros O B H. apply complete_inv in H as (_ & R & V & _ & E5 & E6 & E7 & E8 & E9 & E10 & E11 & E12 & E13 & E14 & E15 & E16 & E17 & E18).
  destruct (completed_fields next V E13) as (F & S & Vn & _). unfold completed_row, execution_row, started_key.
  cbn [x_scenario_name x_project_id x_agent_id x_environment x_runs x_reference_execution_id x_status x_started_at x_started_order x_finished_at
    x_completion_sequence x_verdict x_provenance x_gate_snapshot x_cli_version x_reference_mode].
  rewrite E5, E6, E7, E8, E9, E10, E11, E12, E13, E14, E15, E18, R. unfold nullTime, null_text.
  rewrite E14 in F. rewrite F, (proj2 (String.eqb_neq (se_verdict next) "")) by done. rewrite i64_small by ulia.
  rewrite (proj2 (Z.eqb_neq n 0)) by lia. done.
Qed.

Lemma implements_complete {A} (projects : gmap ProjectID A) t s id reps g at_ : implements t s -> gate_made g ->
  Z.of_nat (length (sp_log s)) < max_i64 ->
  agree (fun a b => fst a = fst b /\ implements (snd a) (snd b))
    (completeScenarioExecutionTx projects t id reps g at_) (spec_complete projects s id reps g at_).
Proof.
  intros I G B. unfold completeScenarioExecutionTx, spec_complete, spec_load.
  destruct (sp_executions s !! id) as [e|] eqn:E; [|rewrite (load_none t s) by done; constructor].
  rewrite (load_some t s id e) by done. cbn [mbind res_bind with_repetitions scope]. destruct (im_ok _ _ I _ _ E) as [Ei O].
  set (project := SC_ProjectID (scope e)). destruct (lockProject projects project) as [[]|err]; [|constructor]. cbn [mbind res_bind].
  rewrite (max_sequence_log t s) by done. set (l := log_where s (of_project project)).
  assert (Ll : (length l <= length (sp_log s))%nat) by apply List.filter_length_le.
  rewrite (proj2 (Z.ltb_ge _ 0)) by lia. cbn [fail_if mbind res_bind]. rewrite u64_small by ulia.
  change (ScenarioExecution_complete (with_repetitions e []) reps g (Z.of_nat (length l) + 1) at_)
    with (ScenarioExecution_complete e reps g (Z.of_nat (length l) + 1) at_).
  destruct (ScenarioExecution_complete e reps g (Z.of_nat (length l) + 1) at_) as [next|err] eqn:C; [|constructor]. cbn [mbind res_bind].
  pose proof C as C'. apply complete_inv in C' as (Er & _ & V & E4 & _ & E6 & _ & _ & _ & _ & _ & _ & E13 & _ & E15 & _ & E17 & _).
  rewrite (im_rows _ _ I), E. cbn [fmap option_fmap option_map]. cbn [execution_row x_status x_project_id]. fold (execution_row e).
  rewrite Er. cbn [String.eqb negb fail_if mbind res_bind]. fold project. rewrite (sequence_free t s) by (done || (split; ulia) || (fold l; ulia)). cbn [fail_if mbind res_bind].
  destruct (completed_fields next V E13) as (_ & _ & _ & R). destruct (running_blank e (eo_valid _ O)) as (_ & _ & Be & _); [by rewrite Er|].
  assert (N : forall k, repetitions t !! (id, k) = None).
  { intros k. destruct (repetitions t !! (id, k)) as [v|] eqn:Ev; [|done]. apply (im_reps _ _ I) in Ev as (x & r & Hx & Hr & _).
    rewrite E in Hx. injection Hx as <-. rewrite Be in Hr. by apply elem_of_nil in Hr. }
  destruct (insert_repetitions id (se_repetitions next) (repetitions t)) as (m & Em & Lm).
  { by eapply repetitions_keys. }
  { apply Forall_forall. intros r Hr. split; [|apply N]. apply list_elem_of_lookup in Hr as [n Hn]. apply (rl_place _ _ R) in Hn as P.
    apply lookup_lt_Some in Hn. pose proof (rl_length _ _ R). pose proof (ev_runs _ (execution_validate_inv _ V)) as Hr. unfold MaxRepetitions in Hr.
    unfold key_of, place in P. destruct (se_runs next <=? Z.of_nat n); injection P as _ P; ulia. }
  rewrite Em. cbn [mbind res_bind]. constructor. cbn [fst snd]. split; [done|].
  rewrite (completed_row_eq e reps g _ at_ next) by (done || ulia || lia).
  assert (No : execution_ok next) by (eapply complete_ok; [exact O|done| |exact C]; ulia).
  assert (Nl : id ∉ sp_log s). { rewrite (im_log _ _ I). intros (x & Hx & Hc). rewrite E in Hx. injection Hx as <-. rewrite Er in Hc. done. }
  split; cbn [executions repetitions sp_executions sp_log].
  - intros x. destruct (decide (x = id)) as [->|Nx]; [by rewrite !lookup_insert, !decide_True|]. rewrite !lookup_insert_ne by done. apply I.
  - intros x k v. rewrite Lm, (im_reps _ _ I). destruct (decide (x = id)) as [->|Nx].
    + setoid_rewrite lookup_insert. rewrite decide_True by done. split.
      * intros [(y & r & Hy & Hr & _)|(_ & r & ?)]; [|eauto]. rewrite E in Hy. injection Hy as <-. rewrite Be in Hr. by apply elem_of_nil in Hr.
      * intros (y & r & [= <-] & ?). right. eauto.
    + setoid_rewrite lookup_insert_ne; [|done]. naive_solver.
  - intros x y [[<- <-]|[_ H]]%lookup_insert_Some; [by rewrite E4|by apply I].
  - intros x. rewrite elem_of_app, list_elem_of_singleton, (im_log _ _ I). destruct (decide (x = id)) as [->|Nx].
    + split; [|by right]. intros _. exists next. by rewrite lookup_insert, decide_True.
    + rewrite lookup_insert_ne by done. naive_solver.
  - apply NoDup_app. split_and!; [apply I| |apply NoDup_singleton]. intros x Hx ->%list_elem_of_singleton. done.
  - intros p n x. set (s1 := {| sp_executions := <[id := next]> (sp_executions s); sp_log := sp_log s |}).
    assert (P1 : log_where {| sp_executions := <[id := next]> (sp_executions s); sp_log := sp_log s ++ [id] |} (of_project p) =
                 (log_where s (of_project p) ++ (if of_project p next then [id] else []))%list).
    { rewrite <- (log_where_step s s1 (of_project p) id e next); [|done|done|unfold of_project; by rewrite E6|done].
      apply (log_where_push s1). cbn. by rewrite lookup_insert, decide_True. }
    rewrite P1. intros [H|[Hl H]]%lookup_app_Some.
    + apply (im_seq _ _ I) in H as (y & Hy & Hs). destruct (decide (x = id)) as [->|Nx]; [|rewrite lookup_insert_ne by done; eauto].
      rewrite E in Hy. injection Hy as <-. destruct (running_blank e (eo_valid _ O)) as (Z0 & _); [by rewrite Er|]. lia.
    + destruct (of_project p next) eqn:Hp; [|done]. apply list_lookup_singleton_Some in H as [Hn <-]. exists next.
      rewrite lookup_insert, decide_True by done. split; [done|]. rewrite E15. unfold of_project in Hp. apply String.eqb_eq in Hp.
      rewrite E6 in Hp. fold project in Hp. subst p. fold l in Hl, Hn. lia.
Qed.

Lemma failed_row_eq e at_ next : ScenarioExecution_validate e = Ok tt -> se_status e <> ScenarioExecutionFailed ->
  ScenarioExecution_fail e at_ = Ok next -> failed_row (execution_row e) at_ = execution_row next.
Proof.
  intros V N H. apply fail_inv in H as [[? _]|(_ & _ & V' & _ & E5 & E6 & E7 & E8 & E9 & E10 & E11 & E12 & E13 & E14 & E15 & E16 & E17 & E18)]; [done|].
  pose proof (failed_fields next V' E13) as F. rewrite E14 in F. unfold failed_row, execution_row, started_key.
  cbn [x_scenario_name x_project_id x_agent_id x_environment x_runs x_reference_execution_id x_status x_started_at x_started_order x_finished_at
    x_completion_sequence x_verdict x_provenance x_gate_snapshot x_cli_version x_reference_mode].
  rewrite E5, E6, E7, E8, E9, E10, E11, E12, E13, E14, E15, E16, E18. unfold nullTime. by rewrite F.
Qed.

Lemma fail_ok e at_ next : execution_ok e -> ScenarioExecution_fail e at_ = Ok next -> execution_ok next.
Proof.
  intros O H. apply fail_inv in H as [[_ ->]|(_ & _ & V & _ & _ & _ & _ & _ & E9 & _ & _ & _ & E13 & _ & E15 & _ & _ & E18)]; [done|].
  pose proof (failed_fields next V E13) as F. split; [done|congruence|rewrite E18; apply O|rewrite E18; apply O|rewrite E9; apply O|rewrite E15; apply O].
Qed.

(** An execution that is not completed is replaced by another. *)
Lemma implements_replace t s id e next : implements t s -> sp_executions s !! id = Some e -> execution_ok next -> se_id next = id ->
  scope next = scope e -> se_repetitions next = se_repetitions e -> completionSequence next = completionSequence e ->
  (se_status next = ScenarioExecutionCompleted <-> se_status e = ScenarioExecutionCompleted) ->
  implements {| executions := <[id := execution_row next]> (executions t); repetitions := repetitions t |}
    {| sp_executions := <[id := next]> (sp_executions s); sp_log := sp_log s |}.
Proof.
  intros I E O Ei Es Er Ec St. split; cbn [executions repetitions sp_executions sp_log].
  - intros x. destruct (decide (x = id)) as [->|Nx]; [by rewrite !lookup_insert, !decide_True|]. rewrite !lookup_insert_ne by done. apply I.
  - intros x k v. rewrite (im_reps _ _ I). destruct (decide (x = id)) as [->|Nx].
    + rewrite E. setoid_rewrite lookup_insert. rewrite decide_True by done. split; intros (y & r & [= <-] & ?); [exists next|exists e]; exists r; rewrite ?Er in *; done.
    + by setoid_rewrite lookup_insert_ne.
  - intros x y [[<- <-]|[_ H]]%lookup_insert_Some; [done|by apply I].
  - intros x. rewrite (im_log _ _ I). destruct (decide (x = id)) as [->|Nx]; [|by rewrite lookup_insert_ne].
    rewrite lookup_insert, decide_True, E by done. split; intros (y & [= <-] & ?); eexists; (split; [done|]); by apply St.
  - apply I.
  - intros p n x. rewrite (log_where_step s _ (of_project p) id e next); [|done|done|unfold of_project; by rewrite Es|done].
    intros (y & Hy & Hs)%(im_seq _ _ I). destruct (decide (x = id)) as [->|Nx]; [|exists y; by rewrite lookup_insert_ne].
    exists next. rewrite lookup_insert, decide_True by done. split; [done|]. rewrite E in Hy. injection Hy as <-. by rewrite Ec.
Qed.

Lemma implements_fail t s id at_ : implements t s ->
  agree (fun a b => fst a = fst b /\ implements (snd a) (snd b)) (failScenarioExecutionTx t id at_) (spec_fail s id at_).
Proof.
  intros I. unfold failScenarioExecutionTx, spec_fail, spec_load.
  destruct (sp_executions s !! id) as [e|] eqn:E; [|rewrite (load_none t s) by done; constructor].
  rewrite (load_some t s id e) by done. cbn [mbind res_bind]. destruct (im_ok _ _ I _ _ E) as [Ei O].
  assert (W : se_status e <> ScenarioExecutionCompleted -> with_repetitions e [] = e).
  { intros C. destruct (running_blank e (eo_valid _ O) C) as (_ & _ & B & _). destruct e. cbn in *. by rewrite B. }
  destruct (decide (se_status e = ScenarioExecutionCompleted)) as [C|C].
  { unfold ScenarioExecution_fail. cbn [with_repetitions se_status]. rewrite C. cbn. constructor. }
  rewrite (W C). destruct (ScenarioExecution_fail e at_) as [next|err] eqn:F; [|constructor]. cbn [mbind res_bind].
  pose proof (fail_ok e at_ next O F) as No. destruct (String.eqb_spec (se_status e) ScenarioExecutionFailed) as [Ef|Ef].
  - unfold ScenarioExecution_fail in F. rewrite Ef in F. injection F as <-. constructor. cbn [fst snd]. split; [done|].
    rewrite insert_id by done. by destruct s.
  - pose proof F as F'. apply fail_inv in F' as [[? _]|(_ & _ & _ & E4 & _ & E6 & _ & _ & _ & _ & _ & _ & E13 & _ & E15 & _ & E17 & _)]; [done|].
    rewrite (im_rows _ _ I), E. cbn [fmap option_fmap option_map]. cbn [execution_row x_status]. fold (execution_row e).
    assert (R : se_status e = ScenarioExecutionRunning).
    { destruct (ev_state _ (execution_validate_inv _ (eo_valid _ O))); done. }
    rewrite R. cbn [String.eqb negb fail_if mbind res_bind]. constructor. cbn [fst snd]. split; [done|].
    rewrite (failed_row_eq e at_ next (eo_valid _ O)) by done. apply (implements_replace t s id e next); try done; [congruence|].
    rewrite E13, R. done.
Qed.

(** ** The latest completed execution *)
Lemma last_filter {A} (f : A -> bool) l n x : l !! n = Some x -> f x = true ->
  exists m y, (n <= m)%nat /\ l !! m = Some y /\ last (List.filter f l) = Some y.
Proof.
  revert n. induction l as [|a l IH]; intros n H F; [done|]. destruct n as [|n]; cbn in H.
  - injection H as <-. cbn [List.filter]. rewrite F. destruct (last (List.filter f l)) as [y|] eqn:E.
    + assert (Hy : y ∈ l). { apply last_Some_elem_of, list_elem_of_In, filter_In in E as [? _]. by apply list_elem_of_In. }
      apply list_elem_of_lookup in Hy as [m Hm]. exists (S m), y. split_and!; [lia|done|]. by rewrite last_cons, E.
    + exists 0%nat, a. split_and!; [lia|done|]. by rewrite last_cons, E.
  - destruct (IH n H F) as (m & y & L & Hm & Hl). exists (S m), y. split_and!; [lia|done|]. cbn [List.filter].
    destruct (f a); [|done]. by rewrite last_cons, Hl.
Qed.

Definition rank (x : ScenarioExecutionID * storedExecution) : Z := default (min_i64 - 1) (x_completion_sequence (snd x)).
Lemma latest_best (ok : storedExecution -> bool) (rows : list (ScenarioExecutionID * storedExecution)) :
  match foldr (fun x best => if ok (snd x) then match best with Some b => if later x b then Some x else Some b | None => Some x end else best) None rows with
  | Some x => x ∈ rows /\ ok (snd x) = true /\ forall y, y ∈ rows -> ok (snd y) = true -> rank y <= rank x
  | None => forall y, y ∈ rows -> ok (snd y) = false
  end.
Proof.
  induction rows as [|x rows IH]; cbn [foldr]; [intros y Hy; by apply elem_of_nil in Hy|].
  set (best := foldr _ None rows) in *. destruct (ok (snd x)) eqn:Ex.
  - destruct best as [b|].
    + destruct IH as (Hb & Ob & Mb). destruct (later x b) eqn:L; unfold later in L; fold (rank x) in L; fold (rank b) in L.
      * assert (rank b <= rank x) by (apply orb_true_iff in L as [L|L]; bool_prop; lia).
        split_and!; [by left|done|]. intros y [->|Hy]%elem_of_cons Oy; [lia|]. specialize (Mb y Hy Oy). lia.
      * apply orb_false_iff in L as [L _]. bool_prop. split_and!; [by right|done|]. intros y [->|Hy]%elem_of_cons Oy; [lia|by apply Mb].
    + split_and!; [by left|done|]. intros y [->|Hy]%elem_of_cons Oy; [lia|]. by rewrite IH in Oy.
  - destruct best as [b|].
    + destruct IH as (Hb & Ob & Mb). split_and!; [by right|done|]. intros y [->|Hy]%elem_of_cons Oy; [congruence|by apply Mb].
    + intros y [->|Hy]%elem_of_cons; [done|by apply IH].
Qed.

Lemma in_scope_row name sc e : in_scope name sc (execution_row e) = of_scope name sc e && (se_status e =s ScenarioExecutionCompleted).
Proof.
  unfold in_scope, of_scope, execution_row. cbn. apply eq_true_iff_eq. rewrite !andb_true_iff, !String.eqb_eq, bool_decide_eq_true.
  destruct (scope e) as [p a v], sc as [p' a' v']. cbn. naive_solver.
Qed.

Lemma implements_latest t s name sc : implements t s ->
  Store_LatestCompletedScenarioExecution t name sc = spec_latest s name sc.
Proof.
  intros I. unfold Store_LatestCompletedScenarioExecution, latestCompletedScenarioExecutionID, spec_latest.
  pose proof (latest_best (in_scope name sc) (map_to_list (executions t))) as B.
  set (f := fun id => match sp_executions s !! id with Some e => of_scope name sc e | None => false end).
  set (lp := log_where s (of_project (SC_ProjectID sc))).
  assert (Ef : log_where s (of_scope name sc) = List.filter f lp).
  { unfold lp, log_where. fold f. clear B. induction (sp_log s) as [|id l IH]; [done|]. cbn [List.filter]. unfold f at 1.
    destruct (sp_executions s !! id) as [e|] eqn:E; [|done]. destruct (of_scope name sc e) eqn:O.
    - assert (P : of_project (SC_ProjectID sc) e = true).
      { unfold of_scope in O. bool_prop. unfold of_project. rewrite H0. apply String.eqb_refl. }
      rewrite P. cbn [List.filter]. unfold f at 2. rewrite E, O. by rewrite IH.
    - destruct (of_project (SC_ProjectID sc) e); [|done]. cbn [List.filter]. unfold f at 2. by rewrite E, O. }
  assert (Mem : forall id e, sp_executions s !! id = Some e -> of_scope name sc e = true -> se_status e = ScenarioExecutionCompleted ->
    exists n, lp !! n = Some id /\ f id = true /\ completionSequence e = Z.of_nat n + 1).
  { intros id e He Ho Hc. assert (P : of_project (SC_ProjectID sc) e = true).
    { unfold of_scope in Ho. bool_prop. unfold of_project. rewrite H0. apply String.eqb_refl. }
    assert (H : id ∈ lp) by (apply log_lookup; rewrite (im_log _ _ I); split; eauto).
    apply list_elem_of_lookup in H as [n H]. exists n. split; [done|]. unfold f. rewrite He. split; [done|].
    destruct (im_seq _ _ I _ _ _ H) as (e' & He' & S). congruence. }
  destruct (foldr _ None _) as [[id row]|].
  - destruct B as (Hin & Ho & Mb). cbn [snd] in Ho. apply elem_of_map_to_list in Hin. rewrite (im_rows _ _ I), fmap_Some in Hin.
    destruct Hin as (e & He & ->). rewrite in_scope_row in Ho. bool_prop. destruct (Mem id e He H H0) as (n & Hn & Fn & Sn).
    destruct (last_filter f lp n id Hn Fn) as (m & y & L & Hm & Hl). rewrite Ef, Hl. cbn [mbind res_bind]. rewrite (implements_load t s) by done.
    assert (Y : y ∈ List.filter f lp) by by apply last_Some_elem_of. apply list_elem_of_In, filter_In in Y as [Y1 Y2]. unfold f in Y2.
    destruct (sp_executions s !! y) as [ey|] eqn:Ey; [|done]. destruct (im_seq _ _ I _ _ _ Hm) as (e' & He' & Sm). rewrite Ey in He'. injection He' as <-.
    apply list_elem_of_In, log_lookup in Y1 as [Y1 _]. apply (im_log _ _ I) in Y1 as (e' & He' & Cy). rewrite Ey in He'. injection He' as <-.
    specialize (Mb (y, execution_row ey)). cbn [snd] in Mb. rewrite in_scope_row, Y2, Cy in Mb. 
    assert (Q : rank (y, execution_row ey) <= rank (id, execution_row e)).
    { apply Mb; [|done]. apply elem_of_map_to_list. by rewrite (im_rows _ _ I), Ey. }
    unfold rank in Q. cbn [snd] in Q. rewrite (proj2 (sequence_row ey _) (conj eq_refl (ltac:(lia) : completionSequence ey <> 0))) in Q.
    rewrite (proj2 (sequence_row e _) (conj eq_refl (ltac:(lia) : completionSequence e <> 0))) in Q. cbn in Q.
    assert (n = m) as <- by lia. congruence.
  - rewrite Ef. destruct (last (List.filter f lp)) as [y|] eqn:Hl; [|done]. exfalso.
    apply last_Some_elem_of, list_elem_of_In, filter_In in Hl as [Y1 Y2]. unfold f in Y2. destruct (sp_executions s !! y) as [ey|] eqn:Ey; [|done].
    apply list_elem_of_In, log_lookup in Y1 as [Y1 _]. apply (im_log _ _ I) in Y1 as (e' & He' & Cy). rewrite Ey in He'. injection He' as <-.
    specialize (B (y, execution_row ey)). cbn [snd] in B. rewrite in_scope_row, Y2, Cy in B. discriminate B.
    apply elem_of_map_to_list. by rewrite (im_rows _ _ I), Ey.
Qed.
End refinement.

(** ** Histories: any sequence of calls, the refused ones included *)
Inductive scenario_op : Type :=
| OpCreate (e : ScenarioExecution)
| OpComplete (id : ScenarioExecutionID) (reps : list ScenarioRepetition) (g : ScenarioGateRecord) (at_ : time)
| OpFail (id : ScenarioExecutionID) (at_ : time).
(** What the arguments are by their constructors. *)
Definition op_ok (op : scenario_op) : Prop :=
  match op with OpCreate e => begun e | OpComplete _ _ g _ => gate_made g | OpFail _ _ => True end.

(** The identity of an execution never changes, and a terminal one changes in nothing. *)
Record keeps (e e' : ScenarioExecution) : Prop := {
  kp_id : se_id e' = se_id e;
  kp_name : scenarioName e' = scenarioName e;
  kp_scope : scope e' = scope e;
  kp_runs : se_runs e' = se_runs e;
  kp_reference : se_reference e' = se_reference e;
  kp_started : se_startedAt e' = se_startedAt e;
  kp_provenance : provenance e' = provenance e;
  kp_producer : (cliVersion e', referenceMode e') = (cliVersion e, referenceMode e);
  kp_terminal : se_status e <> ScenarioExecutionRunning -> e' = e;
}.
#[export] Instance keeps_preorder : PreOrder keeps.
Proof.
  split; [by intros e; split|]. intros e1 e2 e3 [] []. split; try congruence.
  intros N. rewrite kp_terminal1; [by apply kp_terminal0|]. by rewrite kp_terminal0.
Qed.

Section histories.
Context `{json : GateJSON} {A : Type} (projects : gmap ProjectID A).

Definition apply_op (t : scenario_tables) (op : scenario_op) : scenario_tables :=
  match op with
  | OpCreate e => match Store_CreateScenarioExecution t e with Ok t' => t' | Err _ => t end
  | OpComplete id reps g at_ => match Store_CompleteScenarioExecution projects t id reps g at_ with Ok (_, t') => t' | Err _ => t end
  | OpFail id at_ => match Store_FailScenarioExecution t id at_ with Ok (_, t') => t' | Err _ => t end
  end.
Definition run_ops (t : scenario_tables) (ops : list scenario_op) : scenario_tables := fold_left apply_op ops t.

Lemma spec_create_keeps s e s' id x : spec_create s e = Ok s' -> sp_executions s !! id = Some x ->
  sp_log s' = sp_log s /\ sp_executions s' !! id = Some x.
Proof.
  unfold spec_create. intros H Hx. apply bind_unit_iff in H as [_ H]. apply bind_unit_iff in H as [_ H]. apply bind_Ok in H as (k & _ & H).
  rewrite bind_unit_iff, fail_if_iff, bool_decide_eq_false in H. destruct H as [N [= <-]]. split; [done|]. cbn.
  rewrite lookup_insert_ne; [done|]. intros E. apply N. rewrite E. by exists x.
Qed.

Definition evolves (s s' : scenario_spec) : Prop :=
  (length (sp_log s') <= length (sp_log s) + 1)%nat /\
  forall id x, sp_executions s !! id = Some x -> exists x', sp_executions s' !! id = Some x' /\ keeps x x'.

Lemma complete_evolves s id reps g at_ e s' : spec_complete projects s id reps g at_ = Ok (e, s') -> evolves s s'.
Proof.
  unfold spec_complete, spec_load. destruct (sp_executions s !! id) as [c|] eqn:E; [|done]. cbn [mbind res_bind].
  rewrite bind_unit_iff. intros [_ H]. apply bind_Ok in H as (next & C & [= <- <-]). split; [cbn; rewrite length_app; cbn; lia|].
  intros x y Hy. cbn. destruct (decide (x = id)) as [->|N]; [|exists y; by rewrite lookup_insert_ne].
  rewrite E in Hy. injection Hy as <-. exists next. rewrite lookup_insert, decide_True by done. split; [done|].
  apply complete_inv in C as (Er & _ & _ & E4 & E5 & E6 & E7 & E8 & E9 & E10 & E11 & E12 & _). split; congruence.
Qed.
Lemma fail_evolves t s id at_ e s' : implements t s -> spec_fail s id at_ = Ok (e, s') -> evolves s s'.
Proof.
  unfold spec_fail, spec_load. intros I. destruct (sp_executions s !! id) as [c|] eqn:E; [|done]. cbn [mbind res_bind].
  intros H. apply bind_Ok in H as (next & F & [= <- <-]). split; [cbn; lia|].
  intros x y Hy. cbn. destruct (decide (x = id)) as [->|N]; [|exists y; by rewrite lookup_insert_ne].
  rewrite E in Hy. injection Hy as <-. exists next. rewrite lookup_insert, decide_True by done. split; [done|].
  apply fail_inv in F as [[_ ->]|(N1 & N2 & V & E4 & E5 & E6 & E7 & E8 & E9 & E10 & E11 & E12 & _)]; [done|].
  split; try congruence. intros N. destruct (im_ok _ _ I _ _ E) as [_ O]. by destruct (ev_state _ (execution_validate_inv _ (eo_valid _ O))).
Qed.
Lemma evolves_refl s : evolves s s.
Proof. split; [lia|]. intros id x Hx. exists x. split; [done|reflexivity]. Qed.

Lemma apply_implements t s op : implements t s -> op_ok op -> Z.of_nat (length (sp_log s)) < max_i64 ->
  exists s', implements (apply_op t op) s' /\ evolves s s'.
Proof.
  intros I H B. assert (Same : exists s', implements t s' /\ evolves s s') by (exists s; split; [done|apply evolves_refl]).
  destruct op as [e|id reps g at_|id at_]; cbn [apply_op op_ok] in *.
  - unfold Store_CreateScenarioExecution. pose proof (implements_create t s e I H) as A1.
    destruct (spec_create s e) as [s'|] eqn:E; inversion A1; subst; [|done]. exists s'. split; [done|]. split.
    + unfold spec_create in E. repeat (apply bind_unit_iff in E as [_ E] || (apply bind_Ok in E as (? & _ & E))). injection E as <-. cbn. lia.
    + intros id x Hx. destruct (spec_create_keeps s e s' id x E Hx) as [_ ?]. exists x. split; [done|reflexivity].
  - unfold Store_CompleteScenarioExecution. destruct (id =s ""); [done|]. cbn [fail_if mbind res_bind].
    pose proof (implements_complete projects t s id reps g at_ I H B) as A1.
    destruct (spec_complete projects s id reps g at_) as [[e s']|] eqn:E; inversion A1 as [[? ?] ? [_ R]|]; subst; [|done]. exists s'. split; [done|by eapply complete_evolves].
  - unfold Store_FailScenarioExecution. destruct (id =s ""); [done|]. cbn [fail_if mbind res_bind].
    pose proof (implements_fail t s id at_ I) as A1.
    destruct (spec_fail s id at_) as [[e s']|] eqn:E; inversion A1 as [[? ?] ? [_ R]|]; subst; [|done]. exists s'. split; [done|by eapply fail_evolves].
Qed.

Lemma run_implements ops : forall t s, implements t s -> Forall op_ok ops ->
  Z.of_nat (length (sp_log s)) + Z.of_nat (length ops) <= max_i64 ->
  exists s', implements (run_ops t ops) s' /\ (length (sp_log s') <= length (sp_log s) + length ops)%nat /\
    forall id x, sp_executions s !! id = Some x -> exists x', sp_executions s' !! id = Some x' /\ keeps x x'.
Proof.
  induction ops as [|op ops IH]; intros t s I H B.
  - exists s. split_and!; [done|cbn; lia|]. intros id x Hx. exists x. split; [done|reflexivity].
  - apply Forall_cons in H as [H1 H2]. cbn [length] in B. destruct (apply_implements t s op I H1) as (s1 & I1 & L1 & K1); [lia|].
    destruct (IH (apply_op t op) s1 I1 H2) as (s2 & I2 & L2 & K2); [lia|]. exists s2. split_and!; [done|cbn [length]; lia|].
    intros id x Hx. destruct (K1 id x Hx) as (x1 & Hx1 & Kx1). destruct (K2 id x1 Hx1) as (x2 & Hx2 & Kx2). exists x2. split; [done|by etrans].
Qed.

(** ** Properties *)

(** C28: the two tables of scenario executions implement a map of executions with a log of
    completions. Whatever the tables hold for the specification, every call - creation,
    completion, failure, reading one, reading the latest of a scope - has the outcome the
    specification gives it, its error included, and leaves tables that hold for the
    specification's next state: a completion takes the number after the project's last, and
    the latest execution of a scope is the last one completed in it. *)
Theorem scenario_store_refines t s : implements t s -> Z.of_nat (length (sp_log s)) < max_i64 ->
  (forall e, begun e -> agree implements (Store_CreateScenarioExecution t e) (spec_create s e)) /\
  (forall id reps g at_, id <> "" -> gate_made g ->
     agree (fun a b => fst a = fst b /\ implements (snd a) (snd b))
       (Store_CompleteScenarioExecution projects t id reps g at_) (spec_complete projects s id reps g at_)) /\
  (forall id at_, id <> "" ->
     agree (fun a b => fst a = fst b /\ implements (snd a) (snd b)) (Store_FailScenarioExecution t id at_) (spec_fail s id at_)) /\
  (forall id, id <> "" -> Store_ScenarioExecution t id = spec_load s id) /\
  (forall name sc, Store_LatestCompletedScenarioExecution t name sc = spec_latest s name sc).
Proof.
  intros I B. split_and!.
  - intros e. by apply implements_create.
  - intros id reps g at_ N G. unfold Store_CompleteScenarioExecution. rewrite (proj2 (String.eqb_neq _ _) N). by apply implements_complete.
  - intros id at_ N. unfold Store_FailScenarioExecution. rewrite (proj2 (String.eqb_neq _ _) N). by apply implements_fail.
  - intros id N. unfold Store_ScenarioExecution. rewrite (proj2 (String.eqb_neq _ _) N). by apply implements_load.
  - intros name sc. by apply implements_latest.
Qed.

(** C29: whatever calls were made of the store from its empty tables, refused ones included,
    every execution it holds reads back, valid, under its identifier; the completion numbers
    of a project's completed executions are 1, 2, ..., n without gap or repetition; and
    after any further calls every execution is still there, with the identity it was created
    with, and unchanged if it had completed or failed. *)
Theorem scenario_history_consistent ops : Forall op_ok ops -> Z.of_nat (length ops) <= max_i64 ->
  let t := run_ops no_scenarios ops in
  (forall id, is_Some (executions t !! id) -> exists e, Store_ScenarioExecution t id = Ok e /\ se_id e = id /\ ScenarioExecution_validate e = Ok tt) /\
  (forall project, exists ids, NoDup ids /\
     (forall id, id ∈ ids <-> exists e, Store_ScenarioExecution t id = Ok e /\ se_status e = ScenarioExecutionCompleted /\ SC_ProjectID (scope e) = project) /\
     (forall n id, ids !! n = Some id -> exists e, Store_ScenarioExecution t id = Ok e /\ completionSequence e = Z.of_nat n + 1)) /\
  (forall more id e, Forall op_ok more -> Z.of_nat (length ops) + Z.of_nat (length more) <= max_i64 -> Store_ScenarioExecution t id = Ok e ->
     exists e', Store_ScenarioExecution (run_ops t more) id = Ok e' /\ keeps e e').
Proof.
  intros H B t. destruct (run_implements ops no_scenarios no_spec implements_empty H) as (s & I & L & _); [done|]. fold t in I. cbn in L.
  assert (Ld : forall t s id e, implements t s -> Store_ScenarioExecution t id = Ok e <-> sp_executions s !! id = Some e).
  { intros t' s' id e I'. unfold Store_ScenarioExecution. rewrite (implements_load t' s') by done. unfold spec_load.
    rewrite bind_unit_iff, fail_if_iff, String.eqb_neq. destruct (sp_executions s' !! id) as [x|] eqn:E; [|naive_solver].
    split; [naive_solver|]. intros [= <-]. split; [|done]. intros ->. destruct (im_ok _ _ I' _ _ E) as [Ei O].
    pose proof (ev_id _ (execution_validate_inv _ (eo_valid _ O))) as V. rewrite Ei in V. done. }
  split_and!.
  - intros id. rewrite (im_rows _ _ I). intros [row Hr]. apply fmap_Some in Hr as (e & He & _). exists e. rewrite (Ld t s) by done.
    destruct (im_ok _ _ I _ _ He) as [? O]. split_and!; [done|done|apply O].
  - intros project. exists (log_where s (of_project project)). split_and!.
    + unfold log_where. apply NoDup_ListNoDup, List.NoDup_filter, NoDup_ListNoDup, I.
    + intros id. rewrite log_lookup, (im_log _ _ I). setoid_rewrite (Ld t s); [|done]. unfold of_project. setoid_rewrite String.eqb_eq. naive_solver.
    + intros n id Hn. setoid_rewrite (Ld t s); [|done]. by eapply im_seq.
  - intros more id e Hm Bm He. apply (Ld t s) in He; [|done]. destruct (run_implements more t s I Hm) as (s' & I' & _ & K); [lia|].
    destruct (K id e He) as (e' & He' & Ke). exists e'. rewrite (Ld _ s'); done.
Qed.
End histories.

(** ** Witnesses *)
Definition example_scope : ScenarioScope := {| SC_ProjectID := "project-1"; SC_AgentID := "agent-1"; SC_Environment := "staging" |}.
Definition example_start : time := Time (63900000000 * 1000000000) 0.
Definition example_finish : time := Time (63900000100 * 1000000000) 0.
Definition example_execution : ScenarioExecution :=
  {| se_id := "execution-1"; scenarioName := "checkout"; scope := example_scope; se_runs := 1; se_reference := "";
     se_status := ScenarioExecutionRunning; se_startedAt := example_start; se_finishedAt := zero_time;
     completionSequence := 0; se_verdict := ""; se_repetitions := [];
     provenance := (no_provenance, no_provenance); gate := no_gate; cliVersion := ""; referenceMode := "" |}.
Definition example_repetitions : list ScenarioRepetition :=
  [{| SR_Side := SideReference; SR_Index := 1; SR_RunID := "run-1"; SR_BehavioralProfile := "profile-1" |};
   {| SR_Side := SideCandidate; SR_Index := 1; SR_RunID := "run-2"; SR_BehavioralProfile := "profile-2" |}].
Definition example_projects : gmap ProjectID unit := {["project-1" := tt]}.

Lemma example_begun : begun example_execution.
Proof. apply (begun_new "execution-1" "checkout" example_scope 1 "" example_start). vm_compute. reflexivity. Qed.
Lemma example_gate_made : gate_made example_gate_record.
Proof. split; [exact example_gate_range|]. do 5 eexists. exact example_gate_new. Qed.
Lemma example_completes : exists next, ScenarioExecution_complete example_execution example_repetitions example_gate_record 1 example_finish = Ok next.
Proof. eexists. vm_compute. reflexivity. Qed.

Definition begun_spec : scenario_spec := {| sp_executions := {["execution-1" := example_execution]}; sp_log := [] |}.
Lemma example_implements : exists t, @Store_CreateScenarioExecution no_scenarios example_execution = Ok t /\ @implements example_json t begun_spec.
Proof.
  pose proof (@implements_create example_json no_scenarios no_spec example_execution implements_empty example_begun) as A.
  assert (E : spec_create no_spec example_execution = Ok begun_spec) by (vm_compute; reflexivity).
  rewrite E in A. exact (agree_inv _ _ _ A).
Qed.

Lemma scenario_store_refines_witness : exists t e s', @implements example_json t begun_spec /\
  spec_complete example_projects begun_spec "execution-1" example_repetitions example_gate_record example_finish = Ok (e, s') /\
  agree (fun a b => fst a = fst b /\ @implements example_json (snd a) (snd b))
    (@Store_CompleteScenarioExecution example_json _ example_projects t "execution-1" example_repetitions example_gate_record example_finish) (Ok (e, s')).
Proof.
  destruct example_implements as (t & _ & I). destruct example_completes as [next C].
  assert (E : spec_complete example_projects begun_spec "execution-1" example_repetitions example_gate_record example_finish =
    Ok (next, {| sp_executions := <["execution-1" := next]> (sp_executions begun_spec); sp_log := ["execution-1"] |})).
  { unfold spec_complete, spec_load. change (sp_executions begun_spec !! "execution-1") with (Some example_execution). cbn [mbind res_bind].
    change (lockProject example_projects (SC_ProjectID (scope example_execution))) with (Ok tt : res unit). cbn [mbind res_bind].
    change (Z.of_nat (length (log_where begun_spec (of_project (SC_ProjectID (scope example_execution))))) + 1) with 1. rewrite C. reflexivity. }
  assert (N : "execution-1" <> "") by discriminate.
  eexists t, next, _. split; [exact I|]. split; [exact E|]. rewrite <- E.
  exact (proj1 (proj2 (@scenario_store_refines example_json unit example_projects t begun_spec I eq_refl)) "execution-1" example_repetitions
    example_gate_record example_finish N example_gate_made).
Defined.

Lemma scenario_history_consistent_witness :
  let t := @run_ops example_json unit example_projects no_scenarios [OpCreate example_execution] in
  @Store_ScenarioExecution example_json t "execution-1" = Ok example_execution /\
  exists e', @Store_ScenarioExecution example_json
    (@run_ops example_json unit example_projects t [OpComplete "execution-1" example_repetitions example_gate_record example_finish])
    "execution-1" = Ok e' /\ keeps example_execution e'.
Proof.
  assert (H1 : Forall op_ok [OpCreate example_execution]) by (constructor; [exact example_begun|constructor]).
  assert (H2 : Forall op_ok [OpComplete "execution-1" example_repetitions example_gate_record example_finish])
    by (constructor; [exact example_gate_made|constructor]).
  assert (B : 1 <= max_i64) by discriminate. assert (B2 : 2 <= max_i64) by discriminate.
  assert (L : @Store_ScenarioExecution example_json (@run_ops example_json unit example_projects no_scenarios [OpCreate example_execution]) "execution-1" =
    Ok example_execution) by (vm_compute; reflexivity).
  split; [exact L|].
  exact (proj2 (proj2 (@scenario_history_consistent example_json unit example_projects [OpCreate example_execution] H1 B))
    [OpComplete "execution-1" example_repetitions example_gate_record example_finish] "execution-1" example_execution H2 B2 L).
Defined.
