(* ===== verification/Catalog.v ===== *)
(** * Package platform: the catalogue (sqlite.go, environment_store.go, collection_store.go,
      promotion_store.go, and the catalogue operations of controlplane.go)

    Projects, their agents, candidates and environments, and promotions: the tables, the
    store's operations on them, the keyset listings, and the control plane's edits of an
    environment - a read and a compare-and-set on the revision, which other edits may come
    between.  The theorems show that edits never lose one another and that listings are
    complete. *)
From S2P Require Import Prelude GoText GoTime GoFloat Event Fingerprint DecisionRecord.
From S2P Require Import Domain Paging Counters Recency Environment Operational Fidelity Aggregate Observation Counting.
From S2P Require Import Behavior Scorecard Gate Promotion RunStore.

Open Scope string_scope.
Open Scope Z_scope.

(** ** The tables *)
Record catalog : Type := {
  ct_projects : gmap ProjectID string;
  ct_agents : gmap AgentID (ProjectID * string);
  ct_candidates : gmap CandidateID (AgentID * CandidateMetadata);
  ct_environments : gmap (ProjectID * EnvironmentRef) environment_row;
  ct_promotions : gmap PromotionID promotionRow;
}.
Definition empty_catalog : catalog :=
  {| ct_projects := ∅; ct_agents := ∅; ct_candidates := ∅; ct_environments := ∅; ct_promotions := ∅ |}.

Definition with_projects (c : catalog) m : catalog :=
  {| ct_projects := m; ct_agents := ct_agents c; ct_candidates := ct_candidates c; ct_environments := ct_environments c; ct_promotions := ct_promotions c |}.
Definition with_agents (c : catalog) m : catalog :=
  {| ct_projects := ct_projects c; ct_agents := m; ct_candidates := ct_candidates c; ct_environments := ct_environments c; ct_promotions := ct_promotions c |}.
Definition with_candidates (c : catalog) m : catalog :=
  {| ct_projects := ct_projects c; ct_agents := ct_agents c; ct_candidates := m; ct_environments := ct_environments c; ct_promotions := ct_promotions c |}.
Definition with_environments (c : catalog) m : catalog :=
  {| ct_projects := ct_projects c; ct_agents := ct_agents c; ct_candidates := ct_candidates c; ct_environments := m; ct_promotions := ct_promotions c |}.
Definition with_promotions (c : catalog) m : catalog :=
  {| ct_projects := ct_projects c; ct_agents := ct_agents c; ct_candidates := ct_candidates c; ct_environments := ct_environments c; ct_promotions := m |}.

(** ** Projects, agents, candidates *)
Definition Store_CreateProject (c : catalog) (p : Project) : res catalog :=
  fail_if (Project_id p =s "") [ErrInvalidID];;
  m ← insert_row (ct_projects c) (Project_id p) (Project_name p);
  Ok (with_projects c m).
Definition project_of_row (id : ProjectID) (name : string) : res Project := corrupt (NewProject id name).
Definition Store_Project (c : catalog) (id : ProjectID) : res Project :=
  match ct_projects c !! id with None => Err [ErrStoreNotFound] | Some name => project_of_row id name end.

Definition Store_CreateAgent (c : catalog) (a : Agent) : res catalog :=
  fail_if (Agent_id a =s "") [ErrInvalidID];;
  requireExists (ct_projects c) (Agent_projectID a);;
  m ← insert_row (ct_agents c) (Agent_id a) (Agent_projectID a, Agent_name a);
  Ok (with_agents c m).
Definition agent_of_row (id : AgentID) (row : ProjectID * string) : res Agent := corrupt (NewAgent id (fst row) (snd row)).
Definition Store_Agent (c : catalog) (id : AgentID) : res Agent :=
  match ct_agents c !! id with None => Err [ErrStoreNotFound] | Some row => agent_of_row id row end.

Definition Store_CreateCandidate (c : catalog) (x : Domain.Candidate) : res catalog :=
  fail_if (Candidate_id x =s "") [ErrInvalidID];;
  requireExists (ct_agents c) (Candidate_agentID x);;
  m ← insert_row (ct_candidates c) (Candidate_id x) (Candidate_agentID x, Candidate_metadata x);
  Ok (with_candidates c m).
Definition candidate_of_row (id : CandidateID) (row : AgentID * CandidateMetadata) : res Domain.Candidate :=
  corrupt (NewCandidate id (fst row) (snd row)).
Definition Store_Candidate (c : catalog) (id : CandidateID) : res Domain.Candidate :=
  match ct_candidates c !! id with None => Err [ErrStoreNotFound] | Some row => candidate_of_row id row end.

(** ** Environments *)
Definition lockProject (c : catalog) (project : ProjectID) : res unit :=
  fail_if (negb (bool_decide (is_Some (ct_projects c !! project)))) [ErrStoreNotFound].
Definition environmentExists (c : catalog) (project : ProjectID) (ref : EnvironmentRef) : bool :=
  bool_decide (is_Some (ct_environments c !! (project, ref))).
Definition environmentCount (c : catalog) (project : ProjectID) : Z :=
  Z.of_nat (length (List.filter (fun item => fst (fst item) =s project) (map_to_list (ct_environments c)))).

Definition insertEnvironmentLocked (c : catalog) (e : Environment) : res catalog :=
  fail_if (environmentExists c (env_projectID e) (env_ref e)) [ErrStoreAlreadyExists];;
  fail_if (maxProjectEnvironments <=? environmentCount c (env_projectID e)) [ErrEnvironmentLimit];;
  Ok (with_environments c (<[(env_projectID e, env_ref e) := environment_columns e]> (ct_environments c))).
Definition Store_CreateEnvironment (c : catalog) (e : Environment) : res catalog :=
  fail_if ((env_ref e =s "") || (env_projectID e =s "")) [ErrInvalidID];;
  lockProject c (env_projectID e);;
  insertEnvironmentLocked c e.
Definition loadEnvironment (c : catalog) (project : ProjectID) (ref : EnvironmentRef) : res Environment :=
  match ct_environments c !! (project, ref) with
  | None => Err [ErrStoreNotFound]
  | Some row => restoreEnvironmentRow project ref row
  end.
Definition environmentUpdateMiss (c : catalog) (previous : Environment) : res catalog :=
  _ ← loadEnvironment c (env_projectID previous) (env_ref previous);
  Err [ErrStoreConflict].
Definition Store_UpdateEnvironment (c : catalog) (previous next : Environment) : res catalog :=
  validateEnvironmentUpdate previous next;;
  let key := (env_projectID previous, env_ref previous) in
  match ct_environments c !! key with
  | Some row =>
      if er_revision row =? i64 (revision previous) then
        Ok (with_environments c (<[key := environment_columns next]> (ct_environments c)))
      else environmentUpdateMiss c previous
  | None => environmentUpdateMiss c previous
  end.

(** ** The control plane's edits *)
Definition Environment_read (c : catalog) (project : ProjectID) (ref : EnvironmentRef) : res Environment :=
  validateEnvironmentIdentity project ref;; loadEnvironment c project ref.

Record ConfigureEnvironmentRequest : Type := { CE_Name : option string; CE_Rank : option Z; CE_ClearRank : bool }.
Inductive environment_edit : Type :=
| edit_configure (request : ConfigureEnvironmentRequest)
| edit_archive
| edit_activate.

Definition configure (request : ConfigureEnvironmentRequest) (current : Environment) : res Environment :=
  next ← (match CE_Name request with Some name => Rename current name | None => Ok current end);
  match CE_Rank request with
  | Some r => WithRank next r
  | None => if CE_ClearRank request then Ok (WithoutRank next) else Ok next
  end.
Definition check_edit (edit : environment_edit) : res unit :=
  match edit with
  | edit_configure request =>
      let ranked := bool_decide (is_Some (CE_Rank request)) in
      fail_if (ranked && CE_ClearRank request) [ErrInvalidID];;
      fail_if (negb (bool_decide (is_Some (CE_Name request))) && negb ranked && negb (CE_ClearRank request)) [ErrInvalidID]
  | _ => Ok tt
  end.
Definition apply_edit (edit : environment_edit) (current : Environment) : res Environment :=
  match edit with
  | edit_configure request => configure request current
  | edit_archive => Archive current
  | edit_activate => Activate current
  end.

(** The read of [mutateEnvironment] and what it computes from it; the write is the store's update. *)
Definition edit_read (c : catalog) (project : ProjectID) (ref : EnvironmentRef) (rev : Z) (edit : environment_edit)
    : res (Environment * Environment) :=
  check_edit edit;;
  current ← Environment_read c project ref;
  fail_if (negb (revision current =? rev)) [ErrStoreConflict];;
  next ← apply_edit edit current;
  Ok (current, atRevision next (u64 (revision current + 1))).
Definition mutateEnvironment (c : catalog) (project : ProjectID) (ref : EnvironmentRef) (rev : Z) (edit : environment_edit)
    : res (Environment * catalog) :=
  '(current, next) ← edit_read c project ref rev edit;
  c' ← Store_UpdateEnvironment c current next;
  Ok (next, c').

Definition PromotionOrder (c : catalog) (project : ProjectID) (from to : EnvironmentRef) : res bool :=
  source ← Environment_read c project from;
  target ← Environment_read c project to;
  Ok (CanPromote source target).

(** ** Promotions *)
Definition lockEnvironment (c : catalog) (project : ProjectID) (ref : EnvironmentRef) : res unit :=
  fail_if (negb (environmentExists c project ref)) [ErrStoreNotFound].
(** Byte order of the two refs, so that two decisions lock in one order. *)
Definition promotionEnvironmentOrder (p : Promotion) : list EnvironmentRef :=
  let s := Ref (source p) in let t := Ref (target p) in
  if string_lt t s then [t; s] else [s; t].

Definition insertPromotionLocked (c : catalog) (p : Promotion) : res catalog :=
  src ← loadEnvironment c (pr_projectID p) (Ref (source p));
  tgt ← loadEnvironment c (pr_projectID p) (Ref (target p));
  fail_if (negb (revision src =? Revision (source p))) [ErrStoreConflict];;
  fail_if (negb (revision tgt =? Revision (target p))) [ErrStoreConflict];;
  fail_if (negb (CanPromote src tgt)) [ErrStoreConflict];;
  m ← insert_row (ct_promotions c) (pr_id p) (promotion_columns p);
  requireExists (ct_projects c) (pr_projectID p);;
  requireExists (ct_candidates c) (pr_candidateID p);;
  requireExists (ct_candidates c) (gr_referenceCandidate (gateResult p));;
  Ok (with_promotions c m).
Definition Store_CreatePromotion (c : catalog) (p : Promotion) : res catalog :=
  fail_if ((pr_id p =s "") || (pr_projectID p =s "")) [ErrInvalidID];;
  _ ← foldM (fun _ ref => lockEnvironment c (pr_projectID p) ref) tt (promotionEnvironmentOrder p);
  insertPromotionLocked c p.
Definition loadPromotion (c : catalog) (id : PromotionID) : res Promotion :=
  match ct_promotions c !! id with None => Err [ErrStoreNotFound] | Some row => restorePromotionRow row end.
Definition Store_Promotion (c : catalog) (id : PromotionID) : res Promotion :=
  fail_if (id =s "") [ErrInvalidID];; loadPromotion c id.

(** ** Listings: keyset pages by identifier *)
Definition validateListPage (after : string) (limit : Z) : res unit :=
  fail_if ((limit <? 1) || (MaxListPage <? limit)) [ErrInvalidID];;
  if after <>s "" then validateID after else Ok tt.

(** A page of a table: the rows a condition selects, after a key, read one by one. *)
Definition select_page {R A} (rows : gmap string R) (where_ : string -> R -> bool) (read : string -> R -> res A)
    (after : string) (limit : Z) : res (list A) :=
  mapM (fun item => read (fst item) (snd item))
    (key_page fst (List.filter (fun item => where_ (fst item) (snd item)) (map_to_list rows)) after limit).

Definition queryProjectPage (c : catalog) (after : ProjectID) (limit : Z) : res (list Project) :=
  select_page (ct_projects c) (fun _ _ => true) project_of_row after limit.
Definition queryAgentPage (c : catalog) (project : ProjectID) (after : AgentID) (limit : Z) : res (list Agent) :=
  select_page (ct_agents c) (fun _ row => fst row =s project) agent_of_row after limit.
Definition queryCandidatePage (c : catalog) (agent : AgentID) (after : CandidateID) (limit : Z) : res (list Domain.Candidate) :=
  select_page (ct_candidates c) (fun _ row => fst row =s agent) candidate_of_row after limit.
Definition queryPromotionPage (c : catalog) (project : ProjectID) (after : PromotionID) (limit : Z) : res (list Promotion) :=
  select_page (ct_promotions c) (fun _ row => p_projectID row =s project) (fun _ row => restorePromotionRow row) after limit.
Definition queryRunPage (t : run_table) (candidate : CandidateID) (after : EvaluationRunID) (limit : Z) : res (list EvaluationRun) :=
  select_page t (fun _ row => sr_candidateID (fst row) =s candidate) (fun id row => rehydrateRun id (fst row)) after limit.
Definition environment_rows (c : catalog) (project : ProjectID) : gmap EnvironmentRef environment_row :=
  default ∅ (map_curry (M1 := gmap ProjectID) (M2 := gmap EnvironmentRef) (ct_environments c) !! project).
Definition queryEnvironmentPage (c : catalog) (project : ProjectID) (after : EnvironmentRef) (limit : Z) : res (list Environment) :=
  select_page (environment_rows c project) (fun _ _ => true) (restoreEnvironmentRow project) after limit.

Definition Store_Projects (c : catalog) (after : ProjectID) (limit : Z) : res (list Project) :=
  validateListPage after limit;; queryProjectPage c after limit.
Definition Store_ProjectAgents (c : catalog) (project : ProjectID) (after : AgentID) (limit : Z) : res (list Agent) :=
  validateListPage after limit;; requireExists (ct_projects c) project;; queryAgentPage c project after limit.
Definition Store_AgentCandidates (c : catalog) (agent : AgentID) (after : CandidateID) (limit : Z) : res (list Domain.Candidate) :=
  validateListPage after limit;; requireExists (ct_agents c) agent;; queryCandidatePage c agent after limit.
Definition Store_CandidateEvaluationRuns (c : catalog) (t : run_table) (candidate : CandidateID) (after : EvaluationRunID) (limit : Z)
    : res (list EvaluationRun) :=
  validateListPage after limit;; requireExists (ct_candidates c) candidate;; queryRunPage t candidate after limit.
Definition Store_ProjectEnvironments (c : catalog) (project : ProjectID) (after : EnvironmentRef) (limit : Z) : res (list Environment) :=
  validateEnvironmentPage after limit;; requireExists (ct_projects c) project;; queryEnvironmentPage c project after limit.
Definition Store_ProjectPromotions (c : catalog) (project : ProjectID) (after : PromotionID) (limit : Z) : res (list Promotion) :=
  validatePromotionPage after limit;; requireExists (ct_projects c) project;; queryPromotionPage c project after limit.

Definition ControlPlane_ProjectAgents (c : catalog) (project : ProjectID) (after : AgentID) (limit : Z) : res (list Agent) :=
  validateID project;; Store_ProjectAgents c project after limit.
Definition ControlPlane_AgentCandidates (c : catalog) (agent : AgentID) (after : CandidateID) (limit : Z) : res (list Domain.Candidate) :=
  validateID agent;; Store_AgentCandidates c agent after limit.
Definition ControlPlane_CandidateEvaluationRuns (c : catalog) (t : run_table) (candidate : CandidateID) (after : EvaluationRunID) (limit : Z)
    : res (list EvaluationRun) :=
  validateID candidate;; Store_CandidateEvaluationRuns c t candidate after limit.
Definition ControlPlane_ProjectEnvironments (c : catalog) (project : ProjectID) (after : EnvironmentRef) (limit : Z) : res (list Environment) :=
  validateID project;; Store_ProjectEnvironments c project after limit.
Definition ControlPlane_Promotion (c : catalog) (id : PromotionID) : res Promotion := validateID id;; Store_Promotion c id.
Definition ControlPlane_ProjectPromotions (c : catalog) (project : ProjectID) (after : PromotionID) (limit : Z) : res (list Promotion) :=
  validateID project;; Store_ProjectPromotions c project after limit.


(** ** Edits under interleaving

    An edit is a read and, later, a compare-and-set; between them other clients read, write,
    create and promote.  [es_log] is the specification's: the edits whose write was
    acknowledged, in the order of the writes. *)
Definition env_key (e : Environment) : ProjectID * EnvironmentRef := (env_projectID e, env_ref e).
Record edit_system : Type := {
  es_catalog : catalog;
  es_pending : list (environment_edit * Environment * Environment);
  es_created : gmap (ProjectID * EnvironmentRef) Environment;
  es_log : list ((ProjectID * EnvironmentRef) * environment_edit);
}.
Definition with_catalog (s : edit_system) (c : catalog) : edit_system :=
  {| es_catalog := c; es_pending := es_pending s; es_created := es_created s; es_log := es_log s |}.

(** The rank of a request is a uint16. *)
Definition edit_typed (edit : environment_edit) : Prop :=
  match edit with edit_configure r => forall v, CE_Rank r = Some v -> 0 <= v | _ => True end.

Inductive edit_step : edit_system -> edit_system -> Prop :=
| step_read s project ref rev edit current next :
    edit_typed edit -> edit_read (es_catalog s) project ref rev edit = Ok (current, next) -> revision current < max_i64 ->
    edit_step s {| es_catalog := es_catalog s; es_pending := (edit, current, next) :: es_pending s;
                   es_created := es_created s; es_log := es_log s |}
| step_write s before edit current next after c' :
    es_pending s = (before ++ (edit, current, next) :: after)%list ->
    Store_UpdateEnvironment (es_catalog s) current next = Ok c' ->
    edit_step s {| es_catalog := c'; es_pending := (before ++ after)%list; es_created := es_created s;
                   es_log := (es_log s ++ [(env_key current, edit)])%list |}
| step_abandon s before edit current next after :
    es_pending s = (before ++ (edit, current, next) :: after)%list ->
    edit_step s {| es_catalog := es_catalog s; es_pending := (before ++ after)%list; es_created := es_created s; es_log := es_log s |}
| step_environment s ref project name r e c' :
    0 <= r -> (NewEnvironment ref project name = Ok e \/ NewRankedEnvironment ref project name r = Ok e) ->
    Store_CreateEnvironment (es_catalog s) e = Ok c' ->
    edit_step s {| es_catalog := c'; es_pending := es_pending s; es_created := <[env_key e := e]> (es_created s); es_log := es_log s |}
| step_project s id name p c' :
    NewProject id name = Ok p -> Store_CreateProject (es_catalog s) p = Ok c' -> edit_step s (with_catalog s c')
| step_agent s id project name a c' :
    NewAgent id project name = Ok a -> Store_CreateAgent (es_catalog s) a = Ok c' -> edit_step s (with_catalog s c')
| step_candidate s id agent meta x c' :
    NewCandidate id agent meta = Ok x -> Store_CreateCandidate (es_catalog s) x = Ok c' -> edit_step s (with_catalog s c')
| step_promotion s d p c' :
    NewPromotion d = Ok p -> env_ok (Source d) -> env_ok (Target d) -> gate_row_ok (GateResult d) ->
    Store_CreatePromotion (es_catalog s) p = Ok c' -> edit_step s (with_catalog s c').

Definition empty_system : edit_system :=
  {| es_catalog := empty_catalog; es_pending := []; es_created := ∅; es_log := [] |}.
Definition edit_reachable (s : edit_system) : Prop := rtc edit_step empty_system s.

(** One client alone: each edit applied to the result of the one before it. *)
Definition serial_edit (e : Environment) (edit : environment_edit) : res Environment :=
  next ← apply_edit edit e; Ok (atRevision next (u64 (revision e + 1))).
Definition edits_of (key : ProjectID * EnvironmentRef) (log : list ((ProjectID * EnvironmentRef) * environment_edit)) : list environment_edit :=
  omap (fun item => if decide (fst item = key) then Some (snd item) else None) log.
#[local] Arguments edits_of : simpl never.

(** *** Lemmas *)
Lemma serial_edit_ok e edit e' : env_ok e -> revision e < max_i64 -> edit_typed edit -> serial_edit e edit = Ok e' ->
  env_ok e' /\ env_key e' = env_key e /\ revision e' = revision e + 1.
Proof.
  intros [H1 H2 H3 H4 H5 H6] Hr Ht H. unfold serial_edit in H.
  assert (Hi : u64 (revision e + 1) = revision e + 1) by (apply u64_small; ulia).
  apply bind_Ok in H as (n & Hn & [= <-]). rewrite Hi.
  assert (Hkeep : forall e1, env_ref e1 = env_ref e -> env_projectID e1 = env_projectID e -> validateName (env_name e1) = Ok tt ->
    (if ranked e1 then 0 <= rank e1 <= maxEnvironmentRank else rank e1 = 0) -> EnvironmentStatus_valid (env_status e1) = true ->
    env_ok (atRevision e1 (revision e + 1)) /\ env_key (atRevision e1 (revision e + 1)) = env_key e /\ revision e + 1 = revision e + 1).
  { intros e1 E1 E2 ? ? ?. unfold env_key. cbn. rewrite E1, E2. split; [|done]. split; cbn; rewrite ?E1, ?E2; done || ulia. }
  apply Hkeep; destruct edit as [[name r clear]| |]; cbn in Hn, Ht; try by injection Hn as <-.
  all: unfold configure, Rename, WithRank in Hn; cbn in Hn; destruct name as [name|], r as [r|], clear; res_inv; subst; cbn; try done.
  all: split; [by apply Ht|by apply Z.ltb_ge].
Qed.

Lemma edits_of_app key l1 l2 : edits_of key (l1 ++ l2) = (edits_of key l1 ++ edits_of key l2)%list.
Proof. apply omap_app. Qed.

(** A value read from a row: the row still holds it, or a later revision. *)
Definition current_or_newer (e : Environment) (row : environment_row) : Prop :=
  revision e <= er_revision row /\ (er_revision row = revision e -> row = environment_columns e).
(** Rows only move forward, and two rows at one revision are the same row. *)
Definition environments_evolve (m m' : gmap (ProjectID * EnvironmentRef) environment_row) : Prop :=
  forall key row, m !! key = Some row -> exists row', m' !! key = Some row' /\
    er_revision row <= er_revision row' /\ (er_revision row' = er_revision row -> row' = row).

#[export] Instance environments_evolve_preorder : PreOrder environments_evolve.
Proof.
  split.
  - intros m key row H. exists row. done.
  - intros m1 m2 m3 H12 H23 key row H. destruct (H12 _ _ H) as (r2 & H2 & Le2 & E2).
    destruct (H23 _ _ H2) as (r3 & H3 & Le3 & E3). exists r3. split_and!; [done|lia|].
    intros E. rewrite <- E2 by lia. apply E3. lia.
Qed.

Lemma evolve_newer m m' e : environments_evolve m m' ->
  (exists row, m !! env_key e = Some row /\ current_or_newer e row) -> exists row, m' !! env_key e = Some row /\ current_or_newer e row.
Proof.
  intros H (row & Hr & Hle & Heq). destruct (H _ _ Hr) as (row' & Hr' & Hle' & Heq'). exists row'. split; [done|].
  split; [lia|]. intros E. rewrite Heq' by lia. apply Heq. lia.
Qed.

(** The rows of the tables besides environments: each reads back, and its parents exist. *)
Record catalog_ok (c : catalog) : Prop := {
  co_projects : forall id name, ct_projects c !! id = Some name -> exists p, NewProject id name = Ok p;
  co_agents : forall id row, ct_agents c !! id = Some row ->
    (exists a, NewAgent id (fst row) (snd row) = Ok a) /\ is_Some (ct_projects c !! fst row);
  co_candidates : forall id row, ct_candidates c !! id = Some row ->
    (exists x, NewCandidate id (fst row) (snd row) = Ok x) /\ is_Some (ct_agents c !! fst row);
  co_environments : forall key row, ct_environments c !! key = Some row ->
    (exists e, row = environment_columns e /\ env_ok e /\ env_key e = key) /\ is_Some (ct_projects c !! fst key);
  co_promotions : forall id row, ct_promotions c !! id = Some row ->
    (exists p, restorePromotionRow row = Ok p /\ pr_id p = id /\ pr_projectID p = p_projectID row /\ validateID id = Ok tt) /\
    is_Some (ct_projects c !! p_projectID row) /\ is_Some (ct_candidates c !! p_candidateID row) /\
    is_Some (ct_candidates c !! referenceCandidateID row);
  co_limit : forall project, environmentCount c project <= maxProjectEnvironments;
}.

Lemma requireExists_iff {A} (table : gmap string A) id : requireExists table id = Ok tt <-> is_Some (table !! id).
Proof. unfold requireExists. rewrite fail_if_iff, negb_false_iff. apply bool_decide_eq_true. Qed.
Lemma insert_row_inv {A} (table : gmap string A) id row m : insert_row table id row = Ok m ->
  table !! id = None /\ m = <[id := row]> table.
Proof.
  unfold insert_row. intros H. res_inv. subst m. split; [|done].
  apply bool_decide_eq_false in Hok. by apply eq_None_not_Some.
Qed.
Lemma insert_keeps {A} (table : gmap string A) id row id' : is_Some (table !! id') -> is_Some (<[id := row]> table !! id').
Proof. intros H. destruct (decide (id = id')) as [->|Hne]; [by rewrite lookup_insert, decide_True|by rewrite lookup_insert_ne]. Qed.
#[export] Hint Resolve insert_keeps : catalog.

Lemma columns_inj e e' : env_ok e -> env_ok e' -> env_key e = env_key e' -> environment_columns e = environment_columns e' -> e = e'.
Proof.
  intros H H' K E. pose proof (restore_columns e H) as R. pose proof (restore_columns e' H') as R'.
  injection K as K1 K2. rewrite K1, K2, E in R. congruence.
Qed.
Lemma columns_revision e : env_ok e -> er_revision (environment_columns e) = revision e.
Proof. intros []. cbn. apply i64_small. ulia. Qed.

Lemma load_stored c key e : ct_environments c !! key = Some (environment_columns e) -> env_ok e -> env_key e = key ->
  loadEnvironment c (fst key) (snd key) = Ok e.
Proof. intros H He <-. unfold loadEnvironment. unfold env_key in *. cbn in *. rewrite H. by apply restore_columns. Qed.
Lemma load_ok c project ref e : catalog_ok c -> loadEnvironment c project ref = Ok e ->
  ct_environments c !! (project, ref) = Some (environment_columns e) /\ env_ok e /\ env_key e = (project, ref).
Proof.
  intros Hc H. unfold loadEnvironment in H. destruct (ct_environments c !! (project, ref)) as [row|] eqn:E; [|done].
  destruct (co_environments _ Hc _ _ E) as [(e' & -> & He' & K) _].
  unfold env_key in K. injection K as K1 K2. subst project ref. rewrite restore_columns in H by done. by injection H as <-.
Qed.

Lemma update_spec c current next edit c' : env_ok current -> revision current < max_i64 -> edit_typed edit ->
  serial_edit current edit = Ok next -> Store_UpdateEnvironment c current next = Ok c' ->
  exists row, ct_environments c !! env_key current = Some row /\ er_revision row = revision current /\
    c' = with_environments c (<[env_key current := environment_columns next]> (ct_environments c)).
Proof.
  intros Hc Hr Ht Hs H. unfold Store_UpdateEnvironment in H. apply bind_unit_iff in H as [_ H]. cbn zeta in H.
  unfold env_key. destruct (ct_environments c !! _) as [row|] eqn:E; [|by unfold environmentUpdateMiss in H; res_inv].
  destruct (Z.eqb_spec (er_revision row) (i64 (revision current))) as [Er|]; [|by unfold environmentUpdateMiss in H; res_inv].
  injection H as <-. exists row. rewrite i64_small in Er by (destruct Hc; ulia). done.
Qed.

Lemma edit_read_spec c project ref rev edit current next : catalog_ok c -> edit_read c project ref rev edit = Ok (current, next) ->
  ct_environments c !! env_key current = Some (environment_columns current) /\ env_ok current /\
  env_key current = (project, ref) /\ revision current = rev /\ serial_edit current edit = Ok next.
Proof.
  intros Hc H. unfold edit_read, Environment_read in H. res_inv. subst.
  destruct (load_ok _ _ _ _ Hc ltac:(eassumption)) as (H1 & H2 & H3). rewrite H3. split_and!; try done.
  - by apply Z.eqb_eq, negb_false_iff.
  - unfold serial_edit. match goal with H : apply_edit _ _ = Ok _ |- _ => by rewrite H end.
Qed.

Lemma count_insert c key row project : ct_environments c !! key = None ->
  environmentCount (with_environments c (<[key := row]> (ct_environments c))) project =
  (if fst key =s project then 1 else 0) + environmentCount c project.
Proof.
  intros H. unfold environmentCount. cbn.
  rewrite (Permutation_length (Permutation_filter_bool (fun item => (fst (fst item) =s project)%go) _ _ (map_to_list_insert _ key row H))).
  cbn. destruct (fst key =s project)%go; cbn [length]; lia.
Qed.
Lemma count_update c key row row' project : ct_environments c !! key = Some row ->
  environmentCount (with_environments c (<[key := row']> (ct_environments c))) project = environmentCount c project.
Proof.
  intros H. set (m := delete key (ct_environments c)). assert (Hm : m !! key = None) by apply lookup_delete_eq.
  pose proof (count_insert (with_environments c m) key row project Hm) as E.
  pose proof (count_insert (with_environments c m) key row' project Hm) as E'. unfold environmentCount, with_environments in *.
  cbn in *. unfold m in *. rewrite insert_delete_eq in E, E'. rewrite insert_id in E by done. exact (eq_trans E' (eq_sym E)).
Qed.

Lemma create_project_ok c id name p c' : catalog_ok c -> NewProject id name = Ok p -> Store_CreateProject c p = Ok c' ->
  catalog_ok c' /\ ct_environments c' = ct_environments c.
Proof.
  intros [H1 H2 H3 H4 H5 H6] Hp H. assert (E : p = {| Project_id := id; Project_name := name |}) by (unfold NewProject in Hp; res_inv; by subst).
  subst p. unfold Store_CreateProject in H. res_inv. subst c'.
  match goal with H : insert_row _ _ _ = Ok _ |- _ => apply insert_row_inv in H as [Hn ->] end. split; [|done]. split; cbn.
  - intros id' name' [[<- <-]|[_ ?]]%lookup_insert_Some; eauto.
  - intros id' row Hr. destruct (H2 _ _ Hr). eauto with catalog.
  - done.
  - intros key row Hr. destruct (H4 _ _ Hr). eauto with catalog.
  - intros id' row Hr. destruct (H5 _ _ Hr) as (? & ? & ? & ?). split_and!; eauto with catalog.
  - done.
Qed.
Lemma create_agent_ok c id project name a c' : catalog_ok c -> NewAgent id project name = Ok a -> Store_CreateAgent c a = Ok c' ->
  catalog_ok c' /\ ct_environments c' = ct_environments c.
Proof.
  intros [H1 H2 H3 H4 H5 H6] Hp H.
  assert (E : a = {| Agent_id := id; Agent_projectID := project; Agent_name := name |}) by (unfold NewAgent in Hp; res_inv; by subst).
  subst a. unfold Store_CreateAgent in H. res_inv. subst c'. cbn in *.
  match goal with H : insert_row _ _ _ = Ok _ |- _ => apply insert_row_inv in H as [Hn ->] end.
  match goal with H : requireExists _ _ = Ok tt |- _ => apply requireExists_iff in H end. split; [|done]. split; cbn.
  - done.
  - intros id' row [[<- <-]|[_ ?]]%lookup_insert_Some; cbn; eauto.
  - intros id' row Hr. destruct (H3 _ _ Hr). eauto with catalog.
  - done.
  - done.
  - done.
Qed.
Lemma create_candidate_ok c id agent meta x c' : catalog_ok c -> NewCandidate id agent meta = Ok x -> Store_CreateCandidate c x = Ok c' ->
  catalog_ok c' /\ ct_environments c' = ct_environments c.
Proof.
  intros [H1 H2 H3 H4 H5 H6] Hp H.
  assert (E : x = {| Candidate_id := id; Candidate_agentID := agent; Candidate_metadata := meta |}) by (unfold NewCandidate in Hp; res_inv; by subst).
  subst x. unfold Store_CreateCandidate in H. res_inv. subst c'. cbn in *.
  match goal with H : insert_row _ _ _ = Ok _ |- _ => apply insert_row_inv in H as [Hn ->] end.
  match goal with H : requireExists _ _ = Ok tt |- _ => apply requireExists_iff in H end. split; [|done]. split; cbn.
  - done.
  - done.
  - intros id' row [[<- <-]|[_ ?]]%lookup_insert_Some; cbn; eauto.
  - done.
  - intros id' row Hr. destruct (H5 _ _ Hr) as (? & ? & ? & ?). split_and!; eauto with catalog.
  - done.
Qed.

Lemma new_environment_ok ref project name r e : 0 <= r ->
  (NewEnvironment ref project name = Ok e \/ NewRankedEnvironment ref project name r = Ok e) -> env_ok e /\ revision e = 1.
Proof.
  intros Hr H. assert (Hnew : forall e, NewEnvironment ref project name = Ok e -> env_ok e /\ revision e = 1).
  { intros e' H'. split; [exact (NewEnvironment_ok _ _ _ _ H')|]. unfold NewEnvironment in H'. res_inv. by subst e'. }
  destruct H as [H|H]; [by apply Hnew|]. unfold NewRankedEnvironment in H. apply bind_Ok in H as (e0 & H0 & H).
  apply bind_Ok in H as (e1 & H1 & [= <-]). destruct (Hnew _ H0) as [[] E]. unfold WithRank in H1. res_inv. subst e1. rewrite E.
  split; [|done]. split; cbn; try done. split; [done|]. by apply Z.ltb_ge.
Qed.

Lemma create_environment_ok c e c' : catalog_ok c -> env_ok e -> Store_CreateEnvironment c e = Ok c' ->
  catalog_ok c' /\ ct_environments c !! env_key e = None /\
  c' = with_environments c (<[env_key e := environment_columns e]> (ct_environments c)).
Proof.
  intros [H1 H2 H3 H4 H5 H6] He H. unfold Store_CreateEnvironment, insertEnvironmentLocked, lockProject in H. res_inv.
  repeat match goal with
  | H : (negb _) = false |- _ => apply negb_false_iff, bool_decide_eq_true in H
  | H : environmentExists _ _ _ = false |- _ => apply bool_decide_eq_false, eq_None_not_Some in H
  | H : (_ <=? _) = false |- _ => apply Z.leb_gt in H
  end.
  subst c'. split; [|done]. split; cbn; try done.
  - intros key row [[<- <-]|[_ ?]]%lookup_insert_Some; [|by apply H4]. split; [by exists e|done].
  - intros project. fold (env_key e). rewrite count_insert by done. cbn. specialize (H6 project).
    destruct (String.eqb_spec (env_projectID e) project) as [<-|]; lia.
Qed.

Lemma update_catalog_ok c e e' : catalog_ok c -> env_ok e' -> env_key e' = env_key e -> is_Some (ct_environments c !! env_key e) ->
  catalog_ok (with_environments c (<[env_key e := environment_columns e']> (ct_environments c))).
Proof.
  intros [H1 H2 H3 H4 H5 H6] He Hk [row Hr]. split; cbn; try done.
  - intros key row' [[<- <-]|[_ ?]]%lookup_insert_Some; [|by apply H4]. split; [by exists e'|]. by destruct (H4 _ _ Hr).
  - intros project. by rewrite (count_update _ _ row).
Qed.

Lemma promotion_key p : p_projectID (promotion_columns p) = pr_projectID p /\ p_candidateID (promotion_columns p) = pr_candidateID p /\
  referenceCandidateID (promotion_columns p) = gr_referenceCandidate (gateResult p).
Proof. done. Qed.

(** What a stored promotion rested on, in the state it was stored in. *)
Lemma create_promotion_spec c p c' : catalog_ok c -> Store_CreatePromotion c p = Ok c' ->
  exists src tgt, loadEnvironment c (pr_projectID p) (Ref (source p)) = Ok src /\
    loadEnvironment c (pr_projectID p) (Ref (target p)) = Ok tgt /\
    revision src = Revision (source p) /\ revision tgt = Revision (target p) /\ CanPromote src tgt = true /\
    ct_promotions c !! pr_id p = None /\ is_Some (ct_projects c !! pr_projectID p) /\
    is_Some (ct_candidates c !! pr_candidateID p) /\ is_Some (ct_candidates c !! gr_referenceCandidate (gateResult p)) /\
    c' = with_promotions c (<[pr_id p := promotion_columns p]> (ct_promotions c)).
Proof.
  intros Hc H. unfold Store_CreatePromotion in H. apply bind_unit_iff in H as [_ H]. apply bind_Ok in H as (_ & _ & H).
  unfold insertPromotionLocked in H. apply bind_Ok in H as (src & Hs & H). apply bind_Ok in H as (tgt & Ht & H).
  exists src, tgt. res_inv. match goal with H : insert_row _ _ _ = Ok _ |- _ => apply insert_row_inv in H as [Hn ->] end.
  repeat match goal with
  | H : negb _ = false |- _ => apply negb_false_iff in H
  | H : (_ =? _) = true |- _ => apply Z.eqb_eq in H
  | H : requireExists _ _ = Ok tt |- _ => apply requireExists_iff in H
  end. done.
Qed.

Lemma create_promotion_ok c d p c' : catalog_ok c -> NewPromotion d = Ok p -> env_ok (Source d) -> env_ok (Target d) ->
  gate_row_ok (GateResult d) -> Store_CreatePromotion c p = Ok c' -> catalog_ok c' /\ ct_environments c' = ct_environments c.
Proof.
  intros Hc Hp Hs Ht Hg H. pose proof (promotion_columns_restore _ _ Hp Hs Ht Hg) as Hr.
  destruct (create_promotion_spec _ _ _ Hc H) as (src & tgt & _ & _ & _ & _ & _ & Hn & P1 & P2 & P3 & ->).
  split; [|done]. destruct Hc as [H1 H2 H3 H4 H5 H6]. split; cbn; try done.
  intros id row [[<- <-]|[_ ?]]%lookup_insert_Some; [|by apply H5]. destruct (promotion_key p) as (-> & -> & ->).
  split; [|done]. exists p. split_and!; try done. apply NewPromotion_spec in Hp as (V & _ & _ & _ & _ & _ & _ & ->). exact V.
Qed.

Lemma empty_catalog_ok : catalog_ok empty_catalog.
Proof. by split. Qed.

Definition pending_ok (c : catalog) (item : environment_edit * Environment * Environment) : Prop :=
  let '(edit, current, next) := item in
  edit_typed edit /\ env_ok current /\ revision current < max_i64 /\ serial_edit current edit = Ok next /\
  exists row, ct_environments c !! env_key current = Some row /\ current_or_newer current row.

(** The system's invariant: the rows are what the acknowledged edits, one after another, made. *)
Record edits_ok (s : edit_system) : Prop := {
  ei_catalog : catalog_ok (es_catalog s);
  ei_rows : forall key row, ct_environments (es_catalog s) !! key = Some row ->
    exists e0 e, es_created s !! key = Some e0 /\ foldM serial_edit e0 (edits_of key (es_log s)) = Ok e /\
      row = environment_columns e /\ env_ok e /\ env_key e = key /\ revision e = 1 + Z.of_nat (length (edits_of key (es_log s)));
  ei_fresh : forall key, ct_environments (es_catalog s) !! key = None -> edits_of key (es_log s) = [];
  ei_pending : Forall (pending_ok (es_catalog s)) (es_pending s);
}.

Lemma pending_evolve c c' l : environments_evolve (ct_environments c) (ct_environments c') ->
  Forall (pending_ok c) l -> Forall (pending_ok c') l.
Proof.
  intros H Hl. eapply Forall_impl; [exact Hl|]. intros [[edit current] next] (H1 & H2 & H3 & H4 & H5). split_and!; try done.
  by apply (evolve_newer (ct_environments c)).
Qed.

Lemma evolve_update m key row row' : m !! key = Some row -> er_revision row < er_revision row' -> environments_evolve m (<[key := row']> m).
Proof.
  intros H Hlt key' r Hr. destruct (decide (key = key')) as [<-|Hne].
  - exists row'. rewrite lookup_insert, decide_True by done. simplify_eq. split_and!; [done|lia|lia].
  - exists r. rewrite lookup_insert_ne by done. done.
Qed.
Lemma evolve_insert (m : gmap (ProjectID * EnvironmentRef) environment_row) key row : m !! key = None -> environments_evolve m (<[key := row]> m).
Proof. intros H key' r Hr. exists r. rewrite lookup_insert_ne by (intros <-; congruence). done. Qed.

(** A write that the compare-and-set accepted was computed from what the row holds. *)
Lemma write_current s edit current next c' : edits_ok s -> pending_ok (es_catalog s) (edit, current, next) ->
  Store_UpdateEnvironment (es_catalog s) current next = Ok c' ->
  env_ok next /\ env_key next = env_key current /\ revision next = revision current + 1 /\ serial_edit current edit = Ok next /\
  ct_environments (es_catalog s) !! env_key current = Some (environment_columns current) /\ env_ok current /\
  c' = with_environments (es_catalog s) (<[env_key current := environment_columns next]> (ct_environments (es_catalog s))).
Proof.
  intros Hs (Ht & Hc & Hr & Hn & row & Hrow & Hnew) Hw. destruct (serial_edit_ok _ _ _ Hc Hr Ht Hn) as (N1 & N2 & N3).
  destruct (update_spec _ _ _ _ _ Hc Hr Ht Hn Hw) as (row' & Hrow' & Er & ->).
  rewrite Hrow in Hrow'. injection Hrow' as <-. rewrite (proj2 Hnew Er) in Hrow. done.
Qed.

Lemma same_environments_ok s c' : edits_ok s -> catalog_ok c' -> ct_environments c' = ct_environments (es_catalog s) ->
  edits_ok (with_catalog s c').
Proof.
  intros [H1 H2 H3 H4] Hc E. split; cbn; rewrite ?E; try done. by apply (pending_evolve (es_catalog s)); [rewrite E|].
Qed.

Lemma edits_of_snoc key key' edit log : edits_of key (log ++ [(key', edit)]) =
  (edits_of key log ++ if decide (key' = key) then [edit] else [])%list.
Proof. rewrite edits_of_app. f_equal. unfold edits_of. cbn. by destruct (decide _). Qed.

Lemma edit_step_ok s s' : edits_ok s -> edit_step s s' ->
  edits_ok s' /\ environments_evolve (ct_environments (es_catalog s)) (ct_environments (es_catalog s')).
Proof.
  intros Hs Hstep. destruct Hstep as [s project ref rev edit current next Ht H Hr|s before edit current next after c' Ep H
    |s before edit current next after Ep|s ref project name r e c' Hr Hn H|s id name p c' Hn H|s id project name a c' Hn H
    |s id agent meta x c' Hn H|s d p c' Hn Hso Hta Hg H].
  - split; [|reflexivity]. destruct Hs as [H1 H2 H3 H4]. split; cbn; try done. constructor; [|done].
    destruct (edit_read_spec _ _ _ _ _ _ _ H1 H) as (Hrow & He & _ & _ & Hn). split_and!; try done.
    exists (environment_columns current). split; [done|]. split; [|done]. by rewrite columns_revision.
  - pose proof (ei_pending _ Hs) as Hp. rewrite Ep, Forall_app, Forall_cons in Hp. destruct Hp as (Hp1 & Hp & Hp2).
    destruct (write_current _ _ _ _ _ Hs Hp H) as (N1 & N2 & N3 & N4 & N5 & N6 & ->).
    assert (Hev : environments_evolve (ct_environments (es_catalog s))
              (<[env_key current := environment_columns next]> (ct_environments (es_catalog s)))).
    { apply (evolve_update _ _ _ _ N5). rewrite !columns_revision by done. lia. }
    split; [|done]. destruct Hs as [H1 H2 H3 H4]. split; cbn.
    + by apply update_catalog_ok.
    + intros key row Hrow. rewrite edits_of_snoc. apply lookup_insert_Some in Hrow as [[<- <-]|[Hne Hrow]].
      * rewrite decide_True by done. destruct (H2 _ _ N5) as (e0 & e & E1 & E2 & E3 & E4 & E5 & E6).
        apply columns_inj in E3 as <-; [|done..]. exists e0, next. split_and!; try done.
        -- rewrite foldM_app, E2. cbn. by rewrite N4.
        -- rewrite length_app. cbn [length]. lia.
      * rewrite decide_False, app_nil_r by done. by apply H2.
    + intros key [Hrow Hne]%lookup_insert_None. rewrite edits_of_snoc, decide_False, app_nil_r by done. by apply H3.
    + apply (pending_evolve (es_catalog s)); [done|]. by apply Forall_app.
  - split; [|reflexivity]. destruct Hs as [H1 H2 H3 H4]. split; cbn; try done.
    rewrite Ep, Forall_app, Forall_cons in H4. apply Forall_app. tauto.
  - destruct (new_environment_ok _ _ _ _ _ Hr Hn) as [He Erev].
    destruct (create_environment_ok _ _ _ (ei_catalog _ Hs) He H) as (Hc & Hnone & ->).
    assert (Hev := evolve_insert _ (env_key e) (environment_columns e) Hnone).
    split; [|done]. destruct Hs as [H1 H2 H3 H4]. split; cbn; [done| | |].
    + intros key row [[<- <-]|[Hne Hrow]]%lookup_insert_Some.
      * rewrite lookup_insert, decide_True by done. exists e, e. rewrite (H3 _ Hnone). done.
      * rewrite lookup_insert_ne by done. by apply H2.
    + intros key [Hrow _]%lookup_insert_None. by apply H3.
    + by apply (pending_evolve (es_catalog s)).
  - destruct (create_project_ok _ _ _ _ _ (ei_catalog _ Hs) Hn H) as [Hc E]. split; [by apply same_environments_ok|cbn; by rewrite E].
  - destruct (create_agent_ok _ _ _ _ _ _ (ei_catalog _ Hs) Hn H) as [Hc E]. split; [by apply same_environments_ok|cbn; by rewrite E].
  - destruct (create_candidate_ok _ _ _ _ _ _ (ei_catalog _ Hs) Hn H) as [Hc E]. split; [by apply same_environments_ok|cbn; by rewrite E].
  - destruct (create_promotion_ok _ _ _ _ (ei_catalog _ Hs) Hn Hso Hta Hg H) as [Hc E]. split; [by apply same_environments_ok|cbn; by rewrite E].
Qed.

Lemma edit_steps_ok s s' : edits_ok s -> rtc edit_step s s' ->
  edits_ok s' /\ environments_evolve (ct_environments (es_catalog s)) (ct_environments (es_catalog s')).
Proof.
  intros Hs H. induction H as [s|s s1 s2 H _ IH]; [split; [done|reflexivity]|].
  destruct (edit_step_ok _ _ Hs H) as [H1 E1]. destruct (IH H1) as [H2 E2]. split; [done|by transitivity (ct_environments (es_catalog s1))].
Qed.
Lemma edit_reachable_ok s : edit_reachable s -> edits_ok s.
Proof. intros H. by apply (edit_steps_ok empty_system). Qed.

(** A value read earlier whose revision is still current is the value stored now. *)
Lemma read_current s s' project ref e e' : edit_reachable s -> rtc edit_step s s' ->
  loadEnvironment (es_catalog s) project ref = Ok e -> loadEnvironment (es_catalog s') project ref = Ok e' ->
  revision e' = revision e -> e' = e.
Proof.
  intros Hs Hss H H' Er. pose proof (edit_reachable_ok _ Hs) as Ho. destruct (edit_steps_ok _ _ Ho Hss) as [Ho' Hev].
  destruct (load_ok _ _ _ _ (ei_catalog _ Ho) H) as (R & E & K). destruct (load_ok _ _ _ _ (ei_catalog _ Ho') H') as (R' & E' & K').
  destruct (Hev _ _ R) as (row & Hrow & _ & Heq). rewrite R' in Hrow. injection Hrow as <-.
  apply columns_inj; [done..|congruence|]. apply Heq. rewrite !columns_revision by done. exact Er.
Qed.

(** ** Walking a listing

    A reader asks for pages, each from the last item of the one before, until one is empty. *)
Fixpoint list_all {A} (fetch : string -> res (list A)) (cursor_of : A -> string) (fuel : nat) (after : string) : res (list A) :=
  match fuel with
  | O => Ok []
  | S fuel =>
      found ← fetch after;
      match last found with
      | None => Ok []
      | Some x => rest ← list_all fetch cursor_of fuel (cursor_of x); Ok (found ++ rest)%list
      end
  end.

Lemma mapM_app {A B} (f : A -> res B) l1 l2 :
  mapM f (l1 ++ l2) = (a ← mapM f l1; b ← mapM f l2; Ok (a ++ b)%list).
Proof.
  induction l1 as [|x l1 IH]; cbn; [by destruct (mapM f l2)|]. destruct (f x); [|done]. cbn. rewrite IH.
  destruct (mapM f l1); [|done]. cbn. by destruct (mapM f l2).
Qed.
Lemma mapM_forall {A B} (f : A -> res B) (g : A -> B) l : Forall (fun x => f x = Ok (g x)) l -> mapM f l = Ok (g <$> l).
Proof. induction 1 as [|x l Hx _ IH]; [done|]. cbn. by rewrite Hx, IH. Qed.

Definition ids_sorted (l : list string) : Prop := StronglySorted (fun a b => string_lt a b = true) l.
(** The answer of a walk: the ids ascend, so each occurs once, and exactly the wanted items are there. *)
Definition complete_listing {A} (id : A -> string) (wanted : A -> Prop) (answer : res (list A)) : Prop :=
  exists l, answer = Ok l /\ ids_sorted (id <$> l) /\ forall a, a ∈ l <-> wanted a.

Lemma NoDup_keys_filter {A B} (f : A * B -> bool) (l : list (A * B)) : NoDup l.*1 -> NoDup (List.filter f l).*1.
Proof.
  induction l as [|x l IH]; cbn; [done|]. intros [Hn Hnd]%NoDup_cons. destruct (f x); [|by apply IH]. cbn. constructor; [|by apply IH].
  intros (y & E & Hy)%list_elem_of_fmap. apply Hn, list_elem_of_fmap. exists y. split; [done|].
  apply list_elem_of_In, filter_In in Hy as [Hy _]. by apply list_elem_of_In.
Qed.

Section listing.
Context {R A : Type} (rows : gmap string R) (where_ : string -> R -> bool) (read : string -> R -> res A) (id : A -> string).
Context (limit : Z) (fetch : string -> res (list A)).
Context (Hread : forall k row, rows !! k = Some row -> where_ k row = true -> k <> "" /\ exists a, read k row = Ok a /\ id a = k).
Context (Hlimit : 1 <= limit).
Context (Hfetch : forall after, (after = "" \/ exists row, rows !! after = Some row /\ where_ after row = true) ->
  fetch after = select_page rows where_ read after limit).

Let rd (item : string * R) : res A := read (fst item) (snd item).
Let selected : list (string * R) := List.filter (fun item => where_ (fst item) (snd item)) (map_to_list rows).
Let beyond (cursor : string) (item : string * R) : bool := string_lt cursor (fst item).
Let reads (item : string * R) (a : A) : Prop := rd item = Ok a /\ id a = fst item.

Lemma elem_of_selected k row : (k, row) ∈ selected <-> rows !! k = Some row /\ where_ k row = true.
Proof. unfold selected. rewrite list_elem_of_In, filter_In, <- list_elem_of_In, elem_of_map_to_list. done. Qed.

Lemma reads_all l : (forall x, x ∈ l -> x ∈ selected) -> exists found, mapM rd l = Ok found /\ Forall2 reads l found.
Proof.
  induction l as [|[k row] l IH]; intros H; [by exists []|]. destruct IH as (found & E & F); [set_solver|].
  assert (Hk : (k, row) ∈ selected) by (apply H; set_solver). apply elem_of_selected in Hk as [Hk Hw].
  destruct (Hread _ _ Hk Hw) as (_ & a & Ha & Hid). exists (a :: found). cbn. rewrite E. unfold rd in *. cbn. rewrite Ha. split; [done|].
  constructor; [split; done|done].
Qed.

Lemma list_all_walk fuel : forall after, (after = "" \/ exists row, rows !! after = Some row /\ where_ after row = true) ->
  list_all fetch id fuel after = mapM rd (walk beyond fst (sort_by fst selected) (Z.to_nat limit) fuel after).
Proof.
  induction fuel as [|fuel IH]; intros after Ha; [done|]. cbn [list_all walk]. rewrite Hfetch by done.
  unfold select_page. fold selected. fold rd. change (key_page fst selected after limit) with (page beyond (sort_by fst selected) after (Z.to_nat limit)).
  set (pg := page beyond (sort_by fst selected) after (Z.to_nat limit)).
  assert (Hpg : forall x, x ∈ pg -> x ∈ selected).
  { intros x Hx. pose proof (proj2 (key_page_spec fst selected after limit)) as Hs. rewrite Forall_forall in Hs. by apply Hs. }
  destruct (reads_all pg Hpg) as (found & E & F). change (fun item => read item.1 item.2) with rd. rewrite E. cbn [mbind res_bind].
  destruct (last pg) as [[k row]|] eqn:El.
  - pose proof (proj1 (last_Some _ _) El) as [front Ef]. rewrite Ef in F.
    apply Forall2_app_inv_l in F as (f1 & f2 & _ & F2 & ->). apply Forall2_cons_inv_l in F2 as (a & f3 & [_ Hid] & F3 & ->).
    apply Forall2_nil_inv_l in F3 as ->. rewrite last_snoc, Hid. cbn [fst].
    rewrite mapM_app, E. cbn [mbind res_bind]. rewrite IH; [done|]. right. exists row. apply elem_of_selected, Hpg. rewrite Ef. set_solver.
  - apply last_None in El. rewrite El in F. by apply Forall2_nil_inv_l in F as ->.
Qed.

Lemma listing_complete fuel : (size rows < fuel)%nat ->
  complete_listing id (fun a => exists k row, rows !! k = Some row /\ where_ k row = true /\ read k row = Ok a) (list_all fetch id fuel "").
Proof.
  intros Hf. unfold complete_listing. rewrite list_all_walk by by left.
  assert (Hlen : (length selected <= size rows)%nat).
  { unfold selected. etransitivity; [apply List.filter_length_le|]. by rewrite length_map_to_list. }
  assert (Hnd : NoDup selected.*1).
  { unfold selected. apply NoDup_keys_filter, NoDup_fst_map_to_list. }
  pose proof (key_walk_all fst selected limit fuel Hnd) as Hw. unfold key_walk in Hw. change (walk _ _ _ _ _ _) with
    (walk beyond fst (sort_by fst selected) (Z.to_nat limit) fuel "") in Hw. rewrite Hw; [|apply Forall_forall|done|lia].
  2: { intros [k row] [Hk Hw']%elem_of_selected. by destruct (Hread _ _ Hk Hw'). }
  destruct (reads_all (sort_by fst selected)) as (l & E & F); [intros x; by rewrite elem_of_sort_by|].
  exists l. rewrite E. split; [done|]. split.
  - assert (Eid : id <$> l = fst <$> sort_by fst selected).
    { clear -F. induction F as [|x a l l' [_ H] _ IH]; [done|]. cbn. by rewrite H, IH. }
    rewrite Eid. exact (StronglySorted_fmap fst (key_lt fst) _ _ (fun x y H => H) (sort_by_strict fst selected Hnd)).
  - intros a. split.
    + intros Ha. apply list_elem_of_lookup in Ha as [i Hi]. destruct (Forall2_lookup_r _ _ _ _ _ F Hi) as ([k row] & Hx & Hr & _).
      apply list_elem_of_lookup_2, elem_of_sort_by, elem_of_selected in Hx as [? ?]. by exists k, row.
    + intros (k & row & Hk & Hw' & Hr). assert (Hx : (k, row) ∈ sort_by fst selected) by by apply elem_of_sort_by, elem_of_selected.
      apply list_elem_of_lookup in Hx as [i Hi]. destruct (Forall2_lookup_l _ _ _ _ _ F Hi) as (a' & Ha' & [Hr' _]).
      unfold rd in Hr'. cbn in Hr'. rewrite Hr in Hr'. injection Hr' as ->. by eapply list_elem_of_lookup_2.
Qed.
End listing.

Lemma environment_rows_lookup c project ref : environment_rows c project !! ref = ct_environments c !! (project, ref).
Proof.
  pose proof (lookup_map_curry (M1 := gmap ProjectID) (M2 := gmap EnvironmentRef) (ct_environments c) project ref) as E.
  rewrite <- E. unfold environment_rows. by destruct (map_curry _ !! project).
Qed.

Lemma validID_nonempty k : validateID k = Ok tt -> k <> "".
Proof. intros H ->. discriminate H. Qed.
Lemma list_page_valid after limit : 1 <= limit <= 64 -> after = "" \/ validateID after = Ok tt ->
  validateListPage after limit = Ok tt /\ validateEnvironmentPage after limit = Ok tt /\ validatePromotionPage after limit = Ok tt.
Proof.
  intros Hl Ha. unfold validateListPage, validateEnvironmentPage, validatePromotionPage, MaxListPage, MaxEnvironmentPage, MaxPromotionPage.
  assert (E : (limit <? 1) || (64 <? limit) = false) by (apply orb_false_iff; split; apply Z.ltb_ge; lia). rewrite E. cbn.
  destruct Ha as [->|Ha]; [done|]. rewrite Ha. by destruct (after =s "")%go.
Qed.

Lemma project_row c id name : catalog_ok c -> ct_projects c !! id = Some name ->
  validateID id = Ok tt /\ exists p, project_of_row id name = Ok p /\ Project_id p = id.
Proof.
  intros Hc H. destruct (co_projects _ Hc _ _ H) as [p Hp]. unfold project_of_row. rewrite Hp.
  unfold NewProject in Hp. res_inv. subst p. split; [done|by eexists].
Qed.
Lemma agent_row c id row : catalog_ok c -> ct_agents c !! id = Some row ->
  validateID id = Ok tt /\ exists a, agent_of_row id row = Ok a /\ Agent_id a = id /\ Agent_projectID a = fst row.
Proof.
  intros Hc H. destruct (co_agents _ Hc _ _ H) as [[p Hp] _]. unfold agent_of_row. rewrite Hp.
  unfold NewAgent in Hp. res_inv. subst p. split; [done|by eexists].
Qed.
Lemma candidate_row c id row : catalog_ok c -> ct_candidates c !! id = Some row ->
  validateID id = Ok tt /\ exists x, candidate_of_row id row = Ok x /\ Candidate_id x = id /\ Candidate_agentID x = fst row.
Proof.
  intros Hc H. destruct (co_candidates _ Hc _ _ H) as [[p Hp] _]. unfold candidate_of_row. rewrite Hp.
  unfold NewCandidate in Hp. res_inv. subst p. split; [done|by eexists].
Qed.

(** One listing of the catalogue: its fetch validates the page, then selects from a table. *)
Lemma select_listing {R A} (rows : gmap string R) where_ read (id : A -> string) limit (fetch : string -> res (list A)) fuel (wanted : A -> Prop) :
  1 <= limit -> (size rows < fuel)%nat ->
  (forall k row, rows !! k = Some row -> where_ k row = true -> validateID k = Ok tt /\ exists a, read k row = Ok a /\ id a = k) ->
  (forall after, after = "" \/ validateID after = Ok tt -> fetch after = select_page rows where_ read after limit) ->
  (forall a, wanted a <-> exists k row, rows !! k = Some row /\ where_ k row = true /\ read k row = Ok a) ->
  complete_listing id wanted (list_all fetch id fuel "").
Proof.
  intros Hl Hf Hread Hfetch Hw. destruct (listing_complete rows where_ read id limit fetch) with (fuel := fuel) as (l & E & Hs & He); try done.
  - intros k row Hk Hwh. destruct (Hread _ _ Hk Hwh) as [V ?]. split; [by apply validID_nonempty|done].
  - intros after [->|(row & Hk & Hwh)]; apply Hfetch; [by left|]. right. by destruct (Hread _ _ Hk Hwh).
  - exists l. split; [done|]. split; [done|]. intros a. by rewrite He, Hw.
Qed.

(** *** The six listings *)
Section listings.
Context (c : catalog) (limit : Z) (fuel : nat) (Hc : catalog_ok c) (Hl : 1 <= limit <= 64).

(** The parent of a listing exists and is named validly. *)
Lemma project_parent project : is_Some (ct_projects c !! project) ->
  validateID project = Ok tt /\ requireExists (ct_projects c) project = Ok tt.
Proof. intros H. pose proof H as [name Hn]. destruct (project_row _ _ _ Hc Hn). by rewrite requireExists_iff. Qed.
Lemma agent_parent agent : is_Some (ct_agents c !! agent) ->
  validateID agent = Ok tt /\ requireExists (ct_agents c) agent = Ok tt.
Proof. intros H. pose proof H as [row Hn]. destruct (agent_row _ _ _ Hc Hn). by rewrite requireExists_iff. Qed.
Lemma candidate_parent candidate : is_Some (ct_candidates c !! candidate) ->
  validateID candidate = Ok tt /\ requireExists (ct_candidates c) candidate = Ok tt.
Proof. intros H. pose proof H as [row Hn]. destruct (candidate_row _ _ _ Hc Hn). by rewrite requireExists_iff. Qed.

Lemma projects_listing : (size (ct_projects c) < fuel)%nat ->
  complete_listing Project_id (fun p => Store_Project c (Project_id p) = Ok p)
    (list_all (fun after => Store_Projects c after limit) Project_id fuel "").
Proof.
  intros Hf. apply (select_listing (ct_projects c) (fun _ _ => true) project_of_row) with (limit := limit); try done; try lia.
  - intros k row Hk _. by apply project_row with (c := c).
  - intros after Ha. unfold Store_Projects. by rewrite (proj1 (list_page_valid _ _ Hl Ha)).
  - intros p. unfold Store_Project. split.
    + destruct (ct_projects c !! Project_id p) as [row|] eqn:E; [|done]. eauto.
    + intros (k & row & Hk & _ & Hr). destruct (project_row _ _ _ Hc Hk) as (_ & p' & Hr' & <-). rewrite Hr in Hr'. injection Hr' as <-.
      assert (E : ct_projects c !! Project_id p = Some row) by exact Hk. by rewrite E.
Qed.

Lemma agents_listing project : is_Some (ct_projects c !! project) -> (size (ct_agents c) < fuel)%nat ->
  complete_listing Agent_id (fun a => Store_Agent c (Agent_id a) = Ok a /\ Agent_projectID a = project)
    (list_all (fun after => ControlPlane_ProjectAgents c project after limit) Agent_id fuel "").
Proof.
  intros [Hp1 Hp2]%project_parent Hf. apply (select_listing (ct_agents c) (fun _ row => fst row =s project)%go agent_of_row) with (limit := limit); try done; try lia.
  - intros k row Hk _. destruct (agent_row _ _ _ Hc Hk) as (V & a & Ha & E & _). eauto.
  - intros after Ha. unfold ControlPlane_ProjectAgents, Store_ProjectAgents. by rewrite Hp1, Hp2, (proj1 (list_page_valid _ _ Hl Ha)).
  - intros a. unfold Store_Agent. split.
    + intros [H <-]. destruct (ct_agents c !! Agent_id a) as [row|] eqn:E; [|done].
      destruct (agent_row _ _ _ Hc E) as (_ & a' & Ha & _ & Ep). rewrite H in Ha. injection Ha as <-. exists (Agent_id a), row. by rewrite Ep, String.eqb_refl.
    + intros (k & row & Hk & Hw%String.eqb_eq & Hr). destruct (agent_row _ _ _ Hc Hk) as (_ & a' & Hr' & <- & Ep). rewrite Hr in Hr'. injection Hr' as <-.
      assert (E : ct_agents c !! Agent_id a = Some row) by exact Hk. by rewrite E, Ep.
Qed.

Lemma candidates_listing agent : is_Some (ct_agents c !! agent) -> (size (ct_candidates c) < fuel)%nat ->
  complete_listing Candidate_id (fun x => Store_Candidate c (Candidate_id x) = Ok x /\ Candidate_agentID x = agent)
    (list_all (fun after => ControlPlane_AgentCandidates c agent after limit) Candidate_id fuel "").
Proof.
  intros [Hp1 Hp2]%agent_parent Hf. apply (select_listing (ct_candidates c) (fun _ row => fst row =s agent)%go candidate_of_row) with (limit := limit); try done; try lia.
  - intros k row Hk _. destruct (candidate_row _ _ _ Hc Hk) as (V & a & Ha & E & _). eauto.
  - intros after Ha. unfold ControlPlane_AgentCandidates, Store_AgentCandidates. by rewrite Hp1, Hp2, (proj1 (list_page_valid _ _ Hl Ha)).
  - intros a. unfold Store_Candidate. split.
    + intros [H <-]. destruct (ct_candidates c !! Candidate_id a) as [row|] eqn:E; [|done].
      destruct (candidate_row _ _ _ Hc E) as (_ & a' & Ha & _ & Ep). rewrite H in Ha. injection Ha as <-. exists (Candidate_id a), row. by rewrite Ep, String.eqb_refl.
    + intros (k & row & Hk & Hw%String.eqb_eq & Hr). destruct (candidate_row _ _ _ Hc Hk) as (_ & a' & Hr' & <- & Ep). rewrite Hr in Hr'. injection Hr' as <-.
      assert (E : ct_candidates c !! Candidate_id a = Some row) by exact Hk. by rewrite E, Ep.
Qed.

Lemma runs_listing t candidate : runs_ok t -> is_Some (ct_candidates c !! candidate) -> (size t < fuel)%nat ->
  complete_listing run_id (fun r => loadRun t (run_id r) = Ok r /\ run_candidateID r = candidate)
    (list_all (fun after => ControlPlane_CandidateEvaluationRuns c t candidate after limit) run_id fuel "").
Proof.
  intros Ht [Hp1 Hp2]%candidate_parent Hf.
  assert (Hrow : forall k stored order, t !! k = Some (stored, order) -> validateID k = Ok tt /\
    exists r, rehydrateRun k stored = Ok r /\ run_id r = k /\ run_candidateID r = sr_candidateID stored /\ loadRun t k = Ok r).
  { intros k stored order H. destruct (runs_ok_load _ _ _ _ Ht H) as (r & Hr & <- & -> & _ & E). pose proof (reachable_binding _ Hr) as V.
    unfold validateRunBinding in V. res_inv. split; [done|]. exists r. rewrite rehydrate_columns by done. done. }
  apply (select_listing t (fun _ row => sr_candidateID (fst row) =s candidate)%go (fun id row => rehydrateRun id (fst row))) with (limit := limit); try done; try lia.
  - intros k [stored order] Hk _. destruct (Hrow _ _ _ Hk) as (V & a & Ha & E & _). eauto.
  - intros after Ha. unfold ControlPlane_CandidateEvaluationRuns, Store_CandidateEvaluationRuns. by rewrite Hp1, Hp2, (proj1 (list_page_valid _ _ Hl Ha)).
  - intros a. split.
    + intros [H <-]. destruct (t !! run_id a) as [[stored order]|] eqn:E; [|by unfold loadRun in H; rewrite E in H].
      destruct (Hrow _ _ _ E) as (_ & a' & Ha & _ & Ep & El). rewrite H in El. injection El as <-.
      exists (run_id a), (stored, order). cbn. by rewrite Ep, String.eqb_refl.
    + intros (k & [stored order] & Hk & Hw%String.eqb_eq & Hr). destruct (Hrow _ _ _ Hk) as (_ & a' & Hr' & <- & Ep & El).
      cbn in Hr, Hw. rewrite Hr in Hr'. injection Hr' as <-. by rewrite El, Ep.
Qed.

Lemma environments_listing project : is_Some (ct_projects c !! project) -> (size (environment_rows c project) < fuel)%nat ->
  complete_listing env_ref (fun e => Environment_read c project (env_ref e) = Ok e)
    (list_all (fun after => ControlPlane_ProjectEnvironments c project after limit) env_ref fuel "").
Proof.
  intros [Hp1 Hp2]%project_parent Hf.
  assert (Hrow : forall k row, environment_rows c project !! k = Some row -> validateID k = Ok tt /\
    exists e, restoreEnvironmentRow project k row = Ok e /\ env_ref e = k).
  { intros k row Hk. rewrite environment_rows_lookup in Hk. destruct (co_environments _ Hc _ _ Hk) as [(e & -> & He & [= <- <-]) _].
    rewrite restore_columns by done. destruct He. eauto. }
  apply (select_listing (environment_rows c project) (fun _ _ => true) (restoreEnvironmentRow project)) with (limit := limit); try done; try lia.
  - intros k row Hk _. by apply Hrow.
  - intros after Ha. unfold ControlPlane_ProjectEnvironments, Store_ProjectEnvironments. by rewrite Hp1, Hp2, (proj1 (proj2 (list_page_valid _ _ Hl Ha))).
  - intros e. unfold Environment_read, validateEnvironmentIdentity, loadEnvironment. rewrite Hp1. cbn. split.
    + intros H. apply bind_unit_iff in H as [_ H]. rewrite <- environment_rows_lookup in H.
      destruct (environment_rows c project !! env_ref e) as [row|] eqn:E; [|done]. eauto.
    + intros (k & row & Hk & _ & Hr). destruct (Hrow _ _ Hk) as (V & e' & Hr' & <-). rewrite Hr in Hr'. injection Hr' as <-.
      assert (E : environment_rows c project !! env_ref e = Some row) by exact Hk.
      rewrite environment_rows_lookup in E. by rewrite V, E.
Qed.

Lemma promotions_listing project : is_Some (ct_projects c !! project) -> (size (ct_promotions c) < fuel)%nat ->
  complete_listing pr_id (fun p => ControlPlane_Promotion c (pr_id p) = Ok p /\ pr_projectID p = project)
    (list_all (fun after => ControlPlane_ProjectPromotions c project after limit) pr_id fuel "").
Proof.
  intros [Hp1 Hp2]%project_parent Hf.
  apply (select_listing (ct_promotions c) (fun _ row => p_projectID row =s project)%go (fun _ row => restorePromotionRow row)) with (limit := limit); try done; try lia.
  - intros k row Hk _. destruct (co_promotions _ Hc _ _ Hk) as [(p & Hp & E & _ & V) _]. eauto.
  - intros after Ha. unfold ControlPlane_ProjectPromotions, Store_ProjectPromotions. by rewrite Hp1, Hp2, (proj2 (proj2 (list_page_valid _ _ Hl Ha))).
  - intros p. unfold ControlPlane_Promotion, Store_Promotion, loadPromotion. split.
    + intros [H <-]. apply bind_unit_iff in H as [_ H]. apply bind_unit_iff in H as [_ H].
      destruct (ct_promotions c !! pr_id p) as [row|] eqn:E; [|done].
      destruct (co_promotions _ Hc _ _ E) as [(p' & Ha & _ & Ep & _) _]. rewrite H in Ha. injection Ha as <-.
      exists (pr_id p), row. by rewrite <- Ep, String.eqb_refl.
    + intros (k & row & Hk & Hw%String.eqb_eq & Hr). destruct (co_promotions _ Hc _ _ Hk) as [(p' & Hr' & <- & Ep & V) _].
      rewrite Hr in Hr'. injection Hr' as <-.
      assert (E : ct_promotions c !! pr_id p = Some row) by exact Hk. rewrite V, E, Ep. cbn.
      by rewrite (proj2 (String.eqb_neq _ _) (validID_nonempty _ V)).
Qed.
End listings.

(** ** Properties *)

(** C6: whatever edits, reads, creations and promotions come between the read and the write
    of an environment edit, a stored environment is exactly what its acknowledged edits make
    of it one after another, in the order they were acknowledged - none is lost, none applied
    twice - and its revision counts them; every agent, candidate, environment and promotion
    has its parents.  In a catalogue grown from an empty one by these calls, as here, no
    project holds more than 64 environments; the code bounds creation only, and claims
    nothing of a database that already holds more. *)
Theorem environment_edits_serial s : edit_reachable s -> let c := es_catalog s in
  (forall key, is_Some (ct_environments c !! key) -> exists e0 e, es_created s !! key = Some e0 /\
     loadEnvironment c (fst key) (snd key) = Ok e /\ foldM serial_edit e0 (edits_of key (es_log s)) = Ok e /\
     revision e = 1 + Z.of_nat (length (edits_of key (es_log s)))) /\
  catalog_ok c.
Proof.
  intros Hs c. destruct (edit_reachable_ok _ Hs) as [H1 H2 H3 H4]. split; [|done].
  intros key [row Hrow]. destruct (H2 _ _ Hrow) as (e0 & e & E1 & E2 & -> & E4 & E5 & E6). exists e0, e. split_and!; try done.
  by apply load_stored.
Qed.

(** C7: a promotion is stored only if both environments it was decided over are, at that
    moment, exactly the values the decision read - whatever happened since - and still in
    promotion order; it is then read back exactly, and no other promotion changes. *)
Theorem promotion_commits_current s1 s2 s d p c' :
  edit_reachable s1 -> rtc edit_step s1 s -> edit_reachable s2 -> rtc edit_step s2 s ->
  loadEnvironment (es_catalog s1) (env_projectID (Source d)) (env_ref (Source d)) = Ok (Source d) ->
  loadEnvironment (es_catalog s2) (env_projectID (Target d)) (env_ref (Target d)) = Ok (Target d) ->
  gate_row_ok (GateResult d) -> NewPromotion d = Ok p -> Store_CreatePromotion (es_catalog s) p = Ok c' ->
  loadEnvironment c' (env_projectID (Source d)) (env_ref (Source d)) = Ok (Source d) /\
  loadEnvironment c' (env_projectID (Target d)) (env_ref (Target d)) = Ok (Target d) /\
  Store_Promotion (es_catalog s) (pr_id p) = Err [ErrStoreNotFound] /\ Store_Promotion c' (pr_id p) = Ok p /\
  (forall id, id <> pr_id p -> Store_Promotion c' id = Store_Promotion (es_catalog s) id).
Proof.
  intros R1 S1 R2 S2 L1 L2 Hg Hp H.
  destruct (edit_steps_ok _ _ (edit_reachable_ok _ R1) S1) as [Hs _]. pose proof (ei_catalog _ Hs) as Hc.
  destruct (load_ok _ _ _ _ (ei_catalog _ (edit_reachable_ok _ R1)) L1) as (_ & Hso & _).
  destruct (load_ok _ _ _ _ (ei_catalog _ (edit_reachable_ok _ R2)) L2) as (_ & Hta & _).
  pose proof (promotion_columns_restore _ _ Hp Hso Hta Hg) as Hrow.
  destruct (create_promotion_spec _ _ _ Hc H) as (src & tgt & Ls & Lt & Es & Et & _ & Hn & _ & _ & _ & ->).
  destruct (NewPromotion_spec _ _ Hp) as (V & _ & _ & Hcan & _ & _ & _ & Ep). apply CanPromote_iff in Hcan as (Hproj & _).
  assert (Hid : (pr_id p =s "")%go = false).
  { apply String.eqb_neq. rewrite Ep. cbn. by apply validID_nonempty. }
  rewrite Ep in Ls, Lt, Es, Et. cbn [pr_projectID source target position_of Ref Revision] in Ls, Lt, Es, Et. rewrite Hproj in Lt.
  pose proof (read_current _ _ _ _ _ _ R1 S1 L1 Ls Es) as ->. pose proof (read_current _ _ _ _ _ _ R2 S2 L2 Lt Et) as ->.
  unfold Store_Promotion, loadPromotion. rewrite Hid. cbn [ct_promotions with_promotions fail_if mbind res_bind].
  split_and!; [exact Ls|exact Lt|by rewrite Hn|by rewrite lookup_insert_eq|].
  intros id Hne. rewrite lookup_insert_ne by done. done.
Qed.

(** C8: following a listing page by page, from the last item of each page, gives every
    project, every agent of a project, candidate of an agent, evaluation run of a candidate,
    environment and promotion of a project, exactly once, in the order of their ids, for any
    page size allowed. *)
Theorem listings_complete s t limit fuel : edit_reachable s -> runs_ok t -> 1 <= limit <= 64 -> let c := es_catalog s in
  ((size (ct_projects c) < fuel)%nat ->
    complete_listing Project_id (fun p => Store_Project c (Project_id p) = Ok p)
      (list_all (fun after => Store_Projects c after limit) Project_id fuel "")) /\
  (forall project, is_Some (ct_projects c !! project) -> (size (ct_agents c) < fuel)%nat ->
    complete_listing Agent_id (fun a => Store_Agent c (Agent_id a) = Ok a /\ Agent_projectID a = project)
      (list_all (fun after => ControlPlane_ProjectAgents c project after limit) Agent_id fuel "")) /\
  (forall agent, is_Some (ct_agents c !! agent) -> (size (ct_candidates c) < fuel)%nat ->
    complete_listing Candidate_id (fun x => Store_Candidate c (Candidate_id x) = Ok x /\ Candidate_agentID x = agent)
      (list_all (fun after => ControlPlane_AgentCandidates c agent after limit) Candidate_id fuel "")) /\
  (forall candidate, is_Some (ct_candidates c !! candidate) -> (size t < fuel)%nat ->
    complete_listing run_id (fun r => loadRun t (run_id r) = Ok r /\ run_candidateID r = candidate)
      (list_all (fun after => ControlPlane_CandidateEvaluationRuns c t candidate after limit) run_id fuel "")) /\
  (forall project, is_Some (ct_projects c !! project) -> (size (environment_rows c project) < fuel)%nat ->
    complete_listing env_ref (fun e => Environment_read c project (env_ref e) = Ok e)
      (list_all (fun after => ControlPlane_ProjectEnvironments c project after limit) env_ref fuel "")) /\
  (forall project, is_Some (ct_projects c !! project) -> (size (ct_promotions c) < fuel)%nat ->
    complete_listing pr_id (fun p => ControlPlane_Promotion c (pr_id p) = Ok p /\ pr_projectID p = project)
      (list_all (fun after => ControlPlane_ProjectPromotions c project after limit) pr_id fuel "")).
Proof.
  intros Hs%edit_reachable_ok%ei_catalog Ht Hl c.
  split_and!; [by apply projects_listing|intros; by apply agents_listing|intros; by apply candidates_listing
    |intros; by apply runs_listing|intros; by apply environments_listing|intros; by apply promotions_listing].
Qed.

(** A compare-and-set over what the row holds is accepted; over an older revision it is a conflict. *)
Lemma update_current c current next edit : env_ok current -> revision current < max_i64 -> edit_typed edit -> serial_edit current edit = Ok next ->
  ct_environments c !! env_key current = Some (environment_columns current) ->
  exists c', Store_UpdateEnvironment c current next = Ok c' /\ loadEnvironment c' (env_projectID current) (env_ref current) = Ok next.
Proof.
  intros Hc Hr Ht Hn Hrow. destruct (serial_edit_ok _ _ _ Hc Hr Ht Hn) as (N1 & N2 & N3). unfold env_key in *. injection N2 as K1 K2.
  exists (with_environments c (<[(env_projectID current, env_ref current) := environment_columns next]> (ct_environments c))). split.
  - unfold Store_UpdateEnvironment, validateEnvironmentUpdate. rewrite K1, K2, !String.eqb_refl, N3, u64_small by (destruct Hc; ulia). rewrite Z.eqb_refl.
    cbn [negb fail_if mbind res_bind]. cbn zeta. by rewrite Hrow, Z.eqb_refl.
  - unfold loadEnvironment. cbn [ct_environments with_environments]. rewrite lookup_insert_eq, <- K1, <- K2. by apply restore_columns.
Qed.
Lemma update_conflict c current next edit row : catalog_ok c -> env_ok current -> revision current < max_i64 -> edit_typed edit -> serial_edit current edit = Ok next ->
  ct_environments c !! env_key current = Some row -> revision current < er_revision row -> Store_UpdateEnvironment c current next = Err [ErrStoreConflict].
Proof.
  intros Hok Hc Hr Ht Hn Hrow Hlt. destruct (serial_edit_ok _ _ _ Hc Hr Ht Hn) as (N1 & N2 & N3). unfold env_key in *. injection N2 as K1 K2.
  unfold Store_UpdateEnvironment, validateEnvironmentUpdate, environmentUpdateMiss. rewrite K1, K2, !String.eqb_refl, N3, u64_small by (destruct Hc; ulia).
  rewrite Z.eqb_refl. cbn [negb fail_if mbind res_bind]. cbn zeta. rewrite Hrow, i64_small by (destruct Hc; ulia).
  rewrite (proj2 (Z.eqb_neq _ _)) by lia. destruct (co_environments _ Hok _ _ Hrow) as [(e & -> & He & K) _].
  pose proof (load_stored c (env_projectID current, env_ref current) e Hrow He K) as Hl. cbn [fst snd] in Hl. by rewrite Hl.
Qed.

(** an edit in flight is never stuck and never blocked by another: at any moment its write
    either is accepted - then the row holds what it computed - or is refused as a conflict,
    and then because edits of the same environment were acknowledged since its read; and an
    edit read now is accepted if written now. *)
Theorem edit_progress s edit current next : edit_reachable s -> (edit, current, next) ∈ es_pending s ->
  let c := es_catalog s in
  exists e, loadEnvironment c (env_projectID current) (env_ref current) = Ok e /\
    revision e = 1 + Z.of_nat (length (edits_of (env_key current) (es_log s))) /\
    ((e = current /\ exists c', Store_UpdateEnvironment c current next = Ok c' /\ loadEnvironment c' (env_projectID current) (env_ref current) = Ok next) \/
     (revision current < revision e /\ Store_UpdateEnvironment c current next = Err [ErrStoreConflict])) /\
    (forall edit' current' next', edit_typed edit' -> revision e < max_i64 ->
       edit_read c (env_projectID current) (env_ref current) (revision e) edit' = Ok (current', next') ->
       exists c', Store_UpdateEnvironment c current' next' = Ok c' /\ loadEnvironment c' (env_projectID current) (env_ref current) = Ok next').
Proof.
  intros Hs Hp c. pose proof (edit_reachable_ok _ Hs) as [H1 H2 H3 H4]. rewrite Forall_forall in H4. destruct (H4 _ Hp) as (Ht & Hc & Hr & Hn & row & Hrow & Hge & Heq).
  destruct (H2 _ _ Hrow) as (e0 & e & _ & _ & -> & He & Hk & Hrev). rewrite columns_revision in * by done. exists e. split; [by apply (load_stored c (env_key current))|].
  split; [done|]. split.
  - destruct (decide (revision e = revision current)) as [E|E].
    + left. rewrite (Heq E) in Hrow. split; [by apply columns_inj; [..|apply Heq]|by apply (update_current c current next edit)].
    + right. split; [lia|]. apply (update_conflict c current next edit (environment_columns e)); try done. rewrite columns_revision by done. lia.
  - intros edit' current' next' Ht' Hm Hrd. destruct (edit_read_spec _ _ _ _ _ _ _ H1 Hrd) as (R1 & R2 & R3 & R4 & R5). injection R3 as <- <-.
    apply (update_current c current' next' edit'); try done. lia.
Qed.

(** ** Witnesses *)
Definition example_project : Project := {| Project_id := "acme"; Project_name := "Acme" |}.
Definition example_staging : Environment :=
  {| env_ref := "staging"; env_projectID := "acme"; env_name := "Staging"; rank := 10; ranked := true;
     env_status := EnvironmentActive; revision := 1 |}.
Definition staged_catalog : catalog :=
  with_environments (with_projects empty_catalog {["acme" := "Acme"]}) {[("acme", "staging") := environment_columns example_staging]}.
Definition rename_edit : environment_edit := edit_configure {| CE_Name := Some "Pre-production"; CE_Rank := None; CE_ClearRank := false |}.
Definition renamed_staging : Environment := atRevision {| env_ref := "staging"; env_projectID := "acme"; env_name := "Pre-production"; rank := 10; ranked := true;
     env_status := EnvironmentActive; revision := 1 |} 2.
(** Two clients read revision 1; the rename is written first. *)
Definition staged_system : edit_system :=
  {| es_catalog := staged_catalog; es_pending := []; es_created := {[("acme", "staging") := example_staging]}; es_log := [] |}.
Definition pending_archive : environment_edit * Environment * Environment :=
  (edit_archive, example_staging, atRevision (with_status example_staging EnvironmentArchived) 2).
Definition with_pending (l : list (environment_edit * Environment * Environment)) : edit_system :=
  {| es_catalog := staged_catalog; es_pending := l; es_created := es_created staged_system; es_log := [] |}.
Definition renamed_system : edit_system :=
  {| es_catalog := with_environments staged_catalog {[("acme", "staging") := environment_columns renamed_staging]};
     es_pending := [pending_archive]; es_created := es_created staged_system; es_log := [(("acme", "staging"), rename_edit)] |}.

Lemma staged_reachable : edit_reachable staged_system.
Proof.
  eapply rtc_l; [|eapply rtc_l; [|reflexivity]].
  - apply (step_project empty_system "acme" "Acme" example_project (with_projects empty_catalog {["acme" := "Acme"]})); vm_compute; reflexivity.
  - apply (step_environment (with_catalog empty_system (with_projects empty_catalog {["acme" := "Acme"]})) "staging" "acme" "Staging" 10 example_staging staged_catalog); [lia|right; vm_compute; reflexivity|vm_compute; reflexivity].
Qed.
Lemma renamed_reachable : edit_reachable renamed_system.
Proof.
  unfold edit_reachable. etransitivity; [exact staged_reachable|].
  apply (rtc_l _ _ (with_pending [pending_archive])).
  { apply (step_read staged_system "acme" "staging" 1 edit_archive); [done|vm_compute; reflexivity|done]. }
  apply (rtc_l _ _ (with_pending [(rename_edit, example_staging, renamed_staging); pending_archive])).
  { apply (step_read (with_pending [pending_archive]) "acme" "staging" 1 rename_edit); [done|vm_compute; reflexivity|done]. }
  apply rtc_once.
  apply (step_write (with_pending [(rename_edit, example_staging, renamed_staging); pending_archive]) []
    rename_edit example_staging renamed_staging [pending_archive] (es_catalog renamed_system)); [reflexivity|vm_compute; reflexivity].
Qed.

Lemma environment_edits_serial_witness : exists e, loadEnvironment (es_catalog renamed_system) "acme" "staging" = Ok e /\ revision e = 2.
Proof.
  destruct (environment_edits_serial renamed_system renamed_reachable) as [H _].
  destruct (H ("acme", "staging")) as (e0 & e & _ & H1 & _ & H2); [by eexists|]. by exists e.
Defined.

(** The archiving that lost the race is refused; read again, it is written. *)
Lemma edit_progress_witness : exists c',
  Store_UpdateEnvironment (es_catalog renamed_system) example_staging (atRevision (with_status example_staging EnvironmentArchived) 2) = Err [ErrStoreConflict] /\
  Store_UpdateEnvironment (es_catalog renamed_system) renamed_staging (atRevision (with_status renamed_staging EnvironmentArchived) 3) = Ok c'.
Proof.
  assert (Hin : pending_archive ∈ es_pending renamed_system) by (vm_compute; left).
  destruct (edit_progress renamed_system edit_archive example_staging (atRevision (with_status example_staging EnvironmentArchived) 2) renamed_reachable Hin)
    as (e & Hl & _ & Hd & Hnow).
  assert (E : e = renamed_staging) by (vm_compute in Hl; injection Hl as <-; reflexivity). subst e.
  assert (Hr : revision renamed_staging < max_i64) by reflexivity.
  destruct (Hnow edit_archive renamed_staging (atRevision (with_status renamed_staging EnvironmentArchived) 3) I Hr) as (c' & Hc & _); [vm_compute; reflexivity|].
  exists c'. split; [|exact Hc]. destruct Hd as [[E _]|[_ Hd]]; [discriminate E|exact Hd].
Defined.

Lemma listings_complete_witness :
  complete_listing env_ref (fun e => Environment_read staged_catalog "acme" (env_ref e) = Ok e)
    (list_all (fun after => ControlPlane_ProjectEnvironments staged_catalog "acme" after 1) env_ref 5 "").
Proof.
  pose proof (listings_complete staged_system example_table 1 5 staged_reachable example_table_ok ltac:(lia)) as H.
  destruct H as (_ & _ & _ & _ & H & _). apply (H "acme"); [by eexists|vm_compute; lia].
Defined.

(** A project with the example runs' candidates and two ranked environments. *)
Definition place (ref name : string) (r : Z) : Environment :=
  {| env_ref := ref; env_projectID := "acme"; env_name := name; rank := r; ranked := true; env_status := EnvironmentActive; revision := 1 |}.
Definition no_metadata : CandidateMetadata :=
  {| Label := ""; SourceRef := ""; ArtifactDigest := ""; Model := ""; ToolsetDigest := ""; ConfigDigest := "" |}.
Definition placed_catalog : catalog :=
  {| ct_projects := {["acme" := "Acme"]}; ct_agents := {["bot" := ("acme", "Bot")]};
     ct_candidates := <["c2" := ("bot", no_metadata)]> {["c" := ("bot", no_metadata)]};
     ct_environments := <[("acme", "global") := environment_columns (place "global" "Global" 20)]>
       {[("acme", "prod") := environment_columns (place "prod" "Production" 10)]};
     ct_promotions := ∅ |}.
Definition placed_system : edit_system :=
  {| es_catalog := placed_catalog; es_pending := [];
     es_created := <[("acme", "global") := place "global" "Global" 20]> {[("acme", "prod") := place "prod" "Production" 10]}; es_log := [] |}.
Definition placed_before (agents : bool) (candidates : nat) (environments : nat) : edit_system :=
  {| es_catalog := {| ct_projects := ct_projects placed_catalog; ct_agents := if agents then ct_agents placed_catalog else ∅;
       ct_candidates := match candidates with O => ∅ | 1%nat => {["c" := ("bot", no_metadata)]} | _ => ct_candidates placed_catalog end;
       ct_environments := match environments with O => ∅ | 1%nat => {[("acme", "prod") := environment_columns (place "prod" "Production" 10)]}
                          | _ => ct_environments placed_catalog end; ct_promotions := ∅ |};
     es_pending := []; es_log := [];
     es_created := match environments with O => ∅ | 1%nat => {[("acme", "prod") := place "prod" "Production" 10]} | _ => es_created placed_system end |}.
Lemma placed_reachable : edit_reachable placed_system.
Proof.
  apply (rtc_l _ _ (placed_before false 0 0)).
  { apply (step_project empty_system "acme" "Acme" example_project); vm_compute; reflexivity. }
  apply (rtc_l _ _ (placed_before true 0 0)).
  { apply (step_agent (placed_before false 0 0) "bot" "acme" "Bot" {| Agent_id := "bot"; Agent_projectID := "acme"; Agent_name := "Bot" |}); vm_compute; reflexivity. }
  apply (rtc_l _ _ (placed_before true 1 0)).
  { apply (step_candidate (placed_before true 0 0) "c" "bot" no_metadata
      {| Candidate_id := "c"; Candidate_agentID := "bot"; Candidate_metadata := no_metadata |}); vm_compute; reflexivity. }
  apply (rtc_l _ _ (placed_before true 2 0)).
  { apply (step_candidate (placed_before true 1 0) "c2" "bot" no_metadata
      {| Candidate_id := "c2"; Candidate_agentID := "bot"; Candidate_metadata := no_metadata |}); vm_compute; reflexivity. }
  apply (rtc_l _ _ (placed_before true 2 1)).
  { apply (step_environment (placed_before true 2 0) "prod" "acme" "Production" 10 (place "prod" "Production" 10)); [lia|right|]; vm_compute; reflexivity. }
  apply rtc_once.
  apply (step_environment (placed_before true 2 1) "global" "acme" "Global" 20 (place "global" "Global" 20)); [lia|right|]; vm_compute; reflexivity.
Qed.

Definition placed_decision (g : EvaluationGateResult) : PromotionDecision :=
  {| PD_ID := "promo"; Source := place "prod" "Production" 10; Target := place "global" "Global" 20; GateResult := g; DecidedAt := day 5 |}.

(** A promotion whose decision is current and whose parents exist is stored. *)
Lemma create_promotion_total c p src tgt : pr_id p <> "" -> pr_projectID p <> "" ->
  loadEnvironment c (pr_projectID p) (Ref (source p)) = Ok src -> loadEnvironment c (pr_projectID p) (Ref (target p)) = Ok tgt ->
  revision src = Revision (source p) -> revision tgt = Revision (target p) -> CanPromote src tgt = true ->
  ct_promotions c !! pr_id p = None -> is_Some (ct_projects c !! pr_projectID p) -> is_Some (ct_candidates c !! pr_candidateID p) ->
  is_Some (ct_candidates c !! gr_referenceCandidate (gateResult p)) -> exists c', Store_CreatePromotion c p = Ok c'.
Proof.
  intros H1%String.eqb_neq H2%String.eqb_neq Ls Lt Es Et Hcan Hn P1%requireExists_iff P2%requireExists_iff P3%requireExists_iff.
  assert (Hlock : forall ref e, loadEnvironment c (pr_projectID p) ref = Ok e -> lockEnvironment c (pr_projectID p) ref = Ok tt).
  { intros ref e H. unfold lockEnvironment, environmentExists. rewrite bool_decide_eq_true_2; [done|].
    unfold loadEnvironment in H. by destruct (ct_environments c !! _). }
  pose proof (Hlock _ _ Ls) as K1. pose proof (Hlock _ _ Lt) as K2.
  assert (Hl : foldM (fun _ ref => lockEnvironment c (pr_projectID p) ref) tt (promotionEnvironmentOrder p) = Ok tt).
  { unfold promotionEnvironmentOrder. destruct (string_lt _ _); cbn [foldM mbind res_bind]; rewrite ?K1; cbn [mbind res_bind];
      rewrite ?K2; cbn [mbind res_bind]; by rewrite ?K1. }
  assert (Hi : insert_row (ct_promotions c) (pr_id p) (promotion_columns p) = Ok (<[pr_id p := promotion_columns p]> (ct_promotions c))).
  { unfold insert_row. rewrite bool_decide_eq_false_2; [done|]. by apply eq_None_not_Some. }
  unfold Store_CreatePromotion, insertPromotionLocked. rewrite H1, H2. cbn [orb fail_if mbind res_bind].
  rewrite Hl. cbn [mbind res_bind]. rewrite Ls. cbn [mbind res_bind]. rewrite Lt. cbn [mbind res_bind].
  rewrite Es, Et, !Z.eqb_refl, Hcan. cbn [negb fail_if mbind res_bind]. rewrite Hi. cbn [mbind res_bind]. rewrite P1, P2, P3. by eexists.
Qed.

Lemma promotion_commits_current_witness : exists g p c', NewPromotion (placed_decision g) = Ok p /\
  Store_CreatePromotion placed_catalog p = Ok c' /\ Store_Promotion c' "promo" = Ok p.
Proof.
  destruct example_gate as (a1 & c1 & a2 & c2 & d & s & g & (E1 & E2 & Hcmp & _) & Es & Hg & Hb & He & Hd & Hrc & Hcc & Hv).
  destruct (NewPromotion_total (placed_decision g)) as [p Hp]; try reflexivity; try assumption.
  pose proof (NewPromotion_spec _ _ Hp) as (_ & _ & _ & _ & _ & _ & _ & Ep).
  assert (L1 : loadEnvironment placed_catalog "acme" "prod" = Ok (place "prod" "Production" 10)) by (vm_compute; reflexivity).
  assert (L2 : loadEnvironment placed_catalog "acme" "global" = Ok (place "global" "Global" 20)) by (vm_compute; reflexivity).
  assert (Hrow : gate_row_ok g).
  { apply (evidence_gate_row_ok example_run a1 c1 example_candidate_run a2 c2 d s example_limits); try assumption;
      try (by apply evidence_reachable_ok). unfold limits_range. cbn. ulia. }
  destruct (create_promotion_total placed_catalog p (place "prod" "Production" 10) (place "global" "Global" 20)) as [c' Hc'];
    try (rewrite Ep; done); try (rewrite Ep; assumption).
  1: reflexivity. 1,2: rewrite Ep; cbn; rewrite ?Hcc, ?Hrc; eexists; vm_compute; reflexivity.
  exists g, p, c'. split; [exact Hp|]. split; [exact Hc'|]. assert (Hid : pr_id p = "promo") by by rewrite Ep. rewrite <- Hid.
  apply (promotion_commits_current placed_system placed_system placed_system (placed_decision g) p c'
    placed_reachable (reflexivity _) placed_reachable (reflexivity _) L1 L2 Hrow Hp Hc').
Defined.
