(* ===== verification/ControlPlane.v ===== *)
(** * Package platform: the control plane over one store (controlplane.go, repeated.go, sameness.go)

    The operations that compose the parts: creating runs in active environments, moving them
    through their lifecycle, reading what they observed, comparing completed evaluations,
    one run a side or several, and promoting.  The store is one value; a call's reads and its
    write are separate, so other calls may come between them.  The theorems show that what a
    completed run is compared by is what its log of requests makes, that it never changes
    again, and that a promotion committed after any interleaving is the one its reads would
    decide at the moment it commits. *)
From S2P Require Import Prelude GoText GoTime GoFloat FloatBounds Event Fingerprint DecisionRecord.
From S2P Require Import Domain Paging Counters Recency Environment Operational Fidelity Aggregate Observation Counting.
From S2P Require Import Behavior Scorecard Gate Promotion RunStore EvidenceStore Ingest.
From S2P Require Import Provenance Cost Frequency Preview FrequencyGate Repeated GateRecord Scenario Catalog.

Open Scope string_scope.
Open Scope Z_scope.

(** The durable state: the run and evidence tables, the catalogue, and scenario executions. *)
Record platform : Type := {
  pf_ingest : ingest_system;
  pf_catalog : catalog;
  pf_scenarios : scenario_tables;
}.
Definition pf_runs (p : platform) : run_table := sys_runs (pf_ingest p).
Definition pf_evidence (p : platform) : evidence_tables := sys_evidence (pf_ingest p).

(** ** Scope of a run *)
Definition agentOf (c : catalog) (run : EvaluationRun) : res AgentID :=
  candidate ← Store_Candidate c (run_candidateID run); Ok (Candidate_agentID candidate).
Definition projectOf (c : catalog) (run : EvaluationRun) : res ProjectID :=
  candidate ← Store_Candidate c (run_candidateID run);
  agent ← Store_Agent c (Candidate_agentID candidate);
  Ok (Agent_projectID agent).
Definition requireUsableEnvironment (c : catalog) (run : EvaluationRun) : res unit :=
  project ← projectOf c run;
  environment ← loadEnvironment c project (run_environment run);
  fail_if (env_status environment <>s EnvironmentActive) [ErrEnvironmentUnavailable].
Definition requireSameProject (c : catalog) (reference candidate : EvaluationRun) : res unit :=
  referenceProject ← projectOf c reference;
  candidateProject ← projectOf c candidate;
  fail_if (referenceProject <>s candidateProject) [ErrComparisonScope].

(** ** Runs *)
Definition with_run_table (p : platform) (t : run_table) : platform :=
  {| pf_ingest := with_runs (pf_ingest p) t; pf_catalog := pf_catalog p; pf_scenarios := pf_scenarios p |}.

Definition CreateEvaluationRun (p : platform) (run : EvaluationRun) : res platform :=
  requireUsableEnvironment (pf_catalog p) run;;
  t ← Store_CreateEvaluationRun (ct_candidates (pf_catalog p)) (pf_runs p) run;
  Ok (with_run_table p t).

Inductive run_change : Type :=
| change_start (at_ : time)
| change_complete (at_ : time)
| change_fail (at_ : time) (reason : string)
| change_cancel (at_ : time).
Definition apply_change (change : run_change) (run : EvaluationRun) : res EvaluationRun :=
  match change with
  | change_start at_ => Start run at_
  | change_complete at_ => Complete run at_
  | change_fail at_ reason => Fail_ run at_ reason
  | change_cancel at_ => Cancel run at_
  end.
(** The read of [transition], and what it computes from it. *)
Definition transition_read (p : platform) (id : EvaluationRunID) (change : run_change) : res (EvaluationRun * EvaluationRun) :=
  current ← loadRun (pf_runs p) id;
  next ← map_err (fun e => ErrEvaluationState :: e) (apply_change change current);
  Ok (current, next).
Definition transition (p : platform) (id : EvaluationRunID) (change : run_change) : res (EvaluationRun * platform) :=
  '(current, next) ← transition_read p id change;
  t ← UpdateEvaluationRun (pf_runs p) current next;
  Ok (next, with_run_table p t).
Definition StartEvaluationRun (p : platform) (id : EvaluationRunID) (at_ : time) := transition p id (change_start at_).
Definition CompleteEvaluationRun (p : platform) (id : EvaluationRunID) (at_ : time) := transition p id (change_complete at_).
Definition FailEvaluationRun (p : platform) (id : EvaluationRunID) (at_ : time) (reason : string) := transition p id (change_fail at_ reason).
Definition CancelEvaluationRun (p : platform) (id : EvaluationRunID) (at_ : time) := transition p id (change_cancel at_).

Record EvaluationProgressReport : Type := {
  PG_Run : EvaluationRun; PG_RecordCount : Z; PG_BehaviorObservationCount : Z; PG_DistinctBehaviorCount : Z;
  PG_BehaviorComplete : bool; PG_NextIngestSequence : Z }.
Definition EvaluationProgress (p : platform) (id : EvaluationRunID) : res EvaluationProgressReport :=
  run ← loadRun (pf_runs p) id;
  state ← ingestState (pf_runs p) (pf_evidence p) id;
  Ok {| PG_Run := run; PG_RecordCount := is_recordCount state; PG_BehaviorObservationCount := behaviorObservationCount state;
        PG_DistinctBehaviorCount := distinctBehaviorCount state; PG_BehaviorComplete := behaviorComplete state;
        PG_NextIngestSequence := nextSequence state |}.

(** ** Evidence of a run *)
Definition isGenuinelyEmpty (state : EvaluationIngestState) : bool :=
  (nextSequence state =? 1) && (lastDigest state =s "") && (is_recordCount state =? 0) &&
  (behaviorObservationCount state =? 0) && (distinctBehaviorCount state =? 0) && behaviorComplete state.
Definition comparisonEvidence (p : platform) (run : EvaluationRun) : res (EvaluationAggregate * BehaviorSnapshot) :=
  match loadEvidence (pf_runs p) (pf_evidence p) (run_id run) with
  | Ok evidence => Ok evidence
  | Err e =>
      if negb (errors_is e ErrStoreNotFound) then Err e
      else
        state ← ingestState (pf_runs p) (pf_evidence p) (run_id run);
        fail_if (negb (isGenuinelyEmpty state)) [ErrStoreCorrupt];;
        empty ← NewEvaluationAggregate run;
        collector ← NewBehaviorCollector run;
        Ok (empty, Snapshot collector)
  end.
Definition completedRun (p : platform) (id : EvaluationRunID) : res EvaluationRun :=
  run ← loadRun (pf_runs p) id;
  fail_if (status run <>s RunCompleted) [ErrEvaluationState];;
  Ok run.

(** ** Retained observations through the store *)
Definition no_filter : ObservationFilter :=
  {| Filter_FingerprintID := ""; Filter_Decision := ""; Filter_RiskLevel := ""; Filter_SessionID := ""; Filter_TraceID := "" |}.
(** The digest-key columns are functions of the text columns they accompany. *)
Definition predicate (f : ObservationFilter) (o : Observation) : bool :=
  ((Filter_FingerprintID f =s "") || (O_FingerprintID o =s Filter_FingerprintID f)) &&
  ((Filter_Decision f =s "") || (O_Decision o =s Filter_Decision f)) &&
  ((Filter_RiskLevel f =s "") || (O_RiskLevel o =s Filter_RiskLevel f)) &&
  ((Filter_SessionID f =s "") || (O_SessionID o =s Filter_SessionID f)) &&
  ((Filter_TraceID f =s "") || (O_TraceID o =s Filter_TraceID f)).
Definition observationsMatch (h : run_history) (f : ObservationFilter) : bool := existsb (predicate f) (rows h).
Definition Store_FindObservations (p : platform) (id : EvaluationRunID) (f : ObservationFilter) (after limit : Z) : res ObservationPage :=
  loadRun (pf_runs p) id;;
  history ← Store_observationHistoryFor (pf_evidence p) id;
  h ← loadObservationHistoryRow (pf_evidence p) id;
  let observations := take (Z.to_nat limit) (List.filter (fun o => (after <? Sequence o) && predicate f o) (rows h)) in
  Ok {| Observations := observations; Page_History := history;
        Matched := match observations with [] => observationsMatch h f | _ => true end |}.
Definition Store_RunObservations (p : platform) (id : EvaluationRunID) (after limit : Z) : res ObservationPage :=
  Store_FindObservations p id no_filter after limit.
Definition FindEvaluationRunObservations (p : platform) (id : EvaluationRunID) (scope : ObservationScope) (after : string) (limit : Z)
    : res ObservationPage :=
  validateID id;;
  filter ← Observation.filter_ scope;
  validateObservationPage after limit;;
  cursor ← ParseObservationCursor after;
  loadRun (pf_runs p) id;;
  Store_FindObservations p id filter cursor limit.
Definition EvaluationRunObservations (p : platform) (id : EvaluationRunID) (after : string) (limit : Z) : res ObservationPage :=
  FindEvaluationRunObservations p id {| Scope_SessionID := ""; Scope_TraceID := ""; Scope_FingerprintID := "" |} after limit.

(** ** The behaviors of a run, paged *)
Record EvaluationRunBehaviorPage : Type := { BP_Entries : list BehaviorEntry; BP_Complete : bool }.
(** sort.Search: the least index of [0, n) at which a monotone condition holds, by bisection. *)
Fixpoint search (f : nat -> bool) (fuel i j : nat) : nat :=
  match fuel with
  | O => i
  | S fuel =>
      if (i <? j)%nat then
        let h := ((i + j) / 2)%nat in
        if negb (f h) then search f fuel (S h) j else search f fuel i h
      else i
  end.
Definition sort_Search (n : nat) (f : nat -> bool) : nat := search f n 0 n.

Definition EvaluationRunBehaviors (p : platform) (id : EvaluationRunID) (after : string) (limit : Z) : res EvaluationRunBehaviorPage :=
  validateID id;;
  validateListPage after limit;;
  run ← loadRun (pf_runs p) id;
  '(_, snapshot) ← comparisonEvidence p run;
  let entries := snap_entries snapshot in
  let start := if after <>s "" then
                 sort_Search (length entries) (fun i => match entries !! i with Some e => string_lt after (BE_FingerprintID e) | None => false end)
               else O in
  let end_ := Nat.min (start + Z.to_nat limit) (length entries) in
  Ok {| BP_Entries := take (end_ - start) (drop start entries); BP_Complete := snap_complete snapshot |}.

(** ** Comparison and promotion *)
Record EvaluationComparison : Type := {
  EC_Reference : EvaluationRun;
  EC_Candidate : EvaluationRun;
  EC_Diff : BehaviorDiff;
  EC_Scorecard : EvaluationScorecard;
  EC_Gate : EvaluationGateResult;
  EC_Cost : option CostComparison;
  EC_Sameness : ComparisonSameness;
  EC_Warnings : list ComparisonWarning;
}.

Record PromotionRequest : Type := {
  PQ_ID : PromotionID;
  PQ_ReferenceRunID : EvaluationRunID;
  PQ_CandidateRunID : EvaluationRunID;
  PQ_TargetEnvironment : EnvironmentRef;
  PQ_GateLimits : EvaluationGateLimits;
}.

Section control.
Context `{order : MapOrder} `{unicode : Unicode} (pricing : Pricing).

Definition samenessOfRuns (p : platform) (request : RepeatedEvaluationRequest) : res (ComparisonSameness * list ComparisonWarning) :=
  recorded ← loadRunProvenance (pf_scenarios p) (ReferenceRunIDs request ++ CandidateRunIDs request)%list;
  Ok (match recorded with
      | None => newComparisonSameness no_provenance no_provenance
      | Some recorded => newComparisonSameness (sideProvenanceOfRuns (ReferenceRunIDs request) recorded)
                                               (sideProvenanceOfRuns (CandidateRunIDs request) recorded)
      end).

(** The evidence of two runs of one project, compared: the part of [CompareEvaluations] that
    reads nothing but the two runs' evidence. *)
Definition compare_evidence (p : platform) (reference candidate : EvaluationRun) (limits : EvaluationGateLimits)
    : res (BehaviorDiff * EvaluationScorecard * EvaluationGateResult * option CostComparison) :=
  '(referenceAggregate, referenceSnapshot) ← comparisonEvidence p reference;
  '(candidateAggregate, candidateSnapshot) ← comparisonEvidence p candidate;
  diff ← CompareBehaviorSnapshots referenceSnapshot candidateSnapshot;
  '(candidateObservations, candidateHistory) ← retainedHistory (fun after => Store_RunObservations p (run_id candidate) after MaxListPage);
  diff ← WithCorrelation diff candidateObservations candidateHistory;
  scorecard ← NewEvaluationScorecard referenceAggregate candidateAggregate diff;
  gate ← EvaluateEvaluationGate scorecard (NewEvaluationGatePolicy limits);
  cost ← compareCost pricing [snap_entries referenceSnapshot] [snap_entries candidateSnapshot];
  Ok (diff, scorecard, gate, cost).

Definition two_runs (referenceRunID candidateRunID : EvaluationRunID) : RepeatedEvaluationRequest :=
  {| ReferenceRunIDs := [referenceRunID]; CandidateRunIDs := [candidateRunID]; Limits := Scenario.no_limits |}.
Definition CompareEvaluations (p : platform) (referenceRunID candidateRunID : EvaluationRunID) (limits : EvaluationGateLimits)
    : res EvaluationComparison :=
  reference ← completedRun p referenceRunID;
  candidate ← completedRun p candidateRunID;
  requireSameProject (pf_catalog p) reference candidate;;
  '(diff, scorecard, gate, cost) ← compare_evidence p reference candidate limits;
  '(sameness, warnings) ← samenessOfRuns p (two_runs referenceRunID candidateRunID);
  Ok {| EC_Reference := reference; EC_Candidate := candidate; EC_Diff := diff; EC_Scorecard := scorecard; EC_Gate := gate;
        EC_Cost := cost; EC_Sameness := sameness; EC_Warnings := warnings |}.

Definition promotionEnvironments (c : catalog) (reference candidate : EvaluationRun) (targetRef : EnvironmentRef)
    : res (Environment * Environment) :=
  requireSameProject c reference candidate;;
  referenceAgent ← agentOf c reference;
  candidateAgent ← agentOf c candidate;
  fail_if (referenceAgent <>s candidateAgent) [ErrPromotionScope];;
  fail_if (run_environment reference <>s run_environment candidate) [ErrPromotionScope];;
  project ← projectOf c candidate;
  source ← loadEnvironment c project (run_environment candidate);
  target ← loadEnvironment c project targetRef;
  fail_if (negb (CanPromote source target)) [ErrPromotionOrder];;
  Ok (source, target).

(** [Promote] up to the store's transaction, in the three parts between which it reads again:
    the runs and the environments, the comparison, the decision. *)
Definition check_request (request : PromotionRequest) : res unit :=
  foldM (fun _ value => validateID value) tt
    [PQ_ID request; PQ_ReferenceRunID request; PQ_CandidateRunID request; PQ_TargetEnvironment request];;
  fail_if (PQ_ReferenceRunID request =s PQ_CandidateRunID request) [ErrInvalidID].
Definition promote_scope (p : platform) (request : PromotionRequest) : res (Environment * Environment) :=
  check_request request;;
  candidateRun ← completedRun p (PQ_CandidateRunID request);
  referenceRun ← completedRun p (PQ_ReferenceRunID request);
  promotionEnvironments (pf_catalog p) referenceRun candidateRun (PQ_TargetEnvironment request).
Definition promote_compare (p : platform) (request : PromotionRequest) : res EvaluationComparison :=
  CompareEvaluations p (PQ_ReferenceRunID request) (PQ_CandidateRunID request) (PQ_GateLimits request).
Definition promote_decide (request : PromotionRequest) (at_ : time) (source target : Environment) (comparison : EvaluationComparison)
    : res Promotion :=
  NewPromotion {| PD_ID := PQ_ID request; Source := source; Target := target; GateResult := EC_Gate comparison; DecidedAt := at_ |}.
Definition with_catalogue (p : platform) (c : catalog) : platform :=
  {| pf_ingest := pf_ingest p; pf_catalog := c; pf_scenarios := pf_scenarios p |}.
Definition Promote (p : platform) (request : PromotionRequest) (at_ : time) : res (Promotion * platform) :=
  '(source, target) ← promote_scope p request;
  comparison ← promote_compare p request;
  promotion ← promote_decide request at_ source target comparison;
  c ← Store_CreatePromotion (pf_catalog p) promotion;
  Ok (promotion, with_catalogue p c).

(** ** Repeated comparison *)
Definition completedRepetition (evidence : RepetitionEvidence) (aggregate : EvaluationAggregate) (snapshot : BehaviorSnapshot)
    : res repetitionInput :=
  fail_if (negb (snap_complete snapshot)) [ErrIncompleteSnapshot];;
  Ok {| evidence := {| RE_Side := RE_Side evidence; RE_Index := RE_Index evidence; RE_RunID := RE_RunID evidence;
                       RE_Status := RE_Status evidence; RE_BehavioralProfile := RE_BehavioralProfile evidence;
                       RE_RecordCount := recordCount aggregate; RE_DistinctBehaviors := Z.of_nat (length (snap_entries snapshot));
                       RE_BlockDecisions := Block (decisions aggregate);
                       RE_CriticalRiskObservations := Critical (risks aggregate) |};
        ri_entries := snap_entries snapshot |}.

Definition named : Type := ComparisonSide * Z * EvaluationRunID.
Definition repetition_order (request : RepeatedEvaluationRequest) : list named :=
  (imap (fun i id => (SideReference, Z.of_nat i + 1, id)) (ReferenceRunIDs request) ++
   imap (fun i id => (SideCandidate, Z.of_nat i + 1, id)) (CandidateRunIDs request))%list.

(** The runs of a request: distinct profiles, one environment, one project. *)
Definition load_named (p : platform) (acc : list EvaluationRun * gset BehavioralProfileRef) (n : named)
    : res (list EvaluationRun * gset BehavioralProfileRef) :=
  let '(runs, profiles) := acc in
  run ← loadRun (pf_runs p) (snd n);
  fail_if (bool_decide (run_profile run ∈ profiles)) [ErrRepeatedIsolation];;
  match runs with
  | [] => Ok tt
  | first :: _ =>
      fail_if (run_environment run <>s run_environment first) [ErrBehaviorEnvironmentMismatch];;
      requireSameProject (pf_catalog p) first run
  end;;
  Ok ((runs ++ [run])%list, {[run_profile run]} ∪ profiles).

Definition pending_evidence (n : named) (run : EvaluationRun) : RepetitionEvidence :=
  let '(side, index, _) := n in
  {| RE_Side := side; RE_Index := index; RE_RunID := run_id run; RE_Status := status run; RE_BehavioralProfile := run_profile run;
     RE_RecordCount := 0; RE_DistinctBehaviors := 0; RE_BlockDecisions := 0; RE_CriticalRiskObservations := 0 |}.
Definition repetition_input (p : platform) (n : named) (run : EvaluationRun) : res repetitionInput :=
  if status run <>s RunCompleted then Ok {| evidence := pending_evidence n run; ri_entries := [] |}
  else
    '(aggregate, snapshot) ← comparisonEvidence p run;
    completedRepetition (pending_evidence n run) aggregate snapshot.

Definition with_cost (c : RepeatedEvaluationComparison) (cost : option CostComparison) : RepeatedEvaluationComparison :=
  {| RX_Runs := RX_Runs c; RX_Limits := RX_Limits c; Repetitions := Repetitions c; RX_Behaviors := RX_Behaviors c; RX_Gate := RX_Gate c;
     RX_Operational := RX_Operational c; RX_Cost := cost; RX_Targets := RX_Targets c; LostTransitions := LostTransitions c;
     Suggestions := Suggestions c; SuggestionsTruncated := SuggestionsTruncated c; Sameness := Sameness c; Warnings := Warnings c |}.
Definition with_sameness (c : RepeatedEvaluationComparison) (s : ComparisonSameness * list ComparisonWarning) : RepeatedEvaluationComparison :=
  {| RX_Runs := RX_Runs c; RX_Limits := RX_Limits c; Repetitions := Repetitions c; RX_Behaviors := RX_Behaviors c; RX_Gate := RX_Gate c;
     RX_Operational := RX_Operational c; RX_Cost := RX_Cost c; RX_Targets := RX_Targets c; LostTransitions := LostTransitions c;
     Suggestions := Suggestions c; SuggestionsTruncated := SuggestionsTruncated c; Sameness := fst s; Warnings := snd s |}.

(** The cost is of the completed repetitions of each side. *)
Definition compareRepeatedWithInputs (p : platform) (request : RepeatedEvaluationRequest)
    : res (RepeatedEvaluationComparison * list repetitionInput) :=
  RepeatedEvaluationRequest_Validate request;;
  let ordered := repetition_order request in
  '(runs, _) ← foldM (load_named p) ([], ∅) ordered;
  inputs ← mapM (fun nr => repetition_input p (fst nr) (snd nr)) (zip ordered runs);
  result ← reduceRepeated (Limits request) (Runs request) inputs;
  cost ← compareCost pricing (on_reference (runs_by inputs)) (on_candidate (runs_by inputs));
  Ok (with_cost result cost, inputs).
Definition compareRepeated (p : platform) (request : RepeatedEvaluationRequest) : res RepeatedEvaluationComparison :=
  '(result, _) ← compareRepeatedWithInputs p request; Ok result.
Definition CompareRepeatedEvaluations (p : platform) (request : RepeatedEvaluationRequest) : res RepeatedEvaluationComparison :=
  result ← compareRepeated p request;
  sameness ← samenessOfRuns p request;
  Ok (with_sameness result sameness).
End control.

(** ** The system: every call in flight, in any interleaving *)
Section system.
Context (RecordDigest : DecisionRecord -> res string).
Context (digest_shape : forall record d, RecordDigest record = Ok d -> validateDigestShape d = Ok tt).
Context `{json : GateJSON} `{order : MapOrder} `{unicode : Unicode} (pricing : Pricing).

(** [cc_calls] counts the calls made of the scenario store. *)
Record control_config : Type := {
  cc_ingest : ingest_system;
  cc_flights : list in_flight;
  cc_edits : edit_system;
  cc_scenarios : scenario_tables;
  cc_calls : nat;
}.
Definition platform_of (k : control_config) : platform :=
  {| pf_ingest := cc_ingest k; pf_catalog := es_catalog (cc_edits k); pf_scenarios := cc_scenarios k |}.

(** Ingestion in its steps, a run's creation and its transitions at their writes, whatever was
    read before; the catalogue's steps; and the calls of the scenario store. *)
Inductive control_step : control_config -> control_config -> Prop :=
| cs_ingest k s fs :
    ingest_step RecordDigest (cc_ingest k, cc_flights k) (s, fs) -> sys_runs s = sys_runs (cc_ingest k) ->
    control_step k {| cc_ingest := s; cc_flights := fs; cc_edits := cc_edits k; cc_scenarios := cc_scenarios k; cc_calls := cc_calls k |}
| cs_create k run t :
    run_reachable run -> Store_CreateEvaluationRun (ct_candidates (es_catalog (cc_edits k))) (sys_runs (cc_ingest k)) run = Ok t ->
    control_step k {| cc_ingest := with_runs (cc_ingest k) t; cc_flights := cc_flights k; cc_edits := cc_edits k;
                      cc_scenarios := cc_scenarios k; cc_calls := cc_calls k |}
| cs_update k previous next t :
    run_reachable previous -> run_reachable next -> UpdateEvaluationRun (sys_runs (cc_ingest k)) previous next = Ok t ->
    control_step k {| cc_ingest := with_runs (cc_ingest k) t; cc_flights := cc_flights k; cc_edits := cc_edits k;
                      cc_scenarios := cc_scenarios k; cc_calls := cc_calls k |}
| cs_catalog k e :
    edit_step (cc_edits k) e ->
    control_step k {| cc_ingest := cc_ingest k; cc_flights := cc_flights k; cc_edits := e; cc_scenarios := cc_scenarios k; cc_calls := cc_calls k |}
| cs_scenario k op :
    op_ok op -> Z.of_nat (cc_calls k) < max_i64 ->
    control_step k {| cc_ingest := cc_ingest k; cc_flights := cc_flights k; cc_edits := cc_edits k;
                      cc_scenarios := apply_op (ct_projects (es_catalog (cc_edits k))) (cc_scenarios k) op; cc_calls := S (cc_calls k) |}.

Definition empty_config : control_config :=
  {| cc_ingest := Ingest.empty_system; cc_flights := []; cc_edits := Catalog.empty_system; cc_scenarios := no_scenarios; cc_calls := 0 |}.
Definition control_reachable (k : control_config) : Prop := rtc control_step empty_config k.

(** *** The parts move as they do alone *)
Lemma create_any {A B} (candidates : gmap string A) (others : gmap string B) t run :
  (forall id, is_Some (candidates !! id) <-> is_Some (others !! id)) ->
  Store_CreateEvaluationRun candidates t run = Store_CreateEvaluationRun others t run.
Proof.
  intros H. unfold Store_CreateEvaluationRun, requireExists.
  by rewrite (bool_decide_ext _ _ (H (run_candidateID run))).
Qed.

Lemma control_parts k k' : control_step k k' ->
  rtc (ingest_step RecordDigest) (cc_ingest k, cc_flights k) (cc_ingest k', cc_flights k') /\ rtc edit_step (cc_edits k) (cc_edits k').
Proof.
  intros H. destruct H as [k s fs H|k run t Hr H|k previous next t Hp Hn H|k e H|k op H]; cbn; try (split; [reflexivity|done]).
  - split; [by apply rtc_once|done].
  - split; [|done]. apply rtc_once, (is_create _ _ _ ((fun _ => tt) <$> ct_candidates (es_catalog (cc_edits k))) run); [done|].
    rewrite <- H. apply create_any. intros id. rewrite lookup_fmap. by rewrite fmap_is_Some.
  - split; [|done]. apply rtc_once. by apply (is_update _ _ _ previous next).
  - split; [done|by apply rtc_once].
Qed.
Lemma control_parts_rtc k k' : rtc control_step k k' ->
  rtc (ingest_step RecordDigest) (cc_ingest k, cc_flights k) (cc_ingest k', cc_flights k') /\ rtc edit_step (cc_edits k) (cc_edits k').
Proof.
  intros H. induction H as [k|k k1 k2 H _ [IH1 IH2]]; [split; reflexivity|]. destruct (control_parts _ _ H). split; by etransitivity.
Qed.
Lemma control_ingest k : control_reachable k -> ingest_reachable RecordDigest (cc_ingest k) (cc_flights k).
Proof. intros H. by destruct (control_parts_rtc _ _ H). Qed.
Lemma control_edits k : control_reachable k -> edit_reachable (cc_edits k).
Proof. intros H. by destruct (control_parts_rtc _ _ H). Qed.

(** *** Calls made one at a time are runs of the steps *)
Inductive call : Type :=
| call_create (run : EvaluationRun)
| call_change (id : EvaluationRunID) (change : run_change)
| call_ingest (request : IngestRequest).
Definition call_ok (c : call) : Prop :=
  match c with call_create run => run_reachable run | call_change _ _ => True | call_ingest q => request_ok q end.
Definition with_ingest (k : control_config) (s : ingest_system) : control_config :=
  {| cc_ingest := s; cc_flights := cc_flights k; cc_edits := cc_edits k; cc_scenarios := cc_scenarios k; cc_calls := cc_calls k |}.
Definition run_call (k : control_config) (c : call) : res control_config :=
  match c with
  | call_create run => p ← CreateEvaluationRun (platform_of k) run; Ok (with_ingest k (pf_ingest p))
  | call_change id change => '(_, p) ← transition (platform_of k) id change; Ok (with_ingest k (pf_ingest p))
  | call_ingest q =>
      '(s, result) ← IngestDecisionRecord RecordDigest (cc_ingest k) q;
      fail_if (2 ^ 53 <=? IRes_RecordCount result) [];;
      Ok (with_ingest k s)
  end.

Lemma apply_change_step change r r' : apply_change change r = Ok r' -> run_step r r'.
Proof. destruct change; cbn; intros H; [by eapply step_start|by eapply step_complete|by eapply step_fail|by eapply step_cancel]. Qed.

Lemma ingest_moves s fs s' fs' e sc n : ingest_step RecordDigest (s, fs) (s', fs') -> sys_runs s' = sys_runs s ->
  control_step {| cc_ingest := s; cc_flights := fs; cc_edits := e; cc_scenarios := sc; cc_calls := n |}
               {| cc_ingest := s'; cc_flights := fs'; cc_edits := e; cc_scenarios := sc; cc_calls := n |}.
Proof. intros H Hr. exact (cs_ingest {| cc_ingest := s; cc_flights := fs; cc_edits := e; cc_scenarios := sc; cc_calls := n |} s' fs' H Hr). Qed.

Lemma ingest_call k q s' result : cc_flights k = [] -> request_ok q -> IngestDecisionRecord RecordDigest (cc_ingest k) q = Ok (s', result) ->
  IRes_RecordCount result < 2 ^ 53 -> rtc control_step k (with_ingest k s').
Proof.
  intros Hf Hq H Hsmall. assert (Hkk : with_ingest k (cc_ingest k) = k) by by destruct k. unfold IngestDecisionRecord in H. res_inv.
  match goal with H : (match ?x with Some _ => _ | None => _ end) = Ok _ |- _ => destruct x as [answer|] end.
  { res_inv. subst. by rewrite Hkk. }
  res_inv. match goal with H : commit_record _ _ _ = _ |- _ => rename H into Hcm end.
  destruct (commit_record_count _ _ _ _ _ Hcm) as [->|Hc]; [by rewrite Hkk|].
  assert (Hruns : sys_runs s' = sys_runs (cc_ingest k)).
  { unfold commit_record in Hcm. apply bind_Ok in Hcm as ([t c] & _ & [= <- _]). done. }
  destruct k as [s fs e sc n]. cbn in Hf, Hruns |- *. subst fs. cbn in *.
  eapply rtc_l; [by eapply ingest_moves; [eapply is_read|]|].
  eapply rtc_l; [by eapply ingest_moves; [eapply (is_state _ _ [] [])|]|].
  eapply rtc_l; [by eapply ingest_moves; [eapply (is_prepare _ _ [] [])|]|].
  apply rtc_once. eapply ingest_moves; [eapply (is_commit _ _ [] []); [exact Hcm|]|done].
  lia.
Qed.

Lemma run_call_reachable k c k' : control_reachable k -> cc_flights k = [] -> call_ok c -> run_call k c = Ok k' ->
  control_reachable k' /\ cc_flights k' = [].
Proof.
  intros Hk Hf Hc H. enough (Hs : rtc control_step k k' /\ cc_flights k' = []) by (destruct Hs; split; [unfold control_reachable; by etransitivity|done]).
  destruct (reachable_config RecordDigest digest_shape _ _ (control_ingest _ Hk)) as [logs [Ho _]].
  destruct c as [run|id change|q]; cbn in H, Hc.
  - apply bind_Ok in H as (p & Hp & [= <-]). unfold CreateEvaluationRun in Hp. apply bind_unit_iff in Hp as [_ Hp].
    apply bind_Ok in Hp as (t & Ht & [= <-]). split; [|done]. by apply rtc_once, (cs_create k run).
  - apply bind_Ok in H as ([r p] & Hp & [= <-]). unfold transition, transition_read in Hp. apply bind_Ok in Hp as ([r0 r1] & Hr & Hp).
    apply bind_Ok in Hp as (t & Ht & [= <- <-]). apply bind_Ok in Hr as (r0' & Hl & Hr). apply bind_Ok in Hr as (r1' & Hch & [= -> ->]).
    apply map_err_Ok, apply_change_step in Hch. split; [|done]. destruct (sys_ok_run _ _ _ _ _ Ho Hl) as (Hr0 & _).
    apply rtc_once, (cs_update k r0 r1); [done|by eapply reach_step|done].
  - apply bind_Ok in H as ([s result] & Hi & H). apply bind_unit_iff in H as [Hb%fail_if_iff%Z.leb_gt [= <-]]. split; [by eapply ingest_call|done].
Qed.
Lemma run_calls_reachable cs : forall k k', control_reachable k -> cc_flights k = [] -> Forall call_ok cs -> foldM run_call k cs = Ok k' ->
  control_reachable k' /\ cc_flights k' = [].
Proof.
  induction cs as [|c cs IH]; intros k k' Hk Hf Hc H; cbn in H; [by injection H as <-|]. apply Forall_cons in Hc as [Hc Hcs].
  apply bind_Ok in H as (k1 & H1 & H). destruct (run_call_reachable _ _ _ Hk Hf Hc H1). by eapply IH.
Qed.
Lemma edits_reachable e : edit_reachable e ->
  control_reachable {| cc_ingest := Ingest.empty_system; cc_flights := []; cc_edits := e; cc_scenarios := no_scenarios; cc_calls := 0 |}.
Proof.
  intros H. unfold control_reachable. unfold edit_reachable in H. unfold empty_config. generalize Catalog.empty_system, H. clear.
  intros e0. induction 1 as [e0|e0 e1 e2 H _ IH]; [reflexivity|]. eapply rtc_l; [|exact IH]. by apply (cs_catalog {| cc_ingest := Ingest.empty_system; cc_flights := []; cc_edits := e0; cc_scenarios := no_scenarios; cc_calls := 0 |}).
Qed.

(** *** A finished run is frozen *)
Definition frozen (id : EvaluationRunID) (s s' : ingest_system) : Prop :=
  sys_runs s' !! id = sys_runs s !! id /\ same_rows (sys_evidence s) (sys_evidence s') id.
#[local] Instance frozen_preorder id : PreOrder (frozen id).
Proof.
  split; [by intros s; repeat split|]. unfold frozen, same_rows. intros s1 s2 s3 (A0 & A1 & A2 & A3 & A4 & A5) (B0 & B1 & B2 & B3 & B4 & B5).
  split_and!; etrans; eauto.
Qed.

Lemma commit_frame runs t commit t' result id : CommitEvaluationIngest runs t commit = Ok (t', result) ->
  (forall r, loadRun runs id = Ok r -> status r <> RunRunning) -> same_rows t t' id.
Proof.
  intros H Hid. unfold CommitEvaluationIngest in H.
  apply bind_unit_iff in H as [Hpair H]. assert (Hs : snap_runID (IC_Snapshot commit) = agg_runID (IC_Aggregate commit)).
  { unfold validateEvidencePair in Hpair. res_inv. repeat match goal with H : _ || _ = false |- _ => apply orb_false_iff in H as [? ?] end.
    match goal with H : (agg_runID _ <>s snap_runID _)%go = false |- _ => apply negb_false_iff, String.eqb_eq in H; done end. }
  res_inv. match goal with H : (if negb (_ =? ?n) then _ else _) = _ |- _ => destruct (negb (nextSequence _ =? n)) in H end.
  { match type of H with (if ?b then _ else _) = _ => destruct b end; res_inv. by subst. }
  res_inv.
  match goal with H : loadRun runs _ = Ok ?x |- _ => rename x into r; rename H into Hr end.
  match goal with H : (status r <>s _)%go = false |- _ => apply negb_false_iff, String.eqb_eq in H; rename H into Hrun end.
  assert (Hn : agg_runID (IC_Aggregate commit) <> id) by (intros <-; by apply (Hid r)).
  subst. unfold Store_retainObservation, writeEvidence in *. res_inv. subst. injection H as <- _.
  unfold same_rows. cbn. rewrite ?Hs. by rewrite !lookup_insert_ne.
Qed.

Lemma terminal_no_step r p : IsTerminal (status r) = true -> ~ run_step r p.
Proof.
  intros Ht Hs. assert (H : forall to, transitionAllowed r to = Err [ErrInvalidTransition]).
  { intros to. unfold transitionAllowed, fail_if. destruct (RunStatus_valid (status r)); [|done]. cbn. by rewrite Ht. }
  destruct Hs as [r at_ r' E|r at_ r' E|r at_ reason r' E|r at_ r' E]; unfold Start, Complete, Fail_, Cancel, finish in E; by rewrite H in E.
Qed.

Definition finished (s : ingest_system) (id : EvaluationRunID) : Prop :=
  exists r, loadRun (sys_runs s) id = Ok r /\ IsTerminal (status r) = true.

Lemma ingest_frozen s fs s' fs' id : runs_ok (sys_runs s) -> finished s id -> ingest_step RecordDigest (s, fs) (s', fs') -> frozen id s s'.
Proof.
  intros Hok (r & Hr & Ht) H. assert (Hsome : is_Some (sys_runs s !! id)).
  { unfold loadRun in Hr. by destruct (sys_runs s !! id). }
  assert (Hcommit : forall q commit s' result, commit_record s q commit = Ok (s', result) -> frozen id s s').
  { intros q commit s2 result Hc. unfold commit_record in Hc. apply bind_Ok in Hc as ([t' committed] & Hc & [= <- <-]). split; [done|]. cbn.
    apply (commit_frame _ _ _ _ _ _ Hc). intros r' Hr'. rewrite Hr in Hr'. injection Hr' as <-. intros E. by rewrite E in Ht. }
  assert (Hcreate : forall (cs : gmap CandidateID unit) run t, Store_CreateEvaluationRun cs (sys_runs s) run = Ok t -> t !! id = sys_runs s !! id).
  { intros cs run t Hc. unfold Store_CreateEvaluationRun in Hc. res_inv.
    match goal with H : insert_row _ _ _ = Ok _ |- _ => apply insert_row_inv in H as [Hn ->] end.
    rewrite lookup_insert_ne; [done|]. intros <-. exact (proj1 (eq_None_not_Some _) Hn Hsome). }
  assert (Hupdate : forall previous next t, run_reachable next -> UpdateEvaluationRun (sys_runs s) previous next = Ok t -> t !! id = sys_runs s !! id).
  { intros previous next t Hn Hu. destruct (update_row _ _ _ _ Hok Hn Hu) as (r' & ord & Hl & Hsame & (p & Hp & _) & _ & -> & _).
    rewrite lookup_insert_ne; [done|]. intros E. rewrite E, Hr in Hl. injection Hl as <-. apply sameRun_iff in Hsame as (_ & Es & _).
    apply (terminal_no_step previous p); [by rewrite <- Es|done]. }
  inversion H; subst; try reflexivity; try by eapply Hcommit.
  - split; [cbn; by eapply Hcreate|done].
  - split; [cbn; by eapply Hupdate|done].
Qed.

Lemma frozen_load id s s' : frozen id s s' -> loadRun (sys_runs s') id = loadRun (sys_runs s) id.
Proof. intros [E _]. unfold loadRun. by rewrite E. Qed.
Lemma frozen_evidence id s s' : frozen id s s' ->
  loadEvidence (sys_runs s') (sys_evidence s') id = loadEvidence (sys_runs s) (sys_evidence s) id /\
  ingestState (sys_runs s') (sys_evidence s') id = ingestState (sys_runs s) (sys_evidence s) id.
Proof.
  intros H. pose proof (frozen_load _ _ _ H) as Hl. destruct H as (_ & E1 & E2 & E3 & E4 & E5).
  assert (E : loadEvidence (sys_runs s') (sys_evidence s') id = loadEvidence (sys_runs s) (sys_evidence s) id).
  { unfold loadEvidence, evidenceRowsPresent, loadAggregate, loadSnapshot, loadBehaviorEntries, entry_rows. by rewrite E1, E2, ?E3, Hl. }
  split; [done|]. unfold ingestState, derivedIngestState. by rewrite E, E4, Hl.
Qed.

Lemma finished_frozen id s s' : frozen id s s' -> finished s id -> finished s' id.
Proof. intros H (r & Hr & Ht). exists r. by rewrite (frozen_load _ _ _ H). Qed.

Lemma ingest_steps_frozen x y id : rtc (ingest_step RecordDigest) x y -> (exists logs, config_ok RecordDigest (fst x) (snd x) logs) ->
  finished (fst x) id -> frozen id (fst x) (fst y).
Proof.
  intros H. induction H as [x|x y z H _ IH]; [reflexivity|]. intros [logs Hc] Hf. destruct x as [s fs], y as [s1 fs1]. cbn [fst snd] in *.
  assert (Hz : frozen id s s1) by (eapply ingest_frozen; [by destruct Hc as [[]]|done|exact H]).
  etransitivity; [exact Hz|]. apply IH; [|by eapply finished_frozen].
  destruct (step_config RecordDigest digest_shape _ _ _ _ _ Hc H) as (logs' & Hc' & _). by exists logs'.
Qed.

(** *** What a run is compared by *)
Lemma retained_pages_ext f g n : (forall after, f after = g after) -> forall after os history,
  retained_pages f n after os history = retained_pages g n after os history.
Proof.
  intros H. induction n as [|n IH]; intros after os history; [done|]. cbn. rewrite H. destruct (g after) as [got|]; [|done]. cbn.
  destruct (last (Observations got)); [|done]. destruct (_ <=? _); [done|apply IH].
Qed.

Lemma no_filter_all o : predicate no_filter o = true.
Proof. done. Qed.

Lemma run_evidence p r log a c os : loadRun (pf_runs p) (run_id r) = Ok r -> run_reachable r ->
  run_log RecordDigest (pf_evidence p) r log -> accumulate r log = Ok (a, c, os) ->
  comparisonEvidence p r = Ok (a, Snapshot c) /\
  retainedHistory (fun after => Store_RunObservations p (run_id r) after MaxListPage) =
    Ok (take cap os, observationHistoryFor (foldl retainObservation no_history os) (Z.of_nat (length log))).
Proof.
  intros Hl Hr Hlog Ha.
  destruct (read_log RecordDigest digest_shape _ _ _ _ Hl Hr Hlog) as (a' & c' & os' & st & Ha' & _ & Hok & _ & Hst & Hn & Hc & _ & Hnone & Hsome).
  rewrite Ha in Ha'. injection Ha' as <- <- <-. split.
  - unfold comparisonEvidence. destruct log as [|q log _] using rev_ind.
    + destruct (Hnone eq_refl) as [-> _]. cbn [errors_is negb]. change (negb (errors_is [ErrStoreNotFound] ErrStoreNotFound)) with false. cbn iota.
      inversion Hlog as [(R1 & R2 & R3 & R4 & R5)|? ? ? ? ? ? ? ? ? ? ? ? ? ? ? ? E]; [|by apply (f_equal length) in E; rewrite length_app in E; cbn in E; lia].
      destruct (Hnone eq_refl) as [E _]. unfold ingestState, derivedIngestState in Hst |- *. rewrite Hl, R4, E in *. cbn [mbind res_bind].
      change (errors_is [ErrStoreNotFound] ErrStoreNotFound) with true. cbn. unfold accumulate in Ha. apply bind_Ok in Ha as (a0 & -> & Ha).
      apply bind_Ok in Ha as (c0 & -> & Ha). cbn in Ha |- *. by injection Ha as <- <- _.
    + destruct (Hsome log q eq_refl) as [-> _]. done.
  - destruct (accumulate_evidence _ _ _ _ _ Hok Ha) as (_ & _ & Hlen & Hseq).
    pose proof (log_history RecordDigest _ _ _ _ _ _ Hok Hlog Ha) as Hh.
    destruct (retained_history _ _ _ _ _ Hok Ha) as [Hb _].
    pose proof (retainedHistory_reads 0 os ltac:(lia) Hseq) as Hread. rewrite Z.add_0_l in Hread. rewrite <- Hlen, <- Hread.
    unfold retainedHistory. apply retained_pages_ext. intros after.
    unfold Store_RunObservations, Store_FindObservations. rewrite Hl, Hh. cbn [mbind res_bind].
    unfold loadObservationHistoryRow. rewrite (stored_history _ _ _ _ _ _ _ Hlog Ha), Hb. cbn [mbind res_bind fail_if].
    set (h := foldl retainObservation no_history os).
    assert (E : take (Z.to_nat MaxListPage) (List.filter (fun o => (after <? Sequence o) && predicate no_filter o) (rows h)) =
                Observation.select_page h after 64).
    { unfold Observation.select_page. f_equal. apply filter_ext. intros o. by rewrite no_filter_all, andb_true_r. }
    unfold RunObservations, runObservationPage. rewrite Hlen, E. do 2 f_equal. unfold observationsMatch.
    destruct (Observation.select_page h after 64); [|done]. by destruct (rows h).
Qed.

(** What the comparison of two runs of one project is, in a state reached by any interleaving:
    everything is made of the two runs' logs. *)
Lemma comparison_parts k reference candidate limits d s g cost : control_reachable k ->
  loadRun (pf_runs (platform_of k)) (run_id reference) = Ok reference ->
  loadRun (pf_runs (platform_of k)) (run_id candidate) = Ok candidate ->
  compare_evidence pricing (platform_of k) reference candidate limits = Ok (d, s, g, cost) ->
  exists logR aR cR oR logC aC cC oC d0,
    log_ok logR /\ accumulate reference logR = Ok (aR, cR, oR) /\ log_ok logC /\ accumulate candidate logC = Ok (aC, cC, oC) /\
    CompareBehaviorSnapshots (Snapshot cR) (Snapshot cC) = Ok d0 /\
    WithCorrelation d0 (take cap oC) (observationHistoryFor (foldl retainObservation no_history oC) (Z.of_nat (length logC))) = Ok d /\
    NewEvaluationScorecard aR aC d = Ok s /\ EvaluateEvaluationGate s (NewEvaluationGatePolicy limits) = Ok g /\
    compareCost pricing [snap_entries (Snapshot cR)] [snap_entries (Snapshot cC)] = Ok cost.
Proof.
  intros Hk LR LC H. destruct (reachable_config RecordDigest digest_shape _ _ (control_ingest _ Hk)) as [logs [Hs _]].
  assert (Hrun : forall r, loadRun (pf_runs (platform_of k)) (run_id r) = Ok r -> exists log a c os, log_ok log /\ accumulate r log = Ok (a, c, os) /\
    comparisonEvidence (platform_of k) r = Ok (a, Snapshot c) /\
    retainedHistory (fun after => Store_RunObservations (platform_of k) (run_id r) after MaxListPage) =
      Ok (take cap os, observationHistoryFor (foldl retainObservation no_history os) (Z.of_nat (length log)))).
  { intros r Hl. destruct (sys_ok_run _ _ _ _ _ Hs Hl) as (Hr & _ & Hlog).
    destruct (read_log RecordDigest digest_shape _ _ _ _ Hl Hr Hlog) as (a & c & os & _ & Ha & _ & Hok & _).
    exists (logs (run_id r)), a, c, os. split; [done|]. split; [done|]. by apply (run_evidence (platform_of k)). }
  destruct (Hrun _ LR) as (logR & aR & cR & oR & OR & AR & ER & _). destruct (Hrun _ LC) as (logC & aC & cC & oC & OC & AC & EC & HC).
  unfold compare_evidence in H. rewrite ER, EC in H. cbn [mbind res_bind] in H. apply bind_Ok in H as (d0 & Hd0 & H).
  rewrite HC in H. cbn [mbind res_bind] in H. apply bind_Ok in H as (d' & Hd' & H). apply bind_Ok in H as (s' & Hs' & H).
  apply bind_Ok in H as (g' & Hg' & H). apply bind_Ok in H as (cost' & Hcost & [= <- <- <- <-]).
  exists logR, aR, cR, oR, logC, aC, cC, oC, d0. done.
Qed.

(** *** Comparing again *)
Lemma control_frozen k k' id : control_reachable k -> rtc control_step k k' -> finished (cc_ingest k) id -> frozen id (cc_ingest k) (cc_ingest k').
Proof.
  intros Hk H Hf. destruct (control_parts_rtc _ _ H) as [Hi _].
  exact (ingest_steps_frozen _ _ id Hi (reachable_config RecordDigest digest_shape _ _ (control_ingest _ Hk)) Hf).
Qed.

Lemma evidence_again p p' r : frozen (run_id r) (pf_ingest p) (pf_ingest p') ->
  comparisonEvidence p' r = comparisonEvidence p r /\
  retainedHistory (fun after => Store_RunObservations p' (run_id r) after MaxListPage) =
  retainedHistory (fun after => Store_RunObservations p (run_id r) after MaxListPage).
Proof.
  intros H. destruct (frozen_evidence _ _ _ H) as [E1 E2]. pose proof (frozen_load _ _ _ H) as El. split.
  - unfold comparisonEvidence, pf_runs, pf_evidence. by rewrite E1, E2.
  - unfold retainedHistory. apply retained_pages_ext. intros after. unfold Store_RunObservations, Store_FindObservations, pf_runs, pf_evidence.
    rewrite El. destruct H as (_ & F1 & _ & _ & _ & F5).
    unfold Store_observationHistoryFor, loadObservationHistoryRow, observationRecordCount. by rewrite F1, F5.
Qed.

Lemma compare_again p p' r c limits : frozen (run_id r) (pf_ingest p) (pf_ingest p') -> frozen (run_id c) (pf_ingest p) (pf_ingest p') ->
  compare_evidence pricing p' r c limits = compare_evidence pricing p r c limits.
Proof.
  intros Hr Hc. unfold compare_evidence. by rewrite (proj1 (evidence_again _ _ _ Hr)), (proj1 (evidence_again _ _ _ Hc)), (proj2 (evidence_again _ _ _ Hc)).
Qed.

(** The identity rows of the catalogue are only ever added. *)
Definition catalog_kept (c c' : catalog) : Prop :=
  ct_projects c ⊆ ct_projects c' /\ ct_agents c ⊆ ct_agents c' /\ ct_candidates c ⊆ ct_candidates c'.
#[local] Instance catalog_kept_preorder : PreOrder catalog_kept.
Proof. unfold catalog_kept. split; [done|]. intros c1 c2 c3 (A1 & A2 & A3) (B1 & B2 & B3). split_and!; by etransitivity. Qed.

Lemma edit_step_kept s s' : edit_step s s' -> catalog_kept (es_catalog s) (es_catalog s').
Proof.
  intros H. assert (Hins : forall {A} (m m' : gmap string A) id (row : A), insert_row m id row = Ok m' -> m ⊆ m').
  { intros A m m' id row Hi. apply insert_row_inv in Hi as [Hn ->]. by apply insert_subseteq. }
  destruct H; cbn; try reflexivity;
    repeat match goal with
    | H : Store_UpdateEnvironment _ _ _ = Ok _ |- _ => unfold Store_UpdateEnvironment, environmentUpdateMiss in H; apply bind_unit_iff in H as [_ H]; cbn zeta in H
    | H : match ?o with Some _ => _ | None => _ end = Ok _ |- _ => destruct o
    | H : (if ?b then _ else _) = Ok _ |- _ => destruct b
    | H : Store_CreateEnvironment _ _ = Ok _ |- _ => unfold Store_CreateEnvironment, insertEnvironmentLocked in H
    | H : Store_CreateProject _ _ = Ok _ |- _ => unfold Store_CreateProject in H
    | H : Store_CreateAgent _ _ = Ok _ |- _ => unfold Store_CreateAgent in H
    | H : Store_CreateCandidate _ _ = Ok _ |- _ => unfold Store_CreateCandidate in H
    | H : Store_CreatePromotion _ _ = Ok _ |- _ => unfold Store_CreatePromotion, insertPromotionLocked in H
    end; res_inv; subst; try reflexivity; repeat split; cbn; try done; by eapply Hins.
Qed.
Lemma edit_steps_kept s s' : rtc edit_step s s' -> catalog_kept (es_catalog s) (es_catalog s').
Proof. induction 1 as [s|s s1 s2 H _ IH]; [reflexivity|]. etransitivity; [by apply edit_step_kept|done]. Qed.

Lemma kept_rows c c' : catalog_kept c c' ->
  (forall id x, Store_Candidate c id = Ok x -> Store_Candidate c' id = Ok x) /\ (forall id x, Store_Agent c id = Ok x -> Store_Agent c' id = Ok x).
Proof.
  intros (_ & Ha & Hc). split; intros id x.
  - unfold Store_Candidate. destruct (ct_candidates c !! _) as [row|] eqn:E; [|done]. by rewrite (lookup_weaken _ _ _ _ E Hc).
  - unfold Store_Agent. destruct (ct_agents c !! _) as [row|] eqn:E; [|done]. by rewrite (lookup_weaken _ _ _ _ E Ha).
Qed.
Lemma kept_scope c c' r : catalog_kept c c' -> 
  (forall a, agentOf c r = Ok a -> agentOf c' r = Ok a) /\ (forall p, projectOf c r = Ok p -> projectOf c' r = Ok p).
Proof.
  intros [Hcand Hagent]%kept_rows.
  split; intros x H; unfold agentOf, projectOf in *; apply bind_Ok in H as (y & Hy & H); rewrite (Hcand _ _ Hy); [done|].
  apply bind_Ok in H as (z & Hz & H). cbn [mbind res_bind]. by rewrite (Hagent _ _ Hz).
Qed.
Lemma same_project_kept c c' r r' : catalog_kept c c' -> requireSameProject c r r' = Ok tt -> requireSameProject c' r r' = Ok tt.
Proof.
  intros Hk H. unfold requireSameProject in *. apply bind_Ok in H as (x & Hx & H). apply bind_Ok in H as (y & Hy & H).
  by rewrite (proj2 (kept_scope _ _ r Hk) _ Hx), (proj2 (kept_scope _ _ r' Hk) _ Hy).
Qed.

(** *** The scenario tables of the system *)
Lemma step_scenarios k k' s : control_step k k' -> Z.of_nat (cc_calls k) <= max_i64 -> implements (cc_scenarios k) s -> (length (sp_log s) <= cc_calls k)%nat ->
  Z.of_nat (cc_calls k') <= max_i64 /\ exists s', implements (cc_scenarios k') s' /\ (length (sp_log s') <= cc_calls k')%nat /\
    forall id x, sp_executions s !! id = Some x -> exists x', sp_executions s' !! id = Some x' /\ keeps x x'.
Proof.
  intros Hstep Hb Hs Hl. destruct Hstep as [k1| | | |k1 op Ho Hc]; cbn; try (split; [done|]; exists s; split; [done|]; split; [done|]; intros id x Hx; by exists x).
  destruct (apply_implements (ct_projects (es_catalog (cc_edits k1))) _ _ op Hs Ho) as (s' & Hs' & [Hl' Hk]); [lia|].
  split; [lia|]. exists s'. split; [done|]. split; [lia|exact Hk].
Qed.
Lemma control_scenarios k : control_reachable k -> Z.of_nat (cc_calls k) <= max_i64 /\
  exists s, implements (cc_scenarios k) s /\ (length (sp_log s) <= cc_calls k)%nat.
Proof.
  intros H. refine (rtc_ind_r (R := control_step) (fun k => Z.of_nat (cc_calls k) <= max_i64 /\
    exists s, implements (cc_scenarios k) s /\ (length (sp_log s) <= cc_calls k)%nat) empty_config _ _ k H).
  - split; [done|]. exists no_spec. split; [apply implements_empty|done].
  - intros k1 k2 _ Hstep [Hb (s & Hs & Hl)]. destruct (step_scenarios _ _ _ Hstep Hb Hs Hl) as (Hb' & s' & H1 & H2 & _). split; [done|by exists s'].
Qed.
(** What an execution was begun with is kept, and a finished one entirely. *)
Lemma executions_kept k k' : control_reachable k -> rtc control_step k k' -> exists s s',
  implements (cc_scenarios k) s /\ implements (cc_scenarios k') s' /\
  forall id x, sp_executions s !! id = Some x -> exists x', sp_executions s' !! id = Some x' /\ keeps x x'.
Proof.
  intros Hk H. destruct (control_scenarios _ Hk) as (Hb & s & Hs & Hl). clear Hk. exists s.
  enough (E : exists s', implements (cc_scenarios k') s' /\ forall id x, sp_executions s !! id = Some x -> exists x', sp_executions s' !! id = Some x' /\ keeps x x')
    by (destruct E as (s' & E1 & E2); by exists s').
  revert s Hs Hb Hl. induction H as [k|k k1 k2 Hstep _ IH]; intros s Hs Hb Hl; [exists s; split; [done|]; intros id x Hx; by exists x|].
  destruct (step_scenarios _ _ _ Hstep Hb Hs Hl) as (Hb' & s1 & H1 & H2 & H3). destruct (IH s1 H1 Hb' H2) as (s' & H4 & H5).
  exists s'. split; [done|]. intros id x Hx. destruct (H3 id x Hx) as (x1 & Hx1 & K1). destruct (H5 id x1 Hx1) as (x2 & Hx2 & K2). exists x2. split; [done|by etransitivity].
Qed.

Lemma foldM_total {A B} (f : B -> A -> res B) l : (forall b a, a ∈ l -> is_ok (f b a) = true) -> forall b, is_ok (foldM f b l) = true.
Proof.
  induction l as [|a l IH]; intros H b; [done|]. cbn. pose proof (H b a (list_elem_of_here _ _)) as Ha. destruct (f b a) as [b'|]; [|done].
  apply IH. intros b'' a' Ha'. apply H. by apply list_elem_of_further.
Qed.

(** *** What runs recorded of their scenario *)
Definition side_of (r : ScenarioRepetition) (e : ScenarioExecution) : SideProvenance :=
  if SR_Side r =s SideReference then fst (provenance e) else snd (provenance e).
(** A completed execution ran [run] on a side declared as [p]. *)
Definition recorded_by (s : scenario_spec) (run : EvaluationRunID) (p : SideProvenance) : Prop :=
  exists id e r, sp_executions s !! id = Some e /\ r ∈ se_repetitions e /\ SR_RunID r = run /\ p = side_of r e.

Lemma provenance_row_iff t s ids run columns : implements t s -> (run, columns) ∈ provenance_rows t ids <->
  run ∈ ids /\ exists p, recorded_by s run p /\ SideProvenance_validate p = Ok tt /\ columns = provenanceColumnValues p.
Proof.
  intros I. unfold provenance_rows. rewrite elem_of_sort_by, elem_of_remove_dups, list_elem_of_omap.
  assert (Hcols : forall e side, execution_ok e -> exists p, SideProvenance_validate p = Ok tt /\
    p = (if (side =s SideReference)%go then fst (provenance e) else snd (provenance e)) /\
    (if (side =s SideReference)%go then take 5 (x_provenance (execution_row e)) else drop 5 (x_provenance (execution_row e))) = provenanceColumnValues p).
  { intros e side He. pose proof (execution_validate_inv _ (eo_valid _ He)) as V. destruct (side =s SideReference)%go; eexists; (split; [|split; [reflexivity|reflexivity]]); apply V. }
  split.
  - intros ([[id [side i]] [run' profile]] & Hin & H). apply elem_of_map_to_list in Hin.
    case_bool_decide as Hrun; [|done]. apply (im_reps _ _ I) in Hin as (e & r & He & Hr & Hk & Hv).
    rewrite (im_rows _ _ I), He in H. cbn in H. injection H as <- <-. split; [done|]. destruct (im_ok _ _ I _ _ He) as [_ Ho].
    destruct (Hcols e side Ho) as (p & Vp & Ep & Ec). exists p. split; [|split; [done|exact Ec]]. injection Hk as Hs _. injection Hv as Hr' _.
    exists id, e, r. unfold side_of. by rewrite Hs.
  - intros (Hrun & p & (id & e & r & He & Hr & <- & ->) & Vp & ->). destruct (im_ok _ _ I _ _ He) as [_ Ho].
    exists (id, key_of r, value_of r). split.
    + apply elem_of_map_to_list, (im_reps _ _ I). by exists e, r.
    + cbn. rewrite bool_decide_eq_true_2 by done. rewrite (im_rows _ _ I), He. cbn. do 2 f_equal.
      destruct (Hcols e (SR_Side r) Ho) as (p & _ & Ep & Ec). unfold side_of. rewrite <- Ep. exact Ec.
Qed.

Definition recorded_in (run : EvaluationRunID) (l : list (EvaluationRunID * list (option string))) : list SideProvenance :=
  (fun row => sideProvenanceFromColumns (snd row)) <$> List.filter (fun row => (fst row =s run)%go) l.
Lemma read_rows l : forall acc m, foldM read_provenance acc l = Ok m ->
  forall run, default [] (m !! run) = (default [] (acc !! run) ++ recorded_in run l)%list.
Proof.
  induction l as [|[run0 columns] l IH]; intros acc m H run; cbn in H; [injection H as <-; by rewrite app_nil_r|].
  apply bind_Ok in H as (acc' & Ha & H). apply bind_unit_iff in Ha as [_ Ha]. apply bind_unit_iff in Ha as [_ Ha]. injection Ha as <-.
  rewrite (IH _ _ H). unfold recorded_in. cbn. destruct (String.eqb_spec run0 run) as [->|Hne].
  - rewrite lookup_insert_eq. cbn. by rewrite <- app_assoc.
  - by rewrite lookup_insert_ne.
Qed.

Lemma singleton_iff {A} (l : list A) p : NoDup l -> l = [p] <-> p ∈ l /\ forall q, q ∈ l -> q = p.
Proof.
  intros Hn. split; [intros ->; set_solver|]. intros [Hp Hq]. destruct l as [|x l]; [by apply elem_of_nil in Hp|].
  assert (x = p) as -> by (apply Hq; left). destruct l as [|y l]; [done|]. assert (y = p) as -> by (apply Hq; right; left).
  apply NoDup_cons in Hn as [Hn _]. exfalso. apply Hn. left.
Qed.

(** Reading the provenance of runs never fails, and one provenance is reported of a run exactly
    when the executions that ran it declared that one and no other. *)
Lemma run_provenance t s ids : implements t s -> exists out, loadRunProvenance t ids = Ok out /\
  forall m, out = Some m -> forall run p, run ∈ ids ->
    (m !! run = Some [p] <-> recorded_by s run p /\ forall q, recorded_by s run q -> q = p).
Proof.
  intros I. unfold loadRunProvenance. set (rows := provenance_rows t ids). set (n := Z.to_nat maxRunProvenanceRows).
  assert (Hok : forall b row, row ∈ take n rows -> is_ok (read_provenance b row) = true).
  { intros b [run columns] Hrow. apply subseteq_take in Hrow. apply (provenance_row_iff t s) in Hrow as (_ & p & _ & V & ->); [|done].
    destruct (columns_back p V) as [Eb He]. unfold read_provenance. rewrite Eb, V. 
    assert (E : existsb empty_column (provenanceColumnValues p) = false).
    { apply not_true_iff_false. intros (c & Hc & Hc')%existsb_exists. rewrite Forall_forall in He. rewrite (He c) in Hc'; [done|]. by apply list_elem_of_In. }
    by rewrite E. }
  pose proof (foldM_total read_provenance (take n rows) Hok ∅) as Ht. apply is_ok_spec in Ht as [m Hm].
  rewrite Hm. cbn [mbind res_bind]. destruct (maxRunProvenanceRows <? Z.of_nat (length rows)) eqn:El; [by exists None|].
  exists (Some m). split; [done|]. intros m' [= <-] run p Hrun. apply Z.ltb_ge in El. rewrite take_ge in Hm by (unfold n; lia).
  assert (Hd : m !! run = Some [p] <-> default [] (m !! run) = [p]) by (destruct (m !! run); cbn; naive_solver).
  rewrite Hd, (read_rows _ _ _ Hm run), lookup_empty. cbn [default from_option app].
  assert (Hmem : forall q, q ∈ recorded_in run rows <-> recorded_by s run q).
  { intros q. unfold recorded_in. rewrite list_elem_of_fmap. split.
    - intros ([run' columns] & -> & Hin). apply list_elem_of_In, filter_In in Hin as [Hin Er%String.eqb_eq]. cbn in *. subst run'.
      apply list_elem_of_In, (provenance_row_iff t s) in Hin as (_ & p' & Hp & V & ->); [|done]. by rewrite (proj1 (columns_back p' V)).
    - intros Hq. assert (V : SideProvenance_validate q = Ok tt).
      { destruct Hq as (id & e & r & He & _ & _ & ->). destruct (im_ok _ _ I _ _ He) as [_ Ho].
        pose proof (execution_validate_inv _ (eo_valid _ Ho)) as V. unfold side_of. destruct (_ =s _)%go; apply V. }
      exists (run, provenanceColumnValues q). cbn. rewrite (proj1 (columns_back q V)). split; [done|]. apply list_elem_of_In, filter_In.
      cbn. rewrite String.eqb_refl. split; [|done]. apply list_elem_of_In, (provenance_row_iff t s); [done|]. by eauto. }
  rewrite singleton_iff; [by setoid_rewrite Hmem|]. unfold recorded_in. apply NoDup_fmap_2_strong.
  - intros [r1 c1] [r2 c2] H1 H2 E. apply list_elem_of_In, filter_In in H1 as [H1 E1%String.eqb_eq]. apply list_elem_of_In, filter_In in H2 as [H2 E2%String.eqb_eq].
    cbn in *. subst r1 r2. apply list_elem_of_In, (provenance_row_iff t s) in H1 as (_ & p1 & _ & V1 & ->); [|done].
    apply list_elem_of_In, (provenance_row_iff t s) in H2 as (_ & p2 & _ & V2 & ->); [|done].
    rewrite (proj1 (columns_back _ V1)), (proj1 (columns_back _ V2)) in E. by rewrite E.
  - apply NoDup_ListNoDup, List.NoDup_filter, NoDup_ListNoDup. unfold rows, provenance_rows. rewrite sort_by_perm. apply NoDup_remove_dups.
Qed.

Lemma completedRun_finished k id r : control_reachable k -> completedRun (platform_of k) id = Ok r ->
  finished (cc_ingest k) id /\ loadRun (pf_runs (platform_of k)) (run_id r) = Ok r /\ run_id r = id /\ run_reachable r.
Proof.
  intros Hk H. unfold completedRun in H. apply bind_Ok in H as (r' & Hl & H). rewrite bind_unit_iff, fail_if_iff, negb_false_iff in H.
  destruct H as [Hs%String.eqb_eq [= <-]]. destruct (reachable_config RecordDigest digest_shape _ _ (control_ingest _ Hk)) as [logs [Ho _]].
  destruct (sys_ok_run _ _ _ _ _ Ho Hl) as (Hr & Hid & _). subst id. split; [|done]. exists r'. split; [done|]. by rewrite Hs.
Qed.
Lemma completedRun_again k k' id r : control_reachable k -> rtc control_step k k' -> completedRun (platform_of k) id = Ok r ->
  completedRun (platform_of k') id = Ok r /\ frozen (run_id r) (cc_ingest k) (cc_ingest k').
Proof.
  intros Hk H Hr. destruct (completedRun_finished _ _ _ Hk Hr) as (Hf & _ & Hid & _).
  pose proof (control_frozen _ _ _ Hk H Hf) as Hz. rewrite Hid. split; [|done].
  unfold completedRun in *. unfold pf_runs in *. cbn [platform_of pf_ingest] in *. by rewrite (frozen_load _ _ _ Hz).
Qed.
Lemma control_kept k k' : rtc control_step k k' -> catalog_kept (es_catalog (cc_edits k)) (es_catalog (cc_edits k')).
Proof. intros H. destruct (control_parts_rtc _ _ H) as [_ He]. by apply edit_steps_kept. Qed.

(** A comparison that answered answers again, the same but for what later executions recorded. *)
Definition same_evidence (x y : EvaluationComparison) : Prop :=
  EC_Reference y = EC_Reference x /\ EC_Candidate y = EC_Candidate x /\ EC_Diff y = EC_Diff x /\
  EC_Scorecard y = EC_Scorecard x /\ EC_Gate y = EC_Gate x /\ EC_Cost y = EC_Cost x.
Lemma compare_repeats k k' idR idC limits x : control_reachable k -> rtc control_step k k' ->
  CompareEvaluations pricing (platform_of k) idR idC limits = Ok x ->
  exists y, CompareEvaluations pricing (platform_of k') idR idC limits = Ok y /\ same_evidence x y.
Proof.
  intros Hk H Hx. assert (Hk' : control_reachable k') by (unfold control_reachable; by etransitivity). unfold CompareEvaluations in Hx |- *.
  apply bind_Ok in Hx as (r & Hr & Hx). apply bind_Ok in Hx as (c & Hc & Hx). apply bind_unit_iff in Hx as [Hp Hx].
  apply bind_Ok in Hx as ([[[d s] g] cost] & Hd & Hx). apply bind_Ok in Hx as ([sm ws] & _ & [= <-]).
  destruct (completedRun_again _ _ _ _ Hk H Hr) as [-> Fr]. destruct (completedRun_again _ _ _ _ Hk H Hc) as [-> Fc]. cbn [mbind res_bind].
  cbn [platform_of pf_catalog] in *. rewrite (same_project_kept _ _ _ _ (control_kept _ _ H) Hp). cbn [mbind res_bind].
  rewrite (compare_again (platform_of k) (platform_of k')), Hd by done. cbn [mbind res_bind].
  destruct (control_scenarios _ Hk') as (_ & sc & Hsc & _). unfold samenessOfRuns. cbn [platform_of pf_scenarios].
  destruct (run_provenance _ _ (ReferenceRunIDs (two_runs idR idC) ++ CandidateRunIDs (two_runs idR idC)) Hsc) as (out & -> & _).
  cbn [mbind res_bind]. destruct (match out with Some _ => _ | None => _ end) as [sm' ws']. by eexists.
Qed.

Lemma promotion_scope_parts c r x ref src tgt : promotionEnvironments c r x ref = Ok (src, tgt) ->
  requireSameProject c r x = Ok tt /\ (exists a, agentOf c r = Ok a /\ agentOf c x = Ok a) /\ run_environment r = run_environment x /\
  (exists p, projectOf c x = Ok p /\ loadEnvironment c p (run_environment x) = Ok src /\ loadEnvironment c p ref = Ok tgt) /\ CanPromote src tgt = true.
Proof.
  intros H. unfold promotionEnvironments in H. apply bind_unit_iff in H as [Hp H]. apply bind_Ok in H as (a & Ha & H). apply bind_Ok in H as (b & Hb & H).
  rewrite bind_unit_iff, fail_if_iff, negb_false_iff in H. destruct H as [->%String.eqb_eq H].
  rewrite bind_unit_iff, fail_if_iff, negb_false_iff in H. destruct H as [He%String.eqb_eq H].
  apply bind_Ok in H as (p & Hpr & H). apply bind_Ok in H as (src' & Hs & H). apply bind_Ok in H as (tgt' & Ht & H).
  rewrite bind_unit_iff, fail_if_iff, negb_false_iff in H. destruct H as [Hc [= <- <-]]. eauto 10.
Qed.
Lemma promotion_scope_make c r x ref src tgt a p : requireSameProject c r x = Ok tt -> agentOf c r = Ok a -> agentOf c x = Ok a ->
  run_environment r = run_environment x -> projectOf c x = Ok p -> loadEnvironment c p (run_environment x) = Ok src ->
  loadEnvironment c p ref = Ok tgt -> CanPromote src tgt = true -> promotionEnvironments c r x ref = Ok (src, tgt).
Proof.
  intros H1 H2 H3 H4 H5 H6 H7 H8. unfold promotionEnvironments. rewrite H1, H2, H3. cbn [mbind res_bind]. rewrite String.eqb_refl. cbn [negb fail_if mbind res_bind].
  rewrite H4, String.eqb_refl. cbn [negb fail_if mbind res_bind]. rewrite H5. cbn [mbind res_bind]. rewrite H6. cbn [mbind res_bind]. rewrite H7.
  cbn [mbind res_bind]. by rewrite H8.
Qed.

(** *** Repetitions *)
(** The runs of a request, as loaded. *)
Record runs_loaded (p : platform) (ns : list named) (runs : list EvaluationRun) : Prop := {
  ld_runs : Forall2 (fun n r => loadRun (pf_runs p) (snd n) = Ok r) ns runs;
  ld_profiles : NoDup (run_profile <$> runs);
  ld_environment : forall r r', r ∈ runs -> r' ∈ runs -> run_environment r = run_environment r';
}.
Lemma load_named_all p ns : forall ns0 runs0 profs0 runs profs, runs_loaded p ns0 runs0 -> (forall x, x ∈ profs0 <-> x ∈ run_profile <$> runs0) ->
  foldM (load_named p) (runs0, profs0) ns = Ok (runs, profs) -> runs_loaded p (ns0 ++ ns) runs.
Proof.
  induction ns as [|n ns IH]; intros ns0 runs0 profs0 runs profs Hl Hp H; cbn in H; [injection H as <- _; by rewrite app_nil_r|].
  apply bind_Ok in H as ([runs1 profs1] & Hn & H). apply bind_Ok in Hn as (r & Hr & Hn).
  rewrite bind_unit_iff, fail_if_iff, bool_decide_eq_false in Hn. destruct Hn as [Hnew Hn]. apply bind_unit_iff in Hn as [Hfirst [= <- <-]].
  rewrite (cons_middle n ns0 ns), app_assoc. eapply IH; [|..|exact H].
  - destruct Hl as [L1 L2 L3]. split.
    + apply Forall2_app; [done|]. by constructor.
    + rewrite fmap_app. apply NoDup_app. split_and!; [done| |cbn; apply NoDup_singleton]. intros x Hx. cbn. rewrite list_elem_of_singleton.
      intros ->. by apply Hnew, Hp.
    + assert (Hsame : forall r', r' ∈ runs0 -> run_environment r = run_environment r').
      { intros r' Hr'. destruct runs0 as [|first rest]; [by apply elem_of_nil in Hr'|]. rewrite bind_unit_iff, fail_if_iff, negb_false_iff in Hfirst.
        destruct Hfirst as [->%String.eqb_eq _]. apply L3; [left|done]. }
      intros r1 r2 H1 H2. apply elem_of_app in H1 as [H1|H1%list_elem_of_singleton], H2 as [H2|H2%list_elem_of_singleton]; subst; auto.
      symmetry. by apply Hsame.
  - intros x. rewrite fmap_app, elem_of_app, elem_of_union, elem_of_singleton, Hp. cbn. rewrite list_elem_of_singleton. tauto.
Qed.

(** One input of the reduction, made of a run's log when the run completed. *)
Record input_of (n : named) (r : EvaluationRun) (i : repetitionInput) : Prop := {
  in_side : RE_Side (evidence i) = fst (fst n) /\ RE_Index (evidence i) = snd (fst n);
  in_run : RE_RunID (evidence i) = run_id r /\ RE_Status (evidence i) = status r /\ RE_BehavioralProfile (evidence i) = run_profile r;
  in_pending : status r <> RunCompleted -> i = {| evidence := pending_evidence n r; ri_entries := [] |};
  in_completed : status r = RunCompleted -> exists log a c os, log_ok log /\ accumulate r log = Ok (a, c, os) /\ col_complete c = true /\
    ri_entries i = snap_entries (Snapshot c) /\ RE_RecordCount (evidence i) = Z.of_nat (length log) /\
    RE_DistinctBehaviors (evidence i) = Z.of_nat (length (snap_entries (Snapshot c))) /\
    RE_BlockDecisions (evidence i) = Block (decisions a) /\ RE_CriticalRiskObservations (evidence i) = Critical (risks a);
}.

Lemma repetition_input_Ok k n r i : control_reachable k -> loadRun (pf_runs (platform_of k)) (snd n) = Ok r ->
  repetition_input (platform_of k) n r = Ok i -> input_of n r i.
Proof.
  intros Hk Hl H. unfold repetition_input in H. destruct (String.eqb_spec (status r) RunCompleted) as [Hs|Hs]; cbn [negb] in H.
  - destruct (reachable_config RecordDigest digest_shape _ _ (control_ingest _ Hk)) as [logs [Ho _]].
    destruct (sys_ok_run _ _ _ _ _ Ho Hl) as (Hr & Hid & Hlog). rewrite <- Hid in Hl, Hlog.
    destruct (read_log RecordDigest digest_shape _ _ _ _ Hl Hr Hlog) as (a & c & os & _ & Ha & Hev & Hok & _).
    destruct (run_evidence (platform_of k) _ _ _ _ _ Hl Hr Hlog Ha) as [E _]. rewrite E in H. cbn [mbind res_bind] in H.
    unfold completedRepetition in H. rewrite bind_unit_iff, fail_if_iff, negb_false_iff in H. destruct H as [Hc [= <-]].
    destruct (accumulate_evidence _ _ _ _ _ Hok Ha) as (_ & Hn & _). destruct n as [[side index] id]. split; cbn; try done.
    intros _. exists (logs (run_id r)), a, c, os. split_and!; try done. unfold Snapshot in Hc.
    by rewrite (co_bound _ (ev_col _ _ _ (evidence_reachable_ok _ _ _ Hev))) in Hc.
  - injection H as <-. destruct n as [[side index] id]. split; cbn; try done.
Qed.

Lemma entry_repeated_ok env id e : entry_ok env id e -> repeated_entry_ok e /\ entry_tokens_ok e.
Proof.
  intros [_ _ _ Ho [Hr _] [Hf _]]. split; [|exact (rg_tokens _ Hr)]. split; [|done]. split; [ulia|exact (rg_429 _ Hr)].
Qed.
Lemma input_of_ok n r i : input_of n r i -> fst (fst n) = SideReference \/ fst (fst n) = SideCandidate -> input_ok i.
Proof.
  intros [[Is _] (_ & Est & _) Hp Hc] Hside. destruct (decide (status r = RunCompleted)) as [Hs|Hs].
  - destruct (Hc Hs) as (log & a & c & os & Hok & Ha & _ & Ee & _ & _ & Eb & Ec).
    destruct (accumulate_evidence _ _ _ _ _ Hok Ha) as (Hev%evidence_reachable_ok & _). pose proof (Snapshot_ok _ (ev_col _ _ _ Hev)) as Hsn.
    pose proof (ao_parts a (ev_agg _ _ _ Hev)) as Hparts. rewrite !Forall_cons in Hparts. destruct Hparts as ((P1 & _) & (P2 & _) & _).
    unfold decision_parts, risk_parts in P1, P2. rewrite !Forall_cons in P1. rewrite !Forall_cons in P2.
    destruct P1 as (_ & _ & _ & _ & _ & P1 & _), P2 as (_ & _ & _ & P2 & _). split; try (by rewrite Is); rewrite ?Eb, ?Ec, ?Ee; try ulia.
    + intros _. eapply Forall_impl; [exact (sn_entries _ Hsn)|]. intros e He. by destruct (entry_repeated_ok _ _ _ He).
    + intros _. apply Hsn.
  - rewrite (Hp Hs). destruct n as [[side index] id]. cbn [fst] in *. split; cbn [evidence pending_evidence RE_Side RE_BlockDecisions RE_CriticalRiskObservations]; try done; try lia;
      intros E%String.eqb_eq; by destruct Hs.
Qed.

Lemma order_sides request n : n ∈ repetition_order request -> fst (fst n) = SideReference \/ fst (fst n) = SideCandidate.
Proof.
  unfold repetition_order. rewrite elem_of_app, !elem_of_lookup_imap. intros [(i & id & -> & _)|(i & id & -> & _)]; [by left|by right].
Qed.

(** ** Properties *)

(** C9: in whatever state the interleaving of calls has left the platform, a comparison of two
    completed runs is of what the two runs' logs of accepted requests make, each taken once,
    from the first: the difference of their behaviors, correlated with the candidate's
    retained observations, its scorecard, its gate and its cost; a warning is given only of
    sides every execution of the run declared alike; and asked again, whatever is done to the
    platform in between, the comparison answers the same runs, difference, scorecard, gate
    and cost.  Only its sameness and warnings may then differ: they are of the scenario
    executions recorded by that time. *)
Theorem comparison_of_histories k idR idC limits x : control_reachable k ->
  CompareEvaluations pricing (platform_of k) idR idC limits = Ok x ->
  (exists logR aR cR oR logC aC cC oC d0, let reference := EC_Reference x in let candidate := EC_Candidate x in
     run_id reference = idR /\ run_id candidate = idC /\ status reference = RunCompleted /\ status candidate = RunCompleted /\
     log_ok logR /\ accumulate reference logR = Ok (aR, cR, oR) /\ log_ok logC /\ accumulate candidate logC = Ok (aC, cC, oC) /\
     CompareBehaviorSnapshots (Snapshot cR) (Snapshot cC) = Ok d0 /\
     WithCorrelation d0 (take cap oC) (observationHistoryFor (foldl retainObservation no_history oC) (Z.of_nat (length logC))) = Ok (EC_Diff x) /\
     NewEvaluationScorecard aR aC (EC_Diff x) = Ok (EC_Scorecard x) /\
     EvaluateEvaluationGate (EC_Scorecard x) (NewEvaluationGatePolicy limits) = Ok (EC_Gate x) /\
     compareCost pricing [snap_entries (Snapshot cR)] [snap_entries (Snapshot cC)] = Ok (EC_Cost x)) /\
  (exists s, implements (cc_scenarios k) s /\ forall code, code ∈ CW_Code <$> EC_Warnings x -> exists r c,
     recorded_by s idR r /\ (forall q, recorded_by s idR q -> q = r) /\
     recorded_by s idC c /\ (forall q, recorded_by s idC q -> q = c) /\ differs code r c) /\
  (forall k', rtc control_step k k' -> exists y, CompareEvaluations pricing (platform_of k') idR idC limits = Ok y /\ same_evidence x y).
Proof.
  intros Hk Hx. split; [|split; [|intros k' H; by eapply compare_repeats]].
  - pose proof Hx as Hx'. unfold CompareEvaluations in Hx'. apply bind_Ok in Hx' as (r & Hr & Hx'). apply bind_Ok in Hx' as (c & Hc & Hx').
    apply bind_unit_iff in Hx' as [_ Hx']. apply bind_Ok in Hx' as ([[[d s] g] cost] & Hd & Hx'). apply bind_Ok in Hx' as ([sm ws] & _ & [= <-]).
    destruct (completedRun_finished _ _ _ Hk Hr) as (_ & Lr & Ir & _). destruct (completedRun_finished _ _ _ Hk Hc) as (_ & Lc & Ic & _).
    assert (Hst : forall id q, completedRun (platform_of k) id = Ok q -> status q = RunCompleted).
    { intros id q Hq. unfold completedRun in Hq. apply bind_Ok in Hq as (q' & _ & Hq). rewrite bind_unit_iff, fail_if_iff, negb_false_iff in Hq.
      by destruct Hq as [?%String.eqb_eq [= <-]]. }
    destruct (comparison_parts _ _ _ _ _ _ _ _ Hk Lr Lc Hd) as (logR & aR & cR & oR & logC & aC & cC & oC & d0 & H).
    exists logR, aR, cR, oR, logC, aC, cC, oC, d0. cbn. split; [done|]. split; [done|]. split; [by eapply Hst|]. split; [by eapply Hst|]. exact H.
  - destruct (control_scenarios _ Hk) as (_ & s & Hs & _). exists s. split; [done|]. intros code Hcode.
    unfold CompareEvaluations in Hx. apply bind_Ok in Hx as (r & _ & Hx). apply bind_Ok in Hx as (c & _ & Hx). apply bind_unit_iff in Hx as [_ Hx].
    apply bind_Ok in Hx as ([[[d sc] g] cost] & _ & Hx). apply bind_Ok in Hx as ([sm ws] & Hsm & [= <-]). cbn [EC_Warnings] in Hcode.
    unfold samenessOfRuns in Hsm. apply bind_Ok in Hsm as (out & Hout & Hsm). injection Hsm as Hsm.
    destruct (run_provenance _ _ (ReferenceRunIDs (two_runs idR idC) ++ CandidateRunIDs (two_runs idR idC)) Hs) as (out' & Hout' & Hspec).
    cbn [platform_of pf_scenarios] in Hout. rewrite Hout in Hout'. injection Hout' as <-. cbn [two_runs ReferenceRunIDs CandidateRunIDs app] in *.
    assert (Hws : ws = snd (sm, ws)) by done. rewrite Hws, <- Hsm in Hcode. destruct out as [m|].
    2: { apply warns_iff in Hcode. by apply none_never_differs in Hcode. }
    apply warns_iff in Hcode. exists (sideProvenanceOfRuns [idR] m), (sideProvenanceOfRuns [idC] m).
    destruct (side_provenance_cases [idR] m) as [[_ HR]|[E _]]; [|by rewrite E in Hcode; apply none_never_differs in Hcode].
    destruct (side_provenance_cases [idC] m) as [[_ HC]|[E _]]; [|by rewrite E in Hcode; apply none_never_differs in Hcode].
    rewrite !Forall_singleton in *. rewrite (Hspec m eq_refl) in HR, HC by set_solver. destruct HR, HC. done.
Qed.

(** C10: a promotion that commits is the promotion that deciding at that moment would make:
    whatever edits, ingestions, lifecycle changes, executions and other promotions come
    between its reads of the runs and environments, its comparison and its commit, the whole
    call made in the state it commits in has the same outcome; and the promotion reads back
    as it was decided. *)
Theorem promotion_linearizable k1 k2 k request at_ src tgt x p c' :
  control_reachable k1 -> rtc control_step k1 k2 -> rtc control_step k2 k -> Promotion.limits_range (PQ_GateLimits request) ->
  promote_scope (platform_of k1) request = Ok (src, tgt) ->
  promote_compare pricing (platform_of k2) request = Ok x ->
  promote_decide request at_ src tgt x = Ok p ->
  Store_CreatePromotion (pf_catalog (platform_of k)) p = Ok c' ->
  Promote pricing (platform_of k) request at_ = Ok (p, with_catalogue (platform_of k) c') /\
  Store_Promotion c' (pr_id p) = Ok p.
Proof.
  intros R1 S12 S2 Hl Hscope Hx Hp Hc'. assert (R2 : control_reachable k2) by (unfold control_reachable; by etransitivity).
  assert (Rk : control_reachable k) by (unfold control_reachable; by etransitivity).
  assert (S1 : rtc control_step k1 k) by by etransitivity.
  unfold promote_scope in Hscope. apply bind_unit_iff in Hscope as [Hq Hscope]. apply bind_Ok in Hscope as (cr & Hcr & Hscope).
  apply bind_Ok in Hscope as (rr & Hrr & Hscope). destruct (promotion_scope_parts _ _ _ _ _ _ Hscope) as (P1 & (a & P2 & P3) & P4 & (pr & P5 & P6 & P7) & P8).
  destruct (control_parts_rtc _ _ S1) as [_ He]. pose proof (edit_steps_kept _ _ He) as Hk. cbn [platform_of pf_catalog] in *.
  pose proof (ei_catalog _ (edit_reachable_ok _ (control_edits _ R1))) as Hc1. pose proof (ei_catalog _ (edit_reachable_ok _ (control_edits _ Rk))) as Hck.
  destruct (load_ok _ _ _ _ Hc1 P6) as (_ & Eok1 & K1). destruct (load_ok _ _ _ _ Hc1 P7) as (_ & Eok2 & K2).
  injection K1 as K11 K12. injection K2 as K21 K22.
  unfold promote_decide in Hp. destruct (NewPromotion_spec _ _ Hp) as (V & _ & _ & _ & _ & _ & _ & Ep). cbn [Source Target GateResult PD_ID] in *.
  destruct (create_promotion_spec _ _ _ Hck Hc') as (src' & tgt' & L1 & L2 & Es & Et & _ & Hn & _ & _ & _ & Ec).
  rewrite Ep in L1, L2, Es, Et. cbn [pr_projectID source target position_of Ref Revision] in L1, L2, Es, Et. rewrite K11, ?K12, ?K22 in *.
  pose proof (read_current _ _ _ _ _ _ (control_edits _ R1) He P6 L1 Es) as ->. pose proof (read_current _ _ _ _ _ _ (control_edits _ R1) He P7 L2 Et) as ->.
  destruct (compare_repeats _ _ _ _ _ _ R2 S2 Hx) as (y & Hy & (_ & _ & _ & _ & Eg & _)).
  destruct (completedRun_again _ _ _ _ R1 S1 Hcr) as [Ecr _]. destruct (completedRun_again _ _ _ _ R1 S1 Hrr) as [Err_ _]. split.
  - unfold Promote, promote_scope, promote_compare, promote_decide. rewrite Hq, Ecr, Err_. cbn [mbind res_bind platform_of pf_catalog].
    rewrite (promotion_scope_make _ _ _ _ src tgt a pr); try done.
    2: by apply (same_project_kept _ _ _ _ Hk). 2: by apply (kept_scope _ _ _ Hk). 2: by apply (kept_scope _ _ _ Hk). 2: by apply (kept_scope _ _ _ Hk).
    cbn [mbind res_bind]. rewrite Hy. cbn [mbind res_bind]. rewrite Eg, Hp. cbn [mbind res_bind]. by rewrite Hc'.
  - assert (Hg : gate_row_ok (EC_Gate x)).
    { unfold promote_compare, CompareEvaluations in Hx. apply bind_Ok in Hx as (r & Hr & Hx'). apply bind_Ok in Hx' as (c & Hc & Hx').
      apply bind_unit_iff in Hx' as [_ Hx']. apply bind_Ok in Hx' as ([[[d s] g] cost] & Hd & Hx'). apply bind_Ok in Hx' as ([sm ws] & _ & [= <-]).
      destruct (completedRun_finished _ _ _ R2 Hr) as (_ & Lr & _). destruct (completedRun_finished _ _ _ R2 Hc) as (_ & Lc & _).
      destruct (comparison_parts _ _ _ _ _ _ _ _ R2 Lr Lc Hd) as (logR & aR & cR & oR & logC & aC & cC & oC & d0 & O1 & A1 & O2 & A2 & Hd0 & Hw & Hs & Hg & _).
      destruct (accumulate_evidence _ _ _ _ _ O1 A1) as (E1 & _). destruct (accumulate_evidence _ _ _ _ _ O2 A2) as (E2 & _). cbn [EC_Gate].
      refine (evidence_gate_row_ok _ _ _ _ _ _ _ _ _ _ (evidence_reachable_ok _ _ _ E1) (evidence_reachable_ok _ _ _ E2) _ Hs Hl Hg).
      exists d0. split; [done|]. right. by eexists _, _. }
    pose proof (promotion_columns_restore _ _ Hp Eok1 Eok2 Hg) as Hrow. subst c'.
    assert (Hid : (pr_id p =s "")%go = false) by (rewrite Ep; cbn; by apply String.eqb_neq, validID_nonempty).
    unfold Store_Promotion, loadPromotion. rewrite Hid. cbn [fail_if mbind res_bind ct_promotions with_promotions]. by rewrite lookup_insert_eq.
Qed.

Lemma load_named_again p p' ns : catalog_kept (pf_catalog p) (pf_catalog p') ->
  (forall n r, n ∈ ns -> loadRun (pf_runs p) (snd n) = Ok r -> loadRun (pf_runs p') (snd n) = Ok r) ->
  forall acc out, foldM (load_named p) acc ns = Ok out -> foldM (load_named p') acc ns = Ok out.
Proof.
  intros Hk. induction ns as [|n ns IH]; intros Hl [runs profs] out H; [done|]. cbn in H |- *.
  apply bind_Ok in H as (acc & Hn & H). apply bind_Ok in Hn as (r & Hr & Hn). rewrite (Hl n r) by (done || left). cbn [mbind res_bind].
  apply bind_unit_iff in Hn as [-> Hn]. apply bind_unit_iff in Hn as [Hf [= <-]]. cbn [mbind res_bind].
  assert (Hf' : match runs with [] => Ok tt | first :: _ => fail_if (run_environment r <>s run_environment first) [ErrBehaviorEnvironmentMismatch];;
                                        requireSameProject (pf_catalog p') first r end = Ok tt).
  { destruct runs as [|first rest]; [done|]. apply bind_unit_iff in Hf as [-> Hf]. cbn [mbind res_bind]. by apply (same_project_kept (pf_catalog p)). }
  rewrite Hf'. cbn [mbind res_bind]. apply IH; [|done]. intros n' r' Hn'. apply Hl. by right.
Qed.

Lemma mapM_ext_elem {A B} (f g : A -> res B) l : (forall x, x ∈ l -> f x = g x) -> mapM f l = mapM g l.
Proof.
  induction l as [|x l IH]; intros H; [done|]. cbn. rewrite (H x) by left. destruct (g x); [|done]. cbn. rewrite IH; [done|].
  intros y Hy. apply H. by right.
Qed.

(** Asked again once every run has finished, the reduction is the same. *)
Lemma compare_inputs_again k k' request out : control_reachable k -> rtc control_step k k' ->
  (forall n r, n ∈ repetition_order request -> loadRun (pf_runs (platform_of k)) (snd n) = Ok r -> IsTerminal (status r) = true) ->
  compareRepeatedWithInputs pricing (platform_of k) request = Ok out -> compareRepeatedWithInputs pricing (platform_of k') request = Ok out.
Proof.
  intros Hk Hkk Ht Hc. unfold compareRepeatedWithInputs in Hc |- *. apply bind_unit_iff in Hc as [-> Hc]. apply bind_Ok in Hc as ([runs profs] & Hload & Hc).
  assert (Hld : runs_loaded (platform_of k) ([] ++ repetition_order request) runs).
  { eapply load_named_all; [|..|exact Hload]; [|set_solver]. split; [constructor|constructor|]. intros r r' Hr. by apply elem_of_nil in Hr. }
  destruct Hld as [L1 _ _]. cbn [app] in L1.
  assert (Hz : forall n r, n ∈ repetition_order request -> loadRun (pf_runs (platform_of k)) (snd n) = Ok r ->
    run_id r = snd n /\ frozen (run_id r) (cc_ingest k) (cc_ingest k')).
  { intros n r Hn Hl. destruct (reachable_config RecordDigest digest_shape _ _ (control_ingest _ Hk)) as [logs [Ho _]].
    destruct (sys_ok_run _ _ _ _ _ Ho Hl) as (_ & Hid & _). split; [done|]. apply (control_frozen _ _ _ Hk Hkk). exists r. rewrite Hid.
    split; [done|by eapply Ht]. }
  cbn [mbind res_bind].
  rewrite (load_named_again (platform_of k) (platform_of k') _ (control_kept _ _ Hkk)) with (out := (runs, profs)); [|..|exact Hload].
  2: { intros n r Hn Hl. destruct (Hz n r Hn Hl) as [Hid Hf]. rewrite <- Hid in *. unfold pf_runs in *. cbn [platform_of pf_ingest] in *.
    by rewrite (frozen_load _ _ _ Hf). }
  cbn [mbind res_bind]. rewrite (mapM_ext_elem _ (fun nr => repetition_input (platform_of k) (fst nr) (snd nr))); [done|].
  intros [n r] Hnr. unfold repetition_input. cbn [fst snd]. apply list_elem_of_lookup in Hnr as [j Hj]. apply lookup_zip_Some in Hj as [Hn Hr].
  pose proof (Forall2_lookup_lr _ _ _ _ _ _ L1 Hn Hr) as Hl. destruct (Hz n r ltac:(by eapply list_elem_of_lookup_2) Hl) as [_ Hf].
  by rewrite (proj1 (evidence_again (platform_of k) (platform_of k') r Hf)).
Qed.

(** What a repeated comparison reduces. *)
Record repeated_of (p : platform) (request : RepeatedEvaluationRequest) (c : RepeatedEvaluationComparison) (inputs : list repetitionInput)
    (runs : list EvaluationRun) (r0 : RepeatedEvaluationComparison) : Prop := {
  po_loaded : Forall2 (fun n r => loadRun (pf_runs p) (snd n) = Ok r) (repetition_order request) runs;
  po_profiles : NoDup (run_profile <$> runs);
  po_environment : forall r r', r ∈ runs -> r' ∈ runs -> run_environment r = run_environment r';
  po_inputs : Forall2 (fun nr i => input_of (fst nr) (snd nr) i) (zip (repetition_order request) runs) inputs;
  po_ok : Forall input_ok inputs;
  po_runs : 1 <= Runs request <= MaxRepetitions /\ Z.of_nat (length inputs) <= max_u64;
  po_reduced : reduceRepeated (Limits request) (Runs request) inputs = Ok r0;
  po_cost : exists cost, compareCost pricing (on_reference (runs_by inputs)) (on_candidate (runs_by inputs)) = Ok cost /\ c = with_cost r0 cost;
}.
Lemma compared_inputs k request c inputs : control_reachable k -> compareRepeatedWithInputs pricing (platform_of k) request = Ok (c, inputs) ->
  exists runs r0, repeated_of (platform_of k) request c inputs runs r0.
Proof.
  intros Hk Hc. unfold compareRepeatedWithInputs in Hc. apply bind_unit_iff in Hc as [Hv Hc]. apply bind_Ok in Hc as ([runs profs] & Hload & Hc).
  apply bind_Ok in Hc as (inputs' & Hin & Hc). apply bind_Ok in Hc as (r0 & Hr0 & Hc). apply bind_Ok in Hc as (cost & Hcost & [= Ec Ei]). subst c inputs'.
  assert (Hld : runs_loaded (platform_of k) ([] ++ repetition_order request) runs).
  { eapply load_named_all; [|..|exact Hload]; [|set_solver]. split; [constructor|constructor|]. intros r r' Hr. by apply elem_of_nil in Hr. }
  destruct Hld as [L1 L2 L3]. cbn [app] in L1. exists runs, r0.
  assert (Hins : Forall2 (fun nr i => input_of (fst nr) (snd nr) i) (zip (repetition_order request) runs) inputs).
  { apply mapM_res_Forall2 in Hin. apply Forall2_same_length_lookup. split; [by eapply Forall2_length|]. intros j [n r] i Hj Hi.
    pose proof (Forall2_lookup_lr _ _ _ _ _ _ Hin Hj Hi) as Hx. apply lookup_zip_Some in Hj as [Hn Hr].
    exact (repetition_input_Ok _ _ _ _ Hk (Forall2_lookup_lr _ _ _ _ _ _ L1 Hn Hr) Hx). }
  assert (Hok : Forall input_ok inputs).
  { apply Forall_lookup. intros j i Hi. destruct (Forall2_lookup_r _ _ _ _ _ Hins Hi) as ([n r] & Hj & Hx). apply lookup_zip_Some in Hj as [Hn _].
    apply (input_of_ok _ _ _ Hx), (order_sides request). by eapply list_elem_of_lookup_2. }
  assert (Hruns : 1 <= Runs request <= MaxRepetitions /\ Z.of_nat (length inputs) <= max_u64).
  { pose proof (Forall2_length _ _ _ Hins) as E. rewrite length_zip, <- (Forall2_length _ _ _ L1), Nat.min_id in E. rewrite <- E.
    unfold repetition_order, Runs. rewrite length_app, !length_imap. unfold RepeatedEvaluationRequest_Validate, Runs in Hv.
    apply bind_unit_iff in Hv as [H1 Hv]. apply bind_unit_iff in Hv as [H2 _]. apply fail_if_iff in H1, H2. bool_prop.
    unfold MaxRepetitions in *. ulia. }
  split; try done. by exists cost.
Qed.

(** C11: in every reachable state, a repeated comparison that answers is the reduction of its
    runs' histories: the runs named are distinct in profile and share an environment; each
    completed one enters with exactly what its log of accepted requests makes, and each other
    with no evidence at all; the verdict passes exactly when the repetitions meet every
    limit; and once every run has finished, asking again answers the same in every part but
    the sameness and its warnings, whatever happens in between; those two are of the scenario
    executions recorded by that time. *)
Theorem repeated_of_histories k request x : control_reachable k -> limits_ok (Limits request) ->
  CompareRepeatedEvaluations pricing (platform_of k) request = Ok x ->
  exists runs inputs r0,
    Forall2 (fun n r => loadRun (pf_runs (platform_of k)) (snd n) = Ok r) (repetition_order request) runs /\
    NoDup (run_profile <$> runs) /\ (forall r r', r ∈ runs -> r' ∈ runs -> run_environment r = run_environment r') /\
    Forall2 (fun nr i => input_of (fst nr) (snd nr) i) (zip (repetition_order request) runs) inputs /\
    reduceRepeated (Limits request) (Runs request) inputs = Ok r0 /\
    (RX_Behaviors x, RX_Gate x, RX_Targets x, Suggestions x) = (RX_Behaviors r0, RX_Gate r0, RX_Targets r0, Suggestions r0) /\
    compareCost pricing (on_reference (runs_by inputs)) (on_candidate (runs_by inputs)) = Ok (RX_Cost x) /\
    (rg_verdict (RX_Gate x) = GateVerdictPass <-> repetitions_pass (Limits request) (Runs request) inputs (RX_Behaviors x)) /\
    (forall k', Forall (fun r => IsTerminal (status r) = true) runs -> rtc control_step k k' -> exists y,
       CompareRepeatedEvaluations pricing (platform_of k') request = Ok y /\
       with_sameness y (no_sameness, []) = with_sameness x (no_sameness, [])).
Proof.
  intros Hk Hlim H. unfold CompareRepeatedEvaluations, compareRepeated in H. apply bind_Ok in H as (c & Hc & H).
  apply bind_Ok in H as (sm & Hsm & [= <-]). apply bind_Ok in Hc as ([c' inputs] & Hc & [= ->]).
  destruct (compared_inputs _ _ _ _ Hk Hc) as (runs & r0 & [L1 L2 L3 Hins Hok Hruns Hr0 (cost & Hcost & ->)]). exists runs, inputs, r0.
  split; [done|]. split; [done|]. split; [done|]. split; [done|]. split; [done|]. split; [done|]. split; [done|]. split.
  - destruct (reduceRepeated_inv _ _ _ _ Hr0 ltac:(lia) Hok) as (d & c0 & Hd & Hc0 & ->).
    destruct (with_suggestions_fields c0) as (E1 & E2 & _). cbn [with_sameness with_cost RX_Gate RX_Behaviors]. rewrite E1, E2.
    by apply (reduced_Ok (Limits request) (Runs request) inputs d (proj1 Hruns) (proj2 Hruns) Hok Hlim Hd).
  - intros k' Ht Hkk. assert (Hk' : control_reachable k') by (unfold control_reachable; by etransitivity).
    destruct (control_scenarios _ Hk') as (_ & sc & Hsc & _).
    destruct (run_provenance _ _ (ReferenceRunIDs request ++ CandidateRunIDs request)%list Hsc) as (out & Hout & _).
    assert (Hterm : forall n r, n ∈ repetition_order request -> loadRun (pf_runs (platform_of k)) (snd n) = Ok r -> IsTerminal (status r) = true).
    { intros n r Hn Hl. apply list_elem_of_lookup in Hn as [j Hj]. destruct (Forall2_lookup_l _ _ _ _ _ L1 Hj) as (r' & Hr' & Hl').
      rewrite Hl in Hl'. injection Hl' as <-. rewrite Forall_lookup in Ht. exact (Ht _ _ Hr'). }
    unfold CompareRepeatedEvaluations, compareRepeated. rewrite (compare_inputs_again k k' request _ Hk Hkk Hterm Hc).
    cbn [mbind res_bind].
    unfold samenessOfRuns. cbn [platform_of pf_scenarios]. rewrite Hout. cbn [mbind res_bind]. by eexists.
Qed.
End system.

(** ** Witnesses *)
(** Two runs of one agent's candidates, each fed one record and completed; the second is
    given another profile. *)
Definition at_second (n : Z) : time := Time (unix_epoch + n * 1000000000) 0.
Definition history_run (id candidate profile : string) : EvaluationRun :=
  {| run_id := id; run_candidateID := candidate; run_environment := "prod"; run_profile := profile; status := RunPending;
     createdAt := at_second 1; startedAt := zero_time; finishedAt := zero_time; failureReason := "" |}.
Definition history_request (id profile : string) : IngestRequest :=
  {| IR_RunID := id; IR_Sequence := 1; IR_BehavioralProfile := profile; IR_Fidelity := F_Fidelity example_facts;
     IR_BehaviorLayer := F_Layer example_facts; IR_Operational := example_facts; ReceivedAt := at_second 3;
     IR_Record := example_record "1500" "ok" |}.
Definition history_calls (id candidate profile : string) : list call :=
  [call_create (history_run id candidate profile); call_change id (change_start (at_second 2));
   call_ingest (history_request id profile); call_change id (change_complete (at_second 4))].
Definition placed_config : control_config :=
  {| cc_ingest := Ingest.empty_system; cc_flights := []; cc_edits := placed_system; cc_scenarios := no_scenarios; cc_calls := 0 |}.
Definition compared_calls : list call := (history_calls "r1" "c" "p1" ++ history_calls "r2" "c2" "p2")%list.
Definition compared_config : res control_config := foldM (run_call Ingest.example_digest) placed_config compared_calls.
Lemma compared_calls_ok : Forall call_ok compared_calls.
Proof.
  unfold compared_calls, history_calls. cbn [app]. rewrite !Forall_cons, Forall_nil.
  split_and!; try done; cbn [call_ok]; try (by repeat split);
    [apply (reach_new "r1" "c" "prod" "p1" (at_second 1))|apply (reach_new "r2" "c2" "prod" "p2" (at_second 1))]; by vm_compute.
Qed.
Lemma compared_reachable : exists k, compared_config = Ok k /\
  @control_reachable Ingest.example_digest example_json k.
Proof.
  assert (Hv : is_ok compared_config = true) by by vm_compute.
  destruct compared_config as [k|] eqn:E; [|done]. exists k. split; [done|].
  refine (proj1 (run_calls_reachable Ingest.example_digest Ingest.example_digest_shape compared_calls placed_config k _ eq_refl compared_calls_ok E)).
  exact (edits_reachable Ingest.example_digest placed_system placed_reachable).
Qed.
Definition on_compared {A} (f : control_config -> res A) : res A := k ← compared_config; f k.
Definition example_comparison (k : control_config) : res EvaluationComparison :=
  @CompareEvaluations key_order example_pricing (platform_of k) "r1" "r2" Gate.example_limits.
Definition example_repeated_request : RepeatedEvaluationRequest :=
  {| ReferenceRunIDs := ["r1"]; CandidateRunIDs := ["r2"]; Limits := Repeated.example_limits |}.
Definition example_repeated (k : control_config) : res RepeatedEvaluationComparison :=
  @CompareRepeatedEvaluations key_order ascii_only example_pricing (platform_of k) example_repeated_request.
Definition example_promotion : PromotionRequest :=
  {| PQ_ID := "promo"; PQ_ReferenceRunID := "r1"; PQ_CandidateRunID := "r2"; PQ_TargetEnvironment := "global"; PQ_GateLimits := Gate.example_limits |}.
Lemma on_compared_Ok {A} (f : control_config -> res A) : is_ok (on_compared f) = true ->
  exists k a, compared_config = Ok k /\ @control_reachable Ingest.example_digest example_json k /\ f k = Ok a.
Proof.
  destruct compared_reachable as (k & E & Hk). unfold on_compared. rewrite E. cbn [mbind res_bind].
  destruct (f k) as [a|] eqn:Ef; [|discriminate]. intros _. exists k, a. exact (conj eq_refl (conj Hk Ef)).
Qed.

Lemma comparison_of_histories_witness : exists k x, compared_config = Ok k /\ example_comparison k = Ok x /\
  status (EC_Reference x) = RunCompleted /\ run_id (EC_Candidate x) = "r2".
Proof.
  destruct (on_compared_Ok example_comparison) as (k & x & E & Hk & Hx); [vm_compute; reflexivity|].
  destruct (@comparison_of_histories Ingest.example_digest Ingest.example_digest_shape example_json key_order example_pricing
    k "r1" "r2" Gate.example_limits x Hk Hx) as [(logR & aR & cR & oR & logC & aC & cC & oC & d0 & _ & H2 & H3 & _) _].
  exists k, x. exact (conj E (conj Hx (conj H3 H2))).
Defined.

Lemma promotion_linearizable_witness : exists k p c', compared_config = Ok k /\
  @Promote key_order example_pricing (platform_of k) example_promotion (at_second 5) = Ok (p, with_catalogue (platform_of k) c').
Proof.
  set (f := fun k => '(s, t) ← promote_scope (platform_of k) example_promotion; x ← example_comparison k;
    p ← promote_decide example_promotion (at_second 5) s t x; c' ← Store_CreatePromotion (pf_catalog (platform_of k)) p; Ok (s, t, x, p, c')).
  destruct (on_compared_Ok f) as (k & a & E & Hk & Hf); [vm_compute; reflexivity|]. unfold f in Hf.
  apply bind_Ok in Hf as ([src tgt] & Hs & Hf). apply bind_Ok in Hf as (x & Hx & Hf). apply bind_Ok in Hf as (p & Hp & Hf).
  apply bind_Ok in Hf as (c' & Hc & _). exists k, p, c'. split; [exact E|].
  assert (Hl : Promotion.limits_range (PQ_GateLimits example_promotion)) by (unfold Promotion.limits_range; cbn; ulia).
  apply (@promotion_linearizable Ingest.example_digest Ingest.example_digest_shape example_json key_order example_pricing
    k k k example_promotion (at_second 5) src tgt x p c' Hk (reflexivity _) (reflexivity _) Hl Hs Hx Hp Hc).
Defined.

Lemma repeated_of_histories_witness : exists k x runs inputs, compared_config = Ok k /\ example_repeated k = Ok x /\
  length runs = 2%nat /\ NoDup (run_profile <$> runs) /\
  (rg_verdict (RX_Gate x) = GateVerdictPass <-> repetitions_pass Repeated.example_limits 1 inputs (RX_Behaviors x)).
Proof.
  destruct (on_compared_Ok example_repeated) as (k & x & E & Hk & Hx); [vm_compute; reflexivity|].
  destruct (@repeated_of_histories Ingest.example_digest Ingest.example_digest_shape example_json key_order ascii_only example_pricing
    k example_repeated_request x Hk Repeated.example_limits_ok Hx) as (runs & inputs & r0 & H1 & H2 & _ & _ & _ & _ & _ & H3 & _).
  exists k, x, runs, inputs. split; [exact E|]. split; [exact Hx|]. split; [|split; [exact H2|exact H3]].
  symmetry. exact (Forall2_length _ _ _ H1).
Defined.
