(* ===== verification/Status.v ===== *)
(** * Package platform: the pipeline's status (status.go, status_rules.go)

    What each Collector last reported, held in memory and bounded; the document read back
    from it, with every age resolved on the control plane's clock; and the table of rules
    that turn the document's own facts into suggestions. *)
From Stdlib Require Import Ascii.
From S2P Require Import Prelude GoText GoTime Suggestions Domain Recency.

Open Scope string_scope.
Open Scope Z_scope.

Definition MaxStatusCollectors : nat := 16.
Definition MaxStatusProducers : Z := 64.
Definition MaxStatusScopes : Z := 16.
Definition MaxStatusReceiverEndpoints : Z := 4.
Definition MaxStatusModels : Z := 64.
Definition MaxStatusTransportTargets : Z := 64.
Definition MaxStatusOperationsPerTarget : Z := 32.
Definition second : Z := 1000000000.
Definition StatusFreshWindow : Z := 30 * second.
Definition StatusExpiry : Z := 5 * 60 * second.

(** ** Reports *)
Record ActorBinding : Type := { BoundByOverride : Z; BoundByServiceName : Z; Unbound : Z }.
Record DecisionTally : Type := { DT_Decision : string; DT_Count : Z }.
Record LearningOutcomes : Type := { Learned : Z; NotLearned : Z; ObserveErrors : Z; NotLearnedByDecision : list DecisionTally }.
Record ModelCalls : Type := { MC_Provider : string; MC_Model : string; MC_Calls : Z }.
Record FidelityCounts : Type := { FC_Semantic : Z; FC_Transport : Z }.
Record TransportTargetStatus : Type := { TT_Target : string; TT_Spans : Z; DistinctOperations : Z; OperationsSaturated : bool }.
Record CollectorSpanCounts : Type := { SC_Received : Z; SC_Evaluated : Z; SC_Invalid : Z; SC_AnalyzeErrors : Z }.
Record InstrumentationScope : Type := { IS_Name : string; IS_Version : string }.
Record TelemetrySDK : Type := { SDK_Name : string; SDK_Language : string; SDK_Version : string }.
Record ProducerStatus : Type := {
  ServiceName : string; PS_Spans : Z; LastSeenAge : Z; Scopes : list InstrumentationScope; ScopesTruncated : bool; SDK : TelemetrySDK }.

Record CollectorStatusReport : Type := {
  CollectorID : string;
  Instance_ : string;
  CS_Sequence : Z;
  Uptime : Z;
  ReceiverEndpoints : list string;
  CS_EvaluationRunID : string;
  CS_Spans : CollectorSpanCounts;
  Producers : list ProducerStatus;
  ProducersTruncated : bool;
  ModelsReported : bool;
  CS_Models : list ModelCalls;
  ModelsTruncated : bool;
  FidelityReported : bool;
  CS_Fidelity : FidelityCounts;
  TransportTargetsReported : bool;
  TransportTargets : list TransportTargetStatus;
  TransportTargetsTruncated : bool;
  ActorsReported : bool;
  Actors : ActorBinding;
  LearningReported : bool;
  Learning : LearningOutcomes;
}.

#[export] Instance ActorBinding_eq_dec : EqDecision ActorBinding.
Proof. solve_decision. Defined.
#[export] Instance DecisionTally_eq_dec : EqDecision DecisionTally.
Proof. solve_decision. Defined.
#[export] Instance ModelCalls_eq_dec : EqDecision ModelCalls.
Proof. solve_decision. Defined.
#[export] Instance FidelityCounts_eq_dec : EqDecision FidelityCounts.
Proof. solve_decision. Defined.
#[export] Instance TransportTargetStatus_eq_dec : EqDecision TransportTargetStatus.
Proof. solve_decision. Defined.
#[export] Instance CollectorSpanCounts_eq_dec : EqDecision CollectorSpanCounts.
Proof. solve_decision. Defined.
#[export] Instance InstrumentationScope_eq_dec : EqDecision InstrumentationScope.
Proof. solve_decision. Defined.
#[export] Instance TelemetrySDK_eq_dec : EqDecision TelemetrySDK.
Proof. solve_decision. Defined.

#[export] Instance LearningOutcomes_eq_dec : EqDecision LearningOutcomes.
Proof. solve_decision. Defined.
#[export] Instance ProducerStatus_eq_dec : EqDecision ProducerStatus.
Proof. solve_decision. Defined.
#[export] Instance CollectorStatusReport_eq_dec : EqDecision CollectorStatusReport.
Proof. solve_decision. Defined.

(** ** Validation: every failure wraps ErrInvalidStatusReport and no other sentinel *)
Definition invalid : error := [ErrInvalidStatusReport].
Definition as_invalid (m : res unit) : res unit := map_err (fun _ => invalid) m.
Definition validateOptionalText (value : string) : res unit :=
  if value =s "" then Ok tt else validateText ErrInvalidStatusReport value.

(** A loop that refuses a key it has seen, then runs its body. *)
Definition distinct_step {A K} `{Countable K} (key : A -> K) (body : A -> res unit) (seen : gset K) (a : A) : res (gset K) :=
  fail_if (bool_decide (key a ∈ seen)) invalid;;
  body a;;
  Ok ({[key a]} ∪ seen).
Definition validate_producer (p : ProducerStatus) : res unit :=
  (if ServiceName p <>s "" then validateText ErrInvalidStatusReport (ServiceName p) else Ok tt);;
  fail_if (LastSeenAge p <? 0) invalid;;
  fail_if (MaxStatusScopes <? Z.of_nat (length (Scopes p))) invalid;;
  foldM (fun _ s => validateOptionalText (IS_Name s);; validateOptionalText (IS_Version s)) tt (Scopes p);;
  foldM (fun _ value => validateOptionalText value) tt [SDK_Name (SDK p); SDK_Language (SDK p); SDK_Version (SDK p)].
Definition validate_model (m : ModelCalls) : res unit :=
  validateText ErrInvalidStatusReport (MC_Model m);;
  fail_if (MC_Model m =s "") invalid;;
  validateOptionalText (MC_Provider m).
Definition validate_target (t : TransportTargetStatus) : res unit :=
  validateOptionalText (TT_Target t);;
  fail_if (MaxStatusOperationsPerTarget <? DistinctOperations t) invalid;;
  fail_if (TT_Spans t <? DistinctOperations t) invalid.

Definition knownDecisions : list string := ["allow"; "observe_only"; "alert"; "challenge"; "require_approval"; "block"].
Definition tally_step (acc : Z * gset string) (tally : DecisionTally) : res (Z * gset string) :=
  let '(notLearned, decisions) := acc in
  fail_if (negb (bool_decide (DT_Decision tally ∈ knownDecisions))) invalid;;
  fail_if (bool_decide (DT_Decision tally ∈ decisions)) invalid;;
  fail_if (u64 (notLearned + DT_Count tally) <? notLearned) invalid;;
  Ok (u64 (notLearned + DT_Count tally), {[DT_Decision tally]} ∪ decisions).

Definition validate_learning (l : LearningOutcomes) : res unit :=
  fail_if (Z.of_nat (length knownDecisions) <? Z.of_nat (length (NotLearnedByDecision l))) invalid;;
  '(notLearned, _) ← foldM tally_step (0, ∅) (NotLearnedByDecision l);
  fail_if (negb (notLearned =? NotLearned l)) invalid.

Definition CollectorStatusReport_validate (r : CollectorStatusReport) : res unit :=
  as_invalid (validateID (CollectorID r));;
  fail_if (negb (len (Instance_ r) =? 16) || negb (forall_bytes is_hex_digit (Instance_ r))) invalid;;
  fail_if (CS_Sequence r =? 0) invalid;;
  fail_if (Uptime r <? 0) invalid;;
  fail_if (MaxStatusReceiverEndpoints <? Z.of_nat (length (ReceiverEndpoints r))) invalid;;
  foldM (fun _ endpoint => as_invalid (validateID endpoint)) tt (ReceiverEndpoints r);;
  (if CS_EvaluationRunID r <>s "" then as_invalid (validateID (CS_EvaluationRunID r)) else Ok tt);;
  fail_if ((SC_Received (CS_Spans r) <? SC_Evaluated (CS_Spans r)) || (SC_Received (CS_Spans r) <? SC_Invalid (CS_Spans r))
           || (SC_Received (CS_Spans r) <? SC_AnalyzeErrors (CS_Spans r))) invalid;;
  fail_if (MaxStatusProducers <? Z.of_nat (length (Producers r))) invalid;;
  foldM (distinct_step ServiceName validate_producer) ∅ (Producers r);;
  fail_if (MaxStatusModels <? Z.of_nat (length (CS_Models r))) invalid;;
  foldM (distinct_step (fun m => (MC_Provider m, MC_Model m)) validate_model) ∅ (CS_Models r);;
  fail_if (MaxStatusTransportTargets <? Z.of_nat (length (TransportTargets r))) invalid;;
  foldM (distinct_step TT_Target validate_target) ∅ (TransportTargets r);;
  validate_learning (Learning r).

(** ** What the control plane holds *)
Definition StatusReportDisposition : Type := string.
Definition StatusReportAccepted : StatusReportDisposition := "accepted".
Definition StatusReportIgnored : StatusReportDisposition := "ignored".
Record heldStatus : Type := { report : CollectorStatusReport; receivedAt : time }.
Definition statusRegistry : Type := gmap string heldStatus.
Definition newStatusRegistry : statusRegistry := ∅.

(** slices.EqualFunc. *)
Fixpoint EqualFunc {A} (eq : A -> A -> bool) (l1 l2 : list A) : bool :=
  match l1, l2 with
  | [], [] => true
  | a :: l1, b :: l2 => eq a b && EqualFunc eq l1 l2
  | _, _ => false
  end.
Definition bool_neqb (a b : bool) : bool := negb (Bool.eqb a b).
(** Everything a report states except when it was built: not its sequence, its uptime or its
    producers' ages. *)
Definition sameFacts (a b : CollectorStatusReport) : bool :=
  if (CollectorID a <>s CollectorID b) || (Instance_ a <>s Instance_ b) || (CS_EvaluationRunID a <>s CS_EvaluationRunID b) ||
     negb (bool_decide (CS_Spans a = CS_Spans b)) || bool_neqb (ProducersTruncated a) (ProducersTruncated b) ||
     bool_neqb (ModelsReported a) (ModelsReported b) || bool_neqb (ModelsTruncated a) (ModelsTruncated b) ||
     bool_neqb (FidelityReported a) (FidelityReported b) || negb (bool_decide (CS_Fidelity a = CS_Fidelity b)) ||
     bool_neqb (TransportTargetsReported a) (TransportTargetsReported b) ||
     bool_neqb (TransportTargetsTruncated a) (TransportTargetsTruncated b) ||
     bool_neqb (ActorsReported a) (ActorsReported b) || negb (bool_decide (Actors a = Actors b)) ||
     bool_neqb (LearningReported a) (LearningReported b) ||
     negb (Learned (Learning a) =? Learned (Learning b)) || negb (NotLearned (Learning a) =? NotLearned (Learning b)) ||
     negb (ObserveErrors (Learning a) =? ObserveErrors (Learning b))
  then false
  else if negb (bool_decide (ReceiverEndpoints a = ReceiverEndpoints b)) || negb (bool_decide (CS_Models a = CS_Models b)) ||
          negb (bool_decide (TransportTargets a = TransportTargets b)) ||
          negb (bool_decide (NotLearnedByDecision (Learning a) = NotLearnedByDecision (Learning b)))
  then false
  else EqualFunc (fun p q => (ServiceName p =s ServiceName q) && (PS_Spans p =? PS_Spans q) &&
                             Bool.eqb (ScopesTruncated p) (ScopesTruncated q) && bool_decide (SDK p = SDK q) &&
                             bool_decide (Scopes p = Scopes q)) (Producers a) (Producers b).

Definition expired (now : time) (held : heldStatus) : bool := StatusExpiry <? time_sub now (receivedAt held).
(** Expired collectors are forgotten first, also when the report is then refused. *)
Definition forget (now : time) (s : statusRegistry) : statusRegistry := filter (fun kv => expired now kv.2 = false) s.
Definition statusRegistry_record (s : statusRegistry) (r : CollectorStatusReport) (at_ : time)
    : statusRegistry * res (StatusReportDisposition * bool) :=
  let s := forget at_ s in
  let known := s !! CollectorID r in
  if match known with
     | Some held => (Instance_ (report held) =s Instance_ r) && (CS_Sequence r <=? CS_Sequence (report held))
     | None => false
     end then (s, Ok (StatusReportIgnored, false))
  else if match known with None => (MaxStatusCollectors <=? size s)%nat | Some _ => false end
  then (s, Err [ErrStatusCollectorLimit])
  else
    let changed := match known with None => true | Some held => negb (sameFacts (report held) r) end in
    (<[CollectorID r := {| report := r; receivedAt := at_ |}]> s, Ok (StatusReportAccepted, changed)).

(** Map keys are unique, so their sorted order is the only one. *)
Definition snapshot (s : statusRegistry) (now : time) : list heldStatus :=
  List.filter (fun held => negb (expired now held)) (snd <$> sort_by fst (map_to_list s)).

(** [ReportCollectorStatus]: the answer, and the collector of the event that is published. *)
Definition ReportCollectorStatus (s : statusRegistry) (r : CollectorStatusReport) (at_ : time)
    : statusRegistry * res (StatusReportDisposition * option string) :=
  match CollectorStatusReport_validate r with
  | Err e => (s, Err e)
  | Ok _ =>
      let '(s, answer) := statusRegistry_record s r at_ in
      (s, dc ← answer; Ok (fst dc, if snd dc : bool then Some (CollectorID r) else None))
  end.

(** ** The document *)
Definition CollectorState : Type := string.
Definition CollectorReporting : CollectorState := "reporting".
Definition CollectorStale : CollectorState := "stale".
Record CollectorStatus : Type := {
  Report : CollectorStatusReport; State : CollectorState; LastReportAt : time; StartedAt : time; ProducerLastSeen : list time }.
Definition Landing : Type := string.
Definition LandingLive : Landing := "live".
Definition LandingStatus : Landing := "status".
Definition EngineState : Type := string.
Definition EngineUnavailable : EngineState := "unavailable".
Record PipelineStatus : Type := {
  ReadAt : time; Collectors : list CollectorStatus; Engine : EngineState; LastIngestAt : time; Landing_ : Landing;
  PS_Suggestions : list Suggestion; PS_SuggestionsTruncated : bool }.

Definition fresh (now at_ : time) : bool := time_sub now at_ <=? StatusFreshWindow.
Definition ingestFresh (now lastIngest : time) : bool := negb (time_is_zero lastIngest) && fresh now lastIngest.
Definition landingFor (now lastIngest : time) (collectors : list CollectorStatus) : Landing :=
  if ingestFresh now lastIngest then LandingLive
  else if existsb (fun c => (State c =s CollectorReporting) && existsb (fresh now) (ProducerLastSeen c)) collectors then LandingLive
  else LandingStatus.
Definition lastIngestAt (nanos : Z) : time := if nanos =? 0 then zero_time else Time (unix_epoch + nanos) 0.

Definition collector_status (now : time) (held : heldStatus) : CollectorStatus :=
  {| Report := report held;
     State := if fresh now (receivedAt held) then CollectorReporting else CollectorStale;
     LastReportAt := receivedAt held;
     StartedAt := time_add (receivedAt held) (- Uptime (report held));
     ProducerLastSeen := (fun p => time_add (receivedAt held) (- LastSeenAge p)) <$> Producers (report held) |}.

(** ** The rules *)
Definition MaxStatusSuggestions : nat := 64.
Definition CollapsedOperationsThreshold : Z := 3.
Definition freshSeconds : string := format_int (Z.quot StatusFreshWindow second).
Definition seconds_text (d : Z) : string := format_int (Z.quot d second).

Definition ruleNoCollector (status : PipelineStatus) : list Suggestion :=
  if existsb (fun c => State c =s CollectorReporting) (Collectors status) then []
  else
    let evidence := [("collectors_reporting", "0"); ("fresh_window_seconds", freshSeconds)] in
    if ingestFresh (ReadAt status) (LastIngestAt status) then
      let age := seconds_text (time_sub (ReadAt status) (LastIngestAt status)) in
      [suggest (evidence ++ [("last_ingest_age_seconds", age)])%list
         ["No Collector has reported status in "; freshSeconds; " s, but records arrived "; age; " s ago. ";
          "The Collector feeding them has no status: block; add one to see pipeline facts here."]]
    else
      [suggest evidence ["No Collector has reported in "; freshSeconds; " s. Is 'trustvian dev' running, and is ";
                         "trustvian-collector on its path?"]].

(** The loop returns at the first producer seen within the window. *)
Fixpoint first_silent (now : time) (collectors : list CollectorStatus) (first : option CollectorStatus)
    : option (option CollectorStatus) :=
  match collectors with
  | [] => Some first
  | c :: collectors =>
      if State c <>s CollectorReporting then first_silent now collectors first
      else if existsb (fresh now) (ProducerLastSeen c) then None
      else first_silent now collectors
             (match first with
              | None => if StatusFreshWindow <=? time_sub now (StartedAt c) then Some c else None
              | Some _ => first
              end)
  end.
Definition ruleNoProducer (status : PipelineStatus) : list Suggestion :=
  match first_silent (ReadAt status) (Collectors status) None with
  | None | Some None => []
  | Some (Some first) =>
      let id := CollectorID (Report first) in
      let evidence := [("collector_id", id); ("collector_uptime_seconds", seconds_text (time_sub (ReadAt status) (StartedAt first)));
                       ("producers_seen_within_window", "0"); ("fresh_window_seconds", freshSeconds)] in
      match ReceiverEndpoints (Report first) with
      | [] => [suggest evidence ["No producer has sent spans to Collector "; id; " in "; freshSeconds; " s. Check that the ";
                                 "producer's OTEL_EXPORTER_OTLP_ENDPOINT points at this Collector's OTLP receiver."]]
      | endpoint :: _ =>
          [suggest (evidence ++ [("receiver_endpoint", endpoint)])%list
             ["No producer has sent spans to Collector "; id; " in "; freshSeconds; " s. Check that the ";
              "producer's OTEL_EXPORTER_OTLP_ENDPOINT points at "; endpoint; "."]]
      end
  end.

Definition ruleSpansWithoutServiceName (status : PipelineStatus) : list Suggestion :=
  flat_map (fun c =>
    if negb (ActorsReported (Report c)) || (Unbound (Actors (Report c)) =? 0) then []
    else
      let unbound := format_uint 10 (Unbound (Actors (Report c))) in
      [suggest [("collector_id", CollectorID (Report c)); ("unbound", unbound)]
         [unbound; " spans reached Collector "; CollectorID (Report c); " with no service.name and no ";
          "trustvian.actor.id, and were not evaluated. Set the service.name resource attribute "; "(OTEL_SERVICE_NAME)."]])
    (Collectors status).

Definition ruleCollapsedHTTPOperations (status : PipelineStatus) : list Suggestion :=
  flat_map (fun c =>
    if negb (TransportTargetsReported (Report c)) then []
    else flat_map (fun t =>
      if (TT_Target t =s "") || (DistinctOperations t <? CollapsedOperationsThreshold) then []
      else
        let distinct := format_uint 10 (DistinctOperations t) in
        let distinct := if OperationsSaturated t then String.append "at least " distinct else distinct in
        [suggest [("collector_id", CollectorID (Report c)); ("target", TT_Target t); ("distinct_operations", distinct);
                  ("threshold", format_int CollapsedOperationsThreshold)]
           [distinct; " distinct operations reached "; TT_Target t; " and are visible only as HTTP. Add ";
            "OpenInference or OpenTelemetry GenAI instrumentation to see them as model or tool calls."]])
      (TransportTargets (Report c)))
    (Collectors status).
Definition ruleAdmissionNearBound (_ : PipelineStatus) : list Suggestion := [].

Definition statusRules : list (rule_table_row PipelineStatus) :=
  [{| cr_id := "status.no_collector"; cr_version := 1; fire := ruleNoCollector |};
   {| cr_id := "status.no_producer"; cr_version := 1; fire := ruleNoProducer |};
   {| cr_id := "status.spans_without_service_name"; cr_version := 1; fire := ruleSpansWithoutServiceName |};
   {| cr_id := "status.collapsed_http_operations"; cr_version := 1; fire := ruleCollapsedHTTPOperations |};
   {| cr_id := "status.admission_near_bound"; cr_version := 1; fire := ruleAdmissionNearBound |}].
Definition evaluateStatusRules (status : PipelineStatus) : list Suggestion * bool :=
  run_rules MaxStatusSuggestions statusRules status [].

Definition unsuggested (s : statusRegistry) (lastIngest : Z) (now : time) : PipelineStatus :=
  let collectors := collector_status now <$> snapshot s now in
  {| ReadAt := now; Collectors := collectors; Engine := EngineUnavailable; LastIngestAt := lastIngestAt lastIngest;
     Landing_ := landingFor now (lastIngestAt lastIngest) collectors; PS_Suggestions := []; PS_SuggestionsTruncated := false |}.
Definition PipelineStatus_ (s : statusRegistry) (lastIngest : Z) (now : time) : PipelineStatus :=
  let status := unsuggested s lastIngest now in
  let '(suggestions, truncated) := evaluateStatusRules status in
  {| ReadAt := ReadAt status; Collectors := Collectors status; Engine := Engine status; LastIngestAt := LastIngestAt status;
     Landing_ := Landing_ status; PS_Suggestions := suggestions; PS_SuggestionsTruncated := truncated |}.

(** ** Facts of the definitions *)
(** What a report states apart from when it was built. *)
Definition untimed_producer (p : ProducerStatus) : ProducerStatus :=
  {| ServiceName := ServiceName p; PS_Spans := PS_Spans p; LastSeenAge := 0; Scopes := Scopes p; ScopesTruncated := ScopesTruncated p; SDK := SDK p |}.
Definition facts (r : CollectorStatusReport) : CollectorStatusReport :=
  {| CollectorID := CollectorID r; Instance_ := Instance_ r; CS_Sequence := 0; Uptime := 0; ReceiverEndpoints := ReceiverEndpoints r;
     CS_EvaluationRunID := CS_EvaluationRunID r; CS_Spans := CS_Spans r; Producers := untimed_producer <$> Producers r;
     ProducersTruncated := ProducersTruncated r; ModelsReported := ModelsReported r; CS_Models := CS_Models r; ModelsTruncated := ModelsTruncated r;
     FidelityReported := FidelityReported r; CS_Fidelity := CS_Fidelity r; TransportTargetsReported := TransportTargetsReported r;
     TransportTargets := TransportTargets r; TransportTargetsTruncated := TransportTargetsTruncated r; ActorsReported := ActorsReported r;
     Actors := Actors r; LearningReported := LearningReported r; Learning := Learning r |}.

Lemma EqualFunc_fmap {A B} (eq : A -> A -> bool) (f : A -> B) l1 : forall l2,
  (forall a b, eq a b = true <-> f a = f b) -> EqualFunc eq l1 l2 = true <-> f <$> l1 = f <$> l2.
Proof.
  intros l2 H. revert l2. induction l1 as [|a l1 IH]; intros [|b l2]; cbn; try done.
  rewrite andb_true_iff, H, IH. split; [by intros [-> ->]|]. by intros [= -> ->].
Qed.
Lemma neqb_iff (a b : bool) : bool_neqb a b = false <-> a = b.
Proof. unfold bool_neqb. destruct a, b; cbn; split; congruence. Qed.
Lemma sameFacts_iff a b : sameFacts a b = true <-> facts a = facts b.
Proof.
  assert (Hp : forall p q, (ServiceName p =s ServiceName q)%go && (PS_Spans p =? PS_Spans q) && Bool.eqb (ScopesTruncated p) (ScopesTruncated q) &&
      bool_decide (SDK p = SDK q) && bool_decide (Scopes p = Scopes q) = true <-> untimed_producer p = untimed_producer q).
  { intros p q. rewrite !andb_true_iff, String.eqb_eq, Z.eqb_eq, eqb_true_iff, !bool_decide_eq_true. destruct p, q; cbn.
    split; [by intros ((((-> & ->) & ->) & ->) & ->)|]. by intros [= -> -> -> -> ->]. }
  unfold sameFacts. destruct (_ || _) eqn:E1.
  - split; [done|]. intros E. exfalso. apply not_false_iff_true in E1. apply E1. rewrite !orb_false_iff, !negb_false_iff, !String.eqb_eq, !Z.eqb_eq, !bool_decide_eq_true, !neqb_iff.
    unfold facts in E. injection E; intros. split_and!; first [assumption|match goal with H : Learning _ = Learning _ |- _ => rewrite H; reflexivity end].
  - rewrite !orb_false_iff, !negb_false_iff, !String.eqb_eq, !Z.eqb_eq, !bool_decide_eq_true, !neqb_iff in E1.
    destruct (_ || _ || _ || _) eqn:E2.
    + split; [done|]. intros E. exfalso. apply not_false_iff_true in E2. apply E2. rewrite !orb_false_iff, !negb_false_iff, !bool_decide_eq_true.
      unfold facts in E. injection E; intros. split_and!; first [assumption|match goal with H : Learning _ = Learning _ |- _ => rewrite H; reflexivity end].
    + rewrite !orb_false_iff, !negb_false_iff, !bool_decide_eq_true in E2. rewrite (EqualFunc_fmap _ untimed_producer) by exact Hp.
      destruct a as [? ? ? ? ? ? ? ? ? ? ? ? ? ? ? ? ? ? ? ? la], b as [? ? ? ? ? ? ? ? ? ? ? ? ? ? ? ? ? ? ? ? lb]. destruct la, lb. cbn in *. unfold facts; cbn.
      destruct_and!. subst. split; [by intros ->|]. by intros [= ->].
Qed.

(** A refused report is refused with ErrInvalidStatusReport alone. *)
Definition only_invalid {A} (m : res A) : Prop := forall e, m = Err e -> e = invalid.
Lemma invalid_bind {A B} (m : res A) (k : A -> res B) : only_invalid m -> (forall a, only_invalid (k a)) -> only_invalid (m ≫= k).
Proof. intros Hm Hk e. destruct m as [a|e']; cbn; [apply Hk|]. intros [= <-]. by apply Hm. Qed.
Lemma invalid_fail c : only_invalid (fail_if c invalid).
Proof. intros e. by destruct c; [intros [= <-]|]. Qed.
Lemma invalid_Ok {A} (a : A) : only_invalid (Ok a).
Proof. done. Qed.
Lemma invalid_map (m : res unit) : only_invalid (as_invalid m).
Proof. intros e. by destruct m; [|intros [= <-]]. Qed.
Lemma invalid_foldM {A B} (f : B -> A -> res B) l : (forall b a, only_invalid (f b a)) -> forall b, only_invalid (foldM f b l).
Proof. intros Hf. induction l as [|a l IH]; intros b; cbn; [apply invalid_Ok|]. by apply invalid_bind. Qed.
Create HintDb status.
#[export] Hint Resolve invalid_bind invalid_fail invalid_Ok invalid_map invalid_foldM : status.
Lemma invalid_text v : only_invalid (validateText ErrInvalidStatusReport v).
Proof. unfold validateText. change [ErrInvalidStatusReport] with invalid. eauto 6 with status. Qed.
Lemma invalid_optional v : only_invalid (validateOptionalText v).
Proof. unfold validateOptionalText. destruct (_ =s _)%go; [apply invalid_Ok|apply invalid_text]. Qed.
Lemma invalid_distinct {A K} `{Countable K} (key : A -> K) body seen a : (forall a, only_invalid (body a)) -> only_invalid (distinct_step key body seen a).
Proof. intros Hb. unfold distinct_step. eauto 8 with status. Qed.
#[export] Hint Resolve invalid_text invalid_optional invalid_distinct : status.

Lemma validate_errors r : only_invalid (CollectorStatusReport_validate r).
Proof.
  assert (Hp : forall p, only_invalid (validate_producer p)).
  { intros p. unfold validate_producer. apply invalid_bind; [destruct (_ <>s _)%go; eauto with status|]. intros _.
    repeat (apply invalid_bind; [eauto with status|intros _]); eauto 8 with status. }
  assert (Hm : forall m, only_invalid (validate_model m)) by (intros m; unfold validate_model; eauto 8 with status).
  assert (Ht : forall t, only_invalid (validate_target t)) by (intros t; unfold validate_target; eauto 8 with status).
  assert (Hl : forall l, only_invalid (validate_learning l)).
  { intros l. unfold validate_learning. apply invalid_bind; [eauto with status|]. intros _. apply invalid_bind; [|intros []; eauto with status].
    apply invalid_foldM. intros [n ds] t. unfold tally_step. eauto 10 with status. }
  unfold CollectorStatusReport_validate.
  repeat lazymatch goal with |- only_invalid (_ ≫= _) => apply invalid_bind; [|intros ?] end; eauto 8 with status.
  destruct (_ <>s _)%go; eauto with status.
Qed.

(** The tallies of an accepted report add up, without wrapping. *)
Lemma tally_sum l : forall n ds n' ds', Forall (fun t => is_u64 (DT_Count t)) l -> is_u64 n -> foldM tally_step (n, ds) l = Ok (n', ds') ->
  n' = n + sumZ (DT_Count <$> l) /\ is_u64 n' /\ NoDup (DT_Decision <$> l) /\ (forall t, t ∈ l -> DT_Decision t ∈ knownDecisions /\ DT_Decision t ∉ ds).
Proof.
  induction l as [|t l IH]; intros n ds n' ds' Hl Hn H; cbn [foldM] in H.
  { injection H as <- <-. cbn. split; [unfold sumZ; cbn; lia|]. split; [done|]. split; [constructor|]. by intros t ?%elem_of_nil. }
  apply Forall_cons in Hl as [Ht Hl]. apply bind_Ok in H as ([n1 ds1] & Hs & H). unfold tally_step in Hs.
  rewrite !bind_unit_iff, !fail_if_iff, negb_false_iff, bool_decide_eq_true, bool_decide_eq_false, Z.ltb_ge in Hs.
  destruct Hs as (Hk & Hd & Hw & [= <- <-]).
  assert (Hno : u64 (n + DT_Count t) = n + DT_Count t).
  { apply u64_small. destruct (Z_le_dec (n + DT_Count t) max_u64) as [Hle|Hgt]; [ulia|]. exfalso. unfold u64 in Hw.
    rewrite <- (Z.mod_unique (n + DT_Count t) 18446744073709551616 1 (n + DT_Count t - 18446744073709551616)) in Hw; ulia. }
  assert (Hr : is_u64 (n + DT_Count t)) by (rewrite <- Hno; apply u64_range).
  rewrite Hno in H. destruct (IH _ _ _ _ Hl Hr H) as (E & Hn' & Hnd & Hks).
  cbn [fmap list_fmap]. rewrite sumZ_cons. split; [lia|]. split; [done|]. split.
  - constructor; [|done]. intros (t' & E' & Hin)%list_elem_of_fmap. destruct (Hks t' Hin) as [_ Hnot]. apply Hnot. set_solver.
  - intros t' [->|Hin]%elem_of_cons; [done|]. destruct (Hks t' Hin) as [Hk' Hnot]. split; [done|]. set_solver.
Qed.

Lemma validate_learned r : Forall (fun t => is_u64 (DT_Count t)) (NotLearnedByDecision (Learning r)) -> CollectorStatusReport_validate r = Ok tt ->
  NotLearned (Learning r) = sumZ (DT_Count <$> NotLearnedByDecision (Learning r)) /\ NoDup (DT_Decision <$> NotLearnedByDecision (Learning r)) /\
  forall t, t ∈ NotLearnedByDecision (Learning r) -> DT_Decision t ∈ knownDecisions.
Proof.
  intros Hc H. unfold CollectorStatusReport_validate in H.
  repeat match type of H with (_ ;; _) = _ => apply bind_unit_iff in H as [_ H] | (_ ≫= _) = _ => apply bind_Ok in H as (? & _ & H) end.
  unfold validate_learning in H. apply bind_unit_iff in H as [_ H]. apply bind_Ok in H as ([n ds] & Hf & H). apply fail_if_iff, negb_false_iff, Z.eqb_eq in H. subst n.
  assert (H0 : is_u64 0) by ulia. destruct (tally_sum _ _ _ _ _ Hc H0 Hf) as (E & _ & Hnd & Hk). split; [by rewrite E, Z.add_0_l|]. split; [done|]. intros t Ht. by apply Hk.
Qed.

(** ** The registry *)
Definition report_counts_ok (r : CollectorStatusReport) : Prop := Forall (fun t => is_u64 (DT_Count t)) (NotLearnedByDecision (Learning r)).
Inductive status_step (s : statusRegistry) : statusRegistry -> Prop :=
| status_report r at_ : report_counts_ok r -> status_step s (fst (ReportCollectorStatus s r at_)).
Definition status_reachable (s : statusRegistry) : Prop := rtc status_step newStatusRegistry s.

Record registry_ok (s : statusRegistry) : Prop := {
  ro_size : (size s <= MaxStatusCollectors)%nat;
  ro_held : forall id held, s !! id = Some held -> CollectorID (report held) = id /\ CollectorStatusReport_validate (report held) = Ok tt /\
    report_counts_ok (report held);
}.

Lemma forget_lookup now s id held : forget now s !! id = Some held <-> s !! id = Some held /\ expired now held = false.
Proof. exact (map_lookup_filter_Some (fun kv : string * heldStatus => expired now kv.2 = false) (s : gmap string heldStatus) id held). Qed.
Lemma forget_ok now s : registry_ok s -> registry_ok (forget now s).
Proof.
  intros [Hs Hh]. split; [|intros id held [H _]%forget_lookup; by apply Hh].
  etransitivity; [|exact Hs]. apply map_subseteq_size, map_filter_subseteq.
Qed.

(** The four answers of [record], in the registry without what has expired. *)
Lemma record_cases s r at_ : let s0 := forget at_ s in
  (exists held, s0 !! CollectorID r = Some held /\ Instance_ (report held) = Instance_ r /\ CS_Sequence r <= CS_Sequence (report held) /\
     statusRegistry_record s r at_ = (s0, Ok (StatusReportIgnored, false))) \/
  (s0 !! CollectorID r = None /\ (MaxStatusCollectors <= size s0)%nat /\ statusRegistry_record s r at_ = (s0, Err [ErrStatusCollectorLimit])) \/
  ((exists held, s0 !! CollectorID r = Some held /\ ~ (Instance_ (report held) = Instance_ r /\ CS_Sequence r <= CS_Sequence (report held)) /\
      statusRegistry_record s r at_ = (<[CollectorID r := {| report := r; receivedAt := at_ |}]> s0,
        Ok (StatusReportAccepted, negb (bool_decide (facts (report held) = facts r)))))) \/
  (s0 !! CollectorID r = None /\ (size s0 < MaxStatusCollectors)%nat /\
     statusRegistry_record s r at_ = (<[CollectorID r := {| report := r; receivedAt := at_ |}]> s0, Ok (StatusReportAccepted, true))).
Proof.
  cbn zeta. unfold statusRegistry_record. set (s0 := forget at_ s). destruct (s0 !! CollectorID r) as [held|] eqn:E.
  - destruct ((Instance_ (report held) =s Instance_ r)%go && (CS_Sequence r <=? CS_Sequence (report held))) eqn:Ec.
    + apply andb_true_iff in Ec as [?%String.eqb_eq ?%Z.leb_le]. left. by exists held.
    + right. right. left. exists held. split; [done|]. split.
      * intros [Ei%String.eqb_eq Es%Z.leb_le]. by rewrite Ei, Es in Ec.
      * f_equal. do 3 f_equal. apply eq_true_iff_eq. by rewrite sameFacts_iff, bool_decide_eq_true.
  - destruct (Nat.leb_spec MaxStatusCollectors (size s0)); [right; left|right; right; right]; done.
Qed.

Lemma insert_size (s : statusRegistry) id held : size (<[id := held]> s) = match s !! id with Some _ => size s | None => S (size s) end.
Proof. destruct (s !! id) eqn:E; [by apply map_size_insert_Some; eexists|by apply map_size_insert_None]. Qed.

Lemma report_step_ok s r at_ : report_counts_ok r -> registry_ok s -> registry_ok (fst (ReportCollectorStatus s r at_)).
Proof.
  intros Hr Hs. unfold ReportCollectorStatus. destruct (CollectorStatusReport_validate r) as [[]|] eqn:Ev; [|done].
  pose proof (forget_ok at_ s Hs) as H0.
  assert (Hin : (match forget at_ s !! CollectorID r with Some _ => True | None => size (forget at_ s) < MaxStatusCollectors end)%nat ->
    registry_ok (<[CollectorID r := {| report := r; receivedAt := at_ |}]> (forget at_ s))).
  { intros Hsz. split.
    - rewrite insert_size. pose proof (ro_size _ H0). destruct (forget at_ s !! CollectorID r); lia.
    - intros id held. intros [[<- <-]|[_ H]]%(lookup_insert_Some (M := gmap string)); [done|by apply (ro_held _ H0)]. }
  destruct (record_cases s r at_) as [(h & _ & _ & _ & ->)|[(_ & _ & ->)|[(h & El & _ & ->)|(El & Hsz & ->)]]]; cbn; try done; apply Hin; by rewrite El.
Qed.
Lemma status_reachable_ok s : status_reachable s -> registry_ok s.
Proof.
  intros H. unfold status_reachable in H. revert H. apply (rtc_ind_r registry_ok).
  - split; [by vm_compute; lia|by intros ??].
  - intros s1 s2 _ [r at_ Hr] IH. by apply report_step_ok.
Qed.

(** What one report does to what is held of collector [id]. *)
Lemma report_lookup s r at_ id : (fst (ReportCollectorStatus s r at_) !! id = s !! id) \/
  (fst (ReportCollectorStatus s r at_) !! id = forget at_ s !! id) \/
  (CollectorID r = id /\ fst (ReportCollectorStatus s r at_) !! id = Some {| report := r; receivedAt := at_ |} /\
   forall held, forget at_ s !! id = Some held -> Instance_ (report held) = Instance_ r -> CS_Sequence (report held) < CS_Sequence r).
Proof.
  unfold ReportCollectorStatus. destruct (CollectorStatusReport_validate r) as [[]|]; [|by left]. right.
  destruct (decide (CollectorID r = id)) as [<-|Hne].
  - destruct (record_cases s r at_) as [(h & _ & _ & _ & ->)|[(_ & _ & ->)|[(h & El & Hno & ->)|(El & Hsz & ->)]]]; cbn; [by left|by left| |];
      right; (split; [done|]; split; [apply (lookup_insert_eq (M := gmap string))|]); intros held Hh; rewrite El in Hh; [|done].
    injection Hh as ->. intros E. apply Z.nle_gt. intros Hle. by apply Hno.
  - left. destruct (record_cases s r at_) as [(h & _ & _ & _ & ->)|[(_ & _ & ->)|[(h & El & _ & ->)|(El & Hsz & ->)]]]; cbn; try done;
      by apply (lookup_insert_ne (M := gmap string)).
Qed.
(** A valid report of a collector that is held leaves a report at least as new. *)
Lemma report_seen s r at_ held : CollectorStatusReport_validate r = Ok tt -> s !! CollectorID r = Some held -> expired at_ held = false ->
  Instance_ (report held) = Instance_ r ->
  exists h, fst (ReportCollectorStatus s r at_) !! CollectorID r = Some h /\ CS_Sequence r <= CS_Sequence (report h) /\
    (h = held \/ h = {| report := r; receivedAt := at_ |}) /\ CS_Sequence (report held) <= CS_Sequence (report h).
Proof.
  intros Hv Hh Hx Hi. unfold ReportCollectorStatus. rewrite Hv.
  assert (H0 : forget at_ s !! CollectorID r = Some held) by by apply forget_lookup.
  destruct (record_cases s r at_) as [(h & El & _ & Hs & ->)|[(El & _)|[(h & El & Hno & ->)|(El & _)]]]; rewrite H0 in El; try done; injection El as <-; cbn.
  - exists held. split; [done|]. split; [done|]. split; [by left|lia].
  - exists {| report := r; receivedAt := at_ |}. split; [apply (lookup_insert_eq (M := gmap string))|]. cbn. split; [lia|]. split; [by right|].
    apply Z.nlt_ge. intros Hlt. apply Hno. split; [done|lia].
Qed.

Definition reports (s : statusRegistry) (l : list (CollectorStatusReport * time)) : statusRegistry :=
  foldl (fun s ra => fst (ReportCollectorStatus s ra.1 ra.2)) s l.
Definition within_expiry (at_ u : time) : Prop := time_sub at_ u <= StatusExpiry.

Lemma within_expiry_iff at_ held : expired at_ held = false <-> within_expiry at_ (receivedAt held).
Proof. unfold expired, within_expiry. by rewrite Z.ltb_ge. Qed.

Lemma reports_latest l : forall s held id, s !! id = Some held ->
  (forall r a, (r, a) ∈ l -> within_expiry a (receivedAt held)) -> (forall r a r' a', (r, a) ∈ l -> (r', a') ∈ l -> within_expiry a a') ->
  (forall r a, (r, a) ∈ l -> CollectorID r = id -> Instance_ r = Instance_ (report held)) ->
  exists h, reports s l !! id = Some h /\ (h = held \/ (CollectorID (report h) = id /\ (report h, receivedAt h) ∈ l)) /\
    CS_Sequence (report held) <= CS_Sequence (report h) /\
    (forall r a, (r, a) ∈ l -> CollectorID r = id -> CollectorStatusReport_validate r = Ok tt -> CS_Sequence r <= CS_Sequence (report h)).
Proof.
  induction l as [|[r at_] l IH]; intros s held id Hh Hw Hp Hi; cbn [reports foldl].
  { exists held. split; [done|]. split; [by left|]. split; [lia|]. by intros r a ?%elem_of_nil. }
  assert (Hx : expired at_ held = false) by (apply within_expiry_iff, (Hw r); set_solver).
  assert (Hf : forget at_ s !! id = Some held) by by apply forget_lookup.
  assert (Hs1 : exists h1, fst (ReportCollectorStatus s r at_) !! id = Some h1 /\ (h1 = held \/ (CollectorID r = id /\ h1 = {| report := r; receivedAt := at_ |})) /\
    CS_Sequence (report held) <= CS_Sequence (report h1) /\
    (CollectorID r = id -> CollectorStatusReport_validate r = Ok tt -> CS_Sequence r <= CS_Sequence (report h1))).
  { destruct (decide (CollectorID r = id)) as [E|E].
    - destruct (CollectorStatusReport_validate r) as [[]|] eqn:Ev.
      + subst id. destruct (report_seen s r at_ held Ev Hh Hx) as (h & H1 & H2 & H3 & H4); [symmetry; apply (Hi r at_); [set_solver|done]|].
        exists h. split; [done|]. split; [destruct H3; [by left|by right]|]. split; [lia|done].
      + exists held. unfold ReportCollectorStatus. rewrite Ev. split; [done|]. split; [by left|]. split; [lia|done].
    - exists held. destruct (report_lookup s r at_ id) as [->|[->|[E' _]]]; [| |done]; (split; [done|]; split; [by left|]; split; [lia|done]). }
  destruct Hs1 as (h1 & L1 & C1 & S1 & V1).
  destruct (IH _ h1 id L1) as (h & L2 & C2 & S2 & V2).
  - intros r' a' Hin. destruct C1 as [->|[_ ->]]; [apply (Hw r'); set_solver|cbn; apply (Hp r' a' r at_); set_solver].
  - intros r1 a1 r2 a2 Hin1 Hin2. apply (Hp r1 a1 r2 a2); set_solver.
  - intros r' a' Hin Hid. rewrite (Hi r' a') by (set_solver || done). destruct C1 as [->|[E ->]]; [done|]. cbn. symmetry. apply (Hi r at_); [set_solver|done].
  - exists h. split; [exact L2|]. split.
    + destruct C2 as [->|[Hid Hin]]; [|right; split; [done|set_solver]]. destruct C1 as [->|[E ->]]; [by left|right; cbn; split; [done|set_solver]].
    + split; [lia|]. intros r' a' [[= -> ->]|Hin]%elem_of_cons Hid Hv; [etransitivity; [by apply V1|done]|by eapply V2].
Qed.

(** ** The document *)
Definition collector_of (s : statusRegistry) (now : time) (c : CollectorStatus) : Prop :=
  exists id held, s !! id = Some held /\ CollectorID (report held) = id /\ within_expiry now (receivedAt held) /\ c = collector_status now held.

Lemma snapshot_spec s now : registry_ok s ->
  (forall held, held ∈ snapshot s now <-> s !! CollectorID (report held) = Some held /\ within_expiry now (receivedAt held)) /\
  StronglySorted String.le ((fun held => CollectorID (report held)) <$> snapshot s now) /\ NoDup ((fun held => CollectorID (report held)) <$> snapshot s now).
Proof.
  intros Hok. unfold snapshot.
  assert (Hkey : Forall (fun kv : string * heldStatus => CollectorID (report kv.2) = kv.1) (sort_by fst (map_to_list s))).
  { apply Forall_forall. intros [id held] Hin%elem_of_sort_by%elem_of_map_to_list. by apply (ro_held s Hok). }
  assert (Hs : StronglySorted String.le (fst <$> sort_by fst (map_to_list s)) /\ NoDup (fst <$> sort_by fst (map_to_list s))).
  { split; [exact (StronglySorted_fmap fst (key_le fst) String.le _ (fun x y H => H) (sort_by_sorted fst _))|]. rewrite sort_by_perm. apply NoDup_fst_map_to_list. }
  assert (Hin : forall kv, kv ∈ sort_by fst (map_to_list s) <-> s !! kv.1 = Some kv.2).
  { intros [id held]. rewrite elem_of_sort_by. apply (elem_of_map_to_list (M := gmap string)). }
  revert Hkey Hs Hin. generalize (sort_by fst (map_to_list s)). intros l Hkey [Hs Hnd] Hin. split.
  - intros held. rewrite list_elem_of_In, filter_In, <- list_elem_of_In, negb_true_iff, within_expiry_iff, list_elem_of_fmap. split.
    + intros [([id h] & -> & Hm) Hw]. split; [|done]. rewrite Forall_forall in Hkey. pose proof (Hkey _ Hm) as E. cbn in E |- *. rewrite E. by apply Hin in Hm.
    + intros [Hl Hw]. split; [|done]. exists (CollectorID (report held), held). split; [done|]. by apply Hin.
  - clear Hin. induction l as [|[id h] l IH]; cbn; [split; constructor|]. apply Forall_cons in Hkey as [E Hkey].
    cbn in Hs, Hnd, E. apply StronglySorted_inv in Hs as [Hs Hall]. apply NoDup_cons in Hnd as [Hn Hnd]. destruct (IH Hkey Hs Hnd) as [IH1 IH2].
    destruct (negb (expired now h)); [|done]. cbn. rewrite E.
    assert (Hsub : forall x, x ∈ (fun held => CollectorID (report held)) <$> List.filter (fun held => negb (expired now held)) (snd <$> l) -> x ∈ fst <$> l).
    { intros x (h' & -> & Hf)%list_elem_of_fmap. apply list_elem_of_In, filter_In in Hf as [Hf%list_elem_of_In _].
      apply list_elem_of_fmap in Hf as ([id' h2] & -> & Hf). apply list_elem_of_fmap. exists (id', h2). split; [|done].
      rewrite Forall_forall in Hkey. exact (Hkey _ Hf). }
    split; constructor; try done; [|by intros ?%Hsub]. apply Forall_forall. intros x Hx%Hsub. rewrite Forall_forall in Hall. by apply Hall.
Qed.

Lemma existsb_iff {A} (f : A -> bool) l : existsb f l = true <-> exists x, x ∈ l /\ f x = true.
Proof. rewrite existsb_exists. split; intros (x & Hx & Hf); exists x; (split; [by apply list_elem_of_In|done]). Qed.
Lemma collectors_of s lastIngest now c : registry_ok s -> c ∈ Collectors (unsuggested s lastIngest now) <-> collector_of s now c.
Proof.
  intros Hok. cbn [unsuggested Collectors]. rewrite list_elem_of_fmap. destruct (snapshot_spec s now Hok) as [Hin _]. split.
  - intros (h & -> & [Hl Hw]%Hin). by exists (CollectorID (report h)), h.
  - intros (id & h & Hl & E & Hw & ->). exists h. split; [done|]. apply Hin. by rewrite E.
Qed.

Lemma fresh_within now at_ : fresh now at_ = true -> within_expiry now at_.
Proof. unfold fresh, within_expiry. rewrite Z.leb_le. unfold StatusFreshWindow, StatusExpiry, second. lia. Qed.
Lemma reporting_iff now h : (State (collector_status now h) =s CollectorReporting)%go = true <-> fresh now (receivedAt h) = true.
Proof. cbn. by destruct (fresh now (receivedAt h)). Qed.

Definition reporting (s : statusRegistry) (now : time) (held : heldStatus) : Prop := exists id, s !! id = Some held /\ fresh now (receivedAt held) = true.
Definition seen_lately (now : time) (held : heldStatus) : Prop :=
  exists p, p ∈ Producers (report held) /\ fresh now (time_add (receivedAt held) (- LastSeenAge p)) = true.
Definition up_for_window (now : time) (held : heldStatus) : Prop :=
  StatusFreshWindow <= time_sub now (time_add (receivedAt held) (- Uptime (report held))).

Lemma seen_iff now h : existsb (fresh now) (ProducerLastSeen (collector_status now h)) = true <-> seen_lately now h.
Proof.
  rewrite existsb_iff. cbn [collector_status ProducerLastSeen]. split.
  - intros (x & (p & -> & Hp)%list_elem_of_fmap & Hf). by exists p.
  - intros (p & Hp & Hf). eexists. split; [by apply list_elem_of_fmap_2|done].
Qed.
Lemma exists_reporting s lastIngest now (P : CollectorStatus -> Prop) : registry_ok s ->
  (exists c, c ∈ Collectors (unsuggested s lastIngest now) /\ (State c =s CollectorReporting)%go = true /\ P c) <->
  (exists held, reporting s now held /\ P (collector_status now held)).
Proof.
  intros Hok. split.
  - intros (c & (id & h & Hl & E & Hw & ->)%(collectors_of _ _ _ _ Hok) & Hr%reporting_iff & HP). exists h. split; [by exists id|done].
  - intros (h & (id & Hl & Hf) & HP). exists (collector_status now h). split; [|by split; [apply reporting_iff|]].
    apply collectors_of; [done|]. exists id, h. split; [done|]. split; [by apply (ro_held s Hok)|]. split; [by apply fresh_within|done].
Qed.

Lemma any_seen s lastIngest now : registry_ok s ->
  (exists c, c ∈ Collectors (unsuggested s lastIngest now) /\ (State c =s CollectorReporting)%go = true /\ existsb (fresh now) (ProducerLastSeen c) = true) <->
  (exists held, reporting s now held /\ seen_lately now held).
Proof.
  intros Hok. rewrite (exists_reporting s lastIngest now (fun c => existsb (fresh now) (ProducerLastSeen c) = true) Hok).
  split; intros (h & Hr & Hs); exists h; (split; [done|by apply seen_iff]).
Qed.

Lemma first_silent_spec now cs : forall first,
  (first_silent now cs first = None <-> exists c, c ∈ cs /\ (State c =s CollectorReporting)%go = true /\ existsb (fresh now) (ProducerLastSeen c) = true) /\
  (first_silent now cs first = Some None -> first = None /\ forall c, c ∈ cs -> (State c =s CollectorReporting)%go = true -> ~ StatusFreshWindow <= time_sub now (StartedAt c)) /\
  (forall c, first_silent now cs first = Some (Some c) -> first = Some c \/
     (c ∈ cs /\ (State c =s CollectorReporting)%go = true /\ StatusFreshWindow <= time_sub now (StartedAt c))).
Proof.
  induction cs as [|c cs IH]; intros first; cbn [first_silent].
  { split; [split; [done|by intros (c & ?%elem_of_nil & _)]|]. split; [intros [= ->]; split; [done|by intros c ?%elem_of_nil]|]. intros c [= ->]. by left. }
  destruct (State c =s CollectorReporting)%go eqn:Es; cbn [negb].
  2: { destruct (IH first) as (I1 & I2 & I3). split; [|split].
    - rewrite I1. split; intros (x & Hx & Hr & Hf); exists x; [split; [set_solver|done]|]. apply elem_of_cons in Hx as [->|Hx]; [by rewrite Es in Hr|done].
    - intros H. destruct (I2 H) as [-> Hall]. split; [done|]. intros x [->|Hx]%elem_of_cons Hr; [by rewrite Es in Hr|by apply Hall].
    - intros x H. destruct (I3 x H) as [->|(Hx & Hr & Hu)]; [by left|]. right. split; [set_solver|done]. }
  destruct (existsb (fresh now) (ProducerLastSeen c)) eqn:Ef.
  { split; [split; [|done]; intros _; exists c; split; [set_solver|done]|]. by split. }
  set (first' := match first with None => _ | Some _ => first end). destruct (IH first') as (I1 & I2 & I3). split; [|split].
  - rewrite I1. split; intros (x & Hx & Hr & Hf); exists x; [split; [set_solver|done]|]. apply elem_of_cons in Hx as [->|Hx]; [by rewrite Ef in Hf|done].
  - intros H. destruct (I2 H) as [E Hall]. subst first'. destruct first; [done|]. destruct (Z.leb_spec StatusFreshWindow (time_sub now (StartedAt c))); [done|].
    split; [done|]. intros x [->|Hx]%elem_of_cons Hr; [lia|by apply Hall].
  - intros x H. destruct (I3 x H) as [E|(Hx & Hr & Hu)]; [|right; split; [set_solver|done]]. subst first'. destruct first; [by left|].
    destruct (Z.leb_spec StatusFreshWindow (time_sub now (StartedAt c))); [|done]. injection E as <-. right. split; [set_solver|done].
Qed.

Definition all_status_suggestions (d : PipelineStatus) : list Suggestion := flat_map (labelled d) statusRules.

(** ** Properties *)

(** C14: whatever reports reach a platform, it holds at most sixteen, each valid and under its
    own collector, with its not-learned counts adding up without wrapping; and of one
    collector's process it ends holding the newest of the valid reports delivered, however
    they are reordered, repeated or mixed with other collectors' reports, as long as they
    arrive within the expiry of each other. *)
Theorem status_latest_wins s l held id : status_reachable s -> s !! id = Some held ->
  (forall r a, (r, a) ∈ l -> report_counts_ok r /\ within_expiry a (receivedAt held)) ->
  (forall r a r' a', (r, a) ∈ l -> (r', a') ∈ l -> within_expiry a a') ->
  (forall r a, (r, a) ∈ l -> CollectorID r = id -> Instance_ r = Instance_ (report held)) ->
  (size (reports s l) <= MaxStatusCollectors)%nat /\
  (forall i h, reports s l !! i = Some h -> CollectorID (report h) = i /\ CollectorStatusReport_validate (report h) = Ok tt /\
     NotLearned (Learning (report h)) = sumZ (DT_Count <$> NotLearnedByDecision (Learning (report h)))) /\
  exists h, reports s l !! id = Some h /\ (h = held \/ (CollectorID (report h) = id /\ (report h, receivedAt h) ∈ l)) /\
    CS_Sequence (report held) <= CS_Sequence (report h) /\
    (forall r a, (r, a) ∈ l -> CollectorID r = id -> CollectorStatusReport_validate r = Ok tt -> CS_Sequence r <= CS_Sequence (report h)).
Proof.
  intros Hs Hh Hw Hp Hi. assert (Hok : registry_ok (reports s l)).
  { apply status_reachable_ok in Hs. assert (Hc : forall r a, (r, a) ∈ l -> report_counts_ok r) by (intros r a H; by apply (Hw r a)).
    clear Hh Hw Hp Hi. revert s Hs. induction l as [|[r a] l IH]; intros s Hs; cbn; [done|].
    apply IH; [intros r' a' H; apply (Hc r' a'); set_solver|]. apply report_step_ok; [apply (Hc r a); set_solver|done]. }
  split; [apply Hok|]. split.
  - intros i h Hl. destruct (ro_held _ Hok _ _ Hl) as (H1 & H2 & H3). split; [done|]. split; [done|]. by apply validate_learned.
  - apply reports_latest; try done. intros r a H. by apply (Hw r a).
Qed.

(** C15: the pipeline's status is what the held reports say at the time it is read: the
    collectors, in order of identifier, are those heard of within the expiry, reporting when
    heard of within the fresh window; the landing is live exactly when a record or a
    reporting collector's producer arrived within the window; the first rule fires exactly
    when no collector reports, the second exactly when one has reported a full window of
    silence and none has seen a producer, so never both; and the suggestions are the first 64
    of the table's. *)
Theorem pipeline_status_exact s lastIngest now : status_reachable s ->
  let d := PipelineStatus_ s lastIngest now in let d0 := unsuggested s lastIngest now in
  StronglySorted String.le ((fun c => CollectorID (Report c)) <$> Collectors d) /\ NoDup ((fun c => CollectorID (Report c)) <$> Collectors d) /\
  (forall c, c ∈ Collectors d <-> collector_of s now c) /\
  (Landing_ d = LandingLive <-> ingestFresh now (lastIngestAt lastIngest) = true \/ exists held, reporting s now held /\ seen_lately now held) /\
  (ruleNoCollector d0 <> [] <-> ~ exists held, reporting s now held) /\
  (ruleNoProducer d0 <> [] <-> (exists held, reporting s now held /\ up_for_window now held) /\ ~ exists held, reporting s now held /\ seen_lately now held) /\
  (PS_Suggestions d, PS_SuggestionsTruncated d) =
    (take MaxStatusSuggestions (all_status_suggestions d0), bool_decide (MaxStatusSuggestions < length (all_status_suggestions d0))%nat).
Proof.
  intros Hs%status_reachable_ok d d0. destruct (snapshot_spec s now Hs) as (_ & Hsort & Hnd).
  assert (Hd : Collectors d = Collectors d0 /\ Landing_ d = Landing_ d0 /\ (PS_Suggestions d, PS_SuggestionsTruncated d) = evaluateStatusRules d0).
  { subst d d0. unfold PipelineStatus_. by destruct (evaluateStatusRules (unsuggested s lastIngest now)). }
  destruct Hd as (-> & -> & ->). split; [|split; [|split; [|split; [|split; [|split]]]]].
  - cbn [d0 unsuggested Collectors]. by rewrite <- list_fmap_compose.
  - cbn [d0 unsuggested Collectors]. by rewrite <- list_fmap_compose.
  - intros c. by apply collectors_of.
  - cbn [d0 unsuggested Landing_]. unfold landingFor. destruct (ingestFresh now (lastIngestAt lastIngest)); [split; [by left|done]|].
    rewrite <- (any_seen s lastIngest now Hs). destruct (existsb _ _) eqn:E.
    + split; [|done]. intros _. right. apply existsb_iff in E as (c & Hc & [Hr Hf]%andb_true_iff). by exists c.
    + split; [done|]. intros [?|(c & Hc & Hr & Hf)]; [done|]. apply not_true_iff_false in E. destruct E. apply existsb_iff. exists c. by rewrite Hr, Hf.
  - unfold ruleNoCollector. destruct (existsb _ _) eqn:E.
    + split; [done|]. intros H. exfalso. apply H. apply existsb_iff in E as (c & Hc & Hr).
      destruct (proj1 (exists_reporting s lastIngest now (fun _ => True) Hs)) as (h & Hh & _); [by exists c|by exists h].
    + split; [|intros _; by destruct (ingestFresh _ _)]. intros _ (h & Hh). apply not_true_iff_false in E. apply E.
      destruct (proj2 (exists_reporting s lastIngest now (fun _ => True) Hs)) as (c & Hc & Hr & _); [by exists h|]. apply existsb_iff. by exists c.
  - rewrite <- (any_seen s lastIngest now Hs).
    assert (Hup : (exists held, reporting s now held /\ up_for_window now held) <->
      (exists c, c ∈ Collectors d0 /\ (State c =s CollectorReporting)%go = true /\ StatusFreshWindow <= time_sub now (StartedAt c))).
    { symmetry. exact (exists_reporting s lastIngest now (fun c => StatusFreshWindow <= time_sub now (StartedAt c)) Hs). }
    rewrite Hup. unfold ruleNoProducer. cbn [d0 unsuggested ReadAt]. destruct (first_silent_spec now (Collectors d0) None) as (F1 & F2 & F3).
    destruct (first_silent now (Collectors d0) None) as [[c|]|] eqn:E.
    + split; [|by destruct (ReceiverEndpoints _)]. intros _. split; [|intros H; by apply F1 in H].
      destruct (F3 c eq_refl) as [?|Hc]; [done|]. by exists c.
    + split; [done|]. intros [(c & Hc & Hr & Hu) _]. destruct (F2 eq_refl) as [_ Hall]. by destruct (Hall c Hc Hr).
    + split; [done|]. intros [_ Hn]. destruct Hn. by apply F1.
  - unfold evaluateStatusRules. rewrite run_rules_spec by (cbn; lia). done.
Qed.

(** ** Witnesses *)
Definition example_report (sequence uptime age unbound : Z) : CollectorStatusReport :=
  {| CollectorID := "collector-1"; Instance_ := "0123456789abcdef"; CS_Sequence := sequence; Uptime := uptime;
     ReceiverEndpoints := ["127.0.0.1:4317"]; CS_EvaluationRunID := "";
     CS_Spans := {| SC_Received := 9; SC_Evaluated := 5; SC_Invalid := 1; SC_AnalyzeErrors := 0 |};
     Producers := [{| ServiceName := "agent"; PS_Spans := 9; LastSeenAge := age; Scopes := []; ScopesTruncated := false;
                      SDK := {| SDK_Name := "opentelemetry"; SDK_Language := "go"; SDK_Version := "1" |} |}];
     ProducersTruncated := false; ModelsReported := false; CS_Models := []; ModelsTruncated := false; FidelityReported := false;
     CS_Fidelity := {| FC_Semantic := 0; FC_Transport := 0 |}; TransportTargetsReported := false; TransportTargets := [];
     TransportTargetsTruncated := false; ActorsReported := true;
     Actors := {| BoundByOverride := 0; BoundByServiceName := 5; Unbound := unbound |}; LearningReported := true;
     Learning := {| Learned := 3; NotLearned := 2; ObserveErrors := 0; NotLearnedByDecision := [{| DT_Decision := "block"; DT_Count := 2 |}] |} |}.
Definition at_sec (n : Z) : time := Time (unix_epoch + n * second) 0.
Definition example_status (sequence uptime age : Z) (received : time) : statusRegistry :=
  fst (ReportCollectorStatus newStatusRegistry (example_report sequence uptime age 4) received).

Lemma example_counts sequence uptime age unbound : report_counts_ok (example_report sequence uptime age unbound).
Proof. unfold report_counts_ok. cbn. rewrite Forall_singleton. cbn. ulia. Qed.
Lemma example_status_reachable sequence uptime age received : status_reachable (example_status sequence uptime age received).
Proof. apply rtc_once. unfold example_status. apply status_report, example_counts. Qed.

(** The third report overtakes the second. *)
Lemma status_latest_wins_witness : exists h,
  reports (example_status 1 0 0 (at_sec 100)) [(example_report 3 0 0 4, at_sec 120); (example_report 2 0 0 4, at_sec 121)] !! "collector-1" = Some h /\
  3 <= CS_Sequence (report h).
Proof.
  assert (Hh : example_status 1 0 0 (at_sec 100) !! "collector-1" = Some {| report := example_report 1 0 0 4; receivedAt := at_sec 100 |}) by (vm_compute; reflexivity).
  destruct (status_latest_wins (example_status 1 0 0 (at_sec 100)) [(example_report 3 0 0 4, at_sec 120); (example_report 2 0 0 4, at_sec 121)]
    _ "collector-1" (example_status_reachable _ _ _ _) Hh) as (_ & _ & h & Hl & _ & _ & Hmax).
  - intros r a H. rewrite !elem_of_cons, elem_of_nil in H. destruct H as [[= -> ->]|[[= -> ->]|[]]]; (split; [apply example_counts|vm_compute; discriminate]).
  - intros r a r' a' H H'. rewrite !elem_of_cons, elem_of_nil in H, H'.
    destruct H as [[= -> ->]|[[= -> ->]|[]]], H' as [[= -> ->]|[[= -> ->]|[]]]; vm_compute; discriminate.
  - intros r a H _. rewrite !elem_of_cons, elem_of_nil in H. by destruct H as [[= -> ->]|[[= -> ->]|[]]].
  - exists h. split; [exact Hl|]. apply (Hmax (example_report 3 0 0 4) (at_sec 120)); [by left|reflexivity|vm_compute; reflexivity].
Defined.

(** A collector up for a minute that has seen nothing for forty seconds: the second rule and
    the third fire, in that order. *)
Lemma pipeline_status_exact_witness : let d := PipelineStatus_ (example_status 1 (60 * second) (40 * second) (at_sec 100)) 0 (at_sec 110) in
  Landing_ d = LandingStatus /\ (Rule <$> PS_Suggestions d) = ["status.no_producer"; "status.spans_without_service_name"] /\
  NoDup ((fun c => CollectorID (Report c)) <$> Collectors d).
Proof.
  destruct (pipeline_status_exact (example_status 1 (60 * second) (40 * second) (at_sec 100)) 0 (at_sec 110) (example_status_reachable _ _ _ _))
    as (_ & Hnd & _).
  split; [vm_compute; reflexivity|]. split; [vm_compute; reflexivity|exact Hnd].
Defined.
