(* ===== verification/Traces.v ===== *)
(** * Package platform: a run's traces and sessions (trace_summary.go)

    The retained observations of a run summarised by trace, or by session: one row for each
    identifier some observation carries, paged by the sequence it first occurs at.  The theorem
    is over every state the platform's calls can reach: reading page after page gives every
    trace once, each with exactly the counts and bounds of its retained observations. *)
From S2P Require Import Prelude GoText GoTime DecisionRecord Domain Paging Recency Aggregate Observation RunStore EvidenceStore Ingest.
From S2P Require Import Cost GateRecord Scenario Catalog ControlPlane.

Open Scope string_scope.
Open Scope Z_scope.

Record TraceSummary : Type := {
  TraceID : string; TS_Observations : Z; FirstSequence : Z; LastSequence : Z; ErrorSpans : Z }.
Record TracePage : Type := { Traces : list TraceSummary; TP_History : ObservationHistory }.

(** The correlation column's value; its digest key is empty exactly when the value is. *)
Definition correlationColumn : Type := Observation -> string.
Definition correlationTrace : correlationColumn := O_TraceID.
Definition correlationSession : correlationColumn := O_SessionID.

(** One group of GROUP BY: COUNT, MIN, MAX and the conditional COUNT over its rows. *)
Definition least (l : list Z) : Z := match l with [] => 0 | x :: l => foldl Z.min x l end.
Definition greatest (l : list Z) : Z := match l with [] => 0 | x :: l => foldl Z.max x l end.
Definition correlated (column : correlationColumn) (rows : list Observation) (value : string) : list Observation :=
  List.filter (fun o => column o =s value)%go rows.
Definition summarise (column : correlationColumn) (rows : list Observation) (value : string) : TraceSummary :=
  let group := correlated column rows value in
  {| TraceID := value; TS_Observations := Z.of_nat (length group);
     FirstSequence := least (Sequence <$> group); LastSequence := greatest (Sequence <$> group);
     ErrorSpans := Z.of_nat (length (List.filter (fun o => O_SpanStatus o =s "error")%go group)) |}.
Definition correlation_values (column : correlationColumn) (rows : list Observation) : list string :=
  remove_dups (List.filter (fun v => v <>s "")%go (column <$> rows)).

Definition first_le (t u : TraceSummary) : Prop := FirstSequence t <= FirstSequence u.
#[export] Instance first_le_dec : RelDecision first_le.
Proof. intros t u. unfold first_le. apply _. Defined.
#[export] Instance first_le_total : Total first_le.
Proof. intros t u. unfold first_le. lia. Qed.
#[export] Instance first_le_trans : Transitive first_le.
Proof. intros t u v. unfold first_le. lia. Qed.

(** [SELECT ... GROUP BY ... HAVING MIN(sequence) > ? ORDER BY first_sequence LIMIT ?]. *)
Definition correlation_rows (column : correlationColumn) (rows : list Observation) : list TraceSummary :=
  merge_sort first_le (summarise column rows <$> correlation_values column rows).
Definition beyond_first (after : Z) (t : TraceSummary) : bool := after <? FirstSequence t.

Definition check_counts (t : TraceSummary) : res unit :=
  fail_if ((TS_Observations t <? 1) || (ErrorSpans t <? 0) || (TS_Observations t <? ErrorSpans t)) [ErrStoreCorrupt].
Definition runCorrelationPage (p : platform) (column : correlationColumn) (id : EvaluationRunID) (after limit : Z) : res TracePage :=
  loadRun (pf_runs p) id;;
  history ← Store_observationHistoryFor (pf_evidence p) id;
  h ← loadObservationHistoryRow (pf_evidence p) id;
  let traces := page beyond_first (correlation_rows column (rows h)) after (Z.to_nat limit) in
  foldM (fun _ t => check_counts t) tt traces;;
  Ok {| Traces := traces; TP_History := history |}.

Definition correlation_page (p : platform) (column : correlationColumn) (runID : EvaluationRunID) (after : string) (limit : Z) : res TracePage :=
  validateID runID;;
  validateObservationPage after limit;;
  cursor ← ParseObservationCursor after;
  loadRun (pf_runs p) runID;;
  runCorrelationPage p column runID cursor limit.
Definition EvaluationRunTraces (p : platform) := correlation_page p correlationTrace.
Definition EvaluationRunSessions (p : platform) := correlation_page p correlationSession.

(** ** What a summary says *)
Record summary_of (column : correlationColumn) (rows : list Observation) (t : TraceSummary) : Prop := {
  su_named : TraceID t <> "";
  su_count : TS_Observations t = Z.of_nat (length (correlated column rows (TraceID t)));
  su_first : exists o, o ∈ rows /\ column o = TraceID t /\ Sequence o = FirstSequence t;
  su_last : exists o, o ∈ rows /\ column o = TraceID t /\ Sequence o = LastSequence t;
  su_between : forall o, o ∈ rows -> column o = TraceID t -> FirstSequence t <= Sequence o <= LastSequence t;
  su_errors : ErrorSpans t = Z.of_nat (length (List.filter (fun o => O_SpanStatus o =s "error")%go (correlated column rows (TraceID t))));
}.

Lemma elem_of_correlated column rows v o : o ∈ correlated column rows v <-> o ∈ rows /\ column o = v.
Proof. unfold correlated. by rewrite list_elem_of_In, filter_In, <- list_elem_of_In, String.eqb_eq. Qed.
Lemma elem_of_values column rows v : v ∈ correlation_values column rows <-> v <> "" /\ exists o, o ∈ rows /\ column o = v.
Proof.
  unfold correlation_values. rewrite elem_of_remove_dups, list_elem_of_In, filter_In, <- list_elem_of_In, negb_true_iff, String.eqb_neq, list_elem_of_fmap.
  split; [intros [(o & -> & Ho) Hn]; split; [done|by exists o]|intros [Hn (o & Ho & <-)]; split; [by exists o|done]].
Qed.

Lemma fold_min l : forall x, foldl Z.min x l <= x /\ Forall (fun y => foldl Z.min x l <= y) l /\ (foldl Z.min x l = x \/ foldl Z.min x l ∈ l).
Proof.
  induction l as [|y l IH]; intros x; cbn; [split; [lia|]; split; [constructor|by left]|]. destruct (IH (Z.min x y)) as (H1 & H2 & H3).
  split; [lia|]. split; [constructor; [lia|done]|]. destruct H3 as [->|H3]; [|right; set_solver]. destruct (Z.min_spec x y) as [[_ ->]|[_ ->]]; [by left|right; set_solver].
Qed.
Lemma fold_max l : forall x, x <= foldl Z.max x l /\ Forall (fun y => y <= foldl Z.max x l) l /\ (foldl Z.max x l = x \/ foldl Z.max x l ∈ l).
Proof.
  induction l as [|y l IH]; intros x; cbn; [split; [lia|]; split; [constructor|by left]|]. destruct (IH (Z.max x y)) as (H1 & H2 & H3).
  split; [lia|]. split; [constructor; [lia|done]|]. destruct H3 as [->|H3]; [|right; set_solver]. destruct (Z.max_spec x y) as [[_ ->]|[_ ->]]; [right; set_solver|by left].
Qed.
Lemma least_spec l : l <> [] -> least l ∈ l /\ forall y, y ∈ l -> least l <= y.
Proof.
  destruct l as [|x l]; [done|]. intros _. cbn [least]. destruct (fold_min l x) as (H1 & H2 & H3). rewrite Forall_forall in H2.
  split; [destruct H3 as [->|H3]; set_solver|]. intros y [->|Hy]%elem_of_cons; [done|by apply H2].
Qed.
Lemma greatest_spec l : l <> [] -> greatest l ∈ l /\ forall y, y ∈ l -> y <= greatest l.
Proof.
  destruct l as [|x l]; [done|]. intros _. cbn [greatest]. destruct (fold_max l x) as (H1 & H2 & H3). rewrite Forall_forall in H2.
  split; [destruct H3 as [->|H3]; set_solver|]. intros y [->|Hy]%elem_of_cons; [done|by apply H2].
Qed.

Lemma summarise_spec column rows v : v <> "" -> (exists o, o ∈ rows /\ column o = v) -> summary_of column rows (summarise column rows v).
Proof.
  intros Hv (o & Ho & Hc). set (seqs := Sequence <$> correlated column rows v).
  assert (Hne : seqs <> []).
  { intros E. assert (Hin : Sequence o ∈ seqs) by (apply list_elem_of_fmap_2, elem_of_correlated; done). rewrite E in Hin. by apply elem_of_nil in Hin. }
  destruct (least_spec _ Hne) as [L1 L2]. destruct (greatest_spec _ Hne) as [G1 G2]. split; try done.
  - apply list_elem_of_fmap in L1 as (o1 & E & [H1 H2]%elem_of_correlated). by exists o1.
  - apply list_elem_of_fmap in G1 as (o1 & E & [H1 H2]%elem_of_correlated). by exists o1.
  - intros o1 H1 H2. cbn. assert (Hin : Sequence o1 ∈ seqs) by (apply list_elem_of_fmap_2, elem_of_correlated; done). split; [by apply L2|by apply G2].
Qed.
Lemma summary_unique column rows t u : summary_of column rows t -> summary_of column rows u -> TraceID t = TraceID u -> t = u.
Proof.
  intros T U E. destruct (su_first _ _ _ T) as (o1 & A1 & A2 & A3), (su_first _ _ _ U) as (o2 & B1 & B2 & B3), (su_last _ _ _ T) as (o3 & C1 & C2 & C3), (su_last _ _ _ U) as (o4 & D1 & D2 & D3).
  pose proof (su_between _ _ _ T o2 B1 ltac:(congruence)). pose proof (su_between _ _ _ U o1 A1 ltac:(congruence)).
  pose proof (su_between _ _ _ T o4 D1 ltac:(congruence)). pose proof (su_between _ _ _ U o3 C1 ltac:(congruence)).
  pose proof (su_count _ _ _ T) as N1. pose proof (su_count _ _ _ U) as N2. pose proof (su_errors _ _ _ T) as E1. pose proof (su_errors _ _ _ U) as E2.
  rewrite E in N1, E1. destruct t, u. cbn in *. subst. f_equal; lia.
Qed.

(** ** Reading every page *)
Section walk.
Context (column : correlationColumn) (rows : list Observation).
Context (sequences : NoDup (Sequence <$> rows)) (range : Forall (fun o => 1 <= Sequence o <= max_u64) rows).

Lemma rows_summaries t : t ∈ correlation_rows column rows <-> summary_of column rows t.
Proof.
  unfold correlation_rows. rewrite merge_sort_Permutation, list_elem_of_fmap. split.
  - intros (v & -> & [Hv Ho]%elem_of_values). by apply summarise_spec.
  - intros T. destruct (su_first _ _ _ T) as (o & H1 & H2 & _). pose proof (su_named _ _ _ T) as Hn. exists (TraceID t). split.
    + apply (summary_unique column rows); [done| |done]. apply summarise_spec; [done|by exists o].
    + apply elem_of_values. split; [done|by exists o].
Qed.
Lemma same_first t u : summary_of column rows t -> summary_of column rows u -> FirstSequence t = FirstSequence u -> t = u.
Proof.
  intros T U E. destruct (su_first _ _ _ T) as (o1 & A1 & A2 & A3), (su_first _ _ _ U) as (o2 & B1 & B2 & B3).
  apply (summary_unique column rows); [done..|]. rewrite <- A2, <- B2.
  assert (o1 = o2) as ->; [|done].
  apply list_elem_of_lookup in A1 as [i Hi], B1 as [j Hj].
  assert (Hij : i = j).
  { apply (NoDup_lookup (Sequence <$> rows) i j (Sequence o1)); [done|by rewrite list_lookup_fmap, Hi|]. rewrite list_lookup_fmap, Hj. cbn. f_equal. lia. }
  subst j. rewrite Hi in Hj. by injection Hj.
Qed.
Lemma rows_strict : StronglySorted (fun t u => FirstSequence t < FirstSequence u) (correlation_rows column rows).
Proof.
  assert (Hs : StronglySorted first_le (correlation_rows column rows)) by apply (StronglySorted_merge_sort _).
  assert (Hnd : NoDup (correlation_rows column rows)).
  { unfold correlation_rows. rewrite merge_sort_Permutation. apply NoDup_fmap_2_strong; [|apply NoDup_remove_dups].
    intros x y _ _ E. exact (f_equal TraceID E). }
  assert (Hall : Forall (summary_of column rows) (correlation_rows column rows)) by (apply Forall_forall; intros t; apply rows_summaries).
  induction Hs as [|t l Hs IH Ht]; [constructor|]. apply NoDup_cons in Hnd as [Hn Hnd]. apply Forall_cons in Hall as [T Hall].
  constructor; [by apply IH|]. rewrite Forall_forall in *. intros u Hu. specialize (Ht u Hu). unfold first_le in Ht.
  destruct (Z.eq_dec (FirstSequence t) (FirstSequence u)) as [E|]; [|lia]. destruct Hn. by rewrite (same_first t u T (Hall u Hu) E).
Qed.
Lemma summary_range t : summary_of column rows t -> 1 <= FirstSequence t <= max_u64.
Proof. intros T. destruct (su_first _ _ _ T) as (o & Ho & _ & <-). rewrite Forall_forall in range. by apply range. Qed.
Lemma summary_checks t : summary_of column rows t -> check_counts t = Ok tt.
Proof.
  intros T. unfold check_counts. apply fail_if_iff. rewrite (su_count _ _ _ T), (su_errors _ _ _ T), !orb_false_iff, !Z.ltb_ge.
  destruct (su_first _ _ _ T) as (o & Ho & Hc & _). assert (Hin : o ∈ correlated column rows (TraceID t)) by by apply elem_of_correlated.
  assert ((0 < length (correlated column rows (TraceID t)))%nat) by (destruct (correlated _ _ _); [by apply elem_of_nil in Hin|cbn; lia]).
  pose proof (List.filter_length_le (fun o => O_SpanStatus o =s "error")%go (correlated column rows (TraceID t))). lia.
Qed.
Lemma counts_pass l : Forall (summary_of column rows) l -> foldM (fun _ t => check_counts t) tt l = Ok tt.
Proof. induction 1 as [|t l T _ IH]; [done|]. cbn. by rewrite (summary_checks t T). Qed.
Lemma cursor_roundtrip v : 1 <= v <= max_u64 -> ParseObservationCursor (FormatObservationCursor v) = Ok v.
Proof.
  intros Hv. unfold ParseObservationCursor, FormatObservationCursor. destruct (String.eqb_spec (format_uint 10 v) "") as [E|_].
  { exfalso. pose proof (parse_format_uint v ltac:(ulia)) as H. by rewrite E in H. }
  rewrite parse_format_uint by ulia. rewrite String.eqb_refl. cbn [negb]. by destruct (Z.eqb_spec v 0); [lia|].
Qed.

(** A reader of pages sees [walk] over the sorted summaries. *)
Lemma pages_walk (fetch : string -> res (list TraceSummary)) limit :
  (forall after c, ParseObservationCursor after = Ok c -> fetch after = Ok (page beyond_first (correlation_rows column rows) c limit)) ->
  forall fuel after c, ParseObservationCursor after = Ok c ->
  list_all fetch (fun t => FormatObservationCursor (FirstSequence t)) fuel after = Ok (walk beyond_first FirstSequence (correlation_rows column rows) limit fuel c).
Proof.
  intros Hf. induction fuel as [|fuel IH]; intros after c Hc; [done|]. cbn [list_all walk]. rewrite (Hf _ _ Hc). cbn [mbind res_bind].
  destruct (last (page _ _ _ _)) as [t|] eqn:El; [|done].
  assert (Hin : t ∈ correlation_rows column rows).
  { apply last_Some in El as [l' El]. assert (Hp : t ∈ page beyond_first (correlation_rows column rows) c limit) by (rewrite El; set_solver).
    unfold page in Hp. apply (subseteq_take limit _ t) in Hp. apply list_elem_of_In, filter_In in Hp as [Hp _]. by apply list_elem_of_In. }
  rewrite (IH _ (FirstSequence t)); [done|]. by apply cursor_roundtrip, summary_range, rows_summaries.
Qed.
Lemma walk_traces limit fuel : (0 < limit)%nat -> (length (correlation_rows column rows) < fuel)%nat ->
  walk beyond_first FirstSequence (correlation_rows column rows) limit fuel 0 = correlation_rows column rows.
Proof.
  intros Hl Hf. apply (walk_all_on (fun t u => FirstSequence t < FirstSequence u) beyond_first FirstSequence (summary_of column rows)); try done; try lia.
  - intros t u _. unfold beyond_first. by rewrite Z.ltb_lt.
  - apply Forall_forall. intros t. apply rows_summaries.
  - exact rows_strict.
  - apply Forall_forall. intros t Ht%rows_summaries%summary_range. unfold beyond_first. apply Z.ltb_lt. lia.
Qed.
Lemma traces_fewer : (length (correlation_rows column rows) <= length rows)%nat.
Proof.
  unfold correlation_rows. rewrite merge_sort_Permutation, length_fmap. unfold correlation_values.
  assert (H : (length (remove_dups (List.filter (fun v => v <>s "")%go (column <$> rows))) <= length (column <$> rows))%nat); [|by rewrite length_fmap in H].
  etransitivity; [|apply (List.filter_length_le (fun v => v <>s "")%go)].
  apply submseteq_length. apply NoDup_submseteq; [apply NoDup_remove_dups|]. intros x. by rewrite elem_of_remove_dups.
Qed.
End walk.

(** Rows of each value, added over distinct values, are the rows of any of them. *)
Lemma sumZ_fmap_add {A} (f g : A -> Z) l : sumZ ((fun a => f a + g a) <$> l) = sumZ (f <$> l) + sumZ (g <$> l).
Proof. induction l as [|a l IH]; [done|]. cbn [fmap list_fmap]. rewrite !sumZ_cons, IH. lia. Qed.
Lemma sum_indicator (vs : list string) v : NoDup vs -> sumZ ((fun w => if (v =s w)%go then 1 else 0) <$> vs) = if bool_decide (v ∈ vs) then 1 else 0.
Proof.
  induction 1 as [|w vs Hn _ IH]; [done|]. cbn [fmap list_fmap]. rewrite sumZ_cons, IH.
  destruct (String.eqb_spec v w) as [->|Hne].
  - rewrite bool_decide_eq_false_2 by done. rewrite bool_decide_eq_true_2 by set_solver. done.
  - rewrite (bool_decide_ext (v ∈ w :: vs) (v ∈ vs)) by set_solver. lia.
Qed.
Lemma sum_correlated column rows vs : NoDup vs ->
  sumZ ((fun v => Z.of_nat (length (correlated column rows v))) <$> vs) = Z.of_nat (length (List.filter (fun o => bool_decide (column o ∈ vs)) rows)).
Proof.
  intros Hnd. induction rows as [|o rows IH].
  - cbn. induction vs as [|v vs IHv]; [done|]. apply NoDup_cons in Hnd as [_ Hnd]. cbn [fmap list_fmap]. rewrite sumZ_cons. cbn. by apply IHv.
  - assert (E : (fun v => Z.of_nat (length (correlated column (o :: rows) v))) <$> vs =
                (fun v => (if (column o =s v)%go then 1 else 0) + Z.of_nat (length (correlated column rows v))) <$> vs).
    { apply list_fmap_ext. intros i v _. unfold correlated. cbn [List.filter]. destruct (column o =s v)%go; cbn [length]; lia. }
    rewrite E, sumZ_fmap_add, (sum_indicator vs (column o) Hnd), IH. cbn [List.filter]. destruct (bool_decide _); cbn [length]; lia.
Qed.
Lemma summaries_total column rows : sumZ (TS_Observations <$> correlation_rows column rows) = Z.of_nat (length (List.filter (fun o => column o <>s "")%go rows)).
Proof.
  unfold correlation_rows. rewrite (sumZ_perm _ (TS_Observations <$> (summarise column rows <$> correlation_values column rows))) by by rewrite merge_sort_Permutation.
  rewrite <- list_fmap_compose. etransitivity; [apply (sum_correlated column rows (correlation_values column rows)), NoDup_remove_dups|]. do 2 f_equal.
  assert (Hsub : forall o, o ∈ rows -> bool_decide (column o ∈ correlation_values column rows) = (column o <>s "")%go).
  { intros o Ho. apply eq_true_iff_eq. rewrite bool_decide_eq_true, elem_of_values, negb_true_iff, String.eqb_neq. split; [by intros [? _]|]. intros H. split; [done|by exists o]. }
  revert Hsub. generalize (correlation_values column rows). intros vs. induction rows as [|o l IH]; intros Hsub; [done|].
  cbn [List.filter]. rewrite (Hsub o) by set_solver. rewrite IH; [done|]. intros x Hx. apply Hsub. set_solver.
Qed.

(** ** Property *)
Section system.
Context (RecordDigest : DecisionRecord -> res string).
Context (digest_shape : forall record d, RecordDigest record = Ok d -> validateDigestShape d = Ok tt).
Context `{json : GateJSON}.

Lemma retained_range (os : list Observation) n : (Sequence <$> os) = seqZ 1 (Z.of_nat (length os)) -> Z.of_nat (length os) <= max_u64 ->
  NoDup (Sequence <$> take n os) /\ Forall (fun o => 1 <= Sequence o <= max_u64) (take n os).
Proof.
  intros Hs Hl. assert (Hr : Forall (fun o => 1 <= Sequence o <= max_u64) os).
  { apply Forall_forall. intros o Ho. assert (Hin : Sequence o ∈ Sequence <$> os) by by apply list_elem_of_fmap_2. rewrite Hs, elem_of_seqZ in Hin. lia. }
  split; [|by apply Forall_take]. rewrite fmap_take, Hs. apply (sublist_NoDup _ (seqZ 1 (Z.of_nat (length os)))); [apply NoDup_seqZ|apply sublist_take].
Qed.

(** C16: in whatever state the interleaving of calls has left the platform, a reader who asks
    for a run's traces, or its sessions, page after page, gets each of them exactly once, in
    the order of their first observations: each with the number, the first, the last and the
    failed ones of the run's retained observations that carry it, and together counting
    every retained observation that carries any. *)
Theorem traces_complete k column id r limit : control_reachable RecordDigest k -> loadRun (pf_runs (platform_of k)) id = Ok r -> 1 <= limit <= MaxListPage ->
  exists log a c os ts, log_ok log /\ accumulate r log = Ok (a, c, os) /\
    (forall fuel, (length os < fuel)%nat ->
       list_all (fun after => page ← correlation_page (platform_of k) column id after limit; Ok (Traces page))
         (fun t => FormatObservationCursor (FirstSequence t)) fuel "" = Ok ts) /\
    StronglySorted (fun t u => FirstSequence t < FirstSequence u) ts /\ (forall t, t ∈ ts <-> summary_of column (take cap os) t) /\
    sumZ (TS_Observations <$> ts) = Z.of_nat (length (List.filter (fun o => column o <>s "")%go (take cap os))).
Proof.
  intros Hk Hl Hlim. destruct (reachable_config RecordDigest digest_shape _ _ (control_ingest RecordDigest k Hk)) as [logs [Hs _]].
  destruct (sys_ok_run _ _ _ _ _ Hs Hl) as (Hr & <- & Hlog).
  destruct (read_log RecordDigest digest_shape _ _ _ _ Hl Hr Hlog) as (a & c & os & _ & Ha & _ & Hok & _).
  destruct (accumulate_evidence _ _ _ _ _ Hok Ha) as (_ & _ & Hlen & Hseq).
  assert (Hbound : Z.of_nat (length os) <= max_u64) by (destruct Hok as [_ Hn]; rewrite Hlen; ulia).
  destruct (retained_range os cap Hseq Hbound) as [Hnd Hrange].
  pose proof (proj1 (retained_rows 0 os ltac:(lia) Hseq)) as Hrows.
  exists (logs (run_id r)), a, c, os, (correlation_rows column (take cap os)). split; [done|]. split; [done|].
  assert (Hid : validateID (run_id r) = Ok tt).
  { pose proof (reachable_binding r Hr) as Hb. unfold validateRunBinding in Hb. by apply bind_unit_iff in Hb as [? _]. }
  assert (Hfetch : forall after cur, ParseObservationCursor after = Ok cur ->
    (page ← correlation_page (platform_of k) column (run_id r) after limit; Ok (Traces page)) =
    Ok (page beyond_first (correlation_rows column (take cap os)) cur (Z.to_nat limit))).
  { intros after cur Hc. unfold correlation_page, validateObservationPage. rewrite Hid, Hc. cbn [mbind res_bind].
    rewrite (proj2 (fail_if_iff _ _)) by (rewrite orb_false_iff, !Z.ltb_ge; lia). cbn [mbind res_bind]. rewrite Hl. cbn [mbind res_bind].
    unfold runCorrelationPage. rewrite Hl. cbn [mbind res_bind]. unfold pf_evidence, platform_of. cbn [pf_ingest].
    rewrite (log_history RecordDigest _ _ _ _ _ _ Hok Hlog Ha). cbn [mbind res_bind].
    unfold loadObservationHistoryRow. rewrite (stored_history _ _ _ _ _ _ _ Hlog Ha). destruct (retained_history _ _ _ _ _ Hok Ha) as [Hb _]. rewrite Hb.
    cbn [mbind res_bind fail_if]. rewrite Hrows. rewrite (counts_pass column (take cap os)); [done|].
    apply Forall_forall. intros t Ht. apply rows_summaries. unfold page in Ht. apply (subseteq_take _ _ t) in Ht.
    apply list_elem_of_In, filter_In in Ht as [Ht _]. by apply list_elem_of_In. }
  split; [|split; [by apply rows_strict|split; [intros t; apply rows_summaries|apply summaries_total]]].
  intros fuel Hfuel. rewrite (pages_walk column (take cap os) Hnd Hrange _ (Z.to_nat limit) Hfetch fuel "" 0) by done.
  rewrite (walk_traces column (take cap os)); try done; [lia|].
  pose proof (traces_fewer column (take cap os)) as Hle. rewrite length_take in Hle. lia.
Qed.
End system.

(** ** Witness: the one record of the example's first run, by its fingerprint *)
Lemma traces_complete_witness : exists k ts, compared_config = Ok k /\
  (exists n, forall fuel, (n < fuel)%nat ->
     list_all (fun after => page ← correlation_page (platform_of k) O_FingerprintID "r1" after 1; Ok (Traces page))
       (fun t => FormatObservationCursor (FirstSequence t)) fuel "" = Ok ts) /\
  StronglySorted (fun t u => FirstSequence t < FirstSequence u) ts.
Proof.
  destruct (on_compared_Ok (fun k => loadRun (pf_runs (platform_of k)) "r1")) as (k & r & E & Hk & Hl); [vm_compute; reflexivity|].
  destruct (@traces_complete Ingest.example_digest Ingest.example_digest_shape example_json k O_FingerprintID "r1" r 1 Hk Hl ltac:(vm_compute; split; discriminate))
    as (log & a & c & os & ts & _ & _ & Hall & Hs & _).
  exists k, ts. split; [exact E|]. split; [|exact Hs]. exists (length os). exact Hall.
Defined.
