(* ===== verification/ScenarioService.v ===== *)
(** * Package platform: the scenario service (scenario_execution_service.go, scenario_execution_list.go)

    Beginning, completing and failing a scenario execution: the control plane validates what
    the client names, checks that a reused reference is one this execution may be compared
    to, compares, and lets the store commit.  The reads of a call and its commit are apart,
    so the theorems say what may come between them: a usable reference stays usable, and a
    completion commits exactly what the whole call, made at that moment, would. *)
From S2P Require Import Prelude GoText GoTime DecisionRecord Domain Paging Recency Environment Observation Behavior RunStore EvidenceStore Ingest.
From S2P Require Import Provenance Cost Frequency Preview FrequencyGate Repeated GateRecord Scenario Catalog ControlPlane.

Open Scope string_scope.
Open Scope Z_scope.

Record ScenarioReference : Type := { Last : bool; SF_ExecutionID : ScenarioExecutionID }.
Definition Recorded (r : ScenarioReference) : bool := Last r || (SF_ExecutionID r <>s "").
Definition mode (r : ScenarioReference) : ScenarioReferenceMode :=
  if Last r then ScenarioReferenceModeLast else if SF_ExecutionID r <>s "" then ScenarioReferenceModeExecution else "".

Record BeginScenarioExecutionRequest : Type := {
  BQ_ID : ScenarioExecutionID;
  BQ_ScenarioName : string;
  BQ_Runs : Z;
  BQ_Scope : ScenarioScope;
  BQ_Reference : ScenarioReference;
  BQ_At : time;
  BQ_Provenance : ExecutionProvenance;
  BQ_CLIVersion : string;
}.
Record CompleteScenarioExecutionRequest : Type := {
  CQ_ID : ScenarioExecutionID;
  CQ_ReferenceRunIDs : list EvaluationRunID;
  CQ_CandidateRunIDs : list EvaluationRunID;
  CQ_Limits : RepeatedEvaluationGateLimits;
  CQ_At : time;
}.

(** ** Scope and usability *)
Definition requireRunInScope (c : catalog) (run : EvaluationRun) (scope : ScenarioScope) (withAgent : bool) : res unit :=
  fail_if (run_environment run <>s SC_Environment scope) [ErrScenarioScope];;
  candidate ← Store_Candidate c (run_candidateID run);
  agent ← Store_Agent c (Candidate_agentID candidate);
  fail_if (Agent_projectID agent <>s SC_ProjectID scope) [ErrScenarioScope];;
  fail_if (withAgent && (Agent_id agent <>s SC_AgentID scope)) [ErrScenarioScope].

(** One recorded repetition of the reference side: its run must still be what it was compared by. *)
Definition usable_repetition (p : platform) (reference : ScenarioExecution) (r : ScenarioRepetition) : res EvaluationRunID :=
  run ← map_err (fun e => if errors_is e ErrStoreNotFound then [ErrScenarioReference] else e) (loadRun (pf_runs p) (SR_RunID r));
  fail_if (status run <>s RunCompleted) [ErrScenarioReference];;
  fail_if (run_profile run <>s SR_BehavioralProfile r) [ErrScenarioReference];;
  map_err (fun _ => [ErrScenarioReference]) (requireRunInScope (pf_catalog p) run (Scenario.scope reference) false);;
  '(_, snapshot) ← comparisonEvidence p run;
  fail_if (negb (snap_complete snapshot)) [ErrIncompleteSnapshot];;
  Ok (SR_RunID r).
Definition usableReference (p : platform) (reference : ScenarioExecution) (runs : Z) (scope : ScenarioScope) : res (list EvaluationRunID) :=
  fail_if (se_status reference <>s ScenarioExecutionCompleted) [ErrScenarioReference];;
  fail_if (negb (se_runs reference =? runs)) [ErrScenarioReference];;
  fail_if ((SC_ProjectID (Scenario.scope reference) <>s SC_ProjectID scope) ||
           (SC_Environment (Scenario.scope reference) <>s SC_Environment scope)) [ErrScenarioReference];;
  let recorded := SideRepetitions reference SideReference in
  fail_if (negb (Z.of_nat (length recorded) =? runs)) [ErrScenarioReference];;
  mapM (usable_repetition p reference) recorded.

Section service.
Context `{json : GateJSON} `{order : MapOrder} `{unicode : Unicode} (pricing : Pricing).

Definition with_scenarios (p : platform) (t : scenario_tables) : platform :=
  {| pf_ingest := pf_ingest p; pf_catalog := pf_catalog p; pf_scenarios := t |}.

(** ** Beginning *)
Definition begin_reference (p : platform) (q : BeginScenarioExecutionRequest) : res (option ScenarioExecution) :=
  if Recorded (BQ_Reference q) then
    reference ← (if Last (BQ_Reference q) then Store_LatestCompletedScenarioExecution (pf_scenarios p) (BQ_ScenarioName q) (BQ_Scope q)
                 else Store_ScenarioExecution (pf_scenarios p) (SF_ExecutionID (BQ_Reference q)));
    usableReference p reference (BQ_Runs q) (BQ_Scope q);;
    Ok (Some reference)
  else Ok None.
(** The execution that is stored, and the reference it reuses. *)
Definition begin_read (p : platform) (q : BeginScenarioExecutionRequest) : res (ScenarioExecution * option ScenarioExecution) :=
  fail_if (Last (BQ_Reference q) && (SF_ExecutionID (BQ_Reference q) <>s "")) [ErrInvalidRepeatedRequest];;
  fail_if (time_is_zero (BQ_At q)) [ErrInvalidTimestamp];;
  NewScenarioExecution (BQ_ID q) (BQ_ScenarioName q) (BQ_Scope q) (BQ_Runs q) (SF_ExecutionID (BQ_Reference q)) (BQ_At q);;
  ExecutionProvenance_validate (BQ_Provenance q);;
  validateCLIVersion (BQ_CLIVersion q);;
  fail_if (Recorded (BQ_Reference q) && negb (bool_decide (EP_Reference (BQ_Provenance q) = no_declaration))) [ErrInvalidRepeatedRequest];;
  reference ← begin_reference p q;
  let referenceID := match reference with Some r => se_id r | None => "" end in
  execution ← NewScenarioExecution (BQ_ID q) (BQ_ScenarioName q) (BQ_Scope q) (BQ_Runs q) referenceID (BQ_At q);
  let referenceSide := match reference with
                       | Some r => ScenarioExecution_Provenance r SideReference
                       | None => ExecutionProvenance_side (BQ_Provenance q) (EP_Reference (BQ_Provenance q))
                       end in
  execution ← withProvenance execution referenceSide (ExecutionProvenance_side (BQ_Provenance q) (EP_Candidate (BQ_Provenance q)));
  execution ← withProducer execution (BQ_CLIVersion q) (mode (BQ_Reference q));
  Ok (execution, reference).
Definition BeginScenarioExecution (p : platform) (q : BeginScenarioExecutionRequest) : res (ScenarioExecution * option ScenarioExecution * platform) :=
  '(execution, reference) ← begin_read p q;
  t ← Store_CreateScenarioExecution (pf_scenarios p) execution;
  Ok (execution, reference, with_scenarios p t).

(** ** Completing *)
Definition reference_runs (p : platform) (execution : ScenarioExecution) (q : CompleteScenarioExecutionRequest) : res (list EvaluationRunID) :=
  if se_reference execution <>s "" then
    fail_if (negb (length (CQ_ReferenceRunIDs q) =? 0)%nat) [ErrInvalidRepeatedRequest];;
    reference ← map_err (fun e => if errors_is e ErrStoreNotFound then [ErrScenarioReference] else e)
                  (Store_ScenarioExecution (pf_scenarios p) (se_reference execution));
    usableReference p reference (se_runs execution) (Scenario.scope execution)
  else
    fail_if (negb (Z.of_nat (length (CQ_ReferenceRunIDs q)) =? se_runs execution)) [ErrInvalidRepeatedRequest];;
    foldM (fun _ id => run ← loadRun (pf_runs p) id; requireRunInScope (pf_catalog p) run (Scenario.scope execution) false) tt (CQ_ReferenceRunIDs q);;
    Ok (CQ_ReferenceRunIDs q).
Definition repetition_of_evidence (r : RepetitionEvidence) : ScenarioRepetition :=
  {| SR_Side := RE_Side r; SR_Index := RE_Index r; SR_RunID := RE_RunID r; SR_BehavioralProfile := RE_BehavioralProfile r |}.
(** Everything up to the store's transaction. *)
Definition complete_read (p : platform) (q : CompleteScenarioExecutionRequest)
    : res (RepeatedEvaluationComparison * list ScenarioRepetition * ScenarioGateRecord) :=
  validateID (CQ_ID q);;
  fail_if (time_is_zero (CQ_At q)) [ErrInvalidTimestamp];;
  execution ← Store_ScenarioExecution (pf_scenarios p) (CQ_ID q);
  fail_if (se_status execution <>s ScenarioExecutionRunning) [ErrScenarioExecutionState];;
  fail_if (negb (Z.of_nat (length (CQ_CandidateRunIDs q)) =? se_runs execution)) [ErrInvalidRepeatedRequest];;
  referenceIDs ← reference_runs p execution q;
  foldM (fun _ id => run ← loadRun (pf_runs p) id; requireRunInScope (pf_catalog p) run (Scenario.scope execution) true) tt (CQ_CandidateRunIDs q);;
  comparison ← compareRepeated pricing p {| ReferenceRunIDs := referenceIDs; CandidateRunIDs := CQ_CandidateRunIDs q; Limits := CQ_Limits q |};
  let comparison := with_sameness comparison
    (newComparisonSameness (ScenarioExecution_Provenance execution SideReference) (ScenarioExecution_Provenance execution SideCandidate)) in
  let repetitions := repetition_of_evidence <$> Repetitions comparison in
  gate ← gateRecord comparison;
  Ok (comparison, repetitions, gate).
Definition CompleteScenarioExecution (p : platform) (q : CompleteScenarioExecutionRequest)
    : res (ScenarioExecution * RepeatedEvaluationComparison * platform) :=
  '(comparison, repetitions, gate) ← complete_read p q;
  '(completed, t) ← Store_CompleteScenarioExecution (ct_projects (pf_catalog p)) (pf_scenarios p) (CQ_ID q) repetitions gate (CQ_At q);
  Ok (completed, comparison, with_scenarios p t).

(** ** Failing, reading, listing *)
Definition FailScenarioExecution (p : platform) (id : ScenarioExecutionID) (at_ : time) : res (ScenarioExecution * platform) :=
  validateID id;;
  fail_if (time_is_zero at_) [ErrInvalidTimestamp];;
  '(e, t) ← Store_FailScenarioExecution (pf_scenarios p) id at_;
  Ok (e, with_scenarios p t).
Definition ScenarioExecution_read (p : platform) (id : ScenarioExecutionID) : res ScenarioExecution :=
  validateID id;; Store_ScenarioExecution (pf_scenarios p) id.
Definition RecentScenarioExecutions (p : platform) (filter : ScenarioExecutionFilter) (after : string) (limit : Z) : res (list RecentScenarioExecution) :=
  ScenarioExecutionFilter_validate filter;;
  fail_if ((limit <? 1) || (MaxListPage <? limit)) [ErrInvalidID];;
  cursor ← ParseRecencyCursor after;
  queryRecentScenarioExecutions (pf_scenarios p) filter cursor limit.

Record ScenarioReferenceCheck : Type := { RK_Execution : ScenarioExecution; Usable : bool }.
Definition CheckScenarioReference (p : platform) (id : ScenarioExecutionID) : res ScenarioReferenceCheck :=
  execution ← ScenarioExecution_read p id;
  match usableReference p execution (se_runs execution) (Scenario.scope execution) with
  | Ok _ => Ok {| RK_Execution := execution; Usable := true |}
  | Err e =>
      if errors_is e ErrScenarioReference || errors_is e ErrIncompleteSnapshot || errors_is e ErrScenarioScope
      then Ok {| RK_Execution := execution; Usable := false |}
      else Err e
  end.
End service.

(** ** What may come between a call's reads and its commit *)
Section system.
Context (RecordDigest : DecisionRecord -> res string).
Context (digest_shape : forall record d, RecordDigest record = Ok d -> validateDigestShape d = Ok tt).
Context `{json : GateJSON} `{order : MapOrder} `{unicode : Unicode} (pricing : Pricing).

Lemma mapM_kept {A B} (f g : A -> res B) l out : (forall x y, x ∈ l -> f x = Ok y -> g x = Ok y) -> mapM f l = Ok out -> mapM g l = Ok out.
Proof.
  revert out. induction l as [|x l IH]; intros out H Hf; [done|]. cbn in Hf |- *. apply bind_Ok in Hf as (y & Hy & Hf). rewrite (H x y) by (done || left).
  cbn. apply bind_Ok in Hf as (ys & Hys & Hf). rewrite (IH ys); [done| |done]. intros x' y' Hx'. apply H. by right.
Qed.
Lemma foldM_unit_kept {A} (f g : A -> res unit) l : (forall x, x ∈ l -> f x = Ok tt -> g x = Ok tt) ->
  foldM (fun _ x => f x) tt l = Ok tt -> foldM (fun _ x => g x) tt l = Ok tt.
Proof.
  induction l as [|x l IH]; intros H Hf; [done|]. cbn in Hf |- *. apply bind_Ok in Hf as ([] & Hx & Hf). rewrite (H x) by (done || left). cbn.
  apply IH; [|done]. intros x' Hx'. apply H. by right.
Qed.
Lemma in_scope_kept c c' run sc agent : catalog_kept c c' -> requireRunInScope c run sc agent = Ok tt -> requireRunInScope c' run sc agent = Ok tt.
Proof.
  intros [Hc Ha]%kept_rows H. unfold requireRunInScope in *. apply bind_unit_iff in H as [-> H]. apply bind_Ok in H as (x & Hx & H).
  apply bind_Ok in H as (y & Hy & H). cbn [mbind res_bind]. rewrite (Hc _ _ Hx). cbn [mbind res_bind]. by rewrite (Ha _ _ Hy).
Qed.

Lemma loaded_id k id r : control_reachable RecordDigest k -> loadRun (pf_runs (platform_of k)) id = Ok r -> run_id r = id.
Proof.
  intros Hk Hl. destruct (reachable_config RecordDigest digest_shape _ _ (control_ingest RecordDigest _ Hk)) as [logs [Ho _]].
  by destruct (sys_ok_run _ _ _ _ _ Ho Hl) as (_ & Hid & _).
Qed.
Lemma finished_load k k' id r : control_reachable RecordDigest k -> rtc (control_step RecordDigest) k k' ->
  loadRun (pf_runs (platform_of k)) id = Ok r -> IsTerminal (status r) = true ->
  loadRun (pf_runs (platform_of k')) id = Ok r /\ comparisonEvidence (platform_of k') r = comparisonEvidence (platform_of k) r.
Proof.
  intros Hk Hkk Hl Ht. pose proof (loaded_id _ _ _ Hk Hl) as <-.
  assert (Hf : frozen (run_id r) (cc_ingest k) (cc_ingest k')) by (apply (control_frozen RecordDigest digest_shape _ _ _ Hk Hkk); by exists r).
  split; [|exact (proj1 (evidence_again (platform_of k) (platform_of k') r Hf))].
  unfold pf_runs in *. cbn [platform_of pf_ingest] in *. by rewrite (frozen_load _ _ _ Hf).
Qed.

Lemma usable_again k k' reference r id : control_reachable RecordDigest k -> rtc (control_step RecordDigest) k k' ->
  usable_repetition (platform_of k) reference r = Ok id -> usable_repetition (platform_of k') reference r = Ok id.
Proof.
  intros Hk Hkk H. unfold usable_repetition in *. apply bind_Ok in H as (run & Hr & H). apply map_err_Ok in Hr.
  apply bind_unit_iff in H as [Hs H]. apply bind_unit_iff in H as [Hp H]. apply bind_unit_iff in H as [Hsc H].
  pose proof Hs as Hs'. apply fail_if_iff, negb_false_iff, String.eqb_eq in Hs'.
  destruct (finished_load _ _ _ _ Hk Hkk Hr ltac:(by rewrite Hs')) as [Hl He]. rewrite Hl. cbn [map_err mbind res_bind]. rewrite Hs, Hp. cbn [mbind res_bind].
  apply map_err_Ok in Hsc. rewrite (in_scope_kept _ (pf_catalog (platform_of k')) _ _ _ (control_kept RecordDigest _ _ Hkk) Hsc).
  cbn [map_err mbind res_bind]. rewrite He. exact H.
Qed.
Lemma reference_again k k' reference runs sc ids : control_reachable RecordDigest k -> rtc (control_step RecordDigest) k k' ->
  usableReference (platform_of k) reference runs sc = Ok ids -> usableReference (platform_of k') reference runs sc = Ok ids.
Proof.
  intros Hk Hkk H. unfold usableReference in *. repeat (apply bind_unit_iff in H as [-> H]; cbn [mbind res_bind]).
  eapply mapM_kept; [|exact H]. intros r id _. by apply usable_again.
Qed.
(** The runs of a usable reference have completed. *)
Lemma usable_completed p reference runs sc ids : usableReference p reference runs sc = Ok ids ->
  ids = SR_RunID <$> SideRepetitions reference SideReference /\ Z.of_nat (length ids) = runs /\
  forall r, r ∈ SideRepetitions reference SideReference -> exists run, loadRun (pf_runs p) (SR_RunID r) = Ok run /\ status run = RunCompleted /\
    run_profile run = SR_BehavioralProfile r /\ run_environment run = SC_Environment (Scenario.scope reference).
Proof.
  intros H. unfold usableReference in H. do 4 (apply bind_unit_iff in H as [? H]).
  match goal with H : fail_if (negb (Z.of_nat _ =? runs)) _ = _ |- _ => apply fail_if_iff, negb_false_iff, Z.eqb_eq in H; rename H into Hlen end.
  assert (Hall : forall r id, usable_repetition p reference r = Ok id -> id = SR_RunID r /\ exists run, loadRun (pf_runs p) (SR_RunID r) = Ok run /\ status run = RunCompleted /\
    run_profile run = SR_BehavioralProfile r /\ run_environment run = SC_Environment (Scenario.scope reference)).
  { intros r id Hr. unfold usable_repetition in Hr. apply bind_Ok in Hr as (run & Hl%map_err_Ok & Hr). apply bind_unit_iff in Hr as [Hs%fail_if_iff%negb_false_iff%String.eqb_eq Hr].
    apply bind_unit_iff in Hr as [Hp%fail_if_iff%negb_false_iff%String.eqb_eq Hr]. apply bind_unit_iff in Hr as [Hsc%map_err_Ok Hr].
    apply bind_Ok in Hr as ([a s] & _ & Hr). apply bind_unit_iff in Hr as [_ [= <-]]. split; [done|]. exists run. split; [done|]. split; [done|]. split; [done|].
    unfold requireRunInScope in Hsc. by apply bind_unit_iff in Hsc as [He%fail_if_iff%negb_false_iff%String.eqb_eq _]. }
  apply mapM_res_Forall2 in H. assert (E : ids = SR_RunID <$> SideRepetitions reference SideReference).
  { clear -H Hall. induction H as [|r id l ids Hr _ IH]; [done|]. cbn. destruct (Hall _ _ Hr) as [-> _]. by rewrite IH. }
  split; [done|]. split; [by rewrite E, length_fmap|]. intros r Hr. apply list_elem_of_lookup in Hr as [i Hi].
  destruct (Forall2_lookup_l _ _ _ _ _ H Hi) as (id & _ & Hu). by destruct (Hall _ _ Hu).
Qed.

(** An execution read again keeps what it was begun with. *)
Lemma execution_again k k' id e : control_reachable RecordDigest k -> rtc (control_step RecordDigest) k k' ->
  Store_ScenarioExecution (pf_scenarios (platform_of k)) id = Ok e ->
  exists e', Store_ScenarioExecution (pf_scenarios (platform_of k')) id = Ok e' /\ keeps e e'.
Proof.
  intros Hk Hkk H. destruct (executions_kept RecordDigest _ _ Hk Hkk) as (s & s' & I & I' & Hkeep). unfold Store_ScenarioExecution in *. cbn [platform_of pf_scenarios] in *.
  apply bind_unit_iff in H as [-> H]. cbn [mbind res_bind]. rewrite (implements_load _ _ _ I) in H. rewrite (implements_load _ _ _ I').
  unfold spec_load in *. destruct (sp_executions s !! id) as [x|] eqn:E; [|done]. injection H as ->. destruct (Hkeep _ _ E) as (x' & -> & Hx). by exists x'.
Qed.
Lemma committed_running t s id e : implements t s -> Store_ScenarioExecution t id = Ok e -> forall (projects : gmap ProjectID string) reps g at_ out,
  Store_CompleteScenarioExecution projects t id reps g at_ = Ok out -> se_status e = ScenarioExecutionRunning.
Proof.
  intros I He projects reps g at_ out H. unfold Store_ScenarioExecution, Store_CompleteScenarioExecution in *. apply bind_unit_iff in H as [_ H]. apply bind_unit_iff in He as [_ He].
  rewrite (implements_load _ _ _ I) in He. unfold spec_load in He. destruct (sp_executions s !! id) as [x|] eqn:E; [|done]. injection He as ->.
  unfold completeScenarioExecutionTx in H. rewrite (load_some _ _ _ _ I E) in H. cbn [mbind res_bind] in H.
  apply bind_unit_iff in H as [_ H]. apply bind_unit_iff in H as [_ H]. apply bind_Ok in H as (next & Hn & _). apply complete_inv in Hn as (Hst & _). exact Hst.
Qed.

(** *** A call's commit is a step of the system *)
Definition committed (k : control_config) (t : scenario_tables) : control_config :=
  {| cc_ingest := cc_ingest k; cc_flights := cc_flights k; cc_edits := cc_edits k; cc_scenarios := t; cc_calls := S (cc_calls k) |}.

Lemma begin_begun p q e r : begin_read p q = Ok (e, r) -> begun e.
Proof.
  intros H. unfold begin_read in H. do 2 (apply bind_unit_iff in H as [_ H]). apply bind_Ok in H as (? & _ & H). do 3 (apply bind_unit_iff in H as [_ H]).
  apply bind_Ok in H as (reference & _ & H). apply bind_Ok in H as (e1 & H1 & H). apply bind_Ok in H as (e2 & H2 & H). apply bind_Ok in H as (e3 & H3 & [= <- _]).
  by eapply begun_producer, H3; eapply begun_provenance, H2; eapply begun_new.
Qed.
Lemma begin_step k q e r p' : Z.of_nat (cc_calls k) < max_i64 -> BeginScenarioExecution (platform_of k) q = Ok (e, r, p') ->
  exists t, p' = platform_of (committed k t) /\ control_step RecordDigest k (committed k t).
Proof.
  intros Hb H. unfold BeginScenarioExecution in H. apply bind_Ok in H as ([e' r'] & Hr & H). apply bind_Ok in H as (t & Ht & [= -> -> <-]).
  exists t. split; [done|]. pose proof (cs_scenario RecordDigest k (OpCreate e) (begin_begun _ _ _ _ Hr) Hb) as Hs.
  cbn [apply_op] in Hs. cbn [platform_of pf_scenarios] in Ht. by rewrite Ht in Hs.
Qed.

(** The gate of a completion is one its types hold. *)
Lemma complete_read_made k q x reps g : control_reachable RecordDigest k -> GateRecord.limits_range (CQ_Limits q) ->
  complete_read pricing (platform_of k) q = Ok (x, reps, g) -> gate_made g.
Proof.
  intros Hk Hl H. unfold complete_read in H. do 2 (apply bind_unit_iff in H as [_ H]). apply bind_Ok in H as (e & _ & H). do 2 (apply bind_unit_iff in H as [_ H]).
  apply bind_Ok in H as (ids & _ & H). apply bind_Ok in H as ([] & _ & H). apply bind_Ok in H as (c & Hc & H). apply bind_Ok in H as (g' & Hg & [= <- _ <-]).
  unfold compareRepeated in Hc. apply bind_Ok in Hc as ([c' inputs] & Hc & [= ->]). pose proof Hg as Hnew.
  destruct (compared_inputs RecordDigest digest_shape pricing _ _ _ _ Hk Hc) as (runs & r0 & [_ _ _ _ Hok [Hr1 Hr2] Hr0 (cost & _ & ->)]).
  destruct (reduceRepeated_inv _ _ _ _ Hr0 Hr2 Hok) as (d & c0 & Hd & Hc0 & ->). unfold gateRecord in Hg, Hnew. cbn [with_sameness with_cost RX_Runs RX_Limits RX_Gate] in Hg, Hnew.
  destruct (with_suggestions_fields c0) as (_ & E2 & E3 & E4 & _). rewrite E2, E3, E4 in Hg.
  split; [|by do 5 eexists]. exact (reduced_range _ _ _ _ _ _ Hr1 Hr2 Hok Hd Hl Hc0 Hg).
Qed.
(** What a completion commits reads back. *)
Lemma complete_step k q reps g e t : control_reachable RecordDigest k -> Z.of_nat (cc_calls k) < max_i64 -> gate_made g -> validateID (CQ_ID q) = Ok tt ->
  Store_CompleteScenarioExecution (ct_projects (pf_catalog (platform_of k))) (pf_scenarios (platform_of k)) (CQ_ID q) reps g (CQ_At q) = Ok (e, t) ->
  control_step RecordDigest k (committed k t) /\ Store_ScenarioExecution t (CQ_ID q) = Ok e.
Proof.
  intros Hk Hb Hg Hid H. split.
  - pose proof (cs_scenario RecordDigest k (OpComplete (CQ_ID q) reps g (CQ_At q)) Hg Hb) as Hs. cbn [apply_op] in Hs. cbn [platform_of pf_scenarios pf_catalog] in H.
    by rewrite H in Hs.
  - assert (N : CQ_ID q <> "") by (intros E; rewrite E in Hid; discriminate). destruct (control_scenarios RecordDigest _ Hk) as (_ & s & Hs & Hl).
    unfold Store_CompleteScenarioExecution, Store_ScenarioExecution in *. rewrite (proj2 (String.eqb_neq _ _) N) in *. cbn [fail_if mbind res_bind] in *.
    pose proof (implements_complete (ct_projects (es_catalog (cc_edits k))) (cc_scenarios k) s (CQ_ID q) reps g (CQ_At q) Hs Hg ltac:(lia)) as A.
    cbn [platform_of pf_scenarios pf_catalog] in H. rewrite H in A. apply agree_inv_l in A as ([e' s'] & Es & E & I).
    cbn [fst snd] in E, I. subst e'. rewrite (implements_load _ _ _ I). unfold spec_complete in Es. apply bind_Ok in Es as (e0 & _ & Es).
    apply bind_unit_iff in Es as [_ Es]. apply bind_Ok in Es as (next & _ & [= -> <-]). unfold spec_load. cbn [sp_executions]. by rewrite lookup_insert_eq.
Qed.

(** ** Properties *)

(** C13: a reference execution that may be reused stays reusable: whatever ingestions, lifecycle
    changes, edits, promotions and other executions come after, the same execution reads back,
    is usable for the same runs, and each of those runs has still completed, under the profile
    it was recorded with and in the execution's environment - so what an execution was begun
    against is what it is compared to. *)
Theorem reference_stays_usable k k' id e runs sc ids : control_reachable RecordDigest k -> rtc (control_step RecordDigest) k k' ->
  Store_ScenarioExecution (pf_scenarios (platform_of k)) id = Ok e -> usableReference (platform_of k) e runs sc = Ok ids ->
  Store_ScenarioExecution (pf_scenarios (platform_of k')) id = Ok e /\ usableReference (platform_of k') e runs sc = Ok ids /\
  ids = SR_RunID <$> SideRepetitions e SideReference /\ Z.of_nat (length ids) = runs /\
  forall r, r ∈ SideRepetitions e SideReference -> exists run, loadRun (pf_runs (platform_of k')) (SR_RunID r) = Ok run /\ status run = RunCompleted /\
    run_profile run = SR_BehavioralProfile r /\ run_environment run = SC_Environment (Scenario.scope e).
Proof.
  intros Hk Hkk He Hu. pose proof (reference_again _ _ _ _ _ _ Hk Hkk Hu) as Hu'. split; [|split; [done|by eapply usable_completed]].
  destruct (execution_again _ _ _ _ Hk Hkk He) as (e' & He' & Hkeep). rewrite (kp_terminal _ _ Hkeep) in He'; [done|].
  unfold usableReference in Hu. apply bind_unit_iff in Hu as [Hs%fail_if_iff%negb_false_iff%String.eqb_eq _]. by rewrite Hs.
Qed.

(** The runs a completion names, or reuses, have finished. *)
Definition named_finished (p : platform) (q : CompleteScenarioExecutionRequest) : Prop :=
  forall id run, id ∈ (CQ_ReferenceRunIDs q ++ CQ_CandidateRunIDs q)%list -> loadRun (pf_runs p) id = Ok run -> IsTerminal (status run) = true.

Lemma scope_checks_again k k' sc agent ids : control_reachable RecordDigest k -> rtc (control_step RecordDigest) k k' ->
  (forall id run, id ∈ ids -> loadRun (pf_runs (platform_of k)) id = Ok run -> IsTerminal (status run) = true) ->
  foldM (fun _ id => run ← loadRun (pf_runs (platform_of k)) id; requireRunInScope (pf_catalog (platform_of k)) run sc agent) tt ids = Ok tt ->
  foldM (fun _ id => run ← loadRun (pf_runs (platform_of k')) id; requireRunInScope (pf_catalog (platform_of k')) run sc agent) tt ids = Ok tt.
Proof.
  intros Hk Hkk Ht. apply (foldM_unit_kept (fun id => run ← loadRun (pf_runs (platform_of k)) id; requireRunInScope (pf_catalog (platform_of k)) run sc agent)
    (fun id => run ← loadRun (pf_runs (platform_of k')) id; requireRunInScope (pf_catalog (platform_of k')) run sc agent)).
  intros id Hid H. apply bind_Ok in H as (run & Hl & H). destruct (finished_load _ _ _ _ Hk Hkk Hl (Ht _ _ Hid Hl)) as [-> _]. cbn [mbind res_bind].
  by apply (in_scope_kept _ _ _ _ _ (control_kept RecordDigest _ _ Hkk)).
Qed.
Lemma reference_runs_again k k' e e' q ids : control_reachable RecordDigest k -> rtc (control_step RecordDigest) k k' -> keeps e e' ->
  named_finished (platform_of k) q -> reference_runs (platform_of k) e q = Ok ids ->
  reference_runs (platform_of k') e' q = Ok ids /\
  forall id run, id ∈ ids -> loadRun (pf_runs (platform_of k)) id = Ok run -> IsTerminal (status run) = true.
Proof.
  intros Hk Hkk K Hn H. unfold reference_runs in *. rewrite (kp_reference _ _ K), (kp_runs _ _ K), (kp_scope _ _ K).
  destruct (se_reference e <>s "")%go.
  - apply bind_unit_iff in H as [-> H]. cbn [mbind res_bind]. apply bind_Ok in H as (r & Hr%map_err_Ok & H).
    destruct (execution_again _ _ _ _ Hk Hkk Hr) as (r' & Hr' & Kr). rewrite Hr'. cbn [map_err mbind res_bind].
    assert (Hs : se_status r = ScenarioExecutionCompleted).
    { unfold usableReference in H. by apply bind_unit_iff in H as [Hs%fail_if_iff%negb_false_iff%String.eqb_eq _]. }
    rewrite (kp_terminal _ _ Kr) by by rewrite Hs. split; [by apply (reference_again _ _ _ _ _ _ Hk Hkk)|].
    intros id run Hid Hl. destruct (usable_completed _ _ _ _ _ H) as (E & _ & Hall). rewrite E in Hid. apply list_elem_of_fmap in Hid as (x & -> & Hx).
    destruct (Hall x Hx) as (run' & Hl' & Hs' & _). rewrite Hl in Hl'. injection Hl' as <-. by rewrite Hs'.
  - apply bind_unit_iff in H as [-> H]. cbn [mbind res_bind]. apply bind_Ok in H as ([] & Hf & [= <-]).
    assert (Ht : forall id run, id ∈ CQ_ReferenceRunIDs q -> loadRun (pf_runs (platform_of k)) id = Ok run -> IsTerminal (status run) = true).
    { intros id run Hid. apply Hn. set_solver. }
    rewrite (scope_checks_again _ _ _ _ _ Hk Hkk Ht Hf). done.
Qed.

(** The reads of a completion, in the state it commits in. *)
Lemma complete_read_again k1 k q x reps g e t : control_reachable RecordDigest k1 -> rtc (control_step RecordDigest) k1 k ->
  named_finished (platform_of k1) q -> complete_read pricing (platform_of k1) q = Ok (x, reps, g) ->
  Store_CompleteScenarioExecution (ct_projects (pf_catalog (platform_of k))) (pf_scenarios (platform_of k)) (CQ_ID q) reps g (CQ_At q) = Ok (e, t) ->
  complete_read pricing (platform_of k) q = Ok (x, reps, g).
Proof.
  intros Hk Hkk Hn Hr Hc.
  unfold complete_read in Hr |- *. apply bind_unit_iff in Hr as [-> Hr]. cbn [mbind res_bind]. apply bind_unit_iff in Hr as [-> Hr]. cbn [mbind res_bind].
  apply bind_Ok in Hr as (e1 & He1 & Hr). destruct (execution_again _ _ _ _ Hk Hkk He1) as (e2 & He2 & K). rewrite He2. cbn [mbind res_bind].
  assert (Hk' : control_reachable RecordDigest k) by (unfold control_reachable; by etransitivity).
  destruct (control_scenarios RecordDigest _ Hk') as (_ & s & Hs & _).
  pose proof (committed_running _ _ _ _ Hs He2 _ _ _ _ _ Hc) as Hrun. rewrite Hrun. cbn [fail_if negb mbind res_bind].
  apply bind_unit_iff in Hr as [_ Hr]. rewrite (kp_runs _ _ K). apply bind_unit_iff in Hr as [-> Hr]. cbn [mbind res_bind].
  apply bind_Ok in Hr as (ids & Hids & Hr). destruct (reference_runs_again _ _ _ _ _ _ Hk Hkk K Hn Hids) as [-> Hterm]. cbn [mbind res_bind].
  apply bind_Ok in Hr as ([] & Hf & Hr). rewrite (kp_scope _ _ K).
  assert (Ht : forall id run, id ∈ CQ_CandidateRunIDs q -> loadRun (pf_runs (platform_of k1)) id = Ok run -> IsTerminal (status run) = true).
  { intros id run Hid. apply Hn. set_solver. }
  rewrite (scope_checks_again _ _ _ _ _ Hk Hkk Ht Hf). cbn [mbind res_bind].
  apply bind_Ok in Hr as (c & Hcmp & Hr). unfold compareRepeated in Hcmp |- *. apply bind_Ok in Hcmp as (out & Hout & Hcmp).
  assert (Hall : forall n r, n ∈ repetition_order {| ReferenceRunIDs := ids; CandidateRunIDs := CQ_CandidateRunIDs q; Limits := CQ_Limits q |} ->
    loadRun (pf_runs (platform_of k1)) (snd n) = Ok r -> IsTerminal (status r) = true).
  { intros n r Hin. unfold repetition_order in Hin. cbn [ReferenceRunIDs CandidateRunIDs] in Hin. rewrite elem_of_app, !elem_of_lookup_imap in Hin.
    destruct Hin as [(i & id & -> & Hi)|(i & id & -> & Hi)]; cbn [snd]; apply list_elem_of_lookup_2 in Hi; [by apply Hterm|by apply Ht]. }
  rewrite (compare_inputs_again RecordDigest digest_shape pricing k1 k _ _ Hk Hkk Hall Hout). cbn [mbind res_bind]. rewrite Hcmp. cbn [mbind res_bind].
  unfold ScenarioExecution_Provenance in *. rewrite (kp_provenance _ _ K). exact Hr.
Qed.

(** C12: the completion of a scenario execution is atomic: whatever comes between a call's reads -
    of the execution, the reference it reuses, the runs, their evidence and comparison - and its
    commit, as long as the runs it names had finished, the whole call made in the state it
    commits in has the same outcome and moves the system in one step: the same comparison, and
    the execution completed with the repetitions and gate of that comparison, which reads back. *)
Theorem completion_linearizable k1 k q x reps g e t : control_reachable RecordDigest k1 -> rtc (control_step RecordDigest) k1 k ->
  Z.of_nat (cc_calls k) < max_i64 -> GateRecord.limits_range (CQ_Limits q) ->
  named_finished (platform_of k1) q -> complete_read pricing (platform_of k1) q = Ok (x, reps, g) ->
  Store_CompleteScenarioExecution (ct_projects (pf_catalog (platform_of k))) (pf_scenarios (platform_of k)) (CQ_ID q) reps g (CQ_At q) = Ok (e, t) ->
  CompleteScenarioExecution pricing (platform_of k) q = Ok (e, x, platform_of (committed k t)) /\ control_step RecordDigest k (committed k t) /\
  Store_ScenarioExecution t (CQ_ID q) = Ok e /\
  se_status e = ScenarioExecutionCompleted /\ se_verdict e = rg_verdict (RX_Gate x) /\
  (se_repetitions e = repetition_of_evidence <$> Repetitions x) /\ gateRecord x = Ok (gate e).
Proof.
  intros Hk Hkk Hb Hlim Hn Hr Hc. pose proof (complete_read_again _ _ _ _ _ _ _ _ Hk Hkk Hn Hr Hc) as Hr'. unfold CompleteScenarioExecution. rewrite Hr'. cbn [mbind res_bind].
  rewrite Hc. split; [done|]. assert (Hk' : control_reachable RecordDigest k) by (unfold control_reachable; by etransitivity).
  assert (Hid : validateID (CQ_ID q) = Ok tt) by (unfold complete_read in Hr; by apply bind_unit_iff in Hr as [? _]).
  destruct (complete_step _ _ _ _ _ _ Hk' Hb (complete_read_made _ _ _ _ _ Hk' Hlim Hr') Hid Hc) as [Hs Hread]. split; [done|]. split; [done|].
    assert (Hx : reps = repetition_of_evidence <$> Repetitions x /\ gateRecord x = Ok g).
    { unfold complete_read in Hr'. repeat match type of Hr' with (_ ;; _) = _ => apply bind_unit_iff in Hr' as [_ Hr'] | (_ ≫= _) = _ => apply bind_Ok in Hr' as (? & ? & Hr') end.
      by injection Hr' as <- <- <-. }
    destruct Hx as [Hreps Hg]. unfold Store_CompleteScenarioExecution, completeScenarioExecutionTx in Hc. apply bind_unit_iff in Hc as [_ Hc].
    apply bind_Ok in Hc as (current & _ & Hc). apply bind_unit_iff in Hc as [_ Hc]. apply bind_unit_iff in Hc as [_ Hc].
    apply bind_Ok in Hc as (next & Hnext & Hc). destruct (executions _ !! _); [|done]. apply bind_unit_iff in Hc as [_ Hc]. apply bind_unit_iff in Hc as [_ Hc].
    apply bind_Ok in Hc as (m & _ & [= <- _]). destruct (complete_inv _ _ _ _ _ _ Hnext) as (_ & _ & _ & _ & _ & _ & _ & _ & _ & _ & _ & _ & -> & _ & _ & -> & -> & ->).
    rewrite Hreps. assert (rg_verdict (sg_gate g) = rg_verdict (RX_Gate x)) as ->; [|done].
    unfold gateRecord, NewScenarioGateRecord in Hg. repeat (apply bind_unit_iff in Hg as [_ Hg]). by injection Hg as <-.
Qed.
End system.

(** ** Witnesses *)
Lemma example_limits_range : GateRecord.limits_range Repeated.example_limits.
Proof.
  split; try (unfold Repeated.example_limits; cbn; ulia); try (split; [cbn; ulia|done]). intros ts [= <-]. apply Forall_singleton. cbn. ulia.
Qed.
(** An execution begun after the two histories, and completed with the runs they are of. *)
Definition example_place : ScenarioScope := {| SC_ProjectID := "acme"; SC_AgentID := "bot"; SC_Environment := "prod" |}.
Definition example_begin : BeginScenarioExecutionRequest :=
  {| BQ_ID := "x1"; BQ_ScenarioName := "checkout"; BQ_Runs := 1; BQ_Scope := example_place; BQ_Reference := {| Last := false; SF_ExecutionID := "" |};
     BQ_At := at_second 5; BQ_Provenance := {| EP_ScenarioDigest := ""; EP_InputsDeclared := false; EP_InputDigest := ""; EP_Reference := no_declaration; EP_Candidate := no_declaration |};
     BQ_CLIVersion := "" |}.
Definition example_complete : CompleteScenarioExecutionRequest :=
  {| CQ_ID := "x1"; CQ_ReferenceRunIDs := ["r1"]; CQ_CandidateRunIDs := ["r2"]; CQ_Limits := Repeated.example_limits; CQ_At := at_second 6 |}.

(** The calls up to the store's transaction, the text of the record not formed. *)
Definition example_calls (k : control_config) : res (ScenarioExecution * platform * RepeatedEvaluationComparison * list ScenarioRepetition * ScenarioGateRecord * list EvaluationRunID) :=
  fail_if (negb (cc_calls k =? 0)%nat) [];;
  '(e, _, p) ← @BeginScenarioExecution example_json (platform_of k) example_begin;
  '(x, reps, g) ← @complete_read example_json key_order ascii_only example_pricing p example_complete;
  next ← ScenarioExecution_complete e reps g 1 (CQ_At example_complete);
  Scenario.lockProject (ct_projects (pf_catalog p)) (SC_ProjectID (Scenario.scope e));;
  fail_if (se_id e <>s "x1") [];;
  foldM (fun _ id => run ← loadRun (pf_runs p) id; fail_if (negb (IsTerminal (status run))) []) tt ["r1"; "r2"];;
  ids ← usableReference p next 1 example_place;
  Ok (e, p, x, reps, g, ids).

#[local] Notation reachable := (@control_reachable Ingest.example_digest example_json).
#[local] Notation steps := (rtc (@control_step Ingest.example_digest example_json)).
#[local] Notation Complete k reps g := (@Store_CompleteScenarioExecution example_json _ (ct_projects (pf_catalog (platform_of k)))
  (pf_scenarios (platform_of k)) "x1" reps g (at_second 6)).

Lemma example_completion : exists k x reps g e t ids, reachable k /\ cc_calls k = 1%nat /\ named_finished (platform_of k) example_complete /\
  @complete_read example_json key_order ascii_only example_pricing (platform_of k) example_complete = Ok (x, reps, g) /\
  Complete k reps g = Ok (e, t) /\ usableReference (platform_of (committed k t)) e 1 example_place = Ok ids.
Proof.
  destruct (on_compared_Ok example_calls) as (k0 & [[[[[e0 p] x] reps] g] ids] & _ & Hk0 & Hf); [vm_compute; reflexivity|]. unfold example_calls in Hf.
  apply bind_unit_iff in Hf as [Hc Hf]. apply fail_if_iff, negb_false_iff, Nat.eqb_eq in Hc. apply bind_Ok in Hf as ([[e' r] p'] & Hb & Hf).
  apply bind_Ok in Hf as ([[x' reps'] g'] & Hr & Hf). apply bind_Ok in Hf as (next & Hnext & Hf). apply bind_unit_iff in Hf as [Hlock Hf].
  apply bind_unit_iff in Hf as [Hid Hf]. apply fail_if_iff, negb_false_iff, String.eqb_eq in Hid. apply bind_Ok in Hf as ([] & Hterm & Hf).
  apply bind_Ok in Hf as (ids' & Hids & [= -> -> -> -> -> ->]).
  destruct (@begin_step Ingest.example_digest example_json k0 example_begin e0 r p) as (t0 & -> & Hstep); [rewrite Hc; reflexivity|exact Hb|].
  assert (Hk : reachable (committed k0 t0)) by exact (rtc_r _ _ _ Hk0 Hstep).
  assert (Hg : gate_made g) by exact (@complete_read_made Ingest.example_digest Ingest.example_digest_shape example_json key_order ascii_only
    example_pricing _ example_complete _ _ _ Hk example_limits_range Hr).
  unfold BeginScenarioExecution in Hb. apply bind_Ok in Hb as ([e1 r1] & He & Hb). apply bind_Ok in Hb as (t1 & Ht & Hb). injection Hb as E1 _ E2. subst e1 t1.
  destruct (@control_scenarios Ingest.example_digest example_json _ Hk0) as (_ & s0 & Hs0 & Hl0). rewrite Hc in Hl0.
  destruct (sp_log s0) eqn:El; [|cbn in Hl0; lia].
  pose proof (@implements_create example_json _ _ _ Hs0 (begin_begun _ _ _ _ He)) as A. cbn [platform_of pf_scenarios] in Ht.
  unfold Store_CreateScenarioExecution in Ht. rewrite Ht in A. apply agree_inv_l in A as (s1 & Hs1 & I). unfold spec_create in Hs1.
  do 2 (apply bind_unit_iff in Hs1 as [_ Hs1]). apply bind_Ok in Hs1 as (key & _ & Hs1). apply bind_unit_iff in Hs1 as [_ [= <-]]. rewrite Hid, El in I.
  pose proof (@implements_complete example_json _ (ct_projects (pf_catalog (platform_of (committed k0 t0)))) t0 _ "x1" reps g (at_second 6) I Hg eq_refl) as A.
  unfold spec_complete, spec_load in A. cbn [sp_executions] in A. rewrite lookup_insert_eq in A. cbn [mbind res_bind] in A. rewrite Hlock in A.
  cbn [mbind res_bind] in A. change (Z.of_nat (length (log_where _ _)) + 1) with 1 in A. cbn [CQ_At example_complete] in Hnext. rewrite Hnext in A.
  apply agree_inv in A as ([e2 t2] & Hc2 & E2 & _). cbn [fst] in E2. subst e2. exists (committed k0 t0), x, reps, g, next, t2, ids.
  split; [exact Hk|]. split; [cbn; by rewrite Hc|]. split; [|split; [exact Hr|split; [exact Hc2|exact Hids]]].
  cbn [foldM] in Hterm. apply bind_Ok in Hterm as ([] & H1 & Hterm). apply bind_Ok in Hterm as ([] & H2 & _).
  apply bind_Ok in H1 as (run1 & L1 & H1). apply bind_Ok in H2 as (run2 & L2 & H2). apply fail_if_iff, negb_false_iff in H1, H2.
  intros id run Hin Hl. cbn [example_complete CQ_ReferenceRunIDs CQ_CandidateRunIDs app] in Hin. rewrite !elem_of_cons, elem_of_nil in Hin.
  destruct Hin as [->|[->|[]]]; [rewrite L1 in Hl|rewrite L2 in Hl]; by injection Hl as <-.
Qed.

Lemma completion_linearizable_witness : exists k x reps g e t,
  @complete_read example_json key_order ascii_only example_pricing (platform_of k) example_complete = Ok (x, reps, g) /\
  @CompleteScenarioExecution example_json key_order ascii_only example_pricing (platform_of k) example_complete = Ok (e, x, platform_of (committed k t)) /\
  se_status e = ScenarioExecutionCompleted /\ se_verdict e = rg_verdict (RX_Gate x).
Proof.
  destruct example_completion as (k & x & reps & g & e & t & ids & Hk & Hc & Hn & Hr & Hs & _).
  assert (Hb : Z.of_nat (cc_calls k) < max_i64) by (rewrite Hc; reflexivity).
  destruct (@completion_linearizable Ingest.example_digest Ingest.example_digest_shape example_json key_order ascii_only example_pricing
    k k example_complete x reps g e t Hk (reflexivity _) Hb example_limits_range Hn Hr Hs) as (H1 & _ & _ & H2 & H3 & _).
  exists k, x, reps, g, e, t. exact (conj Hr (conj H1 (conj H2 H3))).
Defined.

Lemma reference_stays_usable_witness : exists k e ids, reachable k /\
  @Store_ScenarioExecution example_json (pf_scenarios (platform_of k)) "x1" = Ok e /\ usableReference (platform_of k) e 1 example_place = Ok ids /\
  Z.of_nat (length ids) = 1.
Proof.
  destruct example_completion as (k & x & reps & g & e & t & ids & Hk & Hc & Hn & Hr & Hs & Hu).
  assert (Hb : Z.of_nat (cc_calls k) < max_i64) by (rewrite Hc; reflexivity).
  assert (Hg : gate_made g) by exact (@complete_read_made Ingest.example_digest Ingest.example_digest_shape example_json key_order ascii_only
    example_pricing k example_complete x reps g Hk example_limits_range Hr).
  destruct (@complete_step Ingest.example_digest example_json k example_complete reps g e t Hk Hb Hg eq_refl Hs) as [Hstep Hread].
  assert (Hk2 : reachable (committed k t)) by exact (rtc_r _ _ _ Hk Hstep).
  destruct (@reference_stays_usable Ingest.example_digest Ingest.example_digest_shape example_json (committed k t) (committed k t) "x1" e 1
    example_place ids Hk2 (reflexivity _) Hread Hu) as (H1 & H2 & _ & H3 & _).
  exists (committed k t), e, ids. exact (conj Hk2 (conj H1 (conj H2 H3))).
Defined.
