(* ===== verification/RunServer.v ===== *)
(** * The wire contract of one evaluation run

    What the collector and the control plane exchange about one run: the ingest envelope,
    the replies of the three routes, and the interface [RunServer] with the laws a client
    may rely on.  [IngestApi] implements it; [Delivery] is proved against it. *)
From S2P Require Import Prelude GoText GoTime Event DecisionRecord.

Open Scope string_scope.
Open Scope Z_scope.

(** The envelope of one record, as text; a field the JSON omits is [""] or [None]. *)
Record ingestEnvelope : Type := {
  Env_Version : string;
  Env_Sequence : string;
  Env_BehavioralProfile : string;
  Env_Fidelity : string;
  Env_BehaviorLayer : string;
  Env_HTTPStatusCode : option string;
  Env_TokensInput : option string;
  Env_TokensOutput : option string;
  Env_TokensUnsplit : option string;
  Env_Record : DecisionRecord;
}.

Definition WireVersion : string := "1".

(** The fields of a reply the client reads; an absent one is [""]. *)
Record response_body : Type := {
  Body_Disposition : string;
  Body_NextSequence : string;
  Body_Status : string;
  Body_Code : string;
}.
(** A reply: its status, and its body when that is JSON. *)
Record response : Type := { Resp_Status : Z; Resp_Body : option response_body }.

Definition ingest_reply (disposition : string) (next : Z) : response :=
  {| Resp_Status := 200;
     Resp_Body := Some {| Body_Disposition := disposition; Body_NextSequence := format_uint 10 next;
                          Body_Status := ""; Body_Code := "" |} |}.
Definition state_reply (next : Z) : response := ingest_reply "" next.
Definition progress_reply (status : string) (next : Z) : response :=
  {| Resp_Status := 200;
     Resp_Body := Some {| Body_Disposition := ""; Body_NextSequence := format_uint 10 next;
                          Body_Status := status; Body_Code := "" |} |}.

(** The routes of one run: POST records (at a time of the server's clock), GET
    ingest-state, GET progress. *)
Class RunServer (St : Type) : Type := {
  post_record : time -> St -> ingestEnvelope -> St * response;
  get_ingest_state : St -> response;
  get_progress : St -> response;
}.

(** Records whose time the platform's arithmetic is exact for. *)
Definition after_year_1 (record : DecisionRecord) : Prop := 0 < instant (DR_Timestamp record).

(** The log of a run is what it has counted, in order.  [same_record] is what the server
    recognizes a retry by, [sv_env] whatever else may happen to the server. *)
Class RunServerLaws (St : Type) `{RunServer St} : Type := {
  sv_log : St -> list DecisionRecord -> Prop;
  sv_env : St -> St -> Prop;
  same_record : DecisionRecord -> DecisionRecord -> Prop;
  sv_running : string -> St -> Prop; (* running, under this behavioral profile *)

  same_record_refl r : same_record r r;
  log_small s l : sv_log s l -> Z.of_nat (length l) < 2 ^ 53;
  log_length s l l' : sv_log s l -> sv_log s l' -> length l = length l';
  env_log s s' l : sv_env s s' -> sv_log s l -> sv_log s' l;

  (** A record is appended at the next sequence, recognized at the last, or refused;
      only the first changes anything. *)
  post_log now s l env s' reply :
    sv_log s l -> Z.of_nat (length l) + 1 < 2 ^ 53 -> after_year_1 (Env_Record env) ->
    post_record now s env = (s', reply) ->
    (sv_log s' (l ++ [Env_Record env]) /\ Env_Sequence env = format_uint 10 (Z.of_nat (length l) + 1) /\
     reply = ingest_reply "applied" (Z.of_nat (length l) + 2)) \/
    (s' = s /\ Env_Sequence env = format_uint 10 (Z.of_nat (length l)) /\
     reply = ingest_reply "replayed" (Z.of_nat (length l) + 1) /\
     exists l0 r0, l = (l0 ++ [r0])%list /\ same_record r0 (Env_Record env)) \/
    (s' = s /\ 400 <= Resp_Status reply);

  (** The cursor is one past the log. *)
  state_log s l : sv_log s l ->
    get_ingest_state s = state_reply (Z.of_nat (length l) + 1) \/ 400 <= Resp_Status (get_ingest_state s);

  (** A running run answers, and recognizes its last record whatever rides beside it. *)
  running_answers profile s l : sv_running profile s -> sv_log s l ->
    (exists next, get_progress s = progress_reply "running" next) /\
    get_ingest_state s = state_reply (Z.of_nat (length l) + 1);
  running_replays profile now s l0 r0 env : sv_running profile s -> sv_log s (l0 ++ [r0]) ->
    Env_Version env = WireVersion -> Env_Sequence env = format_uint 10 (Z.of_nat (length l0) + 1) ->
    Env_BehavioralProfile env = profile -> Env_Fidelity env = "" -> Env_BehaviorLayer env = "" ->
    Env_HTTPStatusCode env = None -> Env_TokensInput env = None -> Env_TokensOutput env = None ->
    Env_TokensUnsplit env = None -> same_record r0 (Env_Record env) ->
    post_record now s env = (s, ingest_reply "replayed" (Z.of_nat (length l0) + 2));
}.
