(* ===== verification/IngestApi.v ===== *)
(** * The HTTP API's ingest routes (platform/httpapi)

    The three handlers the collector calls, over the control plane of [Ingest] and
    [ControlPlane]: decoding the envelope's values, calling the control plane, and the
    status class of every error.  The body is the envelope a request decodes to: what
    encoding/json refuses is refused before the model begins.  The handlers implement
    [RunServer]. *)
From S2P Require Import Prelude GoText GoTime GoFloat FloatBounds Event Fingerprint DecisionRecord Domain Paging Counters.
From S2P Require Import Environment Operational Fidelity Aggregate Observation Behavior Scorecard Recency RunStore EvidenceStore Ingest.
From S2P Require Import Scenario Catalog ControlPlane RunServer.

Open Scope string_scope.
Open Scope Z_scope.

(** ** Errors on the wire *)
Definition codeInvalidRequest : string := "invalid_request".
Definition codeNotFound : string := "not_found".
Definition codeAlreadyExists : string := "already_exists".
Definition codeConflict : string := "conflict".
Definition codeUnsupportedVersion : string := "unsupported_version".
Definition codeIncompleteEvidence : string := "incomplete_evidence".
Definition codeInternal : string := "internal".

Definition is_any (e : error) (l : list sentinel) : bool := existsb (errors_is e) l.

Definition classify (e : error) : Z * string :=
  if errors_is e ErrStoreNotFound then (404, codeNotFound)
  else if errors_is e ErrStoreAlreadyExists then (409, codeAlreadyExists)
  else if errors_is e ErrIncompleteSnapshot then (409, codeIncompleteEvidence)
  else if errors_is e ErrIngestSequence then (409, codeConflict)
  else if is_any e [ErrEvaluationState; ErrStoreConflict; ErrCostOverflow; ErrInvalidTransition;
                    ErrEnvironmentUnavailable; ErrEnvironmentLimit] then (409, codeConflict)
  else if is_any e [ErrScenarioReference; ErrScenarioExecutionState] then (409, codeConflict)
  else if errors_is e ErrStatusCollectorLimit then (409, codeConflict)
  else if errors_is e ErrInvalidStatusReport then (400, codeInvalidRequest)
  else if errors_is e ErrPromotionOrder then (409, codeConflict)
  else if is_any e [ErrStoreCorrupt; ErrStoreSchemaVersion] then (500, codeInternal)
  else if is_any e [ErrInvalidID; ErrInvalidName; ErrInvalidMetadata; ErrInvalidDecisionRecord;
                    ErrInvalidBehaviorRecord; ErrEnvironmentMismatch; ErrBehaviorEnvironmentMismatch;
                    ErrComparisonScope; ErrPromotionScope; ErrInvalidGateEvidence; ErrObservationCursor;
                    ErrInvalidFinding; ErrInvalidObservation; ErrFingerprintConflict;
                    ErrInvalidRepeatedRequest; ErrRepeatedIsolation; ErrInvalidOperationalRequest;
                    ErrScenarioScope; ErrRunScope] then (400, codeInvalidRequest)
  else (500, codeInternal).

Definition error_reply (status : Z) (code : string) : response :=
  {| Resp_Status := status;
     Resp_Body := Some {| Body_Disposition := ""; Body_NextSequence := ""; Body_Status := ""; Body_Code := code |} |}.
(** [writeError]: an [apiError] carries its own status and code, anything else is classified. *)
Definition writeError (e : error) : response := error_reply (fst (classify e)) (snd (classify e)).
Definition invalid_request : response := error_reply 400 codeInvalidRequest.

(** ** The envelope *)
Definition ParseSequence (s : string) : option Z :=
  match parse_uint s with
  | None => None
  | Some v => if (format_uint 10 v <>s s)%go then None else if v =? 0 then None else Some v
  end.

Definition envelopeCount (raw : string) : option Z :=
  match parse_uint raw with
  | None => None
  | Some v => if (format_uint 10 v <>s raw)%go then None else Some v
  end.

(** An optional count: [None] refuses the envelope. *)
Definition optional_count (raw : option string) : option (option Z) :=
  match raw with None => Some None | Some raw => Some <$> envelopeCount raw end.

(** [None]: the request is refused as invalid. *)
Definition operationalFactsFrom (envelope : ingestEnvelope) : option OperationalFacts :=
  code ← (match Env_HTTPStatusCode envelope with
          | None => Some 0
          | Some raw => code ← envelopeCount raw;
                        if (code <? 100) || (599 <? code) then None else Some code
          end);
  i ← optional_count (Env_TokensInput envelope);
  o ← optional_count (Env_TokensOutput envelope);
  t ← optional_count (Env_TokensUnsplit envelope);
  let has (v : option Z) := bool_decide (is_Some v) in
  if has t && (has i || has o) then None
  else Some {| HTTPStatusCode := code;
               F_Usage := {| Usage_Input := default 0 i; HasInput := has i;
                             Usage_Output := default 0 o; HasOutput := has o;
                             Usage_Unsplit := default 0 t; HasUnsplit := has t |};
               F_Fidelity := ""; F_Layer := LayerUnspecified |}.

Definition disposition_text (d : IngestDisposition) : string :=
  match d with IngestApplied => "applied" | IngestReplayed => "replayed" end.

(** ** The handlers, for the run in the path *)
Section handlers.
Context (RecordDigest : DecisionRecord -> res string) (runID : EvaluationRunID).

Definition ingestRecord (now : time) (p : platform) (envelope : ingestEnvelope) : platform * response :=
  if (Env_Version envelope <>s WireVersion)%go then (p, error_reply 400 codeUnsupportedVersion)
  else
    match ParseSequence (Env_Sequence envelope) with
    | None => (p, invalid_request)
    | Some sequence =>
        if (Env_Fidelity envelope <>s "")%go && negb (Fidelity_Valid (Env_Fidelity envelope)) then (p, invalid_request)
        else if (Env_BehaviorLayer envelope <>s "")%go && negb (Layer_Valid (Env_BehaviorLayer envelope)) then (p, invalid_request)
        else
          match operationalFactsFrom envelope with
          | None => (p, invalid_request)
          | Some operational =>
              match IngestDecisionRecord RecordDigest (pf_ingest p)
                {| IR_RunID := runID; IR_Sequence := sequence;
                   IR_BehavioralProfile := Env_BehavioralProfile envelope; IR_Fidelity := Env_Fidelity envelope;
                   IR_BehaviorLayer := Env_BehaviorLayer envelope; IR_Operational := operational;
                   ReceivedAt := now; IR_Record := Env_Record envelope |} with
              | Err e => (p, writeError e)
              | Ok (s, result) =>
                  ({| pf_ingest := s; pf_catalog := pf_catalog p; pf_scenarios := pf_scenarios p |},
                   ingest_reply (disposition_text (IRes_Disposition result)) (IRes_NextSequence result))
              end
          end
    end.

Definition ingestState_handler (p : platform) : response :=
  match ingestState (pf_runs p) (pf_evidence p) runID with
  | Err e => writeError e
  | Ok state => state_reply (nextSequence state)
  end.

Definition progress (p : platform) : response :=
  match EvaluationProgress p runID with
  | Err e => writeError e
  | Ok report => progress_reply (status (PG_Run report)) (PG_NextIngestSequence report)
  end.

#[export] Instance ingest_server : RunServer platform :=
  {| post_record := ingestRecord; get_ingest_state := ingestState_handler; get_progress := progress |}.
End handlers.

(** ** Lemmas *)
Lemma classify_refuses e : 400 <= fst (classify e).
Proof. unfold classify. repeat case_match; cbn; lia. Qed.
Lemma writeError_refuses e : 400 <= Resp_Status (writeError e).
Proof. apply classify_refuses. Qed.

Lemma ParseSequence_Some s v : ParseSequence s = Some v -> s = format_uint 10 v /\ is_u64 v /\ v <> 0.
Proof.
  unfold ParseSequence. destruct (parse_uint s) as [w|] eqn:E; [|done]. apply parse_uint_range in E.
  destruct (String.eqb_spec (format_uint 10 w) s); [|done]. cbn. destruct (Z.eqb_spec w 0); [done|].
  intros [= <-]. by subst.
Qed.
Lemma ParseSequence_format v : is_u64 v -> v <> 0 -> ParseSequence (format_uint 10 v) = Some v.
Proof.
  intros Hv H0. unfold ParseSequence. rewrite parse_format_uint by done. rewrite String.eqb_refl. cbn.
  by destruct (Z.eqb_spec v 0).
Qed.
Lemma envelopeCount_format v : is_u64 v -> envelopeCount (format_uint 10 v) = Some v.
Proof. intros Hv. unfold envelopeCount. rewrite parse_format_uint by done. by rewrite String.eqb_refl. Qed.
Lemma envelopeCount_range s v : envelopeCount s = Some v -> is_u64 v.
Proof.
  unfold envelopeCount. destruct (parse_uint s) eqn:E; [|done]. apply parse_uint_range in E. case_match; [done|]. by intros [= <-].
Qed.
Lemma optional_count_range s v : optional_count s = Some v -> is_u64 (default 0 v).
Proof.
  unfold optional_count. destruct s; [|intros [= <-]; cbn; ulia]. destruct (envelopeCount s) eqn:E; [|done].
  apply envelopeCount_range in E. by intros [= <-].
Qed.
Lemma operationalFactsFrom_range envelope facts : operationalFactsFrom envelope = Some facts -> usage_range (F_Usage facts).
Proof.
  unfold operationalFactsFrom. intros (code & _ & H)%bind_Some. cbn in H.
  apply bind_Some in H as (i & Hi & H). apply bind_Some in H as (o & Ho & H). apply bind_Some in H as (t & Ht & H).
  apply optional_count_range in Hi, Ho, Ht. case_match; [done|]. injection H as <-. by split.
Qed.

(** ** The log of the run *)
Section served.
Context (RecordDigest : DecisionRecord -> res string)
  (digest_shape : forall record d, RecordDigest record = Ok d -> validateDigestShape d = Ok tt) (runID : EvaluationRunID).

Lemma state_of_log s logs id r : sys_ok RecordDigest s logs -> loadRun (sys_runs s) id = Ok r ->
  exists st, ingestState (sys_runs s) (sys_evidence s) id = Ok st /\ nextSequence st = Z.of_nat (length (logs id)) + 1 /\
    is_recordCount st = Z.of_nat (length (logs id)) /\ Z.of_nat (length (logs id)) < 2 ^ 53.
Proof.
  intros Hs El. destruct (sys_ok_run _ _ _ _ _ Hs El) as (Hr & Hid & Hlog). rewrite <- Hid in El.
  destruct (read_log RecordDigest digest_shape _ _ _ _ El Hr Hlog) as (a & c & os & st & _ & _ & [_ Hlo] & _ & Hst & Hn & Hct & _).
  rewrite Hid in Hst. by exists st.
Qed.

(** A call, on the log of its run: appended at the next number, recognized at the last. *)
Lemma call_log s logs q s' result : config_ok RecordDigest s [] logs -> request_ok q -> is_u64 (IR_Sequence q) ->
  let n := Z.of_nat (length (logs (IR_RunID q))) in
  n + 1 < 2 ^ 53 -> IngestDecisionRecord RecordDigest s q = Ok (s', result) ->
  (config_ok RecordDigest s' [] (append_log logs q) /\ sys_runs s' = sys_runs s /\ IR_Sequence q = n + 1 /\
   IRes_Disposition result = IngestApplied /\ IRes_NextSequence result = n + 2) \/
  (s' = s /\ IR_Sequence q = n /\ IRes_Disposition result = IngestReplayed /\ IRes_NextSequence result = n + 1 /\
   exists l0 q0, logs (IR_RunID q) = (l0 ++ [q0])%list /\ RecordDigest (IR_Record q0) = RecordDigest (IR_Record q)).
Proof.
  intros Hc Hq Hu n Hn H. pose proof Hc as [Hs _]. unfold IngestDecisionRecord in H. res_inv.
  rename a into r, a0 into d, a1 into st.
  destruct (read_run_Ok _ _ _ Hok) as (El & _). destruct (sys_ok_run _ _ _ _ _ Hs El) as (Hr & Hid & Hlog).
  pose proof El as El'. rewrite <- Hid in El'.
  destruct (read_log RecordDigest digest_shape _ _ _ _ El' Hr Hlog) as (a & c & os & st' & _ & _ & Hlo & _ & Hst & Hnx & Hct & _ & Hnone & Hsome).
  rewrite Hid, Hok1 in Hst. injection Hst as <-. fold n in Hnx, Hct. destruct Hlo as [_ Hlen]. fold n in Hlen.
  destruct (digest_persisted RecordDigest digest_shape _ _ Hok0) as [_ Hne].
  destruct (Z.eq_dec (IR_Sequence q) (nextSequence st)) as [E|E].
  - left. unfold check_sequence in Hok2. rewrite (proj2 (Z.eqb_eq _ _) E) in Hok2. injection Hok2 as <-. res_inv.
    destruct (commit_prepared RecordDigest digest_shape s logs q r d st a0 Hc Hq Hok Hok0 Hok1 E) as
      (s2 & res2 & st2 & Hcm & Hc2 & Hruns & -> & _); [by rewrite Hct|done|].
    rewrite H in Hcm. injection Hcm as <- ->. cbn. split_and!; try done; lia.
  - right. rewrite check_sequence_last in Hok2; [|done|done|unfold max_u64; lia|done].
    destruct (Z.eqb_spec (IR_Sequence q + 1) (nextSequence st)) as [E1|E1]; [|done].
    destruct (String.eqb_spec (lastDigest st) d) as [<-|]; [|done]. cbn in Hok2. injection Hok2 as <-. injection H as <- <-.
    cbn. split_and!; try done; try lia.
    destruct (logs (IR_RunID q)) as [|q0 l0 _] eqn:El0 using rev_ind.
    + destruct (Hnone eq_refl) as [_ Hd]. by rewrite Hd in Hne.
    + exists l0, q0. split; [done|]. destruct (Hsome _ _ eq_refl) as [_ ->]. done.
Qed.

(** A running run recognizes its last record. *)
Lemma call_replays s logs q q0 l0 r : config_ok RecordDigest s [] logs ->
  read_run (sys_runs s) q = Ok r -> logs (IR_RunID q) = (l0 ++ [q0])%list ->
  IR_Sequence q = Z.of_nat (length l0) + 1 -> RecordDigest (IR_Record q0) = RecordDigest (IR_Record q) ->
  exists result, IngestDecisionRecord RecordDigest s q = Ok (s, result) /\ IRes_Disposition result = IngestReplayed /\
    IRes_NextSequence result = Z.of_nat (length l0) + 2.
Proof.
  intros [Hs _] Hread Hlogs Hseq Hd. destruct (read_run_Ok _ _ _ Hread) as (El & _).
  destruct (sys_ok_run _ _ _ _ _ Hs El) as (Hr & Hid & Hlog). pose proof El as El'. rewrite <- Hid in El'.
  destruct (read_log RecordDigest digest_shape _ _ _ _ El' Hr Hlog) as (a & c & os & st & _ & _ & Hlo & _ & Hst & Hnx & _ & _ & _ & Hsome).
  destruct (Hsome _ _ Hlogs) as [_ Hd0]. rewrite Hd0 in Hd. symmetry in Hd.
  destruct (digest_persisted RecordDigest digest_shape _ _ Hd) as [_ Hne]. rewrite Hid in Hst.
  rewrite Hlogs, length_app in Hnx. cbn [length] in Hnx. destruct Hlo as [_ Hlen]. rewrite Hlogs, length_app in Hlen. cbn [length] in Hlen.
  unfold IngestDecisionRecord. rewrite Hread, Hd, Hst. cbn [mbind res_bind].
  rewrite check_sequence_last; [|lia|unfold is_u64, max_u64; lia|unfold max_u64; lia|done].
  rewrite (proj2 (Z.eqb_eq _ _)), String.eqb_refl by lia. cbn. eexists. split; [done|]. cbn. split; [done|lia].
Qed.

(** What else happens to the platform: runs are created and move on, records of other runs
    are ingested, catalogue and scenario history change. *)
Inductive server_step : platform -> platform -> Prop :=
| ss_runs p t : runs_evolve (pf_runs p) t ->
    server_step p {| pf_ingest := with_runs (pf_ingest p) t; pf_catalog := pf_catalog p; pf_scenarios := pf_scenarios p |}
| ss_other p q s result : IR_RunID q <> runID -> request_ok q -> is_u64 (IR_Sequence q) ->
    IngestDecisionRecord RecordDigest (pf_ingest p) q = Ok (s, result) ->
    (forall st, ingestState (pf_runs p) (pf_evidence p) (IR_RunID q) = Ok st -> is_recordCount st + 1 < 2 ^ 53) ->
    server_step p {| pf_ingest := s; pf_catalog := pf_catalog p; pf_scenarios := pf_scenarios p |}
| ss_rest p c sc : server_step p {| pf_ingest := pf_ingest p; pf_catalog := c; pf_scenarios := sc |}.

Definition server_env : platform -> platform -> Prop := rtc server_step.

(** The platform holds the run and the log of its records. *)
Definition served (p : platform) (l : list DecisionRecord) : Prop :=
  exists logs r, config_ok RecordDigest (pf_ingest p) [] logs /\ loadRun (pf_runs p) runID = Ok r /\ l = IR_Record <$> logs runID.

Lemma served_step p p' l : server_step p p' -> served p l -> served p' l.
Proof.
  intros Hst (logs & r & Hc & El & ->). destruct Hst as [p t Hev|p q s result Hne Hq Hu H Hsmall|p c sc].
  - destruct (rv_keep _ _ Hev _ _ El) as (r' & El' & _). exists logs, r'. split; [by apply evolve_config|done].
  - assert (exists r0, loadRun (pf_runs p) (IR_RunID q) = Ok r0) as [r0 El0].
    { unfold IngestDecisionRecord in H. res_inv. destruct (read_run_Ok _ _ _ Hok) as (? & _). by eexists. }
    destruct (state_of_log _ _ _ _ (proj1 Hc) El0) as (st & Hst & _ & Hct & _). specialize (Hsmall _ Hst). rewrite Hct in Hsmall.
    destruct (call_log _ _ _ _ _ Hc Hq Hu Hsmall H) as [(Hc' & Er & _)|(-> & _)].
    + exists (append_log logs q), r. split; [done|]. rewrite append_log_ne by done. split; [|done].
      unfold pf_runs in *. cbn. by rewrite Er.
    + by exists logs, r.
  - by exists logs, r.
Qed.
Lemma served_env p p' l : server_env p p' -> served p l -> served p' l.
Proof. induction 1 as [|p p1 p2 H _ IH]; [done|]. intros Hs. by apply IH, (served_step p). Qed.

Lemma served_small p l : served p l -> Z.of_nat (length l) < 2 ^ 53.
Proof.
  intros (logs & r & Hc & El & ->). rewrite length_fmap. by destruct (state_of_log _ _ _ _ (proj1 Hc) El) as (_ & _ & _ & _ & ?).
Qed.

Lemma served_length p l l' : served p l -> served p l' -> length l = length l'.
Proof.
  intros (logs & r & Hc & El & ->) (logs' & r' & Hc' & _ & ->). rewrite !length_fmap.
  destruct (state_of_log _ _ _ _ (proj1 Hc) El) as (st & Hst & Hn & _), (state_of_log _ _ _ _ (proj1 Hc') El) as (st' & Hst' & Hn' & _).
  rewrite Hst in Hst'. injection Hst' as <-. lia.
Qed.

Definition same_digest (r r' : DecisionRecord) : Prop := r = r' \/ RecordDigest r = RecordDigest r'.

(** The request a handler makes of an envelope. *)
Lemma ingestRecord_cases now p env p' reply : ingestRecord RecordDigest runID now p env = (p', reply) ->
  (p' = p /\ 400 <= Resp_Status reply) \/
  exists q s result, IngestDecisionRecord RecordDigest (pf_ingest p) q = Ok (s, result) /\
    IR_RunID q = runID /\ IR_Record q = Env_Record env /\ Env_Sequence env = format_uint 10 (IR_Sequence q) /\
    is_u64 (IR_Sequence q) /\ usage_range (F_Usage (IR_Operational q)) /\
    p' = {| pf_ingest := s; pf_catalog := pf_catalog p; pf_scenarios := pf_scenarios p |} /\
    reply = ingest_reply (disposition_text (IRes_Disposition result)) (IRes_NextSequence result).
Proof.
  unfold ingestRecord. intros H. repeat case_match; injection H as <- <-; try (left; split; [done|]); try (cbn; lia); try apply writeError_refuses.
  right. match goal with H : ParseSequence _ = Some _ |- _ => apply ParseSequence_Some in H as (-> & Hu & _) end.
  match goal with H : operationalFactsFrom _ = Some _ |- _ => apply operationalFactsFrom_range in H end.
  eexists _, _, _. split; [eassumption|]. done.
Qed.

(** The run is running, under this profile. *)
Definition running (profile : string) (p : platform) : Prop :=
  exists r, loadRun (pf_runs p) runID = Ok r /\ status r = RunRunning /\ run_profile r = profile.

Lemma served_post now p l env p' reply : served p l -> Z.of_nat (length l) + 1 < 2 ^ 53 -> after_year_1 (Env_Record env) ->
  ingestRecord RecordDigest runID now p env = (p', reply) ->
  (served p' (l ++ [Env_Record env]) /\ Env_Sequence env = format_uint 10 (Z.of_nat (length l) + 1) /\
   reply = ingest_reply "applied" (Z.of_nat (length l) + 2)) \/
  (p' = p /\ Env_Sequence env = format_uint 10 (Z.of_nat (length l)) /\
   reply = ingest_reply "replayed" (Z.of_nat (length l) + 1) /\
   exists l0 r0, l = (l0 ++ [r0])%list /\ same_digest r0 (Env_Record env)) \/
  (p' = p /\ 400 <= Resp_Status reply).
Proof.
  intros (logs & r & Hc & El & ->) Hn Hy H. rewrite length_fmap in *.
  destruct (ingestRecord_cases _ _ _ _ _ H) as [?|(q & s & result & Hi & Hid & Hrec & Hseq & Hu & Husage & -> & ->)]; [by right; right|].
  assert (Hq : request_ok q) by (split; [by rewrite Hrec|done]). rewrite <- Hid, <- Hrec in *.
  destruct (call_log _ _ _ _ _ Hc Hq Hu Hn Hi) as [(Hc' & Er & Es & Ed & En)|(-> & Es & Ed & En & l0 & q0 & El0 & Edg)].
  + left. rewrite Ed, En, Hseq, Es. split; [|done]. exists (append_log logs q), r. split; [done|].
    rewrite <- Hid, append_log_eq, fmap_app. unfold pf_runs in *. cbn. by rewrite Er.
  + right. left. rewrite Ed, En, Hseq, Es. split; [by destruct p|]. split; [done|]. split; [done|].
    exists (IR_Record <$> l0), (IR_Record q0). rewrite El0, fmap_app. split; [done|]. by right.
Qed.

Lemma served_state p l : served p l -> ingestState_handler runID p = state_reply (Z.of_nat (length l) + 1).
Proof.
  intros (logs & r & Hc & El & ->). rewrite length_fmap.
  destruct (state_of_log _ _ _ _ (proj1 Hc) El) as (st & Hst & Hn & _). unfold ingestState_handler.
  unfold pf_runs, pf_evidence in *. by rewrite Hst, Hn.
Qed.

Lemma running_progress profile p l : running profile p -> served p l ->
  (exists next, progress runID p = progress_reply "running" next) /\
  ingestState_handler runID p = state_reply (Z.of_nat (length l) + 1).
Proof.
  intros (r & El & Hs & Hp) Hl. split; [|by apply served_state]. destruct Hl as (logs & r' & Hc & El' & _).
  destruct (state_of_log _ _ _ _ (proj1 Hc) El) as (st & Hst & _). unfold progress, EvaluationProgress.
  unfold pf_runs, pf_evidence in *. rewrite El, Hst. cbn. rewrite Hs. by eexists.
Qed.

Lemma served_replays profile now p l0 r0 env : running profile p -> served p (l0 ++ [r0]) ->
  Env_Version env = WireVersion -> Env_Sequence env = format_uint 10 (Z.of_nat (length l0) + 1) ->
  Env_BehavioralProfile env = profile -> Env_Fidelity env = "" -> Env_BehaviorLayer env = "" ->
  Env_HTTPStatusCode env = None -> Env_TokensInput env = None -> Env_TokensOutput env = None ->
  Env_TokensUnsplit env = None -> same_digest r0 (Env_Record env) ->
  ingestRecord RecordDigest runID now p env = (p, ingest_reply "replayed" (Z.of_nat (length l0) + 2)).
Proof.
  intros (r & El & Hs & Hp) (logs & r' & Hc & El' & E) Hv Hseq Hprof Hf Hl Hh Hi Ho Ht Hsame.
  symmetry in E. apply fmap_app_inv in E as (l1 & l2 & -> & E2 & El0).
  destruct l2 as [|q0 [|]]; try done. injection E2 as ->.
  rewrite length_fmap in Hseq |- *. set (n := Z.of_nat (length l1) + 1) in *.
  destruct (state_of_log _ _ _ _ (proj1 Hc) El) as (_ & _ & _ & _ & Hlt). rewrite El0, length_app in Hlt. cbn [length] in Hlt.
  unfold ingestRecord. rewrite Hv, Hseq, Hf, Hl.
  rewrite ParseSequence_format by (unfold n, is_u64, max_u64; lia).
  assert (Ho' : operationalFactsFrom env = Some {| HTTPStatusCode := 0; F_Usage := {| Usage_Input := 0; HasInput := false;
    Usage_Output := 0; HasOutput := false; Usage_Unsplit := 0; HasUnsplit := false |}; F_Fidelity := ""; F_Layer := LayerUnspecified |}).
  { unfold operationalFactsFrom. by rewrite Hh, Hi, Ho, Ht. }
  rewrite Ho'. cbn [negb andb String.eqb]. 
  match goal with |- context [IngestDecisionRecord _ _ ?q] => set (q' := q) end.
  destruct (call_replays (pf_ingest p) logs q' q0 l1 r Hc) as (result & -> & -> & ->); try done.
  + unfold read_run. cbn [IR_RunID IR_BehavioralProfile q']. unfold pf_runs in El. rewrite El. cbn [mbind res_bind].
    by rewrite Hs, Hp, Hprof, !String.eqb_refl.
  + destruct Hsame as [->|Hd]; [done|exact Hd].
  + apply f_equal2; [by destruct p|]. apply (f_equal (ingest_reply "replayed")). lia.
Qed.

#[export] Instance ingest_server_laws : @RunServerLaws platform (ingest_server RecordDigest runID).
Proof.
  refine {| sv_log := served; sv_env := server_env; same_record := same_digest; sv_running := running |}.
  - by left.
  - exact served_small.
  - exact served_length.
  - exact served_env.
  - exact served_post.
  - intros p l H. left. exact (served_state p l H).
  - exact running_progress.
  - exact served_replays.
Defined.
End served.
