(* ===== verification/Semconv.v ===== *)
(** * Agent-oriented telemetry conventions (internal/semconv)

    One table reads the OpenTelemetry GenAI and the OpenInference conventions from a
    span reduced to a kind, a name and its attributes.  The theorem says what it may
    read: a semantic name always comes from an identity attribute, a row never fires
    on a category alone, and no content attribute changes anything. *)
From S2P Require Import Prelude Event.

Open Scope string_scope.
Open Scope Z_scope.

Module Semconv.

Definition Kind := string.
Definition KindUnspecified : Kind := "".
Definition KindClient : Kind := "client".
Definition KindServer : Kind := "server".
Definition KindProducer : Kind := "producer".
Definition KindConsumer : Kind := "consumer".
Definition KindInternal : Kind := "internal".

Record Span : Type := {
  Span_Kind : Kind;
  Span_Name : string;
  Span_Attributes : gmap string attr;
  Span_Resource : gmap string attr;
}.

Record Normalized : Type := {
  N_OperationCategory : string;
  N_OperationName : string;
  N_TargetName : string;
  N_ActorType : string;
  N_SessionID : string;
  N_Fidelity : Fidelity;
  N_Layer : Layer;
}.

Definition Matched (n : Normalized) : bool :=
  (N_OperationName n <>s "")%go && (N_OperationCategory n <>s "")%go.

(** The derived attributes both adapters write. *)
Definition AttrFidelity : string := "trustvian.fidelity".
Definition AttrLayer : string := "trustvian.behavior.layer".

Definition categoryTool : string := "tool".
Definition categoryExternal : string := "external".
Definition actorTypeAIAgent : string := "ai_agent".

Definition stringAttr (attrs : gmap string attr) (key : string) : string :=
  match attrs !! key with Some (AString v) => v | _ => "" end.

Fixpoint firstString (attrs : gmap string attr) (keys : list string) : string :=
  match keys with
  | [] => ""
  | key :: keys => if (stringAttr attrs key <>s "")%go then stringAttr attrs key else firstString attrs keys
  end.

(** What a convention that is present says when no row of it fires. *)
Definition declined (actorType sessionID : string) : Normalized :=
  {| N_OperationCategory := ""; N_OperationName := ""; N_TargetName := "";
     N_ActorType := actorType; N_SessionID := sessionID; N_Fidelity := ""; N_Layer := LayerUnspecified |}.

(** A row of either table that is chosen: it fires when it found a name. *)
Definition row (actorType sessionID category name target : string) (layer : Layer) : Normalized :=
  if (name =s "")%go then declined actorType sessionID
  else {| N_OperationCategory := category; N_OperationName := name; N_TargetName := target;
          N_ActorType := actorType; N_SessionID := sessionID;
          N_Fidelity := FidelitySemantic; N_Layer := layer |}.

(** ** OpenTelemetry GenAI *)
Definition AttrGenAIOperationName : string := "gen_ai.operation.name".
Definition AttrGenAIToolName : string := "gen_ai.tool.name".
Definition AttrGenAIAgentName : string := "gen_ai.agent.name".
Definition AttrGenAIAgentID : string := "gen_ai.agent.id".
Definition AttrGenAIRequestModel : string := "gen_ai.request.model".
Definition AttrGenAIDataSourceID : string := "gen_ai.data_source.id".
Definition AttrGenAIProviderName : string := "gen_ai.provider.name".
Definition AttrGenAISystemLegacy : string := "gen_ai.system".
Definition AttrGenAIConversationID : string := "gen_ai.conversation.id".

Definition opExecuteTool : string := "execute_tool".
Definition opInvokeAgent : string := "invoke_agent".
Definition opCreateAgent : string := "create_agent".
Definition opInvokeWorkflow : string := "invoke_workflow".
Definition opPlan : string := "plan".
Definition opChat : string := "chat".
Definition opTextCompletion : string := "text_completion".
Definition opGenerateContent : string := "generate_content".
Definition opEmbeddings : string := "embeddings".
Definition opRetrieval : string := "retrieval".

Definition genAIActorType (attrs : gmap string attr) : string :=
  if (firstString attrs [AttrGenAIAgentName; AttrGenAIAgentID] <>s "")%go then actorTypeAIAgent else "".

(** [None]: the span does not speak this convention. *)
Definition normalizeGenAI (s : Span) : option Normalized :=
  let attrs := Span_Attributes s in
  let operation := stringAttr attrs AttrGenAIOperationName in
  if (operation =s "")%go then None
  else
    let sessionID := stringAttr attrs AttrGenAIConversationID in
    let actorType := genAIActorType attrs in
    let provider := firstString attrs [AttrGenAIProviderName; AttrGenAISystemLegacy] in
    let orOperation name := if (name =s "")%go then operation else name in
    Some
      (if (operation =s opExecuteTool)%go then
         row actorType sessionID categoryTool (stringAttr attrs AttrGenAIToolName) "" LayerTool
       else if one_of operation [opInvokeAgent; opCreateAgent] then
         row actorType sessionID categoryTool (stringAttr attrs AttrGenAIAgentName) "" LayerTool
       else if one_of operation [opInvokeWorkflow; opPlan] then
         row actorType sessionID categoryTool (orOperation (stringAttr attrs AttrGenAIAgentName)) "" LayerTool
       else if one_of operation [opChat; opTextCompletion; opGenerateContent; opEmbeddings] then
         row actorType sessionID categoryExternal (stringAttr attrs AttrGenAIRequestModel) provider LayerModel
       else if (operation =s opRetrieval)%go then
         let source := stringAttr attrs AttrGenAIDataSourceID in
         row actorType sessionID categoryExternal (orOperation source) source LayerRetrieval
       else declined actorType sessionID).

(** ** OpenInference *)
Definition AttrOISpanKind : string := "openinference.span.kind".
Definition AttrOIToolName : string := "tool.name".
Definition AttrOIModelName : string := "llm.model_name".
Definition AttrOIProvider : string := "llm.provider".
Definition AttrOISystem : string := "llm.system".
Definition AttrOISessionID : string := "session.id".
Definition AttrOIAgentName : string := "agent.name".
Definition AttrOIRerankerName : string := "reranker.model_name".

Definition kindTool : string := "TOOL".
Definition kindAgent : string := "AGENT".
Definition kindLLM : string := "LLM".
Definition kindEmbedding : string := "EMBEDDING".
Definition kindRetriever : string := "RETRIEVER".
Definition kindReranker : string := "RERANKER".

Definition openInferenceActorType (attrs : gmap string attr) : string :=
  if (stringAttr attrs AttrOIAgentName <>s "")%go then actorTypeAIAgent else "".

Definition normalizeOpenInference (s : Span) : option Normalized :=
  let attrs := Span_Attributes s in
  let kind := stringAttr attrs AttrOISpanKind in
  if (kind =s "")%go then None
  else
    let sessionID := stringAttr attrs AttrOISessionID in
    let actorType := openInferenceActorType attrs in
    let provider := firstString attrs [AttrOIProvider; AttrOISystem] in
    Some
      (if (kind =s kindTool)%go then
         row actorType sessionID categoryTool (stringAttr attrs AttrOIToolName) "" LayerTool
       else if (kind =s kindAgent)%go then
         row actorType sessionID categoryTool (stringAttr attrs AttrOIAgentName) "" LayerTool
       else if one_of kind [kindLLM; kindEmbedding] then
         row actorType sessionID categoryExternal (stringAttr attrs AttrOIModelName) provider LayerModel
       else if (kind =s kindRetriever)%go then
         row actorType sessionID categoryExternal "retriever" "" LayerRetrieval
       else if (kind =s kindReranker)%go then
         row actorType sessionID categoryExternal (stringAttr attrs AttrOIRerankerName) "" LayerRetrieval
       else declined actorType sessionID).

Definition Normalize (s : Span) : Normalized :=
  match normalizeGenAI s with
  | Some n => n
  | None => match normalizeOpenInference s with Some n => n | None => declined "" "" end
  end.

(** ** The content attributes the table refuses to read *)
Definition GenAIContentAttributes : list string :=
  ["gen_ai.input.messages"; "gen_ai.output.messages"; "gen_ai.tool.call.arguments";
   "gen_ai.tool.call.result"; "gen_ai.tool.definitions"; "gen_ai.system_instructions"].
Definition OpenInferenceContentAttributes : list string :=
  ["input.value"; "output.value"; "input.mime_type"; "output.mime_type"; "llm.input_messages";
   "llm.output_messages"; "llm.prompt_template.template"; "llm.prompt_template.variables";
   "retrieval.documents"; "reranker.input_documents"; "reranker.output_documents"; "tool.parameters";
   "input.images"; "output.images"; "metadata"; "user.id"].
Definition ContentAttributes : list string :=
  (GenAIContentAttributes ++ OpenInferenceContentAttributes)%list.

(** ** Lemmas *)

(** Every key the table looks up. *)
Definition table_keys : list string :=
  [AttrGenAIOperationName; AttrGenAIToolName; AttrGenAIAgentName; AttrGenAIAgentID;
   AttrGenAIRequestModel; AttrGenAIDataSourceID; AttrGenAIProviderName; AttrGenAISystemLegacy;
   AttrGenAIConversationID; AttrOISpanKind; AttrOIToolName; AttrOIModelName; AttrOIProvider;
   AttrOISystem; AttrOISessionID; AttrOIAgentName; AttrOIRerankerName].

Lemma stringAttr_eq m m' k : m !! k = m' !! k -> stringAttr m k = stringAttr m' k.
Proof. intros H. unfold stringAttr. by rewrite H. Qed.

(** The row that fired is semantic, named and layered; one that did not says nothing
    about identity. *)
Definition coherent (n : Normalized) : Prop :=
  (Matched n = true /\ N_Fidelity n = FidelitySemantic /\
   N_Layer n ∈ [LayerTool; LayerModel; LayerRetrieval] /\
   N_OperationCategory n ∈ [categoryTool; categoryExternal]) \/
  (n = declined (N_ActorType n) (N_SessionID n)).

Lemma row_coherent a s c name t l :
  c ∈ [categoryTool; categoryExternal] -> l ∈ [LayerTool; LayerModel; LayerRetrieval] ->
  coherent (row a s c name t l).
Proof.
  intros Hc Hl. unfold row. destruct (String.eqb_spec name ""); [by right|]. left. cbn.
  split; [|done]. unfold Matched. cbn. destruct (String.eqb_spec name ""); [done|].
  rewrite !elem_of_cons, elem_of_nil in Hc. by destruct Hc as [-> | [-> | []]].
Qed.

Lemma Normalize_coherent s : coherent (Normalize s).
Proof.
  unfold Normalize, normalizeGenAI, normalizeOpenInference. cbv zeta.
  repeat case_match; simplify_eq; try (by right);
    (apply row_coherent; rewrite !elem_of_cons; tauto).
Qed.

Lemma Matched_semantic s : Matched (Normalize s) = bool_decide (N_Fidelity (Normalize s) = FidelitySemantic).
Proof.
  destruct (Normalize_coherent s) as [(-> & -> & _) | ->]; [|done]. by rewrite bool_decide_true.
Qed.

(** The attributes that name what was done. *)
Definition identity_keys : list string :=
  [AttrGenAIOperationName; AttrGenAIToolName; AttrGenAIAgentName; AttrGenAIRequestModel;
   AttrGenAIDataSourceID; AttrOIToolName; AttrOIAgentName; AttrOIModelName; AttrOIRerankerName].
Definition named (attrs : gmap string attr) (name : string) : Prop :=
  exists k, k ∈ identity_keys /\ attrs !! k = Some (AString name).

Lemma stringAttr_named attrs k :
  bool_decide (k ∈ identity_keys) = true -> stringAttr attrs k = "" \/ named attrs (stringAttr attrs k).
Proof.
  intros Hk%bool_decide_eq_true. unfold stringAttr. destruct (attrs !! k) as [[]|] eqn:E; try (by left).
  right. by exists k.
Qed.

Lemma row_named attrs a s c name t l :
  name = "" \/ named attrs name \/ name = "retriever" ->
  let n := row a s c name t l in
  Matched n = true -> N_OperationName n = "retriever" \/ named attrs (N_OperationName n).
Proof. unfold row. destruct (String.eqb_spec name ""); [done|]. cbn. tauto. Qed.

(** A name the table reports was an identity attribute of the span; the only other one
    is the retriever's, which its convention leaves unnamed. *)
Lemma Normalize_named s : Matched (Normalize s) = true ->
  N_OperationName (Normalize s) = "retriever" \/ named (Span_Attributes s) (N_OperationName (Normalize s)).
Proof.
  pose proof (fun k H => stringAttr_named (Span_Attributes s) k H) as Hn.
  unfold Normalize, normalizeGenAI, normalizeOpenInference. cbv zeta.
  repeat case_match; simplify_eq; try done; apply row_named;
    first [by (right; right)
      | match goal with |- stringAttr _ ?k = "" \/ _ => destruct (Hn k eq_refl); tauto end].
Qed.

(** The actor is an agent only on the word of an agent-identity attribute. *)
Lemma Normalize_actor s :
  N_ActorType (Normalize s) = "" \/
  (N_ActorType (Normalize s) = actorTypeAIAgent /\
   exists k v, k ∈ [AttrGenAIAgentName; AttrGenAIAgentID; AttrOIAgentName] /\ v <> "" /\
     Span_Attributes s !! k = Some (AString v)).
Proof.
  set (m := Span_Attributes s).
  assert (Hr : forall a sid c name t l, N_ActorType (row a sid c name t l) = a)
    by (intros; unfold row; by case_match).
  assert (Hk : forall k, stringAttr m k <> "" -> m !! k = Some (AString (stringAttr m k))).
  { intros k. unfold stringAttr. by destruct (m !! k) as [[]|]. }
  assert (Hg : forall d : Normalized, N_ActorType d = genAIActorType m \/ N_ActorType d = openInferenceActorType m ->
    N_ActorType d = "" \/ (N_ActorType d = actorTypeAIAgent /\ exists k v,
      k ∈ [AttrGenAIAgentName; AttrGenAIAgentID; AttrOIAgentName] /\ v <> "" /\ m !! k = Some (AString v))).
  { intros d [-> | ->]; unfold genAIActorType, openInferenceActorType; cbn [firstString];
      repeat (match goal with |- context [(stringAttr m ?k =s "")%go] =>
        destruct (String.eqb_spec (stringAttr m k) "") end; cbn [negb]); try done;
      try (by left); right; (split; [done|]);
      match goal with E : stringAttr m ?k <> "" |- _ =>
        exists k, (stringAttr m k); split; [by apply (bool_decide_unpack _)|]; split; [exact E|by apply Hk] end. }
  unfold Normalize, normalizeGenAI, normalizeOpenInference. cbv zeta. fold m.
  repeat case_match; simplify_eq; try (by left); apply Hg; rewrite ?Hr; auto.
Qed.

(** The table is a function of the values of its own keys. *)
Lemma Normalize_agree s s' :
  (forall k, k ∈ table_keys -> Span_Attributes s !! k = Span_Attributes s' !! k) -> Normalize s = Normalize s'.
Proof.
  intros Ha. assert (Hs : forall k, bool_decide (k ∈ table_keys) = true ->
    stringAttr (Span_Attributes s) k = stringAttr (Span_Attributes s') k).
  { intros k Hk%bool_decide_eq_true. by apply stringAttr_eq, Ha. }
  unfold Normalize, normalizeGenAI, normalizeOpenInference, genAIActorType, openInferenceActorType.
  cbv zeta. cbn [firstString]. by rewrite !Hs.
Qed.

(** What is read, what is derived and what is content are disjoint. *)
Lemma disjoint_keys (l l' : list string) k :
  bool_decide (Forall (fun k => k ∉ l') l) = true -> k ∈ l -> k ∈ l' -> False.
Proof. intros Hf%bool_decide_eq_true. rewrite Forall_forall in Hf. intros ? ?. by eapply Hf. Qed.

Lemma content_disjoint k : k ∈ ContentAttributes -> k ∈ AttrFidelity :: AttrLayer :: table_keys -> False.
Proof. by apply disjoint_keys. Qed.

Lemma derived_disjoint k : k ∈ [AttrFidelity; AttrLayer] -> k ∈ table_keys -> False.
Proof. by apply disjoint_keys. Qed.

End Semconv.
