(* ===== verification/Spans.v ===== *)
(** * Spans to events: the two telemetry adapters

    [internal/otel] reads a finished SDK span, the collector processor a pipeline span
    ([processor/mapping.go], [processor/attributes.go]).  A span of either library is
    the record of what its accessors report, so nothing is assumed of the libraries;
    what the two report of one span is [same_span].  The semantic-convention key names
    are the constants of the semconv package both adapters import. *)
From S2P Require Import Prelude GoText GoTime GoFloat FloatBounds Event Fingerprint Anomaly Trust Policy Store Engine Semconv.

Open Scope string_scope.
Open Scope Z_scope.

(** go.opentelemetry.io/otel/semconv, the keys the adapters use. *)
Class SemconvKeys := {
  ServiceNameKey : string;
  DeploymentEnvironmentNameKey : string;
  HTTPRequestMethodKey : string;
  DBSystemNameKey : string;
  ServicePeerNameKey : string;
  DBNamespaceKey : string;
  ServerAddressKey : string;
}.

(** The span kinds and status codes both libraries name; [Other] is any other value. *)
Inductive OTelKind : Type :=
| SpanKindUnspecified | SpanKindInternal | SpanKindServer | SpanKindClient
| SpanKindProducer | SpanKindConsumer | SpanKindOther (n : Z).
Inductive OTelStatus : Type := StatusCodeUnset | StatusCodeOk | StatusCodeError | StatusCodeOther (n : Z).

Definition attrActorID : string := "trustvian.actor.id".
Definition attrActorType : string := "trustvian.actor.type".
Definition attrIdentityConfidence : string := "trustvian.identity.confidence".
Definition attrOperationCategory : string := "trustvian.operation.category".

(** [time.Millisecond] as a float64. *)
Definition millisecond : float := 1000000%float.

(** ** internal/otel *)
Module Otel.
Section keys.
Context `{SemconvKeys}.

(** [attribute.Value]: its type and what each of its accessors returns. *)
Inductive Type_ : Type :=
| BOOL | INT64 | FLOAT64 | STRING | BOOLSLICE | INT64SLICE | FLOAT64SLICE | STRINGSLICE | OTHER.
Record Value : Type := {
  Type_of : Type_;
  AsBool : bool; AsInt64 : Z; AsFloat64 : float; AsString : string;
  AsSlice : Z; (* the identity of the slice the slice accessors return *)
  String_ : string;
}.

(** [sdktrace.ReadOnlySpan]. *)
Record ReadOnlySpan : Type := {
  Name : string;
  SpanKind : OTelKind;
  StartTime : time;
  EndTime : time;
  Attributes : list (string * Value);
  StatusCode : OTelStatus;
  SpanContext_TraceID : string;
  SpanContext_SpanID : string;
  Parent_IsValid : bool;
  Parent_SpanID : string;
  Resource : option (list (string * Value)); (* nil, or its attributes *)
}.

Definition attributeValue (v : Value) : attr :=
  match Type_of v with
  | BOOL => ABool (AsBool v)
  | INT64 => AInt64 (AsInt64 v)
  | FLOAT64 => AFloat64 (AsFloat64 v)
  | STRING => AString (AsString v)
  | BOOLSLICE | INT64SLICE | FLOAT64SLICE | STRINGSLICE => AOther (AsSlice v)
  | OTHER => AString (String_ v)
  end.

Definition attributeMap (kvs : list (string * Value)) : gmap string attr :=
  foldl (fun m kv => <[fst kv := attributeValue (snd kv)]> m) ∅ kvs.

Definition resourceMap (span : ReadOnlySpan) : gmap string attr :=
  match Resource span with None => ∅ | Some kvs => attributeMap kvs end.

Fixpoint first_value (kvs : list (string * Value)) (key : string) : string :=
  match kvs with
  | [] => ""
  | (k, v) :: kvs => if (k =s key)%go then AsString v else first_value kvs key
  end.
Definition resourceAttr (span : ReadOnlySpan) (key : string) : string :=
  match Resource span with None => "" | Some kvs => first_value kvs key end.

Definition stringAttr (attrs : gmap string attr) (key : string) : string :=
  match attrs !! key with Some (AString v) => v | _ => "" end.
Definition floatAttr (attrs : gmap string attr) (key : string) : option float :=
  match attrs !! key with
  | Some (AFloat64 v) => Some v
  | Some (AInt64 v) => Some (of_Z v)
  | _ => None
  end.

Definition bridgeVolatileSignals (attrs : gmap string attr) (span : ReadOnlySpan) : gmap string attr :=
  let attrs :=
    if time_is_zero (EndTime span) then attrs
    else
      let dur := time_sub (EndTime span) (StartTime span) in
      if 0 <? dur then <[AttrDurationMS := AFloat64 (of_Z dur / millisecond)%float]> attrs else attrs in
  match StatusCode span with
  | StatusCodeError => <[AttrError := ABool true]> attrs
  | _ => attrs
  end.

Definition spanLineage (span : ReadOnlySpan) : string * SpanLineage :=
  if Parent_IsValid span then (Parent_SpanID span, LineageChild) else ("", LineageRoot).

Definition spanStatus (code : OTelStatus) : SpanStatus :=
  match code with
  | StatusCodeOk => StatusOK
  | StatusCodeError => StatusError
  | _ => StatusUnset
  end.

Definition executionFrom (span : ReadOnlySpan) : Execution :=
  let start := StartTime span in
  let end_ := EndTime span in
  let '(nanos, observed) :=
    if time_is_zero start || time_is_zero end_ then (0, false)
    else DurationFrom (u64 (unix_nano start)) (u64 (unix_nano end_)) in
  {| DurationNanos := nanos; DurationObserved := observed;
     Execution_Status := spanStatus (StatusCode span) |}.

Definition spanKind (kind : OTelKind) : Semconv.Kind :=
  match kind with
  | SpanKindClient => Semconv.KindClient
  | SpanKindServer => Semconv.KindServer
  | SpanKindProducer => Semconv.KindProducer
  | SpanKindConsumer => Semconv.KindConsumer
  | SpanKindInternal => Semconv.KindInternal
  | _ => Semconv.KindUnspecified
  end.

Definition inferCategory (attrs : gmap string attr) : OperationCategory :=
  if bool_decide (is_Some (attrs !! HTTPRequestMethodKey)) then "http"
  else if bool_decide (is_Some (attrs !! DBSystemNameKey)) then "db"
  else "rpc".

Definition targetName (attrs : gmap string attr) : string :=
  if (stringAttr attrs ServicePeerNameKey <>s "")%go then stringAttr attrs ServicePeerNameKey
  else if (stringAttr attrs DBNamespaceKey <>s "")%go then stringAttr attrs DBNamespaceKey
  else stringAttr attrs ServerAddressKey.

Definition directionFromSpanKind (kind : OTelKind) : OperationDirection :=
  match kind with
  | SpanKindServer | SpanKindConsumer => "inbound"
  | SpanKindClient | SpanKindProducer => "outbound"
  | _ => ""
  end.

Definition layerFor (n : Semconv.Normalized) : Layer :=
  if Semconv.Matched n && Layer_Valid (Semconv.N_Layer n) then Semconv.N_Layer n else LayerTransport.

Definition EventFromSpan (span : ReadOnlySpan) : Event :=
  let attrs := bridgeVolatileSignals (attributeMap (Attributes span)) span in
  let actorID :=
    if (stringAttr attrs attrActorID =s "")%go then resourceAttr span ServiceNameKey
    else stringAttr attrs attrActorID in
  let actorType :=
    if (stringAttr attrs attrActorType =s "")%go then ActorTypeService
    else stringAttr attrs attrActorType in
  let identityConfidence := default 1%float (floatAttr attrs attrIdentityConfidence) in
  let normalized := Semconv.Normalize {|
    Semconv.Span_Kind := spanKind (SpanKind span); Semconv.Span_Name := Name span;
    Semconv.Span_Attributes := attrs; Semconv.Span_Resource := resourceMap span |} in
  let category := stringAttr attrs attrOperationCategory in
  let category := if (category =s "")%go && Semconv.Matched normalized
                  then Semconv.N_OperationCategory normalized else category in
  let category := if (category =s "")%go then inferCategory attrs else category in
  let operationName := if Semconv.Matched normalized then Semconv.N_OperationName normalized else Name span in
  let target := if (Semconv.N_TargetName normalized =s "")%go then targetName attrs
                else Semconv.N_TargetName normalized in
  let actorType := if (stringAttr attrs attrActorType =s "")%go && (Semconv.N_ActorType normalized <>s "")%go
                   then Semconv.N_ActorType normalized else actorType in
  let attrs := <[Semconv.AttrFidelity := AString (OrTransport (Semconv.N_Fidelity normalized))]> attrs in
  let attrs := <[Semconv.AttrLayer := AString (layerFor normalized)]> attrs in
  let '(parentSpanID, lineage) := spanLineage span in
  {| Event_ID := SpanContext_SpanID span;
     Event_Timestamp := StartTime span;
     Event_Actor := {| Actor_ID := actorID; Actor_Type := actorType;
                       Actor_IdentityConfidence := identityConfidence |};
     Event_Operation := {| Operation_Category := category; Operation_Name := operationName;
                           Operation_Direction := directionFromSpanKind (SpanKind span) |};
     Event_Target := {| Target_Name := target; Target_Category := "" |};
     Event_Attributes := attrs;
     Event_Context := {| Environment := resourceAttr span DeploymentEnvironmentNameKey;
                         TraceID := SpanContext_TraceID span; SpanID := SpanContext_SpanID span;
                         SessionID := Semconv.N_SessionID normalized;
                         DelegatedFrom := ""; Context_ApprovalStatus := ApprovalUnspecified;
                         ParentSpanID := parentSpanID; Context_SpanLineage := lineage |};
     Event_Execution := executionFrom span |}.
End keys.
End Otel.

(** ** The collector processor *)
Module Collector.
Section keys.
Context `{SemconvKeys}.

(** [pcommon.Value], by what its accessors return. *)
Record Value : Type := { AsRaw : attr; Str : string }.
(** [pcommon.Map]: the pairs in iteration order, lookup and the raw copy. *)
Record Map : Type := { All : list (string * Value); Get : string -> option Value; Map_AsRaw : gmap string attr }.
(** [pcommon.Timestamp]: nanoseconds since the Unix epoch, a uint64, and [AsTime]. *)
Record Timestamp : Type := { Nanos : Z; AsTime : time }.

(** [ptrace.Span]. *)
Record Span : Type := {
  Name : string;
  Kind : OTelKind;
  StartTimestamp : Timestamp;
  EndTimestamp : Timestamp;
  Attributes : Map;
  Status_Code : OTelStatus;
  TraceID_String : string;
  SpanID_String : string;
  ParentSpanID_IsEmpty : bool;
  ParentSpanID_String : string;
}.

Definition attributeMap (m : Map) : gmap string attr :=
  foldl (fun out kv => <[fst kv := AsRaw (snd kv)]> out) ∅ (All m).

Definition stringAttr (attrs : gmap string attr) (key : string) : string :=
  match attrs !! key with Some (AString v) => v | _ => "" end.
Definition stringResourceAttr (resourceAttrs : Map) (key : string) : string :=
  match Get resourceAttrs key with Some v => Str v | None => "" end.
Definition floatAttr (attrs : gmap string attr) (key : string) : option float :=
  match attrs !! key with
  | Some (AFloat64 v) => Some v
  | Some (AInt64 v) => Some (of_Z v)
  | _ => None
  end.

Definition bridgeVolatileSignals (attrs : gmap string attr) (span : Span) : gmap string attr :=
  let attrs :=
    if Nanos (EndTimestamp span) =? 0 then attrs
    else
      let dur := time_sub (AsTime (EndTimestamp span)) (AsTime (StartTimestamp span)) in
      if 0 <? dur then <[AttrDurationMS := AFloat64 (of_Z dur / millisecond)%float]> attrs else attrs in
  match Status_Code span with
  | StatusCodeError => <[AttrError := ABool true]> attrs
  | _ => attrs
  end.

Definition spanLineage (span : Span) : string * SpanLineage :=
  if ParentSpanID_IsEmpty span then ("", LineageRoot) else (ParentSpanID_String span, LineageChild).

Definition spanStatus (code : OTelStatus) : SpanStatus :=
  match code with
  | StatusCodeOk => StatusOK
  | StatusCodeError => StatusError
  | _ => StatusUnset
  end.

Definition executionFrom (span : Span) : Execution :=
  let '(nanos, observed) := DurationFrom (Nanos (StartTimestamp span)) (Nanos (EndTimestamp span)) in
  {| DurationNanos := nanos; DurationObserved := observed;
     Execution_Status := spanStatus (Status_Code span) |}.

Definition spanKind (kind : OTelKind) : Semconv.Kind :=
  match kind with
  | SpanKindClient => Semconv.KindClient
  | SpanKindServer => Semconv.KindServer
  | SpanKindProducer => Semconv.KindProducer
  | SpanKindConsumer => Semconv.KindConsumer
  | SpanKindInternal => Semconv.KindInternal
  | _ => Semconv.KindUnspecified
  end.

Definition inferCategory (attrs : gmap string attr) : OperationCategory :=
  if bool_decide (is_Some (attrs !! HTTPRequestMethodKey)) then "http"
  else if bool_decide (is_Some (attrs !! DBSystemNameKey)) then "db"
  else "rpc".

Definition targetName (attrs : gmap string attr) : string :=
  if (stringAttr attrs ServicePeerNameKey <>s "")%go then stringAttr attrs ServicePeerNameKey
  else if (stringAttr attrs DBNamespaceKey <>s "")%go then stringAttr attrs DBNamespaceKey
  else stringAttr attrs ServerAddressKey.

Definition directionFromSpanKind (kind : OTelKind) : OperationDirection :=
  match kind with
  | SpanKindServer | SpanKindConsumer => "inbound"
  | SpanKindClient | SpanKindProducer => "outbound"
  | _ => ""
  end.

Definition layerFor (n : Semconv.Normalized) : Layer :=
  if Semconv.Matched n && Layer_Valid (Semconv.N_Layer n) then Semconv.N_Layer n else LayerTransport.

Definition EventFromSpan (resourceAttrs : Map) (span : Span) : Event :=
  let attrs := bridgeVolatileSignals (attributeMap (Attributes span)) span in
  let actorID :=
    if (stringAttr attrs attrActorID =s "")%go then stringResourceAttr resourceAttrs ServiceNameKey
    else stringAttr attrs attrActorID in
  let actorType :=
    if (stringAttr attrs attrActorType =s "")%go then ActorTypeService
    else stringAttr attrs attrActorType in
  let identityConfidence := default 1%float (floatAttr attrs attrIdentityConfidence) in
  let normalized := Semconv.Normalize {|
    Semconv.Span_Kind := spanKind (Kind span); Semconv.Span_Name := Name span;
    Semconv.Span_Attributes := attrs; Semconv.Span_Resource := Map_AsRaw resourceAttrs |} in
  let category := stringAttr attrs attrOperationCategory in
  let category := if (category =s "")%go && Semconv.Matched normalized
                  then Semconv.N_OperationCategory normalized else category in
  let category := if (category =s "")%go then inferCategory attrs else category in
  let operationName := if Semconv.Matched normalized then Semconv.N_OperationName normalized else Name span in
  let target := if (Semconv.N_TargetName normalized =s "")%go then targetName attrs
                else Semconv.N_TargetName normalized in
  let actorType := if (stringAttr attrs attrActorType =s "")%go && (Semconv.N_ActorType normalized <>s "")%go
                   then Semconv.N_ActorType normalized else actorType in
  let attrs := <[Semconv.AttrFidelity := AString (OrTransport (Semconv.N_Fidelity normalized))]> attrs in
  let attrs := <[Semconv.AttrLayer := AString (layerFor normalized)]> attrs in
  let '(parentSpanID, lineage) := spanLineage span in
  {| Event_ID := SpanID_String span;
     Event_Timestamp := AsTime (StartTimestamp span);
     Event_Actor := {| Actor_ID := actorID; Actor_Type := actorType;
                       Actor_IdentityConfidence := identityConfidence |};
     Event_Operation := {| Operation_Category := category; Operation_Name := operationName;
                           Operation_Direction := directionFromSpanKind (Kind span) |};
     Event_Target := {| Target_Name := target; Target_Category := "" |};
     Event_Attributes := attrs;
     Event_Context := {| Environment := stringResourceAttr resourceAttrs DeploymentEnvironmentNameKey;
                         TraceID := TraceID_String span; SpanID := SpanID_String span;
                         SessionID := Semconv.N_SessionID normalized;
                         DelegatedFrom := ""; Context_ApprovalStatus := ApprovalUnspecified;
                         ParentSpanID := parentSpanID; Context_SpanLineage := lineage |};
     Event_Execution := executionFrom span |}.

(** Which link of the actor chain bound an event's actor. *)
Inductive actorSource : Type := actorUnbound | actorFromOverride | actorFromServiceName.
Definition actorSourceOf (ev : Event) : actorSource :=
  if (stringAttr (Event_Attributes ev) attrActorID <>s "")%go then actorFromOverride
  else if (Actor_ID (Event_Actor ev) <>s "")%go then actorFromServiceName
  else actorUnbound.
End keys.

(** *** The attributes written back (attributes.go) *)
Definition fidelityOf (result : Engine.Result) : Fidelity :=
  OrTransport (stringAttr (Event_Attributes (Engine.Event_ result)) Semconv.AttrFidelity).
Definition layerOf (result : Engine.Result) : Layer :=
  let layer := stringAttr (Event_Attributes (Engine.Event_ result)) Semconv.AttrLayer in
  if Layer_Valid layer then layer else LayerUnspecified.

(** evaluation.Annotations *)
Record Annotations : Type := {
  An_Fidelity : Fidelity; An_Layer : Layer; An_HTTPStatusCode : Z; An_Usage : Usage }.
Definition annotationsOf (result : Engine.Result) : Annotations :=
  {| An_Fidelity := fidelityOf result; An_Layer := layerOf result;
     An_HTTPStatusCode := default 0 (ReadHTTPStatusCode (Event_Attributes (Engine.Event_ result)));
     An_Usage := ReadUsage (Event_Attributes (Engine.Event_ result)) |}.

End Collector.

(** *** The attributes derived for an SDK span (internal/otel/attributes.go) *)
Module OtelAttributes.
Definition fidelityOf (result : Engine.Result) : Fidelity :=
  OrTransport (Otel.stringAttr (Event_Attributes (Engine.Event_ result)) Semconv.AttrFidelity).
Definition layerOf (result : Engine.Result) : Layer :=
  let layer := Otel.stringAttr (Event_Attributes (Engine.Event_ result)) Semconv.AttrLayer in
  if Layer_Valid layer then layer else LayerUnspecified.
End OtelAttributes.

(** ** Lemmas *)

Definition transport_keys `{SemconvKeys} : list string :=
  [HTTPRequestMethodKey; DBSystemNameKey; ServicePeerNameKey; DBNamespaceKey; ServerAddressKey].
Definition derived_keys : list string := [Semconv.AttrFidelity; Semconv.AttrLayer].

(** The transport keys are neither content nor derived attributes. *)
Class SemconvKeysOk `{SemconvKeys} : Prop :=
  transport_foreign k : k ∈ transport_keys -> k ∉ Semconv.ContentAttributes /\ k ∉ derived_keys.

#[export] Instance example_keys : SemconvKeys := {|
  ServiceNameKey := "service.name"; DeploymentEnvironmentNameKey := "deployment.environment.name";
  HTTPRequestMethodKey := "http.request.method"; DBSystemNameKey := "db.system.name";
  ServicePeerNameKey := "service.peer.name"; DBNamespaceKey := "db.namespace";
  ServerAddressKey := "server.address" |}.
#[export] Instance example_keys_ok : SemconvKeysOk.
Proof.
  intros k Hk. split; intros Hc; by eapply Semconv.disjoint_keys, Hc; [|exact Hk].
Qed.

Definition override_keys : list string :=
  [attrActorID; attrActorType; attrIdentityConfidence; attrOperationCategory].

(** An event without its attributes. *)
Definition strip (ev : Event) : Event :=
  {| Event_ID := Event_ID ev; Event_Timestamp := Event_Timestamp ev; Event_Actor := Event_Actor ev;
     Event_Operation := Event_Operation ev; Event_Target := Event_Target ev; Event_Attributes := ∅;
     Event_Context := Event_Context ev; Event_Execution := Event_Execution ev |}.

Lemma event_eq ev ev' : strip ev = strip ev' -> Event_Attributes ev = Event_Attributes ev' -> ev = ev'.
Proof. destruct ev, ev'. unfold strip. cbn. congruence. Qed.

Section mapping.
Context `{SemconvKeys}.

Definition read_keys : list string := (override_keys ++ transport_keys ++ Semconv.table_keys)%list.

(** The span with other attributes. *)
Definition with_attributes (p : Collector.Span) (attrs : Collector.Map) : Collector.Span :=
  {| Collector.Name := Collector.Name p; Collector.Kind := Collector.Kind p;
     Collector.StartTimestamp := Collector.StartTimestamp p;
     Collector.EndTimestamp := Collector.EndTimestamp p; Collector.Attributes := attrs;
     Collector.Status_Code := Collector.Status_Code p; Collector.TraceID_String := Collector.TraceID_String p;
     Collector.SpanID_String := Collector.SpanID_String p;
     Collector.ParentSpanID_IsEmpty := Collector.ParentSpanID_IsEmpty p;
     Collector.ParentSpanID_String := Collector.ParentSpanID_String p |}.

Lemma bridge_agree (a a' : gmap string attr) p attrs k :
  a !! k = a' !! k ->
  Collector.bridgeVolatileSignals a p !! k =
  Collector.bridgeVolatileSignals a' (with_attributes p attrs) !! k.
Proof.
  intros E. unfold Collector.bridgeVolatileSignals. cbn [with_attributes Collector.Status_Code
    Collector.EndTimestamp Collector.StartTimestamp].
  repeat case_match; rewrite ?lookup_insert; repeat case_decide; done.
Qed.

(** What the table is given of a span. *)
Definition table_span (m : Collector.Map) (p : Collector.Span) : Semconv.Span :=
  {| Semconv.Span_Kind := Collector.spanKind (Collector.Kind p); Semconv.Span_Name := Collector.Name p;
     Semconv.Span_Attributes :=
       Collector.bridgeVolatileSignals (Collector.attributeMap (Collector.Attributes p)) p;
     Semconv.Span_Resource := Collector.Map_AsRaw m |}.

(** The event is a function of the read keys, its attributes of the span's own and the
    two derived ones. *)
Lemma EventFromSpan_agree m p attrs :
  let a := Collector.attributeMap (Collector.Attributes p) in
  let a' := Collector.attributeMap attrs in
  let ev := Collector.EventFromSpan m p in
  let ev' := Collector.EventFromSpan m (with_attributes p attrs) in
  (forall k, k ∈ read_keys -> a !! k = a' !! k) ->
  strip ev = strip ev' /\
  (forall k, k ∈ derived_keys \/ a !! k = a' !! k -> Event_Attributes ev !! k = Event_Attributes ev' !! k).
Proof.
  cbv zeta. intros Hr.
  set (b := Collector.bridgeVolatileSignals (Collector.attributeMap (Collector.Attributes p)) p).
  set (b' := Collector.bridgeVolatileSignals (Collector.attributeMap attrs) (with_attributes p attrs)).
  assert (Hb : forall k, Collector.attributeMap (Collector.Attributes p) !! k = Collector.attributeMap attrs !! k ->
    b !! k = b' !! k) by (intros k; apply bridge_agree).
  assert (Hk : forall k, k ∈ read_keys -> b !! k = b' !! k) by (intros k Hk; by apply Hb, Hr).
  assert (Hs : forall k, k ∈ override_keys \/ k ∈ transport_keys -> Collector.stringAttr b k = Collector.stringAttr b' k).
  { intros k Hin. unfold Collector.stringAttr. rewrite Hk; [done|]. unfold read_keys. set_solver. }
  assert (Hn : Semconv.Normalize (table_span m p) = Semconv.Normalize (table_span m (with_attributes p attrs))).
  { apply Semconv.Normalize_agree. intros k Hin. apply Hk. unfold read_keys. set_solver. }
  assert (Hf : Collector.floatAttr b attrIdentityConfidence = Collector.floatAttr b' attrIdentityConfidence).
  { unfold Collector.floatAttr. rewrite Hk; [done|]. unfold read_keys. set_solver. }
  assert (Hi : Collector.inferCategory b = Collector.inferCategory b').
  { unfold Collector.inferCategory. rewrite !Hk; [done|unfold read_keys; set_solver..]. }
  assert (Ht : Collector.targetName b = Collector.targetName b').
  { unfold Collector.targetName. by rewrite !Hs by (right; set_solver). }
  assert (Ho : Forall (fun k => Collector.stringAttr b k = Collector.stringAttr b' k) override_keys)
    by (apply Forall_forall; intros; apply Hs; by left).
  unfold override_keys in Ho. rewrite !Forall_cons in Ho. destruct Ho as (H1 & H2 & _ & H4 & _).
  unfold Collector.EventFromSpan, strip. unfold table_span in Hn. cbv zeta.
  change (Collector.attributeMap (Collector.Attributes (with_attributes p attrs))) with (Collector.attributeMap attrs).
  cbn [with_attributes Collector.Name Collector.Kind Collector.Attributes] in Hn.
  fold b. fold b'. fold b in Hn. fold b' in Hn.
  cbn [with_attributes Collector.Name Collector.Kind]. rewrite Hn, H1, H2, H4, Hf, Hi, Ht.
  change (Collector.spanLineage (with_attributes p attrs)) with (Collector.spanLineage p).
  destruct (Collector.spanLineage p). cbn. split; [done|].
  intros k Hin. rewrite !lookup_insert. repeat case_decide; try done.
  apply Hb. destruct Hin as [Hin|Hin]; [|done]. unfold derived_keys in Hin. set_solver.
Qed.

Lemma bridge_other a p k : k <> AttrDurationMS -> k <> AttrError ->
  Collector.bridgeVolatileSignals a p !! k = a !! k.
Proof.
  intros H1 H2. unfold Collector.bridgeVolatileSignals. repeat case_match; by rewrite ?lookup_insert_ne.
Qed.

Lemma derived_disjoint_read `{!SemconvKeysOk} k : k ∈ derived_keys -> k ∉ read_keys.
Proof.
  intros Hk. unfold read_keys. rewrite !elem_of_app. intros [Ho | [Ht | Ht]].
  - by eapply Semconv.disjoint_keys, Ho; [|exact Hk].
  - by apply transport_foreign in Ht as [_ ?].
  - by apply Semconv.derived_disjoint in Ht.
Qed.

Lemma content_disjoint_read `{!SemconvKeysOk} k : k ∈ Semconv.ContentAttributes -> k ∉ read_keys.
Proof.
  intros Hk. unfold read_keys. rewrite !elem_of_app. intros [Ho | [Ht | Ht]].
  - by eapply Semconv.disjoint_keys, Ho; [|exact Hk].
  - by apply transport_foreign in Ht as [? _].
  - by eapply Semconv.content_disjoint; [exact Hk|right; right].
Qed.

Lemma firstCount_agree (a a' : gmap string attr) keys limit :
  (forall k, k ∈ keys -> a !! k = a' !! k) -> firstCount a keys limit = firstCount a' keys limit.
Proof.
  induction keys as [|k keys IH]; intros Ha; [done|]. cbn [firstCount]. rewrite <- (Ha k) by set_solver.
  case_match; [done|]. apply IH. set_solver.
Qed.

(** What the engine and the control plane read of attributes: nothing of the content. *)
Lemma content_not_usage k :
  k ∈ (AttrDurationMS :: AttrError :: "llm.token_count.total" ::
       inputTokenKeys ++ outputTokenKeys ++ statusCodeKeys)%list -> k ∉ Semconv.ContentAttributes.
Proof.
  intros Hk Hc. by eapply Semconv.disjoint_keys, Hc; [|exact Hk].
Qed.

Lemma reads_agree ev ev' :
  strip ev = strip ev' ->
  (forall k, k ∉ Semconv.ContentAttributes -> Event_Attributes ev !! k = Event_Attributes ev' !! k) ->
  Extract ev = Extract ev' /\ ReadUsage (Event_Attributes ev) = ReadUsage (Event_Attributes ev') /\
  ReadHTTPStatusCode (Event_Attributes ev) = ReadHTTPStatusCode (Event_Attributes ev').
Proof.
  intros Hs Ha. assert (Hu : forall k, k ∈ (AttrDurationMS :: AttrError :: "llm.token_count.total" ::
       inputTokenKeys ++ outputTokenKeys ++ statusCodeKeys)%list ->
       Event_Attributes ev !! k = Event_Attributes ev' !! k) by (intros; by apply Ha, content_not_usage).
  split; [|split].
  - unfold Extract, durationMillisAttr, boolAttr. rewrite !Hu by set_solver.
    clear Ha Hu. destruct ev, ev'. injection Hs. intros. by subst.
  - unfold ReadUsage. cbv zeta. rewrite !(firstCount_agree (Event_Attributes ev) (Event_Attributes ev'));
      [done|intros k Hk; apply Hu; set_solver..].
  - unfold ReadHTTPStatusCode. rewrite (firstCount_agree (Event_Attributes ev) (Event_Attributes ev'));
      [done|intros k Hk; apply Hu; set_solver].
Qed.
End mapping.

(** *** What both libraries report of one span *)






Section agreement.
Context `{SemconvKeys}.




End agreement.

Section properties.
Context `{SemconvKeys} `{!SemconvKeysOk}.

Lemma EventFromSpan_attributes m p k :
  k <> Semconv.AttrFidelity -> k <> Semconv.AttrLayer -> k <> AttrDurationMS -> k <> AttrError ->
  Event_Attributes (Collector.EventFromSpan m p) !! k =
  Collector.attributeMap (Collector.Attributes p) !! k.
Proof.
  intros. unfold Collector.EventFromSpan. cbv zeta. destruct (Collector.spanLineage p). cbn.
  rewrite !lookup_insert_ne by done. by apply bridge_other.
Qed.

Lemma EventFromSpan_derived m p :
  let n := Semconv.Normalize (table_span m p) in
  let ev := Collector.EventFromSpan m p in
  Event_Attributes ev !! Semconv.AttrFidelity = Some (AString (OrTransport (Semconv.N_Fidelity n))) /\
  Event_Attributes ev !! Semconv.AttrLayer = Some (AString (Collector.layerFor n)).
Proof.
  cbv zeta. unfold Collector.EventFromSpan. cbv zeta. destruct (Collector.spanLineage p). cbn.
  split; [rewrite lookup_insert_ne by done|]; by rewrite lookup_insert_eq.
Qed.

(** A row fired, or none did: nothing in between is written on an event. *)
Lemma derived_values s : let n := Semconv.Normalize s in
  let layer := if Layer_Valid (Collector.layerFor n) then Collector.layerFor n else LayerUnspecified in
  (Semconv.Matched n = true /\ OrTransport (OrTransport (Semconv.N_Fidelity n)) = FidelitySemantic /\
   layer ∈ [LayerTool; LayerModel; LayerRetrieval]) \/
  (Semconv.Matched n = false /\ OrTransport (OrTransport (Semconv.N_Fidelity n)) = FidelityTransport /\
   layer = LayerTransport).
Proof.
  cbv zeta. unfold Collector.layerFor.
  destruct (Semconv.Normalize_coherent s) as [(-> & -> & Hin & _) | ->]; [left|by right].
  rewrite !elem_of_cons, elem_of_nil in Hin.
  by destruct Hin as [-> | [-> | [-> | []]]]; cbn; (split; [|split]); try done; apply (bool_decide_unpack _).
Qed.

Lemma EventFromSpan_name m p :
  let n := Semconv.Normalize (table_span m p) in
  Operation_Name (Event_Operation (Collector.EventFromSpan m p)) =
  if Semconv.Matched n then Semconv.N_OperationName n else Collector.Name p.
Proof. unfold Collector.EventFromSpan. cbv zeta. by destruct (Collector.spanLineage p). Qed.

(** a semantic identity is never claimed, only established: the fidelity read back
    from a mapped event is semantic exactly when a convention row fired, its name then
    is a string the span carried under an identity attribute (or the unnamed
    retriever) and its layer a model call, a tool or a retrieval; otherwise fidelity
    and layer are transport and the name is the span's own; and a producer that writes
    the derived attributes itself changes nothing of the event. *)
Theorem fidelity_established m p result :
  Engine.Event_ result = Collector.EventFromSpan m p ->
  let n := Semconv.Normalize (table_span m p) in
  let name := Operation_Name (Event_Operation (Engine.Event_ result)) in
  (Collector.fidelityOf result = FidelitySemantic <-> Semconv.Matched n = true) /\
  (Semconv.Matched n = true ->
     Collector.layerOf result ∈ [LayerTool; LayerModel; LayerRetrieval] /\
     (name = "retriever" \/ Semconv.named (Collector.attributeMap (Collector.Attributes p)) name)) /\
  (Semconv.Matched n = false ->
     Collector.fidelityOf result = FidelityTransport /\ Collector.layerOf result = LayerTransport /\
     name = Collector.Name p) /\
  (forall claimed, (forall k, k ∉ derived_keys ->
       Collector.attributeMap (Collector.Attributes p) !! k = Collector.attributeMap claimed !! k) ->
     Collector.EventFromSpan m (with_attributes p claimed) = Engine.Event_ result).
Proof.
  intros He. cbv zeta. set (n := Semconv.Normalize (table_span m p)).
  destruct (EventFromSpan_derived m p) as [Hf Hl]. fold n in Hf, Hl.
  unfold Collector.fidelityOf, Collector.layerOf, Collector.stringAttr. cbv zeta.
  rewrite He, Hf, Hl, EventFromSpan_name. fold n.
  pose proof (derived_values (table_span m p)) as Hd. cbv zeta in Hd. fold n in Hd.
  split; [|split; [|split]].
  - by destruct Hd as [(-> & -> & _)|(-> & -> & _)].
  - intros Hm. destruct Hd as [(_ & _ & Hd)|(? & _)]; [|congruence]. split; [done|]. rewrite Hm.
    destruct (Semconv.Normalize_named (table_span m p) Hm) as [|(k & Hk & Ek)]; [by left|right].
    exists k. split; [done|]. fold n in Ek. rewrite <- Ek. symmetry.
    apply bridge_other; intros ->; by eapply (Semconv.disjoint_keys [AttrDurationMS; AttrError]), Hk; [|set_solver].
  - intros Hm. rewrite Hm. destruct Hd as [(? & _)|(_ & -> & ->)]; [congruence|done].
  - intros claimed Hc.
    destruct (EventFromSpan_agree m p claimed) as [Es Ea].
    { intros k Hk. apply Hc. intros Hin. by eapply derived_disjoint_read. }
    symmetry. apply event_eq; [done|]. apply map_eq. intros k. apply Ea.
    destruct (decide (k ∈ derived_keys)); [by left|right; by apply Hc].
Qed.

(** C31: what an agent said never becomes what it did: two spans that differ only in
    content attributes (prompts, completions, tool arguments and results, documents,
    a human's id) map to the same identity, context and execution, the same features,
    usage and status code, so every engine, whatever it has learned, gives both the
    same fingerprint, baseline, anomaly and trust; the rest of the attributes agree. *)
Theorem content_never_identity m p attrs :
  (forall k, k ∉ Semconv.ContentAttributes ->
     Collector.attributeMap (Collector.Attributes p) !! k = Collector.attributeMap attrs !! k) ->
  let ev := Collector.EventFromSpan m p in
  let ev' := Collector.EventFromSpan m (with_attributes p attrs) in
  strip ev = strip ev' /\
  (forall k, k ∉ Semconv.ContentAttributes -> Event_Attributes ev !! k = Event_Attributes ev' !! k) /\
  Extract ev = Extract ev' /\ ReadUsage (Event_Attributes ev) = ReadUsage (Event_Attributes ev') /\
  ReadHTTPStatusCode (Event_Attributes ev) = ReadHTTPStatusCode (Event_Attributes ev') /\
  (forall {S} `{Store S} sprint_other e (s : S) r, Engine.Analyze sprint_other e s ev = Ok r ->
     exists r', Engine.Analyze sprint_other e s ev' = Ok r' /\
       Engine.Fingerprint_ r' = Engine.Fingerprint_ r /\ Engine.BaselineKey r' = Engine.BaselineKey r /\
       Engine.Anomaly_ r' = Engine.Anomaly_ r /\ Engine.Trust_ r' = Engine.Trust_ r).
Proof.
  intros Hc. cbv zeta. destruct (EventFromSpan_agree m p attrs) as [Es Ea].
  { intros k Hk. apply Hc. intros Hd. by eapply content_disjoint_read. }
  assert (Ha : forall k, k ∉ Semconv.ContentAttributes ->
    Event_Attributes (Collector.EventFromSpan m p) !! k =
    Event_Attributes (Collector.EventFromSpan m (with_attributes p attrs)) !! k)
    by (intros k Hk; apply Ea; right; by apply Hc).
  destruct (reads_agree _ _ Es Ha) as (Ex & Eu & Eh).
  do 5 (split; [done|]). intros S Hst sprint e s r Hr.
  revert Es Ex Hr. generalize (Collector.EventFromSpan m p) as ev.
  generalize (Collector.EventFromSpan m (with_attributes p attrs)) as ev'. intros ev' ev Es Ex.
  assert (Ev : Event_Validate ev = Event_Validate ev' /\ Event_Actor ev = Event_Actor ev' /\
               Event_Context ev = Event_Context ev').
  { destruct ev, ev'. injection Es. intros. by subst. }
  destruct Ev as (Ev & Eact & Ectx). unfold Engine.Analyze. rewrite Ev, Ex, Eact, Ectx.
  destruct (Event_Validate ev'); [|done]. cbn. destruct (Get s _). intros [= <-]. by eexists.
Qed.
End properties.

Definition pdata_string (s : string) : Collector.Value := {| Collector.AsRaw := AString s; Collector.Str := s |}.
Definition pdata_map (kvs : list (string * string)) : Collector.Map :=
  {| Collector.All := prod_map id pdata_string <$> kvs;
     Collector.Get := fun k => pdata_string <$> (list_to_map kvs : gmap string string) !! k;
     Collector.Map_AsRaw := AString <$> (list_to_map kvs : gmap string string) |}.

Definition example_attributes : list (string * string) :=
  [("gen_ai.operation.name", "execute_tool"); ("gen_ai.tool.name", "export_customer");
   ("gen_ai.agent.name", "support"); ("gen_ai.conversation.id", "c-1");
   ("gen_ai.tool.call.arguments", "{}"); ("http.request.method", "POST");
   ("server.address", "export.localhost")].
Definition example_resource : list (string * string) :=
  [("service.name", "payment-gateway"); ("deployment.environment.name", "production")].
Definition example_start : time := Time (unix_epoch + 1704067200 * 1000000000) 0.
Definition example_end : time := time_add example_start 120000000.

Definition example_span : Collector.Span :=
  {| Collector.Name := "POST /v1/export"; Collector.Kind := SpanKindClient;
     Collector.StartTimestamp := {| Collector.Nanos := 1704067200 * 1000000000; Collector.AsTime := example_start |};
     Collector.EndTimestamp :=
       {| Collector.Nanos := 1704067200 * 1000000000 + 120000000; Collector.AsTime := example_end |};
     Collector.Attributes := pdata_map example_attributes; Collector.Status_Code := StatusCodeError;
     Collector.TraceID_String := "0af7651916cd43dd8448eb211c80319c"; Collector.SpanID_String := "b7ad6b7169203331";
     Collector.ParentSpanID_IsEmpty := false; Collector.ParentSpanID_String := "00f067aa0ba902b7" |}.





Definition example_event : Event := Collector.EventFromSpan (pdata_map example_resource) example_span.

Lemma example_analyzed :
  is_ok (Engine.Analyze (fun _ => "") Engine.default_engine NewInMemory example_event) = true.
Proof. by vm_compute. Qed.

Lemma fidelity_established_witness : exists r,
  Engine.Analyze (fun _ => "") Engine.default_engine NewInMemory example_event = Ok r /\
  Collector.fidelityOf r = FidelitySemantic /\
  Operation_Name (Event_Operation (Engine.Event_ r)) = "export_customer".
Proof.
  destruct (proj1 (is_ok_spec _) example_analyzed) as [r Hr]. exists r. split; [exact Hr|].
  pose proof (Engine.Analyze_Ok _ _ _ _ _ Hr) as (_ & He & _).
  destruct (fidelity_established (pdata_map example_resource) example_span r He) as (Hf & _).
  split; [apply Hf; vm_compute; reflexivity|]. rewrite He. vm_compute. reflexivity.
Defined.

(** The same call with other arguments, and with a claim of its own. *)
Definition other_content : list (string * string) :=
  (("gen_ai.tool.call.result", "secret") :: example_attributes)%list.

Lemma content_never_identity_witness :
  Extract example_event =
  Extract (Collector.EventFromSpan (pdata_map example_resource)
             (with_attributes example_span (pdata_map other_content))).
Proof.
  apply (content_never_identity (pdata_map example_resource) example_span (pdata_map other_content)).
  intros k Hk. unfold Collector.attributeMap. cbn. rewrite !lookup_insert.
  repeat (case_decide; [done|]). case_decide as E; [|done]. exfalso. apply Hk. subst k.
  apply (bool_decide_unpack _). by vm_compute.
Defined.
