(* ===== verification/Delivery.v ===== *)
(** * Delivery of records to an evaluation run (processor/internal/evaluation)

    The collector's sink: it posts each decision record to one run of the control plane at
    a sequence of its own, applies the record's learning once the control plane has
    confirmed it, and keeps one entry in a file so that the next process can tell what the
    last one left undone.  A call is a program over the commands that leave the process
    (a request, a file operation, an application of learning); [runs] gives every way it
    can go: a request that never left, one whose reply is lost and that the server may
    handle any number of times, at any later time; a file operation that fails before or
    after it took effect, or took effect without being durable; learning that fails before
    or after it was applied; the process dying between any two commands.

    Parameters: the server, through [RunServer] and its laws ([IngestApi] implements them),
    and encoding/json, [DeliveryJSON].  The sink's mutex makes a call one step of [sys_step]. *)
From S2P Require Import Prelude Domain Recency RunStore EvidenceStore Ingest Scenario Catalog ControlPlane IngestApi.
From S2P Require Import GoText GoTime Event DecisionRecord Operational RunServer Spans.
Import Spans.Collector.

Open Scope string_scope.
Open Scope Z_scope.

(** ** Commands *)

(** What a request answers: it never left the process, no reply came, or one did. *)
Inductive net : Type := NeverSent | NoReply | Answered (r : response).

Section prog.
Context {file : Type}.

Inductive prog (A : Type) : Type :=
| Ret (a : A)
| PostRecord (env : ingestEnvelope) (k : net -> prog A)
| GetIngestState (k : net -> prog A)
| GetProgress (k : net -> prog A)
| ReplaceFile (raw : file) (k : bool -> prog A)          (* temp file, fsync, rename, fsync of the directory *)
| OpenFile (k : option (option file) -> prog A)          (* [None]: it cannot be read *)
| RemoveFile (k : bool -> prog A)
| ApplyLearning (payload : string) (k : bool -> prog A).

Fixpoint prog_bind {A B} (p : prog A) (f : A -> prog B) : prog B :=
  match p with
  | Ret _ a => f a
  | PostRecord _ env k => PostRecord _ env (fun n => prog_bind (k n) f)
  | GetIngestState _ k => GetIngestState _ (fun n => prog_bind (k n) f)
  | GetProgress _ k => GetProgress _ (fun n => prog_bind (k n) f)
  | ReplaceFile _ raw k => ReplaceFile _ raw (fun b => prog_bind (k b) f)
  | OpenFile _ k => OpenFile _ (fun o => prog_bind (k o) f)
  | RemoveFile _ k => RemoveFile _ (fun b => prog_bind (k b) f)
  | ApplyLearning _ payload k => ApplyLearning _ payload (fun b => prog_bind (k b) f)
  end.
End prog.
Arguments prog file A : clear implicits.
Arguments Ret {file A}.
Arguments PostRecord {file A}.
Arguments GetIngestState {file A}.
Arguments GetProgress {file A}.
Arguments ReplaceFile {file A}.
Arguments OpenFile {file A}.
Arguments RemoveFile {file A}.
Arguments ApplyLearning {file A}.

(** ** The entry on file (pending.go) *)
Definition pendingVersion : string := "1".
Definition maxPendingFile : Z := 4 * 2 ^ 20.

Inductive pendingState : Type := statePosting | stateConfirmed.
Definition state_text (st : pendingState) : string :=
  match st with statePosting => "posting" | stateConfirmed => "confirmed" end.

(** The state is text on file; only the two are ever written. *)
Record pendingEntry : Type := {
  E_Version : string; E_RunID : string; E_Sequence : string; E_State : string;
  E_Record : DecisionRecord; E_Learning : string }.

Definition text_len (s : string) : Z := Z.of_nat (String.length s).
Definition stateHeadroom (state : string) : Z :=
  let longest := text_len (state_text statePosting) in
  let longest := if longest <? text_len (state_text stateConfirmed) then text_len (state_text stateConfirmed) else longest in
  longest - text_len state.

Definition with_state (e : pendingEntry) (state : string) : pendingEntry :=
  {| E_Version := E_Version e; E_RunID := E_RunID e; E_Sequence := E_Sequence e; E_State := state;
     E_Record := E_Record e; E_Learning := E_Learning e |}.

(** encoding/json on the entry and on the size of an envelope; [None] is its error.  [kept]
    are the records and payloads it gives back as they were, on file and on the wire: valid
    UTF-8, whole-minute offsets, a payload that is compact JSON. *)
Class DeliveryJSON (file : Type) : Type := {
  envelope_size : ingestEnvelope -> option Z;
  marshal_entry : pendingEntry -> option file;
  unmarshal_entry : file -> option pendingEntry;
  file_size : file -> Z;
  kept : DecisionRecord -> string -> Prop;
  entry_roundtrip e raw : marshal_entry e = Some raw -> kept (E_Record e) (E_Learning e) ->
    valid_string (E_RunID e) = true -> unmarshal_entry raw = Some e;
  entry_state e raw state : marshal_entry e = Some raw -> state = "posting" \/ state = "confirmed" ->
    exists raw', marshal_entry (with_state e state) = Some raw' /\
      file_size raw' + text_len (E_State e) = file_size raw + text_len state;
}.

(** ** The wire (client.go) *)
Definition maxRequestBody : Z := 256 * 2 ^ 10.
Definition dispositionApplied : string := "applied".
Definition dispositionReplayed : string := "replayed".
Definition runStatusRunning : string := "running".

Definition outcomeUnknown (e : error) : bool := errors_is e ErrOutcomeUnknown.
Definition unknownOutcome : error := [ErrOutcomeUnknown].

Definition parseSequence (s : string) : res Z :=
  match parse_uint s with
  | None => Err []
  | Some v =>
      fail_if (format_uint 10 v <>s s)%go [];;
      fail_if (v =? 0) [];;
      Ok v
  end.

(** [client.do]: a reply too large or cut off is no reply. *)
Definition received (n : net) : res response :=
  match n with NeverSent => Err [] | NoReply => Err unknownOutcome | Answered r => Ok r end.
Definition checkStatus (r : response) : res unit :=
  if (200 <=? Resp_Status r) && (Resp_Status r <? 300) then Ok tt
  else if 500 <=? Resp_Status r then Err unknownOutcome
  else Err [].
(** The decoded body; [e] when it is not JSON for the endpoint. *)
Definition body_of (e : error) (r : response) : res response_body :=
  match Resp_Body r with None => Err e | Some body => Ok body end.

Definition optional_text (has : bool) (text : string) : option string := if has then Some text else None.

(** The envelope [client.ingest] encodes; an empty string is an absent field. *)
Definition envelope_of (sequence : Z) (profile : string) (annotations : Annotations) (record : DecisionRecord) : ingestEnvelope :=
  let u := An_Usage annotations in
  {| Env_Version := WireVersion; Env_Sequence := format_uint 10 sequence; Env_BehavioralProfile := profile;
     Env_Fidelity := An_Fidelity annotations; Env_BehaviorLayer := An_Layer annotations;
     Env_HTTPStatusCode := optional_text (negb (An_HTTPStatusCode annotations =? 0)) (format_uint 10 (An_HTTPStatusCode annotations));
     Env_TokensInput := optional_text (HasInput u) (format_uint 10 (Usage_Input u));
     Env_TokensOutput := optional_text (HasOutput u) (format_uint 10 (Usage_Output u));
     Env_TokensUnsplit := optional_text (HasUnsplit u) (format_uint 10 (Usage_Unsplit u));
     Env_Record := record |}.

(** What [client.ingest] makes of the reply: the disposition and the next sequence. *)
Definition ingest_result (n : net) : res (string * Z) :=
  r ← received n;
  checkStatus r;;
  body ← body_of unknownOutcome r;
  next ← map_err (fun _ => unknownOutcome) (parseSequence (Body_NextSequence body));
  Ok (Body_Disposition body, next).
Definition state_result (n : net) : res Z :=
  r ← received n;
  checkStatus r;;
  body ← body_of [] r;
  parseSequence (Body_NextSequence body).
Definition progress_result (n : net) : res string :=
  r ← received n;
  checkStatus r;;
  body ← body_of [] r;
  fail_if (Body_Status body =s "")%go [];;
  Ok (Body_Status body).

(** ** The sink (sink.go) *)
Record pendingRecord : Type := {
  P_sequence : Z; P_record : DecisionRecord; P_learning : string; P_annotations : Annotations; P_state : pendingState }.
Record Sink : Type := {
  S_runID : string; S_profile : string; S_next : Z; S_initialized : bool; S_pending : option pendingRecord }.

Inductive RecoveryOutcome : Type := RecoveryNone | RecoveryCompleted | RecoveryDiscarded | RecoveryIndeterminate.
Record Recovery : Type := { Rec_Outcome : RecoveryOutcome; Rec_Sequence : Z; Rec_Disposition : string }.

Definition no_annotations : Annotations :=
  {| An_Fidelity := ""; An_Layer := ""; An_HTTPStatusCode := 0;
     An_Usage := {| Usage_Input := 0; HasInput := false; Usage_Output := 0; HasOutput := false;
                    Usage_Unsplit := 0; HasUnsplit := false |} |}.

Definition with_next (s : Sink) (next : Z) : Sink :=
  {| S_runID := S_runID s; S_profile := S_profile s; S_next := next; S_initialized := S_initialized s; S_pending := S_pending s |}.
Definition with_pending (s : Sink) (pending : option pendingRecord) : Sink :=
  {| S_runID := S_runID s; S_profile := S_profile s; S_next := S_next s; S_initialized := S_initialized s; S_pending := pending |}.
Definition with_initialized (s : Sink) : Sink :=
  {| S_runID := S_runID s; S_profile := S_profile s; S_next := S_next s; S_initialized := true; S_pending := S_pending s |}.
Definition confirmed (held : pendingRecord) : pendingRecord :=
  {| P_sequence := P_sequence held; P_record := P_record held; P_learning := P_learning held;
     P_annotations := P_annotations held; P_state := stateConfirmed |}.

Definition entryFor (runID : string) (state : pendingState) (held : pendingRecord) : pendingEntry :=
  {| E_Version := pendingVersion; E_RunID := runID; E_Sequence := format_uint 10 (P_sequence held);
     E_State := state_text state; E_Record := P_record held; E_Learning := P_learning held |}.

Section sink.
Context {file : Type} `{DeliveryJSON file}.

(** A call on the sink: it changes the sink and answers, or fails. *)
Definition call (A : Type) : Type := Sink -> prog file (Sink * res A).

(** [if err != nil] after a call: its error is handled by [handler]. *)
Definition call_bind {A B} (m : call A) (f : A -> call B) (handler : error -> call B) : call B :=
  fun s => prog_bind (m s) (fun '(s, r) => match r with Ok a => f a s | Err e => handler e s end).
Definition fail {A} (e : error) : call A := fun s => Ret (s, Err e).
Definition answer {A} (a : A) : call A := fun s => Ret (s, Ok a).

(** *** The journal *)
Definition journal_write (entry : pendingEntry) : call unit := fun s =>
  match marshal_entry entry with
  | None => Ret (s, Err [])
  | Some raw =>
      if maxPendingFile <? file_size raw + stateHeadroom (E_State entry) then Ret (s, Err [])
      else ReplaceFile raw (fun done => Ret (s, if done then Ok tt else Err []))
  end.
Definition journal_clear : call unit := fun s =>
  RemoveFile (fun done => Ret (s, if done then Ok tt else Err [])).

Definition checked_entry (entry : pendingEntry) : res (pendingEntry * Z * pendingState) :=
  fail_if (E_Version entry <>s pendingVersion)%go [];;
  fail_if (E_RunID entry =s "")%go [];;
  sequence ← parseSequence (E_Sequence entry);
  st ← (if (E_State entry =s "posting")%go then Ok statePosting
        else if (E_State entry =s "confirmed")%go then Ok stateConfirmed
        else Err []);
  fail_if (E_Learning entry =s "")%go [];;
  Ok (entry, sequence, st).
Definition loaded (content : option (option file)) : res (option (pendingEntry * Z * pendingState)) :=
  match content with
  | None => Err []
  | Some None => Ok None
  | Some (Some raw) =>
      if maxPendingFile <? file_size raw then Err []
      else match unmarshal_entry raw with
           | None => Err []
           | Some entry => e ← checked_entry entry; Ok (Some e)
           end
  end.
Definition journal_load : call (option (pendingEntry * Z * pendingState)) := fun s =>
  OpenFile (fun content => Ret (s, loaded content)).

(** *** Delivery *)
Definition client_ingest (sequence : Z) (profile : string) (annotations : Annotations) (record : DecisionRecord)
    : call (string * Z) := fun s =>
  let envelope := envelope_of sequence profile annotations record in
  match envelope_size envelope with
  | None => Ret (s, Err [])
  | Some size =>
      if maxRequestBody <? size then Ret (s, Err [])
      else PostRecord envelope (fun n => Ret (s, ingest_result n))
  end.
Definition client_ingestState : call Z := fun s => GetIngestState (fun n => Ret (s, state_result n)).
Definition client_runStatus : call string := fun s => GetProgress (fun n => Ret (s, progress_result n)).

(** What [attempt] does with the client's answer. *)
Definition attempt_reply (sequence : Z) (r : res (string * Z)) : call string := fun s =>
  match r with
  | Err e => fail e s
  | Ok (disposition, next) =>
      if negb ((disposition =s dispositionApplied) || (disposition =s dispositionReplayed))%go then fail unknownOutcome s
      else if next <=? sequence then fail unknownOutcome s
      else Ret (with_next s next, Ok disposition)
  end.
Definition attempt (sequence : Z) (annotations : Annotations) (record : DecisionRecord) : call string := fun s =>
  prog_bind (client_ingest sequence (S_profile s) annotations record s) (fun '(s, r) => attempt_reply sequence r s).

(** The caller holds a pending record. *)
Definition settle (held : pendingRecord) : call unit := fun s =>
  call_bind (journal_write (entryFor (S_runID s) stateConfirmed held)) (fun _ s =>
    let s := with_pending s (Some (confirmed held)) in
    ApplyLearning (P_learning held) (fun learned =>
      if negb learned then Ret (s, Err [ErrLearningIndeterminate])
      else
        let s := with_pending s None in
        call_bind journal_clear answer fail s))
  (fun e => fail (ErrUnresolved :: e)) s.

Definition reconcile (held : pendingRecord) : call string :=
  call_bind (attempt (P_sequence held) (P_annotations held) (P_record held)) (fun disposition =>
    call_bind (settle held) (fun _ => answer disposition) fail)
  (fun e => fail (ErrUnresolved :: e)).

(** The part of [Record] after what an earlier call left is settled. *)
Definition record_next (record : DecisionRecord) (annotations : Annotations) (learning : string) : call string := fun s =>
  let sequence := S_next s in
  let held := {| P_sequence := sequence; P_record := record; P_learning := learning;
                 P_annotations := annotations; P_state := statePosting |} in
  call_bind (journal_write (entryFor (S_runID s) statePosting held)) (fun _ s =>
    let s := with_pending s (Some held) in
    call_bind (attempt sequence annotations record)
      (fun disposition => call_bind (settle held) (fun _ => answer disposition) fail)
      (fun err s =>
        if negb (outcomeUnknown err) then
          let s := with_pending s None in
          call_bind journal_clear (fun _ => fail err) (fun clearErr => fail (err ++ clearErr)%list) s
        else reconcile held s) s)
  fail s.

Definition Record_ (record : DecisionRecord) (annotations : Annotations) (learning : string) : call string := fun s =>
  if negb (S_initialized s) then fail [] s
  else if (learning =s "")%go then fail [] s
  else
    match S_pending s with
    | Some held =>
        match P_state held with
        | stateConfirmed => fail [ErrLearningIndeterminate] s
        | statePosting => call_bind (reconcile held) (fun _ => record_next record annotations learning) fail s
        end
    | None => record_next record annotations learning s
    end.

(** The cursor is taken and the sink is ready. *)
Definition ready (next : Z) (recovery : Recovery) : call Recovery := fun s =>
  Ret (with_initialized (with_next s next), Ok recovery).

Definition recover (entry : pendingEntry) (sequence : Z) (st : pendingState) : call Recovery :=
  call_bind client_ingestState (fun next =>
    match st with
    | stateConfirmed =>
        if negb (next =? u64 (sequence + 1)) then fail []
        else call_bind journal_clear
               (fun _ => ready next {| Rec_Outcome := RecoveryIndeterminate; Rec_Sequence := sequence; Rec_Disposition := "" |}) fail
    | statePosting =>
        if next =? sequence then
          call_bind journal_clear
            (fun _ => ready next {| Rec_Outcome := RecoveryDiscarded; Rec_Sequence := sequence; Rec_Disposition := "" |}) fail
        else if next =? u64 (sequence + 1) then fun s =>
          let held := {| P_sequence := sequence; P_record := E_Record entry; P_learning := E_Learning entry;
                         P_annotations := no_annotations; P_state := statePosting |} in
          call_bind (reconcile held) (fun disposition s =>
              Ret (with_initialized s,
                   Ok {| Rec_Outcome := RecoveryCompleted; Rec_Sequence := sequence; Rec_Disposition := disposition |}))
            fail (with_next (with_pending s (Some held)) sequence)
        else fail []
    end) fail.

Definition Initialize : call Recovery :=
  call_bind client_runStatus (fun status =>
    if (status <>s runStatusRunning)%go then fail []
    else call_bind journal_load (fun found =>
      match found with
      | None => call_bind client_ingestState
                  (fun next => ready next {| Rec_Outcome := RecoveryNone; Rec_Sequence := 0; Rec_Disposition := "" |}) fail
      | Some (entry, sequence, st) => fun s =>
          if (E_RunID entry <>s S_runID s)%go then fail [] s else recover entry sequence st s
      end) fail) fail.
End sink.

(** ** The world a sink runs in *)
Section world.
Context {file : Type} {J : DeliveryJSON file} {St : Type} {RS : RunServer St} {RL : RunServerLaws St}.

(** [w_survive] holds the other contents the file may have after the machine stops;
    [w_inflight] the requests without a reply, which the server may handle at any time. *)
Record world : Type := {
  w_server : St;
  w_file : option file;
  w_survive : list (option file);
  w_inflight : list ingestEnvelope;
  w_learned : list string;
}.

Definition with_server (w : world) (s : St) : world :=
  {| w_server := s; w_file := w_file w; w_survive := w_survive w; w_inflight := w_inflight w; w_learned := w_learned w |}.
Definition with_file (w : world) (content : option file) (survive : list (option file)) : world :=
  {| w_server := w_server w; w_file := content; w_survive := survive; w_inflight := w_inflight w; w_learned := w_learned w |}.
Definition unanswered (w : world) (env : ingestEnvelope) : world :=
  {| w_server := w_server w; w_file := w_file w; w_survive := w_survive w; w_inflight := env :: w_inflight w; w_learned := w_learned w |}.
Definition learned (w : world) (payload : string) : world :=
  {| w_server := w_server w; w_file := w_file w; w_survive := w_survive w; w_inflight := w_inflight w;
     w_learned := (w_learned w ++ [payload])%list |}.

(** The run stays below 2^53 records. *)
Definition room (s : St) : Prop := forall l, sv_log s l -> Z.of_nat (length l) + 1 < 2 ^ 53.

Inductive handles (w : world) (env : ingestEnvelope) : response -> world -> Prop :=
| Handles now s reply : room (w_server w) -> post_record now (w_server w) env = (s, reply) ->
    handles w env reply (with_server w s).

Inductive post_out (w : world) (env : ingestEnvelope) : net -> world -> Prop :=
| po_never : post_out w env NeverSent w
| po_lost : post_out w env NoReply (unanswered w env)
| po_gateway r : 500 <= Resp_Status r -> post_out w env (Answered r) (unanswered w env)
| po_server r w' : handles w env r w' -> post_out w env (Answered r) w'.

Inductive get_out (reply : response) : net -> Prop :=
| go_never : get_out reply NeverSent
| go_lost : get_out reply NoReply
| go_gateway r : 500 <= Resp_Status r -> get_out reply (Answered r)
| go_server : get_out reply (Answered reply).

(** A failed operation left the file, or changed it without the change being durable. *)
Inductive file_out (w : world) (content : option file) : bool -> world -> Prop :=
| fo_done : file_out w content true (with_file w content [])
| fo_unchanged : file_out w content false w
| fo_unsynced : file_out w content false (with_file w content (w_file w :: w_survive w)).

Inductive learn_out (w : world) (payload : string) : bool -> world -> Prop :=
| lo_done : learn_out w payload true (learned w payload)
| lo_not_applied : learn_out w payload false w
| lo_applied : learn_out w payload false (learned w payload).

(** What happens between two commands. *)
Inductive env_step : world -> world -> Prop :=
| es_server w s : sv_env (w_server w) s -> env_step w (with_server w s)
| es_handled w env reply w' : In env (w_inflight w) -> handles w env reply w' -> env_step w w'.

(** Every way a program can go; [None]: the process died. *)
Inductive runs {A} : prog file A -> world -> option A -> world -> Prop :=
| r_env p w w1 o w' : env_step w w1 -> runs p w1 o w' -> runs p w o w'
| r_died p w : runs p w None w
| r_ret a w : runs (Ret a) w (Some a) w
| r_post env k w n w1 o w' : post_out w env n w1 -> runs (k n) w1 o w' -> runs (PostRecord env k) w o w'
| r_state k w n o w' : get_out (get_ingest_state (w_server w)) n -> runs (k n) w o w' -> runs (GetIngestState k) w o w'
| r_progress k w n o w' : get_out (get_progress (w_server w)) n -> runs (k n) w o w' -> runs (GetProgress k) w o w'
| r_replace raw k w b w1 o w' : file_out w (Some raw) b w1 -> runs (k b) w1 o w' -> runs (ReplaceFile raw k) w o w'
| r_open_fails k w o w' : runs (k None) w o w' -> runs (OpenFile k) w o w'
| r_open k w o w' : runs (k (Some (w_file w))) w o w' -> runs (OpenFile k) w o w'
| r_remove k w b w1 o w' : file_out w None b w1 -> runs (k b) w1 o w' -> runs (RemoveFile k) w o w'
| r_learn payload k w b w1 o w' : learn_out w payload b w1 -> runs (k b) w1 o w' -> runs (ApplyLearning payload k) w o w'.

(** *** Reasoning about every run

    [wp] is the weakest precondition of a postcondition [Q], with a condition [C] that
    holds wherever the process may die. *)
Section wp.
Context (C : world -> Prop).

Definition between (w : world) (P : world -> Prop) : Prop := forall w1, rtc env_step w w1 -> C w1 /\ P w1.

Fixpoint wp {A} (p : prog file A) (Q : A -> world -> Prop) (w : world) : Prop :=
  match p with
  | Ret a => between w (Q a)
  | PostRecord env k => between w (fun w1 => forall n w2, post_out w1 env n w2 -> wp (k n) Q w2)
  | GetIngestState k => between w (fun w1 => forall n, get_out (get_ingest_state (w_server w1)) n -> wp (k n) Q w1)
  | GetProgress k => between w (fun w1 => forall n, get_out (get_progress (w_server w1)) n -> wp (k n) Q w1)
  | ReplaceFile raw k => between w (fun w1 => forall b w2, file_out w1 (Some raw) b w2 -> wp (k b) Q w2)
  | OpenFile k => between w (fun w1 => wp (k None) Q w1 /\ wp (k (Some (w_file w1))) Q w1)
  | RemoveFile k => between w (fun w1 => forall b w2, file_out w1 None b w2 -> wp (k b) Q w2)
  | ApplyLearning payload k => between w (fun w1 => forall b w2, learn_out w1 payload b w2 -> wp (k b) Q w2)
  end.

Lemma between_here w P : between w P -> C w /\ P w.
Proof. intros Hb. apply Hb. apply rtc_refl. Qed.
Lemma between_step w w1 P : between w P -> env_step w w1 -> between w1 P.
Proof. intros Hb Hs w2 H2. apply Hb. by eapply rtc_l. Qed.
Lemma between_mono w (P P' : world -> Prop) : (forall w1, P w1 -> P' w1) -> between w P -> between w P'.
Proof. intros Hp Hb w1 H1. destruct (Hb w1 H1). auto. Qed.

Lemma wp_step {A} (p : prog file A) Q w w1 : wp p Q w -> env_step w w1 -> wp p Q w1.
Proof. destruct p; apply between_step. Qed.

Lemma wp_bind {A B} (p : prog file A) (f : A -> prog file B) Q w :
  wp p (fun a w1 => wp (f a) Q w1) w -> wp (prog_bind p f) Q w.
Proof.
  revert w. induction p as [a|env k IH|k IH|k IH|raw k IH|k IH|k IH|payload k IH]; intros w Hp; cbn in *;
    try (eapply between_mono; [|exact Hp]; cbn; eauto; fail).
  - by destruct (between_here _ _ Hp).
  - eapply between_mono; [|exact Hp]. cbn. intros w1 [? ?]. split; by apply IH.
Qed.

Lemma wp_sound {A} (p : prog file A) w o w' : runs p w o w' -> forall Q, wp p Q w ->
  C w' /\ match o with Some a => Q a w' | None => True end.
Proof.
  induction 1 as [p w w1 o w' He _ IH|p w|a w|env k w n w1 o w' Ho _ IH|k w n o w' Ho _ IH|k w n o w' Ho _ IH
    |raw k w b w1 o w' Ho _ IH|k w o w' _ IH|k w o w' _ IH|k w b w1 o w' Ho _ IH|payload k w b w1 o w' Ho _ IH]; intros Q Hp.
  - by apply IH, (wp_step p Q w).
  - split; [|done]. destruct p; exact (proj1 (between_here _ _ Hp)).
  - exact (between_here _ _ Hp).
  - apply IH. by apply (proj2 (between_here _ _ Hp)).
  - apply IH. by apply (proj2 (between_here _ _ Hp)).
  - apply IH. by apply (proj2 (between_here _ _ Hp)).
  - apply IH. by apply (proj2 (between_here _ _ Hp)).
  - apply IH. by apply (proj2 (between_here _ _ Hp)).
  - apply IH. by apply (proj2 (between_here _ _ Hp)).
  - apply IH. by apply (proj2 (between_here _ _ Hp)).
  - apply IH. by apply (proj2 (between_here _ _ Hp)).
Qed.
End wp.

(** ** The invariant

    [base] records were in the run before this history; [handed] are the records and
    payloads given to the sink, [stopped] the contents the file may have had whenever a
    process stopped.  [open] are the sequences whose record the live process still owes. *)
Section invariant.
Context (l0 : list DecisionRecord) (runID : string).
Context (handed : list (DecisionRecord * string)) (stopped : list (option file)).

Definition base : Z := Z.of_nat (length l0).
Definition bound (k : Z) : Prop := base < k <= 2 ^ 53.
Definition at_position (l : list DecisionRecord) (k : Z) (record : DecisionRecord) : Prop :=
  0 < k /\ exists r, l !! Z.to_nat (k - 1) = Some r /\ same_record r record.
Definition accounted (l : list DecisionRecord) (k : Z) (payload : string) : Prop :=
  exists record, In (record, payload) handed /\ at_position l k record.
Definition names (k : Z) (content : option file) : Prop :=
  exists raw e, content = Some raw /\ unmarshal_entry raw = Some e /\ E_Sequence e = format_uint 10 k.
Definition owed (record : DecisionRecord) (payload : string) : Prop :=
  In (record, payload) handed /\ after_year_1 record /\ kept record payload.

(** A posting entry is of a record handed in, above every learned sequence. *)
Definition content_ok (ns : list Z) (content : option file) : Prop :=
  forall raw e, content = Some raw -> unmarshal_entry raw = Some e -> E_State e = "posting" ->
    exists k, E_Sequence e = format_uint 10 k /\ bound k /\ Forall (fun n => n < k) ns /\ owed (E_Record e) (E_Learning e).

Definition settled (open : Z -> Prop) (k : Z) : Prop := Exists (names k) stopped \/ open k.

Record inv (open : Z -> Prop) (l : list DecisionRecord) (ns : list Z) (w : world) : Prop := {
  iv_log : sv_log (w_server w) l;
  iv_prefix : l0 `prefix_of` l;
  iv_sorted : StronglySorted Z.lt ns;
  iv_above : Forall (fun n => base < n) ns;
  iv_learned : Forall2 (accounted l) ns (w_learned w);
  iv_covered : forall k, base < k <= Z.of_nat (length l) -> In k ns \/ settled open k;
  iv_inflight : forall env, In env (w_inflight w) -> after_year_1 (Env_Record env) /\
    exists k, Env_Sequence env = format_uint 10 k /\ bound k /\ (k <= Z.of_nat (length l) \/ settled open k);
  iv_file : content_ok ns (w_file w);
  iv_survive : Forall (content_ok ns) (w_survive w);
}.

Lemma at_position_mono l l' k record : l `prefix_of` l' -> at_position l k record -> at_position l' k record.
Proof. intros Hp (H0 & r & Hl & Hr). split; [done|]. exists r. split; [by eapply prefix_lookup_Some|done]. Qed.

Lemma inv_open (open open' : Z -> Prop) l ns w : (forall k, open k -> open' k) -> inv open l ns w -> inv open' l ns w.
Proof.
  intros Ho [H1 H2 H3 H4 H5 H6 H7 H8 H9]. split; try done; unfold settled in *.
  - intros k Hk. destruct (H6 k Hk) as [?|[?|?]]; auto.
  - intros env Hi. destruct (H7 env Hi) as (? & k & Hk & Hb & Hf). split; [done|]. exists k.
    split; [done|]. split; [done|]. destruct Hf as [?|[?|?]]; auto.
Qed.

(** A longer log keeps the invariant when its new position is accounted for. *)
Lemma inv_longer open l l' ns w s : inv open l ns w -> l `prefix_of` l' -> sv_log s l' ->
  (forall k, Z.of_nat (length l) < k <= Z.of_nat (length l') -> settled open k) -> inv open l' ns (with_server w s).
Proof.
  intros [H1 H2 H3 H4 H5 H6 H7 H8 H9] Hp Hs Hn. apply prefix_length in Hp as Hlen. split; try done.
  - by trans l.
  - eapply Forall2_impl; [exact H5|]. intros k p (record & Hin & Ha). exists record. split; [done|]. by eapply at_position_mono.
  - intros k Hk. destruct (Z.le_gt_cases k (Z.of_nat (length l))); [apply H6; lia|right; apply Hn; lia].
  - intros env Hi. destruct (H7 env Hi) as (? & k & Hk & Hb & Hf). split; [done|]. exists k.
    split; [done|]. split; [done|]. destruct Hf as [?|?]; [left; lia|by right].
Qed.

Definition disposed (r : response) (k : Z) : Prop :=
  exists disposition, In disposition [dispositionApplied; dispositionReplayed] /\ r = ingest_reply disposition (k + 1).

(** The server handles a request: it counts it, recognizes it, or refuses it. *)
Lemma handles_inv open l ns w env reply w' k : inv open l ns w -> handles w env reply w' ->
  after_year_1 (Env_Record env) -> Env_Sequence env = format_uint 10 k -> bound k ->
  k <= Z.of_nat (length l) \/ settled open k ->
  exists l', l `prefix_of` l' /\ inv open l' ns w' /\ w_file w' = w_file w /\ w_survive w' = w_survive w /\
    w_inflight w' = w_inflight w /\
    ((disposed reply k /\ at_position l' k (Env_Record env)) \/ (400 <= Resp_Status reply /\ w' = w)).
Proof.
  intros Hi Hh Hy Hk [Hbk Hbk'] Hset. destruct Hh as [now s reply Hroom Hpost]. pose proof (iv_log _ _ _ _ Hi) as Hl.
  pose proof (prefix_length _ _ (iv_prefix _ _ _ _ Hi)) as Hb. pose proof (Hroom _ Hl) as Hr.
  unfold base in Hbk.
  assert (Hinj : forall v, 0 <= v < 2 ^ 54 -> Env_Sequence env = format_uint 10 v -> k = v).
  { intros v Hv E. rewrite Hk in E. apply (f_equal parse_uint) in E.
    rewrite !parse_format_uint in E by (done || (unfold is_u64, max_u64; lia)). by injection E. }
  destruct (post_log now _ l env s reply Hl Hr Hy Hpost) as [(Hl' & Hs & ->)|[(-> & Hs & -> & l1 & r0 & -> & Hsame)|(-> & Hst)]].
  - apply Hinj in Hs as ->; [|lia]. exists (l ++ [Env_Record env])%list. split; [by apply prefix_app_r|].
    split; [|split; [done|split; [done|split; [done|]]]].
    + apply (inv_longer open l); [done|by apply prefix_app_r|done|]. intros k. rewrite length_app. cbn [length]. intros Hk'.
      replace k with (Z.of_nat (length l) + 1) by lia. by destruct Hset as [?|?]; [lia|].
    + left. split; [exists dispositionApplied; split; [by left|by rewrite <- Z.add_assoc]|]. split; [lia|].
      exists (Env_Record env). split; [|apply same_record_refl].
      rewrite lookup_app_r by lia. by replace (Z.to_nat _ - length l)%nat with 0%nat by lia.
  - rewrite length_app in *. cbn [length] in *. apply Hinj in Hs as ->; [|lia]. exists (l1 ++ [r0])%list.
    split; [done|]. split; [by destruct w|]. split; [done|]. split; [done|]. split; [done|].
    left. split; [exists dispositionReplayed; split; [by right; left|done]|]. split; [lia|].
    exists r0. split; [|done]. rewrite lookup_app_r by lia. by replace (Z.to_nat _ - length l1)%nat with 0%nat by lia.
  - exists l. split; [done|]. split; [by destruct w|]. split; [done|]. split; [done|]. split; [done|]. right. split; [done|by destruct w].
Qed.

Lemma inv_env open l ns w w' : inv open l ns w -> env_step w w' ->
  exists l', l `prefix_of` l' /\ inv open l' ns w' /\ w_file w' = w_file w /\ w_survive w' = w_survive w.
Proof.
  intros Hi Hs. destruct Hs as [w s Hs|w env reply w' Hin Hh].
  - exists l. split; [done|]. split; [|done]. apply (inv_longer open l); [done|done| |lia].
    by apply (env_log (w_server w)), Hi.
  - destruct (iv_inflight _ _ _ _ Hi env Hin) as (Hy & k & Hk & Hb & Hset).
    destruct (handles_inv _ _ _ _ _ _ _ _ Hi Hh Hy Hk Hb Hset) as (l' & ? & ? & ? & ? & _). by exists l'.
Qed.

Lemma inv_file open l ns w content survive : inv open l ns w -> content_ok ns content -> Forall (content_ok ns) survive ->
  inv open l ns (with_file w content survive).
Proof. intros [] ? ?. by split. Qed.

Lemma inv_unanswered open l ns w env k : inv open l ns w -> after_year_1 (Env_Record env) ->
  Env_Sequence env = format_uint 10 k -> bound k -> open k -> inv open l ns (unanswered w env).
Proof.
  intros [] Hy Hk Hb Ho. split; try done. intros env' [<-|Hin]; [|by auto]. split; [done|]. exists k.
  split; [done|]. split; [done|]. right. by right.
Qed.

(** Learning of the one open record is accounted for at its position. *)
Lemma inv_learned l ns w k record payload : inv (fun j => j = k) l ns w -> In (record, payload) handed ->
  at_position l k record -> bound k -> Forall (fun n => n < k) ns -> content_ok (ns ++ [k]) (w_file w) -> w_survive w = [] ->
  inv (fun _ => False) l (ns ++ [k]) (learned w payload).
Proof.
  intros [H1 H2 H3 H4 H5 H6 H7 H8 H9] Hin Hat [Hb Hb'] Hlt Hf Hs.
  assert (Hk : k <= Z.of_nat (length l)).
  { destruct Hat as (H0 & r & Hl & _). apply lookup_lt_Some in Hl. lia. }
  split; try done.
  - clear -H3 Hlt. induction ns as [|n ns IH]; cbn; [repeat constructor|].
    apply StronglySorted_inv in H3 as [Hs Hall]. apply Forall_cons in Hlt as [Hn Hlt].
    constructor; [by apply IH|]. apply Forall_app. by split; [|repeat constructor].
  - apply Forall_app. by split; [|repeat constructor].
  - apply Forall2_app; [done|]. constructor; [|constructor]. by exists record.
  - intros j Hj. rewrite in_app_iff. destruct (H6 j Hj) as [?|[?| ->]]; [by left; left|by right; left|]. left. right. by left.
  - intros env Hi. destruct (H7 env Hi) as (Hy & j & Hj & Hbj & Hf'). split; [done|]. exists j. split; [done|]. split; [done|].
    destruct Hf' as [?|[?| ->]]; [by left|by right; left|by left].
  - cbn. rewrite Hs. constructor.
Qed.

(** *** Assertions on the world *)
Definition named (open : Z -> Prop) (content : option file) (survive : list (option file)) : Prop :=
  forall k, open k -> Exists (names k) (content :: survive).
(** Wherever the process may die. *)
Definition died (w : world) : Prop :=
  exists open l ns, inv open l ns w /\ named open (w_file w) (w_survive w).
Definition lasting (fact : list DecisionRecord -> Prop) : Prop := forall l l', l `prefix_of` l' -> fact l -> fact l'.
Definition holds (open : Z -> Prop) (ns : list Z) (content : option file) (survive : list (option file))
    (fact : list DecisionRecord -> Prop) (w : world) : Prop :=
  exists l, inv open l ns w /\ w_file w = content /\ w_survive w = survive /\ fact l.

Definition none (k : Z) : Prop := False.
Definition one (n k : Z) : Prop := k = n.
Definition any (l : list DecisionRecord) : Prop := True.
Definition at_ (k : Z) (record : DecisionRecord) (l : list DecisionRecord) : Prop := at_position l k record.

Lemma lasting_any : lasting any.
Proof. done. Qed.
Lemma lasting_at k record : lasting (at_ k record).
Proof. intros l l' Hp. by apply at_position_mono. Qed.
Lemma named_none content survive : named none content survive.
Proof. by intros k. Qed.
Lemma named_behind open content content' survive : named open content survive -> named open content' (content :: survive).
Proof. intros Hn k Hk. right. by apply Hn. Qed.

Lemma holds_open (open open' : Z -> Prop) ns f v fact w : (forall k, open k -> open' k) -> holds open ns f v fact w -> holds open' ns f v fact w.
Proof. intros Ho (l & Hi & ?). exists l. split; [by apply (inv_open open)|done]. Qed.
Lemma holds_fact open ns f v (fact fact' : list DecisionRecord -> Prop) w : (forall l, fact l -> fact' l) ->
  holds open ns f v fact w -> holds open ns f v fact' w.
Proof. intros Hf (l & ? & ? & ? & ?). exists l. auto. Qed.

Lemma holds_step open ns f v fact w w' : lasting fact -> holds open ns f v fact w -> env_step w w' -> holds open ns f v fact w'.
Proof.
  intros Hl (l & Hi & <- & <- & Hf) Hs. destruct (inv_env _ _ _ _ _ Hi Hs) as (l' & Hp & Hi' & Ef & Es).
  exists l'. split; [done|]. split; [done|]. split; [done|]. by apply (Hl l).
Qed.

Lemma holds_between open ns f v fact w P : lasting fact -> named open f v -> holds open ns f v fact w ->
  (forall w1, holds open ns f v fact w1 -> P w1) -> between died w P.
Proof.
  intros Hl Hn Hh HP w1 Hr. assert (Hh1 : holds open ns f v fact w1).
  { revert Hh. induction Hr as [|x y z Hxy _ IH]; [done|]. intros Hh. by apply IH, (holds_step _ _ _ _ _ x). }
  split; [|by apply HP]. destruct Hh1 as (l & Hi & Ef & Es & _). exists open, l, ns. split; [done|]. by rewrite Ef, Es.
Qed.

(** *** Rules for the commands *)
Lemma wp_write open ns f v fact entry s Q w : lasting fact -> named open f v -> holds open ns f v fact w ->
  (forall raw, marshal_entry entry = Some raw -> content_ok ns (Some raw) /\ named open (Some raw) []) ->
  (forall e w1, holds open ns f v fact w1 -> Q (s, Err e) w1) ->
  (forall raw w1, marshal_entry entry = Some raw -> holds open ns (Some raw) (f :: v) fact w1 -> Q (s, Err []) w1) ->
  (forall raw w1, marshal_entry entry = Some raw -> holds open ns (Some raw) [] fact w1 -> Q (s, Ok tt) w1) ->
  wp died (journal_write entry s) Q w.
Proof.
  intros Hl Hn Hh Hm Hfail Hunsynced Hdone. unfold journal_write.
  destruct (marshal_entry entry) as [raw|] eqn:Em; [|apply (holds_between open ns f v fact); auto].
  destruct (maxPendingFile <? _); [apply (holds_between open ns f v fact); auto|].
  destruct (Hm _ eq_refl) as [Hc Hn']. apply (holds_between open ns f v fact); [done..|]. intros w1 (l & Hi & Ef & Es & Hf) b w2 Ho.
  assert (Hv : Forall (content_ok ns) (w_file w1 :: w_survive w1)) by (constructor; apply Hi).
  destruct Ho.
  - apply (holds_between open ns (Some raw) [] fact); [done|done| |eauto]. exists l. split; [by apply inv_file|done].
  - apply (holds_between open ns f v fact); [done|done|by exists l|eauto].
  - apply (holds_between open ns (Some raw) (f :: v) fact); [done|by apply named_behind| |eauto].
    exists l. rewrite Ef, Es in *. split; [by apply inv_file|done].
Qed.

Lemma wp_clear ns f v fact s (Q : Sink * res unit -> world -> Prop) w : lasting fact -> holds none ns f v fact w ->
  (forall r f' v' w1, holds none ns f' v' fact w1 -> Q (s, r) w1) -> wp died (journal_clear s) Q w.
Proof.
  intros Hl Hh HQ. apply (holds_between none ns f v fact); [done|apply named_none|done|]. intros w1 (l & Hi & Ef & Es & Hf) b w2 Ho.
  assert (Hv : Forall (content_ok ns) (w_file w1 :: w_survive w1)) by (constructor; apply Hi).
  destruct Ho; (eapply holds_between; [done|apply named_none| |intros w2 H2; eapply HQ, H2]).
  - exists l. split; [by apply inv_file|done].
  - by exists l.
  - exists l. split; [by apply inv_file|done].
Qed.

Lemma parseSequence_format n : is_u64 n -> 0 < n -> parseSequence (format_uint 10 n) = Ok n.
Proof.
  intros Hn H0. unfold parseSequence. rewrite parse_format_uint, String.eqb_refl by done. cbn.
  by rewrite (proj2 (Z.eqb_neq n 0)) by lia.
Qed.

Lemma state_result_refused r : 400 <= Resp_Status r -> exists e, state_result (Answered r) = Err e.
Proof.
  intros Hr. unfold state_result, checkStatus. cbn. rewrite (proj2 (Z.ltb_ge _ _)), andb_false_r by lia.
  destruct (500 <=? _); by eexists.
Qed.
Lemma progress_result_refused r : 400 <= Resp_Status r -> exists e, progress_result (Answered r) = Err e.
Proof.
  intros Hr. unfold progress_result, checkStatus. cbn. rewrite (proj2 (Z.ltb_ge _ _)), andb_false_r by lia.
  destruct (500 <=? _); by eexists.
Qed.
Lemma state_result_next n : is_u64 n -> 0 < n -> state_result (Answered (state_reply n)) = Ok n.
Proof. intros Hn H0. unfold state_result, state_reply. cbn -[parseSequence format_uint]. by rewrite parseSequence_format. Qed.

(** A reply the server refuses with is definite below 500. *)
Lemma ingest_result_refused r : 400 <= Resp_Status r ->
  exists e, ingest_result (Answered r) = Err e /\ outcomeUnknown e = (500 <=? Resp_Status r).
Proof.
  intros Hr. unfold ingest_result, checkStatus. cbn. rewrite (proj2 (Z.ltb_ge _ _)), andb_false_r by lia.
  destruct (500 <=? _); by eexists.
Qed.
Lemma ingest_result_disposed disposition n : is_u64 n -> 0 < n ->
  ingest_result (Answered (ingest_reply disposition n)) = Ok (disposition, n).
Proof. intros Hn H0. unfold ingest_result, ingest_reply. cbn -[parseSequence format_uint]. by rewrite parseSequence_format. Qed.

Lemma learned_below open l ns w : inv open l ns w -> Forall (fun n => n < Z.of_nat (length l) + 1) ns.
Proof.
  intros Hi. pose proof (iv_learned _ _ _ _ Hi) as Hf. apply Forall_forall. intros n Hn.
  apply list_elem_of_lookup in Hn as [i Hn]. destruct (Forall2_lookup_l _ _ _ _ _ Hf Hn) as (p & _ & record & _ & H0 & r & Hl & _).
  apply lookup_lt_Some in Hl. lia.
Qed.

Lemma wp_cursor open ns f v fact s (Q : Sink * res Z -> world -> Prop) w : lasting fact -> named open f v -> holds open ns f v fact w ->
  (forall e w1, holds open ns f v fact w1 -> Q (s, Err e) w1) ->
  (forall n w1, bound n -> Forall (fun k => k < n) ns -> holds open ns f v fact w1 -> Q (s, Ok n) w1) ->
  wp died (client_ingestState s) Q w.
Proof.
  intros Hl Hn Hh Hfail Hok. apply (holds_between open ns f v fact); [done..|]. intros w1 Hh1 n Ho.
  apply (holds_between open ns f v fact); [done..|]. intros w2 Hh2.
  assert (Hcase : (exists e, state_result n = Err e) \/ exists next, state_result n = Ok next /\ bound next /\ Forall (fun k => k < next) ns).
  { destruct Hh1 as (l & Hi & _). pose proof (iv_log _ _ _ _ Hi) as Hlog. pose proof (log_small _ _ Hlog) as Hs.
    pose proof (prefix_length _ _ (iv_prefix _ _ _ _ Hi)) as Hb.
    destruct Ho as [| |r Hr|]; [by left; eexists..|left; apply state_result_refused; lia|].
    destruct (state_log _ _ Hlog) as [->|Hr]; [right|by left; apply state_result_refused].
    exists (Z.of_nat (length l) + 1). split; [apply state_result_next; unfold is_u64, max_u64; lia|].
    split; [unfold bound, base; lia|]. by apply (learned_below open _ _ w1). }
  destruct Hcase as [[e ->]|(next & -> & Hb & Hlt)]; [by apply Hfail|by apply Hok].
Qed.

Lemma wp_status open ns f v fact s (Q : Sink * res string -> world -> Prop) w : lasting fact -> named open f v -> holds open ns f v fact w ->
  (forall r w1, holds open ns f v fact w1 -> Q (s, r) w1) -> wp died (client_runStatus s) Q w.
Proof.
  intros Hl Hn Hh HQ. apply (holds_between open ns f v fact); [done..|]. intros w1 Hh1 n _.
  apply (holds_between open ns f v fact); [done..|]. intros w2 Hh2. by apply HQ.
Qed.

(** An attempt whose outcome is known either proves the record's position or leaves nothing
    behind; one whose outcome is unknown leaves its sequence open. *)
Lemma wp_attempt (open : Z -> Prop) ns f v fact k annotations record s (Q : Sink * res string -> world -> Prop) w :
  lasting fact -> named open f v -> Exists (names k) (f :: v) -> holds open ns f v fact w ->
  after_year_1 record -> bound k ->
  let opened j := open j \/ j = k in
  (forall e w1, outcomeUnknown e = false -> holds open ns f v fact w1 -> Q (s, Err e) w1) ->
  (forall e w1, outcomeUnknown e = true -> holds opened ns f v fact w1 -> Q (s, Err e) w1) ->
  (forall d w1, holds opened ns f v (fun l => fact l /\ at_ k record l) w1 -> Q (with_next s (k + 1), Ok d) w1) ->
  wp died (attempt k annotations record s) Q w.
Proof.
  intros Hl Hn Hk Hh Hy Hb opened Hdef Hunk Hok. unfold attempt, call_bind, client_ingest. apply wp_bind.
  assert (Hno : named opened f v) by (intros j [?| ->]; auto).
  assert (Hopen : forall w1, holds open ns f v fact w1 -> holds opened ns f v fact w1) by (intros ?; apply holds_open; by left).
  assert (Hfail : forall e w1, (if outcomeUnknown e then holds opened ns f v fact w1 else holds open ns f v fact w1) ->
            wp died (Ret (s, Err e)) (fun '(s, r) w2 => wp died (attempt_reply k r s) Q w2) w1).
  { intros e w1 He. cbn. destruct (outcomeUnknown e) eqn:Eu.
    - apply (holds_between opened ns f v fact); [done..|]. intros w2 H2. apply (holds_between opened ns f v fact); [done..|]. eauto.
    - apply (holds_between open ns f v fact); [done..|]. intros w2 H2. apply (holds_between open ns f v fact); [done..|]. eauto. }
  destruct (envelope_size _) as [size|]; [|by apply Hfail]. destruct (maxRequestBody <? size); [by apply Hfail|].
  apply (holds_between open ns f v fact); [done..|]. intros w1 (l & Hi & Ef & Es & Hf) n w2 Ho.
  assert (Hun : holds opened ns f v fact (unanswered w1 (envelope_of k (S_profile s) annotations record))).
  { exists l. split; [|done]. apply (inv_unanswered _ _ _ _ _ k); [|done..|by right]. apply (inv_open open); [by left|done]. }
  destruct Ho as [| |r Hr|r w2 Hha].
  - apply Hfail. by exists l.
  - by apply Hfail.
  - destruct (ingest_result_refused r ltac:(lia)) as (e & -> & He). apply Hfail. rewrite He. by rewrite (proj2 (Z.leb_le _ _)).
  - destruct (handles_inv opened _ _ _ _ _ _ k (inv_open open opened _ _ _ ltac:(by left) Hi) Hha Hy eq_refl Hb) as
      (l' & Hp & Hi' & Ef' & Es' & _ & Hcase); [right; right; by right|].
    destruct Hcase as [[(d & Hd & ->) Hat]|[Hr ->]].
    + rewrite ingest_result_disposed by (destruct Hb; unfold is_u64, max_u64, base in *; lia). cbn.
      assert (Hh' : holds opened ns f v (fun l => fact l /\ at_ k record l) w2).
      { exists l'. split; [done|]. rewrite Ef', Es'. split; [done|]. split; [done|]. split; [by apply (Hl l)|done]. }
      assert (Hl' : lasting (fun l => fact l /\ at_ k record l)).
      { intros x y Hxy [? ?]. split; [by apply (Hl x)|by apply (lasting_at k record x)]. }
      apply (holds_between opened ns f v (fun l => fact l /\ at_ k record l)); [done..|]. intros w3 H3.
      unfold attempt_reply. rewrite (proj2 (Z.leb_gt (k + 1) k)) by lia.
      assert (Ed : negb ((d =s dispositionApplied) || (d =s dispositionReplayed))%go = false).
      { destruct Hd as [<-|[<-|[]]]; by rewrite String.eqb_refl, ?orb_true_r. }
      rewrite Ed. apply (holds_between opened ns f v (fun l => fact l /\ at_ k record l)); [done..|]. eauto.
    + destruct (ingest_result_refused r Hr) as (e & -> & He). apply Hfail. rewrite He.
      destruct (500 <=? _); [apply Hopen|]; by exists l.
Qed.

(** *** The sink's state between calls *)
Definition pending_ok (s : Sink) (open : Z -> Prop) (ns : list Z) (f : option file) (v : list (option file)) : Prop :=
  match S_pending s with
  | None => open = none /\ bound (S_next s) /\ Forall (fun n => n < S_next s) ns
  | Some held =>
      open = one (P_sequence held) /\ named (one (P_sequence held)) f v /\
      match P_state held with
      | statePosting => bound (P_sequence held) /\ Forall (fun n => n < P_sequence held) ns /\ owed (P_record held) (P_learning held)
      | stateConfirmed => True
      end
  end.
Definition sink_state (s : Sink) (w : world) : Prop :=
  exists open ns f v, holds open ns f v any w /\ pending_ok s open ns f v.
(** A call keeps the sink's configuration. *)
Definition same_sink (s s' : Sink) : Prop :=
  S_runID s' = S_runID s /\ S_profile s' = S_profile s /\ S_initialized s' = S_initialized s.

Context (runID_valid : valid_string runID = true).

Lemma holds_any open ns f v fact w : holds open ns f v fact w -> holds open ns f v any w.
Proof. by apply holds_fact. Qed.

Lemma entry_names st held raw : marshal_entry (entryFor runID st held) = Some raw -> kept (P_record held) (P_learning held) ->
  unmarshal_entry raw = Some (entryFor runID st held) /\ names (P_sequence held) (Some raw).
Proof.
  intros Hm Hk. assert (Hu : unmarshal_entry raw = Some (entryFor runID st held)) by by apply entry_roundtrip.
  split; [done|]. by exists raw, (entryFor runID st held).
Qed.

Lemma confirmed_content ns held raw : marshal_entry (entryFor runID stateConfirmed held) = Some raw ->
  kept (P_record held) (P_learning held) -> content_ok ns (Some raw) /\ named (one (P_sequence held)) (Some raw) [].
Proof.
  intros Hm Hk. destruct (entry_names _ _ _ Hm Hk) as [Hu Hn]. split.
  - intros raw' e [= <-]. rewrite Hu. by intros [= <-].
  - intros j ->. by constructor.
Qed.
Lemma posting_content ns held raw : marshal_entry (entryFor runID statePosting held) = Some raw ->
  bound (P_sequence held) -> Forall (fun n => n < P_sequence held) ns -> owed (P_record held) (P_learning held) ->
  content_ok ns (Some raw) /\ named (one (P_sequence held)) (Some raw) [].
Proof.
  intros Hm Hb Hlt Ho. destruct (entry_names _ _ _ Hm (proj2 (proj2 Ho))) as [Hu Hn]. split.
  - intros raw' e [= <-]. rewrite Hu. intros [= <-] _. by exists (P_sequence held).
  - intros j ->. by constructor.
Qed.

(** A position in the log is below 2^53. *)
Lemma at_bound open ns f v k record w : holds open ns f v (at_ k record) w -> k + 1 <= 2 ^ 53.
Proof.
  intros (l & Hi & _ & _ & H0 & r & Hl & _). apply lookup_lt_Some in Hl. pose proof (log_small _ _ (iv_log _ _ _ _ Hi)). lia.
Qed.

Lemma wp_settle held s ns f v (Q : Sink * res unit -> world -> Prop) w :
  S_runID s = runID -> S_pending s = Some held -> P_state held = statePosting -> S_next s = P_sequence held + 1 ->
  bound (P_sequence held) -> Forall (fun n => n < P_sequence held) ns -> owed (P_record held) (P_learning held) ->
  named (one (P_sequence held)) f v ->
  holds (one (P_sequence held)) ns f v (at_ (P_sequence held) (P_record held)) w ->
  (forall s' r w1, same_sink s s' -> sink_state s' w1 -> (r = Ok tt -> S_pending s' = None /\ S_next s' = P_sequence held + 1) ->
     Q (s', r) w1) ->
  wp died (settle held s) Q w.
Proof.
  intros Hid Hp Hst Hnext Hb Hlt Ho Hn Hh HQ. unfold settle, call_bind. apply wp_bind. rewrite Hid.
  set (k := P_sequence held) in *. pose proof (lasting_at k (P_record held)) as Hl.
  assert (Hheld : forall ns' f' v' w1, ns' = ns -> named (one k) f' v' -> holds (one k) ns' f' v' (at_ k (P_record held)) w1 -> sink_state s w1).
  { intros ns' f' v' w1 -> Hn' H1. exists (one k), ns, f', v'. split; [by apply holds_any in H1|]. unfold pending_ok. by rewrite Hp, Hst. }
  eapply (wp_write (one k) ns f v (at_ k (P_record held))); [done..| | | |].
  - intros raw Hm. apply confirmed_content; [done|apply Ho].
  - intros e w1 H1. eapply holds_between; [done|exact Hn|exact H1|]. intros w2 H2. apply HQ; [done|by eapply Hheld|done].
  - intros raw w1 Hm H1. eapply holds_between; [done|by apply named_behind|exact H1|]. intros w2 H2.
    apply HQ; [done|eapply Hheld; [done| |exact H2]; by apply named_behind|done].
  - intros raw w1 Hm H1. destruct (confirmed_content (ns ++ [k]) held raw Hm (proj2 (proj2 Ho))) as [Hc Hnr].
    set (s1 := with_pending s (Some (confirmed held))).
    assert (Hstuck : forall ns' w2, holds (one k) ns' (Some raw) [] any w2 -> sink_state s1 w2).
    { intros ns' w2 H2. exists (one k), ns', (Some raw), []. by split. }
    apply (holds_between (one k) ns (Some raw) [] (at_ k (P_record held))); [done..|]. intros w2 H2 b w3 Hlearn.
    assert (Hdone : holds none (ns ++ [k]) (Some raw) [] (at_ k (P_record held)) (learned w2 (P_learning held))).
    { destruct H2 as (l & Hi & Ef & Es & Hat). exists l. split; [|done]. apply (inv_learned l ns w2 k (P_record held)); try done; [apply Ho|by rewrite Ef]. }
    destruct Hlearn; cbn [negb].
    + assert (Hk1 : k + 1 <= 2 ^ 53) by by eapply at_bound.
      unfold journal_clear. apply wp_bind. eapply (wp_clear (ns ++ [k])); [exact Hl|exact Hdone|]. intros r f' v' w3 H3.
      assert (Hidle : forall w4, holds none (ns ++ [k]) f' v' (at_ k (P_record held)) w4 -> sink_state (with_pending s1 None) w4).
      { intros w4 H4. exists none, (ns ++ [k])%list, f', v'. split; [by eapply holds_any|]. cbn. split; [done|]. rewrite Hnext.
        split; [unfold bound in *; lia|]. apply Forall_app. split; [eapply Forall_impl; [exact Hlt|]; cbn; lia|repeat constructor; lia]. }
      destruct r as [[]|e]; (eapply holds_between; [exact Hl|apply named_none|exact H3|]; intros w4 H4; apply HQ; [done|by apply Hidle|done]).
    + eapply holds_between; [exact Hl|exact Hnr|exact H2|]. intros w3 H3. apply HQ; [done|by eapply Hstuck, holds_any|done].
    + eapply (holds_between (one k) (ns ++ [k])); [exact Hl|exact Hnr| |].
      { eapply holds_open; [|exact Hdone]. by intros j []. }
      intros w3 H3. apply HQ; [done|by eapply Hstuck, holds_any|done].
Qed.

Lemma wp_reconcile held s ns f v (Q : Sink * res string -> world -> Prop) w :
  S_runID s = runID -> S_pending s = Some held -> P_state held = statePosting ->
  bound (P_sequence held) -> Forall (fun n => n < P_sequence held) ns -> owed (P_record held) (P_learning held) ->
  named (one (P_sequence held)) f v -> holds (one (P_sequence held)) ns f v any w ->
  (forall s' r w1, same_sink s s' -> sink_state s' w1 -> (is_ok r = true -> S_pending s' = None) -> Q (s', r) w1) ->
  wp died (reconcile held s) Q w.
Proof.
  intros Hid Hp Hst Hb Hlt Ho Hn Hh HQ. unfold reconcile, call_bind. apply wp_bind. set (k := P_sequence held) in *.
  assert (Hopen : forall fact w1, holds (fun j => one k j \/ j = k) ns f v fact w1 -> holds (one k) ns f v fact w1).
  { intros fact w1. apply holds_open. by intros j [?|?]. }
  assert (Hheld : forall e w1, holds (one k) ns f v any w1 -> wp died (fail (ErrUnresolved :: e) s) Q w1).
  { intros e w1 H1. eapply holds_between; [apply lasting_any|exact Hn|exact H1|]. intros w2 H2. apply HQ; [done| |done].
    exists (one k), ns, f, v. split; [done|]. unfold pending_ok. by rewrite Hp, Hst. }
  eapply (wp_attempt (one k) ns f v any); [apply lasting_any|done|by apply Hn|done|apply Ho|done|..].
  - intros e w1 _ H1. by apply Hheld.
  - intros e w1 _ H1. by apply Hheld, Hopen.
  - intros d w1 H1%Hopen. cbn beta iota. apply wp_bind. eapply (wp_settle held _ ns f v); try done.
    + eapply holds_fact; [|exact H1]. by intros l [_ ?].
    + intros s' r w2 Hs' Hstate Hr. destruct Hstate as (open & ns' & f' & v' & H2 & Hok).
      assert (Hn' : named open f' v').
      { unfold pending_ok in Hok. destruct (S_pending s'); [by destruct Hok as (-> & ? & _)|]. destruct Hok as (-> & _). apply named_none. }
      destruct r as [[]|e]; (eapply holds_between; [apply lasting_any|exact Hn'|exact H2|]; intros w3 H3; apply HQ;
        [done|by exists open, ns', f', v'|]); [by intros _; apply Hr|done].
Qed.

(** A state a call has reached lasts until the next command. *)
Lemma state_between s w (P : world -> Prop) : sink_state s w -> (forall w1, sink_state s w1 -> P w1) -> between died w P.
Proof.
  intros (open & ns & f & v & Hh & Hok) HP.
  assert (Hn : named open f v).
  { unfold pending_ok in Hok. destruct (S_pending s); [by destruct Hok as (-> & ? & _)|]. destruct Hok as (-> & _). apply named_none. }
  eapply holds_between; [apply lasting_any|exact Hn|exact Hh|]. intros w1 H1. apply HP. by exists open, ns, f, v.
Qed.

Lemma wp_record_next record annotations learning s (Q : Sink * res string -> world -> Prop) w :
  S_runID s = runID -> S_pending s = None -> sink_state s w -> owed record learning ->
  (forall s' r w1, same_sink s s' -> sink_state s' w1 -> Q (s', r) w1) ->
  wp died (record_next record annotations learning s) Q w.
Proof.
  intros Hid Hp (open & ns & f & v & Hh & Hok) Ho HQ. unfold pending_ok in Hok. rewrite Hp in Hok. destruct Hok as (-> & Hb & Hlt).
  unfold record_next, call_bind. set (k := S_next s) in *. set (held := Build_pendingRecord _ _ _ _ _). apply wp_bind. rewrite Hid.
  assert (Hfail : forall s' e f v w1, same_sink s s' -> S_pending s' = None -> S_next s' = k -> holds none ns f v any w1 ->
            wp died (fail e s') Q w1).
  { intros s' e f' v' w1 Hs' Hp' Hk' H1. apply (state_between s'); [|intros w2 H2; by apply HQ].
    exists none, ns, f', v'. split; [done|]. unfold pending_ok. by rewrite Hp', Hk'. }
  eapply (wp_write none ns f v any); [apply lasting_any|apply named_none|exact Hh| | | |].
  - intros raw Hm. split; [by apply (posting_content ns held)|apply named_none].
  - intros e w1. by apply Hfail.
  - intros raw w1 _. by apply Hfail.
  - intros raw w1 Hm H1. destruct (posting_content ns held raw Hm Hb Hlt Ho) as [_ Hn]. set (s1 := with_pending s (Some held)).
    apply wp_bind. assert (Hopen : forall fact w1, holds (fun j => none j \/ j = k) ns (Some raw) [] fact w1 ->
        holds (one k) ns (Some raw) [] fact w1).
    { intros fact w2. apply holds_open. by intros j [[]|?]. }
    eapply (wp_attempt none ns (Some raw) [] any); [apply lasting_any|apply named_none|by apply Hn|done|apply Ho|done|..].
    + intros e w2 He H2. rewrite He. cbn [negb]. apply wp_bind. eapply wp_clear; [apply lasting_any|exact H2|].
      intros r f' v' w3 H3. destruct r as [[]|e']; by eapply (Hfail _ _ f' v').
    + intros e w2 He H2%Hopen. rewrite He. cbn [negb]. eapply (wp_reconcile held s1 ns (Some raw) []); try done.
      intros s' r w3 Hs' H3 _. by apply HQ.
    + intros d w2 H2%Hopen. apply wp_bind. eapply (wp_settle held _ ns (Some raw) []); try done.
      * eapply holds_fact; [|exact H2]. by intros l [_ ?].
      * intros s' r w3 Hs' Hstate _. destruct r as [[]|e]; (eapply state_between; [exact Hstate|]; intros w4 H4; by apply HQ).
Qed.

Lemma wp_Record record annotations learning s (Q : Sink * res string -> world -> Prop) w :
  S_runID s = runID -> sink_state s w -> owed record learning ->
  (forall s' r w1, same_sink s s' -> sink_state s' w1 -> Q (s', r) w1) ->
  wp died (Record_ record annotations learning s) Q w.
Proof.
  intros Hid Hs Ho HQ. unfold Record_.
  assert (Hfail : forall e w1, sink_state s w1 -> wp died (fail e s) Q w1).
  { intros e w1 H1. eapply state_between; [exact H1|]. intros w2 H2. by apply HQ. }
  destruct (negb _); [by apply Hfail|]. destruct (learning =s "")%go; [by apply Hfail|].
  destruct (S_pending s) as [held|] eqn:Hp; [|by apply wp_record_next].
  destruct (P_state held) eqn:Hst; [|by apply Hfail].
  destruct Hs as (open & ns & f & v & Hh & Hok). unfold pending_ok in Hok. rewrite Hp, Hst in Hok.
  destruct Hok as (-> & Hn & Hb & Hlt & How). unfold call_bind. apply wp_bind. eapply (wp_reconcile held s ns f v); try done.
  intros s' r w1 Hsame Hstate Hr. pose proof Hsame as (E1 & E2 & E3). destruct r as [d|e].
  - apply wp_record_next; [congruence|by apply Hr|done|done|]. intros s2 r2 w2 (F1 & F2 & F3) H2.
    apply HQ; [|done]. unfold same_sink. split_and!; congruence.
  - eapply state_between; [exact Hstate|]. intros w2 H2. by apply HQ.
Qed.

Lemma parseSequence_Ok t k : parseSequence t = Ok k -> t = format_uint 10 k /\ is_u64 k /\ k <> 0.
Proof.
  unfold parseSequence. destruct (parse_uint t) as [v|] eqn:E; [|done]. apply parse_uint_range in E.
  intros Hk. res_inv. subst. apply negb_false_iff, String.eqb_eq in Hok. by apply Z.eqb_neq in Hok0.
Qed.

(** What loading the file yields. *)
Lemma loaded_spec ns raw entry k st : content_ok ns (Some raw) -> loaded (Some (Some raw)) = Ok (Some (entry, k, st)) ->
  names k (Some raw) /\
  (st = statePosting -> bound k /\ Forall (fun n => n < k) ns /\ owed (E_Record entry) (E_Learning entry)).
Proof.
  intros Hc Hload. unfold loaded in Hload. destruct (maxPendingFile <? _); [done|].
  destruct (unmarshal_entry raw) as [e|] eqn:Eu; [|done]. unfold checked_entry in Hload. res_inv. subst. res_inv. subst.
  match goal with Hp : parseSequence _ = Ok _ |- _ => apply parseSequence_Ok in Hp as (Hs & Hu & H0) end.
  injection Hload as -> -> ->. split; [by exists raw, entry|]. intros ->.
  assert (Hst : E_State entry = "posting").
  { match goal with He : (if (E_State entry =s _)%go then _ else _) = Ok _ |- _ => revert He end.
    destruct (String.eqb_spec (E_State entry) "posting"); [done|]. by destruct (E_State entry =s "confirmed")%go. }
  destruct (Hc raw entry eq_refl Eu Hst) as (j & Hj & Hb & Hlt & Ho).
  assert (k = j) as ->; [|done]. rewrite Hs in Hj. apply (f_equal parse_uint) in Hj.
  rewrite !parse_format_uint in Hj; [by injection Hj| |done]. unfold bound, base, is_u64, max_u64 in *. lia.
Qed.

Lemma wp_Initialize s ns f v (Q : Sink * res Recovery -> world -> Prop) w :
  S_runID s = runID -> S_pending s = None -> holds none ns f v any w ->
  (forall s' r w1, S_runID s' = runID -> S_profile s' = S_profile s ->
     (is_ok r = true -> sink_state s' w1 /\ S_initialized s' = true) -> Q (s', r) w1) ->
  wp died (Initialize s) Q w.
Proof.
  intros Hid Hp Hh HQ.
  assert (Hfail : forall s' e f v w1, S_runID s' = runID -> S_profile s' = S_profile s -> holds none ns f v any w1 ->
            wp died (fail e s') Q w1).
  { intros s' e f' v' w1 Hi Hpr H1. eapply holds_between; [apply lasting_any|apply named_none|exact H1|]. intros w2 H2. by apply HQ. }
  assert (Hready : forall next r f v w1, bound next -> Forall (fun n => n < next) ns -> holds none ns f v any w1 ->
            wp died (ready next r s) Q w1).
  { intros next r f' v' w1 Hb Hlt H1. eapply holds_between; [apply lasting_any|apply named_none|exact H1|].
    intros w2 H2. apply HQ; [done|done|]. intros _. split; [|done]. exists none, ns, f', v'. split; [done|].
    unfold pending_ok. cbn. by rewrite Hp. }
  assert (Hclear : forall next r w1, bound next -> Forall (fun n => n < next) ns -> holds none ns f v any w1 ->
            wp died (call_bind journal_clear (fun _ => ready next r) fail s) Q w1).
  { intros next r w1 Hb Hlt H1. unfold call_bind. apply wp_bind. eapply wp_clear; [apply lasting_any|exact H1|].
    intros [[]|e] f' v' w2 H2; [by eapply Hready|by eapply Hfail]. }
  unfold Initialize, call_bind at 1. apply wp_bind. eapply wp_status; [apply lasting_any|apply named_none|exact Hh|].
  intros [status|e] w1 H1; [|by eapply Hfail]. destruct (status <>s _)%go; [by eapply Hfail|].
  unfold call_bind at 1. apply wp_bind. unfold journal_load.
  apply (holds_between none ns f v any); [apply lasting_any|apply named_none|done|]. intros w2 H2.
  assert (Hload : forall content, content = None \/ content = Some f ->
    wp died (Ret (s, loaded content)) (fun a w' => wp died (let '(s0, r) := a in
      match r with
      | Ok found => (match found with
         | None => call_bind client_ingestState
                     (fun next => ready next {| Rec_Outcome := RecoveryNone; Rec_Sequence := 0; Rec_Disposition := "" |}) fail
         | Some (entry, sequence, st) => fun s => if (E_RunID entry <>s S_runID s)%go then fail [] s else recover entry sequence st s
         end) s0
      | Err e => fail e s0 end) Q w') w2); [|split; apply Hload; [by left|right; by destruct H2 as (l & _ & <- & _)]].
  intros content Hc. apply (holds_between none ns f v any); [apply lasting_any|apply named_none|done|]. intros w3 H3.
  destruct (loaded content) as [[[[entry k] st]|]|e] eqn:El; [| |by eapply Hfail].
  - destruct (E_RunID entry <>s S_runID s)%go; [by eapply Hfail|]. unfold recover, call_bind at 1. apply wp_bind.
    destruct Hc as [->| ->]; [done|]. destruct f as [raw|]; [|done].
    assert (Hco : content_ok ns (Some raw)) by (destruct H3 as (l & Hi & <- & _); apply Hi).
    destruct (loaded_spec _ _ _ _ _ Hco El) as [Hnames Hpost].
    eapply wp_cursor; [apply lasting_any|apply named_none|exact H3|intros e w4 H4; by eapply Hfail|].
    intros next w4 Hb Hlt H4. destruct st; [|destruct (negb _); [by eapply Hfail|by apply Hclear]].
    destruct (next =? k); [by apply Hclear|]. destruct (next =? u64 (k + 1)); [|by eapply Hfail].
    destruct (Hpost eq_refl) as (Hbk & Hltk & Ho). unfold call_bind. apply wp_bind.
    set (held := Build_pendingRecord _ _ _ _ _). eapply (wp_reconcile held _ ns (Some raw) v); try done.
    + intros j ->. by constructor.
    + eapply holds_open; [|exact H4]. by intros j [].
    + intros s' r w5 (E1 & E2 & E3) Hstate Hr. cbn in E1, E2.
      destruct r as [d|e]; (eapply state_between; [exact Hstate|]; intros w6 H6); [|by apply HQ; [congruence..|]].
      apply HQ; [cbn; congruence|cbn; congruence|]. intros _. split; [|done].
      destruct H6 as (open & ns' & f' & v' & H6 & Hok). by exists open, ns', f', v'.
  - unfold call_bind. apply wp_bind. eapply wp_cursor; [apply lasting_any|apply named_none|exact H3|intros e w4 H4; by eapply Hfail|].
    intros next w4 Hb Hlt H4. by eapply Hready.
Qed.
End invariant.

(** ** Histories

    One collector after another on the same machine feeds the run.  [sy_handed] are the
    records and payloads given to the sink, [sy_stopped] the contents the file may have
    had whenever a process stopped. *)
Record system : Type := {
  sy_world : world;
  sy_process : option Sink;
  sy_handed : list (DecisionRecord * string);
  sy_stopped : list (option file);
}.

Definition contents (w : world) : list (option file) := w_file w :: w_survive w.
Definition stop (w : world) (handed : list (DecisionRecord * string)) (stopped : list (option file)) : system :=
  {| sy_world := w; sy_process := None; sy_handed := handed; sy_stopped := (contents w ++ stopped)%list |}.
Definition fresh (runID profile : string) : Sink :=
  {| S_runID := runID; S_profile := profile; S_next := 0; S_initialized := false; S_pending := None |}.
Definition at_start (s : St) : system :=
  {| sy_world := {| w_server := s; w_file := None; w_survive := []; w_inflight := []; w_learned := [] |};
     sy_process := None; sy_handed := []; sy_stopped := [] |}.

Section history.
Context (runID profile : string).

Inductive sys_step : system -> system -> Prop :=
| sy_start w h st s r w' : runs (Initialize (fresh runID profile)) w (Some (s, Ok r)) w' ->
    sys_step (Build_system w None h st) (Build_system w' (Some s) h st)
| sy_start_fails w h st s e w' : runs (Initialize (fresh runID profile)) w (Some (s, Err e)) w' ->
    sys_step (Build_system w None h st) (stop w' h st)
| sy_start_dies w h st w' : runs (Initialize (fresh runID profile)) w None w' ->
    sys_step (Build_system w None h st) (stop w' h st)
| sy_record w s h st record annotations learning s' r w' : after_year_1 record -> kept record learning ->
    runs (Record_ record annotations learning s) w (Some (s', r)) w' ->
    sys_step (Build_system w (Some s) h st) (Build_system w' (Some s') ((record, learning) :: h) st)
| sy_record_dies w s h st record annotations learning w' : after_year_1 record -> kept record learning ->
    runs (Record_ record annotations learning s) w None w' ->
    sys_step (Build_system w (Some s) h st) (stop w' ((record, learning) :: h) st)
| sy_stop w s h st : sys_step (Build_system w (Some s) h st) (stop w h st)
| sy_restart w h st content : In content (contents w) ->
    sys_step (Build_system w None h st) (Build_system (with_file w content []) None h st)
| sy_env w w' p h st : env_step w w' -> sys_step (Build_system w p h st) (Build_system w' p h st).

Context (l0 : list DecisionRecord) (runID_valid : valid_string runID = true).

Definition process_ok (y : system) : Prop :=
  match sy_process y with
  | None => exists l ns, inv l0 (sy_handed y) (sy_stopped y) none l ns (sy_world y)
  | Some s => S_runID s = runID /\ sink_state l0 (sy_handed y) (sy_stopped y) s (sy_world y)
  end.

Lemma content_ok_handed h h' ns c : (forall x, In x h -> In x h') -> content_ok l0 h ns c -> content_ok l0 h' ns c.
Proof.
  intros Hh Hc raw e E1 E2 E3. destruct (Hc raw e E1 E2 E3) as (k & H1 & H2 & H3 & Ho). exists k.
  split; [done|]. split; [done|]. split; [done|]. destruct Ho. split; auto.
Qed.

Lemma inv_more h h' stopped open l ns w : (forall x, In x h -> In x h') ->
  inv l0 h stopped open l ns w -> inv l0 h' stopped open l ns w.
Proof.
  intros Hh [H1 H2 H3 H4 H5 H6 H7 H8 H9]. split; try done.
  - eapply Forall2_impl; [exact H5|]. intros k p (record & Hin & Hat). exists record. auto.
  - by apply (content_ok_handed h).
  - eapply Forall_impl; [exact H9|]. intros c. by apply content_ok_handed.
Qed.

(** What a process leaves when it stops. *)
Lemma inv_stopped h stopped w : died l0 h stopped w -> process_ok (stop w h stopped).
Proof.
  intros (open & l & ns & [H1 H2 H3 H4 H5 H6 H7 H8 H9] & Hn). exists l, ns. cbn.
  assert (Hs : forall k, settled stopped open k -> settled (contents w ++ stopped) none k).
  { intros k [?|?]; left; apply Exists_app; [by right|left; by apply Hn]. }
  split; try done.
  - intros k Hk. destruct (H6 k Hk); auto.
  - intros env Hi. destruct (H7 env Hi) as (? & k & ? & ? & Hk). split; [done|]. exists k.
    split; [done|]. split; [done|]. destruct Hk; auto.
Qed.

Lemma state_more h x stopped s w : sink_state l0 h stopped s w -> sink_state l0 (x :: h) stopped s w.
Proof.
  intros (open & ns & f & v & (l & Hi & Hf) & Hok). exists open, ns, f, v. split.
  - exists l. split; [|done]. apply (inv_more h); [by right|done].
  - unfold pending_ok in *. destruct (S_pending s) as [held|]; [|done]. destruct Hok as (? & ? & Hst). split; [done|]. split; [done|].
    destruct (P_state held); [|done]. destruct Hst as (? & ? & ? & ? & ?). split; [done|]. split; [done|]. by split; [right|].
Qed.

Lemma fresh_holds h st w l ns : inv l0 h st none l ns w -> holds l0 h st none ns (w_file w) (w_survive w) any w.
Proof. intros Hi. by exists l. Qed.

Lemma start_ok h st w o w' l ns : inv l0 h st none l ns w -> runs (Initialize (fresh runID profile)) w o w' ->
  died l0 h st w' /\ forall s r, o = Some (s, Ok r) -> process_ok (Build_system w' (Some s) h st).
Proof.
  intros Hi Hr.
  destruct (wp_sound (died l0 h st) _ _ _ _ Hr (fun x w1 => is_ok x.2 = true -> process_ok (Build_system w1 (Some x.1) h st))) as [Hd Ho].
  - eapply wp_Initialize; [exact runID_valid|done|done|by eapply fresh_holds|]. intros s r w1 Hid _ Hs Hok. by destruct (Hs Hok).
  - split; [done|]. intros s r ->. by apply Ho.
Qed.

Lemma record_ok h st w s record annotations learning o w' : S_runID s = runID -> sink_state l0 h st s w ->
  after_year_1 record -> kept record learning -> runs (Record_ record annotations learning s) w o w' ->
  died l0 ((record, learning) :: h) st w' /\
  forall s' r, o = Some (s', r) -> process_ok (Build_system w' (Some s') ((record, learning) :: h) st).
Proof.
  intros Hid Hs Hy Hk Hr. set (h' := (record, learning) :: h).
  destruct (wp_sound (died l0 h' st) _ _ _ _ Hr (fun x w1 => process_ok (Build_system w1 (Some x.1) h' st))) as [Hd Ho].
  - eapply wp_Record; [exact runID_valid|exact Hid|by apply state_more|by split; [left|]|].
    intros s' r w1 (E & _) H1. by split; [cbn; congruence|].
  - split; [done|]. intros s' r ->. exact Ho.
Qed.

Lemma state_died h st s w : sink_state l0 h st s w -> died l0 h st w.
Proof.
  intros Hs. exact (proj1 (state_between l0 h st s w (fun _ => True) Hs (fun _ _ => I) w (rtc_refl _ _))).
Qed.

Lemma sys_step_ok y y' : process_ok y -> sys_step y y' -> process_ok y'.
Proof.
  intros Hy Hs. destruct Hs as [w h st s r w' Hr|w h st s e w' Hr|w h st w' Hr|w s h st record ann p s' r w' Ha Hk Hr
    |w s h st record ann p w' Ha Hk Hr|w s h st|w h st c Hc|w w' p h st He].
  - destruct Hy as (l & ns & Hi). exact (proj2 (start_ok _ _ _ _ _ _ _ Hi Hr) s r eq_refl).
  - destruct Hy as (l & ns & Hi). apply inv_stopped. by apply (start_ok _ _ _ _ _ _ _ Hi Hr).
  - destruct Hy as (l & ns & Hi). apply inv_stopped. by apply (start_ok _ _ _ _ _ _ _ Hi Hr).
  - destruct Hy as [Hid Hy]. exact (proj2 (record_ok _ _ _ _ _ _ _ _ _ Hid Hy Ha Hk Hr) s' r eq_refl).
  - destruct Hy as [Hid Hy]. apply inv_stopped. by apply (record_ok _ _ _ _ _ _ _ _ _ Hid Hy Ha Hk Hr).
  - destruct Hy as [Hid Hy]. by apply inv_stopped, (state_died _ _ s).
  - destruct Hy as (l & ns & Hi). exists l, ns. apply inv_file; [done| |constructor]. cbn in *.
    destruct Hc as [<-|Hc]; [apply Hi|]. pose proof (iv_survive _ _ _ _ _ _ _ Hi) as Hv. rewrite Forall_forall in Hv.
    by apply Hv, list_elem_of_In.
  - destruct p as [s|]; cbn in *.
    + destruct Hy as [Hid (open & ns & f & v & Hh & Hok)]. split; [done|]. exists open, ns, f, v. split; [|done].
      by eapply holds_step; [apply lasting_any| |].
    + destruct Hy as (l & ns & Hi). destruct (inv_env _ _ _ _ _ _ _ _ Hi He) as (l' & _ & Hi' & _). by exists l', ns.
Qed.

Lemma at_start_ok s : sv_log s l0 -> process_ok (at_start s).
Proof.
  intros Hl. exists l0, []. split; cbn; [done|done|constructor|constructor|constructor| |done|done|constructor].
  intros k Hk. unfold base in *. lia.
Qed.

Lemma history_ok s y : sv_log s l0 -> rtc sys_step (at_start s) y -> process_ok y.
Proof.
  intros Hl Hr. apply (rtc_ind_r (R := sys_step) process_ok (at_start s)); [by apply at_start_ok| |done].
  intros y1 y2 _ Hs Hy. by apply (sys_step_ok y1).
Qed.
End history.

(** ** Executing a call

    [follow] runs a program with no failures but that the replies to its first [lost] POSTs
    never come; [fits] says that the server handles at most [n] of the others. *)
Section follow.
Context (now : time).

Fixpoint follow {A} (lost : nat) (p : prog file A) (w : world) : A * world :=
  match p with
  | Ret a => (a, w)
  | PostRecord env k =>
      match lost with
      | S lost => follow lost (k NoReply) (unanswered w env)
      | O => let '(s, reply) := post_record now (w_server w) env in follow 0 (k (Answered reply)) (with_server w s)
      end
  | GetIngestState k => follow lost (k (Answered (get_ingest_state (w_server w)))) w
  | GetProgress k => follow lost (k (Answered (get_progress (w_server w)))) w
  | ReplaceFile raw k => follow lost (k true) (with_file w (Some raw) [])
  | OpenFile k => follow lost (k (Some (w_file w))) w
  | RemoveFile k => follow lost (k true) (with_file w None [])
  | ApplyLearning payload k => follow lost (k true) (learned w payload)
  end.

Fixpoint fits {A} (lost n : nat) (p : prog file A) (w : world) : bool :=
  match p with
  | Ret _ => true
  | PostRecord env k =>
      match lost, n with
      | S lost, _ => fits lost n (k NoReply) (unanswered w env)
      | O, O => false
      | O, S n =>
          (0 <? instant (DR_Timestamp (Env_Record env))) &&
          let '(s, reply) := post_record now (w_server w) env in fits 0 n (k (Answered reply)) (with_server w s)
      end
  | GetIngestState k => fits lost n (k (Answered (get_ingest_state (w_server w)))) w
  | GetProgress k => fits lost n (k (Answered (get_progress (w_server w)))) w
  | ReplaceFile raw k => fits lost n (k true) (with_file w (Some raw) [])
  | OpenFile k => fits lost n (k (Some (w_file w))) w
  | RemoveFile k => fits lost n (k true) (with_file w None [])
  | ApplyLearning payload k => fits lost n (k true) (learned w payload)
  end.

Lemma room_of s l n : sv_log s l -> Z.of_nat (length l + S n) < 2 ^ 53 -> room s.
Proof. intros Hl Hn l' Hl'. rewrite (log_length s l' l) by done. lia. Qed.

Lemma follow_runs {A} (p : prog file A) : forall lost n w l, sv_log (w_server w) l -> Z.of_nat (length l + n) < 2 ^ 53 ->
  fits lost n p w = true -> runs p w (Some (follow lost p w).1) (follow lost p w).2.
Proof.
  induction p as [a|env k IH|k IH|k IH|raw k IH|k IH|k IH|payload k IH]; intros lost n w l Hl Hn Hf; cbn in Hf |- *.
  - constructor.
  - destruct lost as [|lost]; [|by econstructor; [constructor|eapply IH]].
    destruct n as [|n]; [done|]. apply andb_true_iff in Hf as [Hy%Z.ltb_lt Hf].
    destruct (post_record now (w_server w) env) as [s reply] eqn:Ep. pose proof (room_of _ _ _ Hl Hn) as Hr.
    eapply r_post; [eapply po_server, Handles; [exact Hr|exact Ep]|].
    destruct (post_log now _ l env s reply Hl (Hr _ Hl) Hy Ep) as [(Hl' & _)|[(-> & _)|(-> & _)]].
    + eapply (IH _ 0%nat n); [exact Hl'|rewrite length_app; cbn; lia|done].
    + eapply (IH _ 0%nat n); [exact Hl|lia|done].
    + eapply (IH _ 0%nat n); [exact Hl|lia|done].
  - eapply r_state; [apply go_server|]. by eapply IH.
  - eapply r_progress; [apply go_server|]. by eapply IH.
  - eapply r_replace; [apply fo_done|]. by eapply IH.
  - eapply r_open. by eapply IH.
  - eapply r_remove; [apply fo_done|]. by eapply IH.
  - eapply r_learn; [apply lo_done|]. by eapply IH.
Qed.

Lemma follow_bind {A B} (p : prog file A) (f : A -> prog file B) : forall w,
  follow 0 (prog_bind p f) w = follow 0 (f (follow 0 p w).1) (follow 0 p w).2.
Proof.
  induction p as [a|env k IH|k IH|k IH|raw k IH|k IH|k IH|payload k IH]; intros w; cbn; try apply IH; [done|].
  destruct (post_record _ _ _). apply IH.
Qed.
End follow.
End world.

(** * Properties *)
Section properties.
Context {file : Type} {J : DeliveryJSON file} {St : Type} {RS : RunServer St} {RL : RunServerLaws St}.

(** C4: learning is delivered exactly once and in order.  Whatever one collector after another
    does to a run - any calls, the process or the machine stopping at any point, replies lost
    and their requests handled later or twice, file operations and learning failing on either
    side of their effect - every payload applied to the baselines belongs to its own record of
    the run, the one it was handed in with, at increasing positions, so none is applied twice
    or for a record the run does not hold; and every record of the run since the history
    began was learned, or is the one the live process still holds, or was named by the entry
    that may have been on file when some process stopped.  Nobody else posts to the run, it
    stays below 2^53 records, and the records are dated after year 1 and ones encoding/json
    gives back as they were. *)
Theorem delivery_exactly_once runID profile l0 (s : St) y :
  valid_string runID = true -> sv_log s l0 -> rtc (sys_step runID profile) (at_start s) y ->
  let w := sy_world y in let began := Z.of_nat (length l0) in
  exists l ns, sv_log (w_server w) l /\ l0 `prefix_of` l /\ StronglySorted Z.lt ns /\
    Forall2 (fun k payload => began < k /\ exists record r,
      In (record, payload) (sy_handed y) /\ l !! Z.to_nat (k - 1) = Some r /\ same_record r record) ns (w_learned w) /\
    forall k, began < k <= Z.of_nat (length l) ->
      In k ns \/
      (exists sink held, sy_process y = Some sink /\ S_pending sink = Some held /\ P_sequence held = k) \/
      (exists raw e, In (Some raw) (sy_stopped y) /\ unmarshal_entry raw = Some e /\ E_Sequence e = format_uint 10 k).
Proof.
  intros Hv Hl Hr. cbv zeta. pose proof (history_ok runID profile l0 Hv s y Hl Hr) as Hy.
  assert (Hstop : forall k, Exists (names k) (sy_stopped y) ->
    exists raw e, In (Some raw) (sy_stopped y) /\ unmarshal_entry raw = Some e /\ E_Sequence e = format_uint 10 k).
  { intros k Hk. apply Exists_exists in Hk as (c & Hc & raw & e & -> & Hu & Hs). exists raw, e. by rewrite <- list_elem_of_In. }
  assert (Hinv : exists open l ns, inv l0 (sy_handed y) (sy_stopped y) open l ns (sy_world y) /\
    forall k, open k -> exists sink held, sy_process y = Some sink /\ S_pending sink = Some held /\ P_sequence held = k).
  { unfold process_ok in Hy. destruct (sy_process y) as [sink|].
    - destruct Hy as (_ & open & ns & f & v & (l & Hi & _) & Hok). exists open, l, ns. split; [done|]. unfold pending_ok in Hok.
      destruct (S_pending sink) as [held|] eqn:Ep; destruct Hok as (-> & _); [|done]. intros k ->. by exists sink, held.
    - destruct Hy as (l & ns & Hi). exists none, l, ns. by split; [|intros k []]. }
  destruct Hinv as (open & l & ns & [H1 H2 H3 H4 H5 H6 _ _ _] & Hopen). exists l, ns. split_and!; try done.
  - clear -H4 H5. induction H5 as [|k p ns ps (record & Hin & _ & r & Hl & Hs)]; [done|].
    apply Forall_cons in H4 as [? ?]. constructor; [|auto]. split; [done|]. by exists record, r.
  - intros k Hk. destruct (H6 k Hk) as [?|[?|?]]; [by left|right; right; auto|right; left; auto].
Qed.

(** The entry this writer wrote is the one that loads. *)
Lemma loaded_entry s st held raw : S_runID s <> "" -> valid_string (S_runID s) = true -> 0 < P_sequence held <= 2 ^ 53 ->
  marshal_entry (entryFor (S_runID s) st held) = Some raw -> file_size raw + stateHeadroom (state_text st) <= maxPendingFile ->
  kept (P_record held) (P_learning held) -> P_learning held <> "" ->
  loaded (Some (Some raw)) = Ok (Some (entryFor (S_runID s) st held, P_sequence held, st)).
Proof.
  intros Hid Hv Hk Hm Hsize Hkept Hlearn. unfold loaded.
  assert (0 <= stateHeadroom (state_text st)) by (by destruct st; vm_compute).
  rewrite (proj2 (Z.ltb_ge _ _)) by lia. rewrite (entry_roundtrip _ _ Hm Hkept Hv). unfold checked_entry, entryFor.
  cbn [E_Version E_RunID E_Sequence E_State E_Learning]. rewrite (proj2 (String.eqb_neq _ _) Hid), (proj2 (String.eqb_neq _ _) Hlearn).
  rewrite parseSequence_format by (unfold is_u64, max_u64; lia). by destruct st.
Qed.

(** The last record of a running run is recognized, and its learning applied. *)
Lemma follow_reconcile now held s (w : world (file := file) (St := St)) l1 r0 raw size : let k := P_sequence held in
  sv_running (S_profile s) (w_server w) -> sv_log (w_server w) (l1 ++ [r0]) -> k = Z.of_nat (length l1) + 1 ->
  same_record r0 (P_record held) -> P_annotations held = no_annotations ->
  envelope_size (envelope_of k (S_profile s) no_annotations (P_record held)) = Some size -> size <= maxRequestBody ->
  marshal_entry (entryFor (S_runID s) stateConfirmed held) = Some raw -> file_size raw <= maxPendingFile ->
  follow now 0 (reconcile held s) w =
    ((with_pending (with_next s (k + 1)) None, Ok dispositionReplayed),
     with_file (learned (with_file w (Some raw) []) (P_learning held)) None []).
Proof.
  intros k Hrun Hl Hk Hsame Ha He Hb Hm Hs. pose proof (log_small _ _ Hl) as Hsm. rewrite length_app in Hsm. cbn [length] in Hsm.
  assert (Hpost : post_record now (w_server w) (envelope_of k (S_profile s) no_annotations (P_record held)) =
    (w_server w, ingest_reply dispositionReplayed (k + 1))).
  { rewrite (running_replays (S_profile s) now (w_server w) l1 r0); try done; [|by rewrite Hk]. by rewrite Hk, <- Z.add_assoc. }
  unfold reconcile, call_bind at 1, attempt, client_ingest. rewrite !follow_bind, Ha. fold k. rewrite He.
  rewrite (proj2 (Z.ltb_ge _ _) Hb). cbn [follow]. rewrite Hpost. cbn [follow fst snd].
  rewrite ingest_result_disposed by (unfold is_u64, max_u64; lia). unfold attempt_reply.
  change (negb _) with false. cbv iota. rewrite (proj2 (Z.leb_gt (k + 1) k)) by lia. cbn [follow fst snd].
  unfold call_bind at 1. rewrite follow_bind. unfold settle, call_bind at 1. rewrite follow_bind. unfold journal_write.
  cbn [S_runID with_next]. rewrite Hm. change (E_State _) with "confirmed". change (stateHeadroom "confirmed") with 0. rewrite Z.add_0_r.
  rewrite (proj2 (Z.ltb_ge _ _) Hs). by destruct w.
Qed.

(** C5: a restart settles what the last process left, whenever the run is running, nothing
    fails, and the entry on file is one this sink wrote within its limits, of a record and a
    payload encoding/json gives back as they were.  An entry marked posting whose sequence the run still expects is
    discarded, and nothing is learned; one whose record the run holds in that position is
    recognized without being counted again, its learning applied once; an entry marked
    confirmed right behind the cursor is released as indeterminate and not learned.  In each
    case the file is gone, the sink is ready with the run's cursor, and what it answers names
    the sequence.  An entry the cursor contradicts is refused, and nothing changes. *)
Theorem recovery_settles now s (w : world (file := file) (St := St)) l st held raw size :
  let k := P_sequence held in let n := Z.of_nat (length l) in
  S_pending s = None -> S_runID s <> "" -> valid_string (S_runID s) = true ->
  sv_running (S_profile s) (w_server w) -> sv_log (w_server w) l -> 0 < k <= 2 ^ 53 ->
  w_file w = Some raw -> marshal_entry (entryFor (S_runID s) st held) = Some raw ->
  file_size raw + stateHeadroom (state_text st) <= maxPendingFile ->
  kept (P_record held) (P_learning held) -> P_learning held <> "" ->
  envelope_size (envelope_of k (S_profile s) no_annotations (P_record held)) = Some size -> size <= maxRequestBody ->
  let '(s', r, w') := follow now 0 (Initialize s) w in
  let recovered outcome disposition :=
    r = Ok {| Rec_Outcome := outcome; Rec_Sequence := k; Rec_Disposition := disposition |} /\
    w_server w' = w_server w /\ w_file w' = None /\ w_survive w' = [] /\
    S_pending s' = None /\ S_initialized s' = true /\ S_next s' = n + 1 in
  match st with
  | statePosting =>
      (k = n + 1 -> recovered RecoveryDiscarded "" /\ w_learned w' = w_learned w) /\
      (forall l1 r0, l = (l1 ++ [r0])%list -> k = n -> same_record r0 (P_record held) ->
         recovered RecoveryCompleted dispositionReplayed /\ w_learned w' = (w_learned w ++ [P_learning held])%list) /\
      (k <> n -> k <> n + 1 -> r = Err [] /\ w' = w)
  | stateConfirmed =>
      (k = n -> recovered RecoveryIndeterminate "" /\ w_learned w' = w_learned w) /\
      (k <> n -> r = Err [] /\ w' = w)
  end.
Proof.
  intros k n Hp Hid Hv Hrun Hl Hk Hf Hm Hsize Hkept Hlearn Henv Hbody.
  destruct (running_answers _ _ _ Hrun Hl) as [[next Hprog] Hstate]. fold n in Hstate. pose proof (log_small _ _ Hl) as Hsmall. fold n in Hsmall.
  assert (Hn : state_result (Answered (state_reply (n + 1))) = Ok (n + 1)) by (apply state_result_next; unfold is_u64, max_u64; lia).
  assert (Hload := loaded_entry s st held raw Hid Hv Hk Hm Hsize Hkept Hlearn). fold k in Hload.
  assert (Hu : u64 (k + 1) = k + 1) by (apply u64_small; unfold is_u64, max_u64; lia).
  unfold Initialize, call_bind at 1. rewrite follow_bind. cbn [follow client_runStatus fst snd]. rewrite Hprog.
  assert (Er : progress_result (Answered (progress_reply "running" next)) = Ok "running") by reflexivity.
  rewrite Er. cbv beta iota. change (negb ("running" =s runStatusRunning)%go) with false. cbv iota.
  unfold call_bind at 1. rewrite follow_bind. cbn [follow journal_load fst snd]. rewrite Hf, Hload. cbn [E_RunID entryFor].
  rewrite String.eqb_refl. cbn [negb]. unfold recover, call_bind at 1. rewrite follow_bind.
  cbn [follow client_ingestState fst snd]. rewrite Hstate, Hn, Hu. destruct st.
  - destruct (Z.eqb_spec (n + 1) k) as [E|E].
    { cbn. rewrite E, Hp. split_and!; try done; lia. }
    destruct (Z.eqb_spec (n + 1) (k + 1)) as [E1|E1]; [|cbn; split_and!; done || lia].
    unfold call_bind. rewrite follow_bind. set (held' := Build_pendingRecord _ _ _ _ _).
    destruct (follow now 0 (reconcile held' _) w) as [[s1 r1] w1] eqn:Ef. cbn [fst snd].
    destruct (follow now 0 _ w1) as [[s' r] w'] eqn:Ef'. split_and!; [lia| |lia].
    intros l1 r0 -> _ Hsame. destruct (entry_state _ _ "confirmed" Hm (or_intror eq_refl)) as (raw' & Hm' & Hsz).
    assert (Hsz' : file_size raw' <= maxPendingFile).
    { change (text_len (E_State _)) with 7 in Hsz. change (text_len "confirmed") with 9 in Hsz.
      change (stateHeadroom (state_text statePosting)) with 2 in Hsize. lia. }
    assert (Hk1 : k = Z.of_nat (length l1) + 1) by (unfold n in E1; rewrite length_app in E1; cbn [length] in E1; lia).
    rewrite (follow_reconcile now held' _ w l1 r0 raw' size) in Ef; try done.
    injection Ef as <- <- <-. cbn in Ef'. injection Ef' as <- <- <-. cbn. split_and!; done || lia.
  - destruct (Z.eqb_spec (n + 1) (k + 1)) as [E|E]; cbn; [|split_and!; done || lia]. rewrite Hp. split_and!; try done; lia.
Qed.
(** A start with no entry on file takes the run's cursor. *)
Lemma runs_start s (w : world (file := file) (St := St)) l : S_pending s = None ->
  sv_running (S_profile s) (w_server w) -> sv_log (w_server w) l -> w_file w = None ->
  runs (Initialize s) w (Some (with_initialized (with_next s (Z.of_nat (length l) + 1)),
    Ok {| Rec_Outcome := RecoveryNone; Rec_Sequence := 0; Rec_Disposition := "" |})) w.
Proof.
  intros Hp Hrun Hl Hf. destruct (running_answers _ _ _ Hrun Hl) as [[next Hprog] Hstate]. pose proof (log_small _ _ Hl).
  unfold Initialize, call_bind, client_runStatus, journal_load, client_ingestState. cbn [prog_bind].
  eapply r_progress; [apply go_server|]. rewrite Hprog.
  assert (Er : progress_result (Answered (progress_reply "running" next)) = Ok "running") by reflexivity.
  rewrite Er. cbv beta iota. change (negb ("running" =s runStatusRunning)%go) with false. cbv iota. cbn [prog_bind].
  eapply r_open. rewrite Hf. cbn [loaded prog_bind]. eapply r_state; [apply go_server|]. rewrite Hstate, state_result_next.
  - constructor.
  - unfold is_u64, max_u64. lia.
  - lia.
Qed.

(** C39: a record a restart reports as discarded can still enter the run.  Its request was
    sent, no reply came, the process stopped; the next one reads a cursor that still
    expects the sequence, reports the record discarded and is ready for that sequence; then
    the server handles the request.  The run holds the record, nothing was learned from it,
    the sink does not hold it and no entry names it. *)
Theorem discarded_record_can_land now runID profile (s s' : St) l record annotations learning raw size :
  let k := Z.of_nat (length l) + 1 in let env := envelope_of k profile annotations record in
  let held := {| P_sequence := k; P_record := record; P_learning := learning; P_annotations := annotations; P_state := statePosting |} in
  runID <> "" -> valid_string runID = true -> sv_running profile s -> sv_log s l -> k < 2 ^ 53 ->
  after_year_1 record -> kept record learning -> learning <> "" ->
  marshal_entry (entryFor runID statePosting held) = Some raw -> file_size raw + stateHeadroom "posting" <= maxPendingFile ->
  envelope_size env = Some size -> size <= maxRequestBody ->
  post_record now s env = (s', ingest_reply dispositionApplied (k + 1)) ->
  exists y sink w w', rtc (sys_step runID profile) (at_start s) y /\ sy_process y = None /\
    runs (Initialize (fresh runID profile)) (sy_world y)
      (Some (sink, Ok {| Rec_Outcome := RecoveryDiscarded; Rec_Sequence := k; Rec_Disposition := "" |})) w /\
    S_initialized sink = true /\ S_next sink = k /\ S_pending sink = None /\
    env_step w w' /\ sv_log (w_server w') (l ++ [record]) /\ w_learned w' = [] /\ w_file w' = None /\ w_survive w' = [].
Proof.
  intros k env held Hid Hv Hrun Hl Hk Hy Hkept Hlearn Hm Hsize He Hb Hpost.
  destruct (running_answers _ _ _ Hrun Hl) as [[next Hprog] Hstate]. fold k in Hstate.
  set (w0 := sy_world (at_start (file := file) s)). set (s1 := with_initialized (with_next (fresh runID profile) k)).
  set (w1 := with_file w0 (Some raw) []). set (w2 := unanswered (unanswered w1 env) env).
  assert (Hroom : room s) by (intros l' Hl'; rewrite (log_length s l' l) by done; unfold k in Hk; lia).
  assert (Hrec : exists e, runs (Record_ record annotations learning s1) w0 (Some (with_pending s1 (Some held), Err e)) w2).
  { unfold Record_, s1. cbn [S_initialized with_initialized negb S_pending with_next fresh].
    rewrite (proj2 (String.eqb_neq _ _) Hlearn). unfold record_next, call_bind, journal_write, attempt, client_ingest.
    cbn [S_next S_runID S_profile with_initialized with_next fresh]. fold held. rewrite Hm. cbn [entryFor E_State state_text].
    rewrite (proj2 (Z.ltb_ge _ _) Hsize). cbn [prog_bind]. eexists. eapply r_replace; [apply fo_done|]. cbn [prog_bind S_profile with_pending].
    change (envelope_size _) with (envelope_size env). rewrite He, (proj2 (Z.ltb_ge _ _) Hb). cbn [prog_bind].
    eapply r_post; [apply po_lost|].
    assert (El : ingest_result NoReply = Err unknownOutcome) by reflexivity. rewrite El. cbn [attempt_reply fail prog_bind].
    assert (Eu : outcomeUnknown unknownOutcome = true) by reflexivity. rewrite Eu. cbn [negb].
    unfold reconcile, call_bind, attempt, client_ingest. cbn [P_sequence P_record P_annotations held S_profile with_pending].
    change (envelope_size _) with (envelope_size env). rewrite He, (proj2 (Z.ltb_ge _ _) Hb). cbn [prog_bind].
    eapply r_post; [apply po_lost|]. constructor. }
  destruct Hrec as [e Hrec]. set (y := stop w2 [(record, learning)] []).
  exists y, (with_initialized (with_next (fresh runID profile) k)), (with_file w2 None []), (with_server (with_file w2 None []) s').
  split_and!; try done.
  - eapply rtc_l; [eapply sy_start; eapply (runs_start (fresh runID profile) w0 l); done|].
    eapply rtc_l; [by eapply sy_record|]. apply rtc_once. apply sy_stop.
  - unfold Initialize, call_bind, client_runStatus, journal_load. cbn [prog_bind].
    eapply r_progress; [apply go_server|]. change (w_server _) with s. rewrite Hprog.
    assert (Er : progress_result (Answered (progress_reply "running" next)) = Ok "running") by reflexivity.
    rewrite Er. cbv beta iota. change (negb ("running" =s runStatusRunning)%go) with false. cbv iota. cbn [prog_bind].
    eapply r_open. change (w_file _) with (Some raw). rewrite (loaded_entry (fresh runID profile) statePosting held raw) by (done || (cbn; unfold k; lia)).
    cbn [E_RunID entryFor fresh S_runID]. rewrite String.eqb_refl. cbn [negb]. unfold recover, call_bind, client_ingestState. cbn [prog_bind].
    eapply r_state; [apply go_server|]. change (w_server _) with s. rewrite Hstate, state_result_next by (unfold is_u64, max_u64, k in *; lia).
    cbn [P_sequence held]. rewrite Z.eqb_refl. unfold journal_clear. cbn [prog_bind]. eapply r_remove; [apply fo_done|]. constructor.
  - eapply es_handled; [by left|]. eapply Handles; [exact Hroom|exact Hpost].
  - destruct (post_log now s l env s' _ Hl (Hroom _ Hl) Hy Hpost) as [(Hl' & _)|[(_ & _ & Hr & _)|(_ & Hr)]]; [done| |by cbn in Hr].
    discriminate Hr.
Qed.
End properties.

Lemma stated_count has v : is_u64 v -> optional_count (optional_text has (format_uint 10 v)) = Some (if has then Some v else None).
Proof. intros Hv. destruct has; [|done]. cbn -[envelopeCount format_uint]. by rewrite envelopeCount_format. Qed.

Lemma facts_read_back k profile annotations record : let code := An_HTTPStatusCode annotations in let u := An_Usage annotations in
  0 <= code < 2 ^ 16 -> is_u64 (Usage_Input u) /\ is_u64 (Usage_Output u) /\ is_u64 (Usage_Unsplit u) ->
  operationalFactsFrom (envelope_of k profile annotations record) =
  if ((code =? 0) || ((100 <=? code) && (code <=? 599))) && negb (HasUnsplit u && (HasInput u || HasOutput u)) then
    Some {| HTTPStatusCode := code;
            F_Usage := {| Usage_Input := if HasInput u then Usage_Input u else 0; HasInput := HasInput u;
                          Usage_Output := if HasOutput u then Usage_Output u else 0; HasOutput := HasOutput u;
                          Usage_Unsplit := if HasUnsplit u then Usage_Unsplit u else 0; HasUnsplit := HasUnsplit u |};
            F_Fidelity := ""; F_Layer := LayerUnspecified |}
  else None.
Proof.
  intros code u Hc (U1 & U2 & U3). unfold operationalFactsFrom, envelope_of.
  cbn [Env_HTTPStatusCode Env_TokensInput Env_TokensOutput Env_TokensUnsplit]. fold code u. rewrite !stated_count by done.
  assert (Hcode : (match optional_text (negb (code =? 0)) (format_uint 10 code) with
    | None => Some 0
    | Some raw => code ← envelopeCount raw; if (code <? 100) || (599 <? code) then None else Some code end) =
    if (code =? 0) || ((100 <=? code) && (code <=? 599)) then Some code else None).
  { destruct (Z.eqb_spec code 0) as [->|]; [done|]. cbn -[envelopeCount format_uint]. rewrite envelopeCount_format by (unfold is_u64, max_u64; lia). cbn.
    destruct (Z.ltb_spec code 100), (Z.ltb_spec 599 code), (Z.leb_spec 100 code), (Z.leb_spec code 599); done || lia. }
  rewrite Hcode. destruct ((code =? 0) || _); [|done]. by destruct (HasInput u), (HasOutput u), (HasUnsplit u).
Qed.

(** the control plane reads out of an envelope what the collector put in: at the ingest
    route the request the client encodes is the call [IngestDecisionRecord] makes of the same
    sequence, profile, record, fidelity, layer, status code and stated token counts, unstated
    ones absent, and the reply is that call's answer; an envelope is refused as invalid
    exactly when its fidelity or layer is not one the platform knows, its status code is
    outside 100 to 599, or unsplit tokens come beside input or output tokens. *)
Theorem envelope_read_back RecordDigest runID now p k profile annotations record :
  let code := An_HTTPStatusCode annotations in let u := An_Usage annotations in
  is_u64 k -> 0 < k -> 0 <= code < 2 ^ 16 -> usage_range u ->
  ingestRecord RecordDigest runID now p (envelope_of k profile annotations record) =
  if ((An_Fidelity annotations =s "") || Fidelity_Valid (An_Fidelity annotations))%go &&
     ((An_Layer annotations =s "") || Layer_Valid (An_Layer annotations))%go &&
     ((code =? 0) || ((100 <=? code) && (code <=? 599))) && negb (HasUnsplit u && (HasInput u || HasOutput u)) then
    match IngestDecisionRecord RecordDigest (pf_ingest p)
      {| IR_RunID := runID; IR_Sequence := k; IR_BehavioralProfile := profile; IR_Fidelity := An_Fidelity annotations;
         IR_BehaviorLayer := An_Layer annotations;
         IR_Operational := {| HTTPStatusCode := code;
           F_Usage := {| Usage_Input := if HasInput u then Usage_Input u else 0; HasInput := HasInput u;
                         Usage_Output := if HasOutput u then Usage_Output u else 0; HasOutput := HasOutput u;
                         Usage_Unsplit := if HasUnsplit u then Usage_Unsplit u else 0; HasUnsplit := HasUnsplit u |};
           F_Fidelity := ""; F_Layer := LayerUnspecified |};
         ReceivedAt := now; IR_Record := record |} with
    | Ok (s, result) => ({| pf_ingest := s; pf_catalog := pf_catalog p; pf_scenarios := pf_scenarios p |},
        ingest_reply (match IRes_Disposition result with IngestApplied => "applied" | IngestReplayed => "replayed" end)
          (IRes_NextSequence result))
    | Err e => (p, writeError e)
    end
  else (p, invalid_request).
Proof.
  intros code u Hk H0 Hc [U1 U2 U3]. unfold ingestRecord, envelope_of.
  cbn [Env_Version Env_Sequence Env_BehavioralProfile Env_Fidelity Env_BehaviorLayer Env_HTTPStatusCode Env_TokensInput
    Env_TokensOutput Env_TokensUnsplit Env_Record]. fold code u. rewrite String.eqb_refl, ParseSequence_format by (done || lia). cbn [negb].
  rewrite <- !negb_orb, !if_negb. destruct (_ || Fidelity_Valid _); [|done]. destruct (_ || Layer_Valid _); [|done]. cbn [andb].
  change (Build_ingestEnvelope _ _ _ _ _ _ _ _ _ _) with (envelope_of k profile annotations record).
  rewrite (facts_read_back k profile annotations record Hc (conj U1 (conj U2 U3))). fold code u. by destruct (_ && _).
Qed.
(** ** Witnesses: the sink against the control plane of this development *)

(** JSON that keeps an entry as it is; its size is what the state adds. *)
#[export] Instance plain_entries : DeliveryJSON pendingEntry.
Proof.
  refine {| envelope_size _ := Some 0; marshal_entry := Some; unmarshal_entry := Some;
            file_size e := text_len (E_State e); kept _ _ := True |}.
  - intros e raw E _ _. exact (eq_sym E).
  - intros e raw state [= <-] _. exists (with_state e state). split; [reflexivity|]. cbn. apply Z.add_comm.
Defined.

Definition example_platform : platform :=
  {| pf_ingest := example_system; pf_catalog := empty_catalog; pf_scenarios := no_scenarios |}.
#[local] Instance example_server : RunServer platform := ingest_server example_digest "run-1".
#[local] Instance example_laws : RunServerLaws platform := ingest_server_laws example_digest example_digest_shape "run-1".

Lemma example_run_loads : loadRun (pf_runs example_platform) "run-1" = Ok example_running.
Proof. by vm_compute. Qed.
Lemma example_served : sv_log example_platform [].
Proof.
  destruct (reachable_config example_digest example_digest_shape _ _ example_system_reachable) as [logs Hc].
  exists logs, example_running. split; [exact Hc|]. split; [exact example_run_loads|].
  destruct (state_of_log example_digest example_digest_shape _ _ _ _ (proj1 Hc) example_run_loads) as (st & Hst & _ & Hn & _).
  assert (Hv : (st ← ingestState (sys_runs example_system) (sys_evidence example_system) "run-1"; Ok (is_recordCount st)) = Ok 0) by by vm_compute.
  change (sys_runs (pf_ingest example_platform)) with (sys_runs example_system) in Hst.
  change (sys_evidence (pf_ingest example_platform)) with (sys_evidence example_system) in Hst.
  rewrite Hst in Hv. cbn in Hv. injection Hv as Hv. rewrite Hn in Hv. by destruct (logs "run-1").
Qed.
Lemma example_is_running : sv_running "default" example_platform.
Proof. exists example_running. split; [exact example_run_loads|]. by split; vm_compute. Qed.

Definition example_annotations : Annotations :=
  {| An_Fidelity := F_Fidelity example_facts; An_Layer := F_Layer example_facts;
     An_HTTPStatusCode := HTTPStatusCode example_facts; An_Usage := F_Usage example_facts |}.
Definition example_now : time := Time (unix_epoch + 3000) 0.
Definition started_sink : Sink := with_initialized (with_next (fresh "run-1" "default") 1).
Definition delivered_call : Sink * res string * world :=
  follow example_now 0 (Record_ (example_record "1500" "ok") example_annotations "{}" started_sink)
    (sy_world (at_start (file := pendingEntry) example_platform)).

Lemma delivered_example : (delivered_call.1.2, w_learned delivered_call.2, w_file delivered_call.2) =
  (Ok dispositionApplied, ["{}"], None).
Proof. by vm_compute. Qed.

Lemma delivery_exactly_once_witness : exists y, rtc (sys_step "run-1" "default") (at_start (file := pendingEntry) example_platform) y /\
  w_learned (sy_world y) = ["{}"] /\ exists l ns, sv_log (w_server (sy_world y)) l /\ StronglySorted Z.lt ns /\ length ns = 1%nat.
Proof.
  set (y := Build_system delivered_call.2 (Some delivered_call.1.1) [(example_record "1500" "ok", "{}")] []).
  assert (Hr : rtc (sys_step "run-1" "default") (at_start (file := pendingEntry) example_platform) y).
  { eapply rtc_l; [eapply sy_start; eapply (runs_start (fresh "run-1" "default") _ []); [reflexivity|exact example_is_running|exact example_served|reflexivity]|].
    apply rtc_once. apply (sy_record _ _ _ _ _ _ _ example_annotations _ _ delivered_call.1.2); [by vm_compute|done|].
    pose proof (follow_runs example_now (Record_ (example_record "1500" "ok") example_annotations "{}" started_sink) 0 1
      (sy_world (at_start (file := pendingEntry) example_platform)) [] example_served ltac:(by vm_compute) ltac:(by vm_compute)) as Hf.
    destruct delivered_call as [[s r] w] eqn:Ed. unfold delivered_call in Ed. rewrite Ed in Hf. exact Hf. }
  pose proof (f_equal (fun x => x.1.2) delivered_example : w_learned delivered_call.2 = ["{}"]) as He.
  exists y. split; [exact Hr|]. split; [exact He|].
  destruct (delivery_exactly_once "run-1" "default" [] example_platform y ltac:(by vm_compute) example_served Hr)
    as (l & ns & Hl & _ & Hs & Hf & _).
  exists l, ns. split; [exact Hl|]. split; [exact Hs|]. apply Forall2_length in Hf. rewrite Hf.
  change (w_learned (sy_world y)) with (w_learned delivered_call.2). by rewrite He.
Defined.

Definition example_held (st : pendingState) : pendingRecord :=
  {| P_sequence := 1; P_record := example_record "1500" "ok"; P_learning := "{}"; P_annotations := example_annotations; P_state := st |}.
Definition example_left (st : pendingState) : world :=
  with_file (sy_world (at_start (file := pendingEntry) example_platform)) (Some (entryFor "run-1" st (example_held st))) [].

(** The run never counted the record of the entry: it is discarded. *)
Lemma recovery_settles_witness :
  let '(s', r, w') := follow example_now 0 (Initialize (fresh "run-1" "default")) (example_left statePosting) in
  r = Ok {| Rec_Outcome := RecoveryDiscarded; Rec_Sequence := 1; Rec_Disposition := "" |} /\ w_file w' = None /\ S_next s' = 1.
Proof.
  assert (Hk : 0 < 1 <= 2 ^ 53) by (split; [reflexivity|discriminate]).
  assert (Hs : file_size (entryFor "run-1" statePosting (example_held statePosting)) + stateHeadroom (state_text statePosting) <= maxPendingFile)
    by (vm_compute; discriminate).
  pose proof (recovery_settles example_now (fresh "run-1" "default") (example_left statePosting) [] statePosting (example_held statePosting)
    (entryFor "run-1" statePosting (example_held statePosting)) 0 eq_refl ltac:(discriminate) ltac:(reflexivity) example_is_running
    example_served Hk eq_refl eq_refl Hs I ltac:(discriminate) eq_refl ltac:(vm_compute; discriminate)) as H.
  destruct (follow example_now 0 (Initialize (fresh "run-1" "default")) (example_left statePosting)) as [[s' r] w'].
  destruct H as (H & _ & _). destruct (H eq_refl) as ((H1 & _ & H2 & _ & _ & _ & H3) & _).
  split; [exact H1|]. split; [exact H2|exact H3].
Defined.

Definition counted : platform * response :=
  post_record example_now example_platform (envelope_of 1 "default" example_annotations (example_record "1500" "ok")).
Lemma counted_reply : counted.2 = ingest_reply dispositionApplied 2.
Proof. by vm_compute. Qed.

Lemma discarded_record_can_land_witness : exists (y : system (file := pendingEntry) (St := platform)) sink w w',
  rtc (sys_step "run-1" "default") (at_start example_platform) y /\
  runs (Initialize (fresh "run-1" "default")) (sy_world y)
    (Some (sink, Ok {| Rec_Outcome := RecoveryDiscarded; Rec_Sequence := 1; Rec_Disposition := "" |})) w /\
  env_step w w' /\ sv_log (w_server w') [example_record "1500" "ok"] /\ w_learned w' = [].
Proof.
  assert (Hp : post_record example_now example_platform (envelope_of 1 "default" example_annotations (example_record "1500" "ok")) =
    (counted.1, ingest_reply dispositionApplied 2)) by (rewrite <- counted_reply; exact (surjective_pairing counted)).
  assert (Hy : after_year_1 (example_record "1500" "ok")) by reflexivity.
  assert (Hs : file_size (entryFor "run-1" statePosting (example_held statePosting)) + stateHeadroom "posting" <= maxPendingFile)
    by (vm_compute; discriminate).
  destruct (discarded_record_can_land example_now "run-1" "default" example_platform counted.1 [] (example_record "1500" "ok")
    example_annotations "{}" (entryFor "run-1" statePosting (example_held statePosting)) 0 ltac:(discriminate) ltac:(reflexivity)
    example_is_running example_served ltac:(reflexivity) Hy I ltac:(discriminate) eq_refl Hs eq_refl ltac:(vm_compute; discriminate) Hp)
    as (y & sink & w & w' & H1 & _ & H2 & _ & _ & _ & H3 & H4 & H5 & _).
  exists y, sink, w, w'. exact (conj H1 (conj H2 (conj H3 (conj H4 H5)))).
Defined.

Lemma envelope_read_back_witness :
  (ingestRecord example_digest "run-1" example_now example_platform
     (envelope_of 1 "default" example_annotations (example_record "1500" "ok"))).2 = ingest_reply "applied" 2.
Proof.
  rewrite (envelope_read_back example_digest "run-1" example_now example_platform 1 "default" example_annotations (example_record "1500" "ok"));
    [vm_compute; reflexivity|vm_compute; split; discriminate|reflexivity|vm_compute; split; [discriminate|reflexivity]|].
  split; vm_compute; split; discriminate.
Defined.
